(* ===== verification/_CoqProject ===== *)
-Q . S2P
Prelude.v
PyStr.v
PyFloat.v
PyFloatFacts.v
ParserMonad.v
QlAst.v
QlLexer.v
QlParser.v
QlParserFacts.v
Evaluator.v
EvaluatorFacts.v
SqlText.v
Json.v
Fs.v
Store.v
MemoryStore.v
LocalStore.v
S3Store.v
StoreFacts.v
Manifest.v
Gc.v
ManifestFacts.v
Replication.v
Osc.v
OscFacts.v
UpdateServer.v
Numpy.v
Cells.v
Catalog.v
CellSelect.v
CellsFacts.v
LayoutHilbert.v
EngineHilbert.v
HilbertFacts.v
LeafSelect.v
CellSelectFacts.v
Executor.v
Server.v
ServerFacts.v
Sql.v
PyTime.v
Tiers.v
DeltaRead.v
TiersFacts.v
DeltaReadFacts.v
Fetch.v
UpdateRun.v
ResolveFacts.v
UpdateRunFacts.v
Compact.v
CompactFacts.v
CompactRunFacts.v
PlaceFile.v
SqlExpr.v
Schema.v
TagSql.v
TagSqlFacts.v
EvalSql.v
EvalSqlExpr.v
EvalSqlFacts.v
EvalSet.v
SetTables.v
EvalSetFacts.v
RowSources.v
MetaFilters.v
History.v
Recurse.v
Sources.v
Planner.v
RecurseFacts.v
PlannerSem.v
PlannerFacts.v
QueryMeans.v
PlannerRefines.v
PlannerProps.v
Result.v
Render.v
ResultFacts.v
RenderFacts.v
DatasetReads.v
