(* ===== verification/Prelude.v ===== *)
(** * osm-to-parquet: a verification development

    The program answers OpenStreetMap queries from Parquet files.  Under
    [src/src/osmpq] (file names below are relative to it):

    - a _dataset_ is a directory or bucket of Parquet files described by a JSON
      manifest ([layout/manifest.py], [store.py]).  Elements are placed in the
      cells of a quadtree ([layout/cells.py]) and ordered by Hilbert keys
      ([layout/hilbert.py]); every table also has a copy sorted by id;
    - an _update run_ ([update/]) fetches change files, recomputes the touched
      elements and writes them into three rolling delta tiers (hour, day,
      week) on top of the base files; _compaction_ ([build/compact.py]) folds
      the tiers into a new generation of base files, and the _garbage
      collector_ ([build/gc.py]) deletes the files no kept manifest names;
    - a _query_ arrives at the HTTP server ([server.py]), is parsed
      ([ql/lexer.py], [ql/parser.py], [ql/evaluator.py]), and runs in the engine
      ([engine/]): the planner turns each statement into SQL over the base
      files and the tiers, a statement's result is the temporary table
      [set_<name>], and the executor turns the end of the run into a reply.

    ** Conventions

    A Python [str] is its list of code points ([PyStr]), a [float] an
    executable binary64 ([PyFloat], over the Standard Library's SpecFloat), an
    [int] an integer; JSON values keep their dynamic types ([Json]).  Code that
    can raise returns [res]; the exceptions are those of [exn] below.  Stateful
    code passes its state, and components that run concurrently are step
    relations.  A Parquet file or a DuckDB table is the bag of its rows,
    represented as a list: theorems about tables speak of the rows a table has,
    never of their order, and where DuckDB may choose a row the choice is a
    parameter.  Columns of numpy and Arrow code are treated one row at a time.
    A manifest carries the contents of the tier files it names.

    Loops that are not structural take fuel.  The lexers and parsers compute
    it from the length of their input ([loop_fuel], one more than the tokens
    left), and the termination theorems show that [OutOfFuel] never comes out;
    the other loops count down a bound the source has (cell depth, retry count,
    the eight levels of parent relations, the ten thousand hops of a recursion).

    Code that is not in the repository is a class, with the documented
    behaviour the program relies on as a second class of laws, and every
    theorem that uses the laws has a witness over a concrete instance:
    [UnicodeDB] (character classes above 127), [JsonModule], [Numpy],
    [TempNames], [S3Client], [HttpClient], the OsmChange reader
    ([FileProcessor]), [Quantiles] and [DuckDB] (casts, regular expressions and
    geometry functions).

    ** The files

    - _Foundations._ [Prelude] (results, exceptions, lists), [PyStr],
      [PyFloatFacts] and [PyFloat] (binary64, its bounds, its text), [Json],
      [PyTime], [Numpy], [ParserMonad] (the parser monad and its
      weakest-precondition calculus).
    - _Query language._ [QlAst] is [ql/ast.py], [QlLexer] [ql/lexer.py],
      [QlParser] [ql/parser.py], [Evaluator] [ql/evaluator.py]; the [Facts]
      files prove that they terminate, stay inside their input, build
      well-formed trees and raise only the errors listed, and
      [EvaluatorFacts] that parsing inverts printing.
    - _Stores._ [Fs] (a file system with inodes), [Store], [MemoryStore],
      [LocalStore], [S3Store] are [store.py]; [Manifest] is [layout/manifest.py];
      [Gc] is [build/gc.py].  A local write is a script of system calls, each of
      which may fail and between which the process may die: in every state of
      every execution the target has the old contents or all of the new.
      Publishing a manifest makes it the latest through any store that keeps its promises, the collector
      deletes exactly the files no kept manifest references.
    - _Geometry of the layout._ [Cells] ([layout/cells.py]), [LayoutHilbert] and
      [EngineHilbert] (both Hilbert modules), [LeafSelect]
      ([select_leaf_cells] of [build/common.py]).  Placement returns a cell that
      covers the corners of the box, where a leaf covers its south-west corner
      the smallest candidate ([placement_v2_gap] for the other case); the keys are the Hilbert
      curve; all implementations agree.
    - _Reading._ [Catalog] and [CellSelect] ([engine/catalog.py]) choose the
      cells and files a query reads: pruning, with any cached index that is
      right, keeps every file whose rows can meet the box.  [Sql] is the relational
      algebra of the generated queries; [Tiers] and [DeltaRead] are the tiers
      and the two read paths of [engine/sources.py].  A read by id returns
      exactly the current rows; a scan of cells does for elements whose tier
      rows are settled, and [DeltaReadFacts] shows what it returns for others.
    - _Updating._ [Replication], [Osc], [UpdateServer], [Fetch] and [UpdateRun]
      are [update/].  A run refines the abstract state (a map from
      ids to rows), applies exactly the changes that are not stale, and
      re-establishes the invariant that ties every way to its nodes.  [Compact]
      and [PlaceFile] are [build/compact.py] ([CompactFacts], [CompactRunFacts]): compaction does not change the state and the tables
      are well formed again.
    - _Queries to SQL._ [SqlExpr] has the expressions of the generated SQL, their
      text and their meaning on a row with NULL; [SqlText] reads the string
      literals of a text back.  A pattern that does not compile is an error of
      the statement ([bound], over the parameter [regexp_valid]).  [Schema] is [engine/schema.py], [TagSql]
      [engine/tagsql.py], [EvalSql], [EvalSqlExpr] and [EvalSet]
      [engine/evalsql.py].  The text of a filter is that of an expression, no
      value breaks out of its literal, and the expression selects the rows the
      filter describes.
    - _Query engine._ [RowSources] is the interface between the reads and the
      statements: a class of the selects that [engine/sources.py] builds, as
      operations, with the law that each returns the rows of an abstract map of
      elements.  [Sources] implements the class over a dataset, [History]
      ([engine/attic.py], [history/schema.py]) is its part at a snapshot,
      [MetaFilters] [engine/metafilters.py] and [idset.py], [SetTables]
      [engine/setops.py], [Recurse] [engine/recurse.py] and [Planner]
      [engine/planner.py]: a statement is a state transformer over the tables
      [set_<name>], and an exception keeps the state, as it does in the code.
    - _Queries against a specification._ [PlannerSem] says what a program
      means on a map of elements with sets of keys, without tables, rows or
      SQL.  [RecurseFacts], [QueryMeans], [PlannerRefines] show that a run of
      the planner computes that, for any reads with the laws of [RowSources];
      [PlannerFacts] has the rules for what no statement does (the frame) and
      [PlannerProps] the theorems, and their reading on a small map.
      [DatasetReads] proves that the reads of [Sources] over a well-formed
      dataset ([dataset_ok]) keep the laws, so that a run against files and
      tiers computes the meaning of the program on the elements they hold.
    - _Replies._ [Render] is [engine/render.py]: the rows an [out] shows in their
      order and number, and the JSON element of each, with coordinates, boxes,
      clipped geometry and member vertices; [dataset_renderer] is the renderer
      the planner takes as a parameter.  [Result] is [engine/result.py]: the JSON
      envelope, CSV and XML of the elements.  [ResultFacts] reads the XML back
      with a reader of its own, and [RenderFacts] composes the two: a reply
      whose texts are characters of XML 1.0 is a document whose reading is its
      elements, and one with others is no document.  DuckDB's order
      among rows with equal sort keys is the stable one, and the text of a
      geometry is the class [AsText].
    - _Service._ [Executor] ([engine/executor.py]) and [Server] ([server.py]):
      cancellation, the refresh of the manifest, and the slots of the HTTP
      server under every interleaving of requests.

    ** What is not modelled

    DuckDB and the object stores themselves; logging and timing; symbolic
    links; Python's recursion limit; retries' sleeping; the upload of new
    files; the DuckDB connection set-up, Arrow conversions and UDF
    registration (library calls).  Of the updater and of compaction, the
    history tables and areas.  The writing of the history tables ([history/]),
    difference programs, geometry and area filters and the initial build are left
    out. *)
From stdpp Require Export base tactics list gmap sorting.
From Stdlib Require Export ZArith Lia.
From Stdlib Require Ascii String.
Export String.StringSyntax.

(** * Python strings, exceptions and results

    A Python [str] is a sequence of Unicode code points, so it is a
    [list Z] here; [u "..."] injects an ASCII literal. *)

Declare Scope osm_scope.
Delimit Scope osm_scope with osm.
#[global] Open Scope osm_scope.
#[global] Open Scope Z_scope.

Abbreviation pystr := (list Z).

Definition u (s : String.string) : pystr :=
  map (fun c => Z.of_N (Ascii.N_of_ascii c)) (String.list_ascii_of_string s).
Arguments u s%_string_scope.

(** The exceptions the modelled code raises.  [OutOfFuel] is not a Python
    exception: it marks a loop whose fuel was too small, and the termination
    theorems show that it never occurs. *)
Inductive exn : Type :=
  | ParseError (message : pystr) (line column : option Z)
  | UnsupportedError (message : pystr)
  | RuntimeQueryError (message : pystr)
  | ValueError
  | OverflowError
  | IndexError
  | KeyError
  | TypeError
  | AttributeError
  | NotImplementedError
  | OSError
  | HTTPStatusError (status : Z)
  | ClientError (code : pystr)
  | FileNotFoundError
  | RuntimeErr (message : pystr)
  | DuckDBError
  | OutOfFuel.

Inductive res (A : Type) : Type :=
  | Ok (a : A)
  | Raise (e : exn).
Arguments Ok {A} a.
Arguments Raise {A} e.

Definition res_bind {A B} (m : res A) (k : A -> res B) : res B :=
  match m with
  | Ok a => k a
  | Raise e => Raise e
  end.

Definition res_map {A B} (f : A -> B) (m : res A) : res B :=
  match m with
  | Ok a => Ok (f a)
  | Raise e => Raise e
  end.

Definition res_of_option {A} (e : exn) (o : option A) : res A :=
  match o with
  | Some a => Ok a
  | None => Raise e
  end.

Fixpoint res_mapM {A B} (f : A -> res B) (l : list A) : res (list B) :=
  match l with
  | [] => Ok []
  | x :: l' => res_bind (f x) (fun y => res_map (cons y) (res_mapM f l'))
  end.

(** [for x in l: out.extend(f(x))] *)
Definition res_flat_map {A B} (f : A -> res (list B)) (l : list A) : res (list B) :=
  res_map (@concat B) (res_mapM f l).

Notation "'let*' x ':=' m 'in' k" := (res_bind m (fun x => k))
  (at level 10, x pattern, m at level 100, k at level 200) : osm_scope.

(** ** Decidable equality on code-point strings *)

Fixpoint str_eqb (s t : pystr) : bool :=
  match s, t with
  | [], [] => true
  | a :: s', b :: t' => (a =? b) && str_eqb s' t'
  | _, _ => false
  end.

Notation "s =s t" := (str_eqb s t) (at level 70) : osm_scope.

Definition str_in (s : pystr) (l : list pystr) : bool := existsb (str_eqb s) l.

(** * Development-wide tactics *)

Ltac invert H := inversion H; subst; clear H.

(** Case analysis on the scrutinee of a [match]/[if], in goal or hypotheses. *)
Ltac break_match_goal :=
  match goal with
  | |- context [match ?x with _ => _ end] => destruct x eqn:?
  end.
Ltac break_match_hyp :=
  match goal with
  | H : context [match ?x with _ => _ end] |- _ => destruct x eqn:?
  end.
Ltac break_match := first [break_match_hyp | break_match_goal].

(** Booleans tests on [Z] and [nat] turned into arithmetic facts. *)
Ltac bool_to_prop :=
  repeat match goal with
  | H : _ && _ = true |- _ => apply andb_prop in H as [? ?]
  | H : _ || _ = false |- _ => apply orb_false_elim in H as [? ?]
  | H : negb _ = true |- _ => apply negb_true_iff in H
  | H : negb _ = false |- _ => apply negb_false_iff in H
  | H : (_ =? _)%Z = true |- _ => apply Z.eqb_eq in H
  | H : (_ =? _)%Z = false |- _ => apply Z.eqb_neq in H
  | H : (_ <? _)%Z = true |- _ => apply Z.ltb_lt in H
  | H : (_ <? _)%Z = false |- _ => apply Z.ltb_ge in H
  | H : (_ <=? _)%Z = true |- _ => apply Z.leb_le in H
  | H : (_ <=? _)%Z = false |- _ => apply Z.leb_gt in H
  | H : (_ =? _)%nat = true |- _ => apply Nat.eqb_eq in H
  | H : (_ =? _)%nat = false |- _ => apply Nat.eqb_neq in H
  | H : (_ <? _)%nat = true |- _ => apply Nat.ltb_lt in H
  | H : (_ <? _)%nat = false |- _ => apply Nat.ltb_ge in H
  | H : (_ <=? _)%nat = true |- _ => apply Nat.leb_le in H
  | H : (_ <=? _)%nat = false |- _ => apply Nat.leb_gt in H
  end.

Create HintDb osm discriminated.

(** * Lemmas on results and strings *)

Lemma res_bind_Ok {A B} (m : res A) (k : A -> res B) b :
  res_bind m k = Ok b <-> exists a, m = Ok a /\ k a = Ok b.
Proof. destruct m; simpl; naive_solver. Qed.

Lemma res_flat_map_cons {A B} (f : A -> res (list B)) x l :
  res_flat_map f (x :: l) = (let* y := f x in let* ys := res_flat_map f l in Ok (y ++ ys)).
Proof.
  unfold res_flat_map. simpl. destruct (f x); simpl; [|done]. by destruct (res_mapM f l).
Qed.

Lemma res_mapM_Ok {A B} (f : A -> res B) l bs :
  res_mapM f l = Ok bs <-> Forall2 (fun a b => f a = Ok b) l bs.
Proof.
  revert bs; induction l as [|x l IH]; intros bs; simpl.
  - split; [intros [=<-]; constructor | by inversion 1].
  - split.
    + intros (y & Hy & H)%res_bind_Ok.
      destruct (res_mapM f l) eqn:E; inversion H; subst.
      constructor; [done|]. by apply IH.
    + inversion 1 as [|? y ? ys Hy Hys]; subst. rewrite Hy; simpl.
      apply IH in Hys. by rewrite Hys.
Qed.

Lemma str_eqb_eq s t : (s =s t) = true <-> s = t.
Proof.
  revert t; induction s as [|a s IH]; intros [|b t]; simpl; try naive_solver.
  rewrite andb_true_iff, Z.eqb_eq, IH. naive_solver.
Qed.

Lemma str_eqb_refl s : (s =s s) = true.
Proof. by apply str_eqb_eq. Qed.

Lemma str_eqb_neq s t : (s =s t) = false <-> s <> t.
Proof. rewrite <- str_eqb_eq. destruct (s =s t); naive_solver. Qed.

Lemma str_in_spec s l : str_in s l = true <-> s ∈ l.
Proof.
  unfold str_in. rewrite existsb_exists. split.
  - intros (x & Hx & He). apply str_eqb_eq in He as ->. by apply list_elem_of_In.
  - intros H. exists s. split; [by apply list_elem_of_In | apply str_eqb_refl].
Qed.

#[export] Hint Resolve str_eqb_refl : osm.

(** ** Lists *)
Lemma elem_of_map {A B} (f : A -> B) l y : y ∈ map f l <-> exists x, y = f x /\ x ∈ l.
Proof. apply (list_elem_of_fmap f). Qed.
Lemma elem_of_map_2 {A B} (f : A -> B) l x : x ∈ l -> f x ∈ map f l.
Proof. apply (list_elem_of_fmap_2 f). Qed.

(** * Smallest and largest element

    [min(...)] and [max(...)] of a non-empty list, given as head and tail. *)
Definition min_of (i : Z) (l : list Z) : Z := fold_left Z.min l i.
Definition max_of (i : Z) (l : list Z) : Z := fold_left Z.max l i.

Lemma min_of_le i l j : j ∈ i :: l -> min_of i l <= j.
Proof.
  unfold min_of. assert (H : forall l i, fold_left Z.min l i <= i /\ forall j, j ∈ l -> fold_left Z.min l i <= j).
  { clear. induction l as [|x l IH]; intros i; simpl; [split; [lia|]; by intros j Hj%elem_of_nil|].
    destruct (IH (Z.min i x)) as [H1 H2]. split; [lia|]. intros j [->|Hj]%elem_of_cons; [lia|auto]. }
  destruct (H l i) as [H1 H2]. intros [->|Hj]%elem_of_cons; auto.
Qed.
Lemma max_of_ge i l j : j ∈ i :: l -> j <= max_of i l.
Proof.
  unfold max_of. assert (H : forall l i, i <= fold_left Z.max l i /\ forall j, j ∈ l -> j <= fold_left Z.max l i).
  { clear. induction l as [|x l IH]; intros i; simpl; [split; [lia|]; by intros j Hj%elem_of_nil|].
    destruct (IH (Z.max i x)) as [H1 H2]. split; [lia|]. intros j [->|Hj]%elem_of_cons; [lia|auto]. }
  destruct (H l i) as [H1 H2]. intros [->|Hj]%elem_of_cons; auto.
Qed.
Lemma min_of_in i l : min_of i l ∈ i :: l.
Proof.
  unfold min_of. revert i. induction l as [|x l IH]; intros i; cbn [fold_left]; [left|].
  specialize (IH (Z.min i x)). apply elem_of_cons in IH as [->|IH]; [|by do 2 right].
  destruct (Z.min_spec i x) as [[_ ->]|[_ ->]]; [left|right; left].
Qed.
Lemma max_of_in i l : max_of i l ∈ i :: l.
Proof.
  unfold max_of. revert i. induction l as [|x l IH]; intros i; cbn [fold_left]; [left|].
  specialize (IH (Z.max i x)). apply elem_of_cons in IH as [->|IH]; [|by do 2 right].
  destruct (Z.max_spec i x) as [[_ ->]|[_ ->]]; [right; left|left].
Qed.
