(* ===== verification/PyStr.v ===== *)
(** Python [str] operations used by the program: character classes, slices,
    searching, stripping, splitting, decimal conversion.

    Code points below 128 are classified here; the classification of the
    others is the interpreter's Unicode character database, which the
    development takes as the class [UnicodeDB]. *)
From S2P Require Import Prelude.

(** * The Unicode database, for code points >= 128 *)
Class UnicodeDB := {
  uni_isdigit : Z -> bool;        (* str.isdigit *)
  uni_isalpha : Z -> bool;        (* str.isalpha *)
  uni_isalnum : Z -> bool;        (* str.isalnum *)
  uni_isspace : Z -> bool;        (* str.isspace *)
  uni_isprintable : Z -> bool;    (* str.isprintable *)
  uni_decimal : Z -> option Z     (* unicodedata.decimal: value of a decimal digit *)
}.

(** A concrete database, for the Latin-1 block: used by witnesses. *)
Definition latin1_alpha (c : Z) : bool :=
  (c =? 170) || (c =? 181) || (c =? 186) || ((192 <=? c) && (c <=? 214))
  || ((216 <=? c) && (c <=? 246)) || ((248 <=? c) && (c <=? 255)).
Definition latin1_digit (c : Z) : bool := (c =? 178) || (c =? 179) || (c =? 185).
Definition latin1_db : UnicodeDB := {|
  uni_isdigit := latin1_digit;
  uni_isalpha := latin1_alpha;
  uni_isalnum := fun c =>
    latin1_alpha c || latin1_digit c || ((188 <=? c) && (c <=? 190));
  uni_isspace := fun c => (c =? 133) || (c =? 160);
  uni_isprintable := fun c => (161 <=? c) && negb (c =? 173);
  uni_decimal := fun _ => None
|}.

Definition ascii_digit (c : Z) : bool := (48 <=? c) && (c <=? 57).
Definition ascii_alpha (c : Z) : bool :=
  ((65 <=? c) && (c <=? 90)) || ((97 <=? c) && (c <=? 122)).

(** * Character classes *)
Definition py_isdigit `{UnicodeDB} (c : Z) : bool :=
  if c <? 128 then ascii_digit c else uni_isdigit c.
Definition py_isalpha `{UnicodeDB} (c : Z) : bool :=
  if c <? 128 then ascii_alpha c else uni_isalpha c.
Definition py_isalnum `{UnicodeDB} (c : Z) : bool :=
  if c <? 128 then ascii_alpha c || ascii_digit c else uni_isalnum c.
(** [str.isspace]: tab, LF, VT, FF, CR, FS, GS, RS, US and space in ASCII. *)
Definition py_isspace `{UnicodeDB} (c : Z) : bool :=
  if c <? 128 then ((9 <=? c) && (c <=? 13)) || ((28 <=? c) && (c <=? 32))
  else uni_isspace c.
(** The value of a decimal digit, as [int()] and [float()] read it. *)
Definition py_decimal `{UnicodeDB} (c : Z) : option Z :=
  if c <? 128 then (if ascii_digit c then Some (c - 48) else None)
  else uni_decimal c.

(** * Slices, prefixes and searching *)

(** [s[i:j]] for non-negative bounds. *)
Definition slice (s : pystr) (i j : nat) : pystr := firstn (j - i) (skipn i s).

(** Length of the longest prefix whose characters satisfy [p]. *)
Fixpoint span_len (p : Z -> bool) (s : pystr) : nat :=
  match s with
  | c :: s' => if p c then S (span_len p s') else O
  | [] => O
  end.

(** [while j < n and p(text[j]): j += 1]: the value of [j] on exit. *)
Definition scan_while (p : Z -> bool) (s : pystr) (j : nat) : nat :=
  (j + span_len p (skipn j s))%nat.

Fixpoint startswith (s pre : pystr) : bool :=
  match pre, s with
  | [], _ => true
  | a :: pre', b :: s' => (a =? b) && startswith s' pre'
  | _ :: _, [] => false
  end.

(** Offset of the first occurrence of [sub] in [s]. *)
Fixpoint find_from (sub s : pystr) : option nat :=
  if startswith s sub then Some O
  else match s with
       | [] => None
       | _ :: s' => S <$> find_from sub s'
       end.

(** [s.find(sub, i)], [None] standing for -1. *)
Definition py_find (sub s : pystr) (i : nat) : option nat :=
  if (length s <? i)%nat then None
  else (fun k => (i + k)%nat) <$> find_from sub (skipn i s).

Definition py_contains (sub s : pystr) : bool :=
  match py_find sub s 0 with Some _ => true | None => false end.

(** [s.count(c)] and one plus [s.rfind(c)], for a single character. *)
Definition count_char (c : Z) (s : pystr) : nat :=
  length (List.filter (Z.eqb c) s).
Fixpoint rfind_succ (c : Z) (s : pystr) : nat :=
  match s with
  | [] => O
  | d :: s' =>
      match rfind_succ c s' with
      | O => if d =? c then 1%nat else O
      | S k => S (S k)
      end
  end.

(** [s.replace(c, r)] for a single character [c]. *)
Definition replace_char (c : Z) (r s : pystr) : pystr :=
  concat (map (fun d => if d =? c then r else [d]) s).

(** * Stripping and splitting *)
Fixpoint lstrip_by (p : Z -> bool) (s : pystr) : pystr :=
  match s with
  | c :: s' => if p c then lstrip_by p s' else s
  | [] => []
  end.
Definition rstrip_by (p : Z -> bool) (s : pystr) : pystr :=
  rev (lstrip_by p (rev s)).
Definition strip_by (p : Z -> bool) (s : pystr) : pystr :=
  rstrip_by p (lstrip_by p s).
Definition py_strip `{UnicodeDB} (s : pystr) : pystr := strip_by py_isspace s.

(** [s.split()]: the maximal runs of non-space characters. *)
Fixpoint split_ws `{UnicodeDB} (s acc : pystr) : list pystr :=
  match s with
  | [] => if acc is [] then [] else [rev acc]
  | c :: s' =>
      if py_isspace c then
        (if acc is [] then split_ws s' [] else rev acc :: split_ws s' [])
      else split_ws s' (c :: acc)
  end.
Definition py_split `{UnicodeDB} (s : pystr) : list pystr := split_ws s [].

(** [sep.join(parts)] *)
Fixpoint py_join (sep : pystr) (parts : list pystr) : pystr :=
  match parts with
  | [] => []
  | [p] => p
  | p :: parts' => p ++ sep ++ py_join sep parts'
  end.

(** * Decimal conversion *)
Fixpoint dec_digits (fuel : nat) (n : Z) (acc : pystr) : pystr :=
  match fuel with
  | O => acc
  | S f => if n <? 10 then (48 + n) :: acc
           else dec_digits f (n / 10) ((48 + n mod 10) :: acc)
  end.
(** [str(n)] for a non-negative integer; [Z.log2 n + 1] steps are enough. *)
Definition str_of_nonneg (n : Z) : pystr := dec_digits (S (Z.to_nat (Z.log2 n))) n [].
Definition str_of_Z (n : Z) : pystr :=
  if n <? 0 then 45 :: str_of_nonneg (- n) else str_of_nonneg n.
(** [f"{n:03d}"]-style zero padding of a non-negative integer. *)
Definition zero_pad (w : nat) (s : pystr) : pystr :=
  replicate (w - length s) 48 ++ s.

(** Value of a non-empty run of decimal digits, most significant first. *)
Fixpoint digits_val `{UnicodeDB} (s : pystr) (acc : Z) : option Z :=
  match s with
  | [] => Some acc
  | c :: s' => match py_decimal c with
               | Some d => digits_val s' (10 * acc + d)
               | None => None
               end
  end.

(** A Python digit part: decimal digits with single underscores between
    them.  Returns the digits. *)
Fixpoint digitpart `{UnicodeDB} (s : pystr) (prev_digit : bool) : option pystr :=
  match s with
  | [] => if prev_digit then Some [] else None
  | c :: s' =>
      if c =? 95 then (if prev_digit then digitpart s' false else None)
      else match py_decimal c with
           | Some d => cons (48 + d) <$> digitpart s' true
           | None => None
           end
  end.

(** An optional leading sign: is it a minus, and what follows it. *)
Definition split_sign (s : pystr) : bool * pystr :=
  match s with
  | c :: t => if c =? 43 then (false, t) else if c =? 45 then (true, t) else (false, s)
  | [] => (false, [])
  end.

(** [int(s)]: surrounding space stripped, optional sign, decimal digits. *)
Definition py_int `{UnicodeDB} (s : pystr) : res Z :=
  let '(neg, body) := split_sign (py_strip s) in
  match digitpart body false ≫= (fun ds => digits_val ds 0) with
  | Some n => Ok (if neg then - n else n)
  | None => Raise ValueError
  end.

(** * [repr] of a string *)
Definition hex_digit (d : Z) : Z := if d <? 10 then 48 + d else 87 + d.
(** [w] lower-case hexadecimal digits of [n]. *)
Fixpoint hex_pad (w : nat) (n : Z) : pystr :=
  match w with
  | O => []
  | S w' => hex_pad w' (n / 16) ++ [hex_digit (n mod 16)]
  end.

Definition repr_char `{UnicodeDB} (quote c : Z) : pystr :=
  if (c =? quote) || (c =? 92) then [92; c]
  else if c =? 9 then [92; 116]
  else if c =? 10 then [92; 110]
  else if c =? 13 then [92; 114]
  else if (c <? 32) || (c =? 127) then [92; 120] ++ hex_pad 2 c
  else if c <? 127 then [c]
  else if uni_isprintable c then [c]
  else if c <? 256 then [92; 120] ++ hex_pad 2 c
  else if c <? 65536 then [92; 117] ++ hex_pad 4 c
  else [92; 85] ++ hex_pad 8 c.

(** Single quotes, unless the string has one and no double quote. *)
Definition py_repr `{UnicodeDB} (s : pystr) : pystr :=
  let quote := if existsb (Z.eqb 39) s && negb (existsb (Z.eqb 34) s) then 34 else 39 in
  [quote] ++ flat_map (repr_char quote) s ++ [quote].

(** * Order and [sorted] *)
Fixpoint str_leb (s t : pystr) : bool :=
  match s, t with
  | [], _ => true
  | _, [] => false
  | a :: s', b :: t' => (a <? b) || ((a =? b) && str_leb s' t')
  end.
Definition str_le (s t : pystr) : Prop := str_leb s t = true.
#[export] Instance str_le_dec : RelDecision str_le.
Proof. intros s t. unfold str_le. apply _. Defined.

(** [sorted(set(l))] for a list of strings. *)
Definition sorted_set (l : list pystr) : list pystr := merge_sort str_le (remove_dups l).

Lemma str_le_refl s : str_le s s.
Proof. unfold str_le. induction s; simpl; [done|]. rewrite Z.eqb_refl, IHs. apply orb_true_r. Qed.

#[export] Instance str_le_total : Total str_le.
Proof.
  unfold str_le. intros s. induction s as [|a s IH]; intros [|b t]; simpl; auto.
  destruct (Z.ltb_spec a b), (Z.ltb_spec b a), (Z.eqb_spec a b), (Z.eqb_spec b a);
    simpl; auto; lia.
Qed.

#[export] Instance str_le_trans : Transitive str_le.
Proof.
  unfold str_le. intros s. induction s as [|a s IH]; intros [|b t] [|c r]; simpl; try done.
  rewrite !orb_true_iff, !andb_true_iff, !Z.ltb_lt, !Z.eqb_eq.
  intros [|[-> H1]] [|[-> H2]]; try (left; lia). right. split; [done|]. by eapply IH.
Qed.

#[export] Instance str_le_antisym : AntiSymm (=) str_le.
Proof.
  unfold str_le. intros s. induction s as [|a s IH]; intros [|b t]; simpl; try done.
  rewrite !orb_true_iff, !andb_true_iff, !Z.ltb_lt, !Z.eqb_eq.
  intros [|[-> H1]] [|[E H2]]; try lia. f_equal. by apply IH.
Qed.

Lemma elem_of_sorted_set s l : s ∈ sorted_set l <-> s ∈ l.
Proof. unfold sorted_set. by rewrite merge_sort_Permutation, elem_of_remove_dups. Qed.
Lemma sorted_set_sorted l : StronglySorted str_le (sorted_set l).
Proof. apply Sorted_StronglySorted; [apply _|]. apply Sorted_merge_sort, _. Qed.
Lemma sorted_set_nodup l : NoDup (sorted_set l).
Proof. unfold sorted_set. rewrite merge_sort_Permutation. apply NoDup_remove_dups. Qed.

(** [s.replace(old, new)] for a non-empty [old]: one pass, left to right.
    [skip] characters belong to an occurrence already replaced. *)
Fixpoint replace_from (old new s : pystr) (skip : nat) : pystr :=
  match s with
  | [] => []
  | c :: s' =>
      match skip with
      | S k => replace_from old new s' k
      | O => if startswith s old then new ++ replace_from old new s' (length old - 1)
             else c :: replace_from old new s' 0
      end
  end.
Definition py_replace (old new s : pystr) : pystr := replace_from old new s 0.

(** The line boundaries of [str.splitlines]. *)
Definition line_break (c : Z) : bool :=
  existsb (Z.eqb c) [10; 11; 12; 13; 28; 29; 30; 133; 8232; 8233].
(** [s.splitlines()]; [cr]: the previous character was a carriage return that
    has already ended its line. *)
Fixpoint splitlines_from (s acc : pystr) (cr : bool) : list pystr :=
  match s with
  | [] => match acc with [] => [] | _ => [rev acc] end
  | c :: s' =>
      if cr && (c =? 10) then splitlines_from s' acc false
      else if line_break c then rev acc :: splitlines_from s' [] (c =? 13)
      else splitlines_from s' (c :: acc) false
  end.
Definition splitlines (s : pystr) : list pystr := splitlines_from s [] false.

(** Universal newlines, as a text file is read. *)
Fixpoint translate_newlines (s : pystr) : pystr :=
  match s with
  | [] => []
  | 13 :: ((10 :: _) as s') => translate_newlines s'
  | c :: s' => (if c =? 13 then 10 else c) :: translate_newlines s'
  end.

(** [s.partition(sep)] for a one-character separator that occurs. *)
Fixpoint partition_char (sep : Z) (s : pystr) : pystr * pystr :=
  match s with
  | [] => ([], [])
  | c :: s' => if c =? sep then ([], s')
               else let '(a, b) := partition_char sep s' in (c :: a, b)
  end.
