(* ===== verification/PyFloat.v ===== *)
(** Python [float]: IEEE-754 binary64, on the Standard Library's executable
    [spec_float] (53-bit mantissas, exponents up to 1024), with the
    conversions the program uses: [float(str)], [float(int)], [int(float)]
    and [round].

    Python's [repr] of a float: the shortest decimal that reads back as the
    float, the nearest of them. *)
From Stdlib Require Export SpecFloat.
From S2P Require Import Prelude PyStr.

Abbreviation pyfloat := spec_float.

Definition fadd : pyfloat -> pyfloat -> pyfloat := SFadd 53 1024.
Definition fsub : pyfloat -> pyfloat -> pyfloat := SFsub 53 1024.
Definition fmul : pyfloat -> pyfloat -> pyfloat := SFmul 53 1024.
Definition fdiv : pyfloat -> pyfloat -> pyfloat := SFdiv 53 1024.
Definition fopp : pyfloat -> pyfloat := SFopp.
Definition fabs : pyfloat -> pyfloat := SFabs.
Definition feqb : pyfloat -> pyfloat -> bool := SFeqb.
Definition fltb : pyfloat -> pyfloat -> bool := SFltb.
Definition fleb : pyfloat -> pyfloat -> bool := SFleb.
Definition fnan : pyfloat := S754_nan.
Definition finf (neg : bool) : pyfloat := S754_infinity neg.

(** Truth value of a float: false exactly for the zeros. *)
Definition ftruthy (x : pyfloat) : bool :=
  match x with S754_zero _ => false | _ => true end.

(** An integer, correctly rounded ([float(n)] for the magnitudes that do not
    overflow). *)
Definition float_of_Z (n : Z) : pyfloat := binary_normalize 53 1024 n 0 false.

(** [m / d], correctly rounded: the division of two exact (arbitrarily wide)
    mantissas. *)
Definition round_ratio (neg : bool) (m : Z) (d : positive) : pyfloat :=
  match m with
  | Z0 => S754_zero neg
  | Zpos p | Zneg p =>
      SFdiv 53 1024 (S754_finite neg p 0) (S754_finite false d 0)
  end.

(** The decimal [(-1)^neg * m * 10^e10], correctly rounded. *)
Definition float_of_decimal (neg : bool) (m : Z) (e10 : Z) : pyfloat :=
  if 0 <=? e10 then
    (if m =? 0 then S754_zero neg
     else binary_normalize 53 1024 ((if neg then -1 else 1) * (m * 10 ^ e10)) 0 neg)
  else round_ratio neg m (Z.to_pos (10 ^ (- e10))).

(** * float(str) *)
Section FloatOfStr.
Context `{UnicodeDB}.

Definition float_char (c : Z) : bool :=
  (c =? 95) || (if py_decimal c is Some _ then true else false).

Definition opt_digitpart (s : pystr) : option pystr :=
  if s is [] then Some [] else digitpart s false.

Definition float_exponent (s : pystr) : option Z :=
  match s with
  | [] => Some 0
  | c :: t =>
      if (c =? 101) || (c =? 69) then
        let '(neg, body) := split_sign t in
        (fun n : Z => if neg then - n else n) <$>
          (digitpart body false ≫= fun ds => digits_val ds 0)
      else None
  end.

(** [number [exponent]], the sign already consumed. *)
Definition float_number (neg : bool) (s : pystr) : option pyfloat :=
  let k := span_len float_char s in
  let ip := firstn k s in
  let rest := skipn k s in
  let '(fp, rest2) :=
    match rest with
    | 46 :: r => let k2 := span_len float_char r in (firstn k2 r, skipn k2 r)
    | _ => ([], rest)
    end in
  match ip, fp with
  | [], [] => None
  | _, _ =>
      di ← opt_digitpart ip;
      df ← opt_digitpart fp;
      m ← digits_val (di ++ df) 0;
      e ← float_exponent rest2;
      Some (float_of_decimal neg m (e - Z.of_nat (length df)))
  end.

Definition ascii_lower (c : Z) : Z := if (65 <=? c) && (c <=? 90) then c + 32 else c.

Definition py_float (s : pystr) : res pyfloat :=
  let '(neg, body) := split_sign (py_strip s) in
  let low := map ascii_lower body in
  if (low =s u "inf") || (low =s u "infinity") then Ok (finf neg)
  else if low =s u "nan" then Ok fnan
  else res_of_option ValueError (float_number neg body).
End FloatOfStr.

(** * Conversions to integers *)

(** [int(x)]: truncation toward zero. *)
Definition int_of_float (x : pyfloat) : res Z :=
  match x with
  | S754_zero _ => Ok 0
  | S754_infinity _ => Raise OverflowError
  | S754_nan => Raise ValueError
  | S754_finite s m e =>
      let a := Z.shiftl (Zpos m) e in      (* shiftl by a negative count floors *)
      Ok (if s then - a else a)
  end.

(** [math.floor]/[numpy.floor] of a finite float, as an integer. *)
Definition floor_of_float (x : pyfloat) : res Z :=
  match x with
  | S754_finite true m e => Ok (Z.shiftl (- Zpos m) e)
  | _ => int_of_float x
  end.

(** [round(x)]: nearest integer, ties to even. *)
Definition round_of_float (x : pyfloat) : res Z :=
  match x with
  | S754_finite s m e =>
      let a :=
        if 0 <=? e then Z.shiftl (Zpos m) e
        else let q := Z.shiftr (Zpos m) (- e) in
             let r := Zpos m - Z.shiftl q (- e) in
             match Z.compare (2 * r) (Z.shiftl 1 (- e)) with
             | Lt => q
             | Gt => q + 1
             | Eq => if Z.even q then q else q + 1
             end in
      Ok (if s then - a else a)
  | _ => int_of_float x
  end.

(** [|x|] as a fraction. *)
Definition fraction (m : positive) (e : Z) : Z * Z :=
  if 0 <=? e then (Z.shiftl (Zpos m) e, 1) else (Zpos m, Z.shiftl 1 (- e)).

(** The decimal exponent of the first digit: [10^k <= num/den < 10^(k+1)]. *)
Definition below_power (num den k : Z) : bool :=
  if 0 <=? k then num <? den * 10 ^ k else num * 10 ^ (- k) <? den.
Fixpoint settle_exponent (fuel : nat) (num den k : Z) : Z :=
  match fuel with
  | O => k
  | S fuel =>
      if below_power num den k then settle_exponent fuel num den (k - 1)
      else if below_power num den (k + 1) then k else settle_exponent fuel num den (k + 1)
  end.
(** A first guess from the binary exponent, within two of the result. *)
Definition decimal_exponent (m : positive) (e : Z) : Z :=
  let '(num, den) := fraction m e in
  settle_exponent 6 num den ((Z.log2 (Zpos m) + e) * 30103 / 100000).

Definition float_eq (x y : pyfloat) : bool :=
  match x, y with
  | S754_finite s m e, S754_finite s' m' e' => eqb s s' && Pos.eqb m m' && (e =? e')
  | _, _ => false
  end.

(** The decimals of [n] digits around the float that read back as it, nearest
    first. *)
Definition candidates (neg : bool) (m : positive) (e k n : Z) : list (Z * Z) :=
  let '(num, den) := fraction m e in
  let p := k - n + 1 in
  let '(a, b) := if 0 <=? p then (num, den * 10 ^ p) else (num * 10 ^ (- p), den) in
  let q := a / b in
  let near := if 2 * (a - q * b) <? b then [q; q + 1]
              else if (2 * (a - q * b) =? b) && Z.even q then [q; q + 1] else [q + 1; q] in
  map (fun d => (d, p))
    (base.filter (fun d => float_eq (float_of_decimal neg d p) (S754_finite neg m e) = true) near).
Fixpoint shortest (fuel : nat) (neg : bool) (m : positive) (e k n : Z) : Z * Z :=
  match candidates neg m e k n, fuel with
  | dp :: _, _ => dp
  | [], S fuel => shortest fuel neg m e k (n + 1)
  | [], O => (0, 0)
  end.

Fixpoint drop_zeros (s : pystr) : pystr :=       (** on reversed digits *)
  match s with 48 :: s' => drop_zeros s' | _ => s end.

(** The digits without trailing zeros, and the exponent of the first one. *)
Definition repr_digits (neg : bool) (m : positive) (e : Z) : pystr * Z :=
  let k := decimal_exponent m e in
  let '(d, p) := shortest 17 neg m e k 1 in
  let s := str_of_Z d in
  (rev (drop_zeros (rev s)), p + Z.of_nat (length s) - 1).

(** [repr(x)]: positional between [1e-4] and [1e16], with an exponent outside. *)
Definition float_repr (x : pyfloat) : pystr :=
  match x with
  | S754_zero s => if s then u "-0.0" else u "0.0"
  | S754_infinity s => if s then u "-inf" else u "inf"
  | S754_nan => u "nan"
  | S754_finite neg m e =>
      let '(ds, ex) := repr_digits neg m e in
      let n := Z.of_nat (length ds) in
      (if neg then u "-" else []) ++
      if (-4 <=? ex) && (ex <? 16) then
        if ex <? 0 then u "0." ++ repeat 48 (Z.to_nat (- ex - 1)) ++ ds
        else if n <=? ex + 1 then ds ++ repeat 48 (Z.to_nat (ex + 1 - n)) ++ u ".0"
        else firstn (Z.to_nat (ex + 1)) ds ++ u "." ++ skipn (Z.to_nat (ex + 1)) ds
      else
        firstn 1 ds ++ (if 1 <? n then u "." ++ skipn 1 ds else []) ++ u "e" ++
        (if ex <? 0 then u "-" else u "+") ++ zero_pad 2 (str_of_Z (Z.abs ex))
  end.

Example repr_tenth : float_repr (float_of_decimal false 1 (-1)) = u "0.1".
Proof. vm_compute. reflexivity. Qed.
Example repr_third : float_repr (fdiv (float_of_Z 1) (float_of_Z 3)) = u "0.3333333333333333".
Proof. vm_compute. reflexivity. Qed.
Example repr_large : float_repr (float_of_decimal true 12345 17) = u "-1.2345e+21".
Proof. vm_compute. reflexivity. Qed.
Example repr_small : float_repr (float_of_decimal false 5 (-324)) = u "5e-324".
Proof. vm_compute. reflexivity. Qed.
Example repr_integral : float_repr (float_of_decimal false 1 15) = u "1000000000000000.0".
Proof. vm_compute. reflexivity. Qed.
Example repr_sum : float_repr (fadd (float_of_decimal false 1 (-1)) (float_of_decimal false 2 (-1))) = u "0.30000000000000004".
Proof. vm_compute. reflexivity. Qed.
