(* ===== verification/PyFloatFacts.v ===== *)
(** Facts about the modelled floats: reading decimal text, the bounds of the
    operations the program relies on, and integers printed by [str]. *)
From Stdlib Require Import SpecFloat.
From S2P Require Import Prelude PyStr PyFloat.

Definition all_digits (s : pystr) : Prop := Forall (fun c => ascii_digit c = true) s.

(** Value of a list of ASCII digits, with an accumulator. *)
Definition dec_val (s : pystr) (acc : Z) : Z := fold_left (fun a c => 10 * a + (c - 48)) s acc.

Lemma ascii_digit_spec c : ascii_digit c = true <-> 48 <= c <= 57.
Proof. unfold ascii_digit. rewrite andb_true_iff, !Z.leb_le. lia. Qed.

(** * Printing *)
Lemma dec_digits_spec fuel n acc :
  0 <= n < 2 ^ Z.of_nat fuel -> (0 < fuel)%nat ->
  exists ds, dec_digits fuel n acc = ds ++ acc /\ ds <> [] /\ all_digits ds /\
    forall a, dec_val ds a = a * 10 ^ Z.of_nat (length ds) + n.
Proof.
  revert n acc; induction fuel as [|f IH]; intros n acc Hn Hf; [lia|].
  cbn [dec_digits]. destruct (n <? 10) eqn:E.
  - apply Z.ltb_lt in E. exists [48 + n]. repeat split; try done.
    + repeat constructor. apply ascii_digit_spec. lia.
    + intros a. unfold dec_val. simpl. lia.
  - apply Z.ltb_ge in E.
    assert (Hq : 0 <= n / 10 < 2 ^ Z.of_nat f).
    { rewrite Nat2Z.inj_succ, Z.pow_succ_r in Hn by lia.
      split; [apply Z.div_pos; lia|]. apply Z.div_lt_upper_bound; lia. }
    assert (0 < f)%nat. { destruct f; [|lia]. simpl in Hq.
      assert (1 <= n / 10) by (apply Z.div_le_lower_bound; lia). lia. }
    destruct (IH (n / 10) ((48 + n mod 10) :: acc) Hq) as (ds & Hd & Hne & Had & Hv); [done|].
    pose proof (Z.mod_pos_bound n 10 ltac:(lia)). pose proof (Z.div_mod n 10 ltac:(lia)).
    exists (ds ++ [48 + n mod 10]). rewrite Hd, <- app_assoc. repeat split.
    + by destruct ds.
    + apply Forall_app; split; [done|]. repeat constructor. apply ascii_digit_spec. lia.
    + intros a. unfold dec_val in *. rewrite fold_left_app, Hv. simpl.
      rewrite length_app. simpl. rewrite Nat2Z.inj_add, Z.pow_add_r by lia. lia.
Qed.

Lemma str_of_nonneg_spec n :
  0 <= n -> str_of_nonneg n <> [] /\ all_digits (str_of_nonneg n) /\ dec_val (str_of_nonneg n) 0 = n.
Proof.
  intros Hn. unfold str_of_nonneg.
  destruct (dec_digits_spec (S (Z.to_nat (Z.log2 n))) n []) as (ds & -> & H1 & H2 & H3).
  - split; [done|]. rewrite Nat2Z.inj_succ, Z2Nat.id by apply Z.log2_nonneg.
    destruct (decide (n = 0)) as [->|]; [done|]. apply Z.log2_spec. lia.
  - lia.
  - rewrite app_nil_r. split_and!; try done.
Qed.

Lemma str_of_nonneg_inj n m :
  0 <= n -> 0 <= m -> str_of_nonneg n = str_of_nonneg m -> n = m.
Proof.
  intros Hn Hm E. destruct (str_of_nonneg_spec n Hn) as (_ & _ & <-).
  destruct (str_of_nonneg_spec m Hm) as (_ & _ & <-). by rewrite E.
Qed.

(** * Reading *)
Section Reading.
Context `{UnicodeDB}.

Lemma py_decimal_digit c : ascii_digit c = true -> py_decimal c = Some (c - 48).
Proof.
  intros Hc. unfold py_decimal. rewrite Hc. apply ascii_digit_spec in Hc.
  destruct (Z.ltb_spec c 128); [done|lia].
Qed.

Lemma digits_val_digits s acc : all_digits s -> digits_val s acc = Some (dec_val s acc).
Proof.
  intros Hs. revert acc. induction Hs as [|c s Hc Hs IH]; intros acc; [done|].
  simpl. rewrite py_decimal_digit by done. apply IH.
Qed.

Lemma digitpart_digits s b : all_digits s -> s <> [] -> digitpart s b = Some s.
Proof.
  intros Hs. revert b; induction Hs as [|c s Hc Hs IH]; intros b Hne; [done|].
  simpl. destruct (c =? 95) eqn:E.
  { apply Z.eqb_eq in E as ->. done. }
  rewrite py_decimal_digit by done. apply ascii_digit_spec in Hc.
  replace (48 + (c - 48)) with c by lia.
  destruct s as [|c' s]; [done|]. by rewrite IH.
Qed.

Lemma digit_not_space c : ascii_digit c = true -> py_isspace c = false.
Proof.
  rewrite ascii_digit_spec. intros Hc. unfold py_isspace.
  destruct (Z.ltb_spec c 128); [|lia].
  apply orb_false_intro; apply andb_false_iff; rewrite !Z.leb_gt; lia.
Qed.

Lemma rstrip_by_last p s c : p c = false -> rstrip_by p (s ++ [c]) = s ++ [c].
Proof.
  intros Hc. unfold rstrip_by. rewrite rev_app_distr. simpl. rewrite Hc.
  simpl. by rewrite rev_involutive.
Qed.

(** Stripping leaves alone a text whose first and last characters are digits. *)
Lemma py_strip_id a s b :
  ascii_digit a = true -> ascii_digit b = true -> py_strip (a :: s ++ [b]) = a :: s ++ [b].
Proof.
  intros Ha Hb. unfold py_strip, strip_by. simpl. rewrite digit_not_space by done.
  apply (rstrip_by_last _ (a :: s)). by apply digit_not_space.
Qed.

Lemma py_strip_digits s : all_digits s -> py_strip s = s.
Proof.
  intros Hs. destruct s as [|a s]; [done|]. apply Forall_cons in Hs as [Ha Hs].
  destruct s as [|b s _] using rev_ind.
  - unfold py_strip, strip_by. simpl. rewrite digit_not_space by done.
    apply (rstrip_by_last _ []). by apply digit_not_space.
  - apply Forall_app in Hs as [_ Hb]. apply Forall_cons in Hb as [Hb _].
    by apply py_strip_id.
Qed.

Lemma span_len_app p s t :
  Forall (fun c => p c = true) s ->
  (match t with [] => True | c :: _ => p c = false end) ->
  span_len p (s ++ t) = length s.
Proof.
  intros Hs Ht. induction Hs as [|c s Hc Hs IH]; simpl.
  - destruct t; simpl; [done|]. by rewrite Ht.
  - by rewrite Hc, IH.
Qed.

Lemma float_char_digits s : all_digits s -> Forall (fun c => float_char c = true) s.
Proof.
  intros Hs. eapply Forall_impl; [exact Hs|]. intros c Hc. unfold float_char. rewrite py_decimal_digit by done.
  apply orb_true_r.
Qed.

(** [float] on a literal of the lexer's number syntax. *)
Definition literal_text (ip fp : pystr) : pystr :=
  ip ++ (if fp is [] then [] else 46 :: fp).

Lemma literal_float_number ip fp :
  all_digits ip -> all_digits fp -> ip <> [] ->
  float_number false (literal_text ip fp) =
    Some (float_of_decimal false (dec_val (ip ++ fp) 0) (0 - Z.of_nat (length fp))).
Proof.
  intros Hi Hf Hne. unfold float_number, literal_text.
  rewrite span_len_app; [|by apply float_char_digits|by destruct fp].
  rewrite firstn_app, firstn_all, Nat.sub_diag, skipn_app, skipn_all, Nat.sub_diag.
  rewrite take_0, drop_0, app_nil_r. cbn [app].
  assert (E : opt_digitpart ip = Some ip) by (destruct ip; [done|]; by apply digitpart_digits).
  destruct fp as [|f fp].
  - destruct ip as [|i ip]; [done|]. rewrite E.
    cbn [mbind option_bind opt_digitpart].
    rewrite !app_nil_r, (digits_val_digits _ _ Hi). done.
  - replace (span_len float_char (f :: fp)) with (length (f :: fp))
      by (rewrite <- (app_nil_r (f :: fp)) at 2; symmetry; apply span_len_app; [by apply float_char_digits|done]).
    rewrite firstn_all, skipn_all.
    destruct ip as [|i ip]; [done|]. rewrite E. cbn [mbind option_bind].
    unfold opt_digitpart. rewrite digitpart_digits by done. cbn [mbind option_bind].
    rewrite digits_val_digits by (by apply Forall_app). done.
Qed.

Lemma py_float_literal ip fp :
  all_digits ip -> all_digits fp -> ip <> [] ->
  py_float (literal_text ip fp) =
    Ok (float_of_decimal false (dec_val (ip ++ fp) 0) (0 - Z.of_nat (length fp))).
Proof.
  intros Hi Hf Hne. unfold py_float.
  assert (Es : py_strip (literal_text ip fp) = literal_text ip fp).
  { unfold literal_text. destruct fp as [|f fp _] using rev_ind.
    - rewrite app_nil_r. by apply py_strip_digits.
    - destruct ip as [|i ip]; [done|]. apply Forall_cons in Hi as [Hi _].
      apply Forall_app in Hf as [_ Hf]. apply Forall_cons in Hf as [Hf _].
      destruct (fp ++ [f]) eqn:E; [by destruct fp|]. rewrite <- E.
      change ((i :: ip) ++ 46 :: fp ++ [f]) with (i :: (ip ++ (46 :: fp) ++ [f])).
      rewrite (app_assoc ip). by apply py_strip_id. }
  rewrite Es. destruct ip as [|i ip]; [done|].
  pose proof (proj1 (Forall_cons _ _ _) Hi) as [Hd _]. apply ascii_digit_spec in Hd.
  pose proof (literal_float_number (i :: ip) fp Hi Hf Hne) as N.
  unfold literal_text in N |- *. cbn [app] in N |- *.
  assert (Hl : ascii_lower i = i).
  { unfold ascii_lower. destruct (65 <=? i) eqn:E; [apply Z.leb_le in E; lia|done]. }
  assert (Hn : forall c, c < 48 \/ 57 < c -> (i =? c) = false) by (intros; apply Z.eqb_neq; lia).
  unfold split_sign. rewrite !Hn by lia. cbn [map]. rewrite Hl.
  change (u "inf") with [105; 110; 102]. change (u "infinity") with [105; 110; 102; 105; 110; 105; 116; 121].
  change (u "nan") with [110; 97; 110]. cbn [str_eqb].
  rewrite !Hn by lia. cbn [andb orb]. by rewrite N.
Qed.
End Reading.

(** * Exactness on integers *)
Lemma digits2_pos_bounds m :
  2 ^ (Zpos (digits2_pos m) - 1) <= Zpos m < 2 ^ Zpos (digits2_pos m).
Proof.
  assert (L : forall k, 2 ^ (k + 1 - 1) = 2 ^ k) by (intros; f_equal; lia).
  induction m as [m IH|m IH|]; simpl digits2_pos; [| |simpl; lia];
    rewrite Pos2Z.inj_succ, <- Z.add_1_r, L, Z.pow_add_r by lia;
    replace (2 ^ Zpos (digits2_pos m)) with (2 * 2 ^ (Zpos (digits2_pos m) - 1)) in *
      by (rewrite <- Z.pow_succ_r by lia; f_equal; lia); lia.
Qed.

Lemma digits2_pos_unique m d : 0 < d -> 2 ^ (d - 1) <= Zpos m < 2 ^ d -> Zpos (digits2_pos m) = d.
Proof.
  intros Hd [H1 H2]. destruct (digits2_pos_bounds m) as [H3 H4].
  destruct (Z.lt_trichotomy (Zpos (digits2_pos m)) d) as [L|[E|L]]; [|done|].
  - pose proof (Z.pow_le_mono_r 2 (Zpos (digits2_pos m)) (d - 1)). lia.
  - pose proof (Z.pow_le_mono_r 2 d (Zpos (digits2_pos m) - 1)). lia.
Qed.

Lemma iter_xO m d : Zpos (Pos.iter xO m d) = Zpos m * 2 ^ Zpos d.
Proof.
  revert m. induction d using Pos.peano_ind; intros m.
  - simpl. lia.
  - rewrite Pos.iter_succ, Pos2Z.inj_xO, IHd, Pos2Z.inj_succ, Z.pow_succ_r by lia. lia.
Qed.

(** Rounding a 53-bit mantissa whose exponent is in range changes nothing. *)
Lemma binary_round_aux_exact s m e :
  Zpos (digits2_pos m) = 53 -> -1074 <= e <= 971 ->
  binary_round_aux 53 1024 s (Zpos m) e loc_Exact = S754_finite s m e.
Proof.
  intros Hd He.
  assert (F : shr_fexp 53 1024 (Zpos m) e loc_Exact = (Build_shr_record (Zpos m) false false, e)).
  { unfold shr_fexp, fexp, emin. cbn [Zdigits2]. rewrite Hd.
    change (3 - 1024 - 53) with (-1074).
    replace (Z.max (53 + e - 53) (-1074) - e) with 0 by lia. done. }
  unfold binary_round_aux. rewrite F. cbn [shr_m loc_of_shr_record round_nearest_even].
  rewrite F. cbn [shr_m]. destruct (Z.leb_spec e (1024 - 53)); [done|lia].
Qed.

Lemma float_of_pos_normal m :
  Zpos m < 2 ^ 53 ->
  exists m' k, float_of_Z (Zpos m) = S754_finite false m' (- k) /\
    0 <= k <= 52 /\ Zpos m' = Zpos m * 2 ^ k /\ 2 ^ 52 <= Zpos m'.
Proof.
  intros Hm. destruct (digits2_pos_bounds m) as [H1 H2].
  set (d := Zpos (digits2_pos m)) in *.
  assert (Hd : 1 <= d <= 53).
  { split; [lia|]. destruct (Z.le_gt_cases d 53) as [|L]; [done|].
    pose proof (Z.pow_le_mono_r 2 53 (d - 1) ltac:(lia) ltac:(lia)). lia. }
  unfold float_of_Z, binary_normalize, binary_round. fold d.
  assert (Ef : fexp 53 1024 (d + 0) = d - 53).
  { unfold fexp, emin. change (3 - 1024 - 53) with (-1074). lia. }
  rewrite Ef. unfold shl_align. replace (d - 53 - 0) with (- (53 - d)) by lia.
  destruct (53 - d) as [|k|k] eqn:Ek; [| |lia].
  - change (- 0) with 0. cbv beta iota zeta. rewrite binary_round_aux_exact; [|fold d; lia|lia].
    exists m, 0. split; [done|]. replace (d - 1) with 52 in H1 by lia. lia.
  - change (- Zpos k) with (Zneg k). cbv beta iota zeta. rewrite binary_round_aux_exact; [| |lia].
    + exists (Pos.iter xO m k), (Zpos k). rewrite iter_xO.
      split; [f_equal; lia|]. split; [lia|]. split; [lia|].
      replace 52 with (d - 1 + Zpos k) by lia. rewrite Z.pow_add_r by lia. apply Z.mul_le_mono_nonneg_r; lia.
    + apply digits2_pos_unique; [lia|]. rewrite iter_xO.
      replace (53 - 1) with (d - 1 + Zpos k) by lia. replace 53 with (d + Zpos k) by lia.
      rewrite !Z.pow_add_r by lia.
      split; [apply Z.mul_le_mono_nonneg_r|apply Z.mul_lt_mono_pos_r]; lia.
Qed.

Lemma float_of_pos_exact m :
  Zpos m < 2 ^ 53 ->
  exists m' k, float_of_Z (Zpos m) = S754_finite false m' (- k) /\
    0 <= k <= 52 /\ Zpos m' = Zpos m * 2 ^ k.
Proof. intros (m' & k & ? & ? & ? & _)%float_of_pos_normal. by exists m', k. Qed.

Lemma int_of_float_of_Z n : 0 <= n < 2 ^ 53 -> int_of_float (float_of_Z n) = Ok n.
Proof.
  intros Hn. destruct n as [|m|m]; [done| |lia].
  destruct (float_of_pos_exact m) as (m' & k & -> & Hk & Hm'); [lia|].
  unfold int_of_float. rewrite Z.shiftl_opp_r, Z.shiftr_div_pow2 by lia.
  by rewrite Hm', Z.div_mul by (apply Z.pow_nonzero; lia).
Qed.

(** [float(str(n))] is exactly [n], for a non-negative [n] below 2^53. *)
Lemma py_float_nat_exact `{UnicodeDB} n :
  0 <= n < 2 ^ 53 -> py_float (str_of_nonneg n) = Ok (float_of_Z n).
Proof.
  intros Hn. destruct (str_of_nonneg_spec n) as (Hne & Had & Hv); [lia|].
  pose proof (py_float_literal (str_of_nonneg n) [] Had ltac:(constructor) Hne) as E.
  unfold literal_text in E. rewrite !app_nil_r, Hv in E. rewrite E. f_equal.
  unfold float_of_decimal, float_of_Z. simpl (0 <=? _).
  destruct (n =? 0) eqn:E0; [by apply Z.eqb_eq in E0 as ->|].
  f_equal. simpl. lia.
Qed.

(** The digits of a positive integer and its exponent. *)
Lemma digits_lt m k : Zpos (digits2_pos m) <= k <-> Zpos m < 2 ^ k.
Proof.
  destruct (digits2_pos_bounds m) as [H1 H2]. split; intros H.
  - eapply Z.lt_le_trans; [exact H2|]. by apply Z.pow_le_mono_r.
  - destruct (Z.le_gt_cases (Zpos (digits2_pos m)) k) as [|L]; [done|].
    assert (2 ^ k <= 2 ^ (Zpos (digits2_pos m) - 1)); [|lia]. apply Z.pow_le_mono_r; lia.
Qed.

(** A value [m * 2^e] of magnitude below [2^k]. *)
Definition fits (m e k : Z) : Prop := match m with Z0 => True | Zpos p => Zpos (digits2_pos p) + e <= k | Zneg _ => False end.
Definition small (x : pyfloat) (k : Z) : Prop :=
  match x with
  | S754_zero _ => True
  | S754_finite _ m e => Zpos (digits2_pos m) + e <= k
  | _ => False
  end.

Lemma fits_nonneg m e k : fits m e k -> 0 <= m.
Proof. destruct m; cbn; lia. Qed.
Lemma fits_le m e k k' : fits m e k -> k <= k' -> fits m e k'.
Proof. destruct m; cbn; lia. Qed.
Lemma small_le x k k' : small x k -> k <= k' -> small x k'.
Proof. destruct x; cbn; lia. Qed.

Lemma fits_lt m e k : 0 <= m -> e <= k -> m < 2 ^ (k - e) -> fits m e k.
Proof.
  intros Hm He Hl. destruct m as [|p|p]; [done| |lia]. cbn. apply digits_lt in Hl. lia.
Qed.
Lemma fits_bound m e k : fits m e k -> m = 0 \/ (e < k /\ m < 2 ^ (k - e)).
Proof.
  destruct m as [|p|p]; cbn; [by left| |done]. intros H. right.
  pose proof (Pos2Z.is_pos (digits2_pos p)). split; [lia|]. apply digits_lt. lia.
Qed.

Lemma fits_div m e k n : fits m e k -> 0 <= n -> fits (m / 2 ^ n) (e + n) k.
Proof.
  intros H Hn. destruct (fits_bound _ _ _ H) as [->|[He Hm]]; [by rewrite Z.div_0_l by lia|].
  pose proof (fits_nonneg _ _ _ H).
  destruct (Z.le_gt_cases (e + n) k) as [L|L].
  - apply fits_lt; [by apply Z.div_pos; lia|done|]. apply Z.div_lt_upper_bound; [lia|].
    rewrite <- Z.pow_add_r by lia. by replace (n + (k - (e + n))) with (k - e) by lia.
  - rewrite Z.div_small; [done|]. split; [done|]. eapply Z.lt_le_trans; [exact Hm|]. apply Z.pow_le_mono_r; lia.
Qed.

(** * Rounding *)
Lemma shr_1_m r : 0 <= shr_m r -> shr_m (shr_1 r) = shr_m r / 2.
Proof. rewrite <- Z.div2_div. destruct r as [[|[p|p|]|p] b s]; cbn; intros; try done; lia. Qed.

Lemma iter_pos_shr p r : 0 <= shr_m r -> shr_m (iter_pos shr_1 p r) = shr_m r / 2 ^ Zpos p.
Proof.
  revert r. assert (Hp : forall q, 0 < 2 ^ Zpos q) by (intros; by apply Z.pow_pos_nonneg).
  induction p as [p IH|p IH|]; intros r Hr; cbn [iter_pos]; try pose proof (Hp p).
  - assert (H1 : 0 <= shr_m r / 2) by (apply Z.div_pos; lia).
    assert (H2 : 0 <= shr_m r / 2 / 2 ^ Zpos p) by (apply Z.div_pos; lia).
    pose proof (shr_1_m r Hr) as E1.
    assert (E2 : shr_m (iter_pos shr_1 p (shr_1 r)) = shr_m r / 2 / 2 ^ Zpos p) by (rewrite IH; by rewrite E1).
    rewrite IH by by rewrite E2. rewrite E2, !Z.div_div by lia. f_equal. rewrite (Pos2Z.inj_xI p).
    rewrite Z.pow_add_r, Z.pow_1_r by lia. replace (2 * Zpos p) with (Zpos p + Zpos p) by lia.
    rewrite Z.pow_add_r by lia. lia.
  - assert (H2 : 0 <= shr_m r / 2 ^ Zpos p) by (apply Z.div_pos; lia).
    pose proof (IH r Hr) as E1. rewrite IH by by rewrite E1. rewrite E1, Z.div_div by lia. f_equal. rewrite (Pos2Z.inj_xO p).
    replace (2 * Zpos p) with (Zpos p + Zpos p) by lia. by rewrite Z.pow_add_r by lia.
  - by apply shr_1_m.
Qed.

(** The exponent after [shr_fexp], and the magnitude kept. *)
Lemma shr_fexp_fits m e l k : fits m e k ->
  let '(r, e') := shr_fexp 53 1024 m e l in
  fits (shr_m r) e' k /\ e' <= Z.max e (Z.max (k - 53) (-1074)) /\ (m = 0 -> shr_m r = 0).
Proof.
  intros H. pose proof (fits_nonneg _ _ _ H) as Hm. unfold shr_fexp, shr.
  set (rec := shr_record_of_loc m l). assert (Er : shr_m rec = m) by by destruct l as [|[]].
  set (n := fexp 53 1024 (Zdigits2 m + e) - e). destruct n as [|p|p] eqn:En.
  - rewrite Er. split; [done|]. split; [lia|done].
  - rewrite iter_pos_shr, Er by by rewrite Er. split; [by apply fits_div|]. split.
    + rewrite <- En. unfold n, fexp, emin. change (3 - 1024 - 53) with (-1074).
      destruct m as [|q|q]; cbn [Zdigits2 fits] in *; lia.
    + intros ->. by rewrite Z.div_0_l by lia.
  - rewrite Er. split; [done|]. split; [lia|done].
Qed.

Lemma round_nearest_bound m l : 0 <= m -> m <= round_nearest_even m l <= m + 1.
Proof. intros. destruct l as [|[]]; cbn; try case_match; lia. Qed.

Lemma fits_succ m e k m' : fits m e k -> m <= m' <= m + 1 -> e <= k -> fits m' e (k + 1).
Proof.
  intros H Hm He. pose proof (fits_nonneg _ _ _ H). apply fits_lt; [lia|lia|].
  assert (0 < 2 ^ (k - e)) by (apply Z.pow_pos_nonneg; lia).
  replace (k + 1 - e) with (1 + (k - e)) by lia. rewrite Z.pow_add_r by lia.
  destruct (fits_bound _ _ _ H) as [->|[_ ?]]; lia.
Qed.

Lemma round_small s m e l k : fits m e k -> e <= k -> -1000 <= k <= 900 ->
  small (binary_round_aux 53 1024 s m e l) (k + 1).
Proof.
  intros H He Hk. unfold binary_round_aux. pose proof (shr_fexp_fits m e l k H) as H1.
  destruct (shr_fexp 53 1024 m e l) as [r e1]. destruct H1 as (H1 & E1 & _).
  pose proof (fits_nonneg _ _ _ H1) as N1. set (m1 := round_nearest_even _ _).
  assert (H2 : fits m1 e1 (k + 1)).
  { apply (fits_succ (shr_m r) e1 k); [done|by apply round_nearest_bound|lia]. }
  pose proof (shr_fexp_fits m1 e1 loc_Exact (k + 1) H2) as H3.
  destruct (shr_fexp 53 1024 m1 e1 loc_Exact) as [r2 e2]. destruct H3 as (H3 & E2 & _).
  destruct (shr_m r2) as [|p|p]; [done| |done]. cbn in H3.
  destruct (Z.leb_spec e2 (1024 - 53)); [done|lia].
Qed.

Lemma shl_align_fits m e e' k : Zpos (digits2_pos m) + e <= k ->
  let '(m', e2) := shl_align m e e' in Zpos (digits2_pos m') + e2 <= k /\ Zpos m' * 2 ^ (e2 - Z.min e e2) = Zpos m * 2 ^ (e - Z.min e e2).
Proof.
  intros H. unfold shl_align. destruct (e' - e) as [|d|d] eqn:Ed; try (rewrite Z.min_id; done).
  replace (Z.min e e') with e' by lia. replace (e - e') with (Zpos d) by lia. rewrite Z.sub_diag, iter_xO.
  split; [|lia]. assert (Zpos (digits2_pos (Pos.iter xO m d)) <= k - e'); [|lia].
  apply digits_lt. rewrite iter_xO. apply (Z.lt_le_trans _ (2 ^ (k - e) * 2 ^ Zpos d)).
  - apply Z.mul_lt_mono_pos_r; [lia|]. apply digits_lt. lia.
  - rewrite <- Z.pow_add_r by (pose proof (Pos2Z.is_pos (digits2_pos m)); lia). apply Z.pow_le_mono_r; lia.
Qed.

Lemma normalize_small m e k z : Z.abs m < 2 ^ (k - e) -> e <= k -> -1000 <= k <= 900 ->
  small (binary_normalize 53 1024 m e z) (k + 1).
Proof.
  intros Hm He Hk. assert (Hr : forall s p, Zpos p < 2 ^ (k - e) -> small (binary_round 53 1024 s p e) (k + 1)).
  { intros s p Hp. unfold binary_round. apply digits_lt in Hp.
    pose proof (shl_align_fits p e (fexp 53 1024 (Zpos (digits2_pos p) + e)) k ltac:(lia)) as Ha.
    destruct (shl_align p e _) as [p' e']. destruct Ha as [Ha _].
    apply round_small; [exact Ha| |done]. pose proof (Pos2Z.is_pos (digits2_pos p')). lia. }
  destruct m as [|p|p]; [done|by apply Hr|by apply Hr].
Qed.

(** * Operations *)
Lemma float_of_Z_small n k : Z.abs n < 2 ^ k -> 0 <= k <= 900 -> small (float_of_Z n) (k + 1).
Proof. intros Hn Hk. apply normalize_small; rewrite ?Z.sub_0_r; lia. Qed.

Lemma mul_small x y a b : small x a -> small y b -> -500 <= a <= 400 -> -500 <= b <= 400 -> small (fmul x y) (a + b + 1).
Proof.
  destruct x as [| | |sx mx ex], y as [| | |sy my ey]; cbn [small]; try done. intros Hx Hy Ha Hb. cbn [fmul SFmul].
  assert (Hf : Zpos (digits2_pos (mx * my)) + (ex + ey) <= a + b).
  { assert (Zpos (digits2_pos (mx * my)) <= Zpos (digits2_pos mx) + Zpos (digits2_pos my)); [|lia].
    apply digits_lt. rewrite Pos2Z.inj_mul, Z.pow_add_r by lia.
    pose proof (proj2 (digits2_pos_bounds mx)). pose proof (proj2 (digits2_pos_bounds my)).
    apply Z.mul_lt_mono_nonneg; lia. }
  apply round_small; [exact Hf| |lia].
  pose proof (Pos2Z.is_pos (digits2_pos mx)). pose proof (Pos2Z.is_pos (digits2_pos my)). lia.
Qed.

Lemma align_abs s m e k ez : Zpos (digits2_pos m) + e <= k -> ez <= e ->
  Z.abs (cond_Zopp s (Zpos (fst (shl_align m e ez)))) < 2 ^ (k - ez).
Proof.
  intros H He. replace (Z.abs _) with (Zpos (fst (shl_align m e ez))) by by destruct s.
  pose proof (shl_align_fits m e ez k H) as Ha. assert (He2 : snd (shl_align m e ez) = ez).
  { unfold shl_align. destruct (ez - e) eqn:E; cbn; lia. }
  destruct (shl_align m e ez) as [m' e2]. cbn in *. subst e2. apply digits_lt. lia.
Qed.

Lemma add_small x y k : small x k -> small y k -> -900 <= k <= 800 -> small (fadd x y) (k + 2).
Proof.
  destruct x as [sx|sx| |sx mx ex], y as [sy|sy| |sy my ey]; cbn [small]; try done; intros Hx Hy Hk;
    cbn [fadd SFadd].
  - by destruct sx, sy.
  - cbn. lia.
  - cbn. lia.
  - replace (k + 2) with (k + 1 + 1) by lia.
    assert (Hz : Z.min ex ey <= k) by (pose proof (Pos2Z.is_pos (digits2_pos mx)); lia).
    apply normalize_small; [|lia|lia].
    pose proof (align_abs sx mx ex k (Z.min ex ey) Hx ltac:(lia)).
    pose proof (align_abs sy my ey k (Z.min ex ey) Hy ltac:(lia)).
    replace (k + 1 - Z.min ex ey) with (1 + (k - Z.min ex ey)) by lia.
    rewrite Z.pow_add_r, Z.pow_1_r by lia. set (P := 2 ^ (k - _)) in *. clearbody P.
    set (x := cond_Zopp sx _) in *. set (y := cond_Zopp sy _) in *. clearbody x y. lia.
Qed.

(** Division by a number of at least [2^b]. *)
Definition large (x : pyfloat) (b : Z) : Prop :=
  match x with S754_finite _ m e => b <= Zpos (digits2_pos m) - 1 + e | _ => False end.

Lemma div_small x y a b : small x a -> large y b -> -500 <= a <= 400 -> -400 <= b <= 400 -> small (fdiv x y) (a - b + 1).
Proof.
  destruct x as [| | |sx mx ex], y as [| | |sy my ey]; cbn [small large]; try done. intros Hx Hy Ha Hb. cbn [fdiv SFdiv].
  unfold SFdiv_core_binary. cbn [Zdigits2].
  set (d1 := Zpos (digits2_pos mx)) in *. set (d2 := Zpos (digits2_pos my)) in *.
  set (e' := Z.min _ (ex - ey)). set (s := ex - ey - e').
  assert (Hs : 0 <= s) by lia.
  replace (match s with 0 => Zpos mx | Zpos _ => Z.shiftl (Zpos mx) s | Zneg _ => 0 end) with (Zpos mx * 2 ^ s).
  2: { destruct s as [|p|p] eqn:Es; [lia| |lia]. by rewrite Z.shiftl_mul_pow2. }
  destruct (Z.div_eucl _ _) as [q r] eqn:Eq.
  assert (Hq : q = Zpos mx * 2 ^ s / Zpos my) by (unfold Z.div; by rewrite Eq).
  pose proof (proj2 (digits2_pos_bounds mx)) as Bx. pose proof (proj1 (digits2_pos_bounds my)) as By.
  fold d1 in Bx. fold d2 in By.
  assert (He' : e' <= a - b).
  { assert (e' <= fexp 53 1024 (d1 + ex - (d2 + ey))) by lia. unfold fexp, emin in *.
    change (3 - 1024 - 53) with (-1074) in *. lia. }
  assert (Hf : fits q e' (a - b)).
  { apply fits_lt; [rewrite Hq; apply Z.div_pos; lia|done|]. rewrite Hq. apply Z.div_lt_upper_bound; [lia|].
    assert (H0 : 0 < 2 ^ s) by by apply Z.pow_pos_nonneg.
    assert (H1 : Zpos mx * 2 ^ s < 2 ^ (d1 + s)) by (rewrite Z.pow_add_r by lia; by apply Z.mul_lt_mono_pos_r).
    assert (H2 : 2 ^ (d1 + s) <= 2 ^ (d2 - 1 + (a - b - e'))) by (apply Z.pow_le_mono_r; lia).
    rewrite (Z.pow_add_r 2 (d2 - 1)) in H2 by lia.
    assert (0 < 2 ^ (a - b - e')) by (apply Z.pow_pos_nonneg; lia). nia. }
  by apply round_small; [| |lia].
Qed.

(** * Conversions *)
Lemma small_int x k : small x k -> is_Some (match int_of_float x with Ok n => Some n | _ => None end).
Proof. destruct x; cbn; try done; eauto. Qed.
Lemma floor_ok x k : small x k -> exists n, floor_of_float x = Ok n.
Proof. destruct x as [| | |[] m e]; cbn; try done; eauto. Qed.

(** * Mantissas *)

(** The mantissa has at most 53 bits. *)
Definition narrow (x : pyfloat) : Prop := match x with S754_finite _ m _ => Zpos m < 2 ^ 53 | _ => True end.

Lemma shr_fexp_narrow m e l : 0 <= m ->
  0 <= shr_m (fst (shr_fexp 53 1024 m e l)) < 2 ^ 53.
Proof.
  intros Hm. unfold shr_fexp, shr. set (rec := shr_record_of_loc m l).
  assert (Er : shr_m rec = m) by by destruct l as [|[]].
  assert (Hd : m < 2 ^ Zdigits2 m).
  { destruct m as [|p|p]; [done| |done]. cbn [Zdigits2]. by apply digits_lt. }
  assert (Hf : Zdigits2 m + e - 53 <= fexp 53 1024 (Zdigits2 m + e)) by (unfold fexp; lia).
  destruct (fexp 53 1024 (Zdigits2 m + e) - e) as [|p|p] eqn:En; cbn [fst].
  - rewrite Er. split; [done|]. eapply Z.lt_le_trans; [exact Hd|]. apply Z.pow_le_mono_r; lia.
  - rewrite iter_pos_shr, Er by by rewrite Er. split; [apply Z.div_pos; lia|].
    apply Z.div_lt_upper_bound; [lia|]. rewrite <- Z.pow_add_r by lia.
    eapply Z.lt_le_trans; [exact Hd|]. apply Z.pow_le_mono_r; lia.
  - rewrite Er. split; [done|]. eapply Z.lt_le_trans; [exact Hd|]. apply Z.pow_le_mono_r; lia.
Qed.

Lemma round_narrow s m e l : 0 <= m -> narrow (binary_round_aux 53 1024 s m e l).
Proof.
  intros Hm. unfold binary_round_aux. pose proof (shr_fexp_narrow m e l Hm) as H1.
  destruct (shr_fexp 53 1024 m e l) as [r e1]. cbn [fst] in H1.
  pose proof (shr_fexp_narrow (round_nearest_even (shr_m r) (loc_of_shr_record r)) e1 loc_Exact) as H2.
  destruct (shr_fexp 53 1024 _ e1 loc_Exact) as [r2 e2]. cbn [fst] in H2.
  destruct (shr_m r2) as [|p|p]; [done| |done]. destruct (e2 <=? _); [|done]. cbn.
  apply H2. pose proof (round_nearest_bound (shr_m r) (loc_of_shr_record r)). lia.
Qed.

Lemma normalize_narrow m e z : narrow (binary_normalize 53 1024 m e z).
Proof.
  destruct m as [|p|p]; cbn [binary_normalize]; [done| |]; unfold binary_round;
    destruct (shl_align _ _ _); by apply round_narrow.
Qed.
Lemma float_of_Z_narrow n : narrow (float_of_Z n).
Proof. apply normalize_narrow. Qed.

Lemma add_narrow x y : narrow x -> narrow y -> narrow (fadd x y).
Proof. destruct x as [[]|[]| |], y as [[]|[]| |]; cbn; intros; try done; apply normalize_narrow. Qed.
Lemma sub_narrow x y : narrow x -> narrow y -> narrow (fsub x y).
Proof. destruct x as [[]|[]| |], y as [[]|[]| |]; cbn; intros; try done; apply normalize_narrow. Qed.
Lemma mul_narrow x y : narrow (fmul x y).
Proof. destruct x as [|[]| |], y as [|[]| |]; cbn; try done; by apply round_narrow. Qed.
Lemma div_narrow x y : narrow (fdiv x y).
Proof.
  destruct x as [|[]| |[] mx ex], y as [|[]| |[] my ey]; try done; cbn [fdiv SFdiv]; unfold SFdiv_core_binary;
    set (e' := Z.min _ _); set (s := ex - ey - e');
    (destruct (Z.div_eucl _ _) as [q r] eqn:Eq; apply round_narrow;
     match type of Eq with Z.div_eucl ?a ?b = _ => replace q with (a / b) by (unfold Z.div; by rewrite Eq) end;
     apply Z.div_pos; [|done]; destruct s; try done; rewrite Z.shiftl_mul_pow2 by done; apply Z.mul_nonneg_nonneg; [done|by apply Z.pow_nonneg]).
Qed.
Lemma opp_narrow x : narrow x -> narrow (fopp x).
Proof. by destruct x. Qed.
#[export] Hint Resolve float_of_Z_narrow add_narrow sub_narrow mul_narrow div_narrow opp_narrow : osm.

Definition digit_or_minus (c : Z) : Prop := c = 45 \/ ascii_digit c = true.

Lemma str_of_Z_chars n : Forall digit_or_minus (str_of_Z n).
Proof.
  unfold str_of_Z. destruct (Z.ltb_spec n 0).
  - constructor; [by left|]. destruct (str_of_nonneg_spec (- n)) as (_ & Hd & _); [lia|].
    eapply Forall_impl; [exact Hd|]. by right.
  - destruct (str_of_nonneg_spec n) as (_ & Hd & _); [lia|].
    eapply Forall_impl; [exact Hd|]. by right.
Qed.

Lemma digit_or_minus_ascii c : digit_or_minus c -> 0 <= c < 128 /\ c <> 47.
Proof. intros [->|Hc%ascii_digit_spec]; lia. Qed.

Lemma str_of_Z_ascii n : Forall (fun c => 0 <= c < 128) (str_of_Z n).
Proof. eapply Forall_impl; [apply str_of_Z_chars|]. intros c ?%digit_or_minus_ascii. tauto. Qed.

Lemma str_of_Z_nonempty n : str_of_Z n <> [].
Proof.
  unfold str_of_Z. destruct (Z.ltb_spec n 0); [done|].
  by destruct (str_of_nonneg_spec n) as (Hne & _).
Qed.


Section Reading.
Context `{UnicodeDB}.

Lemma lstrip_by_id (p : Z -> bool) s : Forall (fun c => p c = false) s -> lstrip_by p s = s.
Proof. destruct 1 as [|c s Hc _]; simpl; [done|]. by rewrite Hc. Qed.
Lemma strip_by_id (p : Z -> bool) s : Forall (fun c => p c = false) s -> strip_by p s = s.
Proof.
  intros Hs. unfold strip_by, rstrip_by. rewrite (lstrip_by_id p s) by done.
  rewrite lstrip_by_id; [apply rev_involutive|]. by apply Forall_rev.
Qed.

Lemma digit_or_minus_not_space c : digit_or_minus c -> py_isspace c = false.
Proof. intros [->|Hc]; [done | by apply digit_not_space]. Qed.

Lemma py_strip_str_of_Z n : py_strip (str_of_Z n) = str_of_Z n.
Proof.
  apply strip_by_id. eapply Forall_impl; [apply str_of_Z_chars|]. apply digit_or_minus_not_space.
Qed.

Lemma py_int_digits s : all_digits s -> s <> [] -> py_int s = Ok (dec_val s 0).
Proof.
  intros Hd Hne. unfold py_int. rewrite py_strip_digits by done.
  destruct s as [|c s]; [done|].
  pose proof Hd as [Hc _]%Forall_cons. apply ascii_digit_spec in Hc. cbn [split_sign].
  destruct (Z.eqb_spec c 43); [lia|]. destruct (Z.eqb_spec c 45); [lia|].
  rewrite digitpart_digits by done. cbn [mbind option_bind]. by rewrite digits_val_digits.
Qed.

(** [int(str(n)) == n] *)
Lemma py_int_str_of_Z n : py_int (str_of_Z n) = Ok n.
Proof.
  unfold str_of_Z. destruct (Z.ltb_spec n 0) as [Hn|Hn].
  - destruct (str_of_nonneg_spec (- n)) as (Hne & Hd & Hv); [lia|].
    pose proof (py_strip_str_of_Z n) as Hs. unfold str_of_Z in Hs.
    destruct (Z.ltb_spec n 0); [|lia].
    unfold py_int. rewrite Hs. cbn [split_sign].
    replace (45 =? 43) with false by done. replace (45 =? 45) with true by done.
    rewrite digitpart_digits by done. cbn [mbind option_bind]. rewrite digits_val_digits by done.
    rewrite Hv. f_equal. lia.
  - destruct (str_of_nonneg_spec n) as (Hne & Hd & Hv); [lia|].
    rewrite py_int_digits by done. by rewrite Hv.
Qed.
End Reading.

#[export] Instance str_of_Z_inj : Inj (=) (=) str_of_Z.
Proof.
  intros n m E. pose proof (@py_int_str_of_Z latin1_db n) as Hn. rewrite E in Hn.
  rewrite py_int_str_of_Z in Hn. congruence.
Qed.

(** * Rounding, close to the exact value *)
Lemma shr_fexp_value m e l : 0 <= m -> exists n, 0 <= n /\ (shr_fexp 53 1024 m e l).2 = e + n /\ shr_m (shr_fexp 53 1024 m e l).1 = m / 2 ^ n /\
  fexp 53 1024 (Zdigits2 m + e) <= e + n /\ (n = 0 \/ e + n = fexp 53 1024 (Zdigits2 m + e)).
Proof.
  intros Hm. unfold shr_fexp, shr. set (rec := shr_record_of_loc m l). assert (Er : shr_m rec = m) by by destruct l as [|[]].
  destruct (fexp 53 1024 (Zdigits2 m + e) - e) as [|p|p] eqn:En; cbn [fst snd].
  - exists 0. rewrite Er, Z.div_1_r. split_and!; lia.
  - exists (Zpos p). rewrite iter_pos_shr, Er by by rewrite Er. split_and!; lia.
  - exists 0. rewrite Er, Z.div_1_r. split_and!; lia.
Qed.
Lemma digits_bound q : 0 <= q < 2 ^ 53 + 1 -> Zdigits2 q <= 54.
Proof. intros Hq. destruct q as [|p|p]; cbn; [lia| |lia]. apply digits_lt. lia. Qed.

(** The result differs from [q * 2^e] by at most three units of its exponent
    before the carry. *)
Lemma round_near s q e l k : 0 <= q -> Zdigits2 q + e <= k -> e <= k - 53 -> -1000 <= k <= 900 ->
  exists m e2 n, 0 <= m /\ e <= e2 <= k - 52 /\ 0 <= n <= k - 53 - e /\
    m * 2 ^ (e2 - e) - q <= 2 ^ n /\ q - m * 2 ^ (e2 - e) <= 3 * 2 ^ n /\
    binary_round_aux 53 1024 s q e l = match m with Zpos p => S754_finite s p e2 | _ => S754_zero s end.
Proof.
  intros Hq Hk He Hb. unfold binary_round_aux.
  pose proof (shr_fexp_narrow q e l Hq) as Hn1. destruct (shr_fexp_value q e l Hq) as (n & Hn & E1 & M1 & F1 & C1).
  destruct (shr_fexp 53 1024 q e l) as [r e1]. cbn [fst snd] in *. subst e1.
  set (m1 := round_nearest_even _ _). assert (Hm1 : q / 2 ^ n <= m1 <= q / 2 ^ n + 1).
  { rewrite <- M1. apply round_nearest_bound. lia. }
  destruct (shr_fexp_value m1 (e + n) loc_Exact ltac:(lia)) as (n2 & Hn2 & E2 & M2 & F2 & C2).
  destruct (shr_fexp 53 1024 m1 (e + n) loc_Exact) as [r2 e2]. cbn [fst snd] in *. subst e2. rewrite M2.
  assert (Hnk : n <= k - 53 - e) by (destruct C1 as [->|C1]; [lia|]; unfold fexp, emin in C1; lia).
  assert (Hd : Zdigits2 m1 <= 54) by (apply digits_bound; lia).
  assert (Hn21 : n2 <= 1) by (destruct C2 as [->|C2]; [lia|]; unfold fexp, emin in *; lia).
  exists (m1 / 2 ^ n2), (e + n + n2), n. assert (0 < 2 ^ n) by (by apply Z.pow_pos_nonneg).
  assert (0 <= m1 / 2 ^ n2) by (apply Z.div_pos; [lia|by apply Z.pow_pos_nonneg]).
  replace (e + n + n2 - e) with (n + n2) by lia. rewrite Z.pow_add_r by lia.
  pose proof (Z.div_mod q (2 ^ n) ltac:(lia)). pose proof (Z.mod_pos_bound q (2 ^ n) ltac:(lia)).
  assert (Hm2 : m1 - 1 <= m1 / 2 ^ n2 * 2 ^ n2 <= m1).
  { assert (n2 = 0 \/ n2 = 1) as [-> | ->] by lia; [rewrite Z.pow_0_r, Z.div_1_r; lia|]. change (2 ^ 1) with 2.
    pose proof (Z.div_mod m1 2 ltac:(lia)). pose proof (Z.mod_pos_bound m1 2 ltac:(lia)). lia. }
  split_and!; try lia; try nia.
  destruct (m1 / 2 ^ n2) as [|p|p]; [done| |lia]. destruct (Z.leb_spec (e + n + n2) (1024 - 53)); [done|lia].
Qed.

Lemma f1e7_value : float_of_Z 10000000 = S754_finite false 5368709120000000 (-29).
Proof. vm_compute. reflexivity. Qed.

(** [v / 1e7] for a positive [v] up to [2^31]: closer to its value than a
    thousandth of 1e-7. *)
Lemma degrees_near s m k v : 0 < v <= 2 ^ 31 -> 0 <= k <= 52 -> Zpos m = v * 2 ^ k ->
  exists p e, fdiv (S754_finite s m (- k)) (float_of_Z 10000000) = S754_finite s p e /\ e <= -44 /\
    1024 * Z.abs (Zpos p * 10 ^ 7 - v * 2 ^ (- e)) < 2 ^ (- e).
Proof.
  intros Hv Hk Hm. rewrite f1e7_value. cbn [fdiv SFdiv]. rewrite xorb_false_r. unfold SFdiv_core_binary. cbn [Zdigits2].
  change (Z.pos (digits2_pos 5368709120000000)) with 53.
  assert (Hd : Zpos (digits2_pos m) <= 32 + k) by (apply digits_lt; rewrite Hm, Z.pow_add_r by lia; apply Z.mul_lt_mono_pos_r; lia).
  set (e' := Z.min _ _). assert (He' : e' <= -45) by (unfold e', fexp, emin; lia).
  assert (Hlow : -1074 <= fexp 53 1024 (Z.pos (digits2_pos m) + - k - (53 + -29))) by (unfold fexp, emin; lia).
  set (sh := - k - -29 - e'). assert (Hs : 0 <= sh) by (unfold sh; lia).
  replace (match sh with 0 => Zpos m | Zpos _ => Z.shiftl (Zpos m) sh | Zneg _ => 0 end) with (Zpos m * 2 ^ sh)
    by (destruct sh as [|p|p] eqn:Es; [lia|by rewrite Z.shiftl_mul_pow2|lia]).
  destruct (Z.div_eucl _ _) as [q r] eqn:Eq.
  assert (Hq : q = v * 2 ^ (- e') / 10 ^ 7).
  { transitivity (Zpos m * 2 ^ sh / 5368709120000000); [unfold Z.div; by rewrite Eq|].
    rewrite Hm. replace (v * 2 ^ k * 2 ^ sh) with (v * 2 ^ (- e') * 2 ^ 29).
    2:{ rewrite <- !Z.mul_assoc, <- !Z.pow_add_r by lia. f_equal. f_equal. unfold sh. lia. }
    change 5368709120000000 with (10 ^ 7 * 2 ^ 29). apply Z.div_mul_cancel_r; lia. }
  pose proof (Z.div_mod (v * 2 ^ (- e')) (10 ^ 7) ltac:(lia)) as Ediv. pose proof (Z.mod_pos_bound (v * 2 ^ (- e')) (10 ^ 7) ltac:(lia)) as Emod.
  rewrite <- Hq in Ediv. assert (HN : 0 < 2 ^ (- e')) by (apply Z.pow_pos_nonneg; lia). assert (Hq0 : 0 <= q) by nia.
  assert (Hqd : Zdigits2 q + e' <= 8).
  { destruct q as [|p|p]; cbn [Zdigits2]; [lia| |lia]. assert (Z.pos (digits2_pos p) <= 8 - e'); [|lia].
    apply digits_lt. replace (8 - e') with (8 + - e') by lia. rewrite Z.pow_add_r by lia. nia. }
  destruct (round_near s q e' (new_location 5368709120000000 r) 8 Hq0 Hqd ltac:(lia) ltac:(lia)) as (m2 & e2 & n & Hm2 & He2 & Hn & U & L & ->).
  assert (Hw : 0 < 2 ^ (e2 - e')) by (apply Z.pow_pos_nonneg; lia). assert (Hw2 : 0 < 2 ^ (- e2)) by (apply Z.pow_pos_nonneg; lia).
  assert (Hprod : 2 ^ (- e') = 2 ^ (e2 - e') * 2 ^ (- e2)) by (rewrite <- Z.pow_add_r by lia; f_equal; lia).
  assert (Hn2 : 2 ^ n * 2 ^ 45 <= 2 ^ (- e')) by (rewrite <- Z.pow_add_r by lia; apply Z.pow_le_mono_r; lia).
  assert (0 < 2 ^ n) by (apply Z.pow_pos_nonneg; lia).
  assert (Hnear : 1024 * Z.abs (m2 * 10 ^ 7 - v * 2 ^ (- e2)) < 2 ^ (- e2)).
  { apply (Z.mul_lt_mono_pos_l (2 ^ (e2 - e'))); [done|]. rewrite <- Hprod.
    replace (2 ^ (e2 - e') * (1024 * Z.abs (m2 * 10 ^ 7 - v * 2 ^ (- e2)))) with (1024 * Z.abs (m2 * 2 ^ (e2 - e') * 10 ^ 7 - v * 2 ^ (- e'))).
    - set (X := m2 * 2 ^ (e2 - e')) in *. change (2 ^ 45) with 35184372088832 in Hn2. change (10 ^ 7) with 10000000 in *. lia.
    - rewrite Hprod. set (W := 2 ^ (e2 - e')) in *. set (D := 2 ^ (- e2)).
      replace (m2 * W * 10 ^ 7 - v * (W * D)) with (W * (m2 * 10 ^ 7 - v * D)) by ring. rewrite Z.abs_mul, (Z.abs_eq W) by lia. ring. }
  destruct m2 as [|p|p]; [exfalso; change (10 ^ 7) with 10000000 in *; nia| |lia].
  exists p, e2. split_and!; [done|lia|done].
Qed.

Lemma round_sign p e : binary_round 53 1024 true p e = fopp (binary_round 53 1024 false p e).
Proof.
  unfold binary_round. destruct (shl_align _ _ _) as [q e']. unfold binary_round_aux.
  destruct (shr_fexp 53 1024 (Zpos q) e' loc_Exact) as [r1 e1]. destruct (shr_fexp 53 1024 _ e1 loc_Exact) as [r2 e2].
  destruct (shr_m r2); [done| |done]. by destruct (e2 <=? _).
Qed.
(** [round(x)] of a float within less than half a unit of an integer. *)
Lemma round_of_float_near s m e v : e < 0 -> 2 * Z.abs (Zpos m - v * 2 ^ (- e)) < 2 ^ (- e) ->
  round_of_float (S754_finite s m e) = Ok (if s then - v else v).
Proof.
  intros He Hv. unfold round_of_float. destruct (Z.leb_spec 0 e); [lia|]. rewrite Z.shiftr_div_pow2, Z.shiftl_mul_pow2, Z.shiftl_1_l by lia.
  set (den := 2 ^ (- e)) in *. assert (0 < den) by (apply Z.pow_pos_nonneg; lia).
  pose proof (Z.div_mod (Zpos m) den ltac:(lia)) as E. pose proof (Z.mod_pos_bound (Zpos m) den ltac:(lia)) as B.
  set (q := Zpos m / den) in *. replace (Zpos m - q * den) with (Zpos m mod den) by lia. set (r := Zpos m mod den) in *.
  assert (Hq : match Z.compare (2 * r) den with Lt => q | Gt => q + 1 | Eq => if Z.even q then q else q + 1 end = v).
  { destruct (Z.compare_spec (2 * r) den) as [C|C|C]; [|nia..]. assert (q = v \/ q + 1 = v) as [-> | <-] by nia; nia. }
  by rewrite Hq.
Qed.

(** Multiplying back gives the integer. *)
Lemma degrees_back s m k v : 0 < v <= 2 ^ 31 -> 0 <= k <= 52 -> Zpos m = v * 2 ^ k ->
  round_of_float (fmul (fdiv (S754_finite s m (- k)) (float_of_Z 10000000)) (float_of_Z 10000000)) = Ok (if s then - v else v).
Proof.
  intros Hv Hk Hm. destruct (degrees_near s m k v Hv Hk Hm) as (p & e & -> & He & Hn). rewrite f1e7_value.
  cbn [fmul SFmul]. rewrite xorb_false_r. change (5368709120000000%positive) with (10000000 * 536870912)%positive.
  set (q := Zpos (p * (10000000 * 536870912))). assert (Hq : q = Zpos p * 10 ^ 7 * 2 ^ 29) by (unfold q; lia).
  assert (0 < 2 ^ (- e)) by (apply Z.pow_pos_nonneg; lia).
  assert (Hbig : 2 ^ (- (e + -29)) = 2 ^ (- e) * 2 ^ 29) by (rewrite <- Z.pow_add_r by lia; f_equal; lia).
  assert (Hd : Zdigits2 q + (e + -29) <= 33).
  { unfold q at 1. cbn [Zdigits2]. assert (Z.pos (digits2_pos (p * (10000000 * 536870912))) <= 33 - (e + -29)); [|lia].
    apply digits_lt. fold q. rewrite Hq. replace (33 - (e + -29)) with (33 + - (e + -29)) by lia. rewrite Z.pow_add_r, Hbig by lia. nia. }
  destruct (round_near s q (e + -29) loc_Exact 33 ltac:(lia) Hd ltac:(lia) ltac:(lia)) as (m2 & e2 & n & Hm2 & He2 & Hn2 & U & L & ->).
  assert (Hprod : 2 ^ (- (e + -29)) = 2 ^ (e2 - (e + -29)) * 2 ^ (- e2)) by (rewrite <- Z.pow_add_r by lia; f_equal; lia).
  assert (Hpn : 2 ^ n * 2 ^ 20 <= 2 ^ (- (e + -29))) by (rewrite <- Z.pow_add_r by lia; apply Z.pow_le_mono_r; lia).
  assert (0 < 2 ^ n) by (apply Z.pow_pos_nonneg; lia). assert (HW : 0 < 2 ^ (e2 - (e + -29))) by (apply Z.pow_pos_nonneg; lia).
  assert (0 < 2 ^ (- e2)) by (apply Z.pow_pos_nonneg; lia).
  assert (Hnear : 2 * Z.abs (m2 - v * 2 ^ (- e2)) < 2 ^ (- e2)).
  { apply (Z.mul_lt_mono_pos_l (2 ^ (e2 - (e + -29)))); [done|]. rewrite <- Hprod.
    replace (2 ^ (e2 - (e + -29)) * (2 * Z.abs (m2 - v * 2 ^ (- e2)))) with (2 * Z.abs (m2 * 2 ^ (e2 - (e + -29)) - v * 2 ^ (- (e + -29)))).
    - set (X := m2 * 2 ^ (e2 - (e + -29))) in *. rewrite Hbig in *. set (D := 2 ^ (- e)) in *.
      change (2 ^ 20) with 1048576 in Hpn. change (10 ^ 7) with 10000000 in *. change (2 ^ 29) with 536870912 in *. lia.
    - rewrite Hprod. set (W := 2 ^ (e2 - (e + -29))) in *. set (D := 2 ^ (- e2)).
      replace (m2 * W - v * (W * D)) with (W * (m2 - v * D)) by ring. rewrite Z.abs_mul, (Z.abs_eq W) by lia. ring. }
  destruct m2 as [|m2|m2]; [exfalso; nia| |lia]. apply round_of_float_near; [lia|done].
Qed.

(** [round(v / 1e7 * 1e7) == v] for 32-bit integers. *)
Lemma e7_back v : - 2 ^ 31 <= v < 2 ^ 31 -> round_of_float (fmul (fdiv (float_of_Z v) (float_of_Z 10000000)) (float_of_Z 10000000)) = Ok v.
Proof.
  intros Hv. destruct v as [|p|p]; [by vm_compute|..].
  - destruct (float_of_pos_exact p) as (m & k & -> & Hk & Hm); [lia|]. by rewrite (degrees_back false m k (Zpos p)) by lia.
  - destruct (float_of_pos_exact p) as (m & k & E & Hk & Hm); [lia|].
    change (float_of_Z (Zneg p)) with (binary_round 53 1024 true p 0). rewrite round_sign.
    change (binary_round 53 1024 false p 0) with (float_of_Z (Zpos p)). rewrite E. cbn [fopp SFopp negb]. by rewrite (degrees_back true m k (Zpos p)) by lia.
Qed.

(** * Floats that equal an integer *)
Lemma feqb_finite s m e y : feqb (S754_finite s m e) y = true -> y = S754_finite s m e.
Proof.
  unfold feqb, SFeqb, SFcompare. destruct y as [z|z| |s' m' e']; [by destruct s|by destruct s, z|done|].
  destruct s, s'; try done; destruct (Z.compare_spec e e') as [<-|?|?]; try done;
    change (Pos.compare_cont Eq m m') with (Pos.compare m m'); destruct (Pos.compare_spec m m') as [->|?|?]; done.
Qed.
Lemma feqb_zero s y : feqb (S754_zero s) y = true -> exists s', y = S754_zero s'.
Proof. destruct y as [s'|[]| |[]]; try done. by exists s'. Qed.
Lemma float_of_neg p : float_of_Z (Zneg p) = fopp (float_of_Z (Zpos p)).
Proof. change (float_of_Z (Zneg p)) with (binary_round 53 1024 true p 0). by rewrite round_sign. Qed.

Lemma fltb_positive m e m' e' : fltb (S754_finite false m e) (S754_finite false m' e') = (e <? e') || (e =? e') && (Zpos m <? Zpos m').
Proof.
  unfold fltb, SFltb, SFcompare. destruct (Z.compare_spec e e') as [<-|E|E].
  - rewrite Z.ltb_irrefl, Z.eqb_refl. cbn [orb andb]. unfold Z.ltb. cbn [Z.compare]. change (Pos.compare_cont Eq m m') with (Pos.compare m m').
    by destruct (Pos.compare m m').
  - by replace (e <? e') with true by lia.
  - replace (e <? e') with false by lia. by replace (e =? e') with false by lia.
Qed.

(** [x == n] for a small integer [n]: then [n] is [int(x)], and [abs(x) < 1e15]
    is [abs(n) < 10^15]. *)
Lemma equals_integer x n : feqb x (float_of_Z n) = true -> Z.abs n < 10 ^ 15 ->
  int_of_float x = Ok n /\ fltb (fabs x) (float_of_Z 1000000000000000) = true.
Proof.
  replace (float_of_Z 1000000000000000) with (S754_finite false 8000000000000000 (-3)) by (vm_compute; reflexivity).
  assert (Hpos : forall (s : bool) (p : positive), Zpos p < 10 ^ 15 -> feqb x (if s then fopp (float_of_Z (Zpos p)) else float_of_Z (Zpos p)) = true ->
    int_of_float x = Ok (if s then Zneg p else Zpos p) /\ fltb (fabs x) (S754_finite false 8000000000000000 (-3)) = true).
  { intros s p Hp. destruct (float_of_pos_normal p) as (m & k & -> & Hk & Hm & Hn); [lia|]. intros Hx.
    assert (Ex : x = S754_finite s m (- k)).
    { destruct x as [z|z| |z m' e']; [by destruct s, z|by destruct s, z|done|]. apply feqb_finite in Hx. by destruct s; injection Hx as -> -> ->. }
    subst x. split.
    - cbn [int_of_float]. rewrite Z.shiftl_opp_r, Z.shiftr_div_pow2 by lia. rewrite Hm, Z.div_mul by (apply Z.pow_nonzero; lia). by destruct s.
    - assert (3 <= k) as H3.
      { destruct (Z.le_gt_cases 3 k); [done|]. assert (Zpos p * 2 ^ k <= Zpos p * 2 ^ 2) by (apply Z.mul_le_mono_nonneg_l; [lia|apply Z.pow_le_mono_r; lia]).
        change (2 ^ 2) with 4 in *. change (2 ^ 52) with 4503599627370496 in Hn. change (10 ^ 15) with 1000000000000000 in Hp. lia. }
      change (fabs (S754_finite s m (- k))) with (S754_finite false m (- k)). rewrite fltb_positive.
      apply orb_true_iff. destruct (Z.eqb_spec k 3) as [->|]; [right|left; lia]. apply andb_true_iff. split; [done|]. apply Z.ltb_lt. lia. }
  intros Hx Hn. destruct n as [|p|p].
  - destruct x as [z|[]| |[]]; try done.
  - apply (Hpos false); [lia|done].
  - rewrite float_of_neg in Hx. apply (Hpos true); [lia|done].
Qed.
Lemma integer_below x n : int_of_float x = Ok n -> feqb x (float_of_Z n) = true ->
  fltb (fabs x) (float_of_Z 1000000000000000) = true -> Z.abs n < 10 ^ 15.
Proof.
  replace (float_of_Z 1000000000000000) with (S754_finite false 8000000000000000 (-3)) by (vm_compute; reflexivity).
  destruct x as [z|z| |s m e]; [by intros [= <-]|done|done|]. intros Hi He Hl. apply feqb_finite in He.
  pose proof (float_of_Z_narrow n) as Hm. rewrite He in Hm. cbn [narrow] in Hm. cbn [int_of_float] in Hi. injection Hi as <-.
  assert (Hb : e = -3 /\ Zpos m < 8000000000000000 \/ e < -3).
  { change (fabs (S754_finite s m e)) with (S754_finite false m e) in Hl. rewrite fltb_positive in Hl. lia. }
  assert (0 <= Z.shiftl (Zpos m) e < 10 ^ 15).
  { replace e with (- (- e)) by lia. rewrite Z.shiftl_opp_r, Z.shiftr_div_pow2 by lia. split; [apply Z.div_pos; [lia|apply Z.pow_pos_nonneg; lia]|].
    apply Z.div_lt_upper_bound; [apply Z.pow_pos_nonneg; lia|]. destruct Hb as [[-> Hb]|Hb]; [change (2 ^ - -3) with 8; lia|].
    assert (2 ^ 4 * 10 ^ 15 <= 2 ^ (- e) * 10 ^ 15) by (apply Z.mul_le_mono_nonneg_r; [lia|apply Z.pow_le_mono_r; lia]).
    eapply Z.lt_le_trans; [exact Hm|]. eapply Z.le_trans; [|exact H]. by vm_compute. }
  destruct s; lia.
Qed.
