(* ===== verification/ParserMonad.v ===== *)
(** The monad of the two recursive-descent parsers (exceptions over the token
    cursor) and its weakest-precondition calculus. *)
From S2P Require Import Prelude.

(** * The parser monad: exceptions over [self.pos] *)
Definition P (A : Type) : Type := nat -> res (A * nat).
Definition p_ret {A} (a : A) : P A := fun pos => Ok (a, pos).
Definition p_raise {A} (e : exn) : P A := fun _ => Raise e.
Definition p_bind {A B} (m : P A) (k : A -> P B) : P B :=
  fun pos => match m pos with
             | Ok (a, pos') => k a pos'
             | Raise e => Raise e
             end.
Definition p_lift {A} (r : res A) : P A :=
  fun pos => match r with Ok a => Ok (a, pos) | Raise e => Raise e end.

Notation "'let!' x ':=' m 'in' k" := (p_bind m (fun x => k))
  (at level 10, x pattern, m at level 100, k at level 200) : osm_scope.
Notation "m ';!' k" := (p_bind m (fun _ => k))
  (at level 98, right associativity) : osm_scope.

(** * Weakest preconditions

    [Wp E m Q pos]: run at [pos], [m] returns a value and a cursor in [Q], or
    raises an exception in [E]. *)
Definition Wp {A} (E : exn -> Prop) (m : P A) (Q : A -> nat -> Prop) (pos : nat) : Prop :=
  match m pos with
  | Ok (a, pos') => Q a pos'
  | Raise e => E e
  end.

(** [m] at [pos] raises in [E] or stops at a cursor below [len], not before
    [pos] (after it when [strict]), with a result in [R]. *)
Definition Spec {A} (E : exn -> Prop) (len : nat) (strict : bool) (m : P A) (R : A -> Prop)
    (pos : nat) : Prop :=
  forall Q : A -> nat -> Prop,
    (forall a pos', (if strict then (pos < pos')%nat else (pos <= pos')%nat) ->
       (pos' < len)%nat -> R a -> Q a pos') ->
    Wp E m Q pos.

Section WpRules.
Variable E : exn -> Prop.

Lemma wp_bind {A B} (m : P A) (k : A -> P B) Q pos :
  Wp E m (fun a pos' => Wp E (k a) Q pos') pos -> Wp E (p_bind m k) Q pos.
Proof. unfold Wp, p_bind. by destruct (m pos) as [[a p]|e]. Qed.

Lemma wp_ret {A} (a : A) (Q : A -> nat -> Prop) pos : Q a pos -> Wp E (p_ret a) Q pos.
Proof. done. Qed.

Lemma wp_raise {A} e (Q : A -> nat -> Prop) pos : E e -> Wp E (p_raise e) Q pos.
Proof. done. Qed.

Lemma wp_lift {A} (r : res A) Q pos :
  match r with Ok a => Q a pos | Raise e => E e end -> Wp E (p_lift r) Q pos.
Proof. unfold Wp, p_lift. by destruct r. Qed.

Lemma wp_spec {A} len b (m : P A) R pos Q :
  Spec E len b m R pos ->
  (forall a pos', (if b then (pos < pos')%nat else (pos <= pos')%nat) ->
     (pos' < len)%nat -> R a -> Q a pos') -> Wp E m Q pos.
Proof. intros S HQ. by apply S. Qed.
End WpRules.

(** Specifications of composite parsers are hints of this database. *)
Create HintDb wp discriminated.
#[export] Hint Extern 1 (_ < _)%nat => lia : wp.

Ltac wp_start :=
  let Q := fresh "Q" in let HQ := fresh "HQ" in
  unfold Spec; intros Q HQ; cbn beta iota in HQ.
Ltac wp_done :=
  lazymatch goal with
  | HQ : forall a pos', _ -> _ -> _ -> ?Q a pos' |- ?Q _ _ =>
      apply HQ; [lia | lia | try done]
  end.
Ltac wp_call :=
  lazymatch goal with
  | |- Wp _ ?m _ _ => eapply wp_spec; [solve [eauto with wp lia]|intros ? ? ? ? ?; cbn beta iota in *]
  end.
