(* ===== verification/QlAst.v ===== *)
(** The Overpass QL abstract syntax tree ([src/osmpq/ql/ast.py]): settings,
    filters and statements, with the dataclasses' field order and defaults. *)
From S2P Require Import Prelude PyStr PyFloat.

(** [ElementType] and [ALL_TYPES]; [Query.types] is a list of strings, since
    area and derived queries carry ["area"] and ["derived"]. *)
Definition ALL_TYPES : list pystr := [u "node"; u "way"; u "relation"].

Inductive out_format_t := FmtJson | FmtXml | FmtCsv.

Record Settings := mkSettings {
  out_format : out_format_t;
  csv_fields : option (list pystr);
  csv_header : bool;
  csv_separator : pystr;
  timeout : Z;
  maxsize : Z;
  set_bbox : option (pyfloat * pyfloat * pyfloat * pyfloat);
  date : option pystr;
  diff : option (pystr * option pystr);
  adiff : option (pystr * option pystr)
}.

(** [Settings()] *)
Definition default_settings : Settings :=
  mkSettings FmtXml None true [9] 180 536870912 None None None None.

(** The attribute assignments [settings.f = v]. *)
Definition set_out_format (v : out_format_t) (s : Settings) : Settings :=
  mkSettings v (csv_fields s) (csv_header s) (csv_separator s) (timeout s) (maxsize s)
    (set_bbox s) (date s) (diff s) (adiff s).
Definition set_csv_fields (v : list pystr) (s : Settings) : Settings :=
  mkSettings (out_format s) (Some v) (csv_header s) (csv_separator s) (timeout s)
    (maxsize s) (set_bbox s) (date s) (diff s) (adiff s).
Definition set_csv_header (v : bool) (s : Settings) : Settings :=
  mkSettings (out_format s) (csv_fields s) v (csv_separator s) (timeout s) (maxsize s)
    (set_bbox s) (date s) (diff s) (adiff s).
Definition set_csv_separator (v : pystr) (s : Settings) : Settings :=
  mkSettings (out_format s) (csv_fields s) (csv_header s) v (timeout s) (maxsize s)
    (set_bbox s) (date s) (diff s) (adiff s).
Definition set_timeout (v : Z) (s : Settings) : Settings :=
  mkSettings (out_format s) (csv_fields s) (csv_header s) (csv_separator s) v (maxsize s)
    (set_bbox s) (date s) (diff s) (adiff s).
Definition set_maxsize (v : Z) (s : Settings) : Settings :=
  mkSettings (out_format s) (csv_fields s) (csv_header s) (csv_separator s) (timeout s) v
    (set_bbox s) (date s) (diff s) (adiff s).
Definition set_set_bbox (v : pyfloat * pyfloat * pyfloat * pyfloat) (s : Settings) : Settings :=
  mkSettings (out_format s) (csv_fields s) (csv_header s) (csv_separator s) (timeout s)
    (maxsize s) (Some v) (date s) (diff s) (adiff s).
Definition set_date (v : pystr) (s : Settings) : Settings :=
  mkSettings (out_format s) (csv_fields s) (csv_header s) (csv_separator s) (timeout s)
    (maxsize s) (set_bbox s) (Some v) (diff s) (adiff s).
Definition set_diff (v : pystr * option pystr) (s : Settings) : Settings :=
  mkSettings (out_format s) (csv_fields s) (csv_header s) (csv_separator s) (timeout s)
    (maxsize s) (set_bbox s) (date s) (Some v) (adiff s).
Definition set_adiff (v : pystr * option pystr) (s : Settings) : Settings :=
  mkSettings (out_format s) (csv_fields s) (csv_header s) (csv_separator s) (timeout s)
    (maxsize s) (set_bbox s) (date s) (diff s) (Some v).

Inductive tag_op := OpEq | OpNeq | OpMatch | OpNotMatch | OpExists | OpNotExists.

Record TagFilter := mkTagFilter {
  tf_key : pystr;
  tf_op : tag_op;
  tf_value : option pystr;
  key_is_regex : bool;
  case_insensitive : bool
}.

Inductive recurse_filter_kind := RK_w | RK_r | RK_bn | RK_bw | RK_br.

(** One constructor per filter dataclass. *)
Inductive filter :=
  | FTag (f : TagFilter)
  | FBbox (south west north east : pyfloat)
  | FId (ids : list Z)
  | FRecurse (kind : recurse_filter_kind) (set_name : pystr) (role : option pystr)
  | FAround (radius : pyfloat) (set_name : option pystr)
      (coords : option (list (pyfloat * pyfloat)))
  | FPoly (coords : list (pyfloat * pyfloat))
  | FArea (set_name : option pystr) (area_id : option Z)
  | FPivot (set_name : pystr)
  | FNewer (timestamp : pystr)
  | FChanged (since : pystr) (until : option pystr)
  | FUser (names : list pystr)
  | FUid (uids : list Z)
  | FIf (expression : pystr).

Inductive recurse_kind := RDown | RDownDown | RUp | RUpUp.
Inductive verbosity_t := VIds | VSkel | VBody | VTags | VMeta.
Inductive geometry_t := GNone | GGeom | GBb | GCenter.
Inductive order_t := OrdAsc | OrdQt.

Record Query := mkQuery {
  q_types : list pystr;
  q_filters : list filter;
  q_input_sets : list pystr;
  q_output_set : pystr
}.

Record Out := mkOut {
  o_input_set : pystr;
  o_verbosity : verbosity_t;
  o_geometry : geometry_t;
  o_geom_bbox : option (pyfloat * pyfloat * pyfloat * pyfloat);
  o_order : order_t;
  o_limit : option Z;
  o_noids : bool;
  o_count : bool
}.

(** [Out(input_set=s)] and the assignments [out.f = v]. *)
Definition new_out (s : pystr) : Out := mkOut s VBody GNone None OrdAsc None false false.
Definition out_set_verbosity (v : verbosity_t) (o : Out) : Out :=
  mkOut (o_input_set o) v (o_geometry o) (o_geom_bbox o) (o_order o) (o_limit o) (o_noids o) (o_count o).
Definition out_set_geometry (v : geometry_t) (o : Out) : Out :=
  mkOut (o_input_set o) (o_verbosity o) v (o_geom_bbox o) (o_order o) (o_limit o) (o_noids o) (o_count o).
Definition out_set_geom_bbox (v : pyfloat * pyfloat * pyfloat * pyfloat) (o : Out) : Out :=
  mkOut (o_input_set o) (o_verbosity o) (o_geometry o) (Some v) (o_order o) (o_limit o) (o_noids o) (o_count o).
Definition out_set_order (v : order_t) (o : Out) : Out :=
  mkOut (o_input_set o) (o_verbosity o) (o_geometry o) (o_geom_bbox o) v (o_limit o) (o_noids o) (o_count o).
Definition out_set_limit (v : Z) (o : Out) : Out :=
  mkOut (o_input_set o) (o_verbosity o) (o_geometry o) (o_geom_bbox o) (o_order o) (Some v) (o_noids o) (o_count o).
Definition out_set_noids (o : Out) : Out :=
  mkOut (o_input_set o) (o_verbosity o) (o_geometry o) (o_geom_bbox o) (o_order o) (o_limit o) true (o_count o).
Definition out_set_count (o : Out) : Out :=
  mkOut (o_input_set o) (o_verbosity o) (o_geometry o) (o_geom_bbox o) (o_order o) (o_limit o) (o_noids o) true.

Inductive statement :=
  | SQuery (q : Query)
  | SUnion (statements : list statement) (output_set : pystr)
  | SDifference (first second : statement) (output_set : pystr)
  | SRecurse (kind : recurse_kind) (input_set output_set : pystr)
  | SItem (input_set output_set : pystr)
  | SIsIn (input_set output_set : pystr) (coords : option (pyfloat * pyfloat))
  | SMapToArea (input_set output_set : pystr)
  | SOut (o : Out)
  | SForeach (input_set output_set : pystr) (body : list statement)
  | SIf (condition : pystr) (then_ otherwise : list statement)
  | SRetro (time_expr : pystr) (body : list statement)
  | STimeline (element_type : pystr) (element_id : Z) (version : option Z)
      (output_set : pystr)
  | SUnsupported (keyword source : pystr).

Record Program := mkProgram {
  settings : Settings;
  statements : list statement
}.

(** * Well-formedness of the trees the parser builds

    What the planner relies on without checking it again. *)

(** The type lists a query keyword expands to. *)
Definition query_type_lists : list (list pystr) :=
  [ [u "node"]; [u "way"]; [u "relation"]; [u "node"; u "way"; u "relation"];
    [u "node"; u "way"]; [u "node"; u "relation"]; [u "way"; u "relation"];
    [u "area"]; [u "derived"] ].

Definition filter_wf (f : filter) : Prop :=
  match f with
  | FTag t =>
      (tf_op t = OpExists \/ tf_op t = OpNotExists <-> tf_value t = None)
      /\ (key_is_regex t = true -> tf_op t = OpMatch)
      /\ (case_insensitive t = true -> tf_value t <> None)
  | FId ids => ids <> []
  | FAround _ _ coords => coords <> Some []
  | FPoly coords => (3 <= length coords)%nat
  | FArea s i => s = None \/ i = None
  | FUser names => names <> []
  | FUid uids => uids <> []
  | _ => True
  end.

Inductive stmt_wf : statement -> Prop :=
  | wf_query q :
      q_types q ∈ query_type_lists -> Forall filter_wf (q_filters q) -> stmt_wf (SQuery q)
  | wf_union ss o : Forall stmt_wf ss -> stmt_wf (SUnion ss o)
  | wf_difference a b o : stmt_wf a -> stmt_wf b -> stmt_wf (SDifference a b o)
  | wf_recurse k i o : stmt_wf (SRecurse k i o)
  | wf_item i o : stmt_wf (SItem i o)
  | wf_is_in i o c : stmt_wf (SIsIn i o c)
  | wf_map_to_area i o : stmt_wf (SMapToArea i o)
  | wf_out o : stmt_wf (SOut o)
  | wf_foreach i o b : Forall stmt_wf b -> stmt_wf (SForeach i o b)
  | wf_if c t e : Forall stmt_wf t -> Forall stmt_wf e -> stmt_wf (SIf c t e)
  | wf_retro t b : Forall stmt_wf b -> stmt_wf (SRetro t b)
  | wf_timeline ty i v o : ty ∈ ALL_TYPES -> stmt_wf (STimeline ty i v o)
  | wf_unsupported k s : stmt_wf (SUnsupported k s).
