(* ===== verification/QlLexer.v ===== *)
(** The Overpass QL lexer ([src/osmpq/ql/lexer.py]).

    Properties of the Overpass QL lexer: it always terminates, it raises only
    [ParseError] or [ValueError], and the tokens it returns are slices of the
    source in order, closed by [EOF]. *)
From S2P Require Import Prelude PyStr PyFloatFacts PyFloat.

(** * Tokens *)
Inductive toktype :=
  | STRING | NUMBER | IDENT
  | LBRACKET | RBRACKET | LPAREN | RPAREN | LBRACE | RBRACE
  | SEMI | COMMA | COLON | DOT
  | EQ | NEQ | TILDE | NOTTILDE | BANG
  | LT | LTLT | GT | GTGT
  | ARROW | MINUS | EOF.

#[export] Instance toktype_eq_dec : EqDecision toktype.
Proof. solve_decision. Defined.

(** The string constant behind each token type (shown in messages). *)
Definition toktype_str (t : toktype) : pystr :=
  match t with
  | STRING => u "STRING" | NUMBER => u "NUMBER" | IDENT => u "IDENT"
  | LBRACKET => u "[" | RBRACKET => u "]" | LPAREN => u "(" | RPAREN => u ")"
  | LBRACE => u "{" | RBRACE => u "}" | SEMI => u ";" | COMMA => u ","
  | COLON => u ":" | DOT => u "." | EQ => u "=" | NEQ => u "!=" | TILDE => u "~"
  | NOTTILDE => u "!~" | BANG => u "!" | LT => u "<" | LTLT => u "<<"
  | GT => u ">" | GTGT => u ">>" | ARROW => u "->" | MINUS => u "-" | EOF => u "EOF"
  end.

(** [Token.value : Any] -- absent, a float or a string. *)
Inductive tokval := VNone | VNum (x : pyfloat) | VStr (s : pystr).

Record Token := mkToken {
  ttype : toktype;
  ttext : pystr;
  tvalue : tokval;
  tstart : nat;
  tend : nat;
  tline : Z;
  tcol : Z
}.

(** [_SINGLE_CHAR_MAP] *)
Definition single_char_map (c : Z) : option toktype :=
  match c with
  | 91 => Some LBRACKET | 93 => Some RBRACKET | 40 => Some LPAREN | 41 => Some RPAREN
  | 123 => Some LBRACE | 125 => Some RBRACE | 59 => Some SEMI | 44 => Some COMMA
  | 58 => Some COLON | 46 => Some DOT | 61 => Some EQ | 126 => Some TILDE
  | 33 => Some BANG | 60 => Some LT | 62 => Some GT | 45 => Some MINUS
  | _ => None
  end.

(** [_ESCAPES] *)
Definition escapes (c : Z) : option Z :=
  match c with
  | 110 => Some 10 | 116 => Some 9 | 114 => Some 13 | 92 => Some 92
  | 34 => Some 34 | 39 => Some 39 | 47 => Some 47 | _ => None
  end.

(** [_line_col(text, offset)]: 1-based line and column. *)
Definition line_col (text : pystr) (offset : nat) : Z * Z :=
  let before := firstn offset text in
  (Z.of_nat (count_char 10 before) + 1,
   Z.of_nat offset - (Z.of_nat (rfind_succ 10 before) - 1)).

Arguments line_col : simpl never.

(** [f"line {line}: parse error: {msg}"] *)
Definition parse_error_at (line col : Z) (msg : pystr) : exn :=
  ParseError (u "line " ++ str_of_Z line ++ u ": parse error: " ++ msg) (Some line) (Some col).
Definition lex_error {A} (text : pystr) (offset : nat) (msg : pystr) : res A :=
  let '(line, col) := line_col text offset in Raise (parse_error_at line col msg).

Definition is_hex_digit (c : Z) : bool :=
  ascii_digit c || ((97 <=? c) && (c <=? 102)) || ((65 <=? c) && (c <=? 70)).
Definition hex_val (c : Z) : Z :=
  if ascii_digit c then c - 48 else if 97 <=? c then c - 87 else c - 55.
Definition int_of_hex (s : pystr) : Z := fold_left (fun a c => 16 * a + hex_val c) s 0.

(** The loop of [_read_string]: [i] is the opening quote, [j] the cursor and
    [out] the characters decoded so far, last first. *)
Fixpoint read_string_loop (fuel : nat) (text : pystr) (quote : Z) (i j : nat) (out : pystr)
  : res (pystr * nat) :=
  match fuel with
  | O => Raise OutOfFuel
  | S f =>
      match text !! j with
      | None => lex_error text i (u "unterminated string literal")
      | Some c =>
          if c =? quote then Ok (rev out, S j)
          else if c =? 92 then
            match text !! S j with
            | None => lex_error text j (u "unterminated escape sequence")
            | Some esc =>
                if esc =? 117 then
                  let hex_digits := slice text (j + 2) (j + 6) in
                  if negb (Nat.eqb (length hex_digits) 4) || negb (forallb is_hex_digit hex_digits)
                  then lex_error text j (u "invalid \u escape in string literal")
                  else read_string_loop f text quote i (j + 6) (int_of_hex hex_digits :: out)
                else match escapes esc with
                     | Some e => read_string_loop f text quote i (j + 2) (e :: out)
                     | None => read_string_loop f text quote i (j + 2) (esc :: out)
                     end
            end
          else if c =? 10 then lex_error text j (u "newline in string literal")
          else read_string_loop f text quote i (S j) (c :: out)
      end
  end.

(** [_read_string(text, i)] *)
Definition read_string (text : pystr) (i : nat) : res (pystr * nat) :=
  match text !! i with
  | Some quote => read_string_loop (S (length text)) text quote i (S i) []
  | None => Raise IndexError
  end.

Arguments read_string : simpl never.

Section Tokenize.
Context `{UnicodeDB}.

(** [text[i + 1] == c], guarded by [i + 1 < n]. *)
Definition next_is (text : pystr) (i : nat) (c : Z) : bool :=
  match text !! S i with Some d => d =? c | None => false end.

Definition is_ident_char (c : Z) : bool := py_isalnum c || (c =? 95).

(** A decimal point at [j] that is followed by a digit. *)
Definition point_digit (text : pystr) (j : nat) : bool :=
  match text !! j, text !! S j with
  | Some c, Some d => (c =? 46) && py_isdigit d
  | _, _ => false
  end.

(** End of the number literal that starts at [i]: digits, then optionally a
    point followed by at least one digit. *)
Definition number_end (text : pystr) (i : nat) : nat :=
  let j := scan_while py_isdigit text (S i) in
  if point_digit text j then scan_while py_isdigit text (S j) else j.

(** One iteration of [tokenize]'s loop at [i < n]: the token appended, if
    any, and the new [i]. *)
Definition lex_step (text : pystr) (i : nat) (c : Z) : res (option Token * nat) :=
  let n := length text in
  if (c =? 32) || (c =? 9) || (c =? 13) || (c =? 10) then Ok (None, S i)
  else if (c =? 47) && next_is text i 47 then
    match py_find [10] text i with
    | None => Ok (None, n)
    | Some j => Ok (None, j)
    end
  else if (c =? 47) && next_is text i 42 then
    match py_find [42; 47] text (i + 2) with
    | None => lex_error text i (u "unterminated block comment")
    | Some j => Ok (None, (j + 2)%nat)
    end
  else
    let '(line, col) := line_col text i in
    let tok ty s v j := Ok (Some (mkToken ty s v i j line col), j) in
    if (c =? 34) || (c =? 39) then
      let* r := read_string text i in
      let '(value, j) := r in
      tok STRING (slice text i j) (VStr value) j
    else if (c =? 45) && next_is text i 62 then tok ARROW (u "->") VNone (i + 2)%nat
    else if (c =? 60) && next_is text i 60 then tok LTLT (u "<<") VNone (i + 2)%nat
    else if (c =? 62) && next_is text i 62 then tok GTGT (u ">>") VNone (i + 2)%nat
    else if (c =? 33) && next_is text i 61 then tok NEQ (u "!=") VNone (i + 2)%nat
    else if (c =? 33) && next_is text i 126 then tok NOTTILDE (u "!~") VNone (i + 2)%nat
    else match single_char_map c with
    | Some ty => tok ty [c] VNone (S i)
    | None =>
        if py_isdigit c then
          let j := number_end text i in
          let numtext := slice text i j in
          let* v := py_float numtext in
          tok NUMBER numtext (VNum v) j
        else if py_isalpha c || (c =? 95) then
          let j := scan_while is_ident_char text (S i) in
          let idtext := slice text i j in
          tok IDENT idtext (VStr idtext) j
        else lex_error text i (u "unexpected character '" ++ [c] ++ u "'")
    end.

(** [while i < n: ...], then the [EOF] token. *)
Fixpoint tokenize_loop (fuel : nat) (text : pystr) (i : nat) : res (list Token) :=
  match fuel with
  | O => Raise OutOfFuel
  | S f =>
      match text !! i with
      | None =>
          let n := length text in
          let '(line, col) := line_col text n in
          Ok [mkToken EOF [] VNone n n line col]
      | Some c =>
          let* r := lex_step text i c in
          let '(ot, j) := r in
          let* rest := tokenize_loop f text j in
          Ok (if ot is Some t then t :: rest else rest)
      end
  end.

(** [tokenize(text)] *)
Definition tokenize (text : pystr) : res (list Token) :=
  tokenize_loop (S (length text)) text 0.
End Tokenize.

(** * Specifications *)

(** The exceptions [tokenize] can raise. *)
Definition lex_exn (text : pystr) (e : exn) : Prop :=
  match e with
  | ParseError _ l c => exists i, (i <= length text)%nat /\
      l = Some (fst (line_col text i)) /\ c = Some (snd (line_col text i))
  | ValueError => True
  | _ => False
  end.

(** The value field agrees with the token type. *)
Definition value_ok (t : Token) : Prop :=
  match ttype t with
  | STRING => exists s, tvalue t = VStr s
  | IDENT => tvalue t = VStr (ttext t)
  | NUMBER => exists x, tvalue t = VNum x
  | _ => tvalue t = VNone
  end.

(** A token is a non-empty slice of the source with its own position. *)
Definition token_ok (text : pystr) (t : Token) : Prop :=
  ttype t <> EOF /\ (tstart t < tend t <= length text)%nat /\
  ttext t = slice text (tstart t) (tend t) /\
  line_col text (tstart t) = (tline t, tcol t) /\ value_ok t.

(** The tokens from offset [i] on: in order, without overlap, ended by the
    only [EOF] token, at the end of the source. *)
Fixpoint stream_ok (text : pystr) (i : nat) (toks : list Token) : Prop :=
  match toks with
  | [] => False
  | [t] => ttype t = EOF /\ ttext t = [] /\ tvalue t = VNone /\
           tstart t = length text /\ tend t = length text /\
           line_col text (length text) = (tline t, tcol t)
  | t :: toks' => token_ok text t /\ (i <= tstart t)%nat /\ stream_ok text (tend t) toks'
  end.

(** An escaped, double-quoted literal for [s]: what a client that quotes the
    backslash, the double quote and the newline sends. *)
Definition escape_char (c : Z) : pystr :=
  if c =? 92 then [92; 92] else if c =? 34 then [92; 34] else if c =? 10 then [92; 110] else [c].
Definition quote_literal (s : pystr) : pystr := [34] ++ concat (map escape_char s) ++ [34].

(** * Slices and scans *)
Lemma length_slice s i j : (i <= j <= length s)%nat -> length (slice s i j) = (j - i)%nat.
Proof. intros. unfold slice. rewrite length_firstn, length_skipn. lia. Qed.

Lemma slice_one s i c : s !! i = Some c -> slice s i (S i) = [c].
Proof.
  intros E. unfold slice. replace (S i - i)%nat with 1%nat by lia.
  rewrite (drop_S s c i) by done. done.
Qed.

Lemma slice_two s i c d :
  s !! i = Some c -> s !! S i = Some d -> slice s i (i + 2) = [c; d].
Proof.
  intros E1 E2. unfold slice. replace (i + 2 - i)%nat with 2%nat by lia.
  rewrite (drop_S s c i), (drop_S s d (S i)) by done. done.
Qed.

Lemma span_len_le p s : (span_len p s <= length s)%nat.
Proof. induction s as [|c s IH]; simpl; [lia|]. destruct (p c); simpl; lia. Qed.

Lemma scan_while_bound p s j : (j <= length s)%nat -> (j <= scan_while p s j <= length s)%nat.
Proof.
  intros. unfold scan_while. pose proof (span_len_le p (skipn j s)) as B.
  rewrite length_skipn in B. lia.
Qed.

Lemma find_from_bound sub s k : find_from sub s = Some k -> (k + length sub <= length s)%nat.
Proof.
  assert (L : forall s pre, startswith s pre = true -> (length pre <= length s)%nat).
  { clear. intros s pre; revert s; induction pre as [|a pre IH]; intros [|b s]; simpl;
      try (lia || done). rewrite andb_true_iff. intros [_ E]. apply IH in E. lia. }
  revert k; induction s as [|c s IH]; intros k; cbn [find_from].
  - destruct (startswith [] sub) eqn:E; intros [=<-]. apply L in E. simpl in *; lia.
  - destruct (startswith (c :: s) sub) eqn:E; [intros [=<-]; apply L in E; simpl in *; lia|].
    destruct (find_from sub s) as [k'|]; intros [=<-]. specialize (IH _ eq_refl). simpl; lia.
Qed.

Lemma py_find_bound sub s i k :
  py_find sub s i = Some k -> (i <= k /\ k + length sub <= length s)%nat.
Proof.
  unfold py_find. destruct (length s <? i)%nat eqn:E; [done|].
  destruct (find_from sub (skipn i s)) as [k'|] eqn:F; intros [=<-].
  apply find_from_bound in F. rewrite length_skipn in F. apply Nat.ltb_ge in E. lia.
Qed.

Lemma lookup_lt {A} (l : list A) i x : l !! i = Some x -> (i < length l)%nat.
Proof. apply lookup_lt_Some. Qed.

(** * String literals *)
Lemma lex_error_exn {A} text i msg :
  (i <= length text)%nat ->
  match @lex_error A text i msg with Ok _ => False | Raise e => lex_exn text e end.
Proof.
  intros Hi. unfold lex_error. destruct (line_col text i) as [l c] eqn:E. cbv [parse_error_at lex_exn].
  exists i. by rewrite E.
Qed.

(** The loop stops inside the text, after its starting point, provided the
    fuel covers the characters that remain. *)
Lemma read_string_loop_ok fuel text q i j out :
  (i <= length text)%nat -> (j <= length text)%nat -> (length text < fuel + j)%nat ->
  match read_string_loop fuel text q i j out with
  | Ok (_, k) => (j < k <= length text)%nat
  | Raise e => lex_exn text e
  end.
Proof.
  intros Hi. revert j out; induction fuel as [|f IH]; intros j out Hj Hf; simpl; [lia|].
  assert (E : forall (k : nat) o, (j < k <= length text)%nat ->
    match read_string_loop f text q i k o with
    | Ok (_, k') => (j < k' <= length text)%nat | Raise e => lex_exn text e end).
  { intros k o Hk. specialize (IH k o). destruct (read_string_loop f text q i k o) as [[v k']|e].
    - lia. - apply IH; lia. }
  assert (L : forall k msg, (k <= length text)%nat ->
    match @lex_error (pystr * nat) text k msg with
    | Ok (_, k') => (j < k' <= length text)%nat | Raise e => lex_exn text e end).
  { intros k msg Hk. pose proof (@lex_error_exn (pystr * nat) text k msg Hk).
    by destruct (lex_error text k msg). }
  destruct (text !! j) as [c|] eqn:Hc; [|by apply L].
  apply lookup_lt in Hc.
  destruct (c =? q); [lia|].
  destruct (c =? 92).
  - destruct (text !! S j) as [esc|] eqn:He; [|apply L; lia].
    apply lookup_lt in He. destruct (esc =? 117).
    + destruct (negb _ || negb _) eqn:Hh; [apply L; lia|]. apply E.
      apply orb_false_elim in Hh as [Hh _]. apply negb_false_iff, Nat.eqb_eq in Hh.
      unfold slice in Hh. rewrite length_firstn, length_skipn in Hh. lia.
    + destruct (escapes esc); apply E; lia.
  - destruct (c =? 10); [apply L; lia|]. apply E; lia.
Qed.

Lemma read_string_ok text i c :
  text !! i = Some c ->
  match read_string text i with
  | Ok (_, k) => (i < k <= length text)%nat
  | Raise e => lex_exn text e
  end.
Proof.
  intros Hc. unfold read_string. rewrite Hc. apply lookup_lt in Hc.
  pose proof (read_string_loop_ok (S (length text)) text c i (S i) []) as R.
  destruct (read_string_loop _ _ _ _ _ _) as [[v k]|e]; [|apply R; lia].
  lia.
Qed.

Lemma read_string_loop_noval fuel text q i j out :
  read_string_loop fuel text q i j out <> Raise ValueError.
Proof.
  revert j out; induction fuel as [|f IH]; intros j out; simpl; [done|].
  repeat (case_match; try done).
Qed.

Lemma read_string_noval text i : read_string text i <> Raise ValueError.
Proof. unfold read_string. case_match; [apply read_string_loop_noval|done]. Qed.

Lemma lookup_skipn_head {A} (l t : list A) j x : skipn j l = x :: t -> l !! j = Some x.
Proof. intros E. rewrite <- (Nat.add_0_r j), <- lookup_drop, E. done. Qed.

Lemma skipn_tail {A} (l t : list A) j x : skipn j l = x :: t -> skipn (S j) l = t.
Proof. intros E. by rewrite <- Nat.add_1_r, <- drop_drop, E. Qed.

Lemma read_string_loop_quote s rest fuel text i j out :
  skipn j text = concat (map escape_char s) ++ 34 :: rest -> (length s < fuel)%nat ->
  read_string_loop fuel text 34 i j out =
    Ok (rev out ++ s, (j + length (concat (map escape_char s)) + 1)%nat).
Proof.
  revert fuel j out; induction s as [|c s IH]; intros fuel j out Hs Hf;
    (destruct fuel as [|f]; [simpl in Hf; lia|]); cbn [read_string_loop].
  - rewrite (lookup_skipn_head _ _ _ _ Hs). simpl. rewrite app_nil_r. do 2 f_equal. lia.
  - assert (Hf' : (length s < f)%nat) by (simpl in Hf; lia).
    assert (two : forall e d, skipn j text = 92 :: e :: concat (map escape_char s) ++ 34 :: rest ->
      read_string_loop f text 34 i (j + 2) (d :: out) =
        Ok (rev out ++ d :: s, (j + (2 + length (concat (map escape_char s))) + 1)%nat)).
    { intros e d E. rewrite IH; [|by rewrite <- drop_drop, E|done].
      simpl. rewrite <- app_assoc. do 2 f_equal. lia. }
    simpl in Hs. unfold escape_char in Hs at 1. simpl. unfold escape_char at 1.
    repeat match goal with |- context [if c =? ?k then ?a else ?b] =>
      match a with _ :: _ => destruct (c =? k) eqn:? end end; bool_to_prop; subst; simpl in Hs.
    1-3: rewrite (lookup_skipn_head _ _ _ _ Hs), (lookup_skipn_head _ _ (S j) _ (skipn_tail _ _ _ _ Hs));
      simpl; by eapply two.
    rewrite (lookup_skipn_head _ _ _ _ Hs).
    rewrite !(proj2 (Z.eqb_neq c _)) by done.
    rewrite IH; [|by apply skipn_tail in Hs|done]. simpl. rewrite <- app_assoc. do 2 f_equal. lia.
Qed.

Lemma read_string_quote (pre s rest : pystr) :
  read_string (pre ++ quote_literal s ++ rest) (length pre) =
    Ok (s, (length pre + length (quote_literal s))%nat).
Proof.
  unfold read_string, quote_literal. cbn [app]. rewrite list_lookup_middle by done.
  set (text := pre ++ _).
  assert (E : skipn (S (length pre)) text = concat (map escape_char s) ++ 34 :: rest).
  { unfold text. rewrite <- Nat.add_1_r, <- drop_drop, drop_app_length. simpl.
    by rewrite <- app_assoc. }
  rewrite (read_string_loop_quote s rest); [|done|].
  - simpl. rewrite !length_app. simpl. do 2 f_equal. lia.
  - unfold text. rewrite !length_app. simpl. rewrite !length_app.
    assert (length s <= length (concat (map escape_char s)))%nat; [|simpl; lia].
    clear. induction s as [|c s IH]; simpl; [lia|]. rewrite length_app.
    unfold escape_char at 1. repeat case_match; simpl; lia.
Qed.

(** * One step of the tokenizer *)
Section Steps.
Context `{UnicodeDB}.

Lemma number_end_bound text i :
  (i < length text)%nat -> (i < number_end text i <= length text)%nat.
Proof.
  intros Hi. unfold number_end.
  pose proof (scan_while_bound py_isdigit text (S i)) as B.
  destruct (point_digit _ _) eqn:E; [|lia].
  unfold point_digit in E.
  destruct (text !! scan_while _ _ _) eqn:E1; [|done].
  apply lookup_lt in E1.
  pose proof (scan_while_bound py_isdigit text (S (scan_while py_isdigit text (S i)))). lia.
Qed.

Lemma py_float_exn s e : py_float s = Raise e -> e = ValueError.
Proof.
  unfold py_float, res_of_option. intros E.
  repeat (case_match; try congruence).
Qed.

Lemma next_is_lookup text i c : next_is text i c = true -> text !! S i = Some c.
Proof. unfold next_is. destruct (text !! S i); [|done]. by intros ->%Z.eqb_eq. Qed.

(** What one iteration guarantees: progress, and a well-formed token. *)
Definition step_ok (text : pystr) (i : nat) (r : res (option Token * nat)) : Prop :=
  match r with
  | Ok (ot, j) => (i < j <= length text)%nat /\
      (if ot is Some t then token_ok text t /\ tstart t = i /\ tend t = j else True)
  | Raise e => lex_exn text e
  end.

Lemma lex_error_step text i msg : (i <= length text)%nat -> step_ok text i (lex_error text i msg).
Proof.
  intros. pose proof (@lex_error_exn (option Token * nat) text i msg).
  unfold step_ok. destruct (lex_error text i msg) as [[??]|]; tauto.
Qed.

(** The token of a fixed-text operator is well formed. *)
Lemma operator_step text i ty s j line col :
  line_col text i = (line, col) -> (i < j <= length text)%nat -> slice text i j = s ->
  (ty <> EOF /\ ty <> STRING /\ ty <> IDENT /\ ty <> NUMBER) ->
  step_ok text i (Ok (Some (mkToken ty s VNone i j line col), j)).
Proof.
  intros Hlc Hj Hs (H1 & H2 & H3 & H4). unfold step_ok, token_ok; simpl.
  repeat split; try done; try lia. unfold value_ok; simpl. by destruct ty.
Qed.

Lemma single_char_map_type c ty :
  single_char_map c = Some ty -> ty <> EOF /\ ty <> STRING /\ ty <> IDENT /\ ty <> NUMBER.
Proof.
  intros E. unfold single_char_map in E.
  repeat (case_match; try discriminate); simplify_eq; done.
Qed.

Lemma lex_step_ok text i c : text !! i = Some c -> step_ok text i (lex_step text i c).
Proof.
  intros Hc. pose proof (lookup_lt _ _ _ Hc) as Hi. unfold lex_step.
  destruct ((c =? 32) || _ || _ || _); [simpl; lia|].
  destruct ((c =? 47) && next_is text i 47) eqn:Ecmt.
  { destruct (py_find _ _ _) as [j|] eqn:F; simpl; [|lia].
    apply andb_prop in Ecmt as [Ec _]. apply Z.eqb_eq in Ec as ->.
    pose proof (py_find_bound _ _ _ _ F) as [B1 B2]. simpl in B2.
    destruct (decide (i = j)) as [->|]; [|lia]. exfalso.
    unfold py_find in F. case_match; [done|]. rewrite (drop_S _ _ _ Hc) in F.
    simpl in F. destruct (find_from [10] (drop (S j) text)); simplify_eq/=. lia. }
  destruct ((c =? 47) && next_is text i 42).
  { destruct (py_find _ _ _) as [j|] eqn:F; [|apply lex_error_step; lia].
    apply py_find_bound in F as [B1 B2]. simpl in *. lia. }
  destruct (line_col text i) as [line col] eqn:Hlc.
  destruct ((c =? 34) || (c =? 39)).
  { pose proof (read_string_ok text i c Hc) as R.
    destruct (read_string text i) as [[v j]|e]; [|done]. simpl.
    split; [lia|]. unfold token_ok, value_ok; simpl. naive_solver lia. }
  assert (two : forall b d ty s, (c =? b) && next_is text i d = true -> s = [b; d] ->
    ty <> EOF /\ ty <> STRING /\ ty <> IDENT /\ ty <> NUMBER ->
    step_ok text i (Ok (Some (mkToken ty s VNone i (i + 2) line col), (i + 2)%nat))).
  { intros b d ty s [Hb%Z.eqb_eq Hd%next_is_lookup]%andb_prop -> Hty. subst b.
    apply operator_step; try done; [|by apply slice_two].
    apply lookup_lt in Hd. lia. }
  repeat (match goal with |- step_ok _ _ (if ?b then _ else _) => destruct b eqn:? end;
    [ by eapply two |
      repeat match goal with E : _ && next_is _ _ _ = false |- _ => clear E end ]).
  destruct (single_char_map c) as [ty|] eqn:Es.
  { apply operator_step; try done; try lia; [by apply slice_one|].
    by eapply single_char_map_type. }
  destruct (py_isdigit c).
  { pose proof (number_end_bound text i Hi) as B.
    destruct (py_float _) as [v|e] eqn:F; simpl; [|by apply py_float_exn in F as ->].
    split; [lia|]. unfold token_ok, value_ok; simpl. naive_solver lia. }
  destruct (py_isalpha c || (c =? 95)).
  { pose proof (scan_while_bound is_ident_char text (S i)) as B. simpl.
    split; [lia|]. unfold token_ok, value_ok; simpl. naive_solver lia. }
  apply lex_error_step; lia.
Qed.

Lemma tokenize_loop_ok fuel text i :
  (i <= length text)%nat -> (length text < fuel + i)%nat ->
  match tokenize_loop fuel text i with
  | Ok toks => stream_ok text i toks
  | Raise e => lex_exn text e
  end.
Proof.
  revert i; induction fuel as [|f IH]; intros i Hi Hf; simpl; [lia|].
  destruct (text !! i) as [c|] eqn:Hc.
  - pose proof (lex_step_ok text i c Hc) as S.
    destruct (lex_step text i c) as [[ot j]|e]; [|done]. simpl in S |- *.
    destruct S as [Hj Ht]. specialize (IH j ltac:(lia) ltac:(lia)).
    destruct (tokenize_loop f text j) as [rest|e]; [|done]. simpl.
    destruct ot as [t|].
    + destruct Ht as (Ht & Hs & He). destruct rest as [|t' rest]; [done|].
      rewrite <- He in IH. simpl in IH |- *. destruct rest; naive_solver lia.
    + destruct rest as [|t' [|]]; simpl in IH |- *; naive_solver lia.
  - destruct (line_col text (length text)) as [l cc] eqn:E. simpl. naive_solver.
Qed.
End Steps.

(** * Number literals over ASCII *)
Definition ascii_text (s : pystr) : Prop := Forall (fun c => c < 128) s.

Section Numbers.
Context `{UnicodeDB}.

Lemma take_span_len p s : Forall (fun c => p c = true) (firstn (span_len p s) s).
Proof.
  induction s as [|c s IH]; simpl; [constructor|].
  destruct (p c) eqn:E; simpl; [by constructor|constructor].
Qed.

Lemma ascii_span s : ascii_text s -> all_digits (firstn (span_len py_isdigit s) s).
Proof.
  intros Hs. pose proof (take_span_len py_isdigit s) as T.
  assert (A : ascii_text (firstn (span_len py_isdigit s) s)) by (by apply Forall_take).
  revert T A. generalize (firstn (span_len py_isdigit s) s). intros t T A.
  unfold all_digits, ascii_text in *. rewrite Forall_forall in *. intros c Hc.
  specialize (T c Hc). specialize (A c Hc). unfold py_isdigit in T.
  by destruct (Z.ltb_spec c 128); [|lia].
Qed.

Lemma slice_cons s i j c :
  s !! i = Some c -> (i < j)%nat -> slice s i j = c :: slice s (S i) j.
Proof.
  intros Hc Hj. unfold slice. replace (j - i)%nat with (S (j - S i)) by lia.
  by rewrite (drop_S s c i).
Qed.

Lemma slice_scan p s j :
  slice s j (scan_while p s j) = firstn (span_len p (skipn j s)) (skipn j s).
Proof. unfold slice, scan_while. f_equal. lia. Qed.

Lemma slice_split s i j k : (i <= j <= k)%nat -> slice s i k = slice s i j ++ slice s j k.
Proof.
  intros Hijk. unfold slice.
  replace (k - i)%nat with ((j - i) + (k - j))%nat by lia.
  rewrite <- take_take_drop. by rewrite drop_drop; replace (i + (j - i))%nat with j by lia.
Qed.

Lemma number_literal text i c :
  ascii_text text -> text !! i = Some c -> py_isdigit c = true ->
  exists ip fp, slice text i (number_end text i) = literal_text ip fp /\
    all_digits ip /\ all_digits fp /\ ip <> [].
Proof.
  intros Ha Hc Hd. pose proof (lookup_lt _ _ _ Hc) as Hi.
  set (j := scan_while py_isdigit text (S i)).
  pose proof (scan_while_bound py_isdigit text (S i) ltac:(lia)) as Bj. fold j in Bj.
  assert (S1 : slice text i j = c :: firstn (span_len py_isdigit (drop (S i) text)) (drop (S i) text))
    by (rewrite (slice_cons _ _ _ c) by (done || lia); unfold j; by rewrite slice_scan).
  assert (D1 : all_digits (slice text i j)).
  { rewrite S1. constructor; [|by apply ascii_span, Forall_drop].
    pose proof (proj1 (Forall_lookup _ _) Ha _ _ Hc) as L. simpl in L.
    unfold py_isdigit in Hd. by destruct (Z.ltb_spec c 128); [|lia]. }
  unfold number_end. fold j. destruct (point_digit text j) eqn:Ep.
  - unfold point_digit in Ep. destruct (text !! j) as [a|] eqn:Ea; [|done].
    destruct (text !! S j) as [b|] eqn:Eb; [|done].
    apply andb_prop in Ep as [->%Z.eqb_eq Ed]. pose proof (lookup_lt _ _ _ Eb).
    set (k := scan_while py_isdigit text (S j)).
    pose proof (scan_while_bound py_isdigit text (S j) ltac:(lia)) as Bk. fold k in Bk.
    exists (slice text i j), (slice text (S j) k). unfold literal_text.
    assert (D2 : all_digits (slice text (S j) k))
      by (unfold k; rewrite slice_scan; by apply ascii_span, Forall_drop).
    assert (Hk : (S j < k)%nat).
    { unfold k, scan_while. rewrite (drop_S _ _ _ Eb). cbn [span_len]. rewrite Ed. lia. }
    rewrite (slice_split _ i j k) by lia. rewrite (slice_cons _ j k 46) by (done || lia).
    rewrite (slice_cons _ (S j) k b) in * by (done || lia).
    split_and!; try done. by rewrite S1.
  - exists (slice text i j), []. unfold literal_text. rewrite app_nil_r.
    split_and!; try done; [constructor|by rewrite S1].
Qed.

(** The text of a [NUMBER] token is a decimal literal, and its value is that
    decimal, correctly rounded. *)
Definition number_ok (t : Token) : Prop :=
  ttype t = NUMBER -> exists ip fp, all_digits ip /\ all_digits fp /\ ip <> [] /\
    ttext t = literal_text ip fp /\
    tvalue t = VNum (float_of_decimal false (dec_val (ip ++ fp) 0) (0 - Z.of_nat (length fp))).

Definition ascii_result (r : res (option Token * nat)) : Prop :=
  match r with
  | Ok (Some t, _) => number_ok t
  | Ok (None, _) => True
  | Raise e => e <> ValueError
  end.

Lemma lex_step_ascii text i c :
  ascii_text text -> text !! i = Some c -> ascii_result (lex_step text i c).
Proof.
  intros Ha Hc. unfold lex_step. pose proof (read_string_noval text i) as R.
  pose proof (single_char_map_type c) as T.
  assert (L : forall k msg, ascii_result (@lex_error (option Token * nat) text k msg))
    by (intros; unfold lex_error; case_match; done).
  repeat (case_match; try apply L; try done; try (by intros [=])).
  - destruct (read_string text i) as [[v j]|e]; simpl; [by intros [=]|congruence].
  - intros E. simpl in E. naive_solver.
  - destruct (number_literal text i c Ha Hc) as (ip & fp & S & Hi & Hf & Hne); [done|].
    rewrite S, py_float_literal by done. simpl. intros _. by exists ip, fp.
Qed.

Lemma tokenize_loop_ascii fuel text i :
  ascii_text text ->
  match tokenize_loop fuel text i with
  | Ok toks => Forall number_ok toks
  | Raise e => e <> ValueError
  end.
Proof.
  intros Ha. revert i; induction fuel as [|f IH]; intros i; simpl; [done|].
  destruct (text !! i) as [c|] eqn:Hc.
  - pose proof (lex_step_ascii text i c Ha Hc) as S.
    destruct (lex_step text i c) as [[[t|] j]|e]; simpl in S |- *; [| |done];
      specialize (IH j); destruct (tokenize_loop f text j); simpl; try done. by constructor.
  - constructor; [|constructor]. by intros [=].
Qed.
End Numbers.

(** * Properties *)

(** C25: [tokenize] terminates on every text.  It either returns tokens that
    are non-empty slices of the source, in order and without overlap, each
    with its own line and column and with a value of the kind its type
    promises, closed by the single [EOF] token at the end of the text; or it
    raises a [ParseError] carrying the position of an offset of the text, or
    a [ValueError] (a digit character that [float] does not accept). *)
Theorem tokenize_correct `{UnicodeDB} (text : pystr) :
  match tokenize text with
  | Ok toks => stream_ok text 0 toks
  | Raise e => lex_exn text e
  end.
Proof. apply tokenize_loop_ok; lia. Qed.

(** on an ASCII text, [tokenize] raises nothing but [ParseError], and the
    value of each number token is the decimal it spells, correctly rounded to
    binary64. *)
Theorem tokenize_ascii `{UnicodeDB} (text : pystr) :
  ascii_text text ->
  match tokenize text with
  | Ok toks => Forall number_ok toks
  | Raise e => exists msg l c, e = ParseError msg l c
  end.
Proof.
  intros Ha. pose proof (tokenize_loop_ascii (S (length text)) text 0 Ha) as A.
  pose proof (tokenize_loop_ok (S (length text)) text 0 ltac:(lia) ltac:(lia)) as B.
  unfold tokenize. destruct (tokenize_loop _ _ _) as [|[]]; simpl in *; try done. eauto.
Qed.

Theorem tokenize_ascii_witness :
  ascii_text (u "out 10.25;") /\
  match tokenize (H:=latin1_db) (u "out 10.25;") with
  | Ok toks => Forall (number_ok) toks
  | Raise e => exists msg l c, e = ParseError msg l c
  end.
Proof.
  assert (A : ascii_text (u "out 10.25;")) by (repeat constructor).
  split; [exact A | exact (tokenize_ascii (H:=latin1_db) (u "out 10.25;") A)].
Defined.

(** reading back a quoted literal.  Whatever the string, the literal that
    escapes its backslashes, double quotes and newlines is decoded to exactly
    that string, and the cursor lands just past the closing quote. *)
Theorem read_string_roundtrip (pre s rest : pystr) :
  read_string (pre ++ quote_literal s ++ rest) (length pre) =
    Ok (s, (length pre + length (quote_literal s))%nat).
Proof. apply read_string_quote. Qed.

(** a superscript digit is a digit for [str.isdigit] but not for
    [float], so the lexer lets a [ValueError] escape instead of a
    [ParseError]. *)
Theorem tokenize_superscript_digit :
  tokenize (H:=latin1_db) (u "node(" ++ [178] ++ u ");") = Raise ValueError.
Proof. reflexivity. Qed.
