(* ===== verification/QlParser.v ===== *)
(** The Overpass QL recursive-descent parser ([src/osmpq/ql/parser.py]).

    The token list never changes after construction, so a [Parser] method is
    a function of [self.pos]: it returns a value and the new position, or
    raises. *)
From S2P Require Import Prelude PyStr PyFloat ParserMonad QlAst QlLexer.

(** [_QUERY_KEYWORDS] *)
Definition query_keywords (word : pystr) : option (list pystr) :=
  if word =s u "node" then Some [u "node"]
  else if word =s u "way" then Some [u "way"]
  else if word =s u "rel" then Some [u "relation"]
  else if word =s u "relation" then Some [u "relation"]
  else if word =s u "nwr" then Some [u "node"; u "way"; u "relation"]
  else if word =s u "nw" then Some [u "node"; u "way"]
  else if word =s u "nr" then Some [u "node"; u "relation"]
  else if word =s u "wr" then Some [u "way"; u "relation"]
  else if word =s u "area" then Some [u "area"]
  else if word =s u "derived" then Some [u "derived"]
  else None.

(** [_RECURSE_KIND_BY_TOKEN] *)
Definition recurse_kind_by_token (t : toktype) : option recurse_kind :=
  match t with
  | GT => Some RDown | GTGT => Some RDownDown | LT => Some RUp | LTLT => Some RUpUp
  | _ => None
  end.

(** [_BARE_GLUE_TYPES] *)
Definition bare_glue (t : toktype) : bool :=
  match t with IDENT | NUMBER | COLON | DOT | MINUS => true | _ => false end.

(** [Parser._TIMELINE_TYPES] *)
Definition timeline_types (w : pystr) : option pystr :=
  if w =s u "node" then Some (u "node")
  else if w =s u "way" then Some (u "way")
  else if w =s u "relation" then Some (u "relation")
  else if w =s u "rel" then Some (u "relation")
  else None.

(** The even/odd pairing [[(nums[k], nums[k+1]) for k in range(0, len, 2)]],
    on an even-length list. *)
Fixpoint pairs {A} (l : list A) : list (A * A) :=
  match l with
  | a :: b :: l' => (a, b) :: pairs l'
  | _ => []
  end.

(** [parts[-1].append(stmt)] *)
Fixpoint append_last {A} (parts : list (list A)) (x : A) : list (list A) :=
  match parts with
  | [] => []
  | [p] => [p ++ [x]]
  | p :: parts' => p :: append_last parts' x
  end.

Section Parser.
Context `{UnicodeDB}.
Variable text : pystr.
Variable tokens : list Token.

(** Fuel of every [while] loop: one more than the number of tokens. *)
Definition loop_fuel : nat := S (length tokens).

(** ** Token stream helpers *)
Definition current : P Token :=
  fun pos => match tokens !! pos with
             | Some t => Ok (t, pos)
             | None => Raise IndexError
             end.

Definition peek (offset : nat) : P Token :=
  fun pos =>
    let idx := (pos + offset)%nat in
    match (if (idx <? length tokens)%nat then tokens !! idx else last tokens) with
    | Some t => Ok (t, pos)
    | None => Raise IndexError
    end.

Definition advance : P Token :=
  fun pos => match tokens !! pos with
             | Some t => Ok (t, if (pos <? length tokens - 1)%nat then S pos else pos)
             | None => Raise IndexError
             end.

Definition check (ty : toktype) : P bool :=
  let! t := current in p_ret (bool_decide (ttype t = ty)).

Definition at_end : P bool := check EOF.

Definition error_at {A} (msg : pystr) (t : Token) : P A :=
  p_raise (parse_error_at (tline t) (tcol t) msg).
Definition error {A} (msg : pystr) : P A :=
  let! t := current in error_at msg t.

(** ["end of input" if got.type == EOF else f"'{got.text}'"] *)
Definition label (t : Token) : pystr :=
  if bool_decide (ttype t = EOF) then u "end of input" else u "'" ++ ttext t ++ u "'".

Definition expect (ty : toktype) : P Token :=
  let! c := check ty in
  if c then advance
  else let! got := current in
       error (u "expected '" ++ toktype_str ty ++ u "', got " ++ label got).

Definition expect_ident_text : P pystr :=
  let! c := check IDENT in
  if c then let! t := advance in p_ret (ttext t)
  else let! got := current in error (u "expected identifier, got " ++ label got).

(** ** Shared low-level readers *)

(** [self.advance().value] where the code uses the value as a string (resp.
    a number); the lexer only builds such tokens with such values. *)
Definition str_value (t : Token) : P pystr :=
  match tvalue t with VStr s => p_ret s | _ => p_raise TypeError end.
Definition num_value (t : Token) : P pyfloat :=
  match tvalue t with VNum x => p_ret x | _ => p_raise TypeError end.

(** The gluing loop of [parse_bare_or_string]. *)
Fixpoint glue_loop (fuel : nat) (prev_end : option nat) : P pystr :=
  match fuel with
  | O => p_raise OutOfFuel
  | S f =>
      let! tok := current in
      if bare_glue (ttype tok)
         && (match prev_end with Some e => Nat.eqb (tstart tok) e | None => true end)
      then advance ;! let! rest := glue_loop f (Some (tend tok)) in p_ret (ttext tok ++ rest)
      else p_ret []
  end.

Definition parse_bare_or_string : P pystr :=
  let! is_str := check STRING in
  if is_str then let! t := advance in str_value t
  else
    let! t := current in
    if bare_glue (ttype t) then glue_loop loop_fuel None
    else let! got := current in error (u "expected a key/value, got " ++ label got).

Definition expect_string_value : P pystr := parse_bare_or_string.

Definition parse_signed_number : P pyfloat :=
  let! minus := check MINUS in
  if minus then
    let! minus_tok := advance in
    let! isnum := check NUMBER in
    let! cur := current in
    (if negb isnum || negb (Nat.eqb (tstart cur) (tend minus_tok))
     then error (u "expected a number after '-'")
     else let! t := advance in let! v := num_value t in p_ret (fopp v))
  else
    let! isnum := check NUMBER in
    if isnum then let! t := advance in num_value t
    else let! got := current in error (u "expected a number, got " ++ label got).

(** [while self.check(COMMA): self.advance(); xs.append(item())] *)
Fixpoint comma_loop {A} (fuel : nat) (item : P A) : P (list A) :=
  match fuel with
  | O => p_raise OutOfFuel
  | S f =>
      let! c := check COMMA in
      if c then advance ;! let! x := item in let! xs := comma_loop f item in p_ret (x :: xs)
      else p_ret []
  end.

Definition parse_number_list : P (list pyfloat) :=
  let! x := parse_signed_number in
  let! xs := comma_loop loop_fuel parse_signed_number in
  p_ret (x :: xs).

(** [int(self.parse_signed_number())] *)
Definition parse_signed_int : P Z :=
  let! x := parse_signed_number in p_lift (int_of_float x).

Definition parse_int_list : P (list Z) :=
  let! xs := parse_number_list in p_lift (res_mapM int_of_float xs).

(** The loop of [capture_until_matching_rparen]; returns [end_offset]. *)
Fixpoint capture_loop (fuel : nat) (depth : Z) (end_offset : nat) : P nat :=
  match fuel with
  | O => p_raise OutOfFuel
  | S f =>
      let! e := at_end in
      if e then error (u "unbalanced parentheses")
      else
        let! tok := current in
        if bool_decide (ttype tok = RPAREN) && (depth =? 0) then p_ret end_offset
        else
          let depth' :=
            if bool_decide (ttype tok = LPAREN) then depth + 1
            else if bool_decide (ttype tok = RPAREN) then depth - 1 else depth in
          advance ;! capture_loop f depth' (tend tok)
  end.

Definition capture_until_matching_rparen : P pystr :=
  let! t := current in
  let! end_offset := capture_loop loop_fuel 0 (tstart t) in
  p_ret (py_strip (slice text (tstart t) end_offset)).

Definition parse_output_set : P pystr :=
  let! c := check ARROW in
  if c then advance ;! expect DOT ;! expect_ident_text else p_ret (u "_").

(** [if self.check(DOT): self.advance(); name = self.expect_ident_text()] *)
Definition opt_dot_name : P (option pystr) :=
  let! c := check DOT in
  if c then advance ;! let! n := expect_ident_text in p_ret (Some n) else p_ret None.

(** [if self.check(ty): self.advance(); v = item()] *)
Definition opt_after {A} (ty : toktype) (item : P A) : P (option A) :=
  let! c := check ty in
  if c then advance ;! let! x := item in p_ret (Some x) else p_ret None.

(** ** Settings *)
Definition parse_csv_field : P pystr :=
  let! c := check COLON in
  let! p1 := peek 1 in
  if c && bool_decide (ttype p1 = COLON) then
    advance ;! advance ;! let! n := expect_ident_text in p_ret (u "::" ++ n)
  else
    let! s := check STRING in
    if s then let! t := advance in str_value t else parse_bare_or_string.

(** [while not (self.check(SEMI) or self.check(RPAREN)): ...] *)
Fixpoint csv_fields_loop (fuel : nat) : P (list pystr) :=
  match fuel with
  | O => p_raise OutOfFuel
  | S f =>
      let! semi := check SEMI in
      let! rp := check RPAREN in
      if semi || rp then p_ret []
      else
        let! fld := parse_csv_field in
        let! comma := check COMMA in
        let! semi := check SEMI in
        let! rp := check RPAREN in
        (if comma then advance ;! p_ret tt
         else if semi || rp then p_ret tt
         else error (u "expected ',' in csv field list")) ;!
        let! rest := csv_fields_loop f in p_ret (fld :: rest)
  end.

Definition parse_csv_settings (s : Settings) : P Settings :=
  expect LPAREN ;!
  let! fields := csv_fields_loop loop_fuel in
  let s := set_csv_fields fields s in
  let! semi := check SEMI in
  let! s :=
    (if semi then
       advance ;!
       let! isid := check IDENT in
       let! s :=
         (if isid then
            let! w := expect_ident_text in p_ret (set_csv_header (w =s u "true") s)
          else p_ret s) in
       let! semi2 := check SEMI in
       if semi2 then
         advance ;! let! sep := expect_string_value in p_ret (set_csv_separator sep s)
       else p_ret s
     else p_ret s) in
  expect RPAREN ;! p_ret s.

Definition parse_diff_pair : P (pystr * option pystr) :=
  let! a := expect_string_value in
  let! b := opt_after COMMA expect_string_value in
  p_ret (a, b).

Definition parse_bbox4 (msg : pystr) : P (pyfloat * pyfloat * pyfloat * pyfloat) :=
  let! nums := parse_number_list in
  match nums with
  | [a; b; c; d] => p_ret (a, b, c, d)
  | _ => error msg
  end.

(** One [name:value] of the settings block, after the colon. *)
Definition parse_setting_value (name : pystr) (s : Settings) : P Settings :=
  if name =s u "out" then
    let! fmt := expect_ident_text in
    if fmt =s u "json" then p_ret (set_out_format FmtJson s)
    else if fmt =s u "xml" then p_ret (set_out_format FmtXml s)
    else if fmt =s u "csv" then parse_csv_settings (set_out_format FmtCsv s)
    else error (u "unknown output format '" ++ fmt ++ u "'")
  else if name =s u "timeout" then
    let! n := parse_signed_int in p_ret (set_timeout n s)
  else if name =s u "maxsize" then
    let! n := parse_signed_int in p_ret (set_maxsize n s)
  else if name =s u "bbox" then
    let! b := parse_bbox4
      (u "[bbox:...] requires exactly 4 numbers (south,west,north,east)") in
    p_ret (set_set_bbox b s)
  else if name =s u "date" then
    let! d := expect_string_value in p_ret (set_date d s)
  else if name =s u "diff" then let! d := parse_diff_pair in p_ret (set_diff d s)
  else if name =s u "adiff" then let! d := parse_diff_pair in p_ret (set_adiff d s)
  else error (u "unknown global setting '" ++ name ++ u "'").

(** The settings loop; the second component is [saw_any]. *)
Fixpoint settings_loop (fuel : nat) (s : Settings) (saw_any : bool) : P (Settings * bool) :=
  match fuel with
  | O => p_raise OutOfFuel
  | S f =>
      let! c := check LBRACKET in
      if c then
        advance ;!
        let! name := expect_ident_text in
        expect COLON ;!
        let! s := parse_setting_value name s in
        expect RBRACKET ;!
        settings_loop f s true
      else p_ret (s, saw_any)
  end.

Definition parse_settings : P Settings :=
  let! r := settings_loop loop_fuel default_settings false in
  let '(s, saw_any) := r in
  if saw_any then expect SEMI ;! p_ret s else p_ret s.

(** ** Filters *)
Definition parse_optional_i_flag : P bool :=
  let! c := check COMMA in
  if c then
    advance ;!
    let! flag := expect_ident_text in
    if flag =s u "i" then p_ret true
    else error (u "unknown filter flag '," ++ flag ++ u "' (only ',i' is supported)")
  else p_ret false.

Definition tag_op_of (t : toktype) : option tag_op :=
  match t with
  | EQ => Some OpEq | NEQ => Some OpNeq | NOTTILDE => Some OpNotMatch
  | TILDE => Some OpMatch | _ => None
  end.

Definition parse_tag_filter : P TagFilter :=
  expect LBRACKET ;!
  let! bang := check BANG in
  if bang then
    advance ;!
    let! key := parse_bare_or_string in
    expect RBRACKET ;! p_ret (mkTagFilter key OpNotExists None false false)
  else
  let! tilde := check TILDE in
  if tilde then
    advance ;!
    let! keypat := parse_bare_or_string in
    expect TILDE ;!
    let! valpat := parse_bare_or_string in
    let! ci := parse_optional_i_flag in
    expect RBRACKET ;! p_ret (mkTagFilter keypat OpMatch (Some valpat) true ci)
  else
    let! key := parse_bare_or_string in
    let! rb := check RBRACKET in
    if rb then advance ;! p_ret (mkTagFilter key OpExists None false false)
    else
      let! got := current in
      match tag_op_of (ttype got) with
      | Some op =>
          advance ;!
          let! value := parse_bare_or_string in
          let! ci := parse_optional_i_flag in
          expect RBRACKET ;! p_ret (mkTagFilter key op (Some value) false ci)
      | None =>
          error (u "expected an operator (=, !=, ~, !~) or ']' in tag filter, got " ++ label got)
      end.

Definition recurse_filter_word (w : pystr) : option recurse_filter_kind :=
  if w =s u "w" then Some RK_w else if w =s u "r" then Some RK_r
  else if w =s u "bn" then Some RK_bn else if w =s u "bw" then Some RK_bw
  else if w =s u "br" then Some RK_br else None.

(** The body of one keyword filter, from the keyword on (the [if]/[elif]
    chain of [parse_paren_filter]; [word] is the current identifier). *)
Definition parse_around : P filter :=
  advance ;!
  let! set_name := opt_dot_name in
  expect COLON ;!
  let! radius := parse_signed_number in
  let! nums := comma_loop loop_fuel parse_signed_number in
  match nums with
  | [] => p_ret (FAround radius set_name None)
  | _ =>
      if Nat.even (length nums) then p_ret (FAround radius set_name (Some (pairs nums)))
      else error (u "(around: ...) coordinate list must have an even number of values")
  end.

Definition parse_poly : P filter :=
  advance ;! expect COLON ;!
  let! s := expect_string_value in
  let! nums := p_lift (res_mapM py_float (py_split s)) in
  if negb (Nat.even (length nums)) || (length nums <? 6)%nat
  then error (u "(poly: ...) requires an even number of coordinates (at least 3 points)")
  else p_ret (FPoly (pairs nums)).

Definition parse_area : P filter :=
  advance ;!
  let! dot := check DOT in
  if dot then advance ;! let! n := expect_ident_text in p_ret (FArea (Some n) None)
  else
    let! i := opt_after COLON parse_signed_int in
    p_ret (FArea None i).

Definition parse_recurse_filter (k : recurse_filter_kind) : P filter :=
  advance ;!
  let! n := opt_dot_name in
  let! role := opt_after COLON expect_string_value in
  p_ret (FRecurse k (default (u "_") n) role).

Definition parse_keyword_filter (word : pystr) : P filter :=
  if word =s u "id" then
    advance ;! expect COLON ;! let! ids := parse_int_list in p_ret (FId ids)
  else match recurse_filter_word word with
  | Some k => parse_recurse_filter k
  | None =>
  if word =s u "around" then parse_around
  else if word =s u "poly" then parse_poly
  else if word =s u "area" then parse_area
  else if word =s u "pivot" then
    advance ;! let! n := opt_dot_name in p_ret (FPivot (default (u "_") n))
  else if word =s u "newer" then
    advance ;! expect COLON ;! let! t := expect_string_value in p_ret (FNewer t)
  else if word =s u "changed" then
    advance ;! expect COLON ;!
    let! since := expect_string_value in
    let! until := opt_after COMMA expect_string_value in
    p_ret (FChanged since until)
  else if word =s u "user" then
    advance ;! expect COLON ;!
    let! n := expect_string_value in
    let! ns := comma_loop loop_fuel expect_string_value in
    p_ret (FUser (n :: ns))
  else if word =s u "uid" then
    advance ;! expect COLON ;!
    let! n := parse_signed_int in
    let! ns := comma_loop loop_fuel parse_signed_int in
    p_ret (FUid (n :: ns))
  else if word =s u "if" then
    advance ;! expect COLON ;!
    let! e := capture_until_matching_rparen in p_ret (FIf e)
  else error (u "unknown filter '" ++ word ++ u "'")
  end.

Definition parse_number_filter : P filter :=
  let! nums := parse_number_list in
  match nums with
  | [a; b; c; d] => p_ret (FBbox a b c d)
  | _ => let! ids := p_lift (res_mapM int_of_float nums) in p_ret (FId ids)
  end.

Definition parse_paren_filter : P filter :=
  expect LPAREN ;!
  let! tok := current in
  let! filt :=
    (if bool_decide (ttype tok = IDENT) then parse_keyword_filter (ttext tok)
     else if bool_decide (ttype tok = NUMBER) || bool_decide (ttype tok = MINUS)
     then parse_number_filter
     else error (u "unexpected token " ++ label tok ++ u " in filter")) in
  expect RPAREN ;! p_ret filt.

(** [while self.check(LBRACKET) or self.check(LPAREN): ...] *)
Fixpoint filters_loop (fuel : nat) : P (list filter) :=
  match fuel with
  | O => p_raise OutOfFuel
  | S f =>
      let! lb := check LBRACKET in
      let! lp := check LPAREN in
      if lb then
        let! t := parse_tag_filter in let! rest := filters_loop f in p_ret (FTag t :: rest)
      else if lp then
        let! t := parse_paren_filter in let! rest := filters_loop f in p_ret (t :: rest)
      else p_ret []
  end.

(** [while self.check(DOT): self.advance(); input_sets.append(...)] *)
Fixpoint input_sets_loop (fuel : nat) : P (list pystr) :=
  match fuel with
  | O => p_raise OutOfFuel
  | S f =>
      let! dot := check DOT in
      if dot then
        advance ;! let! n := expect_ident_text in
        let! rest := input_sets_loop f in p_ret (n :: rest)
      else p_ret []
  end.

(** ** Statements without a body *)
Definition parse_query (types : list pystr) : P statement :=
  advance ;!
  let! input_sets := input_sets_loop loop_fuel in
  let! filters := filters_loop loop_fuel in
  let! output_set := parse_output_set in
  expect SEMI ;!
  p_ret (SQuery (mkQuery types filters input_sets output_set)).

Definition parse_recurse_op (kind : recurse_kind) (input_set : pystr) : P statement :=
  advance ;!
  let! output_set := parse_output_set in
  expect SEMI ;! p_ret (SRecurse kind input_set output_set).

Definition parse_is_in (input_set : pystr) : P statement :=
  let! lp := check LPAREN in
  let! coords :=
    (if lp then
       advance ;!
       let! lat := parse_signed_number in
       expect COMMA ;!
       let! lon := parse_signed_number in
       expect RPAREN ;! p_ret (Some (lat, lon))
     else p_ret None) in
  let! output_set := parse_output_set in
  expect SEMI ;! p_ret (SIsIn input_set output_set coords).

Definition parse_map_to_area (input_set : pystr) : P statement :=
  let! output_set := parse_output_set in
  expect SEMI ;! p_ret (SMapToArea input_set output_set).

Definition verbosity_word (w : pystr) : option verbosity_t :=
  if w =s u "ids" then Some VIds else if w =s u "skel" then Some VSkel
  else if w =s u "body" then Some VBody else if w =s u "tags" then Some VTags
  else if w =s u "meta" then Some VMeta else None.

(** One modifier of an [out] statement, [word] being the current identifier. *)
Definition parse_out_modifier (word : pystr) (o : Out) : P Out :=
  match verbosity_word word with
  | Some v => advance ;! p_ret (out_set_verbosity v o)
  | None =>
  if word =s u "noids" then advance ;! p_ret (out_set_noids o)
  else if word =s u "geom" then
    advance ;!
    let o := out_set_geometry GGeom o in
    let! lp := check LPAREN in
    if lp then
      advance ;!
      let! b := parse_bbox4
        (u "out geom(...) requires exactly 4 numbers (south,west,north,east)") in
      expect RPAREN ;! p_ret (out_set_geom_bbox b o)
    else p_ret o
  else if word =s u "bb" then advance ;! p_ret (out_set_geometry GBb o)
  else if word =s u "center" then advance ;! p_ret (out_set_geometry GCenter o)
  else if word =s u "qt" then advance ;! p_ret (out_set_order OrdQt o)
  else if word =s u "asc" then advance ;! p_ret (out_set_order OrdAsc o)
  else if word =s u "count" then advance ;! p_ret (out_set_count o)
  else error (u "unknown 'out' modifier '" ++ word ++ u "'")
  end.

(** [while not self.check(SEMI): ...] of [parse_out]. *)
Fixpoint out_loop (fuel : nat) (o : Out) : P Out :=
  match fuel with
  | O => p_raise OutOfFuel
  | S f =>
      let! tok := current in
      if bool_decide (ttype tok = SEMI) then p_ret o
      else if bool_decide (ttype tok = IDENT) then
        let! o := parse_out_modifier (ttext tok) o in out_loop f o
      else if bool_decide (ttype tok = NUMBER) then
        let! t := advance in
        let! x := num_value t in
        let! n := p_lift (int_of_float x) in
        out_loop f (out_set_limit n o)
      else error (u "unexpected token " ++ label tok ++ u " in 'out' statement")
  end.

Definition parse_out (input_set : pystr) : P statement :=
  let! o := out_loop loop_fuel (new_out input_set) in
  advance ;! p_ret (SOut o).

Definition parse_timeline : P statement :=
  advance ;!
  expect LPAREN ;!
  let! type_word := expect_ident_text in
  match timeline_types type_word with
  | None => error (u "unknown element type '" ++ type_word ++ u "' in timeline(...)")
  | Some element_type =>
      expect COMMA ;!
      let! element_id := parse_signed_int in
      let! version := opt_after COMMA parse_signed_int in
      expect RPAREN ;!
      let! output_set := parse_output_set in
      expect SEMI ;! p_ret (STimeline element_type element_id version output_set)
  end.

Definition parse_dot_statement : P statement :=
  advance ;!
  let! name := expect_ident_text in
  let! tok := current in
  let word := if bool_decide (ttype tok = IDENT) then Some (ttext tok) else None in
  let cur_is w := match word with Some x => x =s w | None => false end in
  if cur_is (u "is_in") then advance ;! parse_is_in name
  else if cur_is (u "map_to_area") then advance ;! parse_map_to_area name
  else if cur_is (u "out") then advance ;! parse_out name
  else match recurse_kind_by_token (ttype tok) with
  | Some kind => parse_recurse_op kind name
  | None =>
      let! output_set := parse_output_set in
      expect SEMI ;! p_ret (SItem name output_set)
  end.

(** The two scanning loops of [parse_unsupported_block]: up to the opening
    brace, then (with the brace depth) to its match.  The second returns the
    end offset of the last token consumed. *)
Fixpoint unsupported_head_loop (fuel : nat) (keyword : pystr) (depth_paren : Z) : P unit :=
  match fuel with
  | O => p_raise OutOfFuel
  | S f =>
      let! t := current in
      if bool_decide (ttype t = LBRACE) && (depth_paren =? 0) then p_ret tt
      else if bool_decide (ttype t = EOF)
      then error (u "expected '{' after '" ++ keyword ++ u "'")
      else
        let d := if bool_decide (ttype t = LPAREN) then depth_paren + 1
                 else if bool_decide (ttype t = RPAREN) then depth_paren - 1
                 else depth_paren in
        advance ;! unsupported_head_loop f keyword d
  end.

Fixpoint unsupported_body_loop (fuel : nat) (keyword : pystr) (depth_brace : Z)
    (end_offset : nat) : P nat :=
  match fuel with
  | O => p_raise OutOfFuel
  | S f =>
      if depth_brace <=? 0 then p_ret end_offset
      else
        let! t := current in
        if bool_decide (ttype t = EOF)
        then error (u "unbalanced '{' '}' in '" ++ keyword ++ u "' block")
        else
          let d := if bool_decide (ttype t = LBRACE) then depth_brace + 1
                   else if bool_decide (ttype t = RBRACE) then depth_brace - 1
                   else depth_brace in
          advance ;! unsupported_body_loop f keyword d (tend t)
  end.

Definition parse_unsupported_block (keyword : pystr) : P statement :=
  let! start := current in
  advance ;!
  unsupported_head_loop loop_fuel keyword 0 ;!
  let! brace := advance in                      (* consume '{' *)
  let! end_offset := unsupported_body_loop loop_fuel keyword 1 (tend brace) in
  let! semi := check SEMI in
  let! cur := current in
  let! end_offset := (if semi then advance ;! p_ret (tend cur) else p_ret end_offset) in
  p_ret (SUnsupported keyword (py_strip (slice text (tstart start) end_offset))).

(** The scanning loop of [parse_unsupported_simple]. *)
Fixpoint unsupported_simple_loop (fuel : nat) (keyword : pystr) (depth_paren depth_brace : Z)
  : P nat :=
  match fuel with
  | O => p_raise OutOfFuel
  | S f =>
      let! t := current in
      if bool_decide (ttype t = EOF)
      then error (u "missing ';' after '" ++ keyword ++ u "' statement")
      else if bool_decide (ttype t = SEMI) && (depth_paren =? 0) && (depth_brace =? 0)
      then advance ;! p_ret (tend t)
      else
        let '(dp, db) :=
          match ttype t with
          | LPAREN => (depth_paren + 1, depth_brace)
          | RPAREN => (depth_paren - 1, depth_brace)
          | LBRACE => (depth_paren, depth_brace + 1)
          | RBRACE => (depth_paren, depth_brace - 1)
          | _ => (depth_paren, depth_brace)
          end in
        advance ;! unsupported_simple_loop f keyword dp db
  end.

Definition parse_unsupported_simple (keyword : pystr) : P statement :=
  let! start := current in
  advance ;!
  let! end_offset := unsupported_simple_loop loop_fuel keyword 0 0 in
  p_ret (SUnsupported keyword (py_strip (slice text (tstart start) end_offset))).

(** ** Statements with a body

    These take the statement parser they recurse into. *)
Section Blocks.
Variable parse_stmt : P (option statement).

(** [while not self.check(stop): if self.at_end(): error; ...; append] *)
Fixpoint body_loop (fuel : nat) (stop : toktype) (msg : pystr) : P (list statement) :=
  match fuel with
  | O => p_raise OutOfFuel
  | S f =>
      let! c := check stop in
      if c then p_ret []
      else
        let! e := at_end in
        if e then error msg
        else
          let! stmt := parse_stmt in
          let! rest := body_loop f stop msg in
          p_ret (match stmt with Some s => s :: rest | None => rest end)
  end.

Definition braced_body (msg : pystr) : P (list statement) :=
  expect LBRACE ;!
  let! body := body_loop loop_fuel RBRACE msg in
  expect RBRACE ;! p_ret body.

(** The loop of [parse_block], accumulating [parts]. *)
Fixpoint block_loop (fuel : nat) (parts : list (list statement)) : P (list (list statement)) :=
  match fuel with
  | O => p_raise OutOfFuel
  | S f =>
      let! rp := check RPAREN in
      if rp then p_ret parts
      else
        let! minus := check MINUS in
        if minus then advance ;! block_loop f (parts ++ [[]])
        else
          let! e := at_end in
          if e then error (u "unbalanced '(' ')' in union/difference block")
          else
            let! stmt := parse_stmt in
            block_loop f (match stmt with Some s => append_last parts s | None => parts end)
  end.

(** [parts[i][0] if len(parts[i]) == 1 else ast.Union(statements=parts[i])] *)
Definition operand (part : list statement) : statement :=
  match part with
  | [s] => s
  | _ => SUnion part (u "_")
  end.

Definition parse_block : P statement :=
  expect LPAREN ;!
  let! parts := block_loop loop_fuel [[]] in
  expect RPAREN ;!
  let! output_set := parse_output_set in
  expect SEMI ;!
  match parts with
  | [p] => p_ret (SUnion p output_set)
  | [p1; p2] => p_ret (SDifference (operand p1) (operand p2) output_set)
  | _ => error (u "too many '-' separators in a difference block (expected exactly one)")
  end.

Definition parse_foreach : P statement :=
  advance ;!
  let! n := opt_dot_name in
  let! output_set := parse_output_set in
  let! body := braced_body (u "unbalanced '{' '}' in foreach block") in
  p_ret (SForeach (default (u "_") n) output_set body).

Definition parse_if_statement : P statement :=
  advance ;! expect LPAREN ;!
  let! condition := capture_until_matching_rparen in
  expect RPAREN ;!
  let! then_stmts := braced_body (u "unbalanced '{' '}' in if block") in
  let! tok := current in
  let! otherwise :=
    (if bool_decide (ttype tok = IDENT) && (ttext tok =s u "else")
     then advance ;! braced_body (u "unbalanced '{' '}' in else block")
     else p_ret []) in
  p_ret (SIf condition then_stmts otherwise).

Definition parse_retro : P statement :=
  advance ;! expect LPAREN ;!
  let! time_expr := capture_until_matching_rparen in
  expect RPAREN ;!
  let! body := braced_body (u "unbalanced '{' '}' in 'retro' block") in
  p_ret (SRetro time_expr body).

(** A statement that starts with the identifier [word]. *)
Definition parse_word_statement (word : pystr) : P statement :=
  match query_keywords word with
  | Some types => parse_query types
  | None =>
  if word =s u "out" then advance ;! parse_out (u "_")
  else if word =s u "foreach" then parse_foreach
  else if word =s u "if" then parse_if_statement
  else if word =s u "is_in" then advance ;! parse_is_in (u "_")
  else if word =s u "map_to_area" then advance ;! parse_map_to_area (u "_")
  else if word =s u "retro" then parse_retro
  else if word =s u "timeline" then parse_timeline
  else if str_in word [u "for"; u "complete"; u "compare"]
  then parse_unsupported_block word
  else if str_in word [u "make"; u "convert"; u "local"]
  then parse_unsupported_simple word
  else error (u "unknown statement '" ++ word ++ u "'")
  end.

(** One call of [parse_statement]. *)
Definition statement_body : P (option statement) :=
  let! tok := current in
  if bool_decide (ttype tok = SEMI) then advance ;! p_ret None
  else if bool_decide (ttype tok = LPAREN) then let! s := parse_block in p_ret (Some s)
  else if bool_decide (ttype tok = DOT) then let! s := parse_dot_statement in p_ret (Some s)
  else match recurse_kind_by_token (ttype tok) with
  | Some kind => let! s := parse_recurse_op kind (u "_") in p_ret (Some s)
  | None =>
      if bool_decide (ttype tok = IDENT)
      then let! s := parse_word_statement (ttext tok) in p_ret (Some s)
      else error (u "unexpected token " ++ label tok)
  end.
End Blocks.

(** [parse_statement]: the recursion through blocks, on fuel. *)
Fixpoint parse_statement (fuel : nat) : P (option statement) :=
  match fuel with
  | O => p_raise OutOfFuel
  | S f => statement_body (parse_statement f)
  end.

(** [while not self.at_end(): ...] of [parse_program]. *)
Fixpoint program_loop (fuel : nat) : P (list statement) :=
  match fuel with
  | O => p_raise OutOfFuel
  | S f =>
      let! e := at_end in
      if e then p_ret []
      else
        let! stmt := parse_statement loop_fuel in
        let! rest := program_loop f in
        p_ret (match stmt with Some s => s :: rest | None => rest end)
  end.

Definition parse_program : P Program :=
  let! s := parse_settings in
  let! stmts := program_loop loop_fuel in
  p_ret (mkProgram s stmts).
End Parser.

(** [parse(text)]: [Parser(text).parse_program()]. *)
Definition parse `{UnicodeDB} (text : pystr) : res Program :=
  let* tokens := tokenize text in
  let* r := parse_program text tokens O in
  Ok (fst r).
