(* ===== verification/QlParserFacts.v ===== *)
(** Properties of the Overpass QL parser: it terminates, its token cursor
    never leaves the token list, it raises only the documented exceptions
    (and two it should not), and the trees it builds are well formed. *)
From S2P Require Import Prelude PyStr PyFloat PyFloatFacts ParserMonad.
From S2P Require Import QlAst QlLexer QlParser.

(** The exceptions [parse] can raise. *)
Definition parse_exn (e : exn) : Prop :=
  match e with
  | ParseError _ l c => is_Some l /\ is_Some c
  | ValueError | OverflowError => True
  | _ => False
  end.

(** What the parser needs of the token list: one [EOF], at the end, and
    values that agree with the types. *)
Definition toks_wf (tokens : list Token) : Prop :=
  tokens <> [] /\
  forall pos t, tokens !! pos = Some t ->
    (ttype t = EOF <-> S pos = length tokens) /\ value_ok t.

Lemma stream_toks_wf text i toks : stream_ok text i toks -> toks_wf toks.
Proof.
  revert i; induction toks as [|t toks IH]; intros i; [done|].
  intros S. split; [done|]. intros pos t' Ht'.
  destruct toks as [|t2 toks].
  - destruct S as (He & _ & Hv & _). destruct pos; simplify_eq/=.
    split; [done|]. unfold value_ok. by rewrite He.
  - destruct S as ((Hne & _ & _ & _ & Hv) & _ & S). destruct (IH _ S) as [_ W].
    destruct pos as [|pos]; simplify_eq/=; [split; [|done]; naive_solver lia|].
    destruct (W _ _ Ht') as [E V]. simpl in E. split; [naive_solver lia|done].
Qed.

(** The calculus of [ParserMonad], for the parser's exceptions. *)
Abbreviation wp := (Wp parse_exn).
Abbreviation spec tokens := (Spec parse_exn (length tokens)).

Section Safety.
Context `{UnicodeDB}.
Variable tokens : list Token.
Hypothesis Hwf : toks_wf tokens.

Notation len := (length tokens).

(** ** Rules for the token-stream helpers *)
Lemma tok_at pos : (pos < len)%nat -> exists t, tokens !! pos = Some t.
Proof. apply lookup_lt_is_Some_2. Qed.

Lemma wp_current Q pos t : tokens !! pos = Some t -> Q t pos -> wp (current tokens) Q pos.
Proof. intros E. unfold wp, current. by rewrite E. Qed.

Lemma wp_check ty Q pos t :
  tokens !! pos = Some t -> Q (bool_decide (ttype t = ty)) pos -> wp (check tokens ty) Q pos.
Proof. intros E HQ. unfold check. apply wp_bind. by eapply wp_current. Qed.

Lemma wp_peek k Q pos :
  (forall t, ((pos + k < len)%nat -> tokens !! (pos + k)%nat = Some t) -> Q t pos) ->
  wp (peek tokens k) Q pos.
Proof.
  intros HQ. unfold wp, peek. destruct (_ <? _)%nat eqn:E; bool_to_prop.
  - destruct (tok_at _ E) as [t Et]. rewrite Et. by apply HQ.
  - destruct Hwf as [Hne _]. destruct (last tokens) eqn:L; [apply HQ; lia|].
    by apply last_None in L.
Qed.

(** [advance] off a token other than [EOF] moves one step. *)
Lemma wp_advance Q pos t :
  tokens !! pos = Some t -> ttype t <> EOF ->
  ((S pos < len)%nat -> Q t (S pos)) -> wp (advance tokens) Q pos.
Proof.
  intros E Hne HQ. unfold wp, advance. rewrite E.
  pose proof (lookup_lt_Some _ _ _ E). destruct Hwf as [_ W].
  destruct (W _ _ E) as [We _].
  destruct (pos <? len - 1)%nat eqn:L; bool_to_prop; [apply HQ; lia|].
  exfalso. apply Hne, We. lia.
Qed.

Lemma wp_error_at {A} msg t Q pos : wp (@error_at A msg t) Q pos.
Proof. done. Qed.

Lemma wp_error {A} msg Q pos : (pos < len)%nat -> wp (@error tokens A msg) Q pos.
Proof.
  intros Hp. destruct (tok_at _ Hp) as [t E]. unfold error. apply wp_bind.
  by eapply wp_current.
Qed.

End Safety.

(** ** Automation: one primitive step of the parser program under [wp]. *)
Ltac get_tok pos :=
  lazymatch goal with
  | E : _ !! pos = Some _ |- _ => idtac
  | W : toks_wf ?toks |- _ =>
      let t := fresh "t" in let E := fresh "Et" in
      destruct (tok_at toks pos) as [t E]; [lia|]
  end.

Ltac not_eof := solve [congruence | intros ?; simplify_eq; congruence | by destruct (ttype _)].

Ltac wp_prim :=
  lazymatch goal with
  | |- wp (p_bind _ _) _ _ => apply wp_bind
  | |- wp (p_ret _) _ _ => apply wp_ret
  | |- wp (current _) _ ?pos => get_tok pos; eapply wp_current; [eassumption|]
  | |- wp (at_end _) _ ?pos => unfold at_end; get_tok pos; eapply wp_check; [eassumption|]
  | |- wp (check _ _) _ ?pos => get_tok pos; eapply wp_check; [eassumption|]
  | |- wp (peek _ _) _ _ => eapply wp_peek; [eassumption|intros ? ?]
  | |- wp (error_at _ _) _ _ => apply wp_error_at
  | |- wp (error _ _) _ _ => eapply wp_error; lia
  | |- wp (advance _) _ ?pos =>
      get_tok pos; eapply wp_advance; [eassumption|eassumption|not_eof|intros ?]
  | |- wp (match ?x with _ => _ end) _ _ =>
      lazymatch x with
      | bool_decide _ => case_bool_decide
      | bool_decide _ && _ => case_bool_decide; cbn [andb]
      | bool_decide _ || _ => case_bool_decide; cbn [orb]
      | negb (bool_decide _) || _ => case_bool_decide; cbn [negb orb]
      | _ => destruct x eqn:?
      end
  end.

Ltac wp_go := repeat (cbn beta iota; first [wp_prim | wp_call]).

#[export] Hint Extern 1 (_ <> EOF) => discriminate : wp.

Ltac wp_auto := wp_start; wp_go; try wp_done.

(** * Specifications of the parser's methods *)
Section Specs.
Context `{UnicodeDB}.
Variable text : pystr.
Variable tokens : list Token.
Hypothesis Hwf : toks_wf tokens.

Notation len := (length tokens).
Notation any := (fun _ => True).

Lemma tok_value pos t : tokens !! pos = Some t -> value_ok t.
Proof. intros E. by destruct (proj2 Hwf _ _ E). Qed.

Lemma str_value_string t Q pos :
  value_ok t -> ttype t = STRING -> (forall s, Q s pos) -> wp (str_value t) Q pos.
Proof.
  unfold value_ok, str_value. intros V E HQ. rewrite E in V. destruct V as [s ->]. by apply wp_ret.
Qed.

Lemma num_value_number t Q pos :
  value_ok t -> ttype t = NUMBER -> (forall x, Q x pos) -> wp (num_value t) Q pos.
Proof.
  unfold value_ok, num_value. intros V E HQ. rewrite E in V. destruct V as [x ->]. by apply wp_ret.
Qed.

Lemma int_of_float_wp x Q pos : (forall n, Q n pos) -> wp (p_lift (int_of_float x)) Q pos.
Proof. intros HQ. apply wp_lift. destruct x; simpl; try done; apply HQ. Qed.

Lemma ints_of_floats_wp xs (Q : list Z -> nat -> Prop) pos :
  (forall ns, length ns = length xs -> Q ns pos) ->
  wp (p_lift (res_mapM int_of_float xs)) Q pos.
Proof.
  intros HQ. apply wp_lift. destruct (res_mapM int_of_float xs) as [ns|e] eqn:E.
  - apply HQ. apply res_mapM_Ok in E. symmetry. by eapply Forall2_length.
  - revert e E. clear. induction xs as [|x xs IH]; intros e; simpl; [done|].
    destruct x; simpl; try (intros [=<-]; done);
      destruct (res_mapM int_of_float xs); simpl; intros [=<-]; by eapply IH.
Qed.

Lemma expect_spec ty pos :
  (pos < len)%nat -> ty <> EOF -> spec tokens true (expect tokens ty) (fun t => ttype t = ty) pos.
Proof. intros Hp Hty. unfold expect. wp_auto. Qed.
Hint Resolve expect_spec : wp.

Lemma expect_ident_spec pos :
  (pos < len)%nat -> spec tokens true (expect_ident_text tokens) any pos.
Proof. intros Hp. unfold expect_ident_text. wp_auto. Qed.
Hint Resolve expect_ident_spec : wp.

Lemma glue_loop_spec fuel pe pos :
  (pos < len)%nat -> (len < fuel + pos)%nat -> spec tokens false (glue_loop tokens fuel pe) any pos.
Proof.
  revert pe pos; induction fuel as [|f IH]; intros pe pos Hp Hf; [lia|].
  cbn [glue_loop]. wp_auto.
Qed.

Lemma glue_loop_strict pos t :
  tokens !! pos = Some t -> bare_glue (ttype t) = true ->
  spec tokens true (glue_loop tokens (loop_fuel tokens) None) any pos.
Proof.
  intros E G. pose proof (lookup_lt_Some _ _ _ E). unfold loop_fuel.
  change (glue_loop tokens (S len) None) with
    (let! tok := current tokens in
     if bare_glue (ttype tok) && true
     then advance tokens ;! let! rest := glue_loop tokens len (Some (tend tok)) in p_ret (ttext tok ++ rest)
     else p_ret []).
  pose proof glue_loop_spec. wp_start. wp_go; [wp_done|by rewrite G in *].
Qed.

Lemma bare_or_string_spec pos :
  (pos < len)%nat -> spec tokens true (parse_bare_or_string tokens) any pos.
Proof.
  intros Hp. unfold parse_bare_or_string. wp_start. wp_go.
  - apply str_value_string; [by eapply tok_value|done|]. intros. wp_done.
  - eapply wp_spec; [by eapply glue_loop_strict|]. intros; cbn beta iota in *. wp_done.
Qed.
Hint Resolve bare_or_string_spec : wp.

Lemma string_value_spec pos :
  (pos < len)%nat -> spec tokens true (expect_string_value tokens) any pos.
Proof. apply bare_or_string_spec. Qed.
Hint Resolve string_value_spec : wp.

Lemma signed_number_spec pos :
  (pos < len)%nat -> spec tokens true (parse_signed_number tokens) any pos.
Proof.
  intros Hp. unfold parse_signed_number. wp_start. wp_go;
    (eapply num_value_number; [by eapply tok_value|done|intros; wp_go; wp_done]).
Qed.
Hint Resolve signed_number_spec : wp.

Lemma signed_int_spec pos :
  (pos < len)%nat -> spec tokens true (parse_signed_int tokens) any pos.
Proof.
  intros Hp. unfold parse_signed_int. wp_start. wp_go.
  apply int_of_float_wp. intros. wp_done.
Qed.
Hint Resolve signed_int_spec : wp.

Lemma comma_loop_spec {A} fuel (item : P A) pos :
  (forall p, (p < len)%nat -> spec tokens true item any p) ->
  (pos < len)%nat -> (len < fuel + pos)%nat ->
  spec tokens false (comma_loop tokens fuel item) any pos.
Proof.
  intros Hi. revert pos; induction fuel as [|f IH]; intros pos Hp Hf; [lia|].
  cbn [comma_loop]. wp_auto.
Qed.

Lemma comma_loop_fuel {A} (item : P A) pos :
  (forall p, (p < len)%nat -> spec tokens true item any p) ->
  (pos < len)%nat -> spec tokens false (comma_loop tokens (loop_fuel tokens) item) any pos.
Proof. intros Hi Hp. apply comma_loop_spec; [done|done|unfold loop_fuel; lia]. Qed.
Hint Resolve comma_loop_fuel : wp.

Lemma number_list_spec pos :
  (pos < len)%nat -> spec tokens true (parse_number_list tokens) (fun l => l <> []) pos.
Proof. intros Hp. unfold parse_number_list. wp_auto. Qed.
Hint Resolve number_list_spec : wp.

Lemma int_list_spec pos :
  (pos < len)%nat -> spec tokens true (parse_int_list tokens) (fun l => l <> []) pos.
Proof.
  intros Hp. unfold parse_int_list. wp_start. wp_go.
  apply ints_of_floats_wp. intros ns Hn. wp_done. by intros ->; destruct a.
Qed.
Hint Resolve int_list_spec : wp.

Lemma capture_loop_spec fuel d e pos :
  (pos < len)%nat -> (len < fuel + pos)%nat ->
  spec tokens false (capture_loop tokens fuel d e) any pos.
Proof.
  revert d e pos; induction fuel as [|f IH]; intros d e pos Hp Hf; [lia|].
  cbn [capture_loop]. wp_auto.
Qed.

Lemma capture_spec pos :
  (pos < len)%nat -> spec tokens false (capture_until_matching_rparen text tokens) any pos.
Proof.
  intros Hp. unfold capture_until_matching_rparen. pose proof capture_loop_spec.
  unfold loop_fuel. wp_auto.
Qed.
Hint Resolve capture_spec : wp.

Lemma output_set_spec pos :
  (pos < len)%nat -> spec tokens false (parse_output_set tokens) any pos.
Proof. intros Hp. unfold parse_output_set. wp_auto. Qed.
Hint Resolve output_set_spec : wp.

Lemma opt_dot_name_spec pos :
  (pos < len)%nat -> spec tokens false (opt_dot_name tokens) any pos.
Proof. intros Hp. unfold opt_dot_name. wp_auto. Qed.
Hint Resolve opt_dot_name_spec : wp.

Lemma opt_after_spec {A} ty (item : P A) pos :
  (forall p, (p < len)%nat -> spec tokens true item any p) ->
  ty <> EOF -> (pos < len)%nat -> spec tokens false (opt_after tokens ty item) any pos.
Proof.
  intros Hi Hty Hp. unfold opt_after. wp_auto.
Qed.
Hint Resolve opt_after_spec : wp.

(** ** Settings *)
Lemma csv_field_spec pos :
  (pos < len)%nat -> spec tokens true (parse_csv_field tokens) any pos.
Proof.
  intros Hp. unfold parse_csv_field. wp_start. wp_go; try wp_done.
  { match goal with E : (_ < _)%nat -> tokens !! (pos + 1)%nat = _ |- _ =>
      rewrite Nat.add_1_r in E; specialize (E ltac:(lia)) end.
    wp_go. wp_done. }
  all: apply str_value_string; [by eapply tok_value|done|]; intros; wp_done.
Qed.
Hint Resolve csv_field_spec : wp.

Lemma csv_fields_loop_spec fuel pos :
  (pos < len)%nat -> (len < fuel + pos)%nat ->
  spec tokens false (csv_fields_loop tokens fuel) any pos.
Proof.
  revert pos; induction fuel as [|f IH]; intros pos Hp Hf; [lia|].
  cbn [csv_fields_loop]. wp_auto.
Qed.

Lemma csv_settings_spec s pos :
  (pos < len)%nat -> spec tokens true (parse_csv_settings tokens s) any pos.
Proof.
  intros Hp. pose proof csv_fields_loop_spec. unfold parse_csv_settings, loop_fuel. wp_auto.
Qed.
Hint Resolve csv_settings_spec : wp.

Lemma diff_pair_spec pos :
  (pos < len)%nat -> spec tokens true (parse_diff_pair tokens) any pos.
Proof. intros Hp. unfold parse_diff_pair. wp_auto. Qed.
Hint Resolve diff_pair_spec : wp.

Lemma bbox4_spec msg pos :
  (pos < len)%nat -> spec tokens true (parse_bbox4 tokens msg) any pos.
Proof. intros Hp. unfold parse_bbox4. wp_auto. Qed.
Hint Resolve bbox4_spec : wp.

Lemma setting_value_spec name s pos :
  (pos < len)%nat -> spec tokens true (parse_setting_value tokens name s) any pos.
Proof. intros Hp. unfold parse_setting_value. wp_auto. Qed.
Hint Resolve setting_value_spec : wp.

Lemma settings_loop_spec fuel s b pos :
  (pos < len)%nat -> (len < fuel + pos)%nat ->
  spec tokens false (settings_loop tokens fuel s b) any pos.
Proof.
  revert s b pos; induction fuel as [|f IH]; intros s b pos Hp Hf; [lia|].
  cbn [settings_loop]. wp_auto.
Qed.

Lemma settings_spec pos :
  (pos < len)%nat -> spec tokens false (parse_settings tokens) any pos.
Proof.
  intros Hp. pose proof settings_loop_spec. unfold parse_settings, loop_fuel. wp_auto.
Qed.
Hint Resolve settings_spec : wp.

(** ** Filters *)
Lemma i_flag_spec pos :
  (pos < len)%nat -> spec tokens false (parse_optional_i_flag tokens) any pos.
Proof. intros Hp. unfold parse_optional_i_flag. wp_auto. Qed.
Hint Resolve i_flag_spec : wp.

Lemma tag_op_not_exists t op :
  tag_op_of t = Some op -> op <> OpExists /\ op <> OpNotExists /\ t <> EOF.
Proof. by destruct t; intros [=<-]. Qed.

Lemma tag_filter_spec pos :
  (pos < len)%nat -> spec tokens true (parse_tag_filter tokens) (fun t => filter_wf (FTag t)) pos.
Proof.
  intros Hp. unfold parse_tag_filter. wp_start. wp_go; try (wp_done; simpl; naive_solver).
  match goal with E : tag_op_of _ = Some _ |- _ => destruct (tag_op_not_exists _ _ E) as (?&?&?) end.
  wp_go. wp_done. simpl. naive_solver.
Qed.
Hint Resolve tag_filter_spec : wp.

Lemma length_pairs {A} (l : list A) : (length (pairs l) = length l / 2)%nat.
Proof.
  assert (W : forall n (l : list A), (length l <= n)%nat -> (length (pairs l) = length l / 2)%nat).
  { clear l. induction n as [|n IH]; intros [|a [|b l]] Hl; try done; simpl in Hl; [lia|].
    cbn [pairs length]. rewrite IH by lia.
    rewrite <- (Nat.div_add_l 1 2) by lia. f_equal; lia. }
  by eapply W.
Qed.

Lemma around_spec pos t :
  tokens !! pos = Some t -> ttype t = IDENT -> spec tokens true (parse_around tokens) filter_wf pos.
Proof.
  intros E Ht. pose proof (lookup_lt_Some _ _ _ E). unfold parse_around.
  wp_start. wp_go; wp_done. simpl.
  by match goal with E : Nat.even (length (_ :: ?l)) = true |- _ => destruct l end.
Qed.

Lemma py_floats_wp `{UnicodeDB} ws (Q : list pyfloat -> nat -> Prop) pos :
  (forall xs, Q xs pos) -> wp (p_lift (res_mapM py_float ws)) Q pos.
Proof.
  intros HQ. apply wp_lift. destruct (res_mapM py_float ws) as [xs|e] eqn:E; [apply HQ|].
  revert e E. clear. induction ws as [|w ws IH]; intros e; simpl; [done|].
  destruct (py_float w) eqn:F; simpl.
  - destruct (res_mapM py_float ws); simpl; intros [=<-]. by eapply IH.
  - intros [=<-]. by apply py_float_exn in F as ->.
Qed.

Lemma poly_spec pos t :
  tokens !! pos = Some t -> ttype t = IDENT -> spec tokens true (parse_poly tokens) filter_wf pos.
Proof.
  intros E Ht. pose proof (lookup_lt_Some _ _ _ E). unfold parse_poly.
  wp_start. wp_go. apply py_floats_wp. intros xs. wp_go. wp_done.
  simpl. rewrite length_pairs. bool_to_prop.
  apply Nat.div_le_lower_bound; lia.
Qed.

Lemma area_spec pos t :
  tokens !! pos = Some t -> ttype t = IDENT -> spec tokens true (parse_area tokens) filter_wf pos.
Proof.
  intros E Ht. pose proof (lookup_lt_Some _ _ _ E). unfold parse_area.
  wp_start. wp_go; wp_done; simpl; tauto.
Qed.

Lemma recurse_filter_spec k pos t :
  tokens !! pos = Some t -> ttype t = IDENT ->
  spec tokens true (parse_recurse_filter tokens k) filter_wf pos.
Proof.
  intros E Ht. pose proof (lookup_lt_Some _ _ _ E). unfold parse_recurse_filter. wp_auto.
Qed.
Hint Resolve around_spec poly_spec area_spec recurse_filter_spec : wp.

Lemma keyword_filter_spec word pos t :
  tokens !! pos = Some t -> ttype t = IDENT ->
  spec tokens true (parse_keyword_filter text tokens word) filter_wf pos.
Proof.
  intros E Ht. pose proof (lookup_lt_Some _ _ _ E). unfold parse_keyword_filter. wp_auto.
Qed.

Lemma number_filter_spec pos :
  (pos < len)%nat -> spec tokens true (parse_number_filter tokens) filter_wf pos.
Proof.
  intros Hp. unfold parse_number_filter. wp_start. wp_go; try wp_done;
    apply ints_of_floats_wp; intros ns Hn; wp_go; wp_done; simpl in *; by intros ->.
Qed.
Hint Resolve keyword_filter_spec number_filter_spec : wp.

Lemma paren_filter_spec pos :
  (pos < len)%nat -> spec tokens true (parse_paren_filter text tokens) filter_wf pos.
Proof. intros Hp. unfold parse_paren_filter. wp_auto. Qed.
Hint Resolve paren_filter_spec : wp.

Lemma filters_loop_spec fuel pos :
  (pos < len)%nat -> (len < fuel + pos)%nat ->
  spec tokens false (filters_loop text tokens fuel) (Forall filter_wf) pos.
Proof.
  revert pos; induction fuel as [|f IH]; intros pos Hp Hf; [lia|].
  cbn [filters_loop]. wp_start. wp_go; wp_done; by constructor.
Qed.

Lemma input_sets_loop_spec fuel pos :
  (pos < len)%nat -> (len < fuel + pos)%nat ->
  spec tokens false (input_sets_loop tokens fuel) any pos.
Proof.
  revert pos; induction fuel as [|f IH]; intros pos Hp Hf; [lia|].
  cbn [input_sets_loop]. wp_auto.
Qed.

(** ** Statements without a body *)
Lemma query_spec types pos t :
  tokens !! pos = Some t -> ttype t = IDENT -> types ∈ query_type_lists ->
  spec tokens true (parse_query text tokens types) stmt_wf pos.
Proof.
  intros E Ht Hty. pose proof (lookup_lt_Some _ _ _ E).
  pose proof input_sets_loop_spec. pose proof filters_loop_spec.
  unfold parse_query, loop_fuel. wp_start. wp_go. wp_done. by constructor.
Qed.

Lemma recurse_op_spec kind i pos t :
  tokens !! pos = Some t -> recurse_kind_by_token (ttype t) = Some kind ->
  spec tokens true (parse_recurse_op tokens kind i) stmt_wf pos.
Proof.
  intros E Ht. pose proof (lookup_lt_Some _ _ _ E).
  assert (ttype t <> EOF) by (by destruct (ttype t)).
  unfold parse_recurse_op. wp_start. wp_go. wp_done. constructor.
Qed.

Lemma is_in_spec i pos :
  (pos < len)%nat -> spec tokens true (parse_is_in tokens i) stmt_wf pos.
Proof. intros Hp. unfold parse_is_in. wp_start. wp_go; wp_done; constructor. Qed.

Lemma map_to_area_spec i pos :
  (pos < len)%nat -> spec tokens true (parse_map_to_area tokens i) stmt_wf pos.
Proof. intros Hp. unfold parse_map_to_area. wp_start. wp_go; wp_done; constructor. Qed.
Hint Resolve query_spec recurse_op_spec is_in_spec map_to_area_spec : wp.

Lemma out_modifier_spec word o pos t :
  tokens !! pos = Some t -> ttype t = IDENT ->
  spec tokens true (parse_out_modifier tokens word o) any pos.
Proof.
  intros E Ht. pose proof (lookup_lt_Some _ _ _ E). unfold parse_out_modifier. wp_auto.
Qed.
Hint Resolve out_modifier_spec : wp.

Lemma out_loop_spec fuel o pos Q :
  (pos < len)%nat -> (len < fuel + pos)%nat ->
  (forall o' p t, (pos <= p)%nat -> tokens !! p = Some t -> ttype t = SEMI -> Q o' p) ->
  wp (out_loop tokens fuel o) Q pos.
Proof.
  revert o pos; induction fuel as [|f IH]; intros o pos Hp Hf HQ; [lia|].
  cbn [out_loop]. wp_go.
  - by eapply HQ.
  - apply IH; [lia|lia|]. intros. eapply HQ; [lia|done|done].
  - apply num_value_number; [by eapply tok_value|done|intros x]. wp_go.
    apply int_of_float_wp. intros n. apply IH; [lia|lia|]. intros. eapply HQ; [lia|done|done].
Qed.

Lemma out_spec i pos :
  (pos < len)%nat -> spec tokens true (parse_out tokens i) stmt_wf pos.
Proof.
  intros Hp. unfold parse_out. wp_start. wp_go.
  apply out_loop_spec; [lia|unfold loop_fuel; lia|]. intros o' p t Hpp Et Es.
  pose proof (lookup_lt_Some _ _ _ Et). wp_go. wp_done. constructor.
Qed.
Hint Resolve out_spec : wp.

Lemma timeline_types_spec w ty : timeline_types w = Some ty -> ty ∈ ALL_TYPES.
Proof.
  unfold timeline_types, ALL_TYPES. repeat case_match; intros; simplify_eq; set_solver.
Qed.

Lemma timeline_spec pos t :
  tokens !! pos = Some t -> ttype t = IDENT -> spec tokens true (parse_timeline tokens) stmt_wf pos.
Proof.
  intros E Ht. pose proof (lookup_lt_Some _ _ _ E). unfold parse_timeline.
  wp_start. wp_go. wp_done. constructor. by eapply timeline_types_spec.
Qed.

Lemma dot_statement_spec pos t :
  tokens !! pos = Some t -> ttype t = DOT -> spec tokens true (parse_dot_statement tokens) stmt_wf pos.
Proof.
  intros E Ht. pose proof (lookup_lt_Some _ _ _ E). unfold parse_dot_statement.
  wp_start. wp_go; try (wp_done; constructor);
    case_bool_decide; simplify_eq/=; wp_go; wp_done.
Qed.
Hint Resolve timeline_spec dot_statement_spec : wp.

Lemma unsupported_head_spec fuel kw d pos Q :
  (pos < len)%nat -> (len < fuel + pos)%nat ->
  (forall p t, (pos <= p)%nat -> tokens !! p = Some t -> ttype t = LBRACE -> Q tt p) ->
  wp (unsupported_head_loop tokens fuel kw d) Q pos.
Proof.
  revert d pos; induction fuel as [|f IH]; intros d pos Hp Hf HQ; [lia|].
  cbn [unsupported_head_loop]. wp_go;
    try (by eapply HQ); (apply IH; [lia|lia|]; intros; eapply HQ; [lia|done|done]).
Qed.

Lemma unsupported_body_spec fuel kw d e pos :
  (pos < len)%nat -> (len < fuel + pos)%nat ->
  spec tokens false (unsupported_body_loop tokens fuel kw d e) any pos.
Proof.
  revert d e pos; induction fuel as [|f IH]; intros d e pos Hp Hf; [lia|].
  cbn [unsupported_body_loop]. wp_auto.
Qed.

Lemma unsupported_block_spec kw pos t :
  tokens !! pos = Some t -> ttype t = IDENT ->
  spec tokens true (parse_unsupported_block text tokens kw) stmt_wf pos.
Proof.
  intros E Ht. pose proof (lookup_lt_Some _ _ _ E). pose proof unsupported_body_spec.
  unfold parse_unsupported_block. wp_start. wp_go.
  apply unsupported_head_spec; [lia|unfold loop_fuel; lia|].
  intros p b Hpp Eb Hb. pose proof (lookup_lt_Some _ _ _ Eb). unfold loop_fuel.
  wp_go; wp_done; constructor.
Qed.

Lemma unsupported_simple_loop_spec fuel kw dp db pos :
  (pos < len)%nat -> (len < fuel + pos)%nat ->
  spec tokens false (unsupported_simple_loop tokens fuel kw dp db) any pos.
Proof.
  revert dp db pos; induction fuel as [|f IH]; intros dp db pos Hp Hf; [lia|].
  cbn [unsupported_simple_loop]. wp_start. wp_go; try wp_done.
Qed.

Lemma unsupported_simple_spec kw pos t :
  tokens !! pos = Some t -> ttype t = IDENT ->
  spec tokens true (parse_unsupported_simple text tokens kw) stmt_wf pos.
Proof.
  intros E Ht. pose proof (lookup_lt_Some _ _ _ E). pose proof unsupported_simple_loop_spec.
  unfold parse_unsupported_simple, loop_fuel. wp_start. wp_go; wp_done; constructor.
Qed.
Hint Resolve unsupported_block_spec unsupported_simple_spec : wp.

Lemma query_keywords_spec w types : query_keywords w = Some types -> types ∈ query_type_lists.
Proof.
  unfold query_keywords, query_type_lists.
  repeat case_match; intros; simplify_eq; set_solver.
Qed.
Hint Resolve query_keywords_spec : wp.

(** ** Statements with a body, and programs *)
Definition opt_wf (o : option statement) : Prop := if o is Some s then stmt_wf s else True.

Section BlockSpecs.
Variable ps : P (option statement).
Variable lo : nat.
Hypothesis Hps : forall p, (lo < p)%nat -> (p < len)%nat -> spec tokens true ps opt_wf p.

Lemma body_loop_spec fuel stop msg pos :
  (lo < pos)%nat -> (pos < len)%nat -> (len < fuel + pos)%nat ->
  spec tokens false (body_loop tokens ps fuel stop msg) (Forall stmt_wf) pos.
Proof.
  revert pos; induction fuel as [|f IH]; intros pos Hlo Hp Hf; [lia|].
  cbn [body_loop]. wp_start. wp_go; wp_done.
  match goal with |- Forall _ (match ?o with _ => _ end) => destruct o end; [by constructor|done].
Qed.

Lemma braced_body_spec msg pos :
  (lo < pos)%nat -> (pos < len)%nat ->
  spec tokens true (braced_body tokens ps msg) (Forall stmt_wf) pos.
Proof.
  intros Hlo Hp. pose proof body_loop_spec. unfold braced_body, loop_fuel. wp_auto.
Qed.
Hint Resolve braced_body_spec : wp.

Lemma append_last_wf parts s :
  Forall (Forall stmt_wf) parts -> stmt_wf s -> Forall (Forall stmt_wf) (append_last parts s).
Proof.
  intros Hp Hs. induction Hp as [|p parts Hpp Hp IH]; [constructor|].
  simpl. destruct parts; constructor; try done.
  apply Forall_app; split; [done|]. by constructor.
Qed.

Lemma block_loop_spec fuel parts pos :
  (lo < pos)%nat -> (pos < len)%nat -> (len < fuel + pos)%nat ->
  Forall (Forall stmt_wf) parts ->
  spec tokens false (block_loop tokens ps fuel parts) (Forall (Forall stmt_wf)) pos.
Proof.
  revert parts pos; induction fuel as [|f IH]; intros parts pos Hlo Hp Hf Hparts; [lia|].
  cbn [block_loop]. wp_start. wp_go; [wp_done| |].
  - eapply wp_spec; [apply IH; try lia|intros; cbn beta iota in *; wp_done].
    apply Forall_app; split; [done|]. repeat constructor.
  - eapply wp_spec; [apply IH; try lia|intros; cbn beta iota in *; wp_done].
    match goal with |- Forall _ (match ?o with _ => _ end) => destruct o end; [|done].
    by apply append_last_wf.
Qed.

Lemma operand_wf part : Forall stmt_wf part -> stmt_wf (operand part).
Proof.
  intros Hp. destruct part as [|s [|]]; simpl; try by constructor.
  by apply Forall_cons in Hp as [? _].
Qed.

Lemma block_spec pos :
  (lo <= pos)%nat -> (pos < len)%nat -> spec tokens true (parse_block tokens ps) stmt_wf pos.
Proof.
  intros Hlo Hp. unfold parse_block. wp_start. wp_go.
  eapply wp_spec; [apply block_loop_spec; [lia|lia|unfold loop_fuel; lia|repeat constructor]|].
  intros parts p ? ? Hparts; cbn beta iota in *. wp_go; wp_done.
  - apply Forall_cons in Hparts as [? _]. by constructor.
  - apply Forall_cons in Hparts as [? Hparts]. apply Forall_cons in Hparts as [? _].
    constructor; by apply operand_wf.
Qed.
Hint Resolve block_spec : wp.

Lemma foreach_spec pos t :
  (lo <= pos)%nat -> tokens !! pos = Some t -> ttype t = IDENT ->
  spec tokens true (parse_foreach tokens ps) stmt_wf pos.
Proof.
  intros Hlo E Ht. pose proof (lookup_lt_Some _ _ _ E). unfold parse_foreach.
  wp_start. wp_go; wp_done; by constructor.
Qed.

Lemma if_spec pos t :
  (lo <= pos)%nat -> tokens !! pos = Some t -> ttype t = IDENT ->
  spec tokens true (parse_if_statement text tokens ps) stmt_wf pos.
Proof.
  intros Hlo E Ht. pose proof (lookup_lt_Some _ _ _ E). unfold parse_if_statement.
  wp_start. wp_go; wp_done; by constructor.
Qed.

Lemma retro_spec pos t :
  (lo <= pos)%nat -> tokens !! pos = Some t -> ttype t = IDENT ->
  spec tokens true (parse_retro text tokens ps) stmt_wf pos.
Proof.
  intros Hlo E Ht. pose proof (lookup_lt_Some _ _ _ E). unfold parse_retro.
  wp_start. wp_go; wp_done; by constructor.
Qed.
Hint Resolve foreach_spec if_spec retro_spec : wp.

Lemma word_statement_spec word pos t :
  (lo <= pos)%nat -> tokens !! pos = Some t -> ttype t = IDENT ->
  spec tokens true (parse_word_statement text tokens ps word) stmt_wf pos.
Proof.
  intros Hlo E Ht. pose proof (lookup_lt_Some _ _ _ E). unfold parse_word_statement.
  wp_start. wp_go; try wp_done.
Qed.
Hint Resolve word_statement_spec : wp.

Lemma statement_body_spec pos :
  (lo <= pos)%nat -> (pos < len)%nat ->
  spec tokens true (statement_body text tokens ps) opt_wf pos.
Proof. intros Hlo Hp. unfold statement_body. wp_start. wp_go; wp_done. Qed.
End BlockSpecs.

(** The fuel of [parse_statement] only has to cover the tokens that remain. *)
Lemma statement_spec fuel pos :
  (pos < len)%nat -> (len <= fuel + pos)%nat ->
  spec tokens true (parse_statement text tokens fuel) opt_wf pos.
Proof.
  revert pos; induction fuel as [|f IH]; intros pos Hp Hf; [lia|].
  cbn [parse_statement]. apply (statement_body_spec _ pos); [|lia|done].
  intros p Hlo Hpl. apply IH; lia.
Qed.

Lemma program_loop_spec fuel pos :
  (pos < len)%nat -> (len < fuel + pos)%nat ->
  spec tokens false (program_loop text tokens fuel) (Forall stmt_wf) pos.
Proof.
  revert pos; induction fuel as [|f IH]; intros pos Hp Hf; [lia|].
  cbn [program_loop]. wp_start. wp_go; [wp_done|].
  eapply wp_spec; [apply statement_spec; [lia|unfold loop_fuel; lia]|].
  intros; cbn beta iota in *. wp_go. wp_done.
  match goal with |- Forall _ (match ?o with _ => _ end) => destruct o end; [by constructor|done].
Qed.

Lemma program_spec pos :
  (pos < len)%nat ->
  spec tokens false (parse_program text tokens) (fun p => Forall stmt_wf (statements p)) pos.
Proof.
  intros Hp. pose proof program_loop_spec. unfold parse_program, loop_fuel. wp_auto.
Qed.
End Specs.

(** * Exactness of integers *)
#[local] Arguments advance : simpl never.

Lemma literal_text_digits ip fp :
  all_digits (literal_text ip fp) -> fp = [] /\ literal_text ip fp = ip.
Proof.
  unfold literal_text. destruct fp as [|f fp]; [by rewrite app_nil_r|].
  intros (_ & Hd)%Forall_app. apply Forall_cons in Hd as [Hd _]. done.
Qed.

Lemma float_of_decimal_int n : 0 <= n -> float_of_decimal false n (0 - 0) = float_of_Z n.
Proof.
  intros Hn. unfold float_of_decimal, float_of_Z. simpl (0 <=? _).
  destruct (n =? 0) eqn:E0; [by apply Z.eqb_eq in E0 as ->|].
  f_equal. simpl. lia.
Qed.

Lemma advance_next tokens : toks_wf tokens -> forall pos t,
  tokens !! pos = Some t -> ttype t <> EOF -> advance tokens pos = Ok (t, S pos).
Proof.
  intros [_ W] pos t E Hne. unfold advance. rewrite E.
  pose proof (lookup_lt_Some _ _ _ E). destruct (W _ _ E) as [We _].
  destruct (pos <? length tokens - 1)%nat eqn:L; bool_to_prop; [done|].
  exfalso. apply Hne, We. lia.
Qed.

(** * Properties *)

(** C1: [parse] terminates on every text, never indexes outside the token
    list and never uses a token's value at the wrong type: it returns a
    program all of whose statements are well formed (query type lists from
    the keyword table, polygons of at least three points, non-empty id lists,
    ...), or raises a [ParseError] with a line and a column, or one of
    [ValueError] and [OverflowError]. *)
Theorem parse_total_wf `{UnicodeDB} (text : pystr) :
  match parse text with
  | Ok p => Forall stmt_wf (statements p)
  | Raise e => parse_exn e
  end.
Proof.
  unfold parse. pose proof (tokenize_loop_ok (S (length text)) text 0 ltac:(lia) ltac:(lia)) as T.
  fold (tokenize text) in T. destruct (tokenize text) as [toks|e]; simpl.
  - pose proof (stream_toks_wf _ _ _ T) as W.
    assert (Hp : (0 < length toks)%nat) by (destruct W as [W _]; destruct toks; [done|simpl; lia]).
    pose proof (program_spec text toks W 0 Hp (fun p _ => Forall stmt_wf (statements p))) as S.
    unfold wp in S. destruct (parse_program text toks 0%nat) as [[p pos']|e]; simpl; apply S; naive_solver.
  - destruct e; simpl in *; naive_solver.
Qed.

(** reading an integer (an id, a uid, a limit, a version) written in
    decimal gives exactly that integer, for every value below 2^53: the route
    through the float value of the number token loses nothing. *)
Theorem parse_signed_int_exact `{UnicodeDB} (tokens : list Token) (pos : nat) (t : Token) (n : Z) :
  toks_wf tokens -> tokens !! pos = Some t -> ttype t = NUMBER -> number_ok t ->
  ttext t = str_of_nonneg n -> 0 <= n < 2 ^ 53 ->
  parse_signed_int tokens pos = Ok (n, S pos).
Proof.
  intros Hwf E Ht Hok Htext Hn. destruct (Hok Ht) as (ip & fp & Hip & Hfp & Hne & Hl & Hv).
  destruct (str_of_nonneg_spec n) as (_ & Hd & Hval); [lia|].
  rewrite Htext in Hl. destruct (literal_text_digits ip fp) as [-> Hip']; [by rewrite <- Hl|].
  rewrite !app_nil_r in Hv. rewrite Hip' in Hl. subst ip. rewrite Hval in Hv.
  rewrite float_of_decimal_int in Hv by lia.
  unfold parse_signed_int, parse_signed_number, p_bind, check, current, p_bind, p_ret.
  rewrite E. simpl. rewrite Ht. simpl. rewrite E. simpl. rewrite Ht. simpl.
  rewrite (advance_next _ Hwf _ _ E) by congruence.
  unfold num_value. rewrite Hv. simpl. unfold p_lift. by rewrite int_of_float_of_Z.
Qed.

(** Tokens of [node(42);], for the witness. *)
Definition sample_tokens : list Token :=
  match tokenize (H:=latin1_db) (u "node(42);") with Ok l => l | Raise _ => [] end.

Theorem parse_signed_int_exact_witness :
  exists t, sample_tokens !! 2%nat = Some t /\ 0 <= 42 < 2 ^ 53 /\
    parse_signed_int sample_tokens 2%nat = Ok (42, 3%nat).
Proof.
  eexists. split; [reflexivity|]. split; [lia|].
  eapply (parse_signed_int_exact (H:=latin1_db)).
  - exact (stream_toks_wf (u "node(42);") 0%nat sample_tokens (tokenize_loop_ok (H:=latin1_db) 10%nat
      (u "node(42);") 0%nat ltac:(vm_compute; lia) ltac:(vm_compute; lia))).
  - reflexivity.
  - reflexivity.
  - intros _. exists (u "42"), []. repeat split; try (repeat constructor); discriminate.
  - reflexivity.
  - lia.
Defined.

(** a polygon string that is not numeric makes [parse] raise a
    [ValueError], which is not the [ParseError] its contract names. *)
Theorem parse_poly_value_error :
  parse (H:=latin1_db) (u "node(poly:'a b c d e f');") = Raise ValueError.
Proof. reflexivity. Qed.
