(* ===== verification/Evaluator.v ===== *)
(** The evaluator sub-language of [(if:)], [if] and [retro]
    ([src/osmpq/ql/evaluator.py]): tokenizer, abstract syntax and
    recursive-descent parser. *)
From S2P Require Import Prelude PyStr PyFloat ParserMonad.
From S2P Require Import QlLexer.

(** * Tokens *)
Inductive etype :=
  | NUMBER | STRING | IDENT | LPAREN | RPAREN | LBRACKET | RBRACKET | COMMA | DOT
  | PLUS | MINUS | STAR | SLASH | BANG | LT | LE | GT | GE | EQEQ | NEQ | ANDAND
  | OROR | QUESTION | COLON | EOF.

#[export] Instance etype_eq_dec : EqDecision etype.
Proof. solve_decision. Defined.

Definition etype_str (t : etype) : pystr :=
  match t with
  | NUMBER => u "NUMBER" | STRING => u "STRING" | IDENT => u "IDENT"
  | LPAREN => u "(" | RPAREN => u ")" | LBRACKET => u "[" | RBRACKET => u "]"
  | COMMA => u "," | DOT => u "." | PLUS => u "+" | MINUS => u "-" | STAR => u "*"
  | SLASH => u "/" | BANG => u "!" | LT => u "<" | LE => u "<=" | GT => u ">"
  | GE => u ">=" | EQEQ => u "==" | NEQ => u "!=" | ANDAND => u "&&" | OROR => u "||"
  | QUESTION => u "?" | COLON => u ":" | EOF => u "EOF"
  end.

Record etoken := mkEtoken {
  etype_of : etype;
  etext : pystr;
  evalue : QlLexer.tokval;
  epos : nat
}.

(** [_SINGLE_CHAR] *)
Definition single_char (c : Z) : option etype :=
  match c with
  | 40 => Some LPAREN | 41 => Some RPAREN | 91 => Some LBRACKET | 93 => Some RBRACKET
  | 44 => Some COMMA | 46 => Some DOT | 43 => Some PLUS | 42 => Some STAR | 47 => Some SLASH
  | _ => None
  end.

(** The evaluator's [ParseError]s carry no position. *)
Definition eval_error (msg : pystr) : exn := ParseError (u "evaluator: " ++ msg) None None.

(** [_read_string]: an escape is dropped in favour of the character it
    names, unknown ones included; a lone final backslash is kept. *)
Fixpoint read_string_loop (fuel : nat) (text : pystr) (quote : Z) (j : nat) (out : pystr)
  : res (pystr * nat) :=
  match fuel with
  | O => Raise OutOfFuel
  | S f =>
      match text !! j with
      | None => Raise (eval_error (u "unterminated string literal"))
      | Some c =>
          if c =? quote then Ok (rev out, S j)
          else
            match (if c =? 92 then text !! S j else None) with
            | Some esc =>
                read_string_loop f text quote (j + 2) (default esc (QlLexer.escapes esc) :: out)
            | None => read_string_loop f text quote (S j) (c :: out)
            end
      end
  end.

Definition read_string (text : pystr) (i : nat) : res (pystr * nat) :=
  match text !! i with
  | Some quote => read_string_loop (S (length text)) text quote (S i) []
  | None => Raise IndexError
  end.
Arguments read_string : simpl never.

Section Tokenize.
Context `{UnicodeDB}.

(** The two-character operators, in the order they are tried. *)
Definition double_op (text : pystr) (i : nat) (c : Z) : option etype :=
  if (c =? 38) && QlLexer.next_is text i 38 then Some ANDAND
  else if (c =? 124) && QlLexer.next_is text i 124 then Some OROR
  else if (c =? 60) && QlLexer.next_is text i 61 then Some LE
  else if (c =? 62) && QlLexer.next_is text i 61 then Some GE
  else if (c =? 61) && QlLexer.next_is text i 61 then Some EQEQ
  else if (c =? 33) && QlLexer.next_is text i 61 then Some NEQ
  else None.

(** The one-character operators: the explicit tests, then [_SINGLE_CHAR]. *)
Definition single_op (c : Z) : option etype :=
  match c with
  | 60 => Some LT | 62 => Some GT | 33 => Some BANG | 45 => Some MINUS
  | 63 => Some QUESTION | 58 => Some COLON
  | _ => single_char c
  end.

(** [c.isdigit() or (c == "." and text[i + 1].isdigit())]; the second
    disjunct is never reached, ["."] being in [_SINGLE_CHAR]. *)
Definition starts_number (text : pystr) (i : nat) (c : Z) : bool :=
  py_isdigit c
  || ((c =? 46) && match text !! S i with Some d => py_isdigit d | None => false end).

(** The digits are scanned from [i] itself. *)
Definition number_end (text : pystr) (i : nat) : nat :=
  let j := scan_while py_isdigit text i in
  if QlLexer.point_digit text j then scan_while py_isdigit text (S j) else j.

(** One iteration of the loop of [tokenize]. *)
Definition lex_step (text : pystr) (i : nat) (c : Z) : res (option etoken * nat) :=
  let tok ty s v j := Ok (Some (mkEtoken ty s v i), j) in
  if (c =? 32) || (c =? 9) || (c =? 13) || (c =? 10) then Ok (None, S i)
  else if (c =? 34) || (c =? 39) then
    let* r := read_string text i in
    let '(value, j) := r in
    tok STRING (slice text i j) (QlLexer.VStr value) j
  else match double_op text i c with
  | Some ty => tok ty (etype_str ty) QlLexer.VNone (i + 2)%nat
  | None =>
      match single_op c with
      | Some ty => tok ty [c] QlLexer.VNone (S i)
      | None =>
          if starts_number text i c then
            let j := number_end text i in
            let numtext := slice text i j in
            let* v := py_float numtext in
            tok NUMBER numtext (QlLexer.VNum v) j
          else if py_isalpha c || (c =? 95) then
            let j := scan_while QlLexer.is_ident_char text (S i) in
            let idtext := slice text i j in
            tok IDENT idtext (QlLexer.VStr idtext) j
          else Raise (eval_error (u "unexpected character " ++ py_repr [c] ++ u " in expression"))
      end
  end.

Fixpoint tokenize_loop (fuel : nat) (text : pystr) (i : nat) : res (list etoken) :=
  match fuel with
  | O => Raise OutOfFuel
  | S f =>
      match text !! i with
      | None => Ok [mkEtoken EOF [] QlLexer.VNone (length text)]
      | Some c =>
          let* r := lex_step text i c in
          let '(ot, j) := r in
          let* rest := tokenize_loop f text j in
          Ok (if ot is Some t then t :: rest else rest)
      end
  end.

Definition tokenize (text : pystr) : res (list etoken) :=
  tokenize_loop (S (length text)) text 0.
End Tokenize.

(** * Abstract syntax *)
Inductive unop := UNot | UNeg.
Inductive binop :=
  | BOr | BAnd | BEq | BNe | BLt | BLe | BGt | BGe | BAdd | BSub | BMul | BDiv.

Inductive expr :=
  | Num (value : pyfloat)
  | Str (value : pystr)
  | TagAccess (key : pystr)
  | ElementCall (name : pystr) (args : list expr)
  | SetCount (type_name : pystr)
  | NamedSetCount (set_name type_name : pystr)
  | Aggregate (func : pystr) (e : expr)
  | Unary (op : unop) (e : expr)
  | BinOp (op : binop) (left right : expr)
  | Ternary (cond then_ otherwise : expr).

(** [_TYPE_KEYWORDS], [_AGG_FUNCS], [_ELEMENT_FUNC_ARITY] *)
Definition TYPE_KEYWORDS : list pystr :=
  [u "nodes"; u "ways"; u "relations"; u "areas"; u "nwr"].
Definition AGG_FUNCS : list pystr := [u "u"; u "min"; u "max"; u "sum"; u "set"].
Definition element_func_arity (name : pystr) : option nat :=
  if str_in name
       [u "id"; u "type"; u "version"; u "timestamp"; u "changeset"; u "uid"; u "user";
        u "count_tags"; u "count_members"; u "count_distinct_members"; u "is_closed";
        u "length"; u "lat"; u "lon"]
  then Some 0%nat
  else if str_in name [u "is_tag"; u "count_by_role"; u "number"; u "is_number"] then Some 1%nat
  else None.

(** Operator tables of the binary levels. *)
Definition or_ops (t : etype) : option binop := match t with OROR => Some BOr | _ => None end.
Definition and_ops (t : etype) : option binop := match t with ANDAND => Some BAnd | _ => None end.
Definition equality_ops (t : etype) : option binop :=
  match t with EQEQ => Some BEq | NEQ => Some BNe | _ => None end.
Definition relational_ops (t : etype) : option binop :=
  match t with LT => Some BLt | LE => Some BLe | GT => Some BGt | GE => Some BGe | _ => None end.
Definition additive_ops (t : etype) : option binop :=
  match t with PLUS => Some BAdd | MINUS => Some BSub | _ => None end.
Definition multiplicative_ops (t : etype) : option binop :=
  match t with STAR => Some BMul | SLASH => Some BDiv | _ => None end.

(** * Parser *)
Section Parser.
Variable tokens : list etoken.

Definition loop_fuel : nat := S (length tokens).

Definition current : P etoken :=
  fun pos => match tokens !! pos with Some t => Ok (t, pos) | None => Raise IndexError end.
Definition check (ty : etype) : P bool :=
  let! t := current in p_ret (bool_decide (etype_of t = ty)).
Definition advance : P etoken :=
  fun pos => match tokens !! pos with
             | Some t => Ok (t, if (pos <? length tokens - 1)%nat then S pos else pos)
             | None => Raise IndexError
             end.

Definition error {A} (msg : pystr) : P A :=
  let! tok := current in
  let label := if bool_decide (etype_of tok = EOF) then u "end of expression"
               else u "'" ++ etext tok ++ u "'" in
  p_raise (eval_error (msg ++ u ", got " ++ label)).

Definition expect (ty : etype) : P etoken :=
  let! c := check ty in
  if c then advance else error (u "expected '" ++ etype_str ty ++ u "'").

Definition expect_ident : P pystr :=
  let! c := check IDENT in
  if c then let! t := advance in p_ret (etext t) else error (u "expected an identifier").

Definition expect_type_keyword : P pystr :=
  let! t := current in
  if bool_decide (etype_of t = IDENT) && str_in (etext t) TYPE_KEYWORDS
  then let! t := advance in p_ret (etext t)
  else error (u "expected one of nodes/ways/relations/areas/nwr").

Definition str_value (t : etoken) : P pystr :=
  match evalue t with QlLexer.VStr s => p_ret s | _ => p_raise TypeError end.
Definition num_value (t : etoken) : P pyfloat :=
  match evalue t with QlLexer.VNum x => p_ret x | _ => p_raise TypeError end.

(** [while self.current().type in ops: ...; left = BinOp(op, left, next())] *)
Fixpoint binary_loop (fuel : nat) (ops : etype -> option binop) (next : P expr) (left : expr)
  : P expr :=
  match fuel with
  | O => p_raise OutOfFuel
  | S f =>
      let! t := current in
      match ops (etype_of t) with
      | Some op =>
          advance ;!
          let! rhs := next in
          binary_loop f ops next (BinOp op left rhs)
      | None => p_ret left
      end
  end.

Definition binary_level (ops : etype -> option binop) (next : P expr) : P expr :=
  let! lhs := next in binary_loop loop_fuel ops next lhs.

(** [while self.check(COMMA): self.advance(); args.append(self.parse_expr())] *)
Fixpoint args_loop (fuel : nat) (parse_expr : P expr) : P (list expr) :=
  match fuel with
  | O => p_raise OutOfFuel
  | S f =>
      let! c := check COMMA in
      if c then
        advance ;! let! e := parse_expr in let! es := args_loop f parse_expr in p_ret (e :: es)
      else p_ret []
  end.

(** The methods below [parse_expr], which they take as an argument. *)
Section Levels.
Variable parse_expr : P expr.

Definition parse_call_args : P (list expr) :=
  let! rp := check RPAREN in
  if rp then p_ret []
  else let! e := parse_expr in let! es := args_loop loop_fuel parse_expr in p_ret (e :: es).

Definition parse_named_set_count : P expr :=
  advance ;!
  let! set_name := expect_ident in
  expect DOT ;!
  let! method := expect_ident in
  if negb (method =s u "count") then
    error (u "unknown set method '." ++ method ++ u "(...)' (only '.count(...)' is supported)")
  else
    expect LPAREN ;!
    let! type_name := expect_type_keyword in
    expect RPAREN ;! p_ret (NamedSetCount set_name type_name).

(** The identifier case of [parse_primary]. *)
Definition parse_ident (name : pystr) : P expr :=
  if name =s u "t" then
    advance ;! expect LBRACKET ;!
    let! c := check STRING in
    if negb c then error (u "expected a quoted tag key in t[...]")
    else
      let! t := advance in
      let! key := str_value t in
      expect RBRACKET ;! p_ret (TagAccess key)
  else if name =s u "count" then
    advance ;! expect LPAREN ;!
    let! type_name := expect_type_keyword in
    expect RPAREN ;! p_ret (SetCount type_name)
  else if str_in name AGG_FUNCS then
    advance ;! expect LPAREN ;!
    let! inner := parse_expr in
    expect RPAREN ;! p_ret (Aggregate name inner)
  else match element_func_arity name with
  | Some expected =>
      advance ;! expect LPAREN ;!
      let! args := parse_call_args in
      expect RPAREN ;!
      if Nat.eqb (length args) expected then p_ret (ElementCall name args)
      else error (u "'" ++ name ++ u "()' takes " ++ str_of_Z (Z.of_nat expected)
                  ++ u " argument(s), got " ++ str_of_Z (Z.of_nat (length args)))
  | None => error (u "unknown function '" ++ name ++ u "'")
  end.

Definition parse_primary : P expr :=
  let! tok := current in
  match etype_of tok with
  | NUMBER => advance ;! let! v := num_value tok in p_ret (Num v)
  | STRING => advance ;! let! s := str_value tok in p_ret (Str s)
  | LPAREN => advance ;! let! e := parse_expr in expect RPAREN ;! p_ret e
  | DOT => parse_named_set_count
  | IDENT => parse_ident (etext tok)
  | _ => error (u "expected an expression")
  end.

Fixpoint parse_unary (fuel : nat) : P expr :=
  match fuel with
  | O => p_raise OutOfFuel
  | S f =>
      let! t := current in
      if bool_decide (etype_of t = BANG) then
        advance ;! let! e := parse_unary f in p_ret (Unary UNot e)
      else if bool_decide (etype_of t = MINUS) then
        advance ;! let! e := parse_unary f in p_ret (Unary UNeg e)
      else parse_primary
  end.

Definition parse_multiplicative : P expr := binary_level multiplicative_ops (parse_unary loop_fuel).
Definition parse_additive : P expr := binary_level additive_ops parse_multiplicative.
Definition parse_relational : P expr := binary_level relational_ops parse_additive.
Definition parse_equality : P expr := binary_level equality_ops parse_relational.
Definition parse_and : P expr := binary_level and_ops parse_equality.
Definition parse_or : P expr := binary_level or_ops parse_and.

Fixpoint parse_ternary (fuel : nat) : P expr :=
  match fuel with
  | O => p_raise OutOfFuel
  | S f =>
      let! cond := parse_or in
      let! q := check QUESTION in
      if q then
        advance ;!
        let! then_ := parse_expr in
        expect COLON ;!
        let! otherwise := parse_ternary f in
        p_ret (Ternary cond then_ otherwise)
      else p_ret cond
  end.
End Levels.

(** [parse_expr], on fuel for the recursion through parentheses. *)
Fixpoint parse_expr (fuel : nat) : P expr :=
  match fuel with
  | O => p_raise OutOfFuel
  | S f => parse_ternary (parse_expr f) loop_fuel
  end.

Definition parse_program : P expr :=
  let! e := parse_expr loop_fuel in
  let! eof := check EOF in
  if eof then p_ret e else error (u "unexpected trailing input in expression").
End Parser.

(** [parse(text)] *)
Definition parse `{UnicodeDB} (text : pystr) : res expr :=
  let* tokens := tokenize text in
  let* r := parse_program tokens O in
  Ok (fst r).
