(* ===== verification/EvaluatorFacts.v ===== *)
(** Safety of the evaluator sub-language: its tokenizer and parser terminate
    on every text, stay inside the token list and build only well-formed
    expressions.

    A printer for evaluator expressions, with the parentheses the grammar's
    precedence levels require and no others, and the proof that [parse] reads
    back what it prints. *)
From S2P Require Import Prelude PyStr PyFloat PyFloatFacts ParserMonad QlLexer Evaluator.

(** The exceptions [parse] can raise: its own [ParseError], without a
    position, and the [ValueError] of [float] on a digit it does not read. *)
Definition eval_exn (e : exn) : Prop :=
  match e with
  | ParseError _ None None => True
  | ValueError => True
  | _ => False
  end.

(** A token's value has the kind its type promises. *)
Definition evalue_ok (t : etoken) : Prop :=
  match etype_of t with
  | NUMBER => exists x, evalue t = QlLexer.VNum x
  | STRING => exists s, evalue t = QlLexer.VStr s
  | _ => True
  end.

(** One [EOF], at the end, and values that agree with the types. *)
Definition etoks_wf (tokens : list etoken) : Prop :=
  tokens <> [] /\
  forall pos t, tokens !! pos = Some t ->
    (etype_of t = EOF <-> S pos = length tokens) /\ evalue_ok t.

(** Well-formed expressions: the names are those of the tables, and every
    element function has the number of arguments its table entry says. *)
Inductive expr_wf : expr -> Prop :=
  | wf_Num v : expr_wf (Num v)
  | wf_Str s : expr_wf (Str s)
  | wf_TagAccess k : expr_wf (TagAccess k)
  | wf_ElementCall f args :
      element_func_arity f = Some (length args) -> Forall expr_wf args ->
      expr_wf (ElementCall f args)
  | wf_SetCount ty : ty ∈ TYPE_KEYWORDS -> expr_wf (SetCount ty)
  | wf_NamedSetCount s ty : ty ∈ TYPE_KEYWORDS -> expr_wf (NamedSetCount s ty)
  | wf_Aggregate f e : f ∈ AGG_FUNCS -> expr_wf e -> expr_wf (Aggregate f e)
  | wf_Unary op e : expr_wf e -> expr_wf (Unary op e)
  | wf_BinOp op l r : expr_wf l -> expr_wf r -> expr_wf (BinOp op l r)
  | wf_Ternary c t o : expr_wf c -> expr_wf t -> expr_wf o -> expr_wf (Ternary c t o).
#[export] Hint Constructors expr_wf : wp.

(** * The tokenizer *)
Section Lexing.
Context `{UnicodeDB}.

Lemma eread_string_loop_ok fuel text q j out :
  (j <= length text)%nat -> (length text < fuel + j)%nat ->
  match Evaluator.read_string_loop fuel text q j out with
  | Ok (_, k) => (j < k <= length text)%nat
  | Raise e => eval_exn e
  end.
Proof.
  revert j out; induction fuel as [|f IH]; intros j out Hj Hf; simpl; [lia|].
  destruct (text !! j) as [c|] eqn:Hc; [|done].
  apply lookup_lt in Hc. destruct (c =? q); [lia|].
  assert (E : forall k o, (j < k <= length text)%nat ->
    match Evaluator.read_string_loop f text q k o with
    | Ok (_, k') => (j < k' <= length text)%nat | Raise e => eval_exn e end).
  { intros k o Hk. specialize (IH k o). destruct (Evaluator.read_string_loop f text q k o) as [[v k']|e].
    - lia. - apply IH; lia. }
  destruct (c =? 92); [|apply E; lia].
  destruct (text !! S j) as [esc|] eqn:He; [|apply E; lia].
  apply lookup_lt in He. apply E. lia.
Qed.

Lemma eread_string_ok text i c :
  text !! i = Some c ->
  match Evaluator.read_string text i with
  | Ok (_, k) => (i < k <= length text)%nat
  | Raise e => eval_exn e
  end.
Proof.
  intros Hc. unfold Evaluator.read_string. rewrite Hc. apply lookup_lt in Hc.
  pose proof (eread_string_loop_ok (S (length text)) text c (S i) []) as R.
  destruct (Evaluator.read_string_loop _ _ _ _ _) as [[v k]|e]; [|apply R; lia]. lia.
Qed.

Lemma double_op_bound text i c ty : double_op text i c = Some ty -> (i + 2 <= length text)%nat.
Proof.
  unfold double_op. intros E.
  repeat match goal with H : context [if ?b && next_is ?t ?k ?d then _ else _] |- _ =>
    destruct (b && next_is t k d) eqn:Hn;
    [apply andb_prop in Hn as [_ Hn%next_is_lookup]; apply lookup_lt in Hn; lia|clear Hn] end.
  done.
Qed.

Lemma double_op_type text i c ty :
  double_op text i c = Some ty -> ty <> NUMBER /\ ty <> STRING /\ ty <> EOF.
Proof. unfold double_op. intros. repeat case_match; naive_solver. Qed.
Lemma single_op_type c ty :
  single_op c = Some ty -> ty <> NUMBER /\ ty <> STRING /\ ty <> EOF.
Proof. unfold single_op, single_char. intros. repeat case_match; naive_solver. Qed.

(** A digit starts the number: the scan of [number_end] makes progress. *)
Lemma enumber_end_bound text i c :
  text !! i = Some c -> py_isdigit c = true ->
  (i < Evaluator.number_end text i <= length text)%nat.
Proof.
  intros Hc Hd. pose proof (lookup_lt _ _ _ Hc) as Hi. unfold Evaluator.number_end.
  pose proof (scan_while_bound py_isdigit text i ltac:(lia)) as B.
  assert (S1 : (i < scan_while py_isdigit text i)%nat).
  { unfold scan_while. rewrite (drop_S _ _ _ Hc). cbn [span_len]. rewrite Hd. lia. }
  destruct (point_digit _ _) eqn:E; [|lia].
  unfold point_digit in E. destruct (text !! scan_while _ _ _) eqn:E1; [|done].
  apply lookup_lt in E1.
  pose proof (scan_while_bound py_isdigit text (S (scan_while py_isdigit text i))). lia.
Qed.

Lemma single_op_dot : single_op 46 = Some DOT.
Proof. done. Qed.

Lemma elex_step_ok text i c :
  text !! i = Some c ->
  match Evaluator.lex_step text i c with
  | Ok (ot, j) => (i < j <= length text)%nat /\
      (if ot is Some t then etype_of t <> EOF /\ evalue_ok t else True)
  | Raise e => eval_exn e
  end.
Proof.
  intros Hc. pose proof (lookup_lt _ _ _ Hc) as Hi. unfold Evaluator.lex_step.
  destruct (_ || _); [simpl; lia|].
  destruct (_ || _).
  { pose proof (eread_string_ok text i c Hc) as R.
    destruct (Evaluator.read_string text i) as [[v j]|e]; simpl; [|done].
    split; [lia|]. unfold evalue_ok. simpl. eauto. }
  destruct (double_op text i c) as [ty|] eqn:Ed.
  { pose proof (double_op_bound _ _ _ _ Ed). pose proof (double_op_type _ _ _ _ Ed).
    unfold evalue_ok; simpl. split; [lia|]. destruct ty; naive_solver. }
  destruct (single_op c) as [ty|] eqn:Es.
  { pose proof (single_op_type _ _ Es). unfold evalue_ok; simpl.
    split; [lia|]. destruct ty; naive_solver. }
  destruct (starts_number text i c) eqn:En.
  { assert (Hd : py_isdigit c = true).
    { unfold starts_number in En. apply orb_true_iff in En as [|En]; [done|].
      apply andb_prop in En as [->%Z.eqb_eq _]. by rewrite single_op_dot in Es. }
    pose proof (enumber_end_bound text i c Hc Hd) as B.
    destruct (py_float _) as [v|e] eqn:F; simpl; [|by apply py_float_exn in F as ->].
    split; [lia|]. unfold evalue_ok; simpl. eauto. }
  destruct (_ || _); [|done].
  pose proof (scan_while_bound is_ident_char text (S i)) as B. simpl. split; [lia|].
  unfold evalue_ok; simpl. done.
Qed.

Lemma etokenize_loop_ok fuel text i :
  (i <= length text)%nat -> (length text < fuel + i)%nat ->
  match Evaluator.tokenize_loop fuel text i with
  | Ok toks => etoks_wf toks
  | Raise e => eval_exn e
  end.
Proof.
  revert i; induction fuel as [|f IH]; intros i Hi Hf; simpl; [lia|].
  destruct (text !! i) as [c|] eqn:Hc.
  - pose proof (elex_step_ok text i c Hc) as S1.
    destruct (Evaluator.lex_step text i c) as [[ot j]|e]; [|done]. simpl in S1 |- *.
    destruct S1 as [Hj Ht]. specialize (IH j ltac:(lia) ltac:(lia)).
    destruct (Evaluator.tokenize_loop f text j) as [rest|e]; [|done]. simpl.
    destruct ot as [t|]; [|done]. destruct IH as [Hne W]. split; [done|].
    intros [|pos] t' E; simplify_eq/=.
    + destruct Ht as [Ht Hv]. split; [|done]. destruct rest; [done|]. naive_solver lia.
    + destruct (W _ _ E) as [We Wv]. split; [|done]. rewrite We. lia.
  - split; [done|]. intros [|pos] t E; simplify_eq/=. unfold evalue_ok; simpl. done.
Qed.
End Lexing.

(** * The parser, in the calculus of [ParserMonad] *)
Abbreviation wpe := (Wp eval_exn).
Abbreviation spece tokens := (Spec eval_exn (length tokens)).

Section Safety.
Variable tokens : list etoken.
Hypothesis Hwf : etoks_wf tokens.
Notation len := (length tokens).

Lemma etok_at pos : (pos < len)%nat -> exists t, tokens !! pos = Some t.
Proof. apply lookup_lt_is_Some_2. Qed.

Lemma wpe_current Q pos t : tokens !! pos = Some t -> Q t pos -> wpe (current tokens) Q pos.
Proof. intros E. unfold Wp, current. by rewrite E. Qed.

Lemma wpe_check ty Q pos t :
  tokens !! pos = Some t -> Q (bool_decide (etype_of t = ty)) pos -> wpe (check tokens ty) Q pos.
Proof. intros E HQ. unfold check. apply wp_bind. by eapply wpe_current. Qed.

Lemma wpe_advance Q pos t :
  tokens !! pos = Some t -> etype_of t <> EOF ->
  ((S pos < len)%nat -> Q t (S pos)) -> wpe (advance tokens) Q pos.
Proof.
  intros E Hne HQ. unfold Wp, advance. rewrite E.
  pose proof (lookup_lt_Some _ _ _ E). destruct Hwf as [_ W].
  destruct (W _ _ E) as [We _].
  destruct (pos <? len - 1)%nat eqn:L; bool_to_prop; [apply HQ; lia|].
  exfalso. apply Hne, We. lia.
Qed.

Lemma wpe_error {A} msg Q pos : (pos < len)%nat -> wpe (@error tokens A msg) Q pos.
Proof.
  intros Hp. destruct (etok_at _ Hp) as [t E]. unfold error. apply wp_bind.
  by eapply wpe_current.
Qed.

Lemma wpe_str_value t Q pos p :
  tokens !! pos = Some t -> etype_of t = STRING -> (forall s, Q s p) -> wpe (str_value t) Q p.
Proof.
  intros E Ht HQ. destruct (proj2 Hwf _ _ E) as [_ V].
  unfold evalue_ok in V. rewrite Ht in V. destruct V as [s V].
  unfold str_value. rewrite V. by apply wp_ret.
Qed.

Lemma wpe_num_value t Q pos p :
  tokens !! pos = Some t -> etype_of t = NUMBER -> (forall x, Q x p) -> wpe (num_value t) Q p.
Proof.
  intros E Ht HQ. destruct (proj2 Hwf _ _ E) as [_ V].
  unfold evalue_ok in V. rewrite Ht in V. destruct V as [s V].
  unfold num_value. rewrite V. by apply wp_ret.
Qed.
End Safety.

Ltac get_etok pos :=
  lazymatch goal with
  | E : _ !! pos = Some _ |- _ => idtac
  | W : etoks_wf ?toks |- _ =>
      let t := fresh "t" in let E := fresh "Et" in
      destruct (etok_at toks pos) as [t E]; [lia|]
  end.

Ltac not_eeof :=
  solve [congruence | intros ?; simplify_eq; congruence |
         unfold or_ops, and_ops, equality_ops, relational_ops, additive_ops, multiplicative_ops in *;
         by destruct (etype_of _)].

Ltac wpe_prim :=
  lazymatch goal with
  | |- wpe (p_bind _ _) _ _ => apply wp_bind
  | |- wpe (p_ret _) _ _ => apply wp_ret
  | |- wpe (current _) _ ?pos => get_etok pos; eapply wpe_current; [eassumption|]
  | |- wpe (check _ _) _ ?pos => get_etok pos; eapply wpe_check; [eassumption|]
  | |- wpe (str_value _) _ _ => eapply wpe_str_value; [eassumption..|intros ?]
  | |- wpe (num_value _) _ _ => eapply wpe_num_value; [eassumption..|intros ?]
  | |- wpe (error _ _) _ _ => eapply wpe_error; [eassumption || lia..]
  | |- wpe (advance _) _ ?pos =>
      get_etok pos; eapply wpe_advance; [eassumption|eassumption|not_eeof|intros ?]
  | |- wpe (match ?x with _ => _ end) _ _ =>
      lazymatch x with
      | bool_decide _ => case_bool_decide
      | bool_decide _ && _ => case_bool_decide; cbn [andb]
      | negb (bool_decide _) => case_bool_decide; cbn [negb]
      | _ => destruct x eqn:?
      end
  end.
Ltac wpe_go := repeat (cbn beta iota; first [wpe_prim | wp_call]).
Ltac wpe_auto := wp_start; wpe_go; try wp_done.

#[export] Hint Extern 1 (_ <> EOF) => discriminate : wp.

Section Specs.
Variable tokens : list etoken.
Hypothesis Hwf : etoks_wf tokens.
Notation len := (length tokens).
Notation any := (fun _ => True).

Lemma eexpect_spec ty pos :
  (pos < len)%nat -> ty <> EOF -> spece tokens true (expect tokens ty) any pos.
Proof. intros Hp Hty. unfold expect. wpe_auto. Qed.
Hint Resolve eexpect_spec : wp.

Lemma eexpect_ident_spec pos : (pos < len)%nat -> spece tokens true (expect_ident tokens) any pos.
Proof. intros Hp. unfold expect_ident. wpe_auto. Qed.
Hint Resolve eexpect_ident_spec : wp.

Lemma type_keyword_spec pos :
  (pos < len)%nat -> spece tokens true (expect_type_keyword tokens) (.∈ TYPE_KEYWORDS) pos.
Proof.
  intros Hp. unfold expect_type_keyword. wp_start. wpe_go; try wp_done.
  simplify_eq. by apply str_in_spec.
Qed.
Hint Resolve type_keyword_spec : wp.

(** A binary level, given the level above it. *)
Lemma binary_loop_spec fuel ops next l pos :
  ops EOF = None ->
  (forall p, (pos <= p < len)%nat -> spece tokens true next expr_wf p) -> expr_wf l ->
  (pos < len)%nat -> (len < fuel + pos)%nat ->
  spece tokens false (binary_loop tokens fuel ops next l) expr_wf pos.
Proof.
  intros Ho. revert l pos; induction fuel as [|f IH]; intros l pos Hn Hl Hp Hf; [lia|].
  cbn [binary_loop]. wpe_auto.
Qed.

Lemma binary_level_spec ops next pos :
  ops EOF = None ->
  (forall p, (pos <= p < len)%nat -> spece tokens true next expr_wf p) ->
  (pos < len)%nat -> spece tokens true (binary_level tokens ops next) expr_wf pos.
Proof.
  intros Ho Hn Hp. unfold binary_level, loop_fuel. pose proof binary_loop_spec. wpe_auto.
Qed.

(** The methods below [parse_expr], when [parse_expr] is right from [lo] on. *)
Section Levels.
Variable pe : P expr.
Variable lo : nat.
Hypothesis Hpe : forall p, (lo < p < len)%nat -> spece tokens true pe expr_wf p.

Lemma args_loop_spec fuel pos :
  (lo < pos < len)%nat -> (len < fuel + pos)%nat ->
  spece tokens false (args_loop tokens fuel pe) (Forall expr_wf) pos.
Proof.
  revert pos; induction fuel as [|f IH]; intros pos Hp Hf; [lia|].
  cbn [args_loop]. wp_start. wpe_go; try wp_done. by constructor.
Qed.

Lemma call_args_spec pos :
  (lo < pos < len)%nat -> spece tokens false (parse_call_args tokens pe) (Forall expr_wf) pos.
Proof.
  intros Hp. unfold parse_call_args, loop_fuel. pose proof args_loop_spec.
  wp_start. wpe_go; try wp_done. by constructor.
Qed.
Hint Resolve call_args_spec : wp.

Lemma named_set_count_spec pos t :
  tokens !! pos = Some t -> etype_of t = DOT ->
  spece tokens true (parse_named_set_count tokens) expr_wf pos.
Proof.
  intros E Et. pose proof (lookup_lt_Some _ _ _ E). unfold parse_named_set_count.
  wp_start. wpe_go; try wp_done. by constructor.
Qed.

Lemma ident_spec pos t :
  tokens !! pos = Some t -> etype_of t = IDENT -> (lo <= pos)%nat ->
  spece tokens true (parse_ident tokens pe (etext t)) expr_wf pos.
Proof.
  intros E Et Hl. pose proof (lookup_lt_Some _ _ _ E). unfold parse_ident.
  wp_start. wpe_go; try wp_done; bool_to_prop; try by constructor.
  - constructor; [by apply str_in_spec|done].
  - constructor; [congruence|done].
Qed.

Lemma primary_spec pos :
  (lo <= pos < len)%nat -> spece tokens true (parse_primary tokens pe) expr_wf pos.
Proof.
  intros Hp. unfold parse_primary. pose proof named_set_count_spec. pose proof ident_spec.
  wp_start. wpe_go; try wp_done; try by constructor.
Qed.
Hint Resolve primary_spec : wp.

Lemma unary_spec fuel pos :
  (lo <= pos < len)%nat -> (len < fuel + pos)%nat ->
  spece tokens true (parse_unary tokens pe fuel) expr_wf pos.
Proof.
  revert pos; induction fuel as [|f IH]; intros pos Hp Hf; [lia|].
  cbn [parse_unary]. wp_start. wpe_go; try wp_done; by constructor.
Qed.

Lemma or_spec pos : (lo <= pos < len)%nat -> spece tokens true (parse_or tokens pe) expr_wf pos.
Proof.
  intros Hp.
  do 6 (apply binary_level_spec; [done| |lia];
        let p := fresh "p" in intros p ?; assert (lo <= p < len)%nat by lia).
  apply unary_spec; unfold loop_fuel; lia.
Qed.
Hint Resolve or_spec : wp.

Lemma ternary_spec fuel pos :
  (lo <= pos < len)%nat -> (len < fuel + pos)%nat ->
  spece tokens true (parse_ternary tokens pe fuel) expr_wf pos.
Proof.
  revert pos; induction fuel as [|f IH]; intros pos Hp Hf; [lia|].
  cbn [parse_ternary]. wp_start. wpe_go; try wp_done; by constructor.
Qed.
End Levels.

Lemma expr_spec fuel pos :
  (pos < len)%nat -> (len < fuel + pos)%nat ->
  spece tokens true (parse_expr tokens fuel) expr_wf pos.
Proof.
  revert pos; induction fuel as [|f IH]; intros pos Hp Hf; [lia|].
  cbn [parse_expr]. apply (ternary_spec _ pos); [|lia|unfold loop_fuel; lia].
  intros p Hp'. apply IH; lia.
Qed.

Lemma eprogram_spec : spece tokens true (parse_program tokens) expr_wf 0%nat.
Proof.
  pose proof expr_spec. pose proof (proj1 Hwf) as Hne.
  assert (0 < len)%nat by (destruct tokens; [done|simpl; lia]).
  unfold parse_program, loop_fuel. wpe_auto.
Qed.
End Specs.

(** the evaluator's [parse] terminates on every text and never reads
    outside its token list: it returns an expression whose type keywords,
    aggregators and element functions are those of the grammar, each element
    function with the number of arguments it takes, or raises its own
    [ParseError] or, on a digit character [float] does not accept, a
    [ValueError]. *)
Theorem evaluator_parse_total_wf `{UnicodeDB} (text : pystr) :
  match Evaluator.parse text with
  | Ok e => expr_wf e
  | Raise e => eval_exn e
  end.
Proof.
  unfold parse. pose proof (etokenize_loop_ok (S (length text)) text 0 ltac:(lia) ltac:(lia)) as T.
  unfold Evaluator.tokenize. destruct (Evaluator.tokenize_loop _ text 0) as [toks|e]; [|done].
  pose proof (eprogram_spec toks T (fun e _ => expr_wf e) ltac:(auto)) as S. unfold Wp in S.
  simpl. by destruct (parse_program toks 0%nat) as [[e p]|e].
Qed.

(** a number cannot start with its decimal point: the branch of the
    tokenizer written for [.5] is never reached, the point being taken by the
    single-character table first, and the parser rejects the text. *)
Theorem evaluator_leading_point_rejected `{UnicodeDB} (text : pystr) (i : nat) :
  text !! i = Some 46 ->
  Evaluator.lex_step text i 46 = Ok (Some (mkEtoken DOT [46] VNone i), S i).
Proof. intros E. unfold lex_step, double_op. done. Qed.

Theorem evaluator_leading_point_rejected_witness :
  (u ".5") !! 0%nat = Some 46 /\
  Evaluator.lex_step (H:=latin1_db) (u ".5") 0%nat 46 = Ok (Some (mkEtoken DOT [46] VNone 0%nat), 1%nat) /\
  match Evaluator.parse (H:=latin1_db) (u ".5") with Raise (ParseError _ _ _) => True | _ => False end.
Proof.
  split; [reflexivity|]. split; [|vm_compute; exact I].
  apply (evaluator_leading_point_rejected (H:=latin1_db) (u ".5") 0%nat). reflexivity.
Defined.

(** * Printing *)

(** A token without its position. *)
Definition lexeme : Type := etype * pystr * tokval.
Definition strip (t : etoken) : lexeme := (etype_of t, etext t, evalue t).
Definition op_lex (t : etype) : lexeme := (t, etype_str t, VNone).
Definition id_lex (s : pystr) : lexeme := (IDENT, s, VStr s).

(** A double-quoted literal: double quotes and backslashes are escaped. *)
Definition eescape_char (c : Z) : pystr := if (c =? 34) || (c =? 92) then [92; c] else [c].
Definition equote (s : pystr) : pystr := 34 :: flat_map eescape_char s ++ [34].
Definition str_lex (s : pystr) : lexeme := (STRING, equote s, VStr s).

Definition binop_type (op : binop) : etype :=
  match op with
  | BOr => OROR | BAnd => ANDAND | BEq => EQEQ | BNe => NEQ | BLt => LT | BLe => LE
  | BGt => GT | BGe => GE | BAdd => PLUS | BSub => MINUS | BMul => STAR | BDiv => SLASH
  end.
Definition binop_level (op : binop) : nat :=
  match op with
  | BOr => 1 | BAnd => 2 | BEq | BNe => 3 | BLt | BLe | BGt | BGe => 4
  | BAdd | BSub => 5 | BMul | BDiv => 6
  end%nat.

(** The grammar's level of an expression: 0 ternary, 1-6 the binary
    operators, 7 unary, 8 primary. *)
Definition level (e : expr) : nat :=
  match e with
  | Ternary _ _ _ => 0%nat
  | BinOp op _ _ => binop_level op
  | Unary _ _ => 7%nat
  | _ => 8%nat
  end.

Section Printer.
(** How a number is written: a parameter, so that any literal the tokenizer
    reads back as the number will do (Python's [repr] is one). *)
Variable lit : pyfloat -> pystr.

Definition parens (b : bool) (ls : list lexeme) : list lexeme :=
  if b then op_lex LPAREN :: ls ++ [op_lex RPAREN] else ls.

Definition sep_args (ls : list (list lexeme)) : list lexeme :=
  match ls with
  | [] => []
  | a :: rest => a ++ flat_map (fun l => op_lex COMMA :: l) rest
  end.

Fixpoint print (n : nat) (e : expr) : list lexeme :=
  parens (level e <? n)%nat
    match e with
    | Num v => [(NUMBER, lit v, VNum v)]
    | Str s => [str_lex s]
    | TagAccess k => [id_lex (u "t"); op_lex LBRACKET; str_lex k; op_lex RBRACKET]
    | ElementCall f args =>
        id_lex f :: op_lex LPAREN :: sep_args (map (print 0) args) ++ [op_lex RPAREN]
    | SetCount ty => [id_lex (u "count"); op_lex LPAREN; id_lex ty; op_lex RPAREN]
    | NamedSetCount s ty =>
        [op_lex DOT; id_lex s; op_lex DOT; id_lex (u "count"); op_lex LPAREN; id_lex ty;
         op_lex RPAREN]
    | Aggregate f e => id_lex f :: op_lex LPAREN :: print 0 e ++ [op_lex RPAREN]
    | Unary UNot e => op_lex BANG :: print 7 e
    | Unary UNeg e => op_lex MINUS :: print 7 e
    | BinOp op l r =>
        print (binop_level op) l ++ op_lex (binop_type op) :: print (S (binop_level op)) r
    | Ternary c t o =>
        print 1 c ++ op_lex QUESTION :: print 0 t ++ op_lex COLON :: print 0 o
    end.

(** The lexemes' texts, each followed by a space. *)
Definition join_lexemes (ls : list lexeme) : pystr :=
  flat_map (fun x : lexeme => (snd (fst x)) ++ [32]) ls.
Definition unparse (e : expr) : pystr := join_lexemes (print 0 e).

(** ** What the printer can print *)
Context `{UnicodeDB}.

Definition ident_ok (s : pystr) : Prop :=
  exists c s', s = c :: s' /\ py_isdigit c = false /\ (py_isalpha c || (c =? 95)) = true /\
    Forall (fun c => is_ident_char c = true) s'.

(** A number is printable when its literal is digits, with at most one point
    between digits, that [float] reads as that number. *)
Definition lit_ok (v : pyfloat) : Prop :=
  exists ip fp, lit v = literal_text ip fp /\ all_digits ip /\ all_digits fp /\ ip <> [] /\
    py_float (lit v) = Ok v.

(** The numbers and set names of an expression are printable. *)
Fixpoint printable (e : expr) : Prop :=
  match e with
  | Num v => lit_ok v
  | Str _ | TagAccess _ | SetCount _ => True
  | NamedSetCount s _ => ident_ok s
  | ElementCall _ args => fold_right (fun a P => printable a /\ P) True args
  | Aggregate _ e | Unary _ e => printable e
  | BinOp _ l r => printable l /\ printable r
  | Ternary c t o => printable c /\ printable t /\ printable o
  end.
End Printer.

Fixpoint esize (e : expr) : nat :=
  match e with
  | ElementCall _ args => S (fold_right (fun a n => esize a + n) 0 args)
  | Aggregate _ e | Unary _ e => S (esize e)
  | BinOp _ l r => S (esize l + esize r)
  | Ternary c t o => S (esize c + esize t + esize o)
  | _ => 1
  end%nat.

(** * Running the parser on a printed stream *)
Section Run.
Variable tokens : list etoken.
Notation len := (length tokens).

(** What is left of the token stream at a cursor. *)
Definition view (pos : nat) : list lexeme := map strip (drop pos tokens).

(** [m] at [pos] returns [a] and leaves [rest]. *)
Definition runs {A} (m : P A) (pos : nat) (a : A) (rest : list lexeme) : Prop :=
  exists pos', m pos = Ok (a, pos') /\ view pos' = rest.

Lemma view_cons pos x rest :
  view pos = x :: rest -> exists t, tokens !! pos = Some t /\ strip t = x /\ view (S pos) = rest.
Proof.
  unfold view. intros E. destruct (drop pos tokens) as [|t l] eqn:D; [done|].
  injection E as <- <-. exists t. split_and!; [|done|].
  - by eapply lookup_skipn_head.
  - by rewrite (skipn_tail _ _ _ _ D).
Qed.

Lemma view_length pos : length (view pos) = (len - pos)%nat.
Proof. unfold view. by rewrite length_map, length_drop. Qed.

Lemma runs_bind {A B} (m : P A) (k : A -> P B) pos a l b rest :
  runs m pos a l -> (forall p, view p = l -> runs (k a) p b rest) ->
  runs (p_bind m k) pos b rest.
Proof. intros (p & Em & Ev) Hk. unfold runs, p_bind. rewrite Em. by apply Hk. Qed.

Lemma runs_ret {A} (a : A) pos rest : view pos = rest -> runs (p_ret a) pos a rest.
Proof. intros E. by exists pos. Qed.

(** The primitives, on a head token. *)
Lemma runs_current pos x rest :
  view pos = x :: rest -> exists t, strip t = x /\ runs (current tokens) pos t (x :: rest).
Proof.
  intros E. destruct (view_cons _ _ _ E) as (t & Et & Ex & _). exists t. split; [done|].
  exists pos. unfold current. by rewrite Et.
Qed.

Lemma runs_check ty pos x rest :
  view pos = x :: rest ->
  runs (check tokens ty) pos (bool_decide (fst (fst x) = ty)) (x :: rest).
Proof.
  intros E. destruct (runs_current _ _ _ E) as (t & <- & R). unfold check.
  eapply runs_bind; [done|]. intros. by apply runs_ret.
Qed.

Lemma runs_advance pos x y rest :
  view pos = x :: y :: rest ->
  exists t, strip t = x /\ runs (advance tokens) pos t (y :: rest).
Proof.
  intros E. destruct (view_cons _ _ _ E) as (t & Et & Ex & Ev). exists t. split; [done|].
  pose proof (view_length pos) as L. rewrite E in L. simpl in L.
  exists (S pos). unfold advance. rewrite Et.
  destruct (Nat.ltb_spec pos (len - 1)); [done|lia].
Qed.

Lemma runs_expect ty pos x y rest :
  view pos = x :: y :: rest -> fst (fst x) = ty ->
  exists t, strip t = x /\ runs (expect tokens ty) pos t (y :: rest).
Proof.
  intros E Ht. destruct (view_cons _ _ _ E) as (t0 & Et & Ex & _).
  destruct (runs_advance _ _ _ _ E) as (t & Hx & R). exists t. split; [done|].
  unfold runs, expect, check, current, p_bind, p_ret in *. rewrite Et.
  rewrite bool_decide_eq_true_2; [done|]. by subst.
Qed.

Lemma runs_expect_ident pos s y rest :
  view pos = id_lex s :: y :: rest -> runs (expect_ident tokens) pos s (y :: rest).
Proof.
  intros E. destruct (view_cons _ _ _ E) as (t0 & Et & Ex & _).
  destruct (runs_advance _ _ _ _ E) as (t & Hx & p & Ea & Ev). exists p.
  unfold expect_ident, check, current, p_bind, p_ret. rewrite Et.
  injection Ex as Hty Htx _. rewrite bool_decide_eq_true_2 by done. rewrite Ea. injection Hx as _ Hx _. by rewrite Hx.
Qed.

Lemma runs_expect_type pos s y rest :
  view pos = id_lex s :: y :: rest -> s ∈ TYPE_KEYWORDS ->
  runs (expect_type_keyword tokens) pos s (y :: rest).
Proof.
  intros E Hs%str_in_spec. destruct (view_cons _ _ _ E) as (t0 & Et & Ex & _).
  destruct (runs_advance _ _ _ _ E) as (t & Hx & p & Ea & Ev). exists p.
  unfold expect_type_keyword, current, p_bind, p_ret. rewrite Et. injection Ex as Ht Hx' _.
  rewrite bool_decide_eq_true_2 by done. rewrite Hx', Hs. cbn [andb]. rewrite Ea.
  injection Hx as _ Hx _. by rewrite Hx.
Qed.

(** ** The levels *)

(** The level of a binary operator's token, or of [?]. *)
Definition token_level (t : etype) : option nat :=
  match t with
  | QUESTION => Some 0 | OROR => Some 1 | ANDAND => Some 2 | EQEQ | NEQ => Some 3
  | LT | LE | GT | GE => Some 4 | PLUS | MINUS => Some 5 | STAR | SLASH => Some 6
  | _ => None
  end%nat.

(** The stream has a head, and it does not continue an expression of level
    [n]. *)
Definition stops (n : nat) (l : list lexeme) : Prop :=
  match l with
  | [] => False
  | x :: _ => match token_level (fst (fst x)) with Some k => (k < n)%nat | None => True end
  end.

Lemma stops_le n m l : (n <= m)%nat -> stops n l -> stops m l.
Proof. destruct l; simpl; [done|]. case_match; [lia|done]. Qed.

Definition level_ops (n : nat) : etype -> option binop :=
  match n with
  | 1 => or_ops | 2 => and_ops | 3 => equality_ops | 4 => relational_ops
  | 5 => additive_ops | _ => multiplicative_ops
  end%nat.

Lemma level_ops_spec n ty op :
  (1 <= n <= 6)%nat -> level_ops n ty = Some op -> token_level ty = Some n.
Proof. intros Hn. do 7 (destruct n as [|n]; [try lia; destruct ty; done|]). lia. Qed.

Lemma level_ops_binop op : level_ops (binop_level op) (binop_type op) = Some op.
Proof. by destruct op. Qed.

Lemma binop_level_bound op : (1 <= binop_level op <= 6)%nat.
Proof. destruct op; simpl; lia. Qed.

Lemma token_level_binop op : token_level (binop_type op) = Some (binop_level op).
Proof. by destruct op. Qed.

(** The method of level [n], for [1 <= n <= 8]. *)
Definition lev (pe : P expr) (n : nat) : P expr :=
  match n with
  | 1 => parse_or tokens pe | 2 => parse_and tokens pe | 3 => parse_equality tokens pe
  | 4 => parse_relational tokens pe | 5 => parse_additive tokens pe
  | 6 => parse_multiplicative tokens pe | 7 => parse_unary tokens pe (loop_fuel tokens)
  | _ => parse_primary tokens pe
  end%nat.

Lemma lev_binary pe n :
  (1 <= n <= 6)%nat -> lev pe n = binary_level tokens (level_ops n) (lev pe (S n)).
Proof. intros Hn. do 7 (destruct n as [|n]; [lia || done|]). lia. Qed.

(** A loop with no operator at its cursor returns its accumulator. *)
Lemma loop_stops fuel n next l pos rest :
  (1 <= n <= 6)%nat -> (0 < fuel)%nat -> view pos = rest -> stops n rest ->
  runs (binary_loop tokens fuel (level_ops n) next l) pos l rest.
Proof.
  intros Hn Hf E Hs. destruct fuel as [|f]; [lia|]. destruct rest as [|x rest]; [done|].
  cbn [binary_loop]. destruct (runs_current _ _ _ E) as (t & <- & R).
  eapply runs_bind; [exact R|]. intros p Ev. cbn in Hs.
  destruct (level_ops n (etype_of t)) as [op|] eqn:Eo; [|by apply runs_ret].
  apply level_ops_spec in Eo; [|done]. rewrite Eo in Hs. lia.
Qed.

Lemma lift_one pe n pos e rest :
  (1 <= n <= 6)%nat -> runs (lev pe (S n)) pos e rest -> stops n rest -> runs (lev pe n) pos e rest.
Proof.
  intros Hn R Hs. rewrite lev_binary by done. unfold binary_level.
  eapply runs_bind; [done|]. intros p Ev. apply loop_stops; try done. unfold loop_fuel. lia.
Qed.

Lemma lift pe n m pos e rest :
  (1 <= n)%nat -> (n <= m <= 7)%nat -> runs (lev pe m) pos e rest -> stops n rest ->
  runs (lev pe n) pos e rest.
Proof.
  intros Hn Hm R Hs. remember (m - n)%nat as d eqn:Hd. revert n m Hn Hm Hd R Hs.
  induction d as [|d IH]; intros n m Hn Hm Hd R Hs; [by replace n with m by lia|].
  apply lift_one; [lia| |done]. apply (IH (S n) m); [lia..|done|].
  by eapply stops_le; [|done]; lia.
Qed.

(** A primary whose first token is no prefix operator, at any level. *)
Lemma lift_primary pe n pos x l e rest :
  (1 <= n <= 8)%nat -> view pos = x :: l -> fst (fst x) <> BANG -> fst (fst x) <> MINUS ->
  runs (parse_primary tokens pe) pos e rest -> stops n rest -> runs (lev pe n) pos e rest.
Proof.
  intros Hn E H1 H2 R Hs. destruct (decide (n = 8%nat)) as [->|]; [done|].
  apply (lift pe n 7); [lia..| |done].
  cbn [lev]. unfold loop_fuel. cbn [parse_unary].
  destruct (view_cons _ _ _ E) as (t & Et & <- & _).
  destruct R as (p & Ep & Ev). exists p. split; [|done].
  unfold p_bind, current. rewrite Et. simpl in H1, H2.
  by rewrite !bool_decide_eq_false_2.
Qed.

End Run.

(** ** Printed primaries *)
Lemma agg_name f :
  f ∈ AGG_FUNCS -> (f =s u "t") = false /\ (f =s u "count") = false /\ str_in f AGG_FUNCS = true.
Proof.
  intros Hf. split_and!; [| |by apply str_in_spec];
    repeat (apply elem_of_cons in Hf as [->|Hf]; [done|]); by apply elem_of_nil in Hf.
Qed.

Lemma str_in_cons x y l : str_in x (y :: l) = (x =s y) || str_in x l.
Proof. done. Qed.

Lemma element_name f k :
  element_func_arity f = Some k ->
  (f =s u "t") = false /\ (f =s u "count") = false /\ str_in f AGG_FUNCS = false /\ (k <= 1)%nat.
Proof.
  unfold element_func_arity. intros E.
  repeat case_match; simplify_eq; split_and!; try lia;
    match goal with H : str_in _ _ = true |- _ => apply str_in_spec in H; revert H end;
    rewrite !elem_of_cons, elem_of_nil; intros; repeat destruct_or!; subst; try done.
Qed.

(** Advances over a known head. *)
Ltac radv :=
  lazymatch goal with
  | E : view _ ?p = ?x :: ?y :: ?l |- runs _ (p_bind (advance _) _) ?p _ _ =>
      let t := fresh "t" in let Hx := fresh "Hx" in let R := fresh "R" in
      destruct (runs_advance _ _ _ _ _ E) as (t & Hx & R);
      eapply runs_bind; [exact R|clear R; intros ? ?]
  | E : view _ ?p = ?x :: ?y :: ?l |- runs _ (p_bind (expect _ ?ty) _) ?p _ _ =>
      let t := fresh "t" in let Hx := fresh "Hx" in let R := fresh "R" in
      destruct (runs_expect _ ty _ _ _ _ E eq_refl) as (t & Hx & R);
      eapply runs_bind; [exact R|clear R; intros ? ?]
  | E : view _ ?p = ?x :: _ |- runs _ (p_bind (check _ _) _) ?p _ _ =>
      eapply runs_bind; [by eapply runs_check|intros ? ?; cbn [fst snd]]
  | E : view _ ?p = ?x :: _ |- runs _ (p_bind (current _) _) ?p _ _ =>
      let t := fresh "t" in let Hx := fresh "Hx" in let R := fresh "R" in
      destruct (runs_current _ _ _ _ E) as (t & Hx & R);
      eapply runs_bind; [exact R|clear R; intros ? ?]
  | E : view _ ?p = id_lex ?x :: _ |- runs _ (p_bind (expect_ident _) _) ?p _ _ =>
      eapply runs_bind; [by eapply runs_expect_ident|intros ? ?]
  | E : view _ ?p = id_lex ?x :: _ |- runs _ (p_bind (expect_type_keyword _) _) ?p _ _ =>
      eapply runs_bind; [by eapply runs_expect_type|intros ? ?]
  | |- runs _ (p_bind (p_ret _) _) _ _ _ => eapply runs_bind; [by apply runs_ret|intros ? ?]
  | |- runs _ (p_ret _) _ _ _ => apply runs_ret; assumption
  end.

Ltac rgo := repeat (cbn [negb]; cbn beta; radv).

Section Primaries.
Variable tokens : list etoken.
Notation view := (view tokens).
Notation runs := (runs tokens).

Lemma primary_number pe pos s v y rest :
  view pos = (NUMBER, s, VNum v) :: y :: rest ->
  runs (parse_primary tokens pe) pos (Num v) (y :: rest).
Proof.
  intros E. unfold parse_primary. radv. injection Hx as Ht _ Hv. rewrite Ht.
  unfold num_value. rewrite Hv. rgo.
Qed.

Lemma primary_string pe pos s y rest :
  view pos = str_lex s :: y :: rest ->
  runs (parse_primary tokens pe) pos (Str s) (y :: rest).
Proof.
  intros E. unfold parse_primary. radv. injection Hx as Ht _ Hv. rewrite Ht.
  unfold str_value. rewrite Hv. rgo.
Qed.

Lemma primary_tag pe pos k y rest :
  view pos = id_lex (u "t") :: op_lex LBRACKET :: str_lex k :: op_lex RBRACKET :: y :: rest ->
  runs (parse_primary tokens pe) pos (TagAccess k) (y :: rest).
Proof.
  intros E. unfold parse_primary. radv. injection Hx as Ht Hn _. rewrite Ht, Hn.
  unfold parse_ident. cbn [str_eqb]. change (u "t" =s u "t") with true. cbn iota.
  do 3 radv. cbn [negb str_lex fst]. rewrite bool_decide_eq_true_2 by done. cbn [negb].
  radv. injection Hx1 as _ _ Hv. unfold str_value. rewrite Hv. rgo.
Qed.

Lemma primary_count pe pos ty y rest :
  ty ∈ TYPE_KEYWORDS ->
  view pos = id_lex (u "count") :: op_lex LPAREN :: id_lex ty :: op_lex RPAREN :: y :: rest ->
  runs (parse_primary tokens pe) pos (SetCount ty) (y :: rest).
Proof.
  intros Hty E. unfold parse_primary. radv. injection Hx as Ht Hn _. rewrite Ht, Hn.
  unfold parse_ident. change (u "count" =s u "t") with false.
  change (u "count" =s u "count") with true. cbn iota. rgo.
Qed.

Lemma primary_named_count pe pos s ty y rest :
  ty ∈ TYPE_KEYWORDS ->
  view pos = op_lex DOT :: id_lex s :: op_lex DOT :: id_lex (u "count") :: op_lex LPAREN
             :: id_lex ty :: op_lex RPAREN :: y :: rest ->
  runs (parse_primary tokens pe) pos (NamedSetCount s ty) (y :: rest).
Proof.
  intros Hty E. unfold parse_primary. radv. injection Hx as Ht _ _. rewrite Ht.
  unfold parse_named_set_count. do 4 radv. change (u "count" =s u "count") with true. rgo.
Qed.

Lemma primary_paren pe pos e l y rest :
  view pos = op_lex LPAREN :: l ++ op_lex RPAREN :: y :: rest -> l <> [] ->
  (forall p, view p = l ++ op_lex RPAREN :: y :: rest ->
     runs pe p e (op_lex RPAREN :: y :: rest)) ->
  runs (parse_primary tokens pe) pos e (y :: rest).
Proof.
  intros E Hl He. unfold parse_primary. radv. injection Hx as Ht _ _. rewrite Ht.
  destruct l as [|x l]; [done|]. cbn [app] in *. radv.
  eapply runs_bind; [by apply He|]. intros. rgo.
Qed.

Lemma primary_aggregate pe pos f e l y rest :
  f ∈ AGG_FUNCS ->
  view pos = id_lex f :: op_lex LPAREN :: l ++ op_lex RPAREN :: y :: rest -> l <> [] ->
  (forall p, view p = l ++ op_lex RPAREN :: y :: rest ->
     runs pe p e (op_lex RPAREN :: y :: rest)) ->
  runs (parse_primary tokens pe) pos (Aggregate f e) (y :: rest).
Proof.
  intros (H1 & H2 & H3)%agg_name E Hl He. unfold parse_primary. radv.
  injection Hx as Ht Hn _. rewrite Ht, Hn.
  unfold parse_ident. rewrite H1, H2, H3. destruct l as [|x l]; [done|]. cbn [app] in *.
  do 2 radv. eapply runs_bind; [by apply He|]. intros. rgo.
Qed.

Lemma primary_call0 pe pos f y rest :
  element_func_arity f = Some 0%nat ->
  view pos = id_lex f :: op_lex LPAREN :: op_lex RPAREN :: y :: rest ->
  runs (parse_primary tokens pe) pos (ElementCall f []) (y :: rest).
Proof.
  intros Ha E. destruct (element_name _ _ Ha) as (H1 & H2 & H3 & _).
  unfold parse_primary. radv. injection Hx as Ht Hn _. rewrite Ht, Hn.
  unfold parse_ident. rewrite H1, H2, H3, Ha. do 2 radv.
  eapply runs_bind.
  - unfold parse_call_args. radv. change (bool_decide (RPAREN = RPAREN)) with true. cbn iota.
    by apply runs_ret.
  - intros. radv. cbn [length Nat.eqb]. rgo.
Qed.

Lemma primary_call1 pe pos f e l x y rest :
  element_func_arity f = Some 1%nat ->
  view pos = id_lex f :: op_lex LPAREN :: l ++ op_lex RPAREN :: y :: rest ->
  head l = Some x -> fst (fst x) <> RPAREN ->
  (forall p, view p = l ++ op_lex RPAREN :: y :: rest ->
     runs pe p e (op_lex RPAREN :: y :: rest)) ->
  runs (parse_primary tokens pe) pos (ElementCall f [e]) (y :: rest).
Proof.
  intros Ha E Hl Hx0 He. destruct (element_name _ _ Ha) as (H1 & H2 & H3 & _).
  unfold parse_primary. radv. injection Hx as Ht Hn _. rewrite Ht, Hn.
  destruct l as [|x' l]; [done|]. injection Hl as ->. cbn [app] in *.
  unfold parse_ident. rewrite H1, H2, H3, Ha. do 2 radv.
  eapply runs_bind.
  - unfold parse_call_args. radv. rewrite bool_decide_eq_false_2 by done.
    eapply runs_bind; [by apply He|]. intros. cbn beta.
    eapply (runs_bind _ _ _ _ []); [|intros; by apply runs_ret].
    unfold loop_fuel. cbn [args_loop]. radv. cbn [op_lex fst].
    rewrite bool_decide_eq_false_2 by done. by apply runs_ret.
  - intros. radv. cbn [length Nat.eqb]. rgo.
Qed.
End Primaries.

(** ** Shape of the printed stream *)
Section Shape.
Variable lit : pyfloat -> pystr.

Lemma print_level_ge n e : (n <= level e)%nat -> print lit n e = print lit (level e) e.
Proof.
  intros Hn. destruct e; cbn [print level] in *;
    rewrite ?(proj2 (Nat.ltb_ge _ _)) by (first [exact Hn | lia]); done.
Qed.

Lemma print_level_lt n e :
  (level e < n)%nat ->
  print lit n e = op_lex LPAREN :: print lit (level e) e ++ [op_lex RPAREN].
Proof.
  intros Hn. destruct e; cbn [print level] in *;
    rewrite (proj2 (Nat.ltb_lt _ _) Hn), Nat.ltb_irrefl; done.
Qed.

(** A printed expression is not empty, and does not start with [)]. *)
Lemma print_head n e : exists x l, print lit n e = x :: l /\ fst (fst x) <> RPAREN.
Proof.
  revert n; induction e; intros n; cbn [print];
    (destruct (_ <? n)%nat; [by eexists _, _|]); cbn [parens]; try by eexists _, _.
  - destruct op; by eexists _, _.
  - destruct (IHe1 (binop_level op)) as (x & l & -> & Hx). by eexists _, _.
  - destruct (IHe1 1%nat) as (x & l & -> & Hx). by eexists _, _.
Qed.

Lemma print_nonempty n e : print lit n e <> [].
Proof. destruct (print_head n e) as (x & l & -> & _). done. Qed.
End Shape.

(** ** The parser reads a printed expression back *)
Section ReadBack.
Variable lit : pyfloat -> pystr.
Variable tokens : list etoken.
Notation view := (view tokens).
Notation runs := (runs tokens).
Notation lev := (lev tokens).
Notation print := (print lit).

(** [e] is read back by every level's method, by [parse_ternary] and by
    [parse_expr], given fuel for the tokens that remain. *)
Definition reads_level (e : expr) : Prop :=
  forall n f pos rest, (1 <= n <= 8)%nat -> view pos = print n e ++ rest -> stops n rest ->
    (length (view pos) <= f)%nat -> runs (lev (parse_expr tokens f) n) pos e rest.
Definition reads_own (e : expr) : Prop :=
  forall f pos rest, (1 <= level e)%nat -> view pos = print (level e) e ++ rest ->
    stops (level e) rest -> (length (view pos) <= f)%nat ->
    runs (lev (parse_expr tokens f) (level e)) pos e rest.
Definition reads_ternary (e : expr) : Prop :=
  forall f k pos rest, view pos = print 0 e ++ rest -> stops 0 rest ->
    (length (view pos) <= f)%nat -> (length (view pos) < k)%nat ->
    runs (parse_ternary tokens (parse_expr tokens f) k) pos e rest.

Lemma view_fuel pos : (length (view pos) < loop_fuel tokens)%nat.
Proof. rewrite view_length. unfold loop_fuel. lia. Qed.

Lemma reads_expr e : reads_ternary e -> forall f pos rest,
  view pos = print 0 e ++ rest -> stops 0 rest -> (length (view pos) < f)%nat ->
  runs (parse_expr tokens f) pos e rest.
Proof.
  intros He f pos rest E Hs Hf. destruct f as [|f]; [lia|]. cbn [parse_expr].
  apply He; [done|done|lia|apply view_fuel].
Qed.

Lemma stops_head n l : stops n l -> exists y rest, l = y :: rest.
Proof. destruct l; [done|]. by eexists _, _. Qed.

Lemma stops_none n l : token_level (fst (fst l)) = None -> forall rest, stops n (l :: rest).
Proof. intros E rest. simpl. by rewrite E. Qed.

Lemma level_bound e : (level e <= 8)%nat.
Proof. destruct e; simpl; try lia. pose proof (binop_level_bound op). lia. Qed.

Lemma print_head8 e :
  level e = 8%nat ->
  exists x l, print 8 e = x :: l /\ fst (fst x) <> BANG /\ fst (fst x) <> MINUS.
Proof.
  destruct e; intros El; try done; try (by eexists _, _).
  pose proof (binop_level_bound op). simpl in El. lia.
Qed.

(** From an expression's own level down to any lower one. *)
Lemma lift_own pe e n pos rest :
  (1 <= n <= level e)%nat -> view pos = print (level e) e ++ rest -> stops n rest ->
  runs (lev pe (level e)) pos e rest -> runs (lev pe n) pos e rest.
Proof.
  intros Hn E Hs R. pose proof (level_bound e).
  destruct (decide (level e = 8%nat)) as [E8|].
  - rewrite E8 in *. destruct (print_head8 e E8) as (x & l & Ex & H1 & H2).
    rewrite Ex in E. by apply (lift_primary tokens pe n pos x (l ++ rest)).
  - apply (lift tokens pe n (level e)); by try lia.
Qed.

Lemma ternary_of_own e : (1 <= level e)%nat -> reads_own e -> reads_ternary e.
Proof.
  intros Hl He f k pos rest E Hs Hf Hk. destruct k as [|k]; [lia|]. cbn [parse_ternary].
  rewrite (print_level_ge lit 0 e) in E by lia.
  destruct (stops_head _ _ Hs) as (y & rest' & ->).
  assert (R : runs (lev (parse_expr tokens f) 1) pos e (y :: rest')).
  { apply lift_own; [lia|done|by eapply stops_le; [|done]; lia|].
    apply He; [done|done|by eapply stops_le; [|done]; lia|done]. }
  eapply runs_bind; [exact R|]. intros p Ev. eapply runs_bind; [by eapply runs_check|]. intros p2 Ev2.
  cbn beta. rewrite bool_decide_eq_false_2; [by apply runs_ret|].
  intros Ht. simpl in Hs. rewrite Ht in Hs. simpl in Hs. lia.
Qed.

(** In parentheses, any expression is a primary. *)
Lemma level_of_ternary e :
  ((1 <= level e)%nat -> reads_own e) -> reads_ternary e -> reads_level e.
Proof.
  intros Ho Ht n f pos rest Hn E Hs Hf.
  destruct (Nat.leb_spec n (level e)) as [Hl|Hl].
  - rewrite (print_level_ge lit n e) in E by done. apply lift_own; [lia|done|done|].
    apply Ho; [lia|lia|done|by eapply stops_le; [|done]; lia|done].
  - rewrite print_level_lt in E by done. cbn [app] in E. rewrite <- app_assoc in E. cbn [app] in E.
    destruct (stops_head _ _ Hs) as (y & rest' & ->).
    eapply lift_primary; [lia|exact E|done|done| |done].
    apply (primary_paren tokens _ pos e (print (level e) e)); [exact E|apply print_nonempty|].
    intros p Ev. destruct f as [|f]; [rewrite E in Hf; simpl in Hf; lia|].
    apply reads_expr; [done| |by apply stops_none|].
    + by rewrite (print_level_ge lit 0 e) by lia.
    + rewrite Ev. rewrite E in Hf. simpl in Hf. lia.
Qed.

Lemma own_of_primary e :
  level e = 8%nat ->
  (forall f pos rest, view pos = print 8 e ++ rest -> rest <> [] -> (length (view pos) <= f)%nat ->
     runs (parse_primary tokens (parse_expr tokens f)) pos e rest) ->
  reads_own e.
Proof.
  intros E8 Hp f pos rest _ E Hs Hf. rewrite E8 in *. apply Hp; [done| |done].
  by intros ->.
Qed.

(** The left spine of a level: after reading a left operand, the method is
    in its loop with that operand as accumulator. *)
Definition in_loop (m : nat) (pe : P expr) (l : expr) (pos : nat) (rest : list lexeme) : Prop :=
  exists fuel pos', (length rest < fuel)%nat /\ view pos' = rest /\
    binary_level tokens (level_ops m) (lev pe (S m)) pos =
    binary_loop tokens fuel (level_ops m) (lev pe (S m)) l pos'.

Lemma in_loop_operand m f l pos rest :
  (1 <= m <= 6)%nat -> reads_level l -> view pos = print (S m) l ++ rest -> stops (S m) rest ->
  (length (view pos) <= f)%nat -> in_loop m (parse_expr tokens f) l pos rest.
Proof.
  intros Hm Hl E Hs Hf. destruct (Hl (S m) f pos rest) as (p & Ep & Ev); [lia|done..|].
  exists (loop_fuel tokens), p. split_and!; [rewrite <- Ev; apply view_fuel|done|].
  unfold binary_level, p_bind. by rewrite Ep.
Qed.

Lemma in_loop_step op f l r pos rest :
  let m := binop_level op in
  in_loop m (parse_expr tokens f) l pos (op_lex (binop_type op) :: print (S m) r ++ rest) ->
  reads_level r -> stops (S m) rest -> (length (print (S m) r ++ rest) <= f)%nat ->
  in_loop m (parse_expr tokens f) (BinOp op l r) pos rest.
Proof.
  cbv zeta. set (m := binop_level op). intros (fuel & p1 & Hfuel & Ev1 & Hbl) Hr Hs Hf.
  unfold in_loop. rewrite Hbl. clear Hbl.
  pose proof (binop_level_bound op) as Hm. fold m in Hm.
  destruct fuel as [|fuel]; [simpl in Hfuel; lia|]. cbn [binary_loop].
  destruct (print_head lit (S m) r) as (x & lr & Er & _).
  assert (Ev1' := Ev1). rewrite Er in Ev1'. cbn [app] in Ev1'.
  destruct (view_cons _ _ _ _ Ev1') as (t & Et & Ex & _). injection Ex as Ht _ _.
  destruct (runs_advance _ _ _ _ _ Ev1') as (t' & _ & p2 & Ea & Ev2).
  unfold p_bind at 1, current at 1. rewrite Et, Ht.
  unfold m. rewrite level_ops_binop. fold m. unfold p_bind at 1. rewrite Ea.
  destruct (Hr (S m) f p2 rest) as (p3 & E3 & Ev3); [lia| |done| |].
  - by rewrite Ev2, Er.
  - rewrite Ev2. rewrite Er in Hf. exact Hf.
  - exists fuel, p3. split_and!; [|done|].
    + rewrite length_app in Hf. simpl in Hfuel. rewrite length_app in Hfuel. lia.
    + unfold p_bind at 1. by rewrite E3.
Qed.

Lemma print_level_S m e : level e <> m -> print m e = print (S m) e.
Proof.
  intros Hne. destruct (Nat.leb_spec m (level e)).
  - by rewrite (print_level_ge lit m), (print_level_ge lit (S m)) by lia.
  - by rewrite (print_level_lt lit m), (print_level_lt lit (S m)) by lia.
Qed.

Lemma in_loop_spine m f l :
  (1 <= m <= 6)%nat -> forall pos rest,
  (forall e, (esize e <= esize l)%nat -> expr_wf e -> reads_level e) -> expr_wf l ->
  view pos = print m l ++ rest -> stops (S m) rest -> (length (view pos) <= f)%nat ->
  in_loop m (parse_expr tokens f) l pos rest.
Proof.
  intros Hm. induction l; intros pos rest IH Hwf E Hs Hf;
    try (apply in_loop_operand; [done|by apply IH| |done|done]; rewrite E; f_equal;
         apply print_level_S; simpl; lia).
  destruct (decide (binop_level op = m)) as [<-|Hne].
  - cbn [EvaluatorFacts.print level] in E. rewrite Nat.ltb_irrefl in E. cbn [parens] in E.
    rewrite <- app_assoc in E. cbn [app] in E. inversion Hwf; subst.
    assert (Hf' : (length (print (S (binop_level op)) l2 ++ rest) <= f)%nat).
    { rewrite E in Hf. rewrite length_app in Hf. simpl in Hf. lia. }
    apply in_loop_step; [|apply IH; [simpl; lia|done]|done|done].
    apply IHl1; try done.
    + intros e He. apply IH. simpl. lia.
    + simpl. rewrite token_level_binop. lia.
  - apply in_loop_operand; [done|by apply IH| |done|done]. rewrite E. f_equal.
    by apply print_level_S.
Qed.

Lemma own_of_binop op l r :
  expr_wf (BinOp op l r) ->
  (forall e, (esize e < esize (BinOp op l r))%nat -> expr_wf e -> reads_level e) ->
  reads_own (BinOp op l r).
Proof.
  intros Hwf IH f pos rest _ E Hs Hf. cbn [level] in *. pose proof (binop_level_bound op) as Hm.
  cbn [EvaluatorFacts.print level] in E. rewrite Nat.ltb_irrefl in E. cbn [parens] in E.
  rewrite <- app_assoc in E. cbn [app] in E. inversion Hwf; subst.
  assert (L : in_loop (binop_level op) (parse_expr tokens f) (BinOp op l r) pos rest).
  { apply in_loop_step.
    - apply in_loop_spine; [done| |done|done| |done].
      + intros e He. apply IH. simpl. lia.
      + simpl. rewrite token_level_binop. lia.
    - apply IH; [simpl; lia|done].
    - by eapply stops_le; [|done]; lia.
    - rewrite E in Hf. rewrite length_app in Hf. simpl in Hf. lia. }
  destruct L as (fuel & p & Hfuel & Ev & El).
  destruct (loop_stops tokens fuel (binop_level op) (lev (parse_expr tokens f) (S (binop_level op)))
    (BinOp op l r) p rest) as (p' & Ep & Ev'); [done|lia|done|done|].
  exists p'. rewrite lev_binary by done. by rewrite El.
Qed.

Definition reads_unary (e : expr) : Prop :=
  forall f k pos rest, view pos = print 7 e ++ rest -> stops 7 rest ->
    (length (view pos) <= f)%nat -> (length (view pos) < k)%nat ->
    runs (parse_unary tokens (parse_expr tokens f) k) pos e rest.

Lemma unary_of_level e : level e <> 7%nat -> reads_level e -> reads_unary e.
Proof.
  intros Hne Hl f k pos rest E Hs Hf Hk. destruct k as [|k]; [lia|].
  rewrite print_level_S in E by done.
  assert (Hx : exists x l, print 8 e = x :: l /\ fst (fst x) <> BANG /\ fst (fst x) <> MINUS).
  { destruct (decide (level e = 8%nat)) as [E8|]; [by apply print_head8|].
    pose proof (level_bound e). rewrite print_level_lt by lia. by eexists _, _. }
  destruct Hx as (x & l & Ex & H1 & H2).
  assert (R : runs (parse_primary tokens (parse_expr tokens f)) pos e rest).
  { apply (Hl 8%nat); [lia|done|by eapply stops_le; [|done]; lia|done]. }
  rewrite Ex in E. cbn [app] in E. cbn [parse_unary].
  destruct (view_cons _ _ _ _ E) as (t & Et & Ht & _).
  destruct R as (p & Ep & Ev). exists p. split; [|done].
  unfold p_bind, current. rewrite Et. subst x. simpl in H1, H2.
  by rewrite !bool_decide_eq_false_2.
Qed.

Lemma unary_of_unary op e : reads_unary e -> reads_unary (Unary op e).
Proof.
  intros He f k pos rest E Hs Hf Hk. destruct k as [|k]; [lia|]. cbn [parse_unary].
  destruct (print_head lit 7 e) as (x & l & Ex & _).
  assert (step : forall b p, view p = view pos -> view pos = op_lex b :: print 7 e ++ rest ->
    runs (advance tokens ;! let! e := parse_unary tokens (parse_expr tokens f) k in
          p_ret (Unary op e)) p (Unary op e) rest).
  { intros b p Ep E'. rewrite E' in Ep, Hf, Hk. simpl in Hf, Hk.
    rewrite Ex in Ep. cbn [app] in Ep. destruct (runs_advance _ _ _ _ _ Ep) as (t & _ & R).
    eapply runs_bind; [exact R|]. intros p2 Ev.
    eapply runs_bind; [apply He; [by rewrite Ex|done|..]; rewrite Ev; rewrite Ex in *; simpl in *; lia|].
    intros. by apply runs_ret. }
  destruct op; cbn in E;
    (destruct (runs_current _ _ _ _ E) as (t & Ht & R); eapply runs_bind; [exact R|];
     intros p Ev; injection Ht as Ht _ _; rewrite Ht; cbn beta).
  - rewrite bool_decide_eq_true_2 by done. by eapply (step BANG); [congruence|].
  - rewrite bool_decide_eq_false_2, bool_decide_eq_true_2 by done.
    by eapply (step MINUS); [congruence|].
Qed.

Lemma reads_unary_all e :
  (forall e', (esize e' <= esize e)%nat -> expr_wf e' -> level e' <> 7%nat -> reads_level e') ->
  expr_wf e -> reads_unary e.
Proof.
  induction e; intros IH Hwf;
    try (assert (level (BinOp op e1 e2) <> 7%nat) by (pose proof (binop_level_bound op); simpl; lia));
    try (apply unary_of_level; [done|by apply IH]; fail).
  inversion Hwf; subst. apply unary_of_unary, IHe; [|done].
  intros e' He'. apply IH. simpl. lia.
Qed.

Lemma own_of_unary op e :
  expr_wf e ->
  (forall e', (esize e' <= esize e)%nat -> expr_wf e' -> reads_level e') ->
  reads_own (Unary op e).
Proof.
  intros Hwf IH f pos rest _ E Hs Hf. cbn [level lev] in *.
  apply unary_of_unary; [|done..|by apply view_fuel].
  apply reads_unary_all; [|done]. intros e' He' We' _. by apply IH.
Qed.

Lemma ternary_of_ternary c t o :
  reads_level c -> reads_ternary t -> reads_ternary o -> reads_ternary (Ternary c t o).
Proof.
  intros Hc Ht Ho f k pos rest E Hs Hf Hk. destruct k as [|k]; [lia|].
  cbn [EvaluatorFacts.print level] in E. cbn [Nat.ltb Nat.leb parens] in E.
  rewrite <- app_assoc in E. cbn [app] in E. rewrite <- app_assoc in E. cbn [app] in E.
  assert (L := Hf). rewrite E in L, Hk. rewrite length_app in L, Hk. simpl in L, Hk.
  rewrite length_app in L, Hk. simpl in L, Hk. rewrite length_app in L, Hk.
  destruct (print_head lit 0 t) as (xt & lt & Et & _).
  destruct (print_head lit 0 o) as (xo & lo & Eo & _).
  cbn [parse_ternary].
  eapply runs_bind; [apply (Hc 1%nat f); [lia|exact E|simpl; lia|done]|]. intros p1 Ev1.
  rewrite Et in Ev1. cbn [app] in Ev1. radv. cbn [op_lex fst]. rewrite bool_decide_eq_true_2 by done.
  radv. eapply runs_bind.
  { destruct f as [|f]; [lia|]. apply reads_expr; [exact Ht|rewrite Et; cbn [app]; eassumption|by apply stops_none|].
    match goal with Ev : view ?p = _ |- (length (view ?p) < _)%nat => rewrite Ev end.
    rewrite Et in L. simpl in *. rewrite !length_app. simpl. rewrite !length_app in *. lia. }
  intros p2 Ev2. rewrite Eo in Ev2. cbn [app] in Ev2. radv.
  eapply runs_bind; [|intros; by apply runs_ret].
  apply Ho; [by rewrite Eo|done|..];
    match goal with Ev : view ?p = _ |- (length (view ?p) <= _)%nat => rewrite Ev
                  | Ev : view ?p = _ |- (length (view ?p) < _)%nat => rewrite Ev end;
    rewrite Eo in *; simpl in *; rewrite ?length_app in *; lia.
Qed.

Lemma own_of_call fn args :
  expr_wf (ElementCall fn args) ->
  (forall e, (esize e < esize (ElementCall fn args))%nat -> expr_wf e -> reads_ternary e) ->
  reads_own (ElementCall fn args).
Proof.
  intros Hwf IH. inversion Hwf as [| | |fn' args' Ha Hargs| | | | | |]; subst.
  apply own_of_primary; [done|]. intros f pos rest E Hr Hf.
  destruct rest as [|y rest]; [done|].
  destruct (element_name _ _ Ha) as (_ & _ & _ & Hk).
  destruct args as [|a [|b args]]; [| |simpl in Hk; lia].
  - by apply primary_call0.
  - apply Forall_cons in Hargs as [Hwa _]. cbn in E. rewrite app_nil_r in E.
    rewrite <- !app_assoc in E. cbn [app] in E.
    destruct (print_head lit 0 a) as (x & l & Ex & Hx).
    apply (primary_call1 tokens _ pos fn a (print 0 a) x); [done|exact E|by rewrite Ex|done|].
    intros p Ev. apply reads_expr; [apply IH; [simpl; lia|done]|done|by apply stops_none|].
    rewrite Ev. rewrite E in Hf. simpl in Hf. lia.
Qed.

Lemma own_of_aggregate fn e :
  fn ∈ AGG_FUNCS -> reads_ternary e -> reads_own (Aggregate fn e).
Proof.
  intros Hfn He. apply own_of_primary; [done|]. intros f pos rest E Hr Hf.
  destruct rest as [|y rest]; [done|]. cbn in E. rewrite <- app_assoc in E. cbn [app] in E.
  apply (primary_aggregate tokens _ pos fn e (print 0 e)); [done|exact E|apply print_nonempty|].
  intros p Ev. apply reads_expr; [done|done|by apply stops_none|].
  rewrite Ev. rewrite E in Hf. simpl in Hf. lia.
Qed.

Lemma reads_all n e :
  (esize e < n)%nat -> expr_wf e -> reads_level e /\ reads_ternary e.
Proof.
  revert e; induction n as [|n IH]; intros e Hn Hwf; [lia|].
  assert (IHl : forall e', (esize e' < esize e)%nat -> expr_wf e' -> reads_level e')
    by (intros; apply IH; [lia|done]).
  assert (IHt : forall e', (esize e' < esize e)%nat -> expr_wf e' -> reads_ternary e')
    by (intros; apply IH; [lia|done]).
  assert (Ho : (1 <= level e)%nat -> reads_own e).
  { intros Hl. destruct e; inversion Hwf; subst; cbn [level] in Hl; try lia.
    4: by apply own_of_call.
    6: { apply own_of_aggregate; [done|]. apply IHt; [simpl; lia|done]. }
    6: { apply own_of_unary; [done|]. intros. apply IHl; [simpl; lia|done]. }
    6: by apply own_of_binop.
    all: apply own_of_primary; [done|]; intros f pos [|y rest] E Hr Hf; [done|]; cbn in E.
    - by eapply primary_number.
    - by apply primary_string.
    - exact (primary_tag tokens _ pos _ _ _ E).
    - by apply (primary_count tokens _ pos _ _ _).
    - by apply (primary_named_count tokens _ pos _ _ _ _). }
  assert (Ht : reads_ternary e).
  { destruct (decide (level e = 0%nat)) as [E0|].
    - destruct e; try done; [destruct op; done|]. inversion Hwf; subst. simpl in IHl, IHt.
      apply ternary_of_ternary; [apply IHl|apply IHt|apply IHt]; (done || lia).
    - apply ternary_of_own; [lia|]. apply Ho. lia. }
  split; [by apply level_of_ternary|done].
Qed.

Lemma program_reads e eof :
  expr_wf e -> fst (fst eof) = EOF -> view 0%nat = print 0 e ++ [eof] ->
  exists p, parse_program tokens 0%nat = Ok (e, p).
Proof.
  intros Hwf He E. destruct (reads_all (S (esize e)) e) as [_ Ht]; [lia|done|].
  enough (R : runs (parse_program tokens) 0%nat e [eof]) by (destruct R as (p & R & _); by exists p).
  unfold parse_program. eapply runs_bind.
  - apply reads_expr; [done|exact E| |apply view_fuel]. apply stops_none. by rewrite He.
  - intros p Ev. eapply runs_bind; [by eapply runs_check|]. intros p2 Ev2.
    cbn beta. rewrite bool_decide_eq_true_2 by done. by apply runs_ret.
Qed.
End ReadBack.

(** * The tokenizer reads the printed text back *)
Section Lex.
Context `{UnicodeDB}.

(** [x], written and followed by a space, is one step of the tokenizer. *)
Definition lexes (x : lexeme) : Prop :=
  forall text i rest, drop i text = snd (fst x) ++ 32 :: rest ->
    exists c, text !! i = Some c /\
      lex_step text i c =
        Ok (Some (mkEtoken (fst (fst x)) (snd (fst x)) (snd x) i), (i + length (snd (fst x)))%nat).

Lemma slice_take text i s rest :
  drop i text = s ++ rest -> slice text i (i + length s) = s.
Proof.
  intros E. unfold slice. rewrite E. replace (i + length s - i)%nat with (length s) by lia.
  by rewrite take_app_length.
Qed.

Lemma scan_while_app p text i a s rest :
  drop i text = a ++ s ++ rest -> Forall (fun c => p c = true) s ->
  match rest with [] => True | c :: _ => p c = false end ->
  scan_while p text (i + length a) = (i + length a + length s)%nat.
Proof.
  intros E Hs Hr. unfold scan_while. rewrite <- drop_drop, E, drop_app_length.
  f_equal. clear E. induction Hs as [|c s Hc Hs IH]; simpl.
  - destruct rest; [done|]. simpl. by rewrite Hr.
  - by rewrite Hc, IH.
Qed.

Lemma single_op_Some c ty :
  single_op c = Some ty -> c ∈ [60; 62; 33; 45; 63; 58; 40; 41; 91; 93; 44; 46; 43; 42; 47].
Proof.
  intros E. unfold single_op, single_char in E.
  repeat (case_match; try discriminate); repeat (left || right); done.
Qed.

(** A character that starts neither blank, string nor operator. *)
Definition word_start (c : Z) : Prop :=
  c = 95 \/ 48 <= c <= 57 \/ 65 <= c <= 90 \/ 97 <= c <= 122 \/ 128 <= c.

Lemma single_op_word c : word_start c -> single_op c = None.
Proof.
  intros Hw. destruct (single_op c) eqn:E; [|done]. exfalso.
  apply single_op_Some in E. unfold word_start in Hw.
  repeat (apply elem_of_cons in E as [->|E]; [lia|]). by apply elem_of_nil in E.
Qed.

Lemma neq_eqb c k : c <> k -> (c =? k) = false.
Proof. apply Z.eqb_neq. Qed.

Lemma double_op_word text i c : word_start c -> double_op text i c = None.
Proof.
  unfold word_start. intros Hw. unfold double_op.
  rewrite !neq_eqb by lia. done.
Qed.

Lemma lex_step_word text i c :
  word_start c ->
  lex_step text i c =
    if starts_number text i c then
      let j := number_end text i in
      let* v := py_float (slice text i j) in
      Ok (Some (mkEtoken NUMBER (slice text i j) (VNum v) i), j)
    else if py_isalpha c || (c =? 95) then
      let j := scan_while is_ident_char text (S i) in
      Ok (Some (mkEtoken IDENT (slice text i j) (VStr (slice text i j)) i), j)
    else Raise (eval_error (u "unexpected character " ++ py_repr [c] ++ u " in expression")).
Proof.
  intros Hw. unfold lex_step. rewrite double_op_word, single_op_word by done.
  unfold word_start in Hw. rewrite !neq_eqb by lia.
  done.
Qed.

Lemma py_isdigit_ascii c : ascii_digit c = true -> py_isdigit c = true.
Proof.
  intros Hc. unfold py_isdigit. apply ascii_digit_spec in Hc as Hb.
  by destruct (Z.ltb_spec c 128); [|lia].
Qed.

Lemma lexes_ident s : ident_ok s -> lexes (id_lex s).
Proof.
  intros (c & s' & -> & Hd & Ha & Hs) text i rest E. cbn [id_lex fst snd app] in *.
  exists c. split; [by eapply lookup_skipn_head|].
  assert (Hw : word_start c).
  { unfold word_start. unfold py_isalpha, ascii_alpha in Ha. destruct (Z.ltb_spec c 128); [|lia].
    bool_to_prop. lia. }
  rewrite lex_step_word by done.
  assert (starts_number text i c = false) as ->.
  { unfold starts_number. rewrite Hd. unfold word_start in Hw. by rewrite neq_eqb by lia. }
  rewrite Ha. cbv zeta.
  assert (Hj : scan_while is_ident_char text (S i) = (i + length (c :: s'))%nat).
  { rewrite <- Nat.add_1_r. change 1%nat with (length [c]).
    rewrite (scan_while_app _ text i [c] s' (32 :: rest)); [simpl; lia|exact E|done|done]. }
  rewrite Hj, (slice_take text i (c :: s') (32 :: rest)) by exact E. done.
Qed.

Lemma drop_lookup (text a : pystr) i c r :
  drop i text = a ++ c :: r -> text !! (i + length a)%nat = Some c.
Proof. intros E. rewrite <- lookup_drop, E. by apply list_lookup_middle. Qed.

Lemma literal_number_end text i ip fp rest :
  drop i text = literal_text ip fp ++ 32 :: rest -> all_digits ip -> all_digits fp ->
  number_end text i = (i + length (literal_text ip fp))%nat.
Proof.
  intros E Hi Hf. unfold number_end, literal_text in *.
  assert (D : forall s, all_digits s -> Forall (fun c => py_isdigit c = true) s).
  { intros s Hs. eapply Forall_impl; [exact Hs|]. intros c Hc. by apply py_isdigit_ascii. }
  assert (Hj : scan_while py_isdigit text i = (i + length ip)%nat).
  { rewrite <- (Nat.add_0_r i) at 1. change 0%nat with (@length Z []).
    rewrite (scan_while_app py_isdigit text i [] ip
      ((if fp is [] then [] else 46 :: fp) ++ 32 :: rest)); [simpl; lia| |by apply D|by destruct fp].
    by rewrite E, <- app_assoc. }
  rewrite Hj. unfold point_digit. destruct fp as [|d fp].
  -  rewrite app_nil_r in *. rewrite (drop_lookup _ _ _ _ _ E). by destruct (text !! S _).
  - rewrite <- app_assoc in E. cbn [app] in E. rewrite (drop_lookup _ _ _ _ _ E).
    change (46 :: d :: fp ++ 32 :: rest) with ([46] ++ d :: fp ++ 32 :: rest) in E.
    rewrite app_assoc in E. pose proof (drop_lookup _ _ _ _ _ E) as E2.
    rewrite length_app, Nat.add_assoc in E2. simpl in E2. rewrite Nat.add_1_r in E2. rewrite E2.
    apply Forall_cons in Hf as Hd. destruct Hd as [Hd _].
    rewrite py_isdigit_ascii by done. cbn [Z.eqb Pos.eqb andb].
    replace (S (i + length ip)) with (i + length (ip ++ [46%Z]))%nat
      by (rewrite length_app; simpl; lia).
    rewrite (scan_while_app py_isdigit text i (ip ++ [46]) (d :: fp) (32 :: rest));
      [rewrite !length_app; simpl; lia|exact E|by apply D|done].
Qed.

Lemma lexes_number lit v : lit_ok lit v -> lexes (NUMBER, lit v, VNum v).
Proof.
  intros (ip & fp & El & Hi & Hf & Hne & Hv) text i rest E. cbn [fst snd] in *.
  rewrite El in E. pose proof (literal_number_end _ _ _ _ _ E Hi Hf) as Hend.
  destruct ip as [|c ip]; [done|]. exists c.
  pose proof Hi as [Hc _]%Forall_cons. assert (Hb := proj1 (ascii_digit_spec c) Hc).
  assert (E0 := E). unfold literal_text in E0. cbn [app] in E0.
  split; [by eapply lookup_skipn_head|].
  rewrite lex_step_word by (unfold word_start; lia).
  unfold starts_number. rewrite py_isdigit_ascii by done. cbn [orb]. cbv zeta.
  rewrite Hend, (slice_take _ _ _ _ E), <- El, Hv. done.
Qed.

Lemma eread_string_loop_quote s rest fuel text j out :
  drop j text = flat_map eescape_char s ++ 34 :: rest -> (length s < fuel)%nat ->
  read_string_loop fuel text 34 j out =
    Ok (rev out ++ s, (j + length (flat_map eescape_char s) + 1)%nat).
Proof.
  revert fuel j out; induction s as [|c s IH]; intros fuel j out Hs Hf;
    (destruct fuel as [|f]; [simpl in Hf; lia|]); cbn [read_string_loop].
  - rewrite (lookup_skipn_head _ _ _ _ Hs). simpl. rewrite app_nil_r. do 2 f_equal. lia.
  - assert (Hf' : (length s < f)%nat) by (simpl in Hf; lia).
    cbn [flat_map] in *. unfold eescape_char in Hs at 1. unfold eescape_char at 1.
    destruct ((c =? 34) || (c =? 92)) eqn:Ec; cbn [app] in Hs.
    + rewrite (lookup_skipn_head _ _ _ _ Hs), (lookup_skipn_head _ _ (S j) _ (skipn_tail _ _ _ _ Hs)).
      cbn [Z.eqb Pos.eqb]. assert (default c (escapes c) = c) as ->.
      { apply orb_true_iff in Ec as [->%Z.eqb_eq| ->%Z.eqb_eq]; done. }
      rewrite IH; [|by rewrite <- drop_drop, Hs|done].
      simpl. rewrite <- app_assoc. do 2 f_equal. lia.
    + rewrite (lookup_skipn_head _ _ _ _ Hs). apply orb_false_iff in Ec as [-> ->].
      rewrite IH; [|by apply skipn_tail in Hs|done]. simpl. rewrite <- app_assoc. do 2 f_equal. lia.
Qed.

Lemma flat_map_escape_length s : (length s <= length (flat_map eescape_char s))%nat.
Proof.
  induction s as [|c s IH]; simpl; [lia|]. rewrite length_app. unfold eescape_char at 1.
  case_match; simpl; lia.
Qed.

Lemma lexes_string s : lexes (str_lex s).
Proof.
  intros text i rest E. cbn [str_lex fst snd] in *. exists 34.
  assert (E0 : text !! i = Some 34) by (unfold equote in E; by eapply lookup_skipn_head).
  split; [done|]. unfold lex_step. cbn [Z.eqb Pos.eqb orb].
  assert (Er : read_string text i = Ok (s, (i + length (equote s))%nat)).
  { unfold read_string. rewrite E0. unfold equote in E. cbn [app] in E.
    apply skipn_tail in E. rewrite <- app_assoc in E. cbn [app] in E.
    rewrite (eread_string_loop_quote s (32 :: rest)); [|done|].
    - unfold equote. simpl. rewrite length_app. simpl. do 2 f_equal. lia.
    - pose proof (flat_map_escape_length s). apply (f_equal length) in E.
      rewrite length_drop, length_app in E. lia. }
  rewrite Er. cbn [res_bind]. by rewrite (slice_take _ _ _ _ E).
Qed.

Lemma lexes_op t : t <> NUMBER -> t <> STRING -> t <> IDENT -> t <> EOF -> lexes (op_lex t).
Proof.
  intros H1 H2 H3 H4 text i rest E. cbn [op_lex fst snd] in *.
  destruct t; try done; cbn in E;
    pose proof (lookup_skipn_head _ _ _ _ E) as E0; pose proof (skipn_tail _ _ _ _ E) as E';
    pose proof (lookup_skipn_head _ _ _ _ E') as E1;
    eexists; (split; [exact E0|]); unfold lex_step, double_op, next_is; rewrite E1; cbn;
    try done; rewrite ?Nat.add_1_r; done.
Qed.

Lemma tokenize_join ls fuel text i :
  Forall lexes ls -> drop i text = join_lexemes ls -> (length (join_lexemes ls) < fuel)%nat ->
  exists toks, tokenize_loop fuel text i = Ok toks /\ map strip toks = ls ++ [(EOF, [], VNone)].
Proof.
  intros Hl. revert fuel i; induction Hl as [|x ls Hx Hl IH]; intros fuel i E Hf;
    (destruct fuel as [|f]; [simpl in Hf; lia|]); cbn [tokenize_loop].
  - assert (text !! i = None) as ->.
    { apply lookup_ge_None. apply (f_equal length) in E. rewrite length_drop in E. simpl in E. lia. }
    eexists. by split.
  - cbn [join_lexemes flat_map] in E, Hf. fold (join_lexemes ls) in E, Hf.
    rewrite <- app_assoc in E. cbn [app] in E.
    assert (Hne : snd (fst x) <> []).
    { intros E0. destruct (Hx _ _ _ E) as (c & Ec & El). rewrite E0 in E. cbn [app] in E.
      rewrite (lookup_skipn_head _ _ _ _ E) in Ec. injection Ec as <-. done. }
    destruct (Hx _ _ _ E) as (c & -> & ->). cbn [res_bind].
    rewrite !length_app in Hf. simpl in Hf.
    assert (1 <= length (snd (fst x)))%nat by (destruct (snd (fst x)); [done|simpl; lia]).
    destruct f as [|f]; [lia|]. cbn [tokenize_loop].
    pose proof (drop_lookup _ _ _ _ _ E) as Es. rewrite Es. cbn [lex_step Z.eqb Pos.eqb orb res_bind].
    unfold lex_step. cbn [Z.eqb Pos.eqb orb res_bind].
    destruct (IH f (S (i + length (snd (fst x))))) as (toks & -> & Et).
    + rewrite <- Nat.add_1_r, <- !drop_drop, E, drop_app_length. done.
    + lia.
    + cbn [res_bind]. eexists. split; [done|]. simpl. rewrite Et. by destruct x as [[??]?].
Qed.

Lemma table_idents : Forall ident_ok (TYPE_KEYWORDS ++ AGG_FUNCS ++ [u "t"; u "count"]).
Proof.
  repeat (apply Forall_cons; split;
    [eexists _, _; split; [reflexivity|split_and!; [done|done|]]; repeat constructor|]).
  constructor.
Qed.

Lemma element_ident f k : element_func_arity f = Some k -> ident_ok f.
Proof.
  unfold element_func_arity. intros E.
  repeat case_match; simplify_eq;
    match goal with H : str_in _ _ = true |- _ => apply str_in_spec in H; revert H end;
    rewrite !elem_of_cons, elem_of_nil; intros; repeat destruct_or!; subst; try done;
    (eexists _, _; split; [reflexivity|split_and!; [done|done|]]; repeat constructor).
Qed.

Lemma lexes_table f : f ∈ TYPE_KEYWORDS ++ AGG_FUNCS ++ [u "t"; u "count"] -> lexes (id_lex f).
Proof. intros Hf. apply lexes_ident. by eapply Forall_forall; [apply table_idents|]. Qed.
Lemma lexes_type f : f ∈ TYPE_KEYWORDS -> lexes (id_lex f).
Proof. intros Hf. apply lexes_table, elem_of_app. by left. Qed.
Lemma lexes_agg f : f ∈ AGG_FUNCS -> lexes (id_lex f).
Proof. intros Hf. apply lexes_table. rewrite !elem_of_app. auto. Qed.
Lemma lexes_t : lexes (id_lex (u "t")).
Proof. apply lexes_table. rewrite !elem_of_app. right; right. by left. Qed.
Lemma lexes_count : lexes (id_lex (u "count")).
Proof. apply lexes_table. rewrite !elem_of_app. right; right. by right; left. Qed.

Ltac lexes_all :=
  repeat first
    [ apply Forall_nil_2 | apply Forall_cons_2 | apply Forall_app_2
    | apply lexes_op; discriminate | apply lexes_string | apply lexes_t | apply lexes_count
    | by apply lexes_type | by apply lexes_agg | by apply lexes_number | by apply lexes_ident ].

Lemma lexes_parens b ls : Forall lexes ls -> Forall lexes (parens b ls).
Proof. intros Hl. destruct b; [|done]. cbn [parens]. lexes_all. done. Qed.

Lemma print_lexes lit n e :
  (esize e < n)%nat -> expr_wf e -> printable lit e -> forall k, Forall lexes (print lit k e).
Proof.
  revert e; induction n as [|n IH]; intros e Hn Hwf Hp k; [lia|].
  destruct e; inversion Hwf as [| | |f args' Ha Hargs| | | | | |]; subst;
    cbn [printable] in Hp; cbn [print]; apply lexes_parens; cbn [esize] in Hn.
  - lexes_all.
  - lexes_all.
  - lexes_all.
  - destruct (element_name _ _ Ha) as (_ & _ & _ & Hk).
    destruct args as [|a [|b args]]; [| |simpl in Hk; lia]; cbn [map sep_args flat_map];
      lexes_all; try (by eapply lexes_ident, element_ident).
    apply Forall_cons in Hargs as [Ha1 _]. simpl in Hn, Hp. apply IH; [lia|done|tauto].
  - lexes_all.
  - lexes_all.
  - lexes_all. apply IH; [lia|done|done].
  - destruct op; lexes_all; (apply IH; [lia|done|done]).
  - destruct Hp. lexes_all; [apply IH; (lia || done)|destruct op; by apply lexes_op|apply IH; (lia || done)].
  - destruct Hp as (? & ? & ?). lexes_all; apply IH; (lia || done).
Qed.
End Lex.

(** * The round trip *)

(** C2: [parse] is a left inverse of the precedence-aware printer.  For every
    expression the grammar can denote (table names, arities, identifiers as
    set names) and every way of writing numbers that the tokenizer reads
    back, parsing the printed text gives the expression itself: operators
    associate to the left, the six binary levels, the unary level and the
    ternary bind as documented, and no other tree has the same text. *)
Theorem evaluator_parse_unparse `{UnicodeDB} (lit : pyfloat -> pystr) (e : expr) :
  expr_wf e -> printable lit e -> Evaluator.parse (unparse lit e) = Ok e.
Proof.
  intros Hwf Hp. unfold Evaluator.parse, Evaluator.tokenize, unparse.
  destruct (tokenize_join (print lit 0 e) (S (length (join_lexemes (print lit 0 e))))
    (join_lexemes (print lit 0 e)) 0) as (toks & -> & Et); [|done|lia|].
  { by eapply print_lexes; [apply Nat.lt_succ_diag_r|..]. }
  cbn [res_bind].
  destruct (program_reads lit toks e (EOF, [], VNone)) as (p & ->); [done|done| |done].
  by unfold view; rewrite drop_0.
Qed.

(** The literal of a natural number. *)
Definition nat_lit (v : pyfloat) : pystr :=
  match int_of_float v with Ok n => str_of_nonneg n | Raise _ => [] end.

Theorem evaluator_parse_unparse_witness :
  let e := Ternary (BinOp BAnd (BinOp BLt (Num (float_of_Z 2)) (BinOp BSub (ElementCall (u "id") [])
             (BinOp BSub (NamedSetCount (u "a") (u "ways")) (Unary UNeg (Num (float_of_Z 7))))))
             (ElementCall (u "is_tag") [Str (u "name")])) (TagAccess (u "highway"))
             (Aggregate (u "max") (ElementCall (u "version") [])) in
  unparse nat_lit e =
    u "2 < id ( ) - ( . a . count ( ways ) - - 7 ) && is_tag ( " ++ [34] ++ u "name" ++ [34] ++
    u " ) ? t [ " ++ [34] ++ u "highway" ++ [34] ++ u " ] : max ( version ( ) ) "
  /\ Evaluator.parse (H:=latin1_db) (unparse nat_lit e) = Ok e.
Proof.
  cbv zeta. split; [vm_compute; reflexivity|].
  apply (evaluator_parse_unparse (H:=latin1_db)).
  - repeat constructor; apply str_in_spec; reflexivity.
  - assert (L : forall n, 0 <= n < 100 -> lit_ok (H:=latin1_db) nat_lit (float_of_Z n)); [|].
    + intros n Hn. exists (str_of_nonneg n), [].
      destruct (str_of_nonneg_spec n) as (H1 & H2 & H3); [lia|].
      unfold nat_lit. rewrite int_of_float_of_Z by lia. unfold literal_text. rewrite app_nil_r.
      split_and!; try done; [constructor|]. apply py_float_nat_exact. lia.
    + cbn [printable fold_right]. split_and!; try exact I; try (apply L; lia).
      eexists _, _; split; [reflexivity|]; split_and!; [reflexivity|reflexivity|constructor].
Defined.
