(* ===== verification/SqlText.v ===== *)
(** String literals in generated SQL: a reader for the single-quoted literals
    of a text, and the fact that doubling the quotes of a value makes it a
    literal that reads back as the value. *)
From S2P Require Import Prelude PyStr.

(** [s.replace("'", "''")] *)
Definition double_quotes (s : pystr) : pystr := replace_char 39 [39; 39] s.

(** The values of the literals of a text, in order; [lit] is the literal being
    read, reversed.  [None]: the last literal is not closed. *)
Fixpoint sql_scan (s : pystr) (lit : option pystr) : option (list pystr) :=
  match s, lit with
  | [], None => Some []
  | [], Some _ => None
  | c :: s', None => sql_scan s' (if c =? 39 then Some [] else None)
  | c :: s', Some acc =>
      if c =? 39 then
        match s' with
        | d :: s'' => if d =? 39 then sql_scan s'' (Some (39 :: acc))
                      else cons (rev acc) <$> sql_scan s' None
        | [] => cons (rev acc) <$> sql_scan s' None
        end
      else sql_scan s' (Some (c :: acc))
  end.
Definition sql_literals (s : pystr) : option (list pystr) := sql_scan s None.

Definition no_quote (s : pystr) : bool := forallb (fun c => negb (c =? 39)) s.

Lemma sql_scan_skip s t : no_quote s = true -> sql_scan (s ++ t) None = sql_scan t None.
Proof.
  induction s as [|c s IH]; [done|]. cbn [no_quote forallb app sql_scan].
  intros [Hc Hs]%andb_prop. apply negb_true_iff in Hc. rewrite Hc. by apply IH.
Qed.

Lemma sql_scan_inside v acc c t :
  (c =? 39) = false ->
  sql_scan (double_quotes v ++ 39 :: c :: t) (Some acc) =
    cons (rev acc ++ v) <$> sql_scan (c :: t) None.
Proof.
  intros Hc. revert acc. induction v as [|d v IH]; intros acc.
  - cbn [double_quotes replace_char map concat app]. cbn [sql_scan]. rewrite Hc.
    replace (39 =? 39) with true by done. by rewrite app_nil_r.
  - unfold double_quotes, replace_char in *. cbn [map concat]. rewrite <- app_assoc.
    destruct (d =? 39) eqn:E.
    + apply Z.eqb_eq in E as ->. cbn [app]. cbn [sql_scan].
      replace (39 =? 39) with true by done. rewrite IH. cbn [rev]. by rewrite <- app_assoc.
    + cbn [app]. cbn [sql_scan]. rewrite E, IH. cbn [rev]. by rewrite <- app_assoc.
Qed.

(** A quoted value followed by something other than a quote. *)
Lemma sql_scan_literal v c t :
  (c =? 39) = false ->
  sql_scan (39 :: double_quotes v ++ 39 :: c :: t) None = cons v <$> sql_scan (c :: t) None.
Proof. intros Hc. cbn [sql_scan]. replace (39 =? 39) with true by done. by rewrite sql_scan_inside. Qed.
Lemma sql_scan_literal_end v :
  sql_scan (39 :: double_quotes v ++ [39]) None = Some [v].
Proof.
  cbn [sql_scan]. replace (39 =? 39) with true by done.
  enough (forall acc, sql_scan (double_quotes v ++ [39]) (Some acc) = Some [rev acc ++ v]) as -> by done.
  induction v as [|d v IH]; intros acc.
  - cbn. by rewrite app_nil_r.
  - unfold double_quotes, replace_char in *. cbn [map concat]. rewrite <- app_assoc.
    destruct (d =? 39) eqn:E.
    + apply Z.eqb_eq in E as ->. cbn [app]. cbn [sql_scan].
      replace (39 =? 39) with true by done. rewrite IH. cbn [rev]. by rewrite <- app_assoc.
    + cbn [app]. cbn [sql_scan]. rewrite E, IH. cbn [rev]. by rewrite <- app_assoc.
Qed.
