(* ===== verification/Json.v ===== *)
(** Plain JSON data as Python sees it: [None], booleans, integers, floats,
    strings, lists and insertion-ordered dictionaries, with the dictionary and
    iteration operations of untyped code (which raise on the wrong shape), and
    the interface of the [json] module.

    A concrete, injective encoding of JSON values as ASCII text: it satisfies
    the interface of the [json] module and instantiates it in the witnesses.
    (Its text is not JSON; only the laws matter to the theorems.)

    Facts about text: UTF-8 decodes what it encodes, and universal newlines do
    not change the lines of a text. *)
From stdpp Require Import countable.
From S2P Require Import Prelude PyStr PyFloat.

Inductive json : Type :=
  | JNull
  | JBool (b : bool)
  | JInt (z : Z)
  | JFloat (f : pyfloat)
  | JStr (s : pystr)
  | JList (l : list json)
  | JObj (l : list (pystr * json)).

(** * Association lists as insertion-ordered dictionaries *)
Section Dict.
Context {A : Type}.

Fixpoint dict_get (k : pystr) (d : list (pystr * A)) : option A :=
  match d with
  | [] => None
  | (k', v) :: d' => if k' =s k then Some v else dict_get k d'
  end.

(** [d[k] = v]: an existing key keeps its place. *)
Fixpoint dict_set (k : pystr) (v : A) (d : list (pystr * A)) : list (pystr * A) :=
  match d with
  | [] => [(k, v)]
  | (k', v') :: d' => if k' =s k then (k', v) :: d' else (k', v') :: dict_set k v d'
  end.

(** [d.pop(k, None)] *)
Fixpoint dict_pop (k : pystr) (d : list (pystr * A)) : list (pystr * A) :=
  match d with
  | [] => []
  | (k', v') :: d' => if k' =s k then dict_pop k d' else (k', v') :: dict_pop k d'
  end.

Lemma dict_get_set k k' v d :
  dict_get k (dict_set k' v d) = if k' =s k then Some v else dict_get k d.
Proof.
  induction d as [|[k0 v0] d IH]; simpl; [done|].
  destruct (k0 =s k') eqn:E0; simpl.
  - apply str_eqb_eq in E0 as ->. by destruct (k' =s k).
  - rewrite IH. destruct (k0 =s k) eqn:E1, (k' =s k) eqn:E2; try done.
    apply str_eqb_eq in E1 as ->. apply str_eqb_eq in E2 as ->. by rewrite str_eqb_refl in E0.
Qed.

Lemma dict_get_pop k k' d :
  dict_get k (dict_pop k' d) = if k' =s k then None else dict_get k d.
Proof.
  induction d as [|[k0 v0] d IH]; simpl; [by destruct (k' =s k)|].
  destruct (k0 =s k') eqn:E0; simpl; rewrite IH; clear IH.
  - apply str_eqb_eq in E0 as ->. by destruct (k' =s k).
  - destruct (k0 =s k) eqn:E1, (k' =s k) eqn:E2; try done.
    apply str_eqb_eq in E1 as ->. apply str_eqb_eq in E2 as ->. by rewrite str_eqb_refl in E0.
Qed.

Lemma dict_get_Some k d v : dict_get k d = Some v -> (k, v) ∈ d.
Proof.
  induction d as [|[k0 v0] d IH]; simpl; [done|].
  destruct (k0 =s k) eqn:E; [|intros; right; auto].
  intros [=->]. apply str_eqb_eq in E as ->. left.
Qed.

Lemma dict_get_None k d : dict_get k d = None <-> k ∉ d.*1.
Proof.
  induction d as [|[k0 v0] d IH]; simpl; [split; [intros _ H; inversion H | done]|].
  destruct (k0 =s k) eqn:E.
  - apply str_eqb_eq in E as ->. split; [done|]. intros []. left.
  - apply str_eqb_neq in E. rewrite IH, not_elem_of_cons. naive_solver.
Qed.
End Dict.

(** * Operations on untyped values *)

(** Truth value: [None], [False], zero and the empty containers are false. *)
Definition truthy (j : json) : bool :=
  match j with
  | JNull => false
  | JBool b => b
  | JInt z => negb (z =? 0)
  | JFloat f => ftruthy f
  | JStr s => if s is [] then false else true
  | JList l => if l is [] then false else true
  | JObj d => if d is [] then false else true
  end.

(** [j.items()] *)
Definition items (j : json) : res (list (pystr * json)) :=
  match j with JObj d => Ok d | _ => Raise AttributeError end.
(** [j.values()] *)
Definition values (j : json) : res (list json) := res_map (map snd) (items j).
(** [j.get(k)], and [j.get(k, default)] *)
Definition get (j : json) (k : pystr) : res (option json) := res_map (dict_get k) (items j).
Definition get_default (j : json) (k : pystr) (dflt : json) : res json :=
  res_map (default dflt) (get j k).
(** [j.get(k)] with [None] for an absent key *)
Definition get_or_none (j : json) (k : pystr) : res json := get_default j k JNull.
(** [j.get(k) or {}] *)
Definition get_or_empty (j : json) (k : pystr) : res json :=
  res_map (fun v => if truthy v then v else JObj []) (get_or_none j k).
(** [j[k]] for a string [k] *)
Definition getitem (j : json) (k : pystr) : res json :=
  match j with
  | JObj d => res_of_option KeyError (dict_get k d)
  | _ => Raise TypeError
  end.
(** [k in j] for a string [k] *)
Definition contains (j : json) (k : pystr) : res bool :=
  match j with
  | JObj d => Ok (if dict_get k d is Some _ then true else false)
  | JList l => Ok (existsb (fun v => if v is JStr s then s =s k else false) l)
  | JStr s => Ok (py_contains k s)
  | _ => Raise TypeError
  end.
(** [for x in j] *)
Definition iter (j : json) : res (list json) :=
  match j with
  | JList l => Ok l
  | JObj d => Ok (map (fun kv => JStr kv.1) d)
  | JStr s => Ok (map (fun c => JStr [c]) s)
  | _ => Raise TypeError
  end.
(** [j >= n] for an integer [n] *)
Definition ge_int (j : json) (n : Z) : res bool :=
  match j with
  | JInt z => Ok (n <=? z)
  | JBool b => Ok (n <=? if b then 1 else 0)
  | JFloat f => Ok (fleb (float_of_Z n) f)
  | _ => Raise TypeError
  end.
(** Hashable values: only these can enter a set or be a dictionary key. *)
Definition hashable (j : json) : bool :=
  match j with JList _ | JObj _ => false | _ => true end.
Definition is_str (j : json) : option pystr :=
  match j with JStr s => Some s | _ => None end.
Definition is_dict (j : json) : bool := if j is JObj _ then true else false.

(** * The [json] module

    [dumps(obj, indent=2)] is pure ASCII; reading back what was written gives
    the value, for the values JSON can carry unchanged: unique dictionary keys,
    and strings of Unicode scalar values (two escaped surrogates in a row are
    read as one character). *)
Definition scalar_char (c : Z) : bool :=
  ((0 <=? c) && (c <? 55296)) || ((57343 <? c) && (c <? 1114112)).
Definition unique_keys {A} (d : list (pystr * A)) : bool := bool_decide (NoDup d.*1).

Fixpoint json_wf (j : json) : bool :=
  match j with
  | JNull | JBool _ => true
  | JInt z => Z.abs z <? 10 ^ 4300
  | JFloat f => valid_binary 53 1024 f
  | JStr s => forallb scalar_char s
  | JList l => forallb json_wf l
  | JObj d => unique_keys d && forallb (fun kv => forallb scalar_char kv.1 && json_wf kv.2) d
  end.

Abbreviation bytes := (list Z).

(** [s.encode("utf-8")]; [None] for a surrogate, where Python raises. *)
Definition utf8_char (c : Z) : bytes :=
  if c <? 128 then [c]
  else if c <? 2048 then [192 + c / 64; 128 + c mod 64]
  else if c <? 65536 then [224 + c / 4096; 128 + c / 64 mod 64; 128 + c mod 64]
  else [240 + c / 262144; 128 + c / 4096 mod 64; 128 + c / 64 mod 64; 128 + c mod 64].
Definition utf8_encode (s : pystr) : res bytes :=
  if forallb scalar_char s then Ok (flat_map utf8_char s) else Raise ValueError.

(** [b.decode("utf-8")], strict: shortest forms only, no surrogates. *)
Definition cont (b : Z) : bool := (128 <=? b) && (b <? 192).
Fixpoint utf8_decode (b : bytes) : res pystr :=
  match b with
  | [] => Ok []
  | b0 :: r0 =>
      if b0 <? 128 then res_map (cons b0) (utf8_decode r0) else
      match r0 with
      | b1 :: r1 =>
          if (194 <=? b0) && (b0 <? 224) && cont b1 then
            res_map (cons ((b0 - 192) * 64 + (b1 - 128))) (utf8_decode r1) else
          match r1 with
          | b2 :: r2 =>
              let c := (b0 - 224) * 4096 + (b1 - 128) * 64 + (b2 - 128) in
              if (224 <=? b0) && (b0 <? 240) && cont b1 && cont b2 && (2048 <=? c) && scalar_char c
              then res_map (cons c) (utf8_decode r2) else
              match r2 with
              | b3 :: r3 =>
                  let c := (b0 - 240) * 262144 + (b1 - 128) * 4096 + (b2 - 128) * 64 + (b3 - 128) in
                  if (240 <=? b0) && cont b1 && cont b2 && cont b3 && (65536 <=? c) && scalar_char c
                  then res_map (cons c) (utf8_decode r3) else Raise ValueError
              | [] => Raise ValueError
              end
          | [] => Raise ValueError
          end
      | [] => Raise ValueError
      end
  end.

Class JsonModule := {
  json_dumps : json -> res pystr;
  json_loads : bytes -> res json
}.

Class JsonLaws `{JsonModule} : Prop := {
  json_roundtrip j : json_wf j = true ->
    exists s, json_dumps j = Ok s /\ Forall (fun c => 0 <= c < 128) s /\ json_loads s = Ok j
}.

Lemma utf8_encode_ascii s : Forall (fun c => 0 <= c < 128) s -> utf8_encode s = Ok s.
Proof.
  intros Hs. unfold utf8_encode.
  replace (forallb scalar_char s) with true.
  2:{ symmetry. apply forallb_forall. intros c Hc%list_elem_of_In.
      rewrite Forall_forall in Hs. apply Hs in Hc. unfold scalar_char.
      destruct (Z.leb_spec 0 c), (Z.ltb_spec c 55296); simpl; auto; lia. }
  f_equal. induction Hs as [|c s Hc Hs IH]; simpl; [done|]. rewrite IH.
  unfold utf8_char. destruct (Z.ltb_spec c 128); [done|lia].
Qed.

Lemma utf8_decode_ascii s : Forall (fun c => 0 <= c < 128) s -> utf8_decode s = Ok s.
Proof.
  induction 1 as [|c s Hc Hs IH]; simpl; [done|]. rewrite IH.
  destruct (Z.ltb_spec c 128); [done|lia].
Qed.

(** * JSON values as generic trees *)
Inductive leaf :=
  | LNull | LBool (b : bool) | LInt (z : Z) | LStr (s : pystr)
  | LZero (b : bool) | LInf (b : bool) | LNan | LFin (b : bool) (p : positive) (e : Z).

Definition leaf_enc (l : leaf) : list Z :=
  match l with
  | LNull => [0] | LBool b => [1; Z.b2z b] | LInt z => [2; z] | LStr s => 3 :: s
  | LZero b => [4; Z.b2z b] | LInf b => [5; Z.b2z b] | LNan => [6]
  | LFin b p e => [7; Z.b2z b; Zpos p; e]
  end.
Definition leaf_dec (l : list Z) : option leaf :=
  match l with
  | [0] => Some LNull | [1; b] => Some (LBool (b =? 1)) | [2; z] => Some (LInt z)
  | 3 :: s => Some (LStr s)
  | [4; b] => Some (LZero (b =? 1)) | [5; b] => Some (LInf (b =? 1)) | [6] => Some LNan
  | [7; b; p; e] => Some (LFin (b =? 1) (Z.to_pos p) e)
  | _ => None
  end.
Lemma leaf_dec_enc l : leaf_dec (leaf_enc l) = Some l.
Proof. destruct l as [|[]| | |[]|[]| |[]]; done. Qed.

#[export] Instance leaf_eq_dec : EqDecision leaf.
Proof. solve_decision. Defined.
#[export] Instance leaf_countable : Countable leaf := inj_countable leaf_enc leaf_dec leaf_dec_enc.

Definition float_leaf (f : pyfloat) : leaf :=
  match f with
  | S754_zero b => LZero b | S754_infinity b => LInf b | S754_nan => LNan
  | S754_finite b p e => LFin b p e
  end.

Fixpoint to_tree (j : json) : gen_tree leaf :=
  match j with
  | JNull => GenLeaf LNull
  | JBool b => GenLeaf (LBool b)
  | JInt z => GenLeaf (LInt z)
  | JFloat f => GenLeaf (float_leaf f)
  | JStr s => GenLeaf (LStr s)
  | JList l => GenNode 0 (map to_tree l)
  | JObj d => GenNode 1 (map (fun kv => GenNode 2 [GenLeaf (LStr kv.1); to_tree kv.2]) d)
  end.

Fixpoint of_tree (t : gen_tree leaf) : json :=
  match t with
  | GenLeaf LNull => JNull
  | GenLeaf (LBool b) => JBool b
  | GenLeaf (LInt z) => JInt z
  | GenLeaf (LStr s) => JStr s
  | GenLeaf (LZero b) => JFloat (S754_zero b)
  | GenLeaf (LInf b) => JFloat (S754_infinity b)
  | GenLeaf LNan => JFloat S754_nan
  | GenLeaf (LFin b p e) => JFloat (S754_finite b p e)
  | GenNode 1 ts =>
      JObj (map (fun t => match t with
                          | GenNode _ [GenLeaf (LStr k); v] => (k, of_tree v)
                          | _ => ([], JNull)
                          end) ts)
  | GenNode _ ts => JList (map of_tree ts)
  end.

Fixpoint of_to_tree (j : json) : of_tree (to_tree j) = j.
Proof.
  destruct j as [|b|z|f|s|l|d]; [reflexivity|reflexivity|reflexivity|by destruct f|reflexivity| |]; cbn [to_tree of_tree]; f_equal.
  - induction l as [|x l IH]; simpl; f_equal; auto.
  - induction d as [|[k v] d IH]; simpl; f_equal; auto. by rewrite of_to_tree.
Qed.

(** * Positive numbers as ASCII bits *)
Fixpoint pos_bits (p : positive) : pystr :=
  match p with xH => [] | xO p => 48 :: pos_bits p | xI p => 49 :: pos_bits p end.
Fixpoint bits_pos (s : pystr) : positive :=
  match s with [] => xH | c :: s => if c =? 48 then xO (bits_pos s) else xI (bits_pos s) end.
Lemma bits_pos_bits p : bits_pos (pos_bits p) = p.
Proof. induction p; simpl; congruence. Qed.
Lemma pos_bits_ascii p : Forall (fun c => 0 <= c < 128) (pos_bits p).
Proof. induction p; simpl; [constructor; [lia|done]..|constructor]. Qed.

Definition tree_json : JsonModule := {|
  json_dumps j := Ok (pos_bits (encode (to_tree j)));
  json_loads b := res_of_option ValueError (of_tree <$> decode (bits_pos b))
|}.
Lemma tree_json_laws : @JsonLaws tree_json.
Proof.
  split. intros j _. exists (pos_bits (encode (to_tree j))).
  split; [done|]. split; [apply pos_bits_ascii|].
  simpl. rewrite bits_pos_bits, decode_encode. simpl. by rewrite of_to_tree.
Qed.

Lemma scalar_char_spec c :
  scalar_char c = true <-> 0 <= c < 55296 \/ 57343 < c < 1114112.
Proof. unfold scalar_char. rewrite orb_true_iff, !andb_true_iff, !Z.leb_le, !Z.ltb_lt. lia. Qed.

Ltac arith_tests :=
  repeat match goal with
  | |- context [?a <? ?b] => destruct (Z.ltb_spec a b); try lia
  | |- context [?a <=? ?b] => destruct (Z.leb_spec a b); try lia
  end.

Lemma cont_mod x : cont (128 + x mod 64) = true.
Proof. unfold cont. pose proof (Z.mod_pos_bound x 64). apply andb_true_iff. rewrite Z.leb_le, Z.ltb_lt. lia. Qed.

Lemma split64 c : c = c / 64 * 64 + c mod 64.
Proof. pose proof (Z.div_mod c 64). lia. Qed.
Lemma split4096 c : c = c / 4096 * 4096 + c / 64 mod 64 * 64 + c mod 64.
Proof.
  pose proof (Z.div_mod c 64 ltac:(lia)). pose proof (Z.div_mod (c / 64) 64 ltac:(lia)).
  rewrite Z.div_div in * by lia. change (64 * 64) with 4096 in *. lia.
Qed.
Lemma split262144 c :
  c = c / 262144 * 262144 + c / 4096 mod 64 * 4096 + c / 64 mod 64 * 64 + c mod 64.
Proof.
  pose proof (split4096 c). pose proof (Z.div_mod (c / 4096) 64 ltac:(lia)) as H1.
  rewrite Z.div_div in H1 by lia. change (4096 * 64) with 262144 in *. lia.
Qed.

Lemma utf8_decode_char c t :
  scalar_char c = true -> utf8_decode (utf8_char c ++ t) = res_map (cons c) (utf8_decode t).
Proof.
  intros Hc. pose proof Hc as Hr. apply scalar_char_spec in Hr. unfold utf8_char.
  destruct (Z.ltb_spec c 128) as [H1|H1].
  { cbn [app utf8_decode]. destruct (Z.ltb_spec c 128); [done|lia]. }
  destruct (Z.ltb_spec c 2048) as [H2|H2].
  { cbn [app utf8_decode]. pose proof (Z.div_le_lower_bound c 64 2 ltac:(lia) ltac:(lia)).
    pose proof (Z.div_lt_upper_bound c 64 32 ltac:(lia) ltac:(lia)).
    rewrite (proj2 (Z.ltb_ge (192 + c / 64) 128)) by lia. rewrite cont_mod.
    rewrite (proj2 (Z.leb_le 194 _)), (proj2 (Z.ltb_lt _ 224)) by lia. cbn [andb].
    replace ((192 + c / 64 - 192) * 64 + (128 + c mod 64 - 128)) with c by (pose proof (split64 c); lia). done. }
  destruct (Z.ltb_spec c 65536) as [H3|H3].
  { cbn [app utf8_decode]. pose proof (Z.div_pos c 4096 ltac:(lia) ltac:(lia)).
    pose proof (Z.div_lt_upper_bound c 4096 16 ltac:(lia) ltac:(lia)).
    rewrite (proj2 (Z.ltb_ge (224 + c / 4096) 128)) by lia. rewrite !cont_mod.
    rewrite (proj2 (Z.ltb_ge (224 + c / 4096) 224)), andb_false_r by lia. cbn [andb].
    rewrite (proj2 (Z.leb_le 224 _)), (proj2 (Z.ltb_lt _ 240)) by lia. cbn [andb].
    replace ((224 + c / 4096 - 224) * 4096 + (128 + c / 64 mod 64 - 128) * 64 + (128 + c mod 64 - 128))
      with c by (pose proof (split4096 c); lia).
    by rewrite (proj2 (Z.leb_le 2048 c)), Hc by lia. }
  cbn [app utf8_decode]. pose proof (Z.div_pos c 262144 ltac:(lia) ltac:(lia)).
  rewrite (proj2 (Z.ltb_ge (240 + c / 262144) 128)) by lia. rewrite !cont_mod.
  rewrite (proj2 (Z.ltb_ge (240 + c / 262144) 224)), andb_false_r by lia. cbn [andb].
  rewrite (proj2 (Z.ltb_ge (240 + c / 262144) 240)), andb_false_r by lia. cbn [andb].
  rewrite (proj2 (Z.leb_le 240 _)) by lia. cbn [andb].
  replace ((240 + c / 262144 - 240) * 262144 + (128 + c / 4096 mod 64 - 128) * 4096 +
           (128 + c / 64 mod 64 - 128) * 64 + (128 + c mod 64 - 128))
    with c by (pose proof (split262144 c); lia).
  by rewrite (proj2 (Z.leb_le 65536 c)), Hc by lia.
Qed.

(** [s.encode("utf-8").decode("utf-8") == s] *)
Lemma utf8_roundtrip s b : utf8_encode s = Ok b -> utf8_decode b = Ok s.
Proof.
  unfold utf8_encode. destruct (forallb scalar_char s) eqn:Hs; [|done]. intros [= <-].
  induction s as [|c s IH]; [done|]. cbn [forallb] in Hs. apply andb_prop in Hs as [Hc Hs].
  cbn [flat_map]. rewrite utf8_decode_char by done. by rewrite IH.
Qed.

Lemma splitlines_cr s acc : splitlines_from (10 :: s) acc true = splitlines_from s acc false.
Proof. done. Qed.

Lemma splitlines_no_cr s acc cr :
  (match s with 10 :: _ => False | _ => True end) -> splitlines_from s acc cr = splitlines_from s acc false.
Proof.
  destruct s as [|c s]; [done|]. intros Hc. cbn [splitlines_from].
  destruct (Z.eqb_spec c 10) as [->|]; [done|]. by rewrite !andb_false_r.
Qed.

(** Reading a text file leaves its lines alone. *)
Lemma splitlines_translate s : splitlines (translate_newlines s) = splitlines s.
Proof.
  unfold splitlines. remember (length s) as n. revert s Heqn.
  enough (forall n s acc, (length s <= n)%nat ->
    splitlines_from (translate_newlines s) acc false = splitlines_from s acc false) by eauto.
  clear n. induction n as [|n IH]; intros s acc Hn.
  { destruct s; [done|simpl in Hn; lia]. }
  destruct s as [|c s]; [done|]. simpl in Hn.
  destruct (Z.eqb_spec c 13) as [->|Hc].
  - destruct s as [|d s]; [done|]. destruct (Z.eqb_spec d 10) as [->|Hd].
    + change (translate_newlines (13 :: 10 :: s)) with (translate_newlines (10 :: s)).
      change (translate_newlines (10 :: s)) with (10 :: translate_newlines s).
      change (splitlines_from (13 :: 10 :: s) acc false) with (rev acc :: splitlines_from s [] false).
      change (splitlines_from (10 :: translate_newlines s) acc false)
        with (rev acc :: splitlines_from (translate_newlines s) [] false).
      f_equal. apply IH. simpl in Hn. lia.
    + assert (E : translate_newlines (13 :: d :: s) = 10 :: translate_newlines (d :: s)).
      { cbn [translate_newlines]. destruct d as [|p|p]; try done.
        do 4 (destruct p as [p|p|]; try done). }
      rewrite E.
      change (splitlines_from (10 :: ?x) acc false) with (rev acc :: splitlines_from x [] false).
      change (splitlines_from (13 :: ?x) acc false) with (rev acc :: splitlines_from x [] true).
      f_equal. rewrite (splitlines_no_cr (d :: s) [] true).
      * apply IH. simpl in *. lia.
      * destruct d as [|p|p]; try done. do 4 (destruct p as [p|p|]; try done).
  - assert (E : translate_newlines (c :: s) = c :: translate_newlines s).
    { cbn [translate_newlines]. replace (c =? 13) with false by (symmetry; by apply Z.eqb_neq).
      destruct c as [|p|p]; try done. do 4 (destruct p as [p|p|]; try done). }
    rewrite E. cbn [splitlines_from]. rewrite !andb_false_l.
    replace (c =? 13) with false by (symmetry; by apply Z.eqb_neq).
    destruct (line_break c); [f_equal|]; apply IH; lia.
Qed.
