(* ===== verification/Fs.v ===== *)
(** The part of a POSIX file system the stores and the garbage collector use:
    names (directory entries) map to inodes, so that two names may share one
    (hard-linked snapshots), and every system call is a step on that state.
    Symbolic links, permissions and [..] components are not modelled. *)
From S2P Require Import Prelude PyStr Json.

Abbreviation path := (list pystr).

Record fs := Fs {
  names : gmap path Z;        (** file name to inode number *)
  dirs : gset path;           (** directories, the root of the tree included *)
  inodes : gmap Z bytes;      (** contents *)
  next_inode : Z
}.

Definition parent (p : path) : path := removelast p.
Definition basename (p : path) : pystr := List.last p [].

(** The non-empty prefixes of a path, itself included. *)
Fixpoint prefixes (p : path) : list path :=
  match p with
  | [] => []
  | c :: p' => [c] :: map (cons c) (prefixes p')
  end.

Definition is_file (p : path) (s : fs) : bool := bool_decide (is_Some (names s !! p)).
Definition is_dir (p : path) (s : fs) : bool := bool_decide (p ∈ dirs s).
Definition path_exists (p : path) (s : fs) : bool := is_file p s || is_dir p s.
(** Some component of the path is a regular file. *)
Definition through_file (p : path) (s : fs) : bool := existsb (fun q => is_file q s) (prefixes p).

(** [open(p, "rb").read()] *)
Definition fs_read (p : path) (s : fs) : res bytes :=
  match names s !! p with
  | Some i => Ok (default [] (inodes s !! i))
  | None => if through_file p s || is_dir p s then Raise OSError else Raise FileNotFoundError
  end.

(** The system calls that change the state. *)
Inductive sysop :=
  | Mkdirs (p : path)              (** [p.mkdir(parents=True, exist_ok=True)] *)
  | Create (p : path)              (** a new, empty file: [mkstemp] *)
  | Append (p : path) (b : Z)      (** one more byte *)
  | Rename (src dst : path)        (** [os.replace] *)
  | Unlink (p : path)
  | Rmdir (p : path).

Definition set_names (f : gmap path Z -> gmap path Z) (s : fs) : fs :=
  Fs (f (names s)) (dirs s) (inodes s) (next_inode s).

Definition run_op (o : sysop) (s : fs) : res fs :=
  match o with
  | Mkdirs p =>
      if through_file p s then Raise OSError
      else Ok (Fs (names s) (list_to_set (prefixes p) ∪ dirs s) (inodes s) (next_inode s))
  | Create p =>
      if path_exists p s || negb (is_dir (parent p) s) then Raise OSError
      else Ok (Fs (<[p := next_inode s]> (names s)) (dirs s)
                  (<[next_inode s := []]> (inodes s)) (next_inode s + 1))
  | Append p b =>
      match names s !! p with
      | Some i => Ok (Fs (names s) (dirs s)
                        (<[i := default [] (inodes s !! i) ++ [b]]> (inodes s)) (next_inode s))
      | None => Raise OSError
      end
  | Rename src dst =>
      match names s !! src with
      | Some i => if is_dir dst s || negb (is_dir (parent dst) s) then Raise OSError
                  else Ok (set_names (fun n => <[dst := i]> (delete src n)) s)
      | None => Raise FileNotFoundError
      end
  | Unlink p =>
      if is_file p s then Ok (set_names (delete p) s)
      else if is_dir p s then Raise OSError else Raise FileNotFoundError
  | Rmdir p =>
      if is_dir p s then Ok (Fs (names s) (dirs s ∖ {[p]}) (inodes s) (next_inode s))
      else Raise FileNotFoundError
  end.

(** A run that stops at the first error; the state is the one reached. *)
Fixpoint run_ops (os : list sysop) (s : fs) : res unit * fs :=
  match os with
  | [] => (Ok tt, s)
  | o :: os' =>
      match run_op o s with
      | Ok s' => run_ops os' s'
      | Raise e => (Raise e, s)
      end
  end.

(** Inode numbers are allocated below [next_inode]. *)
Definition fs_wf (s : fs) : Prop :=
  map_Forall (fun _ i => i < next_inode s) (names s).

(** * Lemmas *)
Lemma run_ops_app os1 os2 s :
  run_ops (os1 ++ os2) s =
    match run_ops os1 s with
    | (Ok _, s') => run_ops os2 s'
    | (Raise e, s') => (Raise e, s')
    end.
Proof. revert s; induction os1 as [|o os1 IH]; intros s; simpl; [done|]. destruct (run_op o s); auto. Qed.

(** Every state reached by a failing run is reached by a successful prefix. *)
Lemma run_ops_prefix os s r s' :
  run_ops os s = (r, s') ->
  exists k, run_ops (take k os) s = (Ok tt, s') /\ (r = Ok tt -> k = length os) /\
    (r <> Ok tt -> (k < length os)%nat).
Proof.
  revert s; induction os as [|o os IH]; intros s; simpl.
  - intros [= <- <-]. exists 0%nat. split_and!; done.
  - destruct (run_op o s) as [s1|e] eqn:E.
    + intros (k & Hk & H1 & H2)%IH. exists (S k). simpl. rewrite E. split_and!; [done| |].
      * intros Hr. by rewrite H1.
      * intros Hr. specialize (H2 Hr). lia.
    + intros [= <- <-]. exists 0%nat. split_and!; [done|done|]. intros _. lia.
Qed.

Lemma is_file_spec p s : is_file p s = true <-> is_Some (names s !! p).
Proof. apply bool_decide_eq_true. Qed.
Lemma is_dir_spec p s : is_dir p s = true <-> p ∈ dirs s.
Proof. apply bool_decide_eq_true. Qed.

Lemma fs_read_ext p s s' :
  names s' !! p = names s !! p ->
  (forall i, names s !! p = Some i -> inodes s' !! i = inodes s !! i) ->
  is_file p s = true -> fs_read p s' = fs_read p s.
Proof.
  intros Hn Hi Hf. unfold fs_read. rewrite Hn.
  apply is_file_spec in Hf as [i Hp]. rewrite Hp. by rewrite (Hi i).
Qed.
