(* ===== verification/Store.v ===== *)
(** [store.py]: the object store behind a dataset root.  The [Store] protocol
    is a type class; its implementations are in [MemoryStore.v],
    [LocalStore.v] (over the file system of [Fs]) and [S3Store.v] (over a
    client that is a parameter). *)
From S2P Require Import Prelude PyStr Json Fs.

Definition slash : Z := 47.
Definition lstrip_slash (s : pystr) : pystr := lstrip_by (Z.eqb slash) s.
Definition rstrip_slash (s : pystr) : pystr := rstrip_by (Z.eqb slash) s.
Definition strip_slash (s : pystr) : pystr := strip_by (Z.eqb slash) s.

(** [s.partition("/")] *)
Fixpoint partition_slash (s : pystr) : pystr * pystr * pystr :=
  match s with
  | [] => ([], [], [])
  | c :: s' => if c =? slash then ([], [slash], s')
               else let '(a, sep, b) := partition_slash s' in (c :: a, sep, b)
  end.

Definition is_remote_root (root : pystr) : bool := startswith root (u "s3://").

(** * The DuckDB secret *)
Section Secret.
Context `{UnicodeDB}.

Definition ascii_lower (s : pystr) : pystr :=
  map (fun c => if (65 <=? c) && (c <=? 90) then c + 32 else c) s.

Definition esc (s : pystr) : pystr := replace_char 39 [39; 39] s.

Definition env_t : Type := list (pystr * pystr).
Definition env_get (env : env_t) (k dflt : pystr) : pystr := default dflt (dict_get k env).

(** Of the non-ASCII characters none lower-cases to a letter of the three
    words, so lowering ASCII letters is enough. *)
Definition use_ssl_text (env : env_t) : pystr :=
  let use_ssl_raw := ascii_lower (py_strip (env_get env (u "OSMPQ_S3_USE_SSL") (u "true"))) in
  if str_in use_ssl_raw [u "0"; u "false"; u "no"] then u "false" else u "true".

Definition secret_line (name value : pystr) : pystr :=
  u "    " ++ name ++ u " '" ++ esc value ++ u "'," ++ [10].

Definition s3_secret_sql (env : env_t) : option pystr :=
  let key_id := env_get env (u "OSMPQ_S3_KEY_ID") [] in
  let secret := env_get env (u "OSMPQ_S3_SECRET") [] in
  let endpoint := env_get env (u "OSMPQ_S3_ENDPOINT") [] in
  if (key_id =s []) || (secret =s []) || (endpoint =s []) then None else
  let region := env_get env (u "OSMPQ_S3_REGION") (u "auto") in
  let url_style := env_get env (u "OSMPQ_S3_URL_STYLE") (u "path") in
  Some (u "CREATE OR REPLACE SECRET osmpq_s3 (" ++ [10] ++
        u "    TYPE S3," ++ [10] ++
        secret_line (u "KEY_ID") key_id ++
        secret_line (u "SECRET") secret ++
        secret_line (u "ENDPOINT") endpoint ++
        secret_line (u "REGION") region ++
        secret_line (u "URL_STYLE") url_style ++
        u "    USE_SSL " ++ use_ssl_text env ++ [10] ++ u ")").
End Secret.

(** * The protocol *)

(** A file of the machine the program runs on: its absolute path and content. *)
Record local_file := { lf_path : pystr; lf_content : res bytes }.

Class Store (S : Type) := {
  read_bytes : pystr -> S -> res bytes;
  write_bytes : pystr -> bytes -> S -> res unit * S;
  exists_ : pystr -> S -> res bool;
  list_ : pystr -> S -> res (list pystr);
  delete_ : pystr -> S -> res unit * S;
  upload_file : local_file -> pystr -> S -> res unit * S;
  url : pystr -> res pystr
}.

(** * Paths *)

(** The components of a relative path string: empty ones and single dots
    vanish, as [pathlib] normalises them. *)
Fixpoint split_slash (s acc : pystr) : list pystr :=
  match s with
  | [] => [rev acc]
  | c :: s' => if c =? slash then rev acc :: split_slash s' [] else split_slash s' (c :: acc)
  end.
Definition keep_part (c : pystr) : bool := negb ((c =s []) || (c =s u ".")).
Definition path_parts (s : pystr) : path := base.filter (fun c => keep_part c = true) (split_slash s []).
(** [str(p)] of a relative path *)
Definition rel_str (p : path) : pystr := if p is [] then u "." else py_join [slash] p.


(** * for_root *)
Inductive store_kind :=
  | Local (root_dir : pystr)
  | S3 (bucket prefix : pystr).

Definition for_root (root : pystr) : store_kind :=
  if is_remote_root root then
    let without_scheme := drop (length (u "s3://")) root in
    let '(bucket, _, prefix) := partition_slash without_scheme in
    S3 bucket prefix
  else Local root.

(** * What a store promises

    [ok] is the invariant of the implementation's state and [indep] holds of
    two paths neither of which is affected by writing the other. *)
Definition plain_name (a : pystr) : Prop := slash ∉ a /\ keep_part a = true.

Class StoreLaws (S : Type) `{Store S} (ok : S -> Prop) (indep : pystr -> pystr -> Prop) : Prop := {
  store_write_ok rel data s r s' : ok s -> write_bytes rel data s = (r, s') -> ok s';
  store_write_read rel data s s' :
    ok s -> write_bytes rel data s = (Ok tt, s') ->
    read_bytes rel s' = Ok data /\ exists_ rel s' = Ok true;
  store_write_frame rel data s r s' rel' :
    ok s -> indep rel rel' -> write_bytes rel data s = (r, s') ->
    read_bytes rel' s' = read_bytes rel' s /\ exists_ rel' s' = exists_ rel' s;
  store_indep_siblings d a b :
    plain_name a -> plain_name b -> a <> b -> indep (d ++ slash :: a) (d ++ slash :: b)
}.
