(* ===== verification/MemoryStore.v ===== *)
(** [store.py], class [MemoryStore]: bytes in a dictionary. *)
From S2P Require Import Prelude PyStr Json Fs Store.

Definition t : Type := list (pystr * bytes).

Definition _key (rel : pystr) : pystr := lstrip_slash rel.

Definition read_bytes (rel : pystr) (s : t) : res bytes :=
  res_of_option FileNotFoundError (dict_get (_key rel) s).
Definition write_bytes (rel : pystr) (data : bytes) (s : t) : res unit * t :=
  (Ok tt, dict_set (_key rel) data s).
Definition exists_ (rel : pystr) (s : t) : res bool :=
  Ok (if dict_get (_key rel) s is Some _ then true else false).
Definition list_ (prefix : pystr) (s : t) : res (list pystr) :=
  let p := _key prefix in
  Ok (merge_sort str_le (filter (fun k => startswith k p = true) (map fst s))).
Definition delete_ (rel : pystr) (s : t) : res unit * t := (Ok tt, dict_pop (_key rel) s).
Definition upload_file (f : local_file) (rel : pystr) (s : t) : res unit * t :=
  match lf_content f with
  | Ok data => write_bytes rel data s
  | Raise e => (Raise e, s)
  end.
Definition url (rel : pystr) : res pystr := Raise NotImplementedError.

Definition memory_store : Store t := {|
  Store.read_bytes := read_bytes; Store.write_bytes := write_bytes;
  Store.exists_ := exists_; Store.list_ := list_; Store.delete_ := delete_;
  Store.upload_file := upload_file; Store.url := url
|}.
#[export] Existing Instance memory_store.

