(* ===== verification/LocalStore.v ===== *)
(** [store.py], class [LocalStore]: a directory, written atomically. *)
From S2P Require Import Prelude PyStr Json Fs Store.


(** [mkstemp(dir=.., prefix=.., suffix=".tmp")]: the name it picks in the
    directory of the destination. *)
Class TempNames := { mkstemp : fs -> path -> pystr -> pystr }.
Class TempNamesLaws `{TempNames} : Prop := {
  mkstemp_fresh s d pre : path_exists (d ++ [mkstemp s d pre]) s = false;
  mkstemp_prefix s d pre : startswith (mkstemp s d pre) pre = true
}.

(** * Calls to the operating system

    A function as the calls it makes and what it does with their outcomes. *)
Inductive script :=
  | Done (r : res unit)
  | Call (o : sysop) (k : res unit -> script)
  | Mkstemp (d : path) (pre : pystr) (k : res path -> script).
(** A loop of calls, left at the first that fails. *)
Fixpoint calls (os : list sysop) (k : res unit -> script) : script :=
  match os with
  | [] => k (Ok tt)
  | o :: os => Call o (fun r => match r with Ok _ => calls os k | Raise e => k (Raise e) end)
  end.

Section Run.
Context `{TempNames}.
Fixpoint run (c : script) (s : fs) : res unit * fs :=
  match c with
  | Done r => (r, s)
  | Call o k => match run_op o s with Ok s' => run (k (Ok tt)) s' | Raise e => run (k (Raise e)) s end
  | Mkstemp d pre k =>
      let tmp := d ++ [mkstemp s d pre] in
      match run_op (Create tmp) s with Ok s' => run (k (Ok tmp)) s' | Raise e => run (k (Raise e)) s end
  end.

(** One call; any call may fail (a full disk, a missing permission), and does
    nothing then. *)
Inductive step : script * fs -> script * fs -> Prop :=
  | step_call o k s s' : run_op o s = Ok s' -> step (Call o k, s) (k (Ok tt), s')
  | step_fails o k s e : step (Call o k, s) (k (Raise e), s)
  | step_mkstemp d pre k s s' : let tmp := d ++ [mkstemp s d pre] in
      run_op (Create tmp) s = Ok s' -> step (Mkstemp d pre k, s) (k (Ok tmp), s')
  | step_mkstemp_fails d pre k s e : step (Mkstemp d pre k, s) (k (Raise e), s).
End Run.

Section LocalStore.
Context `{TempNames}.
Variable root_dir : pystr.

Definition _path (rel : pystr) : path := path_parts (lstrip_slash rel).

(** The calls that fill the temporary file and give it its name. *)
Definition write_ops (p tmp : path) (data : bytes) : list sysop :=
  map (Append tmp) data ++ [Rename tmp p].
(** From [mkstemp] on: on an error the temporary file is unlinked, and an error
    of that is dropped. *)
Definition through_temp (p : path) (content : res bytes) : script :=
  Mkstemp (parent p) (u "." ++ basename p ++ u ".") (fun r =>
    match r with
    | Raise e => Done (Raise e)
    | Ok tmp =>
        let failed e := Call (Unlink tmp) (fun _ => Done (Raise e)) in
        match content with
        | Raise e => failed e
        | Ok data => calls (write_ops p tmp data) (fun r => match r with Ok _ => Done (Ok tt) | Raise e => failed e end)
        end
    end).
Definition _atomic_write_bytes (p : path) (data : bytes) : script :=
  Call (Mkdirs (parent p)) (fun r => match r with Raise e => Done (Raise e) | Ok _ => through_temp p (Ok data) end).

Definition read_bytes (rel : pystr) (s : fs) : res bytes := fs_read (_path rel) s.
Definition write_bytes (rel : pystr) (data : bytes) (s : fs) : res unit * fs :=
  run (_atomic_write_bytes (_path rel) data) s.
Definition exists_ (rel : pystr) (s : fs) : res bool := Ok (path_exists (_path rel) s).

(** [base.rglob("*")], the files only *)
Definition files_under (base : path) (s : fs) : list path :=
  base.filter (fun p => bool_decide (base `prefix_of` p) && negb (bool_decide (p = base)) = true)
    (map fst (map_to_list (names s))).
Definition list_ (prefix : pystr) (s : fs) : res (list pystr) :=
  let base := _path prefix in
  Ok (merge_sort str_le
        (if is_dir base s then map rel_str (files_under base s)
         else if path_exists base s then [rel_str base] else [])).

Definition delete_ (rel : pystr) (s : fs) : res unit * fs :=
  let p := _path rel in
  if path_exists p s then
    match run_op (Unlink p) s with Ok s' => (Ok tt, s') | Raise e => (Raise e, s) end
  else (Ok tt, s).

(** [str(self.root_dir / rel)] *)
Definition anchor : pystr :=
  if startswith root_dir (u "//") && negb (startswith root_dir (u "///")) then u "//"
  else if startswith root_dir (u "/") then u "/" else [].
Definition path_str (p : path) : pystr :=
  let full := path_parts root_dir ++ p in
  if (anchor =s []) then rel_str full else anchor ++ py_join [slash] full.
Definition url (rel : pystr) : res pystr := Ok (path_str (_path rel)).

(** A copy through a temporary file, then the rename.  [same] says that the
    two absolute paths are equal. *)
Definition upload_script (same : pystr -> path -> bool) (f : local_file) (rel : pystr) : script :=
  let dest := _path rel in
  Call (Mkdirs (parent dest)) (fun r =>
    match r with
    | Raise e => Done (Raise e)
    | Ok _ => if same (lf_path f) dest then Done (Ok tt) else through_temp dest (lf_content f)
    end).
Definition upload_file same (f : local_file) (rel : pystr) (s : fs) : res unit * fs := run (upload_script same f rel) s.

Definition local_store (same : pystr -> path -> bool) : Store fs := {|
  Store.read_bytes := read_bytes; Store.write_bytes := write_bytes;
  Store.exists_ := exists_; Store.list_ := list_; Store.delete_ := delete_;
  Store.upload_file := upload_file same; Store.url := url
|}.
End LocalStore.

