(* ===== verification/S3Store.v ===== *)
(** [store.py], class [S3Store]: the calls it makes on an S3 client, which is a parameter. *)
From S2P Require Import Prelude PyStr Json Fs Store.

Inductive head_result := HeadFound | HeadClientError (code : pystr).

Class S3Client (C : Type) := {
  get_object : pystr -> pystr -> C -> res bytes;                (** bucket, key *)
  put_object : pystr -> pystr -> bytes -> C -> res unit * C;
  head_object : pystr -> pystr -> C -> head_result;
  list_objects_v2 : pystr -> pystr -> C -> res (list (list pystr));  (** pages of keys *)
  delete_object : pystr -> pystr -> C -> res unit * C;
  client_upload_file : local_file -> pystr -> pystr -> C -> res unit * C
}.

Section S3Store.
Context {C : Type} `{S3Client C}.
Variables (bucket prefix_arg : pystr).

Definition prefix : pystr := strip_slash prefix_arg.

Definition _key (rel : pystr) : pystr :=
  let rel := lstrip_slash rel in
  if negb (prefix =s []) then prefix ++ [slash] ++ rel else rel.

Definition read_bytes (rel : pystr) (c : C) : res bytes := get_object bucket (_key rel) c.
Definition write_bytes (rel : pystr) (data : bytes) (c : C) : res unit * C :=
  put_object bucket (_key rel) data c.
Definition exists_ (rel : pystr) (c : C) : res bool :=
  match head_object bucket (_key rel) c with
  | HeadFound => Ok true
  | HeadClientError code =>
      if str_in code [u "404"; u "NoSuchKey"; u "NotFound"] then Ok false
      else Raise (ClientError code)
  end.
Definition list_ (p : pystr) (c : C) : res (list pystr) :=
  let* pages := list_objects_v2 bucket (_key p) c in
  Ok (merge_sort str_le
        (map (fun key => if negb (prefix =s []) then drop (length prefix + 1) key else key)
             (concat pages))).
Definition delete_ (rel : pystr) (c : C) : res unit * C := delete_object bucket (_key rel) c.
Definition upload_file (f : local_file) (rel : pystr) (c : C) : res unit * C :=
  client_upload_file f bucket (_key rel) c.
Definition url (rel : pystr) : res pystr := Ok (u "s3://" ++ bucket ++ [slash] ++ _key rel).

Definition s3_store : Store C := {|
  Store.read_bytes := read_bytes; Store.write_bytes := write_bytes;
  Store.exists_ := exists_; Store.list_ := list_; Store.delete_ := delete_;
  Store.upload_file := upload_file; Store.url := url
|}.
End S3Store.

