(* ===== verification/StoreFacts.v ===== *)
(** Facts about the stores: [LocalStore] writes are atomic and never touch a
    shared inode, and each store keeps the promises of [StoreLaws]. *)
From S2P Require Import Prelude PyStr Json Fs SqlText LocalStore MemoryStore Store.

(** * Slashes *)
Lemma lstrip_by_neg (p : Z -> bool) c s : p c = false -> lstrip_by p (c :: s) = c :: s.
Proof. simpl. by intros ->. Qed.

Lemma not_elem_slash s c : slash ∉ c :: s -> (slash =? c) = false /\ slash ∉ s.
Proof. rewrite not_elem_of_cons. intros [H1 H2]. split; [by apply Z.eqb_neq | done]. Qed.

(** Stripping leading slashes of [d/a]: the name stays at the end. *)
Lemma lstrip_slash_sibling d :
  (forall a, slash ∉ a -> a <> [] -> lstrip_slash (d ++ slash :: a) = a) \/
  (exists d', forall a, lstrip_slash (d ++ slash :: a) = d' ++ slash :: a).
Proof.
  unfold lstrip_slash. induction d as [|c d IH]; cbn [app lstrip_by].
  - left. intros [|c a] Ha Hne; [done|]. apply not_elem_slash in Ha as [Hc _].
    rewrite Z.eqb_refl. cbn [lstrip_by]. by rewrite Hc.
  - destruct (slash =? c) eqn:E; [done|]. right. by exists (c :: d).
Qed.

Lemma lstrip_slash_siblings d a b :
  plain_name a -> plain_name b -> a <> b ->
  lstrip_slash (d ++ slash :: a) <> lstrip_slash (d ++ slash :: b).
Proof.
  intros [Ha Ka] [Hb Kb] Hab.
  assert (a <> [] /\ b <> []) as [Hna Hnb] by (split; intros ->; done).
  destruct (lstrip_slash_sibling d) as [Hd|[d' Hd]].
  - by rewrite !Hd.
  - rewrite !Hd. intros E. apply app_inv_head in E. by inversion E.
Qed.

Lemma split_slash_app s acc a :
  split_slash (s ++ slash :: a) acc = split_slash s acc ++ split_slash a [].
Proof.
  revert acc; induction s as [|c s IH]; intros acc; simpl; [done|].
  destruct (c =? slash) eqn:E; simpl; [by rewrite IH | apply IH].
Qed.

Lemma split_slash_plain a acc : slash ∉ a -> split_slash a acc = [rev acc ++ a].
Proof.
  revert acc; induction a as [|c a IH]; intros acc Ha; simpl; [by rewrite app_nil_r|].
  apply not_elem_slash in Ha as [Hc Ha]. rewrite Z.eqb_sym, Hc, IH by done.
  simpl. by rewrite <- app_assoc.
Qed.

Lemma path_parts_lstrip s : path_parts (lstrip_slash s) = path_parts s.
Proof.
  unfold lstrip_slash, path_parts. induction s as [|c s IH]; [done|].
  cbn [lstrip_by split_slash]. destruct (slash =? c) eqn:E; [|done].
  rewrite Z.eqb_sym, E. cbn [rev]. rewrite filter_cons_False by done. exact IH.
Qed.

Lemma path_parts_sibling d a :
  plain_name a -> path_parts (d ++ slash :: a) = path_parts d ++ [a].
Proof.
  intros [Ha Ka]. unfold path_parts. rewrite split_slash_app, filter_app.
  f_equal. rewrite split_slash_plain by done. cbn [rev app].
  by rewrite filter_cons_True.
Qed.

(** * MemoryStore *)
#[export] Instance memory_store_laws :
  StoreLaws MemoryStore.t (fun _ => True)
    (fun a b => MemoryStore._key a <> MemoryStore._key b).
Proof.
  split; try done; unfold read_bytes, write_bytes, exists_; simpl;
    unfold MemoryStore.read_bytes, MemoryStore.write_bytes, MemoryStore.exists_.
  - intros rel data s s' _ [= <-]. by rewrite dict_get_set, str_eqb_refl.
  - intros rel data s r s' rel' _ Hk [= <- <-].
    by rewrite dict_get_set, (proj2 (str_eqb_neq _ _) Hk).
  - intros d a b. apply lstrip_slash_siblings.
Qed.

(** * LocalStore *)
Section Local.
Context `{TempNamesLaws}.

(** The name [mkstemp] gives the temporary file of a path. *)
Definition tmp_path (p : path) (s : fs) : path := parent p ++ [mkstemp s (parent p) (u "." ++ basename p ++ u ".")].

Lemma run_calls os k s : LocalStore.run (LocalStore.calls os k) s = let (r, s') := run_ops os s in LocalStore.run (k r) s'.
Proof. revert s. induction os as [|o os IH]; intros s; [done|]. cbn. by destruct (run_op o s). Qed.

Lemma run_atomic p data s : LocalStore.run (LocalStore._atomic_write_bytes p data) s =
  match run_op (Mkdirs (parent p)) s with
  | Raise e => (Raise e, s)
  | Ok s1 =>
      let tmp := tmp_path p s1 in
      match run_op (Create tmp) s1 with
      | Raise e => (Raise e, s1)
      | Ok s2 =>
          match run_ops (LocalStore.write_ops p tmp data) s2 with
          | (Ok _, s3) => (Ok tt, s3)
          | (Raise e, s3) => (Raise e, match run_op (Unlink tmp) s3 with Ok s4 => s4 | Raise _ => s3 end)
          end
      end
  end.
Proof.
  unfold LocalStore._atomic_write_bytes, LocalStore.through_temp. cbn [LocalStore.run].
  destruct (run_op (Mkdirs (parent p)) s) as [s1|]; [|done]. cbn [LocalStore.run]. fold (tmp_path p s1). cbv zeta.
  destruct (run_op (Create (tmp_path p s1)) s1) as [s2|]; [|done]. rewrite run_calls.
  destruct (run_ops _ s2) as [[]  s3]; [done|]. cbn [LocalStore.run]. by destruct (run_op (Unlink _) s3).
Qed.

Lemma run_appends tmp i data s c :
  names s !! tmp = Some i -> inodes s !! i = Some c ->
  run_ops (map (Append tmp) data) s =
    (Ok tt, Fs (names s) (dirs s) (<[i := c ++ data]> (inodes s)) (next_inode s)).
Proof.
  revert s c; induction data as [|b data IH]; intros s c Hn Hi; simpl.
  - rewrite app_nil_r, insert_id by done. by destruct s.
  - rewrite Hn, Hi. simpl. erewrite IH; simpl; [|done|apply lookup_insert_eq].
    rewrite insert_insert_eq. by rewrite <- app_assoc.
Qed.

Lemma tmp_path_neq p s : tmp_path p s <> p.
Proof.
  unfold tmp_path. intros E.
  set (m := mkstemp _ _ _) in *.
  assert (Hm : startswith m (u "." ++ basename p ++ u ".") = true) by apply mkstemp_prefix.
  assert (Hb : basename p = m). { rewrite <- E. unfold basename. apply last_last. }
  clearbody m. clear E. rewrite Hb in Hm.
  assert (Hl : forall s pre, startswith s pre = true -> (length pre <= length s)%nat).
  { intros s0 pre. revert s0. induction pre as [|c pre IH]; intros [|c' s0]; simpl; try discriminate; try lia.
    destruct (c =? c'); simpl; [intros ?%IH; lia | discriminate]. }
  apply Hl in Hm. simpl in Hm. rewrite length_app in Hm. simpl in Hm. lia.
Qed.

Lemma tmp_path_fresh p s : names s !! tmp_path p s = None.
Proof.
  unfold tmp_path. pose proof (mkstemp_fresh s (parent p) (u "." ++ basename p ++ u ".")) as Hf.
  apply orb_false_elim in Hf as [Hf _]. apply eq_None_not_Some. intros Hs.
  by apply is_file_spec in Hs; congruence.
Qed.

Lemma mkdirs_Ok p s s1 : run_op (Mkdirs p) s = Ok s1 ->
  names s1 = names s /\ inodes s1 = inodes s /\ next_inode s1 = next_inode s /\
  dirs s1 = list_to_set (prefixes p) ∪ dirs s.
Proof. simpl. destruct (through_file p s); [done|]. by intros [= <-]. Qed.

Lemma create_Ok p s s2 : run_op (Create p) s = Ok s2 ->
  names s2 = <[p := next_inode s]> (names s) /\
  inodes s2 = <[next_inode s := []]> (inodes s) /\ next_inode s2 = next_inode s + 1 /\
  dirs s2 = dirs s.
Proof. simpl. destruct (_ || _); [done|]. by intros [= <-]. Qed.

(** After the temporary file has been created: the outcome of any number of
    the remaining calls. *)
Lemma write_ops_prefix p tmp data s s2 k :
  p <> tmp -> names s2 = <[tmp := next_inode s]> (names s) ->
  inodes s2 = <[next_inode s := []]> (inodes s) ->
  next_inode s2 = next_inode s + 1 ->
  exists r s', run_ops (take k (LocalStore.write_ops p tmp data)) s2 = (r, s') /\
    dirs s' = dirs s2 /\ next_inode s' = next_inode s + 1 /\
    (forall i, i < next_inode s -> inodes s' !! i = inodes s !! i) /\
    ((names s' = names s2 /\ (r = Ok tt -> (k <= length data)%nat)) \/
     (r = Ok tt /\ (length data < k)%nat /\ fs_read p s' = Ok data /\
      names s' = <[p := next_inode s]> (delete tmp (names s2)))).
Proof.
  intros Hp Hn Hi Hx. unfold LocalStore.write_ops.
  assert (Htmp : names s2 !! tmp = Some (next_inode s)) by (rewrite Hn; apply lookup_insert_eq).
  assert (Hino : inodes s2 !! next_inode s = Some []) by (rewrite Hi; apply lookup_insert_eq).
  rewrite take_app, length_map.
  destruct (Nat.le_gt_cases k (length data)) as [Hk|Hk].
  - replace (k - length data)%nat with 0%nat by lia. rewrite app_nil_r, firstn_map.
    erewrite run_appends by done. eexists _, _. split_and!; [done|done|done| |by left].
    simpl. intros i Hlt. rewrite lookup_insert_ne by lia. rewrite Hi. by rewrite lookup_insert_ne by lia.
  - rewrite take_ge by (rewrite length_map; lia).
    rewrite run_ops_app. erewrite run_appends by done.
    replace (k - length data)%nat with (S (k - length data - 1)) by lia.
    cbn [take run_ops run_op names]. rewrite Htmp. cbn [dirs].
    set (s3 := Fs (names s2) _ _ _).
    destruct (is_dir p s3 || negb (is_dir (parent p) s3)).
    + eexists _, _. split_and!; [done|done|done| |left; split; [done|discriminate]].
      simpl. intros i Hlt. rewrite lookup_insert_ne by lia. rewrite Hi. by rewrite lookup_insert_ne by lia.
    + replace (take (k - length data - 1) []) with (@nil sysop) by (by destruct (k - length data - 1)%nat).
      eexists _, _. split_and!; [done|done|done| |right].
      * simpl. intros i Hlt. rewrite lookup_insert_ne by lia. rewrite Hi. by rewrite lookup_insert_ne by lia.
      * split_and!; try done. unfold fs_read, set_names; cbn [names inodes s3].
        by rewrite lookup_insert_eq, lookup_insert_eq.
Qed.

(** The whole write: all or nothing, and no temporary file is left behind. *)
Lemma atomic_write_spec p s data r s' :
  fs_wf s -> LocalStore.run (LocalStore._atomic_write_bytes p data) s = (r, s') ->
  fs_wf s' /\
  (forall i, i < next_inode s -> inodes s' !! i = inodes s !! i) /\
  (forall q, q <> p -> names s' !! q = names s !! q) /\
  (exists l, dirs s' = l ∪ dirs s /\ forall q, q ∈ l -> q ∈ prefixes (parent p)) /\
  match r with
  | Ok _ => fs_read p s' = Ok data /\ is_file p s' = true
  | Raise _ => names s' !! p = names s !! p
  end.
Proof.
  intros Hwf Hrun. rewrite run_atomic in Hrun. cbv zeta in Hrun.
  destruct (run_op (Mkdirs (parent p)) s) as [s1|e] eqn:E1.
  2:{ inversion Hrun; subst. split_and!; try done.
      exists ∅. split; [by rewrite union_empty_l_L | set_solver]. }
  apply mkdirs_Ok in E1 as (Hn1 & Hi1 & Hx1 & Hd1).
  assert (Hdirs : exists l, dirs s1 = l ∪ dirs s /\ forall q, q ∈ l -> q ∈ prefixes (parent p)).
  { eexists; split; [exact Hd1|]. intros q Hq. by apply elem_of_list_to_set in Hq. }
  set (tmp := tmp_path p s1) in *.
  assert (Hp : p <> tmp) by exact (not_eq_sym (tmp_path_neq p s1)).
  assert (Htmp : names s !! tmp = None) by (rewrite <- Hn1; apply tmp_path_fresh).
  destruct (run_op (Create tmp) s1) as [s2|e] eqn:E2.
  2:{ inversion Hrun; subst. split_and!; try done.
      - unfold fs_wf. by rewrite Hn1, Hx1.
      - by rewrite Hi1. - by rewrite Hn1. - by rewrite Hn1. }
  apply create_Ok in E2 as (Hn2 & Hi2 & Hx2 & Hd2).
  rewrite Hn1, Hx1 in Hn2. rewrite Hi1, Hx1 in Hi2. rewrite Hx1 in Hx2.
  destruct (write_ops_prefix p tmp data s s2 (length (LocalStore.write_ops p tmp data)) Hp Hn2 Hi2 Hx2)
    as (r' & s3 & Hr & Hd3 & Hx3 & Hi3 & Hcase).
  rewrite take_ge in Hr by lia. rewrite Hr in Hrun.
  assert (Hlen : length (LocalStore.write_ops p tmp data) = S (length data)).
  { unfold LocalStore.write_ops. rewrite length_app, length_map. simpl. lia. }
  rewrite <- Hd2, <- Hd3 in Hdirs.
  destruct Hcase as [[Hn3 Hk]|(-> & _ & Hrd & Hn3)].
  - destruct r' as [[]|e]; [specialize (Hk eq_refl); lia|].
    assert (Hf : is_file tmp s3 = true).
    { apply is_file_spec. rewrite Hn3, Hn2, lookup_insert_eq. eauto. }
    cbn [run_op] in Hrun. rewrite Hf in Hrun. inversion Hrun; subst r s'. clear Hrun.
    assert (Hn : delete tmp (names s3) = names s).
    { rewrite Hn3, Hn2. by rewrite delete_insert_id. }
    unfold set_names. cbn [names inodes dirs next_inode]. rewrite Hn. split_and!; try done.
    unfold fs_wf; cbn [names next_inode]. intros q i Hq. apply Hwf in Hq. simpl in Hq. lia.
  - inversion Hrun; subst r s'. clear Hrun.
    assert (Hn : delete tmp (names s2) = names s).
    { rewrite Hn2. by rewrite delete_insert_id. }
    rewrite Hn in Hn3. split_and!; try done.
    + unfold fs_wf. rewrite Hn3, Hx3. intros q i.
      rewrite lookup_insert_Some. intros [[_ <-]|[_ Hq]]; [lia|].
      apply Hwf in Hq. simpl in Hq. lia.
    + intros q Hq. by rewrite Hn3, lookup_insert_ne.
    + apply is_file_spec. rewrite Hn3, lookup_insert_eq. eauto.
Qed.

Lemma prefixes_prefix q p : q ∈ prefixes p -> q `prefix_of` p.
Proof.
  revert q; induction p as [|c p IH]; intros q; simpl; [by inversion 1|].
  rewrite elem_of_cons. intros [->|(q' & -> & Hq)%elem_of_map].
  - by exists p.
  - by apply prefix_cons, IH.
Qed.

Lemma prefixes_parent q p : q ∈ prefixes (parent p) -> q `prefix_of` p.
Proof.
  intros Hq%prefixes_prefix. etrans; [exact Hq|].
  destruct (decide (p = [])) as [->|Hp]; [done|].
  exists [basename p]. unfold parent, basename. by apply app_removelast_last.
Qed.

Definition apart (p q : path) : Prop := ~ p `prefix_of` q /\ ~ q `prefix_of` p.

(** Paths that are not prefixes of one another do not see each other's
    writes. *)
Lemma atomic_write_frame p s data r s' q :
  fs_wf s -> LocalStore.run (LocalStore._atomic_write_bytes p data) s = (r, s') -> apart p q ->
  fs_read q s' = fs_read q s /\ path_exists q s' = path_exists q s.
Proof.
  intros Hwf Hrun [Hpq Hqp].
  destruct (atomic_write_spec p s data r s' Hwf Hrun) as (_ & Hi & Hn & (l & Hd & Hl) & _).
  assert (Hq : names s' !! q = names s !! q) by (apply Hn; intros ->; by apply Hpq).
  assert (Hdir : is_dir q s' = is_dir q s).
  { unfold is_dir. apply bool_decide_ext. rewrite Hd, elem_of_union.
    split; [|by right]. intros [Hql|]; [|done]. by destruct Hqp; apply prefixes_parent, Hl. }
  assert (Hthr : through_file q s' = through_file q s).
  { unfold through_file. assert (H1 : forall x, x ∈ prefixes q -> is_file x s' = is_file x s).
    { intros x Hx%prefixes_prefix. unfold is_file. rewrite Hn; [done|]. by intros ->. }
    induction (prefixes q) as [|x xs IH]; simpl; [done|].
    rewrite (H1 x) by left. f_equal. apply IH. intros y Hy. apply H1. by right. }
  split.
  - unfold fs_read. rewrite Hq, Hthr, Hdir. destruct (names s !! q) as [i|] eqn:E; [|done].
    by rewrite Hi by (by apply Hwf in E).
  - unfold path_exists. rewrite Hdir. unfold is_file. by rewrite Hq.
Qed.

#[export] Instance local_store_laws root same :
  @StoreLaws fs (LocalStore.local_store root same) fs_wf
    (fun a b => apart (LocalStore._path a) (LocalStore._path b)).
Proof.
  split; unfold read_bytes, write_bytes, exists_; cbn [LocalStore.local_store];
    unfold LocalStore.read_bytes, LocalStore.write_bytes, LocalStore.exists_.
  - intros rel data s r s' Hwf Hrun. by apply atomic_write_spec in Hrun as [? _].
  - intros rel data s s' Hwf Hrun. apply atomic_write_spec in Hrun as (_ & _ & _ & _ & Hr & Hf); [|done].
    split; [done|]. unfold path_exists. by rewrite Hf.
  - intros rel data s r s' rel' Hwf Hi Hrun.
    destruct (atomic_write_frame _ _ _ _ _ _ Hwf Hrun Hi) as [-> ->]. done.
  - intros d a b Ha Hb Hab. unfold apart, LocalStore._path.
    rewrite !path_parts_lstrip, !path_parts_sibling by done.
    split; intros [l Hl]; rewrite <- app_assoc in Hl; apply app_inv_head in Hl; by inversion Hl.
Qed.

(** ** Interrupted writes *)

(** [I] holds in every state of every execution, and [Q] when it is over. *)
Fixpoint holds (I : fs -> Prop) (Q : res unit -> fs -> Prop) (c : LocalStore.script) (s : fs) : Prop :=
  I s /\
  match c with
  | LocalStore.Done r => Q r s
  | LocalStore.Call o k => (forall s', run_op o s = Ok s' -> holds I Q (k (Ok tt)) s') /\ forall e, holds I Q (k (Raise e)) s
  | LocalStore.Mkstemp d pre k =>
      (forall s', run_op (Create (d ++ [mkstemp s d pre])) s = Ok s' -> holds I Q (k (Ok (d ++ [mkstemp s d pre]))) s') /\
      forall e, holds I Q (k (Raise e)) s
  end.
Lemma holds_now I Q c s : holds I Q c s -> I s.
Proof. by destruct c; intros []. Qed.
Lemma holds_steps I Q c s c' s' : rtc LocalStore.step (c, s) (c', s') -> holds I Q c s -> holds I Q c' s'.
Proof.
  remember (c, s) as x eqn:Ex. remember (c', s') as y eqn:Ey. intros Hst. revert c s Ex.
  induction Hst as [|x y' z Hxy _ IH]; intros c s -> Hh; [by injection Ey as -> ->|]. subst z.
  inversion Hxy; subst; cbn [holds] in Hh; (eapply IH; [done|reflexivity|]); by apply Hh.
Qed.
(** The execution in which only calls that must fail do. *)
Lemma run_steps c s r s' : LocalStore.run c s = (r, s') -> rtc LocalStore.step (c, s) (LocalStore.Done r, s').
Proof.
  revert s. induction c as [r0|o k IH|d pre k IH]; intros s; cbn [LocalStore.run]; [intros [= -> ->]; apply rtc_refl|..].
  - destruct (run_op o s) as [s1|e] eqn:E; intros Hr; (eapply rtc_l; [|by apply IH]); [by apply LocalStore.step_call|apply LocalStore.step_fails].
  - destruct (run_op (Create _) s) as [s1|e] eqn:E; intros Hr; (eapply rtc_l; [|by apply IH]); [by apply LocalStore.step_mkstemp|apply LocalStore.step_mkstemp_fails].
Qed.

(** What every state of a write has in common with the state before it. *)
Record unharmed (p : path) (data : bytes) (s s' : fs) : Prop := {
  uh_inodes i : i < next_inode s -> inodes s' !! i = inodes s !! i;
  uh_names q : is_Some (names s !! q) -> q <> p -> names s' !! q = names s !! q;
  uh_target : names s' !! p = names s !! p \/ fs_read p s' = Ok data
}.
Definition written (p : path) (data : bytes) (s : fs) (r : res unit) (s' : fs) : Prop :=
  match r with
  | Ok _ => fs_read p s' = Ok data /\ forall q, q <> p -> names s' !! q = names s !! q
  | Raise _ => names s' !! p = names s !! p
  end.

(** While the temporary file is being filled. *)
Lemma holds_filling p tmp i data0 data s n d ino nx k :
  let I := unharmed p data0 s in let Q := written p data0 s in
  let filled c := Fs n d (<[i := c]> ino) nx in
  n !! tmp = Some i ->
  (forall c, I (filled c)) -> (forall c e, holds I Q (k (Raise e)) (filled c)) ->
  forall c, (forall s', run_op (Rename tmp p) (filled (c ++ data)) = Ok s' -> holds I Q (k (Ok tt)) s') ->
  holds I Q (LocalStore.calls (LocalStore.write_ops p tmp data) k) (filled c).
Proof.
  intros I Q filled Hn HI Hfail. unfold LocalStore.write_ops. induction data as [|b data IH]; intros c Hk.
  - rewrite app_nil_r in Hk. cbn [map app LocalStore.calls holds]. split; [apply HI|]. split; [exact Hk|]. intros e. apply Hfail.
  - cbn [map app LocalStore.calls holds]. split; [apply HI|]. split; [|intros e; apply Hfail].
    intros s'. cbn [run_op names filled]. rewrite Hn. intros [= <-]. rewrite lookup_insert_eq, insert_insert_eq.
    apply IH. by rewrite <- app_assoc.
Qed.

Lemma atomic_holds p data s : fs_wf s ->
  holds (unharmed p data s) (written p data s) (LocalStore._atomic_write_bytes p data) s.
Proof.
  intros Hwf. assert (Hsame : forall s', names s' = names s -> inodes s' = inodes s -> unharmed p data s s').
  { intros s' Hn Hi. split; [by rewrite Hi|by rewrite Hn|left; by rewrite Hn]. }
  cbn [LocalStore._atomic_write_bytes holds]. split; [by apply Hsame|]. split; [|intros e; cbn [holds]; split; [by apply Hsame|done]].
  intros s1 (Hn1 & Hi1 & Hx1 & _)%mkdirs_Ok. cbn [LocalStore.through_temp holds]. split; [by apply Hsame|]. fold (tmp_path p s1).
  split; [|intros e; cbn [holds written]; split; [by apply Hsame|by rewrite Hn1]]. set (tmp := tmp_path p s1).
  assert (Hp : p <> tmp) by exact (not_eq_sym (tmp_path_neq p s1)).
  assert (Htmp : names s !! tmp = None) by (rewrite <- Hn1; apply tmp_path_fresh).
  intros s2 (Hn2 & Hi2 & Hx2 & _)%create_Ok. rewrite Hn1, Hx1 in Hn2. rewrite Hi1, Hx1 in Hi2.
  destruct s2 as [n d ino nx]. cbn [names inodes next_inode] in *. subst n ino.
  set (i := next_inode s) in *. set (n := <[tmp := i]> (names s)).
  assert (Hother : forall q, is_Some (names s !! q) -> q <> tmp) by (intros q [j Hq] ->; congruence).
  assert (HI : forall d' c, unharmed p data s (Fs n d' (<[i := c]> (inodes s)) nx)).
  { intros d' c. split; cbn [names inodes]; unfold n.
    - intros j Hj. by rewrite lookup_insert_ne by lia.
    - intros q Hq _. rewrite lookup_insert_ne; [done|]. by apply not_eq_sym, Hother.
    - left. by rewrite lookup_insert_ne by done. }
  assert (Hfail : forall c e, holds (unharmed p data s) (written p data s)
    (LocalStore.Call (Unlink tmp) (fun _ => LocalStore.Done (Raise e))) (Fs n d (<[i := c]> (inodes s)) nx)).
  { intros c e. cbn [holds]. split; [apply HI|]. split.
    - intros s'. cbn [run_op]. destruct (is_file _ _); [|by destruct (is_dir _ _)]. intros [= <-].
      assert (Hdel : delete tmp n = names s) by (unfold n; by rewrite delete_insert_id).
      split; [|change (delete tmp n !! p = names s !! p); by rewrite Hdel]. split; cbn [set_names names inodes].
      + intros j Hj. by rewrite lookup_insert_ne by lia.
      + intros q _ _. by rewrite Hdel.
      + left. by rewrite Hdel.
    - intros e'. cbn [written names]. split; [apply HI|]. unfold n. by rewrite lookup_insert_ne by done. }
  apply (holds_filling p tmp i data data s n d (inodes s) nx _ (lookup_insert_eq _ _ _) (HI d) Hfail []).
  intros s'. cbn [run_op names]. unfold n at 1. rewrite lookup_insert_eq. destruct (_ || _); [done|]. intros [= <-].
  cbn [app holds]. set (s3 := set_names _ _).
  assert (Hn3 : names s3 = <[p := i]> (names s)) by (cbn; unfold n; by rewrite delete_insert_id).
  assert (Hread : fs_read p s3 = Ok data).
  { unfold fs_read. rewrite Hn3, lookup_insert_eq. cbn. by rewrite lookup_insert_eq. }
  split; [|split; [done|]; intros q Hq; by rewrite Hn3, lookup_insert_ne by done]. split.
  - intros j Hj. cbn. by rewrite lookup_insert_ne by lia.
  - intros q _ Hq. by rewrite Hn3, lookup_insert_ne by done.
  - by right.
Qed.

(** C28: writing a file of a local store is atomic. In every state of every
    execution of [write_bytes] - whichever of its system calls fail, and
    wherever it is cut off - every other file has its name, inode and content,
    every inode that existed keeps its content (so a hard-linked snapshot that
    shares the target's inode is intact), and the target is either untouched or
    complete. At the end it holds the data if the write returned and the old file if
    it raised, and after a return no other name has appeared. If only the calls
    fail that must, no temporary file is left in either case. *)
Theorem local_write_atomic rel data s :
  fs_wf s ->
  let p := LocalStore._path rel in
  (forall c s', rtc LocalStore.step (LocalStore._atomic_write_bytes p data, s) (c, s') ->
     (forall i, i < next_inode s -> inodes s' !! i = inodes s !! i) /\
     (forall q, is_file q s = true -> q <> p -> names s' !! q = names s !! q /\ fs_read q s' = fs_read q s) /\
     (names s' !! p = names s !! p \/ LocalStore.read_bytes rel s' = Ok data) /\
     match c with
     | LocalStore.Done (Ok _) => LocalStore.read_bytes rel s' = Ok data /\ forall q, q <> p -> names s' !! q = names s !! q
     | LocalStore.Done (Raise _) => names s' !! p = names s !! p
     | _ => True
     end) /\
  (forall r s', LocalStore.write_bytes rel data s = (r, s') ->
     rtc LocalStore.step (LocalStore._atomic_write_bytes p data, s) (LocalStore.Done r, s') /\
     forall q, q <> p -> names s' !! q = names s !! q).
Proof.
  intros Hwf p. split.
  - intros c s' Hst. pose proof (holds_steps _ _ _ _ _ _ Hst (atomic_holds p data s Hwf)) as Hh.
    destruct (holds_now _ _ _ _ Hh) as [Hi Hn Ht]. split_and!; [exact Hi| |exact Ht|].
    + intros q [i Hq]%is_file_spec Hqp. assert (Hq' : names s' !! q = names s !! q) by (apply Hn; [by eexists|done]).
      split; [done|]. apply fs_read_ext; [done| |by apply is_file_spec; eauto]. intros j Hj. apply Hi. by apply Hwf in Hj.
    + destruct c as [[]| |]; [by apply Hh|by apply Hh|done|done].
  - intros r s' Hrun. split; [by apply run_steps|]. by apply atomic_write_spec in Hrun as (_ & _ & Hn & _).
Qed.
End Local.

(** A concrete [mkstemp]: the prefix, then more letters than any existing
    name has. *)
Definition max_len (s : fs) : nat :=
  list_max (map (fun p => length (basename p)) (map fst (map_to_list (names s)) ++ elements (dirs s))).
#[export] Instance long_temp_names : TempNames := {|
  mkstemp s d pre := pre ++ replicate (S (max_len s)) 97
|}.
#[export] Instance long_temp_names_laws : TempNamesLaws.
Proof.
  split.
  - intros s d pre. set (q := d ++ [mkstemp s d pre]).
    assert (Hlen : (max_len s < length (basename q))%nat).
    { unfold q, basename. rewrite last_last. simpl. rewrite length_app. simpl. rewrite length_replicate. lia. }
    assert (Hmax : forall p, p ∈ map fst (map_to_list (names s)) ++ elements (dirs s) ->
              (length (basename p) <= max_len s)%nat).
    { intros p Hp. unfold max_len.
      pose proof (proj1 (list_max_le _ _) (Nat.le_refl (list_max (map (fun p => length (basename p))
        (map fst (map_to_list (names s)) ++ elements (dirs s)))))) as Hall.
      rewrite Forall_forall in Hall. apply Hall. apply (elem_of_map_2 (fun p => length (basename p))). exact Hp. }
    unfold path_exists. apply orb_false_iff. split.
    + apply bool_decide_eq_false. intros [i Hi]. enough (length (basename q) <= max_len s)%nat by lia.
      apply Hmax. rewrite elem_of_app. left. apply elem_of_map. exists (q, i). split; [done|]. by apply elem_of_map_to_list.
    + apply bool_decide_eq_false. intros Hq. enough (length (basename q) <= max_len s)%nat by lia.
      apply Hmax. rewrite elem_of_app. right. by apply elem_of_elements.
  - intros s d pre. simpl. induction pre as [|c pre IH]; simpl; [done|]. by rewrite Z.eqb_refl.
Qed.

(** [a/x] and its hard link [snap/x]: rewriting the first leaves the second. *)
Definition linked_fs : fs :=
  Fs {[ [u "a"; u "x"] := 0; [u "snap"; u "x"] := 0 ]} {[ []; [u "a"]; [u "snap"] ]}
     {[ 0 := u "old" ]} 1.
Lemma linked_fs_wf : fs_wf linked_fs.
Proof. unfold fs_wf. apply (bool_decide_unpack _). by vm_compute. Qed.

Lemma local_write_atomic_witness :
  (LocalStore.write_bytes (u "a/x") (u "new") linked_fs).1 = Ok tt /\
  forall r s', LocalStore.write_bytes (u "a/x") (u "new") linked_fs = (r, s') ->
    forall i, i < 1 -> inodes s' !! i = inodes linked_fs !! i.
Proof.
  split; [by vm_compute|]. intros r s' Hr.
  destruct (local_write_atomic (u "a/x") (u "new") linked_fs linked_fs_wf) as [Hall Hrun].
  exact (proj1 (Hall _ s' (proj1 (Hrun r s' Hr)))).
Defined.

(** * The secret statement *)
Section SecretFacts.
Context `{UnicodeDB}.

Lemma secret_line_scan name value t :
  no_quote name = true ->
  sql_scan (secret_line name value ++ t) None = cons value <$> sql_scan t None.
Proof.
  intros Hn. unfold secret_line. rewrite <- !app_assoc.
  rewrite sql_scan_skip by done. rewrite sql_scan_skip by done.
  change (u "'," ++ [10] ++ t) with (39 :: 44 :: 10 :: t).
  change (u " '" ++ ?x) with (32 :: 39 :: x).
  change (sql_scan (32 :: ?x) None) with (sql_scan x None).
  change (esc value) with (double_quotes value). by rewrite sql_scan_literal.
Qed.

(** C30: whatever the environment holds (quotes included), the literals of the
    [CREATE SECRET] statement read back as exactly the five configured values,
    in order: no value can end its literal early. *)
Theorem s3_secret_sql_literals env sql :
  s3_secret_sql env = Some sql ->
  sql_literals sql =
    Some [env_get env (u "OSMPQ_S3_KEY_ID") []; env_get env (u "OSMPQ_S3_SECRET") [];
          env_get env (u "OSMPQ_S3_ENDPOINT") [];
          env_get env (u "OSMPQ_S3_REGION") (u "auto");
          env_get env (u "OSMPQ_S3_URL_STYLE") (u "path")].
Proof.
  unfold s3_secret_sql. destruct (_ || _); [done|].
  intros Hs%(inj Some). rewrite <- Hs. unfold sql_literals.
  do 4 rewrite sql_scan_skip by done. do 5 rewrite secret_line_scan by done.
  rewrite sql_scan_skip by done.
  replace (sql_scan _ None) with (Some (@nil pystr)); [done|].
  unfold use_ssl_text. by destruct (str_in _ _).
Qed.
End SecretFacts.

Lemma s3_secret_sql_literals_witness :
  match @s3_secret_sql latin1_db
          [(u "OSMPQ_S3_KEY_ID", u "it's"); (u "OSMPQ_S3_SECRET", u "'; DROP");
           (u "OSMPQ_S3_ENDPOINT", u "e")] with
  | Some sql => sql_literals sql = Some [u "it's"; u "'; DROP"; u "e"; u "auto"; u "path"]
  | None => False
  end.
Proof.
  destruct (@s3_secret_sql latin1_db _) as [sql|] eqn:E; [|discriminate].
  exact (@s3_secret_sql_literals latin1_db _ sql E).
Defined.
