(* ===== verification/Manifest.v ===== *)
(** [layout/manifest.py]: the manifest, its JSON form, the paths it
    references, and reading and writing numbered manifests through a store.
    The fields hold whatever JSON value was loaded, as in the source. *)
From S2P Require Import Prelude PyStr PyFloat Json LocalStore MemoryStore Store.

Definition MANIFEST_VERSION : Z := 1.
Definition CURRENT_MANIFEST_VERSION : Z := 5.
Definition SCHEMA_VERSION : Z := 1.
Definition COORDINATE_SCALE : Z := 10000000.

Definition DEFAULT_PROMOTED_KEYS : list pystr :=
  [u "amenity"; u "shop"; u "highway"; u "building"; u "name"; u "natural"; u "landuse";
   u "leisure"; u "railway"; u "waterway"; u "place"; u "tourism"].

Definition _is_remote (root : pystr) : bool := py_contains (u "://") root.

(** [str(Path(root) / path)] for a local root: an absolute [path] replaces the
    root. *)
Definition _join (root path : pystr) : pystr :=
  if _is_remote root then rstrip_slash root ++ u "/" ++ path
  else if startswith path (u "/") then LocalStore.path_str path []
  else LocalStore.path_str root (path_parts path).

Definition local_root_path (root : pystr) : res pystr :=
  if _is_remote root then Raise ValueError else Ok (LocalStore.path_str root []).

Record Manifest := {
  generation : json;
  timestamp_osm_base : json;
  source : json;
  extent : json;
  leaf_cells : json;
  tables : json;
  byid : json;
  index : json;
  promoted_keys : json;
  replication_sequence : json;
  manifest_version : json;
  schema_version : json;
  coordinate_scale : json;
  ancestor_depths : json;
  max_depth : json;
  rowgroup_index : json;
  producer : json;
  stats : json;
  replication_source : json;
  deltas : json;
  areas : json;
  history : json
}.

(** A dictionary literal's entries, when the version is at least [v]. *)
Definition since (m : Manifest) (v : Z) (entries : list (pystr * json)) :
    res (list (pystr * json)) :=
  res_map (fun b : bool => if b then entries else []) (ge_int (manifest_version m) v).

Definition base_entries (m : Manifest) : list (pystr * json) :=
  [(u "manifest_version", manifest_version m);
   (u "generation", generation m);
   (u "schema_version", schema_version m);
   (u "coordinate_scale", coordinate_scale m);
   (u "promoted_keys", promoted_keys m);
   (u "timestamp_osm_base", timestamp_osm_base m);
   (u "replication_sequence", replication_sequence m);
   (u "source", source m);
   (u "extent", extent m);
   (u "leaf_cells", leaf_cells m);
   (u "tables", tables m);
   (u "byid", byid m);
   (u "index", index m)].
Definition v2_entries (m : Manifest) : list (pystr * json) :=
  [(u "ancestor_depths", ancestor_depths m); (u "max_depth", max_depth m);
   (u "rowgroup_index", rowgroup_index m); (u "producer", producer m); (u "stats", stats m)].
Definition v3_entries (m : Manifest) : list (pystr * json) :=
  [(u "replication_source", replication_source m); (u "deltas", deltas m)].

Definition to_dict (m : Manifest) : res json :=
  let* e2 := since m 2 (v2_entries m) in
  let* e3 := since m 3 (v3_entries m) in
  let* e4 := since m 4 [(u "areas", areas m)] in
  let* e5 := since m 5 [(u "history", history m)] in
  Ok (JObj (base_entries m ++ e2 ++ e3 ++ e4 ++ e5)).

Definition promoted_default : json := JList (map JStr DEFAULT_PROMOTED_KEYS).

Definition from_dict (d : json) : res Manifest :=
  let* generation := getitem d (u "generation") in
  let* timestamp_osm_base := getitem d (u "timestamp_osm_base") in
  let* source := getitem d (u "source") in
  let* extent := getitem d (u "extent") in
  let* leaf_cells := getitem d (u "leaf_cells") in
  let* tables := get_default d (u "tables") (JObj []) in
  let* byid := get_default d (u "byid") (JObj []) in
  let* index := get_default d (u "index") (JObj []) in
  let* promoted_keys := get_default d (u "promoted_keys") promoted_default in
  let* replication_sequence := get_or_none d (u "replication_sequence") in
  let* manifest_version := get_default d (u "manifest_version") (JInt MANIFEST_VERSION) in
  let* schema_version := get_default d (u "schema_version") (JInt SCHEMA_VERSION) in
  let* coordinate_scale := get_default d (u "coordinate_scale") (JInt COORDINATE_SCALE) in
  let* ancestor_depths := get_or_none d (u "ancestor_depths") in
  let* max_depth := get_or_none d (u "max_depth") in
  let* rowgroup_index := get_default d (u "rowgroup_index") (JObj []) in
  let* producer := get_default d (u "producer") (JObj []) in
  let* stats := get_default d (u "stats") (JObj []) in
  let* replication_source := get_or_none d (u "replication_source") in
  let* deltas := get_default d (u "deltas") (JObj []) in
  let* areas := get_default d (u "areas") (JObj []) in
  let* history := get_or_none d (u "history") in
  Ok {| generation := generation; timestamp_osm_base := timestamp_osm_base; source := source;
        extent := extent; leaf_cells := leaf_cells; tables := tables; byid := byid;
        index := index; promoted_keys := promoted_keys;
        replication_sequence := replication_sequence; manifest_version := manifest_version;
        schema_version := schema_version; coordinate_scale := coordinate_scale;
        ancestor_depths := ancestor_depths; max_depth := max_depth;
        rowgroup_index := rowgroup_index; producer := producer; stats := stats;
        replication_source := replication_source; deltas := deltas; areas := areas;
        history := history |}.

(** * Accessors *)
Definition cell_entry (m : Manifest) (table cell : pystr) (dflt : json) : res json :=
  let* spec := get_default (tables m) table (JObj []) in
  let* cells := get_default spec (u "cells") (JObj []) in
  get_default cells cell dflt.
Definition node_cell_files (m : Manifest) (cell : pystr) : res json :=
  cell_entry m (u "node") cell (JObj []).
Definition way_cell_file (m : Manifest) (cell : pystr) : res json :=
  cell_entry m (u "way") cell JNull.
Definition relation_cell_file (m : Manifest) (cell : pystr) : res json :=
  cell_entry m (u "relation") cell JNull.

(** * The paths a manifest references *)

(** [entry["path"]], or the paths of the tagged and untagged parts. *)
Definition part_path (entry : json) (part : pystr) : res (list json) :=
  let* o := get_or_none entry part in
  if truthy o then
    let* e := getitem entry part in let* p := getitem e (u "path") in Ok [p]
  else Ok [].
Definition table_entry_paths (entry : json) : res (list json) :=
  let* has := contains entry (u "path") in
  if has then res_map (fun p => [p]) (getitem entry (u "path"))
  else res_flat_map (part_path entry) [u "tagged"; u "untagged"].

Definition table_paths (spec : json) : res (list json) :=
  let* cells := get_default spec (u "cells") (JObj []) in
  let* its := items cells in
  res_flat_map (fun kv => table_entry_paths kv.2) its.

(** [for part in parts: paths.append(part["path"])] *)
Definition parts_paths (parts : json) : res (list json) :=
  let* ps := iter parts in
  res_mapM (fun part => getitem part (u "path")) ps.

Definition index_entry_path (entry : json) : res (list json) :=
  if truthy entry then
    let* p := get_or_none entry (u "path") in
    if truthy p then res_map (fun p => [p]) (getitem entry (u "path")) else Ok []
  else Ok [].

Definition area_cell_path (entry : json) : res (list json) :=
  let* p := get_or_none entry (u "path") in
  if truthy p then res_map (fun p => [p]) (getitem entry (u "path")) else Ok [].

Definition area_paths (areas : json) : res (list json) :=
  if truthy areas then
    let* index_entry := get_or_none areas (u "index") in
    let* p1 := index_entry_path index_entry in
    let* way_index_entry := get_or_none areas (u "way_index") in
    let* p2 := index_entry_path way_index_entry in
    let* cells := get_default areas (u "cells") (JObj []) in
    let* entries := values cells in
    let* p3 := res_flat_map area_cell_path entries in
    Ok (p1 ++ p2 ++ p3)
  else Ok [].

(** The files of one delta or history tier. *)
Definition tier_table_paths (table_files : json) : res (list json) :=
  match table_files with
  | JObj d => Ok (base.filter (fun p => truthy p = true) (map snd d))
  | _ => Ok (if truthy table_files then [table_files] else [])
  end.
Definition tier_paths (entry : json) : res (list json) :=
  let* files := get_default entry (u "files") (JObj []) in
  let* its := items files in
  res_flat_map (fun kv => tier_table_paths kv.2) its.

Definition spatial_paths (cells : json) : res (list json) :=
  let* its := items cells in res_flat_map (fun kv => parts_paths kv.2) its.

Definition history_paths (history : json) : res (list json) :=
  if truthy history then
    let* spatial := get_default history (u "spatial") (JObj []) in
    let* its1 := items spatial in
    let* p1 := res_flat_map (fun kv => spatial_paths kv.2) its1 in
    let* byid := get_default history (u "byid") (JObj []) in
    let* its2 := items byid in
    let* p2 := res_flat_map (fun kv => parts_paths kv.2) its2 in
    let* tiers := get_default history (u "tiers") (JObj []) in
    let* its3 := items tiers in
    let* p3 := res_flat_map (fun kv => tier_paths kv.2) its3 in
    Ok (p1 ++ p2 ++ p3)
  else Ok [].

Definition all_paths (m : Manifest) : res (list json) :=
  let* its := items (tables m) in
  let* p1 := res_flat_map (fun kv => table_paths kv.2) its in
  let* its := items (byid m) in
  let* p2 := res_flat_map (fun kv => parts_paths kv.2) its in
  let* its := items (index m) in
  let* p3 := res_flat_map (fun kv => parts_paths kv.2) its in
  let* p4 := values (rowgroup_index m) in
  let* p5 := area_paths (areas m) in
  let* its := items (deltas m) in
  let* p6 := res_flat_map (fun kv => tier_paths kv.2) its in
  let* p7 := history_paths (history m) in
  Ok (p1 ++ p2 ++ p3 ++ p4 ++ p5 ++ p6 ++ p7).

(** * Numbered manifests in a store *)
Section InStore.
Context `{UnicodeDB} `{JsonModule} {S : Type} `{Store S}.

Definition LATEST : pystr := u "manifest/LATEST".
Definition manifest_rel (number : Z) : pystr := u "manifest/" ++ str_of_Z number ++ u ".json".

Definition _read_latest (s : S) : res (option Z) :=
  let* there := exists_ LATEST s in
  if negb there then Ok None else
  let* body := read_bytes LATEST s in
  let* text := utf8_decode body in
  res_map Some (py_int (py_strip text)).

Definition next_manifest_number (s : S) : res Z :=
  let* latest := _read_latest s in
  Ok (match latest with Some n => n + 1 | None => 1 end).

(** The two writes, in their order. *)
Definition write_manifest_steps (manifest : Manifest) (number : Z) : res (list (pystr * bytes)) :=
  let* d := to_dict manifest in
  let* text := json_dumps d in
  let* body := utf8_encode text in
  let* latest := utf8_encode (str_of_Z number) in
  Ok [(manifest_rel number, body); (LATEST, latest)].

Fixpoint write_all (ws : list (pystr * bytes)) (s : S) : res unit * S :=
  match ws with
  | [] => (Ok tt, s)
  | (rel, data) :: ws' =>
      match write_bytes rel data s with
      | (Ok _, s') => write_all ws' s'
      | (Raise e, s') => (Raise e, s')
      end
  end.

Definition write_manifest (manifest : Manifest) (number : Z) (s : S) : res unit * S :=
  match write_manifest_steps manifest number with
  | Ok ws => write_all ws s
  | Raise e => (Raise e, s)
  end.

Definition load (number : Z) (s : S) : res Manifest :=
  let rel := manifest_rel number in
  let* there := exists_ rel s in
  if negb there then Raise FileNotFoundError else
  let* body := read_bytes rel s in
  let* d := json_loads body in
  from_dict d.

Definition load_latest (s : S) : res Manifest :=
  let* number := _read_latest s in
  match number with
  | None => Raise FileNotFoundError
  | Some n => load n s
  end.
End InStore.
