(* ===== verification/Gc.v ===== *)
(** [build/gc.py]: deleting the files no kept manifest references. *)
From S2P Require Import Prelude PyStr Json Fs LocalStore MemoryStore Store.

(** [man.get(k) or {}], then the values of the dictionary. *)
Definition section_values (j : json) (k : pystr) : res (list json) :=
  let* d := get_or_empty j k in values d.

(** [for p in parts: paths.add(p["path"])] *)
Definition add_parts (parts : json) : res (list json) :=
  let* ps := iter parts in
  res_mapM (fun p => getitem p (u "path")) ps.

Definition add_part (entry : json) (part : pystr) : res (list json) :=
  let* o := get_or_none entry part in
  if truthy o then
    let* e := getitem entry part in let* p := getitem e (u "path") in Ok [p]
  else Ok [].
Definition add_table_entry (entry : json) : res (list json) :=
  let* has := contains entry (u "path") in
  if has then res_map (fun p => [p]) (getitem entry (u "path"))
  else res_flat_map (add_part entry) [u "tagged"; u "untagged"].

(** [if areas.get(k): paths.add(areas[k]["path"])] *)
Definition add_area_index (areas : json) (k : pystr) : res (list json) :=
  let* o := get_or_none areas k in
  if truthy o then
    let* e := getitem areas k in let* p := getitem e (u "path") in Ok [p]
  else Ok [].
Definition add_area_cell (entry : json) : res (list json) :=
  let* has := contains entry (u "path") in
  if has then res_map (fun p => [p]) (getitem entry (u "path")) else Ok [].

Definition add_delta_value (val : json) : list json :=
  match val with
  | JObj d => map snd d
  | JStr s => [JStr s]
  | _ => []
  end.
Definition add_delta_tier (tier_info : json) : res (list json) :=
  let* vals := section_values tier_info (u "files") in
  Ok (flat_map add_delta_value vals).

Definition add_history_tier (tier_entry : json) : res (list json) :=
  let* vals := section_values tier_entry (u "files") in
  res_flat_map (fun typ_files =>
    let* vs := values (if truthy typ_files then typ_files else JObj []) in
    Ok (base.filter (fun p => truthy p = true) vs)) vals.

(** What is added to the set, in order; adding an unhashable value raises. *)
Definition referenced_list (man : json) : res (list json) :=
  let* specs := section_values man (u "tables") in
  let* p1 := res_flat_map (fun spec =>
    let* entries := section_values spec (u "cells") in
    res_flat_map add_table_entry entries) specs in
  let* vs := section_values man (u "byid") in
  let* p2 := res_flat_map add_parts vs in
  let* vs := section_values man (u "index") in
  let* p3 := res_flat_map add_parts vs in
  let* p4 := section_values man (u "rowgroup_index") in
  let* areas := get_or_empty man (u "areas") in
  let* p5 := add_area_index areas (u "index") in
  let* p6 := add_area_index areas (u "way_index") in
  let* vs := section_values areas (u "cells") in
  let* p7 := res_flat_map add_area_cell vs in
  let* vs := section_values man (u "deltas") in
  let* p8 := res_flat_map add_delta_tier vs in
  let* history := get_or_empty man (u "history") in
  let* vs := section_values history (u "spatial") in
  let* p9 := res_flat_map (fun typ_cells =>
    let* vs := values typ_cells in res_flat_map add_parts vs) vs in
  let* vs := section_values history (u "byid") in
  let* p10 := res_flat_map add_parts vs in
  let* vs := section_values history (u "tiers") in
  let* p11 := res_flat_map add_history_tier vs in
  Ok (p1 ++ p2 ++ p3 ++ p4 ++ p5 ++ p6 ++ p7 ++ p8 ++ p9 ++ p10 ++ p11).

Definition _referenced_paths (man : json) : res (list json) :=
  let* ps := referenced_list man in
  if forallb hashable ps then Ok ps else Raise TypeError.

Section Gc.
Context `{UnicodeDB} `{JsonModule}.

Definition manifest_dir : path := [u "manifest"].

(** The parts of a file name: [p.stem] drops the last extension, unless the
    only dot is in front. *)
Definition stem (name : pystr) : pystr :=
  match rfind_succ 46 name with
  | S (S k) => if (S (S k) <? length name)%nat then take (S k) name else name
  | _ => name
  end.
Definition ends_json (name : pystr) : bool :=
  startswith (rev name) (rev (u ".json")).

(** The names in a directory, files and directories. *)
Definition children (d : path) (s : fs) : list pystr :=
  omap (fun p => match p with
                 | [] => None
                 | _ => if bool_decide (parent p = d) then Some (basename p) else None
                 end)
    (map fst (map_to_list (names s)) ++ elements (dirs s)).

Definition _manifest_numbers (s : fs) : list Z :=
  merge_sort Z.le
    (omap (fun f => if ends_json f then
                      match py_int (stem f) with Ok n => Some n | Raise _ => None end
                    else None)
          (children manifest_dir s)).

Definition under_manifest (p : path) : bool :=
  match p with c :: _ => c =s u "manifest" | [] => false end.

Definition _all_files_under (s : fs) : list path :=
  base.filter (fun p => negb (under_manifest p) = true) (map fst (map_to_list (names s))).

(** Directories, deepest first. *)
Definition deeper (p q : path) : Prop := (length q <= length p)%nat.
#[local] Instance deeper_dec : RelDecision deeper.
Proof. intros p q. unfold deeper. apply _. Defined.

(** A file name in reports: [str(rel).replace("\\", "/")]. *)
Definition report_name (p : path) : pystr := replace_char 92 [47] (rel_str p).

Fixpoint prune_loop (ds : list path) (s : fs) : res (list pystr) * fs :=
  match ds with
  | [] => (Ok [], s)
  | d :: ds' =>
      if (match d with [] => true | _ => false end) || under_manifest d then prune_loop ds' s
      else if negb (is_dir d s) then prune_loop ds' s
      else match children d s with
           | [] =>
               match run_op (Rmdir d) s with
               | Ok s' => let '(r, s'') := prune_loop ds' s' in
                          (res_map (cons (report_name d)) r, s'')
               | Raise e => (Raise e, s)
               end
           | _ => prune_loop ds' s
           end
  end.
Definition _prune_empty_dirs (s : fs) : res (list pystr) * fs :=
  prune_loop (merge_sort deeper (elements (dirs s))) s.

Record summary := {
  removed_files : list pystr;
  removed_manifests : list pystr;
  removed_dirs : list pystr
}.

Definition number_rel (n : Z) : pystr := u "manifest/" ++ str_of_Z n ++ u ".json".
Definition number_path (n : Z) : path := [u "manifest"; str_of_Z n ++ u ".json"].

(** [set(numbers[-keep:]) if keep > 0 else set()] *)
Definition keep_numbers (keep : Z) (numbers : list Z) : list Z :=
  if 0 <? keep then drop (length numbers - Z.to_nat keep) numbers else [].

Definition read_manifest (s : fs) (n : Z) : res json :=
  let* body := fs_read (number_path n) s in json_loads body.

(** Deleting a list of files, stopping at the first error. *)
Definition unlink_all (ps : list path) (s : fs) : res unit * fs := run_ops (map Unlink ps) s.

Definition is_referenced (referenced : list json) (rel : pystr) : bool :=
  existsb (fun j => if j is JStr r then r =s rel else false) referenced.

Definition gc (keep : Z) (dry_run : bool) (s : fs) : res summary * fs :=
  let numbers := _manifest_numbers s in
  match numbers with
  | [] => (Ok {| removed_files := []; removed_manifests := []; removed_dirs := [] |}, s)
  | _ =>
      let kept := keep_numbers keep numbers in
      match res_flat_map (fun n => let* man := read_manifest s n in _referenced_paths man) kept with
      | Raise e => (Raise e, s)
      | Ok referenced =>
          let to_delete_files :=
            base.filter (fun p => negb (is_referenced referenced (report_name p)) = true)
              (_all_files_under s) in
          let to_delete_manifests :=
            base.filter (fun n => negb (existsb (Z.eqb n) kept) = true) numbers in
          let rfiles := map report_name to_delete_files in
          let rmanifests := map number_rel to_delete_manifests in
          if dry_run then
            (Ok {| removed_files := rfiles; removed_manifests := rmanifests; removed_dirs := [] |}, s)
          else
            match unlink_all (to_delete_files ++ map number_path to_delete_manifests) s with
            | (Raise e, s1) => (Raise e, s1)
            | (Ok _, s1) =>
                match _prune_empty_dirs s1 with
                | (Raise e, s2) => (Raise e, s2)
                | (Ok ds, s2) =>
                    (Ok {| removed_files := rfiles; removed_manifests := rmanifests;
                           removed_dirs := ds |}, s2)
                end
            end
      end
  end.
End Gc.
