(* ===== verification/ManifestFacts.v ===== *)
(** Facts about manifests: the JSON round trip, and publishing a manifest
    through any store that keeps its promises.

    Facts about the garbage collector: it keeps what the kept manifests
    reference, for the manifest reader's own notion of a reference. *)
From S2P Require Import Prelude PyStr PyFloat PyFloatFacts Json Fs LocalStore MemoryStore Store StoreFacts Manifest Gc.

(** A field introduced by version [v], as a manifest of this version saves it:
    below [v] it is dropped and read back as the default. *)
Definition saved_field (m : Manifest) (v : Z) (x dflt : json) : json :=
  match ge_int (manifest_version m) v with Ok true => x | _ => dflt end.

Definition as_saved (m : Manifest) : Manifest := {|
  generation := generation m; timestamp_osm_base := timestamp_osm_base m; source := source m;
  extent := extent m; leaf_cells := leaf_cells m; tables := tables m; byid := byid m;
  index := index m; promoted_keys := promoted_keys m;
  replication_sequence := replication_sequence m; manifest_version := manifest_version m;
  schema_version := schema_version m; coordinate_scale := coordinate_scale m;
  ancestor_depths := saved_field m 2 (ancestor_depths m) JNull;
  max_depth := saved_field m 2 (max_depth m) JNull;
  rowgroup_index := saved_field m 2 (rowgroup_index m) (JObj []);
  producer := saved_field m 2 (producer m) (JObj []);
  stats := saved_field m 2 (stats m) (JObj []);
  replication_source := saved_field m 3 (replication_source m) JNull;
  deltas := saved_field m 3 (deltas m) (JObj []);
  areas := saved_field m 4 (areas m) (JObj []);
  history := saved_field m 5 (history m) JNull
|}.

Lemma from_to_dict m d : to_dict m = Ok d -> from_dict d = Ok (as_saved m).
Proof.
  unfold to_dict, since, as_saved, saved_field. intros Hd.
  repeat match goal with
  | H : context [ge_int ?x ?v] |- _ => destruct (ge_int x v) as [[]|]; [| |discriminate]
  end; injection Hd as <-; reflexivity.
Qed.

Lemma as_saved_version m z :
  manifest_version m = JInt z -> CURRENT_MANIFEST_VERSION <= z -> as_saved m = m.
Proof.
  unfold CURRENT_MANIFEST_VERSION. intros Hv Hz. unfold as_saved, saved_field. rewrite Hv. simpl.
  repeat match goal with |- context [?a <=? z] => replace (a <=? z) with true by (symmetry; apply Z.leb_le; lia) end.
  rewrite <- Hv. by destruct m.
Qed.

Lemma to_dict_Ok m : (exists b, ge_int (manifest_version m) 2 = Ok b) -> exists d, to_dict m = Ok d.
Proof.
  intros [b Hb]. unfold to_dict, since.
  destruct (manifest_version m); try discriminate; simpl; eauto.
Qed.

(** * Publishing *)
Section Publish.
Context `{UnicodeDB} `{JsonModule} `{!JsonLaws} {S : Type} `{Store S}
  (ok : S -> Prop) (indep : pystr -> pystr -> Prop) `{!StoreLaws S ok indep}.

Definition manifest_name (n : Z) : pystr := str_of_Z n ++ u ".json".

Lemma manifest_name_plain n : plain_name (manifest_name n).
Proof.
  unfold manifest_name, plain_name. split.
  - rewrite not_elem_of_app. split.
    + intros Hs. pose proof (str_of_Z_chars n) as Hc. rewrite Forall_forall in Hc.
      apply Hc in Hs. apply digit_or_minus_ascii in Hs. unfold slash in Hs. lia.
    + intros Hs. apply (bool_decide_pack _) in Hs. by vm_compute in Hs.
  - unfold keep_part. apply negb_true_iff, orb_false_iff. rewrite !str_eqb_neq.
    pose proof (str_of_Z_nonempty n). destruct (str_of_Z n) as [|c s]; [done|].
    split; [done|]. simpl. by destruct s.
Qed.

Lemma manifest_name_inj a b : manifest_name a = manifest_name b -> a = b.
Proof. unfold manifest_name. intros E%app_inv_tail. by apply (inj str_of_Z). Qed.

Lemma indep_manifests a b : a <> b -> indep (manifest_rel a) (manifest_rel b).
Proof.
  intros Hab. unfold manifest_rel. change (u "manifest/") with (u "manifest" ++ [slash]).
  rewrite <- !app_assoc. apply store_indep_siblings; [apply manifest_name_plain..|].
  intros E. by apply Hab, manifest_name_inj.
Qed.

Lemma indep_manifest_latest a : indep (manifest_rel a) LATEST /\ indep LATEST (manifest_rel a).
Proof.
  assert (Hne : manifest_name a <> u "LATEST").
  { unfold manifest_name. pose proof (str_of_Z_chars a) as Hc.
    destruct (str_of_Z a) as [|c s]; [done|]. apply Forall_cons in Hc as [[->|Hc] _]; [done|].
    intros E. injection E as -> _. done. }
  assert (Hl : plain_name (u "LATEST")).
  { split; [|done]. intros Hs. apply (bool_decide_pack _) in Hs. by vm_compute in Hs. }
  unfold manifest_rel, LATEST. change (u "manifest/LATEST") with (u "manifest" ++ slash :: u "LATEST").
  change (u "manifest/") with (u "manifest" ++ [slash]). rewrite <- !app_assoc.
  split; (eapply store_indep_siblings; [apply manifest_name_plain || exact Hl..|]); [done|by intros E].
Qed.

(** What loading sees is determined by the two files it opens. *)
Lemma load_frame n s s' :
  read_bytes (manifest_rel n) s' = read_bytes (manifest_rel n) s ->
  exists_ (manifest_rel n) s' = exists_ (manifest_rel n) s -> load n s' = load n s.
Proof. intros Hr He. unfold load. by rewrite Hr, He. Qed.

Lemma read_latest_frame s s' :
  read_bytes LATEST s' = read_bytes LATEST s -> exists_ LATEST s' = exists_ LATEST s ->
  _read_latest s' = _read_latest s.
Proof. intros Hr He. unfold _read_latest. by rewrite Hr, He. Qed.

Lemma write_steps_eq m d number :
  to_dict m = Ok d -> json_wf d = true ->
  exists body, write_manifest_steps m number =
      Ok [(manifest_rel number, body); (LATEST, str_of_Z number)] /\ json_loads body = Ok d.
Proof.
  intros Hd Hwf. destruct (json_roundtrip d Hwf) as (text & Ht & Ha & Hl).
  exists text. split; [|done]. unfold write_manifest_steps. rewrite Hd. simpl. rewrite Ht. simpl.
  rewrite utf8_encode_ascii by done. simpl.
  by rewrite utf8_encode_ascii by apply str_of_Z_ascii.
Qed.

(** C27: publishing a manifest never exposes a half-written state.  After the
    numbered file alone has been written (or failed to be), [load_latest]
    still answers exactly as before.  When [write_manifest] returns, both
    [load_latest] and [load number] give the manifest as saved, the next number
    is one more, and every other numbered manifest still loads as before. *)
Theorem write_manifest_publishes m d number s :
  ok s -> to_dict m = Ok d -> json_wf d = true ->
  _read_latest s <> Ok (Some number) ->
  exists ws, write_manifest_steps m number = Ok ws /\ length ws = 2%nat /\
    (forall k r s', (k < 2)%nat -> write_all (take k ws) s = (r, s') ->
       load_latest s' = load_latest s) /\
    (forall s', write_manifest m number s = (Ok tt, s') ->
       load_latest s' = Ok (as_saved m) /\ load number s' = Ok (as_saved m) /\
       next_manifest_number s' = Ok (number + 1) /\
       forall n, n <> number -> load n s' = load n s).
Proof.
  intros Hok Hd Hwf Hnew. destruct (write_steps_eq m d number Hd Hwf) as (body & Hws & Hl).
  eexists; split; [exact Hws|]. split; [done|]. split.
  - intros [|[|k]] r s' Hk; [by intros [= _ <-]| |lia]. cbn [take write_all].
    destruct (write_bytes _ _ s) as [r1 s1] eqn:E1.
    destruct (store_write_frame _ _ _ _ _ LATEST Hok (proj1 (indep_manifest_latest number)) E1) as [Hr He].
    intros Hs'. assert (s' = s1) as -> by (destruct r1; inversion Hs'; done).
    unfold load_latest. rewrite (read_latest_frame s s1) by done.
    destruct (_read_latest s) as [[n|]|e] eqn:El; [|done..]. simpl.
    assert (Hn : number <> n) by congruence.
    destruct (store_write_frame _ _ _ _ _ (manifest_rel n) Hok (indep_manifests number n Hn) E1).
    by apply load_frame.
  - intros s'. unfold write_manifest. rewrite Hws. cbn [write_all].
    destruct (write_bytes (manifest_rel number) body s) as [[[]|e] s1] eqn:E1; [|done].
    destruct (write_bytes LATEST _ s1) as [[[]|e] s2] eqn:E2; [|done]. intros [= <-].
    pose proof (store_write_ok _ _ _ _ _ Hok E1) as Hok1.
    destruct (store_write_read _ _ _ _ Hok E1) as [Hr1 He1].
    destruct (store_write_read _ _ _ _ Hok1 E2) as [Hr2 He2].
    destruct (store_write_frame _ _ _ _ _ (manifest_rel number) Hok1
      (proj2 (indep_manifest_latest number)) E2) as [Hr3 He3].
    assert (Hload : load number s2 = Ok (as_saved m)).
    { unfold load. rewrite He3, He1. simpl. rewrite Hr3, Hr1. simpl. rewrite Hl. simpl.
      by apply from_to_dict. }
    assert (Hlat : _read_latest s2 = Ok (Some number)).
    { unfold _read_latest. rewrite He2. simpl. rewrite Hr2. simpl.
      rewrite utf8_decode_ascii by apply str_of_Z_ascii. simpl.
      by rewrite py_strip_str_of_Z, py_int_str_of_Z. }
    split_and!; [| |by unfold next_manifest_number; rewrite Hlat|].
    + unfold load_latest. by rewrite Hlat.
    + done.
    + intros n Hn.
      destruct (store_write_frame _ _ _ _ _ (manifest_rel n) Hok (indep_manifests number n ltac:(done)) E1).
      destruct (store_write_frame _ _ _ _ _ (manifest_rel n) Hok1 (proj2 (indep_manifest_latest n)) E2).
      apply load_frame; congruence.
Qed.
End Publish.

Definition sample_manifest : Manifest := {|
  generation := JStr (u "g1"); timestamp_osm_base := JStr (u "t"); source := JStr (u "planet");
  extent := JList []; leaf_cells := JList [JStr (u "0")]; tables := JObj []; byid := JObj [];
  index := JObj []; promoted_keys := JList []; replication_sequence := JInt 7;
  manifest_version := JInt 3; schema_version := JInt 1; coordinate_scale := JInt 10000000;
  ancestor_depths := JNull; max_depth := JInt 12; rowgroup_index := JObj [];
  producer := JObj []; stats := JObj []; replication_source := JNull;
  deltas := JObj []; areas := JObj [(u "index", JNull)]; history := JNull
|}.

(** Publishing number 2 over number 1 in a memory store. *)
Lemma write_manifest_publishes_witness :
  let s := [(u "manifest/LATEST", u "1")] in
  let W := @write_manifest tree_json MemoryStore.t _ sample_manifest 2 s in
  W.1 = Ok tt /\
  @load_latest latin1_db tree_json _ _ W.2 = Ok (as_saved sample_manifest) /\
  areas (as_saved sample_manifest) = JObj [].
Proof.
  intros s W.
  destruct (to_dict sample_manifest) as [d|] eqn:Hd; [|discriminate].
  assert (Hwf : json_wf d = true) by (injection Hd as <-; by vm_compute).
  assert (Hn : @_read_latest latin1_db MemoryStore.t _ s <> Ok (Some 2)) by by vm_compute.
  destruct (@write_manifest_publishes latin1_db tree_json tree_json_laws MemoryStore.t _ _ _ _
              sample_manifest d 2 s I Hd Hwf Hn) as (ws & _ & _ & _ & Hw).
  assert (HW : W = (Ok tt, W.2)).
  { rewrite (surjective_pairing W) at 1. apply (f_equal2 pair); [by vm_compute|reflexivity]. }
  split; [by rewrite HW|]. split; [|done]. apply (Hw _ HW).
Defined.

(** * Every path the manifest reader knows is referenced *)

(** The strings of the first list are in the second. *)
Definition sub (a b : list json) : Prop := forall p, JStr p ∈ a -> JStr p ∈ b.
Definition rsub (x y : res (list json)) : Prop :=
  forall a b, x = Ok a -> y = Ok b -> sub a b.

Lemma sub_app a a' b b' : sub a b -> sub a' b' -> sub (a ++ a') (b ++ b').
Proof. intros H1 H2 p. rewrite !elem_of_app. intros []; eauto. Qed.
Lemma sub_refl a : sub a a.
Proof. by intros p. Qed.
Lemma rsub_refl x : rsub x x.
Proof. intros a b -> [= ->]. apply sub_refl. Qed.

Lemma res_flat_map_Ok {A B} (f : A -> res (list B)) l bs :
  res_flat_map f l = Ok bs <-> exists bss, Forall2 (fun a b => f a = Ok b) l bss /\ bs = concat bss.
Proof.
  unfold res_flat_map. destruct (res_mapM f l) as [bss|e] eqn:E; simpl.
  - apply res_mapM_Ok in E. split; [intros [= <-]; eauto|].
    intros (bss' & H' & ->). apply res_mapM_Ok in E. apply res_mapM_Ok in H'. congruence.
  - split; [done|]. intros (bss & H' & _). apply res_mapM_Ok in H'. congruence.
Qed.

Lemma rsub_flat_map {A} (f g : A -> res (list json)) l :
  (forall x, x ∈ l -> rsub (f x) (g x)) -> rsub (res_flat_map f l) (res_flat_map g l).
Proof.
  intros Hfg a b (fs & Hf & ->)%res_flat_map_Ok (gs & Hg & ->)%res_flat_map_Ok.
  revert gs Hg. induction Hf as [|x fa l fs Hx Hf IH]; intros gs Hg; inversion Hg; subst; simpl; [intros p Hp; inversion Hp|].
  apply sub_app.
  - apply (Hfg x (list_elem_of_here _ _)); done.
  - apply IH; [|done]. intros z Hz. apply Hfg. by right.
Qed.

Lemma res_flat_map_snd {A B C} (f : B -> res (list C)) (l : list (A * B)) :
  res_flat_map (fun kv => f kv.2) l = res_flat_map f (map snd l).
Proof. unfold res_flat_map. f_equal. induction l as [|x l IH]; simpl; [done|]. by rewrite IH. Qed.

(** [d.get(k, {})] and [d.get(k) or {}] have the same items, when the first
    has any. *)
Lemma section_values_items o k its :
  items (default (JObj []) (dict_get k o)) = Ok its ->
  section_values (JObj o) k = Ok (map snd its).
Proof.
  unfold section_values, get_or_empty, get_or_none, get_default, get. simpl.
  destruct (dict_get k o) as [v|]; simpl; [|by intros [= <-]].
  destruct v as [| | | | | |[|x d]]; simpl; try done; by intros [= <-].
Qed.

Lemma get_default_inv j k dflt v :
  get_default j k dflt = Ok v -> exists o, j = JObj o /\ v = default dflt (dict_get k o).
Proof. unfold get_default, get. destruct j; simpl; try done. intros [= <-]. eauto. Qed.

Ltac split_bind H :=
  repeat match type of H with
  | res_bind _ _ = Ok _ => let x := fresh "v" in let E := fresh "E" in
      apply res_bind_Ok in H as (x & E & H)
  end.

(** A section read with [get_default]/[items] on one side and with
    [section_values] on the other. *)
Lemma section_rsub (f g : json -> res (list json)) j k :
  (forall x, rsub (f x) (g x)) ->
  rsub (let* d := get_default j k (JObj []) in let* its := items d in
        res_flat_map (fun kv => f kv.2) its)
       (let* vs := section_values j k in res_flat_map g vs).
Proof.
  intros Hfg a b Ha Hb. split_bind Ha. apply get_default_inv in E as (o & -> & ->).
  rewrite (section_values_items o k _ E0) in Hb. simpl in Hb.
  rewrite res_flat_map_snd in Ha. by eapply rsub_flat_map.
Qed.

Lemma table_paths_rsub spec :
  rsub (table_paths spec)
       (let* entries := section_values spec (u "cells") in res_flat_map add_table_entry entries).
Proof. apply (section_rsub table_entry_paths). intros x. apply rsub_refl. Qed.

(** A tier's file entry that is not a dictionary gives at most itself. *)
Lemma tier_table_other v a p :
  tier_table_paths v = Ok a -> is_dict v = false -> JStr p ∈ a -> v = JStr p.
Proof.
  intros Ha Hv Hp. assert (p0 : a = if truthy v then [v] else []) by (destruct v; simpl in *; congruence).
  subst a. destruct (truthy v); [|by inversion Hp]. by apply list_elem_of_singleton in Hp.
Qed.

Lemma tier_table_sub v a : tier_table_paths v = Ok a -> sub a (add_delta_value v).
Proof.
  intros Ha p Hp. destruct (is_dict v) eqn:D.
  - destruct v; try discriminate. injection Ha as <-. by apply list_elem_of_filter in Hp as [_ ?].
  - apply (tier_table_other _ _ _ Ha D) in Hp as ->. by apply list_elem_of_singleton.
Qed.

Lemma tier_paths_rsub entry : rsub (tier_paths entry) (add_delta_tier entry).
Proof.
  assert (Hf : forall l, res_flat_map (fun v => Ok (add_delta_value v)) l = Ok (flat_map add_delta_value l)).
  { intros l. unfold res_flat_map. induction l as [|x l IH]; simpl; [done|].
    destruct (res_mapM _ l); simpl in *; congruence. }
  intros a b Ha Hb.
  refine (section_rsub tier_table_paths (fun v => Ok (add_delta_value v)) entry (u "files") _ a b Ha _).
  - intros x a' b' Hx [= <-]. by apply tier_table_sub.
  - unfold add_delta_tier in Hb. destruct (section_values _ _); simpl in *; [|done]. by rewrite Hf.
Qed.

Lemma history_tier_rsub entry : rsub (tier_paths entry) (add_history_tier entry).
Proof.
  apply (section_rsub tier_table_paths). intros v a b Ha Hb p Hp. destruct (is_dict v) eqn:D.
  - destruct v as [| | | | | |d]; try discriminate. injection Ha as <-.
    destruct d; simpl in Hb; injection Hb as <-; exact Hp.
  - pose proof (tier_table_other _ _ _ Ha D Hp) as ->.
    destruct p; simpl in *; [injection Ha as <-; inversion Hp | done].
Qed.

Lemma index_entry_sub o k v a b :
  v = default JNull (dict_get k o) -> index_entry_path v = Ok a ->
  add_area_index (JObj o) k = Ok b -> sub a b.
Proof.
  intros -> Ha Hb. unfold index_entry_path, add_area_index, get_or_none in *. simpl in *.
  destruct (dict_get k o) as [v|] eqn:E; simpl in *; [|injection Ha as <-; intros p; inversion 1].
  destruct (truthy v) eqn:T; [|injection Ha as <-; intros p; inversion 1].
  split_bind Ha. destruct (truthy v0); [|injection Ha as <-; intros p; inversion 1].
  apply res_bind_Ok in Hb as (p & Hp & Hb). rewrite Hp in Ha. simpl in Ha.
  injection Ha as <-. injection Hb as <-. apply sub_refl.
Qed.

Lemma area_cell_rsub entry : rsub (area_cell_path entry) (add_area_cell entry).
Proof.
  intros a b Ha Hb. unfold area_cell_path, add_area_cell in *. split_bind Ha.
  destruct (truthy v) eqn:T; [|injection Ha as <-; intros p; inversion 1].
  apply get_default_inv in E as (o & -> & ->). simpl in *.
  destruct (dict_get (u "path") o); [|done]. simpl in *. congruence.
Qed.

Lemma area_paths_sub o areas a p5 p6 p7 b5 :
  area_paths (default (JObj []) (dict_get (u "areas") o)) = Ok a ->
  get_or_empty (JObj o) (u "areas") = Ok areas ->
  add_area_index areas (u "index") = Ok p5 -> add_area_index areas (u "way_index") = Ok p6 ->
  section_values areas (u "cells") = Ok b5 -> res_flat_map add_area_cell b5 = Ok p7 ->
  sub a (p5 ++ p6 ++ p7).
Proof.
  intros Ha Hg H5 H6 Hb7 H7. unfold get_or_empty, get_or_none, get_default, get in Hg. simpl in Hg.
  destruct (dict_get (u "areas") o) as [v|]; simpl in *; [|injection Ha as <-; intros p; inversion 1].
  unfold area_paths in Ha. destruct (truthy v) eqn:T; [|injection Ha as <-; intros p; inversion 1].
  injection Hg as <-. split_bind Ha. injection Ha as <-.
  apply get_default_inv in E as (d & -> & ->). apply get_default_inv in E1 as (d' & [= <-] & ->).
  apply get_default_inv in E3 as (d' & [= <-] & ->).
  unfold values in E4. destruct (items _) as [its|] eqn:Ei; [|done]. injection E4 as <-.
  rewrite (section_values_items d (u "cells") _ Ei) in Hb7. injection Hb7 as <-.
  apply sub_app; [by eapply index_entry_sub|]. apply sub_app; [by eapply index_entry_sub|].
  refine (rsub_flat_map area_cell_path add_area_cell _ _ _ _ E5 H7). intros. apply area_cell_rsub.
Qed.

Lemma spatial_rsub cells :
  rsub (spatial_paths cells) (let* vs := values cells in res_flat_map add_parts vs).
Proof.
  intros a b Ha Hb. unfold spatial_paths, values in *. destruct (items cells); simpl in *; [|done].
  rewrite res_flat_map_snd in Ha. change (res_flat_map parts_paths) with (res_flat_map add_parts) in Ha.
  rewrite Ha in Hb. injection Hb as <-. apply sub_refl.
Qed.

Lemma history_paths_sub o h a p9 p10 p11 v9 v10 v11 :
  history_paths (default JNull (dict_get (u "history") o)) = Ok a ->
  get_or_empty (JObj o) (u "history") = Ok h ->
  section_values h (u "spatial") = Ok v9 ->
  res_flat_map (fun typ_cells => let* vs := values typ_cells in res_flat_map add_parts vs) v9 = Ok p9 ->
  section_values h (u "byid") = Ok v10 -> res_flat_map add_parts v10 = Ok p10 ->
  section_values h (u "tiers") = Ok v11 -> res_flat_map add_history_tier v11 = Ok p11 ->
  sub a (p9 ++ p10 ++ p11).
Proof.
  intros Ha Hg H9 F9 H10 F10 H11 F11.
  unfold get_or_empty, get_or_none, get_default, get in Hg. simpl in Hg.
  destruct (dict_get (u "history") o) as [v|]; simpl in *; [|injection Ha as <-; intros p; inversion 1].
  unfold history_paths in Ha. destruct (truthy v) eqn:T; [|injection Ha as <-; intros p; inversion 1].
  injection Hg as <-. split_bind Ha. injection Ha as <-.
  assert (Hsec : forall (f g : json -> res (list json)) k w its vs x y, (forall x, rsub (f x) (g x)) ->
    get_default v k (JObj []) = Ok w -> items w = Ok its -> res_flat_map (fun kv => f kv.2) its = Ok x ->
    section_values v k = Ok vs -> res_flat_map g vs = Ok y -> sub x y).
  { intros f g k w its vs x y Hfg Hw Hi Hx Hvs Hy.
    refine (section_rsub f g v k Hfg x y _ _).
    - by rewrite Hw; simpl; rewrite Hi.
    - by rewrite Hvs. }
  apply sub_app; [|apply sub_app].
  - exact (Hsec _ _ _ _ _ _ _ _ spatial_rsub E E0 E1 H9 F9).
  - exact (Hsec parts_paths add_parts _ _ _ _ _ _ (fun x => rsub_refl _) E2 E3 E4 H10 F10).
  - exact (Hsec _ _ _ _ _ _ _ _ history_tier_rsub E5 E6 E7 H11 F11).
Qed.

Lemma from_dict_sections d m :
  from_dict d = Ok m -> exists o, d = JObj o /\
    tables m = default (JObj []) (dict_get (u "tables") o) /\
    byid m = default (JObj []) (dict_get (u "byid") o) /\
    index m = default (JObj []) (dict_get (u "index") o) /\
    rowgroup_index m = default (JObj []) (dict_get (u "rowgroup_index") o) /\
    deltas m = default (JObj []) (dict_get (u "deltas") o) /\
    areas m = default (JObj []) (dict_get (u "areas") o) /\
    history m = default JNull (dict_get (u "history") o).
Proof.
  unfold from_dict. intros H. destruct d as [| | | | | |o]; try discriminate.
  exists o. split; [done|]. unfold get_or_none, get_default, get in H. cbn [items res_map] in H.
  do 5 (apply res_bind_Ok in H as (? & _ & H)). cbn [res_bind] in H. injection H as <-. done.
Qed.

(** The collector's references contain the reader's paths. *)
Lemma referenced_all_paths d m ps rs :
  from_dict d = Ok m -> all_paths m = Ok ps -> referenced_list d = Ok rs -> sub ps rs.
Proof.
  intros Hd Hps Hrs.
  destruct (from_dict_sections d m Hd) as (o & -> & Ht & Hb & Hi & Hr & Hde & Ha & Hh).
  unfold all_paths in Hps. rewrite Ht, Hb, Hi, Hr, Hde, Ha, Hh in Hps. clear Hd Ht Hb Hi Hr Hde Ha Hh m.
  unfold referenced_list in Hrs. unfold values in Hps.
  apply res_bind_Ok in Hps as (i1 & I1 & Hps). apply res_bind_Ok in Hps as (q1 & Q1 & Hps).
  apply res_bind_Ok in Hps as (i2 & I2 & Hps). apply res_bind_Ok in Hps as (q2 & Q2 & Hps).
  apply res_bind_Ok in Hps as (i3 & I3 & Hps). apply res_bind_Ok in Hps as (q3 & Q3 & Hps).
  apply res_bind_Ok in Hps as (q4 & Q4 & Hps). apply res_bind_Ok in Hps as (q5 & Q5 & Hps).
  apply res_bind_Ok in Hps as (i6 & I6 & Hps). apply res_bind_Ok in Hps as (q6 & Q6 & Hps).
  apply res_bind_Ok in Hps as (q7 & Q7 & Hps). injection Hps as <-.
  destruct (items (default _ (dict_get (u "rowgroup_index") o))) as [i4|] eqn:I4; [|done].
  injection Q4 as <-.
  rewrite (section_values_items _ _ _ I1), (section_values_items _ _ _ I2),
    (section_values_items _ _ _ I3), (section_values_items _ _ _ I4) in Hrs.
  cbn [res_bind] in Hrs.
  apply res_bind_Ok in Hrs as (p1 & P1 & Hrs). apply res_bind_Ok in Hrs as (p2 & P2 & Hrs).
  apply res_bind_Ok in Hrs as (p3 & P3 & Hrs). apply res_bind_Ok in Hrs as (ar & Ear & Hrs).
  apply res_bind_Ok in Hrs as (p5 & P5 & Hrs). apply res_bind_Ok in Hrs as (p6 & P6 & Hrs).
  apply res_bind_Ok in Hrs as (v7 & V7 & Hrs). apply res_bind_Ok in Hrs as (p7 & P7 & Hrs).
  rewrite (section_values_items _ _ _ I6) in Hrs. cbn [res_bind] in Hrs.
  apply res_bind_Ok in Hrs as (p8 & P8 & Hrs). apply res_bind_Ok in Hrs as (h & Eh & Hrs).
  apply res_bind_Ok in Hrs as (v9 & V9 & Hrs). apply res_bind_Ok in Hrs as (p9 & P9 & Hrs).
  apply res_bind_Ok in Hrs as (v10 & V10 & Hrs). apply res_bind_Ok in Hrs as (p10 & P10 & Hrs).
  apply res_bind_Ok in Hrs as (v11 & V11 & Hrs). apply res_bind_Ok in Hrs as (p11 & P11 & Hrs).
  injection Hrs as <-. rewrite res_flat_map_snd in Q1, Q2, Q3, Q6.
  apply sub_app; [refine (rsub_flat_map _ _ _ _ _ _ Q1 P1); intros; apply table_paths_rsub|].
  apply sub_app; [refine (rsub_flat_map _ _ _ _ _ _ Q2 P2); intros; apply rsub_refl|].
  apply sub_app; [refine (rsub_flat_map _ _ _ _ _ _ Q3 P3); intros; apply rsub_refl|].
  apply sub_app; [apply sub_refl|].
  rewrite (app_assoc p6), (app_assoc p5). apply sub_app; [by eapply area_paths_sub|].
  apply sub_app; [refine (rsub_flat_map _ _ _ _ _ _ Q6 P8); intros; apply tier_paths_rsub|].
  by eapply history_paths_sub.
Qed.

(** * Deleting *)
Lemma unlink_all_Ok ps s s' :
  unlink_all ps s = (Ok tt, s') ->
  dirs s' = dirs s /\ inodes s' = inodes s /\
  forall q, names s' !! q = if bool_decide (q ∈ ps) then None else names s !! q.
Proof.
  unfold unlink_all. revert s; induction ps as [|p ps IH]; intros s; cbn [map run_ops].
  - intros [= <-]. split_and!; [done..|]. intros q. by case_bool_decide as Hq; [inversion Hq|].
  - cbn [run_op]. destruct (is_file p s); [|by destruct (is_dir p s)].
    intros (Hd & Hi & Hn)%IH. split_and!; [done..|]. intros q. rewrite Hn. unfold set_names; cbn [names].
    destruct (decide (q = p)) as [->|Hqp].
    + rewrite lookup_delete_eq. rewrite (bool_decide_eq_true_2 (p ∈ p :: ps)) by left. by case_bool_decide.
    + rewrite lookup_delete_ne by done. apply (f_equal (fun b : bool => if b then _ else _)).
      apply bool_decide_ext. rewrite elem_of_cons. naive_solver.
Qed.

Lemma prune_loop_files ds s r s' :
  prune_loop ds s = (r, s') ->
  names s' = names s /\ inodes s' = inodes s /\ dirs s' ⊆ dirs s /\
  forall d, d ∈ dirs s -> d ∉ dirs s' -> d <> [] /\ under_manifest d = false.
Proof.
  revert s r; induction ds as [|d ds IH]; intros s r; cbn [prune_loop].
  - intros [= _ <-]. naive_solver.
  - destruct (_ || under_manifest d) eqn:E1; [apply IH|].
    destruct (negb (is_dir d s)) eqn:E2; [apply IH|].
    destruct (children d s); [|apply IH]. cbn [run_op].
    destruct (is_dir d s); [|done]. destruct (prune_loop ds _) as [r1 s1] eqn:E.
    intros [= _ <-]. destruct (IH _ _ E) as (Hn & Hi & Hd & Hrm). cbn in Hn, Hi, Hd, Hrm.
    split_and!; [done..|set_solver|].
    intros x Hx Hx'. destruct (decide (x = d)) as [->|Hne].
    + apply orb_false_elim in E1 as [E1 ->]. by destruct d.
    + apply Hrm; [set_solver|done].
Qed.

Lemma children_nonempty d s p :
  parent p = d -> p <> [] -> (is_file p s = true \/ p ∈ dirs s) -> children d s <> [].
Proof.
  intros Hp Hne Hin E. unfold children in E.
  assert (Hb : basename p ∈ @nil pystr); [|by inversion Hb]. rewrite <- E.
  apply list_elem_of_omap. exists p. split.
  - rewrite elem_of_app. destruct Hin as [[i Hi]%is_file_spec|Hd].
    + left. apply elem_of_map. exists (p, i). split; [done|]. by apply elem_of_map_to_list.
    + right. by apply elem_of_elements.
  - destruct p; [done|]. by rewrite bool_decide_eq_true_2.
Qed.

Lemma children_inv d s c :
  c ∈ children d s -> exists p, p <> [] /\ parent p = d /\ (is_file p s = true \/ p ∈ dirs s).
Proof.
  unfold children. intros (p & Hp & Hc)%list_elem_of_omap.
  destruct p as [|x p]; [done|]. case_bool_decide as Hd; [|done].
  exists (x :: p). split; [done|]. split; [done|]. apply elem_of_app in Hp as [Hp|Hp].
  - left. apply elem_of_map in Hp as ([q i] & -> & Hp). apply is_file_spec.
    apply elem_of_map_to_list in Hp. eauto.
  - right. by apply elem_of_elements.
Qed.

Lemma parent_length p : p <> [] -> length p = S (length (parent p)).
Proof.
  intros Hp. unfold parent. rewrite (app_removelast_last [] Hp) at 1. rewrite length_app. simpl. lia.
Qed.

(** Pruning deepest first leaves no empty directory behind. *)
Lemma prune_loop_no_empty ds s r s' :
  StronglySorted deeper ds -> prune_loop ds s = (Ok r, s') ->
  forall d, d ∈ ds -> d ∈ dirs s' -> d <> [] -> under_manifest d = false -> children d s' <> [].
Proof.
  intros Hs. revert s r. induction Hs as [|d ds Hs IH Hd]; intros s r Hrun x Hx Hx' Hne Hm; [by inversion Hx|].
  cbn [prune_loop] in Hrun. apply elem_of_cons in Hx as [->|Hx].
  2:{ destruct (_ || under_manifest d); [by eapply IH|]. destruct (negb _); [by eapply IH|].
      destruct (children d s); [|by eapply IH]. cbn [run_op] in Hrun.
      destruct (is_dir d s); [|done]. destruct (prune_loop ds _) as [[r1|] s1] eqn:E; [|done].
      injection Hrun as _ <-. by eapply IH. }
  rewrite Hm in Hrun. destruct d as [|c d]; [done|]. cbn [orb] in Hrun.
  assert (Hkeep : forall s0 r0, prune_loop ds s0 = (r0, s') ->
    forall p, p ∈ dirs s0 -> (length (c :: d) < length p)%nat -> p ∈ dirs s').
  { clear - Hd. rewrite Forall_forall in Hd. intros s0 r0. revert s0 r0.
    induction ds as [|e ds IHds]; intros s0 r0; cbn [prune_loop]; [by intros [= _ <-]|].
    assert (Hd' : forall x, x ∈ ds -> deeper (c :: d) x) by (intros; apply Hd; by right).
    destruct (_ || _); [by apply IHds|]. destruct (negb _); [by apply IHds|].
    destruct (children e s0); [|by apply IHds]. cbn [run_op]. destruct (is_dir e s0); [|by intros [= _ <-]].
    destruct (prune_loop ds _) as [r1 s1] eqn:E. intros [= _ <-] p Hp Hl.
    eapply IHds; [done|exact E| |done]. cbn. apply elem_of_difference. split; [done|].
    rewrite elem_of_singleton. intros ->. specialize (Hd e (list_elem_of_here _ _)).
    unfold deeper in Hd. lia. }
  destruct (is_dir (c :: d) s) eqn:Ed; cbn [negb] in Hrun.
  2:{ apply prune_loop_files in Hrun as (_ & _ & Hsub & _). apply Hsub, is_dir_spec in Hx'. congruence. }
  destruct (children (c :: d) s) as [|y ys] eqn:Ec.
  - cbn [run_op] in Hrun. rewrite Ed in Hrun. destruct (prune_loop ds _) as [[r1|] s1] eqn:E; [|done].
    injection Hrun as _ <-. apply prune_loop_files in E as (_ & _ & Hsub & _). cbn in Hsub. set_solver.
  - destruct (children_inv (c :: d) s y) as (p & Hpn & Hpp & Hp); [rewrite Ec; left|].
    apply (children_nonempty _ _ p); [done..|].
    destruct (prune_loop_files _ _ _ _ Hrun) as (Hn & _).
    destruct Hp as [Hp|Hp]; [left; unfold is_file in *; by rewrite Hn|right].
    eapply Hkeep; [exact Hrun|done|]. rewrite (parent_length p Hpn), Hpp. lia.
Qed.

Section Collect.
Context `{UnicodeDB} `{JsonModule}.

(** The references of the kept manifests, as the collector computes them. *)
Definition references (keep : Z) (s : fs) : res (list json) :=
  res_flat_map (fun n => let* man := read_manifest s n in _referenced_paths man)
    (keep_numbers keep (_manifest_numbers s)).

Definition doomed_files (referenced : list json) (s : fs) : list path :=
  base.filter (fun p => negb (is_referenced referenced (report_name p)) = true) (_all_files_under s).
Definition doomed_numbers (keep : Z) (s : fs) : list Z :=
  base.filter (fun n => negb (existsb (Z.eqb n) (keep_numbers keep (_manifest_numbers s))) = true)
    (_manifest_numbers s).

Lemma gc_inv keep s sm s' :
  gc keep false s = (Ok sm, s') -> _manifest_numbers s <> [] ->
  exists referenced s1, references keep s = Ok referenced /\
    unlink_all (doomed_files referenced s ++ map number_path (doomed_numbers keep s)) s = (Ok tt, s1) /\
    _prune_empty_dirs s1 = (Ok (removed_dirs sm), s') /\
    removed_files sm = map report_name (doomed_files referenced s) /\
    removed_manifests sm = map number_rel (doomed_numbers keep s).
Proof.
  unfold gc. intros Hg Hne. unfold references, doomed_files, doomed_numbers.
  destruct (_manifest_numbers s) as [|n0 ns]; [done|].
  destruct (res_flat_map _ _) as [referenced|]; [|done].
  destruct (unlink_all _ s) as [[[]|] s1] eqn:Eu; [|done].
  destruct (_prune_empty_dirs s1) as [[ds|] s2] eqn:Ep; [|done].
  injection Hg as <- <-. eauto 10.
Qed.

Lemma elem_of_all_files p s : p ∈ _all_files_under s <-> under_manifest p = false /\ is_file p s = true.
Proof.
  unfold _all_files_under. rewrite list_elem_of_filter, negb_true_iff. apply and_iff_compat_l.
  rewrite is_file_spec, elem_of_map. split.
  - intros ([q i] & -> & Hq%elem_of_map_to_list). eauto.
  - intros [i Hi]. exists (p, i). split; [done|]. by apply elem_of_map_to_list.
Qed.

Lemma elem_of_doomed_numbers keep s n :
  n ∈ doomed_numbers keep s <->
  n ∈ _manifest_numbers s /\ n ∉ keep_numbers keep (_manifest_numbers s).
Proof.
  unfold doomed_numbers. rewrite list_elem_of_filter, negb_true_iff.
  rewrite <- not_true_iff_false, existsb_exists. split.
  - intros [Hn Hi]. split; [done|]. intros Hk. apply Hn. exists n.
    split; [by apply list_elem_of_In | apply Z.eqb_refl].
  - intros [Hi Hn]. split; [|done]. intros (m & Hm%list_elem_of_In & ->%Z.eqb_eq). done.
Qed.

Lemma is_referenced_spec rs rel : is_referenced rs rel = true <-> JStr rel ∈ rs.
Proof.
  unfold is_referenced. rewrite existsb_exists. split.
  - intros (j & Hj%list_elem_of_In & Hr). destruct j; try done. by apply str_eqb_eq in Hr as ->.
  - intros Hj. exists (JStr rel). split; [by apply list_elem_of_In | apply str_eqb_refl].
Qed.

Lemma number_path_inj a b : number_path a = number_path b -> a = b.
Proof.
  unfold number_path. intros E.
  assert (Hs : str_of_Z a ++ u ".json" = str_of_Z b ++ u ".json") by congruence.
  apply app_inv_tail in Hs. by apply (inj str_of_Z).
Qed.

(** What survives a collection, name by name. *)
Lemma gc_names keep s sm s' referenced :
  gc keep false s = (Ok sm, s') -> _manifest_numbers s <> [] -> references keep s = Ok referenced ->
  inodes s' = inodes s /\ dirs s' ⊆ dirs s /\
  (forall d, d ∈ dirs s -> d ∉ dirs s' -> d <> [] /\ under_manifest d = false) /\
  forall q, (names s' !! q = names s !! q \/ names s' !! q = None) /\
    (is_file q s = true -> names s' !! q = None <->
      (under_manifest q = false /\ JStr (report_name q) ∉ referenced) \/
      exists n, q = number_path n /\ n ∈ _manifest_numbers s /\
                n ∉ keep_numbers keep (_manifest_numbers s)).
Proof.
  intros Hg Hne Href. destruct (gc_inv _ _ _ _ Hg Hne) as (r' & s1 & Hr & Hu & Hp & _).
  rewrite Href in Hr. injection Hr as <-.
  apply unlink_all_Ok in Hu as (Hd & Hi & Hn).
  apply prune_loop_files in Hp as (Hn' & Hi' & Hd' & Hrm). rewrite Hd in Hd', Hrm.
  split_and!; [congruence|done|done|]. intros q. rewrite Hn', Hn. split.
  - case_bool_decide; auto.
  - intros Hf. assert (Hs : names s !! q <> None) by (apply is_file_spec in Hf as [? ->]; done).
    transitivity (q ∈ doomed_files referenced s ++ map number_path (doomed_numbers keep s)).
    { case_bool_decide; [by split|]. split; [done|]. by intros. }
    rewrite elem_of_app. apply Morphisms_Prop.or_iff_morphism.
    + unfold doomed_files. rewrite list_elem_of_filter, negb_true_iff, elem_of_all_files.
      rewrite <- not_true_iff_false, is_referenced_spec. naive_solver.
    + rewrite elem_of_map. setoid_rewrite elem_of_doomed_numbers. naive_solver.
Qed.

(** C29: a collection deletes exactly the garbage.  When it returns, a file is
    gone if and only if it lies outside [manifest/] and no kept manifest
    references it, or it is the JSON file of a manifest that is not kept; no
    surviving file changed its inode or content; no empty directory is left
    (outside [manifest/]); and the dry run reports the same files and
    manifests while changing nothing. *)
Theorem gc_deletes_exactly_garbage keep s sm s' :
  gc keep false s = (Ok sm, s') -> _manifest_numbers s <> [] ->
  exists referenced, references keep s = Ok referenced /\
    inodes s' = inodes s /\
    (forall q i, names s !! q = Some i ->
      (names s' !! q = Some i \/ names s' !! q = None) /\
      (names s' !! q = None <->
        (under_manifest q = false /\ JStr (report_name q) ∉ referenced) \/
        exists n, q = number_path n /\ n ∈ _manifest_numbers s /\
                  n ∉ keep_numbers keep (_manifest_numbers s))) /\
    (forall d, d ∈ dirs s' -> d <> [] -> under_manifest d = false -> children d s' <> []) /\
    gc keep true s = (Ok {| removed_files := removed_files sm;
                            removed_manifests := removed_manifests sm; removed_dirs := [] |}, s).
Proof.
  intros Hg Hne. destruct (gc_inv _ _ _ _ Hg Hne) as (rs & s1 & Hr & Hu & Hp & Hf & Hm).
  exists rs. destruct (gc_names _ _ _ _ _ Hg Hne Hr) as (Hi & Hd & _ & Hn).
  split_and!; [done|done| | |].
  - intros q i Hq. destruct (Hn q) as [H1 H2]. rewrite Hq in H1. split; [done|].
    apply H2. apply is_file_spec. eauto.
  - intros d Hd1 Hd2 Hd3. unfold _prune_empty_dirs in Hp.
    pose proof (prune_loop_files _ _ _ _ Hp) as (_ & _ & Hsub & _).
    refine (prune_loop_no_empty _ _ _ _ _ Hp d _ Hd1 Hd2 Hd3).
    + apply Sorted_StronglySorted; [|apply Sorted_merge_sort].
      * intros a b c. unfold deeper. lia.
      * intros a b. unfold deeper. lia.
    + rewrite merge_sort_Permutation. apply elem_of_elements. by apply Hsub.
  - unfold gc. rewrite Hf, Hm. unfold references in Hr. unfold doomed_files, doomed_numbers.
    destruct (_manifest_numbers s); [done|]. by rewrite Hr.
Qed.
End Collect.

(** * The newest manifest survives *)
Lemma max_in_last (l : list Z) (keep n : Z) :
  StronglySorted Z.le l -> 0 < keep -> n ∈ l -> (forall k, k ∈ l -> k <= n) ->
  n ∈ keep_numbers keep l.
Proof.
  intros Hs Hk Hn Hmax. unfold keep_numbers. rewrite (proj2 (Z.ltb_lt _ _) Hk).
  set (j := (length l - Z.to_nat keep)%nat).
  rewrite <- (take_drop j l) in Hn. apply elem_of_app in Hn as [Hn|]; [|done].
  destruct (drop j l) as [|y t] eqn:E.
  { apply (f_equal length) in E. rewrite length_drop in E. simpl in E.
    destruct l as [|x l]; [rewrite take_nil in Hn; inversion Hn|]. unfold j in E. simpl in E. lia. }
  assert (Hy : y ∈ l) by (rewrite <- (take_drop j l), elem_of_app, E; right; left).
  rewrite <- (take_drop j l) in Hs.
  assert (n <= y) by (eapply (StronglySorted_app_1_elem_of _ _ _ _ _ Hs Hn); rewrite E; left).
  specialize (Hmax y Hy). replace n with y by lia. left.
Qed.

Lemma manifest_numbers_sorted `{UnicodeDB} s : StronglySorted Z.le (_manifest_numbers s).
Proof.
  unfold _manifest_numbers. apply Sorted_StronglySorted; [intros a b c; lia|].
  apply Sorted_merge_sort. intros a b. lia.
Qed.

Section Latest.
Context `{UnicodeDB} `{JsonModule} `{TempNames} (root : pystr) (same : pystr -> path -> bool).
#[local] Instance root_store : Store fs := LocalStore.local_store root same.

Lemma latest_path : LocalStore._path LATEST = [u "manifest"; u "LATEST"].
Proof. done. Qed.
Lemma manifest_rel_path n : LocalStore._path (manifest_rel n) = number_path n.
Proof.
  unfold LocalStore._path, manifest_rel. rewrite path_parts_lstrip.
  change (u "manifest/") with (u "manifest" ++ [slash]). rewrite <- !app_assoc.
  change ([slash] ++ str_of_Z n ++ u ".json") with (slash :: manifest_name n).
  by rewrite path_parts_sibling by apply manifest_name_plain.
Qed.

(** A file with the same inode reads the same. *)
Lemma survives_read rel s s' :
  inodes s' = inodes s -> is_file (LocalStore._path rel) s = true ->
  names s' !! LocalStore._path rel = names s !! LocalStore._path rel ->
  read_bytes rel s' = read_bytes rel s /\ exists_ rel s' = exists_ rel s.
Proof.
  intros Hi Hf Hn. cbn [read_bytes exists_ root_store LocalStore.local_store].
  unfold LocalStore.read_bytes, LocalStore.exists_. split.
  - apply fs_read_ext; [done| |done]. intros. by rewrite Hi.
  - unfold path_exists. unfold is_file in *. by rewrite Hn, Hf.
Qed.

Lemma read_Ok_is_file p s b : fs_read p s = Ok b -> is_file p s = true.
Proof.
  unfold fs_read. intros Hr. apply is_file_spec.
  destruct (names s !! p); [eauto|]. by destruct (_ || _).
Qed.

(** C26: collecting garbage never breaks the dataset being served.  If
    [manifest/LATEST] names the highest-numbered manifest and at least one
    manifest is kept, then after the collection [load_latest] gives the same
    answer, and every data file it references (in the manifest reader's sense,
    [Manifest.all_paths], which is not the collector's own) is still there
    with its content. *)
Theorem gc_preserves_latest keep s sm s' n :
  0 < keep -> gc keep false s = (Ok sm, s') ->
  _read_latest s = Ok (Some n) -> n ∈ _manifest_numbers s ->
  (forall k, k ∈ _manifest_numbers s -> k <= n) ->
  _read_latest s' = Ok (Some n) /\ load_latest s' = load_latest s /\
  forall m ps rel p, load_latest s = Ok m -> all_paths m = Ok ps -> JStr rel ∈ ps ->
    is_file p s = true -> under_manifest p = false -> report_name p = rel ->
    fs_read p s' = fs_read p s.
Proof.
  intros Hk Hg Hlat Hn Hmax.
  assert (Hne : _manifest_numbers s <> []) by (intros E; rewrite E in Hn; inversion Hn).
  assert (Hkept : n ∈ keep_numbers keep (_manifest_numbers s))
    by (apply max_in_last; auto using manifest_numbers_sorted).
  destruct (gc_inv _ _ _ _ Hg Hne) as (rs & _ & Hr & _).
  destruct (gc_names _ _ _ _ _ Hg Hne Hr) as (Hi & _ & _ & Hnames).
  assert (Hsurv : forall q, is_file q s = true -> names s' !! q <> None -> names s' !! q = names s !! q).
  { intros q Hq Hq'. destruct (Hnames q) as [[|] _]; done. }
  (* the manifest itself *)
  pose proof Hr as Hr'. unfold references in Hr'. apply res_flat_map_Ok in Hr' as (rss & Hall & Hrs).
  pose proof (proj1 (list_elem_of_lookup _ _) Hkept) as [i Hi0].
  destruct (Forall2_lookup_l _ _ _ _ _ Hall Hi0) as (r1 & Hr1 & Href).
  apply res_bind_Ok in Href as (man & Hman & Href).
  assert (Hbody : exists body, fs_read (number_path n) s = Ok body /\ json_loads body = Ok man)
    by (by apply res_bind_Ok in Hman).
  destruct Hbody as (body & Hbody & Hloads).
  assert (Hmf : names s' !! number_path n = names s !! number_path n).
  { apply Hsurv; [by eapply read_Ok_is_file|]. rewrite (proj2 (Hnames _) (read_Ok_is_file _ _ _ Hbody)).
    intros [[? _]|(k & ->%number_path_inj & _ & Hk')]; [by simpl in * | done]. }
  (* LATEST *)
  assert (Hlf : is_file (LocalStore._path LATEST) s = true).
  { unfold _read_latest in Hlat. apply res_bind_Ok in Hlat as ([] & _ & Hlat); [|done]. simpl negb in Hlat.
    cbn iota in Hlat. apply res_bind_Ok in Hlat as (b & Hb & _). by eapply read_Ok_is_file. }
  assert (Hln : names s' !! LocalStore._path LATEST = names s !! LocalStore._path LATEST).
  { apply Hsurv; [done|]. rewrite (proj2 (Hnames _) Hlf). rewrite latest_path.
    intros [[? _]|(k & Hk' & _)]; [by simpl in *|]. unfold number_path in Hk'.
    apply (f_equal (fun l => List.nth 1 l [])) in Hk'. cbn [List.nth] in Hk'. rename Hk' into E.
    pose proof (str_of_Z_chars k) as Hc.
    destruct (str_of_Z k) as [|c0 t]; [done|]. apply Forall_cons in Hc as [[->|Hc] _]; [done|].
    injection E as <- _. done. }
  destruct (survives_read LATEST s s' Hi Hlf Hln) as [HL1 HL2].
  assert (Hlat' : _read_latest s' = _read_latest s) by by apply read_latest_frame.
  assert (Hmfile : is_file (LocalStore._path (manifest_rel n)) s = true)
    by (rewrite manifest_rel_path; by eapply read_Ok_is_file).
  destruct (survives_read (manifest_rel n) s s' Hi Hmfile) as [HM1 HM2];
    [by rewrite manifest_rel_path|].
  assert (Hload : load_latest s' = load_latest s).
  { unfold load_latest. rewrite Hlat', Hlat. simpl. by apply load_frame. }
  split; [congruence|]. split; [done|].
  intros m ps rel p Hm Hps Hrel Hp Hum <-.
  apply fs_read_ext; [|by intros; rewrite Hi|done]. apply Hsurv; [done|].
  rewrite (proj2 (Hnames _) Hp). intros [[_ Hnr]|(k & -> & _)]; [|done]. apply Hnr.
  unfold load_latest in Hm. rewrite Hlat in Hm. simpl in Hm. unfold load in Hm.
  apply res_bind_Ok in Hm as ([] & _ & Hm); [|done]. simpl negb in Hm. cbn iota in Hm.
  apply res_bind_Ok in Hm as (body' & Hb' & Hm). cbn [read_bytes root_store LocalStore.local_store] in Hb'.
  unfold LocalStore.read_bytes in Hb'. rewrite manifest_rel_path, Hbody in Hb'. injection Hb' as <-.
  rewrite Hloads in Hm. simpl in Hm. unfold _referenced_paths in Href.
  apply res_bind_Ok in Href as (rl & Hrl & Href). destruct (forallb hashable rl); [|done].
  injection Href as ->. rewrite Hrs.
  apply list_elem_of_In, in_concat. exists r1. split; [by eapply list_elem_of_In, list_elem_of_lookup_2|].
  apply list_elem_of_In. by apply (referenced_all_paths man m ps).
Qed.
End Latest.

(** Two generations; the older one references a file of its own. *)
Definition sample_json (file : pystr) : json :=
  JObj [(u "generation", JStr (u "g")); (u "timestamp_osm_base", JStr []); (u "source", JStr []);
        (u "extent", JList []); (u "leaf_cells", JList []);
        (u "tables", JObj [(u "way", JObj [(u "cells", JObj [(u "0", JObj [(u "path", JStr file)])])])])].
Definition json_file (j : json) : bytes :=
  match @json_dumps tree_json j with Ok b => b | Raise _ => [] end.
Definition two_generations : fs :=
  Fs {[ [u "manifest"; u "1.json"] := 0; [u "manifest"; u "2.json"] := 1;
        [u "manifest"; u "LATEST"] := 2; [u "new"; u "w.parquet"] := 3; [u "old"; u "w.parquet"] := 4 ]}
     {[ []; [u "manifest"]; [u "new"]; [u "old"] ]}
     {[ 0 := json_file (sample_json (u "old/w.parquet"));
        1 := json_file (sample_json (u "new/w.parquet")); 2 := u "2"; 3 := [1]; 4 := [2] ]} 5.
Definition sample_summary : summary :=
  {| removed_files := [u "old/w.parquet"]; removed_manifests := [u "manifest/1.json"];
     removed_dirs := [u "old"] |}.

Lemma gc_sample :
  @gc latin1_db tree_json 1 false two_generations =
    (Ok sample_summary, snd (@gc latin1_db tree_json 1 false two_generations)).
Proof.
  rewrite (surjective_pairing (@gc latin1_db tree_json 1 false two_generations)) at 1. apply (f_equal2 pair); [|reflexivity].
  by vm_compute.
Qed.
Lemma numbers_sample : @_manifest_numbers latin1_db two_generations = [1; 2].
Proof. by vm_compute. Qed.

Lemma gc_deletes_exactly_garbage_witness :
  (@gc latin1_db tree_json 1 false two_generations).1 = Ok sample_summary /\
  (@gc latin1_db tree_json 1 true two_generations).2 = two_generations.
Proof.
  split; [by rewrite gc_sample|].
  assert (Hne : @_manifest_numbers latin1_db two_generations <> []) by by rewrite numbers_sample.
  destruct (@gc_deletes_exactly_garbage latin1_db tree_json 1 _ _ _ gc_sample Hne)
    as (rs & _ & _ & _ & _ & Hd). by rewrite Hd.
Defined.

Lemma gc_preserves_latest_witness :
  let s' := (@gc latin1_db tree_json 1 false two_generations).2 in
  let store := LocalStore.local_store (u "/data") (fun _ _ => false) in
  @load_latest latin1_db tree_json fs store s' = @load_latest latin1_db tree_json fs store two_generations /\
  fs_read [u "new"; u "w.parquet"] s' = Ok [1] /\ fs_read [u "old"; u "w.parquet"] s' = Raise FileNotFoundError.
Proof.
  intros s' store.
  assert (H1 : @_read_latest latin1_db fs store two_generations = Ok (Some 2)) by by vm_compute.
  assert (H2 : 2 ∈ @_manifest_numbers latin1_db two_generations) by (rewrite numbers_sample; right; left).
  assert (H3 : forall k, k ∈ @_manifest_numbers latin1_db two_generations -> k <= 2).
  { intros k. rewrite numbers_sample, !elem_of_cons. intros [->|[->|Hk]]; [done|done|inversion Hk]. }
  destruct (@gc_preserves_latest latin1_db tree_json _ (u "/data") (fun _ _ => false) 1 _ _ _ 2
              ltac:(lia) gc_sample H1 H2 H3) as (_ & Hl & Hp).
  split; [exact Hl|]. split; [|by vm_compute].
  destruct (@load_latest latin1_db tree_json fs store two_generations) as [m|] eqn:Em; [|by vm_compute in Em].
  destruct (all_paths m) as [ps|] eqn:Ep.
  - assert (Hin : JStr (u "new/w.parquet") ∈ ps).
    { vm_compute in Em. injection Em as <-. vm_compute in Ep. injection Ep as <-. left. }
    exact (Hp m ps (u "new/w.parquet") [u "new"; u "w.parquet"] Em Ep Hin eq_refl eq_refl eq_refl).
  - vm_compute in Em. injection Em as <-. by vm_compute in Ep.
Defined.
