(* ===== verification/Replication.v ===== *)
(** [update/replication.py]: the client of an osmosis-style replication
    source.  The HTTP client is a parameter; the download directory is a
    dictionary from file names to contents.

    Facts about the replication client: sequence paths, the download cache and
    consecutive ranges. *)
From S2P Require Import Prelude PyStr PyFloatFacts Json PyFloat.

Definition DEFAULT_RETRIES : Z := 5.

Section Paths.
(** [f"{n:03d}"] for [n >= 0] *)
Definition pad3 (n : Z) : pystr := zero_pad 3 (str_of_Z n).

Definition sequence_path (seq : Z) : res pystr :=
  if seq <? 0 then Raise ValueError else
  let aaa := seq / 1000000 in
  let bbb := (seq / 1000) mod 1000 in
  let ccc := seq mod 1000 in
  Ok (pad3 aaa ++ u "/" ++ pad3 bbb ++ u "/" ++ pad3 ccc).
End Paths.

Section StateText.
Context `{UnicodeDB}.

(** One line: the sequence number and the timestamp found so far. *)
Definition state_line (line : pystr) (st : option Z * option pystr) : res (option Z * option pystr) :=
  let line := py_strip line in
  if (line =s []) || startswith line (u "#") then Ok st
  else if negb (existsb (Z.eqb 61) line) then Ok st
  else
    let '(key, value) := partition_char 61 line in
    let value := py_replace [92; 92] [92] (py_replace [92; 58] (u ":") value) in
    if key =s u "sequenceNumber" then let* n := py_int value in Ok (Some n, snd st)
    else if key =s u "timestamp" then Ok (fst st, Some value)
    else Ok st.

Fixpoint state_lines (lines : list pystr) (st : option Z * option pystr) :
    res (option Z * option pystr) :=
  match lines with
  | [] => Ok st
  | l :: ls => let* st' := state_line l st in state_lines ls st'
  end.

Definition parse_state_text (text : pystr) : res (Z * option pystr) :=
  let* st := state_lines (splitlines text) (None, None) in
  match fst st with
  | None => Raise ValueError
  | Some seq => Ok (seq, snd st)
  end.
End StateText.

(** * The HTTP client *)
Record response := {
  status_code : Z;
  is_success : bool;      (** what [raise_for_status] tests *)
  text : pystr;
  content : bytes
}.
Inductive outcome :=
  | HTTPError (message : pystr)
  | Response (r : response).

Class HttpClient (C : Type) := {
  http_get : pystr -> C -> outcome * C;
  sleep : Z -> C -> C           (** [time.sleep(backoff * n)] *)
}.

Inductive http_exn :=
  | Transport (message : pystr)
  | Status (status : Z).
Definition raise_http (e : http_exn) : exn :=
  match e with Transport m => RuntimeErr m | Status s => HTTPStatusError s end.

Record FetchResult := {
  fr_seq : Z;
  fr_osc_path : pystr;
  fr_state_path : pystr;
  fr_timestamp : option pystr
}.

Section Client.
Context `{UnicodeDB} {C : Type} `{HttpClient C}.
Variables (source_arg : pystr) (retries : Z).

Definition source : pystr := rstrip_by (Z.eqb 47) source_arg.

(** [for attempt in range(retries)], [left] attempts remaining. *)
Fixpoint get_loop (url : pystr) (left : nat) (attempt : Z) (last_exc : option http_exn) (c : C) :
    res (option response) * C :=
  match left with
  | O => (match last_exc with
          | Some e => Raise (raise_http e)
          | None => Raise (RuntimeErr (u "GET " ++ url ++ u " failed after " ++ str_of_Z retries ++ u " retries"))
          end, c)
  | S left' =>
      match http_get url c with
      | (HTTPError m, c1) =>
          get_loop url left' (attempt + 1) (Some (Transport m)) (sleep (attempt + 1) c1)
      | (Response r, c1) =>
          if status_code r =? 404 then (Ok None, c1)
          else if 500 <=? status_code r then
            get_loop url left' (attempt + 1) (Some (Status (status_code r))) (sleep (attempt + 1) c1)
          else if is_success r then (Ok (Some r), c1)
          else (Raise (HTTPStatusError (status_code r)), c1)
      end
  end.
Definition _get (url : pystr) (c : C) : res (option response) * C :=
  get_loop url (Z.to_nat retries) 0 None c.

Definition latest_sequence (c : C) : res Z * C :=
  match _get (source ++ u "/state.txt") c with
  | (Raise e, c1) => (Raise e, c1)
  | (Ok None, c1) => (Raise (RuntimeErr (source ++ u "/state.txt not found (404)")), c1)
  | (Ok (Some r), c1) => (res_map fst (parse_state_text (text r)), c1)
  end.

(** The download directory. *)
Definition dir_t : Type := list (pystr * bytes).
Definition has (name : pystr) (d : dir_t) : bool :=
  if dict_get name d is Some _ then true else false.

Definition osc_name (seq : Z) : pystr := str_of_Z seq ++ u ".osc.gz".
Definition state_name (seq : Z) : pystr := str_of_Z seq ++ u ".state.txt".
(** [osc_path.with_suffix(".osc.gz.part")] *)
Definition part_name (seq : Z) : pystr := str_of_Z seq ++ u ".osc.osc.gz.part".

(** The cached state file: its timestamp, or the file is dropped. *)
Definition cached_state (seq : Z) (d : dir_t) : option pystr * dir_t :=
  match dict_get (state_name seq) d with
  | None => (None, d)
  | Some body =>
      match (let* s := utf8_decode body in parse_state_text (translate_newlines s)) with
      | Ok (_, ts) => (ts, d)
      | Raise _ => (None, dict_pop (state_name seq) d)
      end
  end.

Definition fetch_state (seq : Z) (frag : pystr) (c : C) (d : dir_t) :
    res (option (option pystr)) * C * dir_t :=
  match _get (source ++ u "/" ++ frag ++ u ".state.txt") c with
  | (Raise e, c1) => (Raise e, c1, d)
  | (Ok None, c1) => (Ok None, c1, d)
  | (Ok (Some r), c1) =>
      match utf8_encode (text r) with
      | Raise e => (Raise e, c1, d)
      | Ok body =>
          let d1 := dict_set (state_name seq) body d in
          (res_map (fun p => Some (snd p)) (parse_state_text (text r)), c1, d1)
      end
  end.

Definition fetch_osc (seq : Z) (frag : pystr) (timestamp : option pystr) (c : C) (d : dir_t) :
    res (option FetchResult) * C * dir_t :=
  let result := {| fr_seq := seq; fr_osc_path := osc_name seq; fr_state_path := state_name seq;
                   fr_timestamp := timestamp |} in
  if has (osc_name seq) d then (Ok (Some result), c, d) else
  match _get (source ++ u "/" ++ frag ++ u ".osc.gz") c with
  | (Raise e, c1) => (Raise e, c1, d)
  | (Ok None, c1) => (Ok None, c1, d)
  | (Ok (Some r), c1) =>
      let d1 := dict_set (part_name seq) (content r) d in
      let d2 := dict_set (osc_name seq) (content r) (dict_pop (part_name seq) d1) in
      (Ok (Some result), c1, d2)
  end.

Definition fetch (seq : Z) (c : C) (d : dir_t) : res (option FetchResult) * C * dir_t :=
  match sequence_path seq with
  | Raise e => (Raise e, c, d)
  | Ok frag =>
      let '(timestamp, d1) := cached_state seq d in
      if has (state_name seq) d1 then fetch_osc seq frag timestamp c d1
      else
        match fetch_state seq frag c d1 with
        | (Raise e, c1, d2) => (Raise e, c1, d2)
        | (Ok None, c1, d2) => (Ok None, c1, d2)
        | (Ok (Some timestamp), c1, d2) => fetch_osc seq frag timestamp c1 d2
        end
  end.

(** [while len(results) < max_diffs and seq <= latest]; [room] is
    [max_diffs - len(results)]. *)
Fixpoint fetch_loop (room : nat) (seq latest : Z) (c : C) (d : dir_t) :
    res (list FetchResult) * C * dir_t :=
  match room with
  | O => (Ok [], c, d)
  | S room' =>
      if seq <=? latest then
        match fetch seq c d with
        | (Raise e, c1, d1) => (Raise e, c1, d1)
        | (Ok None, c1, d1) => (Ok [], c1, d1)
        | (Ok (Some r), c1, d1) =>
            let '(rs, c2, d2) := fetch_loop room' (seq + 1) latest c1 d1 in
            (res_map (cons r) rs, c2, d2)
        end
      else (Ok [], c, d)
  end.

Definition fetch_range (from_seq max_diffs : Z) (c : C) (d : dir_t) :
    res (list FetchResult) * C * dir_t :=
  match latest_sequence c with
  | (Raise e, c1) => (Raise e, c1, d)
  | (Ok latest, c1) => fetch_loop (Z.to_nat max_diffs) from_seq latest c1 d
  end.
End Client.

(** * Sequence paths *)

(** Reading a path back: the three numbers between the slashes. *)
Definition path_sequence `{UnicodeDB} (p : pystr) : res Z :=
  let '(a, r) := partition_char 47 p in
  let '(b, c) := partition_char 47 r in
  let* x := py_int a in let* y := py_int b in let* z := py_int c in
  Ok (x * 1000000 + y * 1000 + z).

Lemma pad3_digits n : 0 <= n -> all_digits (pad3 n) /\ pad3 n <> [] /\ dec_val (pad3 n) 0 = n.
Proof.
  intros Hn. unfold pad3, zero_pad.
  assert (E : str_of_Z n = str_of_nonneg n) by (unfold str_of_Z; by rewrite (proj2 (Z.ltb_ge n 0))).
  rewrite E. destruct (str_of_nonneg_spec n Hn) as (Hne & Hd & Hv). split_and!.
  - apply Forall_app. split; [|done]. by apply Forall_replicate.
  - intros [_ ?]%app_eq_nil. done.
  - unfold dec_val in *. rewrite fold_left_app.
    replace (fold_left _ (replicate _ 48) 0) with 0; [done|].
    induction (3 - length (str_of_nonneg n))%nat as [|k IH]; simpl; done.
Qed.

Lemma partition_digits s t : all_digits s -> partition_char 47 (s ++ 47 :: t) = (s, t).
Proof.
  induction 1 as [|c s Hc Hs IH]; cbn [app partition_char]; [done|].
  apply ascii_digit_spec in Hc. destruct (Z.eqb_spec c 47); [lia|]. by rewrite IH.
Qed.

Lemma sequence_path_back `{UnicodeDB} seq :
  match sequence_path seq with
  | Ok p => 0 <= seq /\ path_sequence p = Ok seq
  | Raise e => seq < 0 /\ e = ValueError
  end.
Proof.
  unfold sequence_path. destruct (Z.ltb_spec seq 0) as [Hs|Hs]; [done|]. split; [done|].
  assert (Ha : 0 <= seq / 1000000) by (apply Z.div_pos; lia).
  assert (Hb : 0 <= (seq / 1000) mod 1000) by (apply Z.mod_pos_bound; lia).
  assert (Hc : 0 <= seq mod 1000) by (apply Z.mod_pos_bound; lia).
  destruct (pad3_digits _ Ha) as (Da & Na & Va). destruct (pad3_digits _ Hb) as (Db & Nb & Vb).
  destruct (pad3_digits _ Hc) as (Dc & Nc & Vc).
  unfold path_sequence. change (u "/") with [47]. cbn [app].
  rewrite partition_digits by done. rewrite partition_digits by done.
  rewrite !py_int_digits by done. cbn [res_bind]. rewrite Va, Vb, Vc. f_equal.
  pose proof (Z.div_mod seq 1000 ltac:(lia)). pose proof (Z.div_mod (seq / 1000) 1000 ltac:(lia)) as H2.
  rewrite Z.div_div in H2 by lia. change (1000 * 1000) with 1000000 in H2. lia.
Qed.

(** sequence numbers survive the trip through their [AAA/BBB/CCC] path
    (so distinct sequences have distinct paths), however large they are, and
    only negative numbers are refused. *)
Theorem sequence_path_roundtrip `{UnicodeDB} seq :
  match sequence_path seq with
  | Ok p => 0 <= seq /\ path_sequence p = Ok seq
  | Raise e => seq < 0 /\ e = ValueError
  end.
Proof. apply sequence_path_back. Qed.

(** * The download directory *)
Lemma last_suffix (s t : pystr) d : t <> [] -> List.last (s ++ t) d = List.last t d.
Proof.
  intros Ht. induction s as [|c s IH]; [done|]. cbn [app List.last].
  destruct (s ++ t) eqn:E; [by apply app_eq_nil in E as [_ ?]|]. done.
Qed.

Section Cache.
Context `{UnicodeDB} {C : Type} `{HttpClient C} (source_arg : pystr) (retries : Z).

Lemma osc_state_neq a b : osc_name a <> state_name b.
Proof.
  unfold osc_name, state_name. intros E. apply (f_equal (fun s => List.last s 0)) in E.
  by rewrite !last_suffix in E by done.
Qed.
Lemma osc_part_neq a b : osc_name a <> part_name b.
Proof.
  unfold osc_name, part_name. intros E. apply (f_equal (fun s => List.last s 0)) in E.
  by rewrite !last_suffix in E by done.
Qed.
Lemma state_part_neq a : state_name a <> part_name a.
Proof. unfold state_name, part_name. intros E%app_inv_head. done. Qed.
Lemma osc_name_inj a b : osc_name a = osc_name b -> a = b.
Proof. unfold osc_name. intros E%app_inv_tail. by apply (inj str_of_Z). Qed.

Lemma has_get name d : has name d = true <-> exists b, dict_get name d = Some b.
Proof. unfold has. destruct (dict_get name d); naive_solver. Qed.

Lemma dict_get_set_neq {A} k k' (v : A) d : k' <> k -> dict_get k (dict_set k' v d) = dict_get k d.
Proof. intros Hk. by rewrite dict_get_set, (proj2 (str_eqb_neq k' k) Hk). Qed.
Lemma dict_get_pop_neq {A} k k' (d : list (pystr * A)) : k' <> k -> dict_get k (dict_pop k' d) = dict_get k d.
Proof. intros Hk. by rewrite dict_get_pop, (proj2 (str_eqb_neq k' k) Hk). Qed.
Lemma dict_get_set_eq {A} k (v : A) d : dict_get k (dict_set k v d) = Some v.
Proof. by rewrite dict_get_set, str_eqb_refl. Qed.

(** The state file of [seq] is there, readable, and gives [ts]. *)
Definition good_state (seq : Z) (ts : option pystr) (d : dir_t) : Prop :=
  exists body n, dict_get (state_name seq) d = Some body /\
    (let* s := utf8_decode body in parse_state_text (translate_newlines s)) = Ok (n, ts).

Lemma fetch_osc_result seq frag ts c d r c1 d1 :
  fetch_osc source_arg retries seq frag ts c d = (Ok (Some r), c1, d1) ->
  r = {| fr_seq := seq; fr_osc_path := osc_name seq; fr_state_path := state_name seq; fr_timestamp := ts |} /\
  has (osc_name seq) d1 = true /\ dict_get (state_name seq) d1 = dict_get (state_name seq) d.
Proof.
  unfold fetch_osc. destruct (has (osc_name seq) d) eqn:E; [by intros [= <- _ <-]|].
  destruct (_get _ _ c) as [[[x|]|] c2]; try done. intros [= <- _ <-].
  split; [done|]. split.
  - unfold has. by rewrite dict_get_set_eq.
  - rewrite dict_get_set_neq by apply osc_state_neq.
    rewrite dict_get_pop_neq, dict_get_set_neq by (apply not_eq_sym, state_part_neq). done.
Qed.

Lemma cached_good seq d ts : good_state seq ts d -> cached_state seq d = (ts, d).
Proof. intros (body & n & Hb & Hp). unfold cached_state. by rewrite Hb, Hp. Qed.

Lemma good_has seq ts d : good_state seq ts d -> has (state_name seq) d = true.
Proof. intros (body & n & Hb & _). apply has_get. eauto. Qed.

Lemma cached_state_spec seq d ts d' :
  cached_state seq d = (ts, d') -> has (state_name seq) d' = true -> good_state seq ts d'.
Proof.
  unfold cached_state. destruct (dict_get (state_name seq) d) as [body|] eqn:E.
  - destruct (let* s := _ in _) as [[n ts']|e] eqn:P; intros [= <- <-].
    + intros _. exists body, n. done.
    + unfold has. by rewrite dict_get_pop, str_eqb_refl.
  - intros [= <- <-]. unfold has. by rewrite E.
Qed.

Lemma fetch_state_good seq frag c d ts c1 d1 :
  fetch_state source_arg retries seq frag c d = (Ok (Some ts), c1, d1) -> good_state seq ts d1.
Proof.
  unfold fetch_state. destruct (_get _ _ c) as [[[r|]|] c2]; try done.
  destruct (utf8_encode (text r)) as [body|] eqn:Eb; [|done].
  destruct (parse_state_text (text r)) as [[n ts']|] eqn:P; [|done]. intros [= <- _ <-].
  exists body, n. split; [apply dict_get_set_eq|].
  rewrite (utf8_roundtrip _ _ Eb). cbn [res_bind]. unfold parse_state_text in *.
  by rewrite splitlines_translate, P.
Qed.

Lemma fetch_Some seq c d r c1 d1 :
  fetch source_arg retries seq c d = (Ok (Some r), c1, d1) ->
  0 <= seq /\ good_state seq (fr_timestamp r) d1 /\ has (osc_name seq) d1 = true /\
  r = {| fr_seq := seq; fr_osc_path := osc_name seq; fr_state_path := state_name seq;
         fr_timestamp := fr_timestamp r |}.
Proof.
  unfold fetch. pose proof (sequence_path_back seq) as Hs.
  destruct (sequence_path seq) as [frag|]; [|done]. destruct Hs as [Hs _].
  destruct (cached_state seq d) as [ts d0] eqn:Ec.
  assert (Hfin : forall ts c d', good_state seq ts d' ->
    fetch_osc source_arg retries seq frag ts c d' = (Ok (Some r), c1, d1) ->
    0 <= seq /\ good_state seq (fr_timestamp r) d1 /\ has (osc_name seq) d1 = true /\
    r = {| fr_seq := seq; fr_osc_path := osc_name seq; fr_state_path := state_name seq;
           fr_timestamp := fr_timestamp r |}).
  { intros ts' c' d' (body & n & Hb & Hp) Hf. apply fetch_osc_result in Hf as (-> & Ho & Hk).
    split_and!; try done. exists body, n. rewrite Hk. done. }
  destruct (has (state_name seq) d0) eqn:Eh.
  - apply Hfin. by eapply cached_state_spec.
  - destruct (fetch_state _ _ _ _ _ _) as [[[[ts'|]|] c2] d2] eqn:Ef; try done.
    apply Hfin. by eapply fetch_state_good.
Qed.

(** Other sequences' change files are kept. *)
Lemma fetch_keeps seq s c d x c1 d1 :
  fetch source_arg retries seq c d = (x, c1, d1) ->
  has (osc_name s) d = true -> has (osc_name s) d1 = true.
Proof.
  unfold fetch. destruct (sequence_path seq) as [frag|]; [|by intros [= _ _ <-]].
  rewrite !has_get. intros Hf [b Hb].
  destruct (cached_state seq d) as [ts d0] eqn:Ec.
  assert (H1 : dict_get (osc_name s) d0 = Some b).
  { unfold cached_state in Ec. destruct (dict_get (state_name seq) d); [|by injection Ec as _ <-].
    destruct (let* s := _ in _) as [[]|]; injection Ec as _ <-; [done|].
    by rewrite dict_get_pop_neq by (apply not_eq_sym, osc_state_neq). }
  assert (Ho : forall ts c d' x c1 d1, fetch_osc source_arg retries seq frag ts c d' = (x, c1, d1) ->
    dict_get (osc_name s) d' = Some b -> exists b', dict_get (osc_name s) d1 = Some b').
  { clear. intros ts c d' x c1 d1. unfold fetch_osc. destruct (has _ d'); [intros [= _ _ <-]; eauto|].
    destruct (_get _ _ c) as [[[r|]|] c2]; intros [= _ _ <-] Hb; eauto.
    destruct (decide (osc_name seq = osc_name s)) as [->|Hne]; [rewrite dict_get_set_eq; eauto|].
    rewrite dict_get_set_neq by done.
    rewrite dict_get_pop_neq, dict_get_set_neq by (apply not_eq_sym, osc_part_neq). eauto. }
  destruct (has (state_name seq) d0); [by eapply Ho|].
  destruct (fetch_state _ _ _ _ _ _) as [[[[ts'|]|] c2] d2] eqn:Ef.
  all: assert (H2 : dict_get (osc_name s) d2 = Some b).
  1,3,5: unfold fetch_state in Ef; destruct (_get _ _ c) as [[[r|]|] c3]; try done;
    try (by injection Ef as _ <-); try (by injection Ef as _ _ <-);
    destruct (utf8_encode (text r)); injection Ef as _ _ <-; try done;
    by rewrite dict_get_set_neq by (apply not_eq_sym, osc_state_neq).
  - by eapply Ho.
  - injection Hf as _ _ <-. eauto.
  - injection Hf as _ _ <-. eauto.
Qed.

(** C38: the download cache is sound.  Once a sequence has been fetched,
    fetching it again from the directory as it was left gives the same result
    without a single request, whatever the client would answer: the state file
    that was written is read back (UTF-8 and newline translation included) to
    the same timestamp. *)
Theorem fetch_cached seq c d r c1 d1 :
  fetch source_arg retries seq c d = (Ok (Some r), c1, d1) ->
  forall c', fetch source_arg retries seq c' d1 = (Ok (Some r), c', d1).
Proof.
  intros Hf c'. destruct (fetch_Some _ _ _ _ _ _ Hf) as (Hs & Hg & Ho & Hr).
  unfold fetch. pose proof (sequence_path_back seq) as Hp.
  destruct (sequence_path seq); [|destruct Hp; lia].
  rewrite (cached_good _ _ _ Hg), (good_has _ _ _ Hg). unfold fetch_osc. rewrite Ho. by rewrite <- Hr.
Qed.

Lemma fetch_loop_spec room seq latest c d rs c1 d1 :
  fetch_loop source_arg retries room seq latest c d = (Ok rs, c1, d1) ->
  map fr_seq rs = seqZ seq (Z.of_nat (length rs)) /\ (length rs <= room)%nat /\
  (forall r, r ∈ rs -> fr_seq r <= latest /\ has (osc_name (fr_seq r)) d1 = true) /\
  (forall s, has (osc_name s) d = true -> has (osc_name s) d1 = true).
Proof.
  revert seq c d rs c1 d1. induction room as [|room IH]; intros seq c d rs c1 d1; cbn [fetch_loop].
  { intros [= <- _ <-]. split_and!; [done|simpl; lia|intros r Hr; inversion Hr|done]. }
  destruct (Z.leb_spec seq latest) as [Hl|Hl].
  2:{ intros [= <- _ <-]. split_and!; [done|simpl; lia|intros r Hr; inversion Hr|done]. }
  destruct (fetch _ _ seq c d) as [[[[r|]|] c2] d2] eqn:Ef; [|intros [= <- _ <-]|done].
  2:{ split_and!; [done|simpl; lia|intros r Hr; inversion Hr|]. intros s. by eapply fetch_keeps. }
  destruct (fetch_loop _ _ _ _ _ _ _) as [[[rs'|] c3] d3] eqn:Er; [|done]. intros [= <- _ <-].
  apply IH in Er as (H1 & H2 & H3 & H4). destruct (fetch_Some _ _ _ _ _ _ Ef) as (Hs & _ & Ho & Hr).
  assert (Hseq : fr_seq r = seq) by by rewrite Hr.
  split_and!.
  - cbn [map length]. rewrite Hseq, H1. rewrite (seqZ_cons seq) by lia. repeat f_equal. lia.
  - simpl. lia.
  - intros x [->|Hx]%elem_of_cons; [rewrite Hseq; auto|]. auto.
  - intros s Hh. apply H4. by eapply fetch_keeps.
Qed.

(** a range fetch returns consecutive sequences from the requested one, at
    most [max_diffs] of them and none beyond the source's current sequence, and
    leaves every returned change file in the directory. *)
Theorem fetch_range_consecutive from_seq max_diffs c d rs c1 d1 :
  0 <= max_diffs ->
  fetch_range source_arg retries from_seq max_diffs c d = (Ok rs, c1, d1) ->
  exists latest c2, latest_sequence source_arg retries c = (Ok latest, c2) /\
    map fr_seq rs = seqZ from_seq (Z.of_nat (length rs)) /\
    Z.of_nat (length rs) <= max_diffs /\
    forall r, r ∈ rs -> fr_seq r <= latest /\ has (osc_name (fr_seq r)) d1 = true.
Proof.
  intros Hm. unfold fetch_range. destruct (latest_sequence _ _ c) as [[latest|] c2]; [|done].
  intros (H1 & H2 & H3 & _)%fetch_loop_spec. exists latest, c2. split_and!; [done|done|lia|done].
Qed.
End Cache.

(** A scripted client: the answers in order, then network errors. *)
Definition script_client : HttpClient (list outcome) := {|
  http_get _ c := match c with o :: c' => (o, c') | [] => (HTTPError (u "down"), []) end;
  sleep _ c := c
|}.
Definition ok_response (body : pystr) : outcome :=
  Response {| status_code := 200; is_success := true; text := body; content := body |}.
Definition busy : outcome :=
  Response {| status_code := 503; is_success := false; text := []; content := [] |}.
Definition state_body : pystr :=
  u "sequenceNumber=7" ++ [13; 10] ++ u "timestamp=2026-09-19T00" ++ [92] ++ u ":23Z" ++ [13; 10].

Lemma fetch_cached_witness :
  exists r d1,
    @fetch latin1_db _ script_client (u "http://x/") 3 7 [ok_response state_body; busy; ok_response (u "osc")] []
      = (Ok (Some r), [], d1) /\
    fr_timestamp r = Some (u "2026-09-19T00:23Z") /\
    @fetch latin1_db _ script_client (u "http://x/") 3 7 [] d1 = (Ok (Some r), [], d1).
Proof.
  destruct (@fetch latin1_db _ script_client (u "http://x/") 3 7
    [ok_response state_body; busy; ok_response (u "osc")] []) as [[x c1] d1] eqn:E.
  assert (Hx : exists r, x = Ok (Some r) /\ c1 = [] /\ fr_timestamp r = Some (u "2026-09-19T00:23Z")).
  { vm_compute in E. injection E as <- <- _. eexists. by vm_compute. }
  destruct Hx as (r & -> & -> & Ht). exists r, d1. split; [done|]. split; [done|].
  exact (@fetch_cached latin1_db _ script_client _ _ _ _ _ _ _ _ E []).
Defined.

Lemma fetch_range_consecutive_witness :
  let run := @fetch_range latin1_db _ script_client (u "http://x") 2 6 5
    [ok_response (u "sequenceNumber=7"); ok_response state_body; ok_response [1];
     ok_response state_body; ok_response [2]] [] in
  exists rs, run.1.1 = Ok rs /\ map fr_seq rs = [6; 7].
Proof.
  intros run. destruct run as [[[rs|e] c1] d1] eqn:E; [|vm_compute in E; discriminate].
  exists rs. split; [done|].
  assert (Hl : length rs = 2%nat) by (vm_compute in E; injection E as <- _ _; done).
  destruct (@fetch_range_consecutive latin1_db _ script_client _ _ 6 5 _ _ _ _ _ ltac:(lia) E)
    as (_ & _ & _ & Hm & _).
  rewrite Hm, Hl. by vm_compute.
Defined.
