(* ===== verification/Osc.v ===== *)
(** [update/osc.py]: a batch of change files as three deduplicated tables and
    three tables of every occurrence.  The OsmChange reader (pyosmium) is a
    parameter that gives the objects of a file in order. *)
From S2P Require Import Prelude PyStr PyFloat Json.

(** * What the reader yields *)

(** A timestamp: its wall-clock value, and whether it carries a time zone. *)
Record datetime := { wall : Z; aware : bool }.
Record location := { loc_valid : bool; loc_lat : pyfloat; loc_lon : pyfloat }.
Record member := { m_type : pystr; m_ref : Z; m_role : pystr }.

Inductive osm_kind :=
  | KNode (loc : option location)
  | KWay (refs : list Z)
  | KRelation (members : list member).
Record osm_object := {
  o_id : Z; o_deleted : bool; o_version : Z; o_timestamp : option datetime;
  o_changeset : Z; o_uid : option Z; o_user : pystr;
  o_tags : list (pystr * pystr);
  o_kind : osm_kind
}.

(** * Rows *)
Record row (P : Type) := {
  id : Z; deleted : bool; version : Z; timestamp : option datetime;
  changeset : Z; uid : option Z; user : pystr;
  tags : option (list (pystr * pystr));
  payload : P;
  seq : Z
}.
Arguments id {P} _.
Arguments version {P} _.
Arguments seq {P} _.
Arguments payload {P} _.
Arguments tags {P} _.

Definition _NodeRow : Type := row (option Z * option Z).   (** lat_e7, lon_e7 *)
Definition _WayRow : Type := row (list Z).                 (** refs *)
Definition _RelationRow : Type := row (list member).       (** members *)

(** [{t.k: t.v for t in obj.tags}]: the last value of a key, at its first place. *)
Definition tags_dict (l : list (pystr * pystr)) : list (pystr * pystr) :=
  fold_left (fun d kv => dict_set kv.1 kv.2 d) l [].
Definition _tags_of (o : osm_object) : option (list (pystr * pystr)) :=
  match o_tags o with [] => None | l => Some (tags_dict l) end.

Definition _e7 (x : pyfloat) : res Z := round_of_float (fmul x (float_of_Z 10000000)).

Definition naive (ts : option datetime) : option datetime :=
  match ts with
  | Some t => Some (if aware t then {| wall := wall t; aware := false |} else t)
  | None => None
  end.

Definition row_of {P} (o : osm_object) (seq : Z) (p : P) : row P := {|
  id := o_id o; deleted := o_deleted o; version := o_version o;
  timestamp := naive (o_timestamp o); changeset := o_changeset o; uid := o_uid o;
  user := o_user o; tags := _tags_of o; payload := p; seq := seq
|}.

Definition node_position (loc : option location) : res (option Z * option Z) :=
  match loc with
  | Some l => if loc_valid l then
                let* lat_e7 := _e7 (loc_lat l) in
                let* lon_e7 := _e7 (loc_lon l) in
                Ok (Some lat_e7, Some lon_e7)
              else Ok (None, None)
  | None => Ok (None, None)
  end.

(** * The batch *)

(** The rows of one element type: the latest per id, and all of them in order
    of occurrence (the source appends; the list is kept reversed here). *)
Record accum (P : Type) := { latest : gmap Z (row P); all_rev : list (row P) }.
Arguments latest {P} _.
Arguments all_rev {P} _.
Definition no_rows {P} : accum P := {| latest := ∅; all_rev := [] |}.
Definition add_row {P} (r : row P) (a : accum P) : accum P :=
  {| latest := <[id r := r]> (latest a); all_rev := r :: all_rev a |}.

Record batch := {
  nodes : accum (option Z * option Z);
  ways : accum (list Z);
  relations : accum (list member);
  b_first_seq : option Z;
  b_last_seq : option Z
}.

Definition batch_object (seq : Z) (b : batch) (o : osm_object) : res batch :=
  match o_kind o with
  | KNode loc =>
      let* p := node_position loc in
      Ok {| nodes := add_row (row_of o seq p) (nodes b); ways := ways b;
            relations := relations b; b_first_seq := b_first_seq b; b_last_seq := b_last_seq b |}
  | KWay refs =>
      Ok {| nodes := nodes b; ways := add_row (row_of o seq refs) (ways b);
            relations := relations b; b_first_seq := b_first_seq b; b_last_seq := b_last_seq b |}
  | KRelation members =>
      Ok {| nodes := nodes b; ways := ways b;
            relations := add_row (row_of o seq members) (relations b);
            b_first_seq := b_first_seq b; b_last_seq := b_last_seq b |}
  end.

Fixpoint batch_objects (seq : Z) (b : batch) (os : list osm_object) : res batch :=
  match os with
  | [] => Ok b
  | o :: os' => let* b' := batch_object seq b o in batch_objects seq b' os'
  end.

Section Reader.
(** [osmium.FileProcessor(path, ...)] *)
Variable FileProcessor : pystr -> res (list osm_object).

Definition batch_seq (seq : Z) (b : batch) : batch := {|
  nodes := nodes b; ways := ways b; relations := relations b;
  b_first_seq := Some (match b_first_seq b with None => seq | Some f => Z.min f seq end);
  b_last_seq := Some (match b_last_seq b with None => seq | Some l => Z.max l seq end)
|}.

Fixpoint batch_files (b : batch) (seq_files : list (Z * pystr)) : res batch :=
  match seq_files with
  | [] => Ok b
  | (seq, path) :: rest =>
      let* os := FileProcessor path in
      let* b' := batch_objects seq (batch_seq seq b) os in
      batch_files b' rest
  end.

(** * Tables *)
Definition by_id {P} (r1 r2 : row P) : Prop := id r1 <= id r2.
#[export] Instance by_id_dec {P} : RelDecision (@by_id P).
Proof. intros r1 r2. unfold by_id. apply _. Defined.
(** [key=lambda r: (r.id, r.version)] *)
Definition by_id_version {P} (r1 r2 : row P) : Prop :=
  id r1 < id r2 \/ (id r1 = id r2 /\ version r1 <= version r2).
#[export] Instance by_id_version_dec {P} : RelDecision (@by_id_version P).
Proof. intros r1 r2. unfold by_id_version. apply _. Defined.

(** [sorted(nodes.values(), key=lambda r: r.id)] *)
Definition to_table {P} (m : gmap Z (row P)) : list (row P) :=
  merge_sort by_id (map snd (map_to_list m)).
(** [sorted(all, key=lambda r: (r.id, r.version))] *)
Definition all_table {P} (a : accum P) : list (row P) := merge_sort by_id_version (rev (all_rev a)).

Record BatchResult := {
  node : list _NodeRow; way : list _WayRow; relation : list _RelationRow;
  first_seq : option Z; last_seq : option Z; n_files : nat;
  node_all : list _NodeRow; way_all : list _WayRow; relation_all : list _RelationRow
}.

Definition parse_batch (seq_files : list (Z * pystr)) : res BatchResult :=
  let* b := batch_files {| nodes := no_rows; ways := no_rows; relations := no_rows;
                           b_first_seq := None; b_last_seq := None |} seq_files in
  Ok {| node := to_table (latest (nodes b)); way := to_table (latest (ways b));
        relation := to_table (latest (relations b));
        first_seq := b_first_seq b; last_seq := b_last_seq b; n_files := length seq_files;
        node_all := all_table (nodes b); way_all := all_table (ways b);
        relation_all := all_table (relations b) |}.
End Reader.
