(* ===== verification/OscFacts.v ===== *)
(** Facts about change batches: the last occurrence of an element wins. *)
From S2P Require Import Prelude PyStr PyFloat Json Osc.

(** The specification: the rows of every object of every file, in order. *)
Section Spec.
Context (FileProcessor : pystr -> res (list osm_object)).

Definition node_rows (seq : Z) (o : osm_object) : res (list (row (option Z * option Z))) :=
  match o_kind o with
  | KNode loc => res_map (fun p => [row_of o seq p]) (node_position loc)
  | _ => Ok []
  end.
Definition way_rows (seq : Z) (o : osm_object) : res (list (row (list Z))) :=
  match o_kind o with KWay refs => Ok [row_of o seq refs] | _ => Ok [] end.
Definition relation_rows (seq : Z) (o : osm_object) : res (list (row (list member))) :=
  match o_kind o with KRelation ms => Ok [row_of o seq ms] | _ => Ok [] end.

Definition occurrences {P} (rows : Z -> osm_object -> res (list (row P))) (files : list (Z * pystr)) :
    res (list (row P)) :=
  res_flat_map (fun f => let* os := FileProcessor f.2 in res_flat_map (rows f.1) os) files.

(** The last row of an id. *)
Definition last_of {P} (k : Z) (l : list (row P)) : option (row P) :=
  last (base.filter (fun r => id r = k) l).

Definition add_rows {P} (a : accum P) (l : list (row P)) : accum P := fold_left (fun a r => add_row r a) l a.

Lemma add_rows_app {P} (a : accum P) l1 l2 : add_rows a (l1 ++ l2) = add_rows (add_rows a l1) l2.
Proof. apply fold_left_app. Qed.

Lemma add_rows_all {P} (a : accum P) l : all_rev (add_rows a l) = rev l ++ all_rev a.
Proof.
  revert a; induction l as [|r l IH]; intros a; [done|]. unfold add_rows in *. cbn [fold_left].
  rewrite IH. simpl. by rewrite <- app_assoc.
Qed.

Lemma add_rows_latest {P} (a : accum P) l k :
  latest (add_rows a l) !! k = match last_of k l with Some r => Some r | None => latest a !! k end.
Proof.
  induction l as [|r l IH] using rev_ind; [done|]. rewrite add_rows_app. unfold last_of in *.
  rewrite filter_app, filter_cons. unfold add_rows at 1. cbn [fold_left]. unfold add_row; cbn [latest].
  destruct (decide (id r = k)) as [<-|Hk].
  - rewrite lookup_insert_eq. cbn. by rewrite last_snoc.
  - rewrite lookup_insert_ne by done. by rewrite filter_nil, app_nil_r.
Qed.

Lemma res_flat_map_nil {A B} (f : A -> res (list B)) : res_flat_map f [] = Ok [].
Proof. done. Qed.
(** One object extends one of the three accumulators. *)
Lemma batch_object_spec s b o b' :
  batch_object s b o = Ok b' ->
  exists ns ws rs, node_rows s o = Ok ns /\ way_rows s o = Ok ws /\ relation_rows s o = Ok rs /\
    nodes b' = add_rows (nodes b) ns /\ ways b' = add_rows (ways b) ws /\
    relations b' = add_rows (relations b) rs /\
    b_first_seq b' = b_first_seq b /\ b_last_seq b' = b_last_seq b.
Proof.
  unfold batch_object, node_rows, way_rows, relation_rows. destruct (o_kind o) as [loc| |].
  - destruct (node_position loc); simpl; [|done]. intros [= <-]. naive_solver.
  - intros [= <-]. naive_solver.
  - intros [= <-]. naive_solver.
Qed.

Lemma batch_objects_spec s os b b' :
  batch_objects s b os = Ok b' ->
  exists ns ws rs, res_flat_map (node_rows s) os = Ok ns /\ res_flat_map (way_rows s) os = Ok ws /\
    res_flat_map (relation_rows s) os = Ok rs /\
    nodes b' = add_rows (nodes b) ns /\ ways b' = add_rows (ways b) ws /\
    relations b' = add_rows (relations b) rs /\
    b_first_seq b' = b_first_seq b /\ b_last_seq b' = b_last_seq b.
Proof.
  revert b; induction os as [|o os IH]; intros b; cbn [batch_objects].
  - intros [= <-]. exists [], [], []. done.
  - intros (b1 & H1 & H2)%res_bind_Ok.
    apply batch_object_spec in H1 as (n1 & w1 & r1 & Hn & Hw & Hr & En & Ew & Er & Ef & El).
    apply IH in H2 as (n2 & w2 & r2 & Hn2 & Hw2 & Hr2 & En2 & Ew2 & Er2 & Ef2 & El2).
    exists (n1 ++ n2), (w1 ++ w2), (r1 ++ r2). rewrite !res_flat_map_cons, Hn, Hw, Hr. cbn [res_bind].
    rewrite Hn2, Hw2, Hr2. cbn [res_bind]. rewrite !add_rows_app. split_and!; congruence.
Qed.

Definition min_opt (o : option Z) (l : list Z) : option Z :=
  fold_left (fun o s => Some (match o with None => s | Some f => Z.min f s end)) l o.
Definition max_opt (o : option Z) (l : list Z) : option Z :=
  fold_left (fun o s => Some (match o with None => s | Some f => Z.max f s end)) l o.

Lemma batch_files_spec fs b b' :
  batch_files FileProcessor b fs = Ok b' ->
  exists ns ws rs, occurrences node_rows fs = Ok ns /\ occurrences way_rows fs = Ok ws /\
    occurrences relation_rows fs = Ok rs /\
    nodes b' = add_rows (nodes b) ns /\ ways b' = add_rows (ways b) ws /\
    relations b' = add_rows (relations b) rs /\
    b_first_seq b' = min_opt (b_first_seq b) (map fst fs) /\
    b_last_seq b' = max_opt (b_last_seq b) (map fst fs).
Proof.
  revert b; induction fs as [|[s p] fs IH]; intros b; cbn [batch_files].
  - intros [= <-]. exists [], [], []. done.
  - intros (os & Ho & H1)%res_bind_Ok. apply res_bind_Ok in H1 as (b1 & H1 & H2).
    apply batch_objects_spec in H1 as (n1 & w1 & r1 & Hn & Hw & Hr & En & Ew & Er & Ef & El).
    apply IH in H2 as (n2 & w2 & r2 & Hn2 & Hw2 & Hr2 & En2 & Ew2 & Er2 & Ef2 & El2).
    exists (n1 ++ n2), (w1 ++ w2), (r1 ++ r2). unfold occurrences in *. rewrite !res_flat_map_cons.
    cbn [fst snd]. rewrite Ho. cbn [res_bind]. rewrite Hn, Hw, Hr. cbn [res_bind].
    rewrite Hn2, Hw2, Hr2. cbn [res_bind]. rewrite !add_rows_app.
    cbn [map fst]. unfold min_opt, max_opt in *. cbn [fold_left].
    split_and!; [done|done|done|by rewrite En2, En|by rewrite Ew2, Ew|by rewrite Er2, Er|by rewrite Ef2, Ef|by rewrite El2, El].
Qed.

#[local] Instance by_id_total {P} : Total (@by_id P).
Proof. intros a b. unfold by_id. lia. Qed.
#[local] Instance by_id_trans {P} : Transitive (@by_id P).
Proof. intros a b c. unfold by_id. lia. Qed.
#[local] Instance by_id_version_total {P} : Total (@by_id_version P).
Proof. intros a b. unfold by_id_version. lia. Qed.
#[local] Instance by_id_version_trans {P} : Transitive (@by_id_version P).
Proof. intros a b c. unfold by_id_version. lia. Qed.

(** The table of latest rows: one row per id, its last occurrence, by id. *)
Definition latest_table {P} (occ table : list (row P)) : Prop :=
  StronglySorted (fun r1 r2 => id r1 < id r2) table /\
  forall r, r ∈ table <-> last_of (id r) occ = Some r.
(** The table of all rows: the occurrences, by id and version. *)
Definition full_table {P} (occ table : list (row P)) : Prop :=
  Permutation table occ /\ StronglySorted by_id_version table.

Lemma last_of_id {P} k (l : list (row P)) r : last_of k l = Some r -> id r = k.
Proof.
  unfold last_of. intros H. apply last_Some_elem_of in H. by apply list_elem_of_filter in H as [? _].
Qed.

Lemma to_table_spec {P} (occ : list (row P)) :
  latest_table occ (to_table (latest (add_rows no_rows occ))).
Proof.
  set (m := latest (add_rows no_rows occ)).
  assert (Hm : forall k r, m !! k = Some r <-> last_of k occ = Some r).
  { intros k r. unfold m. rewrite add_rows_latest. simpl. rewrite lookup_empty. by destruct (last_of k occ). }
  assert (Hin : forall r, r ∈ to_table m <-> last_of (id r) occ = Some r).
  { intros r. unfold to_table. rewrite merge_sort_Permutation, elem_of_map. split.
    - intros ([k r'] & -> & Hk%elem_of_map_to_list). apply Hm in Hk. simpl.
      by rewrite (last_of_id _ _ _ Hk).
    - intros Hr%Hm. exists (id r, r). split; [done|]. by apply elem_of_map_to_list. }
  split; [|done].
  assert (Hnd : NoDup (map id (to_table m))).
  { unfold to_table. rewrite merge_sort_Permutation.
    replace (map id (map snd (map_to_list m))) with ((map_to_list m).*1); [apply NoDup_fst_map_to_list|].
    rewrite map_map. apply list_fmap_ext. intros i [k r] Hk%list_elem_of_lookup_2. simpl.
    apply elem_of_map_to_list in Hk. apply Hm in Hk. by rewrite (last_of_id _ _ _ Hk). }
  assert (Hs : StronglySorted by_id (to_table m)).
  { apply Sorted_StronglySorted; [apply _|]. apply Sorted_merge_sort. apply _. }
  clear Hin. induction Hs as [|r l Hs IH Hr]; [constructor|].
  cbn [map] in Hnd. apply NoDup_cons in Hnd as [Hni Hnd]. constructor; [by apply IH|].
  apply Forall_forall. intros x Hx. rewrite Forall_forall in Hr. specialize (Hr x Hx).
  unfold by_id in Hr. assert (id r <> id x); [|lia]. intros E. apply Hni. rewrite E. by apply elem_of_map_2.
Qed.

Lemma all_table_spec {P} (occ : list (row P)) : full_table occ (all_table (add_rows no_rows occ)).
Proof.
  unfold all_table. rewrite add_rows_all. simpl. rewrite app_nil_r, rev_involutive. split.
  - apply merge_sort_Permutation.
  - apply Sorted_StronglySorted; [apply _|]. apply Sorted_merge_sort. apply _.
Qed.

(** C33: in a parsed batch the last occurrence of an element wins.  Each of the
    three tables has exactly one row per id that occurs anywhere in the batch,
    the one of its last occurrence in file order, sorted by strictly increasing
    id; the [_all] tables are permutations of all occurrences, sorted by id and
    version; and the sequence bounds are the minimum and maximum of the files'
    numbers. *)
Theorem parse_batch_last_wins files b :
  parse_batch FileProcessor files = Ok b ->
  exists ns ws rs,
    occurrences node_rows files = Ok ns /\ occurrences way_rows files = Ok ws /\
    occurrences relation_rows files = Ok rs /\
    latest_table ns (node b) /\ latest_table ws (way b) /\ latest_table rs (relation b) /\
    full_table ns (node_all b) /\ full_table ws (way_all b) /\ full_table rs (relation_all b) /\
    first_seq b = min_opt None (map fst files) /\ last_seq b = max_opt None (map fst files) /\
    n_files b = length files.
Proof.
  unfold parse_batch. intros (st & Hst & Hb)%res_bind_Ok. injection Hb as <-.
  apply batch_files_spec in Hst as (ns & ws & rs & Hn & Hw & Hr & En & Ew & Er & Ef & El).
  exists ns, ws, rs. cbn [node way relation node_all way_all relation_all first_seq last_seq n_files].
  rewrite En, Ew, Er, Ef, El. split_and!; try done; apply to_table_spec || apply all_table_spec.
Qed.
End Spec.

(** The same node in two files, and a way. *)
Definition sample_node (i v : Z) : osm_object := {|
  o_id := i; o_deleted := false; o_version := v; o_timestamp := None; o_changeset := 1; o_uid := None;
  o_user := u "x"; o_tags := []; o_kind := KNode None |}.
Definition sample_files (path : pystr) : res (list osm_object) :=
  if path =s u "a" then Ok [sample_node 9 1; sample_node 3 4; sample_node 9 2]
  else Ok [sample_node 3 5].

Lemma parse_batch_last_wins_witness :
  exists b, parse_batch sample_files [(11, u "a"); (12, u "b")] = Ok b /\
    map (fun r => (id r, version r, seq r)) (node b) = [(3, 5, 12); (9, 2, 11)] /\
    first_seq b = Some 11 /\ length (node_all b) = 4%nat.
Proof.
  destruct (parse_batch sample_files [(11, u "a"); (12, u "b")]) as [b|] eqn:E; [|discriminate].
  exists b. split; [done|].
  destruct (parse_batch_last_wins _ _ _ E) as (ns & ws & rs & Hn & _ & _ & _ & _ & _ & [Hp _] & _ & _ & Hf & _).
  split; [injection E as <-; by vm_compute|]. split; [by rewrite Hf|].
  rewrite Hp. injection Hn as <-. by vm_compute.
Defined.
