(* ===== verification/UpdateServer.v ===== *)
(** [update/server.py]: the update server.  At most one run is in flight; the
    state is the module's globals and the workers that are running. *)
From S2P Require Import Prelude PyStr Json Store Manifest.

Section Options.
Context `{UnicodeDB}.

(** [os.environ] *)
Definition environ : Type := list (pystr * pystr).

Definition _env_int (env : environ) (name : pystr) : option Z :=
  match dict_get name env with
  | None | Some [] => None
  | Some raw => match py_int raw with Ok n => Some n | Raise _ => None end
  end.

(** [os.environ.get(name) or None] *)
Definition env_or_none (env : environ) (name : pystr) : option pystr :=
  match dict_get name env with None | Some [] => None | Some v => Some v end.

Record UpdateOptions := {
  root : pystr;
  source : option pystr;
  max_diffs : Z;
  tmpdir : option pystr;
  threads : option Z;
  memory_limit : option pystr
}.

Definition _build_options (env : environ) : res UpdateOptions :=
  match env_or_none env (u "OSMPQ_ROOT") with
  | None => Raise (RuntimeErr (u "OSMPQ_ROOT is not set"))
  | Some root =>
      Ok {| root := root;
            source := env_or_none env (u "OSMPQ_REPLICATION_SOURCE");
            max_diffs := match _env_int env (u "OSMPQ_UPDATE_MAX_DIFFS") with
                         | None => 60 | Some n => if n =? 0 then 60 else n end;
            tmpdir := env_or_none env (u "OSMPQ_UPDATE_TMPDIR");
            threads := _env_int env (u "OSMPQ_UPDATE_THREADS");
            memory_limit := env_or_none env (u "OSMPQ_UPDATE_MEMORY_LIMIT") |}
  end.

(** The number in [LATEST] and the manifest's timestamp, each [None] on any
    failure. *)
Definition _manifest_info `{JsonModule} {S : Type} `{Store S} (root : option pystr) (s : S) :
    option Z * option json :=
  match root with
  | None | Some [] => (None, None)
  | Some _ =>
      ((match (let* body := read_bytes LATEST s in
               let* t := utf8_decode body in py_int (py_strip t)) with
        | Ok n => Some n | Raise _ => None end),
       (match load_latest s with
        | Ok man => Some (timestamp_osm_base man) | Raise _ => None end))
  end.
End Options.

(** * The run lock *)
Section Runs.
Context {RunSummary : Type}.

(** How [_build_options] followed by [run_once] can end. *)
Inductive run_outcome :=
  | RunOk (summary : option RunSummary)
  | RunRaised (text : pystr).        (** ["{type}: {e}"] *)

(** A worker thread: in the body of [_run_locked], or past it with the
    [finally] block still to come. *)
Inductive worker :=
  | InBody
  | InFinally (o : run_outcome).

Record state := {
  _running : bool;
  _last_summary : option RunSummary;
  _last_error : option pystr;
  workers : list worker
}.
Definition initial : state :=
  {| _running := false; _last_summary := None; _last_error := None; workers := [] |}.

Inductive reply :=
  | Accepted
  | Conflict409.

(** [run_endpoint] up to handing the run to a worker thread. *)
Definition run_endpoint (s : state) : reply * state :=
  if _running s then (Conflict409, s)
  else (Accepted, {| _running := true; _last_summary := _last_summary s;
                     _last_error := _last_error s; workers := workers s ++ [InBody] |}).

(** The body of [_run_locked] ends: the summary or the error is recorded. *)
Definition run_body (o : run_outcome) (s : state) (rest : list worker) : state :=
  match o with
  | RunOk summary => {| _running := _running s; _last_summary := summary; _last_error := None;
                        workers := InFinally o :: rest |}
  | RunRaised text => {| _running := _running s; _last_summary := _last_summary s;
                         _last_error := Some text; workers := InFinally o :: rest |}
  end.

(** [finally: _running = False] *)
Definition run_finally (s : state) (rest : list worker) : state :=
  {| _running := false; _last_summary := _last_summary s; _last_error := _last_error s;
     workers := rest |}.

(** The status code of the reply to an accepted request. *)
Definition run_status (o : run_outcome) : Z :=
  match o with RunOk _ => 200 | RunRaised _ => 500 end.

(** One atomic step: a request, or a worker making progress. *)
Inductive step : state -> state -> Prop :=
  | step_request s : step s (snd (run_endpoint s))
  | step_body s l1 l2 o :
      workers s = l1 ++ InBody :: l2 -> step s (run_body o s (l1 ++ l2))
  | step_finally s l1 l2 o :
      workers s = l1 ++ InFinally o :: l2 -> step s (run_finally s (l1 ++ l2)).

Definition reachable (s : state) : Prop := rtc step initial s.

(** * Facts *)
Definition single_flight (s : state) : Prop :=
  match workers s with
  | [] => _running s = false
  | [_] => _running s = true
  | _ => False
  end.

Lemma step_single_flight s s' : step s s' -> single_flight s -> single_flight s'.
Proof.
  destruct 1 as [s|s l1 l2 o E|s l1 l2 o E]; unfold single_flight; intros Hs.
  - unfold run_endpoint. destruct (workers s) as [|w [|]] eqn:E; [..|done].
    + by rewrite Hs.
    + rewrite Hs. cbn [snd]. by rewrite E.
  - rewrite E in Hs. destruct l1 as [|? [|]], l2; try done; destruct o; done.
  - rewrite E in Hs. destruct l1 as [|? [|]], l2; done.
Qed.

(** C37: the update server runs at most one update at a time and always frees
    itself.  In every reachable state at most one worker is in flight and the
    flag is set exactly then, so a request is answered 409 exactly while a run
    is in flight; and from every reachable state, once the run in flight ends
    (in success or failure alike), the next request is accepted. *)
Theorem update_server_single_flight s :
  reachable s ->
  (length (workers s) <= 1)%nat /\
  (fst (run_endpoint s) = Conflict409 <-> workers s <> []) /\
  forall o, exists s', rtc step s s' /\ workers s' = [] /\ fst (run_endpoint s') = Accepted /\
    (workers s = [InBody] -> match o with
       | RunOk m => _last_summary s' = m /\ _last_error s' = None
       | RunRaised t => _last_summary s' = _last_summary s /\ _last_error s' = Some t end).
Proof.
  intros Hr. assert (Hs : single_flight s).
  { revert Hr. unfold reachable. generalize (eq_refl : single_flight initial).
    generalize initial. intros s0 H0 Hr. induction Hr; [done|]. eauto using step_single_flight. }
  unfold single_flight in Hs. destruct (workers s) as [|w [|]] eqn:E; [| |done].
  - split_and!; [simpl; lia| |].
    + unfold run_endpoint. by rewrite Hs.
    + intros o. exists s. split_and!; [done|done|unfold run_endpoint; by rewrite Hs|done].
  - split_and!; [simpl; lia| |].
    + unfold run_endpoint. by rewrite Hs.
    + intros o. destruct w as [|o'].
      * exists (run_finally (run_body o s []) []). split_and!; [|done|done|by destruct o].
        eapply rtc_l; [by apply (step_body s [] [] o)|]. apply rtc_once.
        by destruct o; eapply (step_finally _ [] []).
      * exists (run_finally s []). split_and!; [|done|done|done].
        apply rtc_once. by apply (step_finally s [] [] o').
Qed.
End Runs.

(** A request, a second one while the first runs, and a failed run. *)
Lemma update_server_single_flight_witness :
  let s1 := snd (run_endpoint (@initial unit)) in
  fst (run_endpoint s1) = Conflict409 /\ (length (workers s1) <= 1)%nat.
Proof.
  intros s1. assert (Hr : reachable s1) by (apply rtc_once; constructor).
  destruct (update_server_single_flight s1 Hr) as (H1 & H2 & _).
  split; [by apply H2 | exact H1].
Defined.
