(* ===== verification/Numpy.v ===== *)
(** The numpy routines the vectorised code calls, as an interface: each is a
    parameter with the behaviour numpy documents for it.  [spec_numpy] is a
    concrete instance, used by the witnesses. *)
From S2P Require Import Prelude.

Class Numpy := {
  (* numpy.searchsorted(a, v, side="right") and (..., side="left") *)
  searchsorted_right : list Z -> Z -> nat;
  searchsorted_left : list Z -> Z -> nat;
  (* numpy.unique(a, return_counts=True) *)
  unique_counts : list Z -> list (Z * Z)
}.

(** Documented behaviour: on a sorted array, the insertion point keeps it
    sorted, after (before) the entries equal to the value; [unique] returns
    the distinct values in increasing order with their multiplicities. *)
Class NumpyLaws `{Numpy} : Prop := {
  searchsorted_right_spec a v : StronglySorted Z.le a ->
    Forall (fun x => x <= v) (firstn (searchsorted_right a v) a) /\
    Forall (fun x => v < x) (skipn (searchsorted_right a v) a) /\
    (searchsorted_right a v <= length a)%nat;
  searchsorted_left_spec a v : StronglySorted Z.le a ->
    Forall (fun x => x < v) (firstn (searchsorted_left a v) a) /\
    Forall (fun x => v <= x) (skipn (searchsorted_left a v) a) /\
    (searchsorted_left a v <= length a)%nat;
  unique_sorted a : StronglySorted Z.lt (map fst (unique_counts a));
  unique_count a c n : (c, n) ∈ unique_counts a ->
    n = Z.of_nat (length (filter (fun x => x = c) a));
  unique_mem a c : c ∈ a <-> c ∈ map fst (unique_counts a)
}.

(** A numpy array as a Python sequence: negative indices count from the end. *)
Definition np_index {A} (l : list A) (i : Z) : res A :=
  let j := if i <? 0 then i + Z.of_nat (length l) else i in
  if j <? 0 then Raise IndexError else res_of_option IndexError (l !! Z.to_nat j).

(** [np.clip(x, lo, hi)], which is [minimum(hi, maximum(x, lo))]. *)
Definition np_clip (x lo hi : Z) : Z := Z.min hi (Z.max x lo).

(** * A concrete instance *)
Fixpoint insert_count (x : Z) (l : list (Z * Z)) : list (Z * Z) :=
  match l with
  | [] => [(x, 1)]
  | (y, n) :: l' =>
      if x =? y then (y, n + 1) :: l'
      else if x <? y then (x, 1) :: l else (y, n) :: insert_count x l'
  end.

#[local] Instance spec_numpy : Numpy := {|
  searchsorted_right a v := length (filter (fun x => x <= v) a);
  searchsorted_left a v := length (filter (fun x => x < v) a);
  unique_counts a := fold_right insert_count [] a
|}.

Lemma filter_sorted_prefix (P : Z -> Prop) `{forall x, Decision (P x)} a :
  (forall x y, x <= y -> P y -> P x) -> StronglySorted Z.le a ->
  Forall P (firstn (length (filter P a)) a) /\
  Forall (fun x => ~ P x) (skipn (length (filter P a)) a) /\ (length (filter P a) <= length a)%nat.
Proof.
  intros Hmono Hs. induction Hs as [|x a Hs IH Hx]; [by repeat constructor|].
  rewrite filter_cons. destruct (decide (P x)) as [Px|Px]; simpl.
  - destruct IH as (H1 & H2 & H3). split_and!; [by constructor|done|lia].
  - assert (filter P a = []) as ->.
    { clear IH Hs. induction Hx as [|y a Hy Ha IH]; [done|]. rewrite filter_cons_False; [done|].
      intros Py. apply Px. by eapply Hmono. }
    simpl. split_and!; [constructor| |lia]. constructor; [done|].
    eapply Forall_impl; [exact Hx|]. intros y Hy Py. apply Px. by eapply Hmono.
Qed.

Lemma insert_count_fst x l y : y ∈ map fst (insert_count x l) <-> y = x \/ y ∈ map fst l.
Proof.
  induction l as [|[z n] l IH]; simpl.
  - rewrite list_elem_of_singleton, elem_of_nil. naive_solver.
  - destruct (Z.eqb_spec x z) as [->|]; [|destruct (x <? z)]; simpl;
      rewrite ?elem_of_cons, ?IH; naive_solver.
Qed.

Lemma insert_count_sorted x l :
  StronglySorted Z.lt (map fst l) -> StronglySorted Z.lt (map fst (insert_count x l)).
Proof.
  induction l as [|[z n] l IH]; simpl; intros Hs; [by repeat constructor|].
  apply StronglySorted_inv in Hs as [Hs Hz].
  destruct (Z.eqb_spec x z) as [->|Hne]; [by constructor|].
  destruct (Z.ltb_spec x z); simpl.
  - constructor; [by constructor|]. constructor; [done|].
    eapply Forall_impl; [exact Hz|]. simpl. lia.
  - constructor; [by apply IH|]. apply Forall_forall. intros y [->|Hy]%insert_count_fst; [lia|].
    by eapply Forall_forall in Hy.
Qed.

Lemma insert_count_snd x l c n :
  StronglySorted Z.lt (map fst l) -> (c, n) ∈ insert_count x l ->
  ((c, n) ∈ l /\ c <> x) \/ (c = x /\ ((c, n - 1) ∈ l \/ (n = 1 /\ c ∉ map fst l))).
Proof.
  induction l as [|[z m] l IH]; simpl; intros Hs.
  - rewrite list_elem_of_singleton. intros [= -> ->]. right. split; [done|]. right.
    split; [done|]. by apply not_elem_of_nil.
  - apply StronglySorted_inv in Hs as [Hs Hz].
    assert (Hlt : forall y, y ∈ map fst l -> z < y) by (by apply Forall_forall).
    destruct (Z.eqb_spec x z) as [->|Hne].
    + rewrite elem_of_cons. intros [[= -> ->]|Hin].
      * right. split; [done|]. left. apply elem_of_cons. left. f_equal. lia.
      * left. split; [by apply elem_of_cons; right|]. intros ->.
        apply (elem_of_map_2 fst) in Hin. specialize (Hlt _ Hin). simpl in Hlt. lia.
    + destruct (Z.ltb_spec x z).
      * rewrite elem_of_cons. intros [[= -> ->]|Hin].
        -- right. split; [done|]. right. split; [done|]. rewrite elem_of_cons.
           intros [->|Hy]; [lia|]. specialize (Hlt _ Hy). lia.
        -- left. split; [done|]. intros ->. apply elem_of_cons in Hin as [[= ->]|Hin]; [lia|].
           apply (elem_of_map_2 fst) in Hin. simpl in Hin. specialize (Hlt _ Hin). lia.
      * rewrite elem_of_cons. intros [[= -> ->]|Hin].
        -- left. split; [apply elem_of_cons; by left|lia].
        -- destruct (IH Hs Hin) as [[H1 H2]|(-> & [H1|[-> H1]])].
           ++ left. split; [by apply elem_of_cons; right|done].
           ++ right. split; [done|]. left. by apply elem_of_cons; right.
           ++ right. split; [done|]. right. split; [done|]. rewrite elem_of_cons.
              intros [->|Hy]; [lia|done].
Qed.

Lemma spec_unique_sorted a : StronglySorted Z.lt (map fst (fold_right insert_count [] a)).
Proof. induction a as [|x a IH]; simpl; [constructor|by apply insert_count_sorted]. Qed.

Lemma spec_unique_mem a c : c ∈ a <-> c ∈ map fst (fold_right insert_count [] a).
Proof.
  induction a as [|x a IH]; simpl; [done|]. by rewrite insert_count_fst, elem_of_cons, IH.
Qed.

#[local] Instance spec_numpy_laws : NumpyLaws.
Proof.
  split; simpl.
  - intros a v Hs. destruct (filter_sorted_prefix (fun x => x <= v) a) as (H1 & H2 & H3);
      [lia|done|]. split_and!; [done| |done]. eapply Forall_impl; [exact H2|]. simpl. lia.
  - intros a v Hs. destruct (filter_sorted_prefix (fun x => x < v) a) as (H1 & H2 & H3);
      [lia|done|]. split_and!; [done| |done]. eapply Forall_impl; [exact H2|]. simpl. lia.
  - apply spec_unique_sorted.
  - intros a. induction a as [|x a IH]; simpl; intros c n Hin; [by apply elem_of_nil in Hin|].
    apply insert_count_snd in Hin as [[Hin Hne]|(-> & [Hin|[-> Hin]])]; [| | |apply spec_unique_sorted].
    + rewrite filter_cons_False by done. by apply IH.
    + rewrite filter_cons_True by done. simpl. apply IH in Hin. lia.
    + rewrite filter_cons_True by done. simpl. rewrite <- spec_unique_mem in Hin.
      assert (filter (fun y => y = x) a = []) as ->; [|done].
      clear IH. induction a as [|y a IH]; [done|]. apply not_elem_of_cons in Hin as [Hne Hin].
      rewrite filter_cons_False by congruence. by apply IH.
  - apply spec_unique_mem.
Qed.
