(* ===== verification/Cells.v ===== *)
(** Quadtree cells over lon/lat ([src/osmpq/layout/cells.py]): keys, codes,
    leaf lookup and the placement rules. *)
From S2P Require Import Prelude PyStr PyFloat Numpy.

Definition MAX_DEPTH : nat := 20.
Definition ROOT : pystr := u "root".

(** (south, west, north, east) in degrees. *)
Definition BBox : Type := pyfloat * pyfloat * pyfloat * pyfloat.
Definition WORLD : BBox := (float_of_Z (-90), float_of_Z (-180), float_of_Z 90, float_of_Z 180).

Definition depth_of (key : pystr) : nat := if key =s ROOT then 0 else length key.

Definition midpoint (a b : pyfloat) : pyfloat := fdiv (fadd a b) (float_of_Z 2).

(** The quadrant [digit] of a box: 0 NW, 1 NE, 2 SW, 3 SE. *)
Definition quadrant (digit : Z) (b : BBox) : option BBox :=
  let '(south, west, north, east) := b in
  let mid_lon := midpoint west east in
  let mid_lat := midpoint south north in
  match digit with
  | 48 => Some (mid_lat, west, north, mid_lon)
  | 49 => Some (mid_lat, mid_lon, north, east)
  | 50 => Some (south, west, mid_lat, mid_lon)
  | 51 => Some (south, mid_lon, mid_lat, east)
  | _ => None
  end.

Fixpoint cell_bbox_from (b : BBox) (key : pystr) : res BBox :=
  match key with
  | [] => Ok b
  | digit :: key' =>
      let* b' := res_of_option ValueError (quadrant digit b) in cell_bbox_from b' key'
  end.
Definition cell_bbox (key : pystr) : res BBox :=
  if key =s ROOT then Ok WORLD else cell_bbox_from WORLD key.

(** [digit if key == ROOT else key + digit] *)
Definition add_digit (key : pystr) (digit : Z) : pystr :=
  (if key =s ROOT then [] else key) ++ [digit].

Definition digits4 : list Z := [48; 49; 50; 51].

Definition children (key : pystr) : res (list pystr) :=
  if (MAX_DEPTH <=? depth_of key)%nat then Raise ValueError
  else Ok (map (add_digit key) digits4).

Definition parent (key : pystr) : option pystr :=
  if key =s ROOT then None
  else if (length key =? 1)%nat then Some ROOT
  else Some (removelast key).

(** [while cur is not None: out.append(cur); cur = parent(cur)] *)
Fixpoint ancestors_loop (fuel : nat) (cur : option pystr) : res (list pystr) :=
  match cur with
  | None => Ok []
  | Some c =>
      match fuel with
      | O => Raise OutOfFuel
      | S f => res_map (cons c) (ancestors_loop f (parent c))
      end
  end.
Definition ancestors (key : pystr) : res (list pystr) :=
  ancestors_loop (S (length key)) (parent key).

(** * Quadkey codes *)

(** [min(max(x, 0), n - 1)] with [n = 1 << MAX_DEPTH]. *)
Definition side : Z := Z.shiftl 1 (Z.of_nat MAX_DEPTH).
Definition clamp (x : Z) : Z := Z.min (Z.max x 0) (side - 1).

(** [(v + half) / full * n] *)
Definition grid_float (half full : Z) (v : pyfloat) : pyfloat :=
  fmul (fdiv (fadd v (float_of_Z half)) (float_of_Z full)) (float_of_Z side).

Definition grid_xy (lat lon : pyfloat) : res (Z * Z) :=
  let* x := int_of_float (grid_float 180 360 lon) in
  let* y := int_of_float (grid_float 90 180 lat) in
  Ok (clamp x, clamp y).

(** [range(MAX_DEPTH - 1, -1, -1)] *)
Definition bit_range : list Z := map Z.of_nat (rev (seq 0 MAX_DEPTH)).

(** The loop body: the next base-4 digit of the code. *)
Definition qk_digit (x inv_y i : Z) : Z :=
  let bx := Z.land (Z.shiftr x i) 1 in
  let biy := Z.land (Z.shiftr inv_y i) 1 in
  Z.lor (Z.shiftl biy 1) bx.
Definition qk_code (x y : Z) : Z :=
  let inv_y := Z.lxor (side - 1) y in
  fold_left (fun code i => Z.lor (Z.shiftl code 2) (qk_digit x inv_y i)) bit_range 0.

Definition point_to_qk (lat lon : pyfloat) : res Z :=
  let* xy := grid_xy lat lon in Ok (qk_code (fst xy) (snd xy)).

(** One row of [point_to_qk_np]: e7 integers, [np.floor] where the scalar
    version truncates, [np.clip] where it takes min and max. *)
Definition e7_degrees (v : Z) : pyfloat := fdiv (float_of_Z v) (float_of_Z 10000000).
Definition point_to_qk_np (lat_e7 lon_e7 : Z) : res Z :=
  let lat := e7_degrees lat_e7 in
  let lon := e7_degrees lon_e7 in
  let* x := floor_of_float (grid_float 180 360 lon) in
  let* y := floor_of_float (grid_float 90 180 lat) in
  Ok (qk_code (np_clip x 0 (side - 1)) (np_clip y 0 (side - 1))).

Section Codes.
Context `{UnicodeDB}.

Fixpoint key_digits_value (key : pystr) (value : Z) : res Z :=
  match key with
  | [] => Ok value
  | ch :: key' => let* d := py_int [ch] in key_digits_value key' (value * 4 + d)
  end.
Definition key_to_value (key : pystr) : res Z :=
  if key =s ROOT then Ok 0 else key_digits_value key 0.

(** A key deeper than [MAX_DEPTH] makes the shift count negative. *)
Definition qk_range (key : pystr) : res (Z * Z) :=
  let depth := depth_of key in
  let* value := key_to_value key in
  if (MAX_DEPTH <? depth)%nat then Raise ValueError
  else
    let shift := 2 * (Z.of_nat MAX_DEPTH - Z.of_nat depth) in
    let lo := Z.shiftl value shift in
    let span := Z.shiftl 1 shift in
    Ok (lo, lo + span - 1).
End Codes.

(** [_value_to_key]: the low [depth] base-4 digits, most significant first. *)
Fixpoint value_digits (depth : nat) (v : Z) : pystr :=
  match depth with
  | O => []
  | S d => value_digits d (Z.shiftr v 2) ++ [48 + Z.land v 3]
  end.
Definition value_to_key (value : Z) (depth : nat) : pystr :=
  if (depth =? 0)%nat then ROOT else value_digits depth value.

(** * The leaf index *)
Record LeafIndex := mkLeafIndex {
  leaves : list pystr;
  los : list Z;
  his : list Z;
  keys_by_lo : list pystr
}.

Definition range_le (a b : Z * Z * pystr) : Prop := fst (fst a) <= fst (fst b).
#[export] Instance range_le_dec : RelDecision range_le.
Proof. intros a b. unfold range_le. apply _. Defined.

Section Leaves.
Context `{UnicodeDB} `{Numpy}.

Definition key_range (k : pystr) : res (Z * Z * pystr) := res_map (fun r => (r, k)) (qk_range k).

Definition LeafIndex_init (keys : list pystr) : res LeafIndex :=
  let ls := sorted_set keys in
  let* ranges := res_mapM key_range ls in
  let ranges := merge_sort range_le ranges in
  Ok (mkLeafIndex ls (map (fun r => fst (fst r)) ranges) (map (fun r => snd (fst r)) ranges)
        (map snd ranges)).

Definition leaf_index_for_qk (index : LeafIndex) (qk : Z) : Z :=
  np_clip (Z.of_nat (searchsorted_right (los index) qk) - 1) 0 (Z.of_nat (length (los index)) - 1).

Definition contains_qk (index : LeafIndex) (idx qk : Z) : res bool :=
  let* hi := np_index (his index) idx in Ok (qk <=? hi).

Definition leaf_for_qk (index : LeafIndex) (qk : Z) : res pystr :=
  np_index (keys_by_lo index) (leaf_index_for_qk index qk).
End Leaves.

(** * Point and box placement *)

(** The loop of [point_cell]; [n] bounds the depth still to go. *)
Fixpoint point_cell_loop (n : nat) (lat lon : pyfloat) (lvs : list pystr) (b : BBox)
    (key : pystr) : pystr :=
  if str_in key lvs then key
  else match n with
  | O => key
  | S n' =>
      let '(south, west, north, east) := b in
      let mid_lon := midpoint west east in
      let mid_lat := midpoint south north in
      let north_half := fleb mid_lat lat in
      let east_half := fleb mid_lon lon in
      let '(digit, b') :=
        if north_half && negb east_half then (48, (mid_lat, west, north, mid_lon))
        else if north_half && east_half then (49, (mid_lat, mid_lon, north, east))
        else if negb north_half && negb east_half then (50, (south, west, mid_lat, mid_lon))
        else (51, (south, mid_lon, mid_lat, east)) in
      point_cell_loop n' lat lon lvs b' (add_digit key digit)
  end.
Definition point_cell (lat lon : pyfloat) (lvs : list pystr) : pystr :=
  point_cell_loop MAX_DEPTH lat lon lvs WORLD ROOT.

(** One row of [point_cells_np]. *)
Definition point_cells_np `{UnicodeDB} `{Numpy} (lat_e7 lon_e7 : Z) (lvs : list pystr) : res pystr :=
  let* index := LeafIndex_init lvs in
  let* qk := point_to_qk_np lat_e7 lon_e7 in
  leaf_for_qk index qk.

Definition bbox_contains (outer inner : BBox) : bool :=
  let '(o_south, o_west, o_north, o_east) := outer in
  let '(i_south, i_west, i_north, i_east) := inner in
  fleb o_south i_south && fleb o_west i_west && fleb i_north o_north && fleb i_east o_east.

Definition candidates (b : BBox) : list (Z * BBox) :=
  let '(south, west, north, east) := b in
  let mid_lon := midpoint west east in
  let mid_lat := midpoint south north in
  [(48, (mid_lat, west, north, mid_lon)); (49, (mid_lat, mid_lon, north, east));
   (50, (south, west, mid_lat, mid_lon)); (51, (south, mid_lon, mid_lat, east))].

(** The loop of [containing_cell]. *)
Fixpoint containing_cell_loop (n : nat) (bbox : BBox) (lvs : list pystr) (cur : BBox)
    (key : pystr) : pystr :=
  if str_in key lvs then key
  else match n with
  | O => key
  | S n' =>
      match List.filter (fun c => bbox_contains (snd c) bbox) (candidates cur) with
      | [(digit, cb)] => containing_cell_loop n' bbox lvs cb (add_digit key digit)
      | _ => key
      end
  end.
Definition containing_cell (bbox : BBox) (lvs : list pystr) : pystr :=
  containing_cell_loop MAX_DEPTH bbox lvs WORLD ROOT.

Definition bbox_intersects (a b : BBox) : bool :=
  let '(a_south, a_west, a_north, a_east) := a in
  let '(b_south, b_west, b_north, b_east) := b in
  if fltb a_east b_west || fltb b_east a_west then false
  else if fltb a_north b_south || fltb b_north a_south then false
  else true.

Definition DEFAULT_ANCESTOR_DEPTHS : list nat := [0; 3; 6; 9; 12]%nat.
Definition DEFAULT_MAX_DEPTH_V2 : nat := 13.

(** [(qk >> 2 * (MAX_DEPTH - 1 - i)) & 3] *)
Definition code_digit (qk : Z) (i : nat) : Z :=
  Z.land (Z.shiftr qk (2 * (Z.of_nat MAX_DEPTH - 1 - Z.of_nat i))) 3.

(** The [lcp_depth] / [still] loop. *)
Definition lcp_depth (sw ne : Z) (max_depth : nat) : nat :=
  fst (fold_left (fun (st : nat * bool) i =>
         let '(lcp, still) := st in
         let mismatch := still && negb (code_digit sw i =? code_digit ne i) in
         (if mismatch then i else lcp, still && negb mismatch))
       (seq 0 max_depth) (max_depth, true)).

(** One row of [containing_cells_v2_np], from the codes of its SW and NE
    corners on. *)
Definition placement_v2 `{Numpy} (index : LeafIndex) (qk_sw qk_ne : Z)
    (ancestor_depths : list nat) (max_depth : nat) : res pystr :=
  let lcp := lcp_depth qk_sw qk_ne max_depth in
  let leaf_idx := leaf_index_for_qk index qk_sw in
  let* leaf_key := np_index (keys_by_lo index) leaf_idx in
  let leaf_depth := depth_of leaf_key in
  let* leaf_valid := contains_qk index leaf_idx qk_sw in
  let truncated := Nat.min lcp leaf_depth in
  let is_leaf_c := (truncated =? leaf_depth)%nat && leaf_valid in
  let ad_sorted := map Z.of_nat (merge_sort le (remove_dups ancestor_depths)) in
  let idx := np_clip (Z.of_nat (searchsorted_right ad_sorted (Z.of_nat truncated)) - 1) 0
               (Z.of_nat (length ad_sorted) - 1) in
  let* rounded := np_index ad_sorted idx in
  let final := if is_leaf_c then truncated else Z.to_nat rounded in
  let acc := map (fun i => 48 + code_digit qk_sw i) (seq 0 max_depth) in
  Ok (if (final =? 0)%nat then ROOT else firstn final acc).

Definition containing_cells_v2 `{UnicodeDB} `{Numpy} (ymin xmin ymax xmax : Z) (lvs : list pystr)
    (ancestor_depths : list nat) (max_depth : nat) : res pystr :=
  if (MAX_DEPTH <? max_depth)%nat then Raise ValueError
  else
    let* index := LeafIndex_init lvs in
    let* qk_sw := point_to_qk_np ymin xmin in
    let* qk_ne := point_to_qk_np ymax xmax in
    placement_v2 index qk_sw qk_ne ancestor_depths max_depth.

Definition containing_cell_v2 `{UnicodeDB} `{Numpy} (bbox : BBox) (lvs : list pystr)
    (ancestor_depths : list nat) (max_depth : nat) : res pystr :=
  let '(south, west, north, east) := bbox in
  let e7 v := round_of_float (fmul v (float_of_Z 10000000)) in
  let* ymin := e7 south in
  let* xmin := e7 west in
  let* ymax := e7 north in
  let* xmax := e7 east in
  containing_cells_v2 ymin xmin ymax xmax lvs ancestor_depths max_depth.

(** [cells_for_bbox]: the loop over the leaves, then [sorted(out)]. *)
Fixpoint cells_for_bbox_loop (bbox : BBox) (lvs : list pystr) : res (list pystr) :=
  match lvs with
  | [] => Ok []
  | leaf :: lvs' =>
      let* b := cell_bbox leaf in
      let* here := (if bbox_intersects b bbox then res_map (cons leaf) (ancestors leaf) else Ok []) in
      res_map (app here) (cells_for_bbox_loop bbox lvs')
  end.
Definition cells_for_bbox (bbox : BBox) (lvs : list pystr) : res (list pystr) :=
  res_map (fun out => sorted_set (ROOT :: out)) (cells_for_bbox_loop bbox lvs).
