(* ===== verification/Catalog.v ===== *)
(** [engine/catalog.py]: the engine's own view of a manifest (plain JSON data,
    paths resolved against the root) and the selection of the files a query
    has to read: cells for a bbox, parts for an id range, row-group pruning. *)
From S2P Require Import Prelude PyStr PyFloat Json Cells.
From S2P Require Import LocalStore Store.

Definition is_remote (root : pystr) : bool :=
  py_contains (u "://") root && negb (startswith root (u "file://")).

Definition join_root (root relpath : pystr) : pystr :=
  let root := rstrip_slash root in
  let relpath := lstrip_slash relpath in
  if is_remote root then root ++ u "/" ++ relpath
  else path_str root (path_parts relpath).

Record Manifest := { m_root : pystr; m_data : json }.

(** * Accessors

    [list(x)], [dict(x)] and [int(x)] of JSON values. *)
Definition as_list (j : json) : res (list json) := iter j.
Definition as_dict (j : json) : res (list (pystr * json)) :=
  match j with
  | JObj d => Ok d
  | JList [] => Ok []
  | JList _ => Raise ValueError
  | JStr [] => Ok []
  | JStr _ => Raise ValueError
  | _ => Raise TypeError
  end.
Definition as_int `{UnicodeDB} (j : json) : res Z :=
  match j with
  | JInt z => Ok z
  | JBool b => Ok (if b then 1 else 0)
  | JFloat f => int_of_float f
  | JStr s => py_int s
  | _ => Raise TypeError
  end.
(** Where the code treats a value as a string. *)
Definition as_str (j : json) : res pystr :=
  match j with JStr s => Ok s | _ => Raise TypeError end.

(** [x or {}], [x or []] *)
Definition or_empty (j : json) : json := if truthy j then j else JObj [].

Section Accessors.
Context `{UnicodeDB}.
Implicit Types m : Manifest.

Definition promoted_keys m : res (list json) :=
  let* v := get_default (m_data m) (u "promoted_keys") (JList []) in as_list v.
Definition generation m : res json := getitem (m_data m) (u "generation").
Definition timestamp_osm_base m : res json := get_or_none (m_data m) (u "timestamp_osm_base").
Definition leaf_cells m : res (list pystr) :=
  let* v := get_default (m_data m) (u "leaf_cells") (JList []) in
  let* l := as_list v in res_mapM as_str l.
Definition manifest_version m : res Z :=
  let* v := get_default (m_data m) (u "manifest_version") (JInt 1) in as_int v.
Definition ancestor_depths m : res (list Z) :=
  let* v := get_default (m_data m) (u "ancestor_depths") (JList []) in
  let* l := as_list v in res_mapM as_int l.
Definition max_depth m : res Z :=
  let* v := get_default (m_data m) (u "max_depth") (JInt 20) in as_int v.
Definition rowgroup_index_paths m : res (list (pystr * json)) :=
  let* v := get_default (m_data m) (u "rowgroup_index") (JObj []) in as_dict v.
Definition replication_source m : res json := get_or_none (m_data m) (u "replication_source").

Definition path m (relpath : pystr) : pystr := join_root (m_root m) relpath.

Definition ELEMENT_TYPES : list pystr := [u "node"; u "way"; u "relation"].

(** [{k: self.path(v) for k, v in tf.items() if v}] *)
Definition resolve_files m (tf : json) : res (list (pystr * pystr)) :=
  let* its := items tf in
  res_mapM (fun kv => res_map (fun v => (kv.1, path m v)) (as_str kv.2))
    (base.filter (fun kv => truthy kv.2 = true) its).

Definition resolved_files m (files : json) : res (list (pystr * list (pystr * pystr))) :=
  res_mapM (fun t => let* tf := get_or_empty files t in
                     res_map (fun r => (t, r)) (resolve_files m tf)) ELEMENT_TYPES.

Record tier := {
  t_name : pystr;
  t_rank : Z;
  t_info : json;      (** version, seq_from, seq_to, timestamp and rows are read from it *)
  t_files : list (pystr * list (pystr * pystr));
  t_tombstones : option pystr;
  t_cells : list (pystr * list pystr)
}.

Definition tier_cells (cells : json) : res (list (pystr * list pystr)) :=
  res_mapM (fun t => let* v := get_default cells t (JList []) in
                     let* l := as_list v in
                     res_map (fun cs => (t, cs)) (res_mapM as_str l)) ELEMENT_TYPES.

Definition delta_tier m (deltas : json) (nr : pystr * Z) : res (option tier) :=
  let* tier := get_or_none deltas nr.1 in
  if negb (truthy tier) then Ok None else
  let* files0 := get_default tier (u "files") (JObj []) in
  let files := or_empty files0 in
  let* rf := resolved_files m files in
  let* tomb := get_or_none files (u "tombstones") in
  let* cells := get_or_empty tier (u "cells") in
  let* tombstones := (if truthy tomb then res_map (fun p => Some (path m p)) (as_str tomb)
                      else Ok None) in
  let* cs := tier_cells cells in
  Ok (Some {| t_name := nr.1; t_rank := nr.2; t_info := tier; t_files := rf;
              t_tombstones := tombstones; t_cells := cs |}).

Definition DELTA_RANKS : list (pystr * Z) := [(u "hour", 3); (u "day", 2); (u "week", 1)].

Definition delta_tiers m : res (list tier) :=
  let* v := manifest_version m in
  if v <? 3 then Ok [] else
  let* deltas := get_or_empty (m_data m) (u "deltas") in
  res_map (omap (fun x => x)) (res_mapM (delta_tier m deltas) DELTA_RANKS).

Definition has_deltas m : res bool :=
  res_map (fun l => match l with [] => false | _ => true end) (delta_tiers m).

Definition table_cells m (table : pystr) : res json :=
  if table =s u "area" then
    let* a := get_default (m_data m) (u "areas") (JObj []) in get_default a (u "cells") (JObj [])
  else
    let* ts := get_default (m_data m) (u "tables") (JObj []) in
    let* t := get_default ts table (JObj []) in
    get_default t (u "cells") (JObj []).

Definition area_index m : res json :=
  let* a := get_default (m_data m) (u "areas") (JObj []) in get_or_none a (u "index").
Definition way_area_index m : res json :=
  let* a := get_default (m_data m) (u "areas") (JObj []) in get_or_none a (u "way_index").
Definition has_areas m : res bool :=
  let* a := area_index m in
  if truthy a then Ok true else res_map truthy (way_area_index m).

(** * History *)
Definition history m : res json := get_or_none (m_data m) (u "history").
Definition has_history m : res bool := res_map truthy (history m).
Definition history_field (k : pystr) m : res json :=
  let* h := history m in if truthy h then get_or_none h k else Ok JNull.
Definition history_generation m : res json := history_field (u "generation") m.
Definition history_since m : res json := history_field (u "since") m.

Definition history_spatial_parts m (table : pystr) (cells : list pystr) : res (list json) :=
  let* h := history m in
  if negb (truthy h) then Ok [] else
  let* sp := get_or_empty h (u "spatial") in
  let* by_cell := get_default sp table (JObj []) in
  res_flat_map (fun c => let* v := get_default by_cell c (JList []) in iter v) cells.

Definition history_spatial_files m (table : pystr) (cells : list pystr) : res (list pystr) :=
  let* ps := history_spatial_parts m table cells in
  res_mapM (fun p => let* v := getitem p (u "path") in res_map (path m) (as_str v)) ps.

Definition history_byid_parts m (table : pystr) : res (list json) :=
  let* h := history m in
  if negb (truthy h) then Ok [] else
  let* b := get_or_empty h (u "byid") in
  let* v := get_default b table (JList []) in as_list v.

Definition history_tier m (tiers : json) (name : pystr) :
    res (option (json * pystr * list (pystr * list (pystr * pystr)))) :=
  let* tier := get_or_none tiers name in
  if negb (truthy tier) then Ok None else
  let* files0 := get_default tier (u "files") (JObj []) in
  let* rf := resolved_files m (or_empty files0) in
  Ok (Some (tier, name, rf)).

Definition history_tiers m : res (list (json * pystr * list (pystr * list (pystr * pystr)))) :=
  let* h := history m in
  if negb (truthy h) then Ok [] else
  let* tiers := get_or_empty h (u "tiers") in
  res_map (omap (fun x => x)) (res_mapM (history_tier m tiers) [u "hour"; u "day"; u "week"]).

(** The [spatial] or [byid] file of every tier that has one. *)
Definition history_tier_kind_files (kind : pystr) m (table : pystr) : res (list pystr) :=
  let* ts := history_tiers m in
  Ok (omap (fun t => match dict_get table (snd t) with
                     | Some fs => dict_get kind fs
                     | None => None
                     end) ts).
Definition history_tier_spatial_files := history_tier_kind_files (u "spatial").
Definition history_tier_byid_files := history_tier_kind_files (u "byid").

Definition byid_parts m (table : pystr) : res (list json) :=
  let* b := get_default (m_data m) (u "byid") (JObj []) in
  let* v := get_default b table (JList []) in as_list v.
Definition index_parts m (name : pystr) : res (list json) :=
  let* b := get_default (m_data m) (u "index") (JObj []) in
  let* v := get_default b name (JList []) in as_list v.

(** * Loading: two reads, [LATEST] and then the manifest it names *)
Definition load_manifest `{JsonModule} (read_text : pystr -> res pystr) (root : pystr) : res Manifest :=
  let* latest := read_text (join_root root (u "manifest/LATEST")) in
  let* body := read_text (join_root root (u "manifest/" ++ py_strip latest ++ u ".json")) in
  let* b := utf8_encode body in
  let* data := json_loads b in
  Ok {| m_root := root; m_data := data |}.
End Accessors.
