(* ===== verification/CellSelect.v ===== *)
(** [engine/catalog.py], second half: quadkey geometry as the engine computes
    it, the cells and parts a query reads, and row-group pruning. *)
From S2P Require Import Prelude PyStr PyFloat Json Cells Catalog.

Definition WORLD_BBOX : BBox := (float_of_Z (-90), float_of_Z (-180), float_of_Z 90, float_of_Z 180).

(** [for d in key: ...] with the mutable box [s, w, n, e] *)
Fixpoint cell_bbox_loop (key : pystr) (s w n e : pyfloat) : res BBox :=
  match key with
  | [] => Ok (s, w, n, e)
  | d :: key' =>
      let midlat := fdiv (fadd s n) (float_of_Z 2) in
      let midlon := fdiv (fadd w e) (float_of_Z 2) in
      if d =? 48 then cell_bbox_loop key' midlat w n midlon
      else if d =? 49 then cell_bbox_loop key' midlat midlon n e
      else if d =? 50 then cell_bbox_loop key' s w midlat midlon
      else if d =? 51 then cell_bbox_loop key' s midlon midlat e
      else Raise ValueError
  end.
Definition cell_bbox (key : pystr) : res BBox :=
  let '(s, w, n, e) := WORLD_BBOX in
  if key =s u "root" then Ok (s, w, n, e) else cell_bbox_loop key s w n e.

Definition bbox_intersects (a b : BBox) : bool :=
  let '(a_s, a_w, a_n, a_e) := a in
  let '(b_s, b_w, b_n, b_e) := b in
  fleb a_s b_n && fleb b_s a_n && fleb a_w b_e && fleb b_w a_e.

Definition ancestors_and_self (leaf_key : pystr) : list pystr :=
  if leaf_key =s u "root" then [u "root"]
  else u "root" :: map (fun i => take i leaf_key) (seq 1 (length leaf_key)).

(** [{leaf for leaf in leaf_cells if it meets bbox}] *)
Fixpoint leaves_meeting (leaves : list pystr) (bbox : BBox) : res (list pystr) :=
  match leaves with
  | [] => Ok []
  | leaf :: rest =>
      let* b := cell_bbox leaf in
      let* hits := leaves_meeting rest bbox in
      Ok (if bbox_intersects bbox b then leaf :: hits else hits)
  end.

(** [leaf_key[:depth]], a negative or zero depth being the root *)
Definition _ancestor_at_depth (leaf_key : pystr) (depth : Z) : pystr :=
  if depth <=? 0 then u "root" else take (Z.to_nat depth) leaf_key.

Section Select.
Context `{UnicodeDB}.
Implicit Types m : Manifest.

Definition leaves_intersecting m (bbox : BBox) : res (list pystr) :=
  let* leaves := leaf_cells m in leaves_meeting leaves bbox.

Definition delta_present_cells m (table : pystr) : res (list pystr) :=
  let* tiers := delta_tiers m in
  Ok (flat_map (fun t => default [] (dict_get table (t_cells t))) tiers).

(** The cells a leaf brings in: itself and its allowed ancestors. *)
Definition leaf_cells_at (depths : list Z) (leaf : pystr) : list pystr :=
  leaf :: omap (fun d => if d <=? Z.of_nat (length leaf) then Some (_ancestor_at_depth leaf d) else None)
            (0 :: depths).

Definition wanted_cells (version : Z) (depths : list Z) (table : pystr) (leaves : list pystr) : list pystr :=
  if (2 <=? version) && str_in table [u "way"; u "relation"; u "area"]
  then flat_map (leaf_cells_at depths) leaves
  else flat_map ancestors_and_self leaves.

(** Cells present only by declaration, tested against their own boxes. *)
Fixpoint extra_cells (cells wanted : list pystr) (bbox : BBox) : res (list pystr) :=
  match cells with
  | [] => Ok []
  | c :: rest =>
      let* more := extra_cells rest wanted bbox in
      if str_in c wanted then Ok more
      else let* b := cell_bbox c in
           Ok (if bbox_intersects bbox b then c :: more else more)
  end.

Definition _cells_for_present m (table : pystr) (bbox : option BBox) (present base_keys : list pystr) :
    res (list pystr) :=
  match bbox with
  | None => Ok (sorted_set present)
  | Some bbox =>
      let* leaves := leaves_intersecting m bbox in
      let* version := manifest_version m in
      let* depths := (if (2 <=? version) && str_in table [u "way"; u "relation"; u "area"]
                      then ancestor_depths m else Ok []) in
      let wanted := wanted_cells version depths table leaves in
      let extra_only := base.filter (fun c => negb (str_in c base_keys) = true) present in
      let* extra := extra_cells extra_only wanted bbox in
      Ok (sorted_set (base.filter (fun c => str_in c present = true) (wanted ++ extra)))
  end.

Definition cells_for_bbox m (table : pystr) (bbox : option BBox) : res (list pystr) :=
  let* cells := table_cells m table in
  let* its := items cells in
  let base_present := map fst its in
  let* delta := delta_present_cells m table in
  _cells_for_present m table bbox (base_present ++ delta) base_present.

Definition history_cells_for_bbox m (table : pystr) (bbox : option BBox) : res (list pystr) :=
  let* h := history m in
  if negb (truthy h) then Ok [] else
  let* sp := get_or_empty h (u "spatial") in
  let* t := get_default sp table (JObj []) in
  let* its := items t in
  _cells_for_present m table bbox (map fst its) (map fst its).

(** * Parts by id range *)
(** [j <= n] for an integer [n] *)
Definition le_int (j : json) (n : Z) : res bool :=
  match j with
  | JInt z => Ok (z <=? n)
  | JBool b => Ok ((if b then 1 else 0) <=? n)
  | JFloat f => Ok (fleb f (float_of_Z n))
  | _ => Raise TypeError
  end.
Definition has_field (p : json) (k : pystr) : res bool := contains p k.

(** [all("min_id" in p and "max_id" in p for p in parts)] *)
Fixpoint all_have_range (parts : list json) : res bool :=
  match parts with
  | [] => Ok true
  | p :: rest =>
      let* a := has_field p (u "min_id") in
      if negb a then Ok false else
      let* b := has_field p (u "max_id") in
      if negb b then Ok false else all_have_range rest
  end.

Definition overlaps (lo hi : Z) (p : json) : res bool :=
  let* mx := getitem p (u "max_id") in
  let* a := ge_int mx lo in
  if negb a then Ok false else
  let* mn := getitem p (u "min_id") in le_int mn hi.

Fixpoint filterM {A} (f : A -> res bool) (l : list A) : res (list A) :=
  match l with
  | [] => Ok []
  | x :: l' => let* b := f x in let* r := filterM f l' in Ok (if b then x :: r else r)
  end.

Definition parts_for_range (parts : list json) (lo hi : option Z) : res (list json) :=
  match lo, hi with
  | Some lo, Some hi =>
      let* ranged := all_have_range parts in
      if negb ranged then Ok parts else filterM (overlaps lo hi) parts
  | _, _ => Ok []
  end.

Definition byid_parts_for_range m (table : pystr) (lo hi : option Z) : res (list json) :=
  let* ps := byid_parts m table in parts_for_range ps lo hi.
Definition history_byid_parts_for_range m (table : pystr) (lo hi : option Z) : res (list json) :=
  let* ps := history_byid_parts m table in parts_for_range ps lo hi.
Definition byid_parts_for_ids m (table : pystr) (ids : list Z) : res (list json) :=
  match ids with
  | [] => Ok []
  | i :: rest => byid_parts_for_range m table (Some (min_of i rest)) (Some (max_of i rest))
  end.
Definition all_byid_parts m (table : pystr) : res (list json) := byid_parts m table.
Definition index_parts_for_range m (name : pystr) (lo hi : option Z) : res (list json) :=
  let* ps := index_parts m name in parts_for_range ps lo hi.
Definition index_parts_for_ids m (name : pystr) (ids : list Z) : res (list json) :=
  let* parts := index_parts m name in
  match ids, parts with
  | [], _ => Ok []
  | _, [] => Ok parts
  | i :: rest, _ => index_parts_for_range m name (Some (min_of i rest)) (Some (max_of i rest))
  end.

(** * Row-group pruning *)
Definition RowGroupBBox : Type := Z * Z * Z * Z.   (** xmin, ymin, xmax, ymax *)
(** [RowGroupIndex.by_path] *)
Definition RowGroupIndex : Type := list (pystr * list RowGroupBBox).

(** One row of the index file; a row with a NULL is skipped. *)
Definition rowgroup_row : Type := option pystr * option Z * option Z * option Z * option Z.
Definition add_rowgroup m (idx : RowGroupIndex) (r : rowgroup_row) : RowGroupIndex :=
  match r with
  | (Some relp, Some xmin, Some ymin, Some xmax, Some ymax) =>
      let abspath := path m relp in
      dict_set abspath (default [] (dict_get abspath idx) ++ [(xmin, ymin, xmax, ymax)]) idx
  | _ => idx
  end.
(** [read_rows path]: the rows of the index file, or [None] if DuckDB cannot
    read it (a parameter). *)
Definition _load_rowgroup_index (read_rows : pystr -> option (list rowgroup_row)) m (table : pystr) :
    res (option RowGroupIndex) :=
  let* paths := rowgroup_index_paths m in
  match dict_get table paths with
  | None => Ok None
  | Some relpath =>
      if negb (truthy relpath) then Ok None else
      let* rel := as_str relpath in
      match read_rows (path m rel) with
      | None => Ok None
      | Some rows => Ok (Some (fold_left (add_rowgroup m) rows []))
      end
  end.

(** [Manifest._rowgroup_cache]: each table's index is loaded once. *)
Definition rowgroup_cache : Type := list (pystr * option RowGroupIndex).
Definition _rowgroup_index_for (read_rows : pystr -> option (list rowgroup_row)) m (table : pystr)
    (cache : rowgroup_cache) : res (option RowGroupIndex) * rowgroup_cache :=
  match dict_get table cache with
  | Some idx => (Ok idx, cache)
  | None =>
      match _load_rowgroup_index read_rows m table with
      | Raise e => (Raise e, cache)
      | Ok idx => (Ok idx, dict_set table idx cache)
      end
  end.

Record FileStats := { considered : Z; read_ : Z }.

Definition box_meets (bbox_e7 b : RowGroupBBox) : bool :=
  let '(xmin, ymin, xmax, ymax) := bbox_e7 in
  let '(bx0, bx1, bx2, bx3) := b in
  (bx0 <=? xmax) && (bx1 <=? ymax) && (xmin <=? bx2) && (ymin <=? bx3).

Definition keep_file (idx : RowGroupIndex) (bbox_e7 : RowGroupBBox) (f : pystr) : bool :=
  match dict_get f idx with
  | None | Some [] => true
  | Some boxes => existsb (box_meets bbox_e7) boxes
  end.

Definition prune_files_by_bbox (read_rows : pystr -> option (list rowgroup_row)) m (table : pystr)
    (files : list pystr) (bbox_e7 : RowGroupBBox) (cache : rowgroup_cache) (stats : option FileStats) :
    res (list pystr) * rowgroup_cache * option FileStats :=
  match files with
  | [] => (Ok files, cache, stats)
  | _ =>
      match _rowgroup_index_for read_rows m table cache with
      | (Raise e, c1) => (Raise e, c1, stats)
      | (Ok None, c1) => (Ok files, c1, stats)
      | (Ok (Some idx), c1) =>
          let kept := base.filter (fun f => keep_file idx bbox_e7 f = true) files in
          (Ok kept, c1,
           match stats with
           | None => None
           | Some st => Some {| considered := considered st + Z.of_nat (length files);
                                read_ := read_ st + Z.of_nat (length kept) |}
           end)
      end
  end.
End Select.
