(* ===== verification/CellsFacts.v ===== *)
(** Properties of the quadtree cells: keys and codes, tiling of the code
    space, leaf lookup and the placement rules. *)
From S2P Require Import Prelude PyStr PyFloat PyFloatFacts Numpy Cells.

(** * Keys as digit paths *)
Definition digit4 (c : Z) : Prop := 48 <= c <= 51.
Definition path_of (key : pystr) : pystr := if key =s ROOT then [] else key.
Definition key_of (p : pystr) : pystr := if p is [] then ROOT else p.

(** The keys the builder makes: the root, or at most 20 digits 0-3. *)
Definition valid_key (key : pystr) : Prop :=
  Forall digit4 (path_of key) /\ (length (path_of key) <= MAX_DEPTH)%nat /\ key <> [].

(** Value of a digit path, and the codes its cell covers. *)
Definition path_val (p : pystr) : Z := fold_left (fun v c => v * 4 + (c - 48)) p 0.
Definition width (d : nat) : Z := 4 ^ (Z.of_nat MAX_DEPTH - Z.of_nat d).
Definition in_cell (q : Z) (key : pystr) : Prop :=
  exists lo hi, (forall `{UnicodeDB}, qk_range key = Ok (lo, hi)) /\ lo <= q <= hi.

Lemma path_not_root p : Forall digit4 p -> (p =s ROOT) = false.
Proof.
  intros Hp. destruct Hp as [|c p Hc Hp]; [done|]. unfold digit4 in Hc.
  destruct (str_eqb (c :: p) ROOT) eqn:E; [|done]. apply str_eqb_eq in E. injection E as -> _. lia.
Qed.

Lemma path_of_path p : Forall digit4 p -> path_of p = p.
Proof. intros Hp. unfold path_of. by rewrite path_not_root. Qed.

Lemma path_of_root : path_of ROOT = [].
Proof. done. Qed.

Lemma path_key p : Forall digit4 p -> path_of (key_of p) = p.
Proof. destruct p; [done|]. intros Hp. by apply path_of_path. Qed.

Lemma key_path key : key <> [] -> key_of (path_of key) = key.
Proof.
  intros Hne. unfold path_of. destruct (key =s ROOT) eqn:E.
  - apply str_eqb_eq in E. by subst.
  - by destruct key.
Qed.

Lemma key_of_nonempty p : key_of p <> [].
Proof. by destruct p. Qed.

Lemma valid_key_of p :
  Forall digit4 p -> (length p <= MAX_DEPTH)%nat -> valid_key (key_of p).
Proof. intros Hp Hl. unfold valid_key. rewrite path_key by done. split_and!; [done|done|apply key_of_nonempty]. Qed.

Lemma depth_path key : depth_of key = length (path_of key).
Proof. unfold depth_of, path_of. by destruct (key =s ROOT). Qed.

Lemma path_val_app p q : path_val (p ++ q) = path_val p * 4 ^ Z.of_nat (length q) + path_val q.
Proof.
  unfold path_val. rewrite fold_left_app. generalize (fold_left (fun v c => v * 4 + (c - 48)) p 0).
  induction q as [|c q IH] using rev_ind; intros v; [simpl; lia|].
  rewrite !fold_left_app, length_app. simpl. rewrite IH.
  rewrite Nat2Z.inj_add, Z.pow_add_r by lia. simpl. lia.
Qed.

Lemma path_val_snoc p c : path_val (p ++ [c]) = path_val p * 4 + (c - 48).
Proof. unfold path_val. by rewrite fold_left_app. Qed.

Lemma path_val_bounds p : Forall digit4 p -> 0 <= path_val p < 4 ^ Z.of_nat (length p).
Proof.
  induction p as [|c p IH] using rev_ind; intros Hp; [done|].
  apply Forall_app in Hp as [Hp Hc]. apply Forall_cons in Hc as [Hc _]. unfold digit4 in Hc.
  rewrite path_val_snoc, length_app. simpl. specialize (IH Hp).
  rewrite Nat2Z.inj_add, Z.pow_add_r by lia. simpl. lia.
Qed.

Section Codes.
Context `{UnicodeDB}.

Lemma py_int_digit c : digit4 c -> py_int [c] = Ok (c - 48).
Proof.
  unfold digit4. intros Hc. assert (c = 48 \/ c = 49 \/ c = 50 \/ c = 51) as [-> | [-> | [-> | ->]]] by lia;
    reflexivity.
Qed.

Lemma key_digits_value_path p v :
  Forall digit4 p -> key_digits_value p v = Ok (fold_left (fun v c => v * 4 + (c - 48)) p v).
Proof.
  intros Hp. revert v. induction Hp as [|c p Hc Hp IH]; intros v; [done|].
  cbn [key_digits_value fold_left]. rewrite py_int_digit by done. apply IH.
Qed.

Lemma key_to_value_path key : Forall digit4 (path_of key) -> key_to_value key = Ok (path_val (path_of key)).
Proof.
  unfold key_to_value, path_of. intros Hp. destruct (key =s ROOT); [done|].
  by apply key_digits_value_path.
Qed.

Lemma qk_range_path key :
  valid_key key ->
  qk_range key = Ok (path_val (path_of key) * width (length (path_of key)),
                     (path_val (path_of key) + 1) * width (length (path_of key)) - 1).
Proof.
  intros (Hd & Hl & _). unfold qk_range. rewrite key_to_value_path, depth_path by done. cbn [res_bind].
  destruct (Nat.ltb_spec MAX_DEPTH (length (path_of key))); [lia|]. cbv zeta.
  rewrite !Z.shiftl_mul_pow2 by lia. unfold width. rewrite Z.pow_mul_r by lia.
  change (2 ^ 2) with 4. do 2 f_equal. lia.
Qed.
End Codes.

Lemma width_pos d : (d <= MAX_DEPTH)%nat -> 0 < width d.
Proof. intros. unfold width. apply Z.pow_pos_nonneg; lia. Qed.

Lemma width_S d : (d < MAX_DEPTH)%nat -> width d = 4 * width (S d).
Proof.
  intros. unfold width. rewrite <- Z.pow_succ_r by lia. f_equal. lia.
Qed.

Lemma in_cell_div q key :
  valid_key key -> in_cell q key <-> q / width (length (path_of key)) = path_val (path_of key).
Proof.
  intros Hv. pose proof (width_pos (length (path_of key)) (proj1 (proj2 Hv))) as Hw.
  set (w := width _) in *. set (v := path_val _).
  assert (D : q / w = v <-> v * w <= q <= (v + 1) * w - 1).
  { split; [intros <-|intros ?].
    - pose proof (Z.div_mod q w ltac:(lia)). pose proof (Z.mod_pos_bound q w Hw). nia.
    - symmetry. apply (Z.div_unique q w v (q - v * w)); nia. }
  rewrite D. split.
  - intros (lo & hi & E & Hq). specialize (E latin1_db). rewrite qk_range_path in E by done.
    injection E as <- <-. done.
  - intros Hq. eexists _, _. split; [intros; by apply qk_range_path|done].
Qed.

(** * Digit strings of a code *)
Lemma land3 v : Z.land v 3 = v mod 4.
Proof. change 3 with (Z.ones 2). by rewrite Z.land_ones. Qed.

Lemma value_digits_length d v : length (value_digits d v) = d.
Proof. revert v; induction d as [|d IH]; intros v; simpl; [done|]. rewrite length_app, IH. simpl. lia. Qed.

Lemma value_digits_digit4 d v : Forall digit4 (value_digits d v).
Proof.
  revert v; induction d as [|d IH]; intros v; cbn [value_digits]; [done|].
  apply Forall_app. split; [done|]. repeat constructor; rewrite land3;
    pose proof (Z.mod_pos_bound v 4 ltac:(lia)); lia.
Qed.

Lemma value_digits_val d v : 0 <= v < 4 ^ Z.of_nat d -> path_val (value_digits d v) = v.
Proof.
  revert v; induction d as [|d IH]; intros v Hv; cbn [value_digits].
  - simpl in Hv. unfold path_val. simpl. lia.
  - rewrite path_val_snoc, land3, Z.shiftr_div_pow2 by lia. change (2 ^ 2) with 4.
    rewrite Nat2Z.inj_succ, Z.pow_succ_r in Hv by lia.
    rewrite IH by (split; [apply Z.div_pos; lia|apply Z.div_lt_upper_bound; lia]).
    pose proof (Z.div_mod v 4 ltac:(lia)). lia.
Qed.

Lemma value_digits_path p : Forall digit4 p -> value_digits (length p) (path_val p) = p.
Proof.
  induction p as [|c p IH] using rev_ind; intros Hp; [done|].
  apply Forall_app in Hp as [Hp Hc]. apply Forall_cons in Hc as [Hc _]. unfold digit4 in Hc.
  rewrite length_app, Nat.add_1_r. cbn [value_digits]. rewrite path_val_snoc.
  rewrite Z.shiftr_div_pow2, land3 by lia. change (2 ^ 2) with 4.
  rewrite (Z.add_comm (_ * 4)), Z.div_add, Z.mod_add by lia.
  rewrite Z.div_small, Z.mod_small by lia. rewrite Z.add_0_l, IH by done. f_equal. f_equal. lia.
Qed.

Lemma value_digits_prefix d k v :
  (k <= d)%nat -> firstn k (value_digits d v) = value_digits k (v / 4 ^ (Z.of_nat d - Z.of_nat k)).
Proof.
  revert v; induction d as [|d IH]; intros v Hk.
  - by replace k with 0%nat by lia.
  - destruct (decide (k = S d)) as [->|].
    + rewrite Z.sub_diag. change (4 ^ 0) with 1. rewrite Z.div_1_r.
      apply firstn_all2. by rewrite value_digits_length.
    + cbn [value_digits]. rewrite firstn_app, value_digits_length.
      replace (k - d)%nat with 0%nat by lia. rewrite take_0, app_nil_r, IH by lia.
      rewrite Z.shiftr_div_pow2 by lia. change (2 ^ 2) with (4 ^ 1).
      rewrite Z.div_div by (try apply Z.pow_nonzero; try apply Z.pow_pos_nonneg; lia).
      rewrite <- Z.pow_add_r by lia. do 3 f_equal. lia.
Qed.

(** A code's path, and membership in a cell as a prefix of that path. *)
Definition code_path (q : Z) : pystr := value_digits MAX_DEPTH q.

Lemma in_cell_prefix q key :
  valid_key key -> 0 <= q < 4 ^ 20 ->
  in_cell q key <-> firstn (length (path_of key)) (code_path q) = path_of key.
Proof.
  intros Hv Hq. rewrite in_cell_div by done. destruct Hv as (Hd & Hl & _).
  unfold code_path. rewrite value_digits_prefix by done. unfold width.
  set (p := path_of key) in *. split.
  - intros ->. by apply value_digits_path.
  - intros E. rewrite <- E at 2. symmetry. apply value_digits_val.
    assert (0 < 4 ^ (Z.of_nat MAX_DEPTH - Z.of_nat (length p))) by (apply Z.pow_pos_nonneg; lia).
    split; [apply Z.div_pos; lia|]. apply Z.div_lt_upper_bound; [done|].
    rewrite <- Z.pow_add_r by lia.
    replace (Z.of_nat MAX_DEPTH - _ + _) with 20 by (unfold MAX_DEPTH; lia). lia.
Qed.

Lemma in_cell_bound q key : valid_key key -> in_cell q key -> 0 <= q < 4 ^ 20.
Proof.
  intros Hv (lo & hi & E & Hq). specialize (E latin1_db). rewrite qk_range_path in E by done.
  injection E as <- <-. destruct Hv as (Hd & Hl & _).
  pose proof (path_val_bounds _ Hd) as Hb. pose proof (width_pos _ Hl) as Hw.
  assert (Hs : width (length (path_of key)) * 4 ^ Z.of_nat (length (path_of key)) = 4 ^ 20).
  { unfold width. rewrite <- Z.pow_add_r by lia. f_equal. unfold MAX_DEPTH. lia. }
  nia.
Qed.

Lemma in_cell_dec q key : valid_key key -> Decision (in_cell q key).
Proof.
  intros Hv. destruct (decide (q / width (length (path_of key)) = path_val (path_of key)));
    [left|right]; by rewrite in_cell_div.
Defined.

Lemma in_cell_lo key : valid_key key -> in_cell (path_val (path_of key) * width (length (path_of key))) key.
Proof.
  intros Hv. pose proof (width_pos _ (proj1 (proj2 Hv))).
  rewrite in_cell_div by done. apply Z.div_mul. lia.
Qed.

(** * Parents and ancestors *)
Lemma parent_path p :
  Forall digit4 p -> parent (key_of p) = match p with [] => None | _ => Some (key_of (removelast p)) end.
Proof.
  intros Hp. destruct p as [|c p]; [done|]. cbn [key_of]. unfold parent.
  rewrite path_not_root by done. destruct p as [|d p]; [done|]. done.
Qed.

Lemma removelast_firstn_len {A} (l : list A) : removelast l = firstn (length l - 1) l.
Proof.
  induction l as [|x l _] using rev_ind; [done|].
  rewrite removelast_last, length_app. simpl. rewrite Nat.add_sub.
  by rewrite take_app_length.
Qed.

Lemma ancestors_loop_path fuel p :
  Forall digit4 p -> (length p <= fuel)%nat ->
  ancestors_loop fuel (parent (key_of p)) =
    Ok (map (fun n => key_of (firstn n p)) (rev (seq 0 (length p)))).
Proof.
  revert p; induction fuel as [|f IH]; intros p Hp Hl.
  - destruct p; [done|simpl in Hl; lia].
  - rewrite parent_path by done. destruct p as [|c p _] using rev_ind; [done|].
    rewrite length_app, Nat.add_1_r, seq_S, rev_app_distr. cbn [rev app map].
    assert (E : removelast (p ++ [c]) = p) by apply removelast_last.
    assert (Hm : match p ++ [c] with [] => None | _ :: _ => Some (key_of (removelast (p ++ [c]))) end
                 = Some (key_of p)) by (rewrite E; by destruct p).
    rewrite Hm. cbn [ancestors_loop]. apply Forall_app in Hp as [Hp _].
    rewrite IH by (rewrite ?length_app in Hl; simpl in Hl; done || lia).
    cbn [res_map]. rewrite Nat.add_0_l, take_app_length. do 2 f_equal.
    apply map_ext_in. intros n Hn. apply in_rev, in_seq in Hn. f_equal.
    by rewrite take_app_le by lia.
Qed.

Lemma ancestors_path key :
  valid_key key ->
  ancestors key = Ok (map (fun n => key_of (firstn n (path_of key))) (rev (seq 0 (length (path_of key))))).
Proof.
  intros (Hd & _ & Hne). unfold ancestors.
  assert (Hlen : (length (path_of key) <= S (length key))%nat).
  { unfold path_of. destruct (key =s ROOT); simpl; lia. }
  rewrite <- (key_path key Hne) at 2. by apply ancestors_loop_path.
Qed.

Definition is_ancestor (a key : pystr) : Prop := exists l, ancestors key = Ok l /\ a ∈ l.

Lemma is_ancestor_prefix a key :
  valid_key key ->
  is_ancestor a key <-> exists n, (n < length (path_of key))%nat /\ a = key_of (firstn n (path_of key)).
Proof.
  intros Hv. unfold is_ancestor. rewrite ancestors_path by done. split.
  - intros (l & [= <-] & Ha). apply elem_of_map in Ha as (n & -> & Hn).
    apply list_elem_of_In, in_rev, in_seq in Hn. exists n. split; [lia|done].
  - intros (n & Hn & ->). eexists. split; [done|]. apply elem_of_map. exists n. split; [done|].
    apply list_elem_of_In. rewrite <- in_rev. apply in_seq. lia.
Qed.

Lemma ancestor_valid a key : valid_key key -> is_ancestor a key -> valid_key a.
Proof.
  intros Hv (n & Hn & ->)%is_ancestor_prefix; [|done]. destruct Hv as (Hd & Hl & _).
  apply valid_key_of; [by apply Forall_take|]. rewrite length_firstn. lia.
Qed.

Lemma ancestor_path a key :
  valid_key key -> is_ancestor a key ->
  (length (path_of a) < length (path_of key))%nat /\
  path_of a = firstn (length (path_of a)) (path_of key).
Proof.
  intros Hv (n & Hn & ->)%is_ancestor_prefix; [|done]. destruct Hv as (Hd & Hl & _).
  rewrite path_key by (by apply Forall_take). rewrite length_firstn.
  replace (n `min` length (path_of key))%nat with n by lia. split; [lia|done].
Qed.

Lemma prefix_ancestor a key :
  valid_key a -> valid_key key -> (length (path_of a) <= length (path_of key))%nat ->
  path_of a = firstn (length (path_of a)) (path_of key) -> a = key \/ is_ancestor a key.
Proof.
  intros Ha Hk Hl E. destruct (decide (length (path_of a) = length (path_of key))) as [El|].
  - left. rewrite El, firstn_all in E.
    rewrite <- (key_path a), <- (key_path key); [by rewrite E|apply Hk|apply Ha].
  - right. apply is_ancestor_prefix; [done|]. exists (length (path_of a)). split; [lia|].
    rewrite <- E. symmetry. apply key_path, Ha.
Qed.

(** The ranges of two cells meet exactly when one cell is the other or its
    ancestor. *)
Lemma cells_meet k1 k2 q :
  valid_key k1 -> valid_key k2 -> in_cell q k1 -> in_cell q k2 ->
  k1 = k2 \/ is_ancestor k1 k2 \/ is_ancestor k2 k1.
Proof.
  intros H1 H2 I1 I2. pose proof (in_cell_bound _ _ H1 I1) as Hq.
  rewrite in_cell_prefix in I1, I2 by done.
  destruct (Nat.le_ge_cases (length (path_of k1)) (length (path_of k2))) as [Hl|Hl].
  - destruct (prefix_ancestor k1 k2) as [->|]; auto.
    rewrite <- I2, take_take. rewrite <- I1 at 1. f_equal. lia.
  - destruct (prefix_ancestor k2 k1) as [->|]; auto.
    rewrite <- I1, take_take. rewrite <- I2 at 1. f_equal. lia.
Qed.

Lemma ancestor_contains a key q :
  valid_key key -> is_ancestor a key -> in_cell q key -> in_cell q a.
Proof.
  intros Hv Ha Hq. pose proof (in_cell_bound _ _ Hv Hq) as Hb.
  pose proof (ancestor_valid _ _ Hv Ha). destruct (ancestor_path _ _ Hv Ha) as [Hl E].
  rewrite in_cell_prefix in * by done. rewrite <- Hq, take_take in E.
  rewrite E at 2. f_equal. lia.
Qed.

Lemma ancestor_trans a b c :
  valid_key c -> is_ancestor a b -> is_ancestor b c -> is_ancestor a c.
Proof.
  intros Hc Hab Hbc. pose proof (ancestor_valid _ _ Hc Hbc) as Hb.
  destruct (ancestor_path _ _ Hc Hbc) as [Hl E].
  apply is_ancestor_prefix in Hab as (n & Hn & ->); [|done].
  apply is_ancestor_prefix; [done|]. exists n. split; [lia|].
  rewrite E, take_take. do 2 f_equal. lia.
Qed.

(** A child's parent is its ancestor. *)
Lemma parent_ancestor key c : valid_key c -> parent c = Some key -> is_ancestor key c.
Proof.
  intros (Hcd & Hcl & Hcn) Hp. apply is_ancestor_prefix; [done|].
  rewrite <- (key_path c Hcn), parent_path in Hp by done.
  destruct (path_of c) as [|d p] eqn:Ep; [done|].
  exists (length (path_of c) - 1)%nat. rewrite Ep. split; [simpl; lia|].
  assert (E : key = key_of (removelast (d :: p))) by congruence.
  by rewrite E, removelast_firstn_len.
Qed.

Lemma ancestor_irrefl key : valid_key key -> ~ is_ancestor key key.
Proof. intros Hv Ha. destruct (ancestor_path _ _ Hv Ha). lia. Qed.

(** * The leaf index *)
Definition cell_lo (key : pystr) : Z := path_val (path_of key) * width (length (path_of key)).
Definition cell_hi (key : pystr) : Z := (path_val (path_of key) + 1) * width (length (path_of key)) - 1.

Lemma in_cell_range q key : valid_key key -> in_cell q key <-> cell_lo key <= q <= cell_hi key.
Proof.
  intros Hv. unfold cell_lo, cell_hi. split.
  - intros (lo & hi & E & Hq). specialize (E latin1_db). rewrite qk_range_path in E by done.
    by injection E as <- <-.
  - intros Hq. eexists _, _. split; [intros; by apply qk_range_path|done].
Qed.

(** The leaf sets the builder makes: valid keys, none above another. *)
Definition leaf_set (keys : list pystr) : Prop :=
  Forall valid_key keys /\ forall k1 k2, k1 ∈ keys -> k2 ∈ keys -> ~ is_ancestor k1 k2.

Lemma leaf_set_meet keys k1 k2 q :
  leaf_set keys -> k1 ∈ keys -> k2 ∈ keys -> in_cell q k1 -> in_cell q k2 -> k1 = k2.
Proof.
  intros [Hv Ha] H1 H2 I1 I2. rewrite Forall_forall in Hv.
  destruct (cells_meet k1 k2 q) as [|[H|H]]; auto; exfalso; by eapply Ha in H.
Qed.

Lemma np_index_lookup {A} (l : list A) i x :
  l !! i = Some x -> np_index l (Z.of_nat i) = Ok x.
Proof.
  intros E. unfold np_index. destruct (Z.ltb_spec (Z.of_nat i) 0); [lia|].
  destruct (Z.ltb_spec (Z.of_nat i) 0); [lia|]. by rewrite Nat2Z.id, E.
Qed.

Lemma map_lookup {A B} (f : A -> B) l i : map f l !! i = f <$> l !! i.
Proof. apply list_lookup_fmap. Qed.

Section LeafLookup.
Context `{UnicodeDB} `{NumpyLaws}.
Variable keys : list pystr.
Hypothesis Hkeys : leaf_set keys.
Hypothesis Hne : keys <> [].

Definition key_entry (k : pystr) : Z * Z * pystr := (cell_lo k, cell_hi k, k).
Definition entries : list (Z * Z * pystr) := merge_sort range_le (map key_entry (sorted_set keys)).
Definition built : LeafIndex :=
  mkLeafIndex (sorted_set keys) (map (fun r => fst (fst r)) entries)
    (map (fun r => snd (fst r)) entries) (map snd entries).

Lemma key_ranges ls : Forall valid_key ls -> res_mapM key_range ls = Ok (map key_entry ls).
Proof.
  intros Hl. induction Hl as [|k ls Hk Hl IH]; [done|]. cbn [res_mapM].
  unfold key_range at 1. rewrite qk_range_path by done. cbn [res_map res_bind]. rewrite IH. done.
Qed.

Lemma init_built : LeafIndex_init keys = Ok built.
Proof.
  unfold LeafIndex_init. rewrite key_ranges; [done|].
  apply Forall_forall. intros k Hk. rewrite elem_of_sorted_set in Hk.
  destruct Hkeys as [Hv _]. by eapply Forall_forall in Hv.
Qed.

Lemma entries_elem e : e ∈ entries <-> exists k, k ∈ keys /\ e = key_entry k.
Proof.
  unfold entries. rewrite merge_sort_Permutation, elem_of_map.
  setoid_rewrite elem_of_sorted_set. naive_solver.
Qed.

Lemma entries_sorted : StronglySorted Z.le (map (fun r => fst (fst r)) entries).
Proof.
  assert (Hs : StronglySorted range_le entries).
  { apply Sorted_StronglySorted; [intros a b c; unfold range_le; lia|].
    apply Sorted_merge_sort. intros a b. unfold range_le. lia. }
  induction Hs as [|e es Hs IH He]; simpl; constructor; [done|].
  apply Forall_forall. intros z (x & -> & Hx)%elem_of_map. by eapply Forall_forall in He.
Qed.

Lemma entries_nonempty : (0 < length entries)%nat.
Proof.
  destruct keys as [|k ks] eqn:Ek; [done|].
  assert (Hin : key_entry k ∈ entries).
  { apply entries_elem. exists k. rewrite Ek. split; [apply elem_of_cons; by left|done]. }
  destruct entries; [by apply elem_of_nil in Hin|simpl; lia].
Qed.

(** The entry the binary search lands on. *)
Lemma search_entry q :
  exists i k, leaf_index_for_qk built q = Z.of_nat i /\ entries !! i = Some (key_entry k) /\
    k ∈ keys /\ ((exists k', k' ∈ keys /\ cell_lo k' <= q) -> cell_lo k <= q) /\
    (forall k', k' ∈ keys -> cell_lo k' <= q -> cell_lo k' <= cell_lo k).
Proof.
  pose proof entries_sorted as Hs. set (lows := map _ entries) in *.
  assert (Hll : length lows = length entries) by apply length_map.
  destruct (searchsorted_right_spec lows q Hs) as (Hle & Hgt & Hn).
  set (n := searchsorted_right lows q) in *. pose proof entries_nonempty as Hpos.
  assert (Hi : leaf_index_for_qk built q = Z.of_nat (n - 1)).
  { unfold leaf_index_for_qk, np_clip. cbn [los built]. fold lows n. lia. }
  destruct (lookup_lt_is_Some_2 entries (n - 1)) as [e Ee]; [lia|].
  assert (Hin : e ∈ entries) by (by eapply list_elem_of_lookup_2).
  apply entries_elem in Hin as (k & Hk & ->).
  (* entries at positions at most n-1 are the ones with low bound <= q *)
  assert (Hpos1 : forall j k', entries !! j = Some (key_entry k') -> cell_lo k' <= q -> (j < n)%nat).
  { intros j k' Ej Hlo. destruct (Nat.lt_ge_cases j n) as [|Hge]; [done|]. exfalso.
    assert (Ej' : skipn n lows !! (j - n)%nat = Some (cell_lo k')).
    { rewrite lookup_drop. replace (n + (j - n))%nat with j by lia.
      unfold lows. by rewrite map_lookup, Ej. }
    eapply Forall_lookup in Hgt; [|exact Ej']. simpl in Hgt. lia. }
  exists (n - 1)%nat, k. split_and!; [done|done|done| |].
  - intros (k' & Hk' & Hlo).
    assert (key_entry k' ∈ entries) as Hin by (apply entries_elem; eauto).
    apply list_elem_of_lookup in Hin as [j Ej]. pose proof (Hpos1 _ _ Ej Hlo).
    assert (E' : firstn n lows !! (n - 1)%nat = Some (cell_lo k)).
    { rewrite lookup_take_lt by lia. unfold lows. by rewrite map_lookup, Ee. }
    eapply Forall_lookup in Hle; [|exact E']. done.
  - intros k' Hk' Hlo.
    assert (key_entry k' ∈ entries) as Hin by (apply entries_elem; eauto).
    apply list_elem_of_lookup in Hin as [j Ej]. pose proof (Hpos1 _ _ Ej Hlo).
    destruct (decide (j = (n - 1)%nat)) as [->|]; [rewrite Ej in Ee; injection Ee as E; lia|].
    assert (L1 : lows !! j = Some (cell_lo k')) by (unfold lows; by rewrite map_lookup, Ej).
    assert (L2 : lows !! (n - 1)%nat = Some (cell_lo k)) by (unfold lows; by rewrite map_lookup, Ee).
    eapply (StronglySorted_app_1_elem_of Z.le (firstn (S j) lows) (skipn (S j) lows));
      [by rewrite take_drop| |].
    + apply list_elem_of_lookup. exists j. rewrite lookup_take_lt by lia. done.
    + apply list_elem_of_lookup. exists (n - 1 - S j)%nat. rewrite lookup_drop.
      by replace (S j + (n - 1 - S j))%nat with (n - 1)%nat by lia.
Qed.

Lemma leaf_lookup q :
  exists key, leaf_for_qk built q = Ok key /\ key ∈ keys /\
    contains_qk built (leaf_index_for_qk built q) q = Ok (q <=? cell_hi key) /\
    ((exists k', k' ∈ keys /\ cell_lo k' <= q) -> cell_lo key <= q) /\
    (forall k, k ∈ keys -> in_cell q k -> k = key).
Proof.
  destruct (search_entry q) as (i & k & Hi & Ee & Hk & Hlo & Hmax).
  exists k. split_and!; [|done| |done|].
  - unfold leaf_for_qk. rewrite Hi. cbn [keys_by_lo built]. apply np_index_lookup.
    by rewrite map_lookup, Ee.
  - unfold contains_qk. rewrite Hi. cbn [his built].
    by rewrite (np_index_lookup _ _ (cell_hi k)) by (by rewrite map_lookup, Ee).
  - intros k' Hk' Hin. destruct Hkeys as [Hv _]. rewrite Forall_forall in Hv.
    pose proof (proj1 (in_cell_range _ _ (Hv _ Hk')) Hin) as Hr.
    eapply (leaf_set_meet keys k' k (cell_lo k)); [done|done|done| |by apply in_cell_lo, Hv].
    apply in_cell_range; [by apply Hv|].
    specialize (Hmax k' Hk' ltac:(lia)). specialize (Hlo ltac:(exists k'; split; [done|lia])). lia.
Qed.
End LeafLookup.

(** * Codes of grid points *)
Lemma lor_shift2 a b : 0 <= b < 4 -> Z.lor (Z.shiftl a 2) b = a * 4 + b.
Proof.
  intros Hb. rewrite <- Z.add_lor_land.
  - rewrite Z.shiftl_mul_pow2 by lia. change (2 ^ 2) with 4.
    assert (Z.land (a * 4) b = 0) as ->; [|lia].
    apply Z.bits_inj'. intros n Hn. rewrite Z.land_spec, Z.bits_0.
    change 4 with (2 ^ 2). rewrite <- Z.shiftl_mul_pow2, Z.shiftl_spec by lia.
    destruct (Z.ltb_spec n 2).
    + by rewrite (Z.testbit_neg_r a) by lia.
    + rewrite (Z.bits_above_log2 b), andb_false_r; [done|lia|].
      destruct (decide (b = 0)) as [->|]; [simpl; lia|].
      apply Z.log2_lt_pow2; [lia|]. apply Z.lt_le_trans with (2 ^ 2); [lia|].
      apply Z.pow_le_mono_r; lia.
Qed.

Lemma land1 x : Z.land x 1 = x mod 2.
Proof. change 1 with (Z.ones 1). by rewrite Z.land_ones. Qed.

Lemma qk_digit_eq x iy i :
  0 <= i -> qk_digit x iy i = 2 * (iy / 2 ^ i mod 2) + x / 2 ^ i mod 2.
Proof.
  intros Hi. unfold qk_digit. rewrite !land1, !Z.shiftr_div_pow2 by done.
  pose proof (Z.mod_pos_bound (x / 2 ^ i) 2 ltac:(lia)).
  pose proof (Z.mod_pos_bound (iy / 2 ^ i) 2 ltac:(lia)).
  assert (x / 2 ^ i mod 2 = 0 \/ x / 2 ^ i mod 2 = 1) as [-> | ->] by lia;
    assert (iy / 2 ^ i mod 2 = 0 \/ iy / 2 ^ i mod 2 = 1) as [-> | ->] by lia; done.
Qed.

Lemma qk_digit_bound x iy i : 0 <= i -> 0 <= qk_digit x iy i < 4.
Proof.
  intros Hi. rewrite qk_digit_eq by done.
  pose proof (Z.mod_pos_bound (x / 2 ^ i) 2 ltac:(lia)).
  pose proof (Z.mod_pos_bound (iy / 2 ^ i) 2 ltac:(lia)). lia.
Qed.

Lemma bit_range_nonneg : Forall (fun i => 0 <= i) bit_range.
Proof. unfold bit_range. repeat constructor; lia. Qed.

Lemma fold_code x iy l v :
  Forall (fun i => 0 <= i) l ->
  fold_left (fun code i => Z.lor (Z.shiftl code 2) (qk_digit x iy i)) l v =
  fold_left (fun v c => v * 4 + (c - 48)) (map (fun i => 48 + qk_digit x iy i) l) v.
Proof.
  intros Hl. revert v. induction Hl as [|i l Hi Hl IH]; intros v; [done|].
  cbn [map fold_left]. rewrite lor_shift2 by (by apply qk_digit_bound). rewrite IH. f_equal. lia.
Qed.

Lemma inv_y y : 0 <= y < side -> Z.lxor (side - 1) y = side - 1 - y.
Proof.
  intros Hy. change (side - 1) with (Z.ones 20). rewrite <- (Z.add_simpl_r (Z.lxor _ y) y).
  assert (E : Z.lxor (Z.ones 20) y + y = Z.ones 20); [|lia].
  rewrite Z.add_nocarry_lxor.
  - by rewrite Z.lxor_assoc, Z.lxor_nilpotent, Z.lxor_0_r.
  - apply Z.bits_inj'. intros n Hn. rewrite Z.land_spec, Z.lxor_spec, Z.bits_0.
    destruct (Z.ltb_spec n 20).
    + rewrite Z.ones_spec_low by lia. by destruct (Z.testbit y n).
    + assert (Z.testbit y n = false) as ->; [|by rewrite andb_false_r].
      destruct (decide (y = 0)) as [->|]; [apply Z.bits_0|].
      apply Z.bits_above_log2; [lia|]. apply Z.lt_le_trans with 20; [|done].
      apply Z.log2_lt_pow2; [lia|]. by destruct Hy.
Qed.

Lemma path_code p :
  Forall digit4 p -> length p = MAX_DEPTH ->
  code_path (path_val p) = p /\ 0 <= path_val p < 4 ^ Z.of_nat MAX_DEPTH.
Proof.
  intros Hp Hl. unfold code_path. rewrite <- Hl. split; [by apply value_digits_path|].
  by apply path_val_bounds.
Qed.

Definition code_digits (x iy : Z) : pystr := map (fun i => 48 + qk_digit x iy i) bit_range.

Lemma code_digits_path x iy : Forall digit4 (code_digits x iy) /\ length (code_digits x iy) = MAX_DEPTH.
Proof.
  split; [|unfold code_digits; by rewrite length_map].
  apply Forall_forall. intros c (i & -> & Hi)%elem_of_map.
  pose proof (proj1 (Forall_forall _ _) bit_range_nonneg i Hi) as Hi0.
  pose proof (qk_digit_bound x iy i Hi0). unfold digit4. lia.
Qed.

Lemma qk_code_val x y : qk_code x y = path_val (code_digits x (Z.lxor (side - 1) y)).
Proof. unfold qk_code, path_val, code_digits. cbv zeta. apply fold_code, bit_range_nonneg. Qed.

Lemma qk_code_path x y :
  code_path (qk_code x y) = code_digits x (Z.lxor (side - 1) y) /\
  0 <= qk_code x y < 4 ^ Z.of_nat MAX_DEPTH.
Proof.
  rewrite qk_code_val. destruct (code_digits_path x (Z.lxor (side - 1) y)). by apply path_code.
Qed.

(** The column (from the west) and row (from the north) of a cell among the
    [2^d] by [2^d] cells of its depth. *)
Definition cell_column (p : pystr) : Z := fold_left (fun v c => 2 * v + (c - 48) mod 2) p 0.
Definition cell_row (p : pystr) : Z := fold_left (fun v c => 2 * v + (c - 48) / 2) p 0.

Lemma bit_range_firstn k :
  (k < MAX_DEPTH)%nat ->
  firstn (S k) bit_range = firstn k bit_range ++ [Z.of_nat MAX_DEPTH - 1 - Z.of_nat k].
Proof. intros Hk. do 20 (destruct k as [|k]; [done|]). unfold MAX_DEPTH in Hk. lia. Qed.

Lemma div_pow_step x m : 0 <= m -> x / 2 ^ m = 2 * (x / 2 ^ (m + 1)) + x / 2 ^ m mod 2.
Proof.
  intros Hm. rewrite Z.pow_add_r, <- Z.div_div by (try apply Z.pow_nonzero; lia).
  change (2 ^ 1) with 2. apply Z.div_mod. lia.
Qed.

Lemma path_digits_grid x iy k p :
  (k <= MAX_DEPTH)%nat -> Forall digit4 p -> length p = k -> 0 <= x < side -> 0 <= iy < side ->
  map (fun i => 48 + qk_digit x iy i) (firstn k bit_range) = p <->
  x / 2 ^ (Z.of_nat MAX_DEPTH - Z.of_nat k) = cell_column p /\
  iy / 2 ^ (Z.of_nat MAX_DEPTH - Z.of_nat k) = cell_row p.
Proof.
  intros Hk Hp Hl Hx Hy. revert p Hp Hl. induction k as [|k IH]; intros p Hp Hl.
  - destruct p; [|done]. rewrite take_0. cbn [map cell_column cell_row fold_left].
    rewrite Z.sub_0_r. change (2 ^ Z.of_nat MAX_DEPTH) with side.
    rewrite !Z.div_small by done. done.
  - destruct p as [|c p _] using rev_ind; [done|].
    rewrite length_app in Hl. simpl in Hl. assert (Hlp : length p = k) by lia.
    apply Forall_app in Hp as [Hp Hc]. apply Forall_cons in Hc as [Hc _]. unfold digit4 in Hc.
    rewrite bit_range_firstn, map_app by lia. cbn [map].
    set (m := Z.of_nat MAX_DEPTH - 1 - Z.of_nat k).
    assert (Hm : 0 <= m) by (unfold m; lia).
    replace (Z.of_nat MAX_DEPTH - Z.of_nat (S k)) with m by (unfold m; lia).
    specialize (IH ltac:(lia) p Hp Hlp).
    replace (Z.of_nat MAX_DEPTH - Z.of_nat k) with (m + 1) in IH by (unfold m; lia).
    unfold cell_column, cell_row in *. rewrite !fold_left_app. cbn [fold_left].
    set (X := fold_left _ p 0) in *. set (Y := fold_left (fun v c => 2 * v + (c - 48) / 2) p 0) in *.
    rewrite (div_pow_step x m), (div_pow_step iy m) by done.
    pose proof (Z.mod_pos_bound (x / 2 ^ m) 2 ltac:(lia)).
    pose proof (Z.mod_pos_bound (iy / 2 ^ m) 2 ltac:(lia)).
    pose proof (Z.div_mod (c - 48) 2 ltac:(lia)).
    pose proof (Z.mod_pos_bound (c - 48) 2 ltac:(lia)).
    pose proof (qk_digit_eq x iy m Hm).
    split.
    + intros [E1 E2]%app_inj_2; [|done]. apply IH in E1 as [-> ->]. injection E2 as E2. lia.
    + intros [E1 E2]. assert (x / 2 ^ (m + 1) = X /\ iy / 2 ^ (m + 1) = Y) as [EX EY] by lia.
      f_equal; [by apply IH|]. f_equal. lia.
Qed.

(** * The placement rule *)
Lemma code_path_lookup q i :
  (i < MAX_DEPTH)%nat -> code_path q !! i = Some (48 + code_digit q i).
Proof.
  intros Hi. assert (E : firstn (S i) (code_path q) = value_digits (S i) (q / width (S i))).
  { unfold code_path. rewrite value_digits_prefix by lia. done. }
  rewrite <- (lookup_take_lt _ (S i)) by lia. rewrite E. cbn [value_digits].
  set (a := value_digits i _). assert (Ha : length a = i) by apply value_digits_length.
  rewrite lookup_app_r by lia. rewrite Ha, Nat.sub_diag. cbn. do 2 f_equal.
  unfold code_digit. rewrite !land3, Z.shiftr_div_pow2 by (unfold MAX_DEPTH in *; lia).
  rewrite Z.pow_mul_r by (unfold MAX_DEPTH in *; lia). change (2 ^ 2) with 4.
  unfold width. do 3 f_equal. lia.
Qed.

Lemma firstn_snoc {A} (l : list A) n x : l !! n = Some x -> firstn (S n) l = firstn n l ++ [x].
Proof. apply take_S_r. Qed.

Lemma acc_path q n :
  (n <= MAX_DEPTH)%nat -> map (fun i => 48 + code_digit q i) (seq 0 n) = firstn n (code_path q).
Proof.
  induction n as [|n IH]; intros Hn; [by rewrite take_0|].
  rewrite seq_S, map_app, IH by lia. cbn [map]. rewrite Nat.add_0_l.
  symmetry. apply firstn_snoc, code_path_lookup. lia.
Qed.

Lemma lcp_loop sw ne md n :
  (n <= md <= MAX_DEPTH)%nat ->
  let '(l, still) := fold_left (fun (st : nat * bool) i =>
         let '(lcp, still) := st in
         let mismatch := still && negb (code_digit sw i =? code_digit ne i) in
         (if mismatch then i else lcp, still && negb mismatch)) (seq 0 n) (md, true) in
  if still then l = md /\ firstn n (code_path sw) = firstn n (code_path ne)
  else (l < n)%nat /\ firstn l (code_path sw) = firstn l (code_path ne) /\
       code_digit sw l <> code_digit ne l.
Proof.
  induction n as [|n IH]; intros Hn; [by rewrite !take_0|].
  rewrite seq_S, fold_left_app. specialize (IH ltac:(lia)).
  destruct (fold_left _ (seq 0 n) _) as [l still]. cbn [fold_left]. rewrite Nat.add_0_l.
  destruct still; cbn [andb].
  - destruct IH as [-> E]. destruct (Z.eqb_spec (code_digit sw n) (code_digit ne n)) as [Ed|Ed]; cbn [negb andb].
    + split; [done|]. rewrite (firstn_snoc _ n _ (code_path_lookup sw n ltac:(lia))).
      rewrite (firstn_snoc _ n _ (code_path_lookup ne n ltac:(lia))). by rewrite E, Ed.
    + split_and!; [lia|done|done].
  - split_and!; [lia|tauto|tauto].
Qed.

Lemma lcp_depth_spec sw ne md :
  (md <= MAX_DEPTH)%nat ->
  (lcp_depth sw ne md <= md)%nat /\
  firstn (lcp_depth sw ne md) (code_path sw) = firstn (lcp_depth sw ne md) (code_path ne) /\
  forall d, (d <= md)%nat -> firstn d (code_path sw) = firstn d (code_path ne) ->
    (d <= lcp_depth sw ne md)%nat.
Proof.
  intros Hmd. pose proof (lcp_loop sw ne md md ltac:(lia)) as L. unfold lcp_depth.
  destruct (fold_left _ _ _) as [l still]. cbn [fst]. destruct still.
  - destruct L as [-> E]. split_and!; [lia|done|lia].
  - destruct L as (Hl & E & Hd). split_and!; [lia|done|]. intros d Hdm Ed.
    destruct (Nat.le_gt_cases d l) as [|Hlt]; [done|]. exfalso. apply Hd.
    assert (Em : code_path sw !! l = code_path ne !! l).
    { rewrite <- (lookup_take_lt (code_path sw) d l), Ed by lia. by rewrite lookup_take_lt by lia. }
    rewrite !code_path_lookup in Em by lia. injection Em. lia.
Qed.

Section Placement.
Context `{UnicodeDB} `{NumpyLaws}.

(** Rounding a depth down to an allowed one. *)
Definition round_depth (ad : list nat) (t : nat) : res Z :=
  let ad_sorted := map Z.of_nat (merge_sort le (remove_dups ad)) in
  np_index ad_sorted (np_clip (Z.of_nat (searchsorted_right ad_sorted (Z.of_nat t)) - 1) 0
    (Z.of_nat (length ad_sorted) - 1)).

Lemma round_depth_spec ad t :
  0%nat ∈ ad ->
  exists r, round_depth ad t = Ok (Z.of_nat r) /\ r ∈ ad /\ (r <= t)%nat /\
    forall d, d ∈ ad -> (d <= t)%nat -> (d <= r)%nat.
Proof.
  intros Had. unfold round_depth. set (ns := merge_sort le (remove_dups ad)).
  assert (Hin : forall d, d ∈ ns <-> d ∈ ad)
    by (intros; unfold ns; by rewrite merge_sort_Permutation, elem_of_remove_dups).
  assert (Hs : StronglySorted Z.le (map Z.of_nat ns)).
  { assert (Hs : StronglySorted le ns).
    { apply Sorted_StronglySorted; [intros a b c; lia|]. apply Sorted_merge_sort. intros a b; lia. }
    clearbody ns. clear Hin. induction Hs as [|n ns Hs IH Hn]; simpl; constructor; [done|].
    apply Forall_forall. intros z (d & -> & Hd)%elem_of_map.
    eapply Forall_forall in Hn; [|exact Hd]. lia. }
  destruct (searchsorted_right_spec _ (Z.of_nat t) Hs) as (Hle & Hgt & Hn).
  set (n := searchsorted_right _ _) in *. rewrite length_map in *.
  assert (Hpos : forall d, d ∈ ad -> (d <= t)%nat ->
    exists j, (j < n)%nat /\ ns !! j = Some d).
  { intros d Hd Hdt. apply Hin, list_elem_of_lookup in Hd as [j Ej]. exists j. split; [|done].
    destruct (Nat.lt_ge_cases j n) as [|Hge]; [done|]. exfalso.
    assert (E : skipn n (map Z.of_nat ns) !! (j - n)%nat = Some (Z.of_nat d)).
    { rewrite lookup_drop. replace (n + (j - n))%nat with j by lia. by rewrite map_lookup, Ej. }
    eapply Forall_lookup in Hgt; [|exact E]. simpl in Hgt. lia. }
  destruct (Hpos 0%nat Had ltac:(lia)) as (j0 & Hj0 & _).
  destruct (lookup_lt_is_Some_2 ns (n - 1)) as [r Er]; [lia|].
  exists r. split_and!.
  - unfold np_clip. replace (Z.min _ _) with (Z.of_nat (n - 1)) by lia.
    apply np_index_lookup. by rewrite map_lookup, Er.
  - apply Hin. by eapply list_elem_of_lookup_2.
  - assert (E : firstn n (map Z.of_nat ns) !! (n - 1)%nat = Some (Z.of_nat r)).
    { rewrite lookup_take_lt by lia. by rewrite map_lookup, Er. }
    eapply Forall_lookup in Hle; [|exact E]. simpl in Hle. lia.
  - intros d Hd Hdt. destruct (Hpos d Hd Hdt) as (j & Hj & Ej).
    destruct (decide (j = (n - 1)%nat)) as [->|]; [rewrite Ej in Er; injection Er; lia|].
    assert (Z.of_nat d <= Z.of_nat r); [|lia].
    eapply (StronglySorted_app_1_elem_of Z.le (firstn (S j) (map Z.of_nat ns)) (skipn (S j) (map Z.of_nat ns)));
      [by rewrite take_drop| |].
    + apply list_elem_of_lookup. exists j. rewrite lookup_take_lt by lia. by rewrite map_lookup, Ej.
    + apply list_elem_of_lookup. exists (n - 1 - S j)%nat. rewrite lookup_drop.
      replace (S j + (n - 1 - S j))%nat with (n - 1)%nat by lia. by rewrite map_lookup, Er.
Qed.

(** The cell of a code at a depth. *)
Definition cell_at (q : Z) (d : nat) : pystr := key_of (firstn d (code_path q)).

Lemma cell_at_valid q d : (d <= MAX_DEPTH)%nat -> valid_key (cell_at q d).
Proof.
  intros Hd. apply valid_key_of; [apply Forall_take, value_digits_digit4|].
  rewrite length_firstn. lia.
Qed.

Lemma cell_at_path q d : (d <= MAX_DEPTH)%nat ->
  path_of (cell_at q d) = firstn d (code_path q) /\ length (firstn d (code_path q)) = d.
Proof.
  intros Hd. split; [apply path_key, Forall_take, value_digits_digit4|].
  rewrite length_firstn. unfold code_path. rewrite value_digits_length. lia.
Qed.

Lemma cell_at_in q q' d :
  (d <= MAX_DEPTH)%nat -> 0 <= q' < 4 ^ 20 ->
  in_cell q' (cell_at q d) <-> firstn d (code_path q') = firstn d (code_path q).
Proof.
  intros Hd Hq. rewrite in_cell_prefix by (by try apply cell_at_valid).
  destruct (cell_at_path q d Hd) as [-> ->]. done.
Qed.

Lemma in_cell_at q key :
  valid_key key -> 0 <= q < 4 ^ 20 -> in_cell q key -> key = cell_at q (depth_of key).
Proof.
  intros Hv Hq Hin. rewrite in_cell_prefix in Hin by done. rewrite depth_path.
  unfold cell_at. rewrite Hin. symmetry. apply key_path, Hv.
Qed.

(** The computation of [placement_v2] on a built index. *)
Lemma placement_eq keys sw ne ad md :
  leaf_set keys -> keys <> [] -> 0%nat ∈ ad -> (md <= MAX_DEPTH)%nat ->
  exists leaf r, leaf ∈ keys /\
    ((exists k, k ∈ keys /\ cell_lo k <= sw) -> cell_lo leaf <= sw) /\
    (forall k, k ∈ keys -> in_cell sw k -> k = leaf) /\
    let t := Nat.min (lcp_depth sw ne md) (depth_of leaf) in
    round_depth ad t = Ok (Z.of_nat r) /\ r ∈ ad /\ (r <= t)%nat /\
    (forall d, d ∈ ad -> (d <= t)%nat -> (d <= r)%nat) /\
    placement_v2 (built keys) sw ne ad md =
      Ok (cell_at sw (if (t =? depth_of leaf)%nat && (sw <=? cell_hi leaf) then t else r)).
Proof.
  intros Hk Hne Had Hmd.
  destruct (leaf_lookup keys Hk Hne sw) as (leaf & El & Hin & Ec & Hlo & Hcov).
  destruct (round_depth_spec ad (Nat.min (lcp_depth sw ne md) (depth_of leaf)) Had)
    as (r & Er & Hr & Hrt & Hmax).
  exists leaf, r. split_and!; try done. cbv zeta. split_and!; try done.
  unfold placement_v2. unfold leaf_for_qk in El. rewrite El. cbn [res_bind]. rewrite Ec. cbn [res_bind].
  unfold round_depth in Er. cbv zeta in Er. rewrite Er. cbn [res_bind]. rewrite Nat2Z.id.
  f_equal. set (t := Nat.min _ _) in *.
  pose proof (lcp_depth_spec sw ne md Hmd) as (Hl & _ & _).
  set (fin := if (t =? depth_of leaf)%nat && (sw <=? cell_hi leaf) then t else r). assert (Hfin : (fin <= md)%nat) by (unfold fin; case_match; lia).
  rewrite acc_path, take_take by lia. unfold cell_at.
  replace (fin `min` md)%nat with fin by lia.
  destruct (Nat.eqb_spec fin 0) as [->|Hf]; [done|].
  destruct (firstn fin (code_path sw)) eqn:E; [|done].
  apply (f_equal length) in E. rewrite length_firstn in E. unfold code_path in E.
  rewrite value_digits_length in E. simpl in E. lia.
Qed.
End Placement.

(** * Descents *)
Lemma digit4_snoc p d : Forall digit4 p -> digit4 d -> Forall digit4 (p ++ [d]).
Proof. intros. apply Forall_app. split; [done|]. by apply Forall_singleton. Qed.

Lemma add_digit_path key d :
  Forall digit4 (path_of key) -> digit4 d -> path_of (add_digit key d) = path_of key ++ [d].
Proof.
  intros Hk Hd. unfold add_digit. fold (path_of key). by apply path_of_path, digit4_snoc.
Qed.

Lemma add_digit_nonempty key d : add_digit key d <> [].
Proof. unfold add_digit. by destruct (if _ =s _ then _ else _). Qed.

Lemma point_cell_loop_path n lat lon lvs b key :
  Forall digit4 (path_of key) -> key <> [] ->
  let k := point_cell_loop n lat lon lvs b key in
  exists s, Forall digit4 s /\ path_of k = path_of key ++ s /\ (length s <= n)%nat /\ k <> [] /\
    (k ∈ lvs \/ length s = n) /\
    forall m, (m < length s)%nat -> key_of (path_of key ++ firstn m s) ∉ lvs.
Proof.
  revert b key. induction n as [|n IH]; intros b key Hd Hne; cbn [point_cell_loop].
  - exists []. rewrite app_nil_r. destruct (str_in key lvs); (split_and!; try done; auto; simpl; lia).
  - destruct (str_in key lvs) eqn:E.
    { exists []. rewrite app_nil_r. apply str_in_spec in E. split_and!; try done; auto; simpl; lia. }
    destruct b as [[[s0 w0] n0] e0]. cbv zeta.
    set (q := if _ && _ then _ else _). destruct q as [digit b'] eqn:Eq.
    assert (Hdig : digit4 digit).
    { unfold q in Eq. unfold digit4. repeat case_match; injection Eq as <- _; lia. }
    assert (Hp : path_of (add_digit key digit) = path_of key ++ [digit]) by (by apply add_digit_path).
    destruct (IH b' (add_digit key digit)) as (s & Hs & Ep & Hl & Hne' & Hend & Hmid);
      [rewrite Hp; by apply digit4_snoc|apply add_digit_nonempty|].
    exists (digit :: s). rewrite Ep, Hp, <- app_assoc in *. split_and!; try done.
    + by constructor.
    + simpl. lia.
    + simpl. destruct Hend; [by left|right; lia].
    + intros [|m] Hm; simpl in *.
      * rewrite app_nil_r, key_path by done. intros Hin%str_in_spec. congruence.
      * specialize (Hmid m ltac:(lia)). by rewrite <- app_assoc in Hmid.
Qed.

(** The box of the cell reached holds the point: every bound that is not the
    world's was compared with the point on the way down. *)
Definition holds_point (lat lon : pyfloat) (b : BBox) : Prop :=
  let '(south, west, north, east) := b in
  let '(wsouth, wwest, wnorth, weast) := WORLD in
  (south = wsouth \/ fleb south lat = true) /\ (west = wwest \/ fleb west lon = true) /\
  (north = wnorth \/ fleb north lat = false) /\ (east = weast \/ fleb east lon = false).

Lemma cell_bbox_snoc b p d : cell_bbox_from b (p ++ [d]) =
  let* b' := cell_bbox_from b p in res_of_option ValueError (quadrant d b').
Proof.
  revert b. induction p as [|c p IH]; intros b; cbn [app cell_bbox_from].
  - cbn [res_bind]. by destruct (quadrant d b).
  - destruct (quadrant c b) as [b'|]; [|done]. apply IH.
Qed.

Lemma point_cell_loop_box n lat lon lvs b key :
  Forall digit4 (path_of key) -> cell_bbox_from WORLD (path_of key) = Ok b -> holds_point lat lon b ->
  exists b', cell_bbox_from WORLD (path_of (point_cell_loop n lat lon lvs b key)) = Ok b' /\
    holds_point lat lon b'.
Proof.
  revert b key. induction n as [|n IH]; intros b key Hd Hb Hh; cbn [point_cell_loop].
  - exists b. by destruct (str_in key lvs).
  - destruct (str_in key lvs); [by exists b|].
    destruct b as [[[s w] nn] e]. cbv zeta.
    assert (Hp : forall digit, digit4 digit -> path_of (add_digit key digit) = path_of key ++ [digit]).
    { intros digit Hdig. by apply add_digit_path. }
    assert (step : forall digit b', digit4 digit -> quadrant digit (s, w, nn, e) = Some b' ->
      holds_point lat lon b' ->
      exists b2, cell_bbox_from WORLD (path_of (point_cell_loop n lat lon lvs b' (add_digit key digit))) = Ok b2 /\
        holds_point lat lon b2).
    { intros digit b' Hdig Hq Hh'. apply IH; [|by rewrite Hp, cell_bbox_snoc, Hb by done; cbn [res_bind]; rewrite Hq|done].
      rewrite Hp by done. by apply digit4_snoc. }
    destruct (fleb (midpoint s nn) lat) eqn:En, (fleb (midpoint w e) lon) eqn:Ee; cbn [negb andb];
      (apply step; [unfold digit4; lia|reflexivity|]); unfold holds_point in *; cbn in *; tauto.
Qed.

Lemma containing_cell_loop_box n bbox lvs b key :
  Forall digit4 (path_of key) -> cell_bbox_from WORLD (path_of key) = Ok b ->
  (key = ROOT \/ bbox_contains b bbox = true) -> key <> [] ->
  let k := containing_cell_loop n bbox lvs b key in
  exists b' s, Forall digit4 s /\ path_of k = path_of key ++ s /\ (length s <= n)%nat /\ k <> [] /\
    cell_bbox_from WORLD (path_of k) = Ok b' /\
    (k = ROOT \/ bbox_contains b' bbox = true) /\
    (k ∈ lvs \/ length s = n \/
     forall d cb, List.filter (fun c => bbox_contains (snd c) bbox) (candidates b') <> [(d, cb)]).
Proof.
  revert b key. induction n as [|n IH]; intros b key Hd Hb Hc Hne k; unfold k; clear k;
    cbn [containing_cell_loop].
  - exists b, []. rewrite app_nil_r.
    destruct (str_in key lvs); (split_and!; try done; auto; simpl; lia).
  - destruct (str_in key lvs) eqn:E.
    { exists b, []. rewrite app_nil_r. apply str_in_spec in E. split_and!; try done; auto; simpl; lia. }
    destruct (List.filter _ _) as [|[digit cb] [|]] eqn:Ef;
      try (exists b, []; rewrite app_nil_r; split_and!; try done; auto; try (simpl; lia);
           right; right; intros d' cb'; rewrite Ef; done).
    assert (Hin : In (digit, cb) (candidates b) /\ bbox_contains cb bbox = true).
    { apply (filter_In (fun c => bbox_contains (snd c) bbox)). rewrite Ef. by left. }
    destruct Hin as [Hin Hcb].
    assert (Hq : digit4 digit /\ quadrant digit b = Some cb).
    { destruct b as [[[s w] nn] e]. unfold digit4.
      repeat (destruct Hin as [[= <- <-]|Hin]; [split; [lia|reflexivity]|]). done. }
    destruct Hq as [Hdig Hq].
    assert (Hp : path_of (add_digit key digit) = path_of key ++ [digit]) by (by apply add_digit_path).
    destruct (IH cb (add_digit key digit)) as (b' & s & Hs & Ep & Hl & Hne' & Hb' & Hc' & Hend).
    + rewrite Hp. by apply digit4_snoc.
    + by rewrite Hp, cell_bbox_snoc, Hb; cbn [res_bind]; rewrite Hq.
    + by right.
    + apply add_digit_nonempty.
    + exists b', (digit :: s). rewrite Hp, <- app_assoc in Ep. split_and!; try done.
      * by constructor.
      * simpl. lia.
      * destruct Hend as [|[|]]; auto. right; left. simpl. lia.
Qed.

Lemma children_cells (key : pystr) :
  valid_key key -> (depth_of key < MAX_DEPTH)%nat ->
  exists cs, children key = Ok cs /\ length cs = 4%nat /\ NoDup cs /\
    Forall (fun c => valid_key c /\ parent c = Some key /\ depth_of c = S (depth_of key)) cs /\
    forall q, in_cell q key <->
      exists c, c ∈ cs /\ in_cell q c /\ forall c', c' ∈ cs -> in_cell q c' -> c' = c.
Proof.
  intros Hv Hd. pose proof Hv as (Hp & _ & Hne). unfold children.
  destruct (Nat.leb_spec MAX_DEPTH (depth_of key)); [lia|]. eexists. split; [done|].
  split; [done|]. rewrite depth_path in Hd. split.
  { unfold digits4, add_digit. cbn [map]. set (k := if key =s ROOT then [] else key).
    assert (Hk : forall a b, k ++ [a] = k ++ [b] -> a = b)
      by (intros a b E; apply app_inj_2 in E as [_ [= ->]]; done).
    repeat (apply NoDup_cons; split;
      [rewrite ?elem_of_cons; intros E; repeat destruct_or!;
       try (by apply elem_of_nil in E); by apply Hk in E|]). constructor. }
  assert (Hc : forall d, digit4 d -> valid_key (add_digit key d) /\
    parent (add_digit key d) = Some key /\ path_of (add_digit key d) = path_of key ++ [d]).
  { intros d Hdig. pose proof (add_digit_path key d Hp Hdig) as E.
    split_and!; [|unfold add_digit; fold (path_of key)|done].
    - split_and!; [rewrite E; by apply digit4_snoc|rewrite E, length_app; simpl; lia|apply add_digit_nonempty].
    - assert (K : key_of (path_of key ++ [d]) = path_of key ++ [d]) by (by destruct (path_of key)).
      rewrite <- K, parent_path by (by apply digit4_snoc). rewrite removelast_last, key_path by done.
      by destruct (path_of key). }
  assert (Hmem : forall c, c ∈ map (add_digit key) digits4 <-> exists d, digit4 d /\ c = add_digit key d).
  { intros c. rewrite elem_of_map. unfold digits4, digit4. split.
    - intros (d & -> & Hin). exists d. split; [|done].
      repeat (apply elem_of_cons in Hin as [->|Hin]; [lia|]). by apply elem_of_nil in Hin.
    - intros (d & Hdig & ->). exists d. split; [done|]. rewrite !elem_of_cons.
      assert (d = 48 \/ d = 49 \/ d = 50 \/ d = 51) by lia. tauto. }
  split.
  - apply Forall_forall. intros c (d & Hdig & ->)%Hmem. destruct (Hc d Hdig) as (V & P & E).
    split_and!; [done|done|]. rewrite !depth_path, E, length_app. simpl. lia.
  - intros q. split.
    + intros Hq. pose proof (in_cell_bound _ _ Hv Hq) as Hb. rewrite in_cell_prefix in Hq by done.
      destruct (code_path q !! length (path_of key)) as [d|] eqn:Ed.
      2: { apply lookup_ge_None in Ed. unfold code_path in Ed. rewrite value_digits_length in Ed. lia. }
      assert (Hdig : digit4 d) by (eapply Forall_lookup; [apply value_digits_digit4|exact Ed]).
      destruct (Hc d Hdig) as (V & P & E).
      assert (Hin : in_cell q (add_digit key d)).
      { rewrite in_cell_prefix by done. rewrite E, length_app. simpl. rewrite Nat.add_1_r.
        by rewrite (firstn_snoc _ _ d Ed), Hq. }
      exists (add_digit key d). split_and!; [apply Hmem; eauto|done|].
      intros c' (d' & Hdig' & ->)%Hmem Hin'. destruct (Hc d' Hdig') as (V' & _ & E').
      rewrite in_cell_prefix in Hin' by done. rewrite E', length_app in Hin'. simpl in Hin'.
      rewrite Nat.add_1_r, (firstn_snoc _ _ d Ed) in Hin'. apply app_inj_2 in Hin' as [_ [= ->]]; done.
    + intros (c & (d & Hdig & ->)%Hmem & Hin & _). destruct (Hc d Hdig) as (V & P & E).
      eapply ancestor_contains; [exact V| |exact Hin]. apply is_ancestor_prefix; [done|].
      exists (length (path_of key)). rewrite E, length_app. split; [simpl; lia|].
      rewrite take_app_length. symmetry. by apply key_path.
Qed.

(** Truncating and flooring agree once clamped at zero. *)
Lemma clamp_floor x n m :
  int_of_float x = Ok n -> floor_of_float x = Ok m -> np_clip m 0 (side - 1) = clamp n.
Proof.
  assert (Hs : 0 <= side - 1) by done. unfold np_clip, clamp.
  destruct x as [s|s| |[] p e]; cbn [int_of_float floor_of_float]; try done; try (intros [= <-] [= <-]; lia).
  intros [= <-] [= <-].
  assert (0 <= Z.shiftl (Zpos p) e) by (apply Z.shiftl_nonneg; lia).
  assert (Z.shiftl (- Zpos p) e < 0) by (apply Z.shiftl_neg; lia). lia.
Qed.

Lemma floor_int_exn x e : int_of_float x = Raise e <-> floor_of_float x = Raise e.
Proof. by destruct x as [s|s| |[] p ex]. Qed.

(** * Properties *)

(** the code ranges of two cells overlap exactly when one cell is the
    other or one of its ancestors, and an ancestor's range includes the
    cell's: the ranges form the quadtree. *)
Theorem qk_range_laminar (k1 k2 : pystr) :
  valid_key k1 -> valid_key k2 ->
  ((exists q, in_cell q k1 /\ in_cell q k2) <-> k1 = k2 \/ is_ancestor k1 k2 \/ is_ancestor k2 k1) /\
  (is_ancestor k1 k2 -> forall q, in_cell q k2 -> in_cell q k1).
Proof.
  intros H1 H2. split.
  - split; [intros (q & I1 & I2); by eapply cells_meet|].
    intros [->|[Ha|Ha]].
    + exists (cell_lo k2). split; by apply in_cell_lo.
    + exists (cell_lo k2). split; [eapply (ancestor_contains k1 k2); [done|done|]|]; by apply in_cell_lo.
    + exists (cell_lo k1). split; [|eapply (ancestor_contains k2 k1); [done|done|]]; by apply in_cell_lo.
  - intros Ha q Hq. by eapply ancestor_contains.
Qed.

Theorem qk_range_laminar_witness :
  valid_key (u "12") /\ valid_key (u "1203") /\ is_ancestor (u "12") (u "1203") /\
  forall q, in_cell q (u "1203") -> in_cell q (u "12").
Proof.
  assert (H1 : valid_key (u "12"))
    by (split; [repeat constructor; discriminate|split; [vm_compute; lia|discriminate]]).
  assert (H2 : valid_key (u "1203"))
    by (split; [repeat constructor; discriminate|split; [vm_compute; lia|discriminate]]).
  assert (Ha : is_ancestor (u "12") (u "1203"))
    by (eexists; split; [reflexivity|apply str_in_spec; reflexivity]).
  split; [exact H1|split; [exact H2|split; [exact Ha|]]].
  exact (proj2 (qk_range_laminar (u "12") (u "1203") H1 H2) Ha).
Defined.

(** the four children of a cell split it: they are valid cells with that
    parent, and every code of the cell lies in exactly one of them. *)
Theorem children_split (key : pystr) :
  valid_key key -> (depth_of key < MAX_DEPTH)%nat ->
  exists cs, children key = Ok cs /\ length cs = 4%nat /\ NoDup cs /\
    Forall (fun c => valid_key c /\ parent c = Some key /\ depth_of c = S (depth_of key)) cs /\
    forall q, in_cell q key <->
      exists c, c ∈ cs /\ in_cell q c /\ forall c', c' ∈ cs -> in_cell q c' -> c' = c.
Proof. apply children_cells. Qed.

Theorem children_split_witness :
  valid_key (u "031") /\ (depth_of (u "031") < MAX_DEPTH)%nat /\
  exists cs, children (u "031") = Ok cs /\ length cs = 4%nat /\ NoDup cs /\
    Forall (fun c => valid_key c /\ parent c = Some (u "031") /\ depth_of c = S (depth_of (u "031"))) cs /\
    forall q, in_cell q (u "031") <->
      exists c, c ∈ cs /\ in_cell q c /\ forall c', c' ∈ cs -> in_cell q c' -> c' = c.
Proof.
  assert (H1 : valid_key (u "031"))
    by (split; [repeat constructor; discriminate|split; [vm_compute; lia|discriminate]]).
  assert (H2 : (depth_of (u "031") < MAX_DEPTH)%nat) by (vm_compute; lia).
  split; [exact H1|split; [exact H2|]]. exact (children_split (u "031") H1 H2).
Defined.

(** [key_to_value] and [_value_to_key] are inverse to one another, on the
    keys of each depth and on the values below [4^depth]. *)
Theorem key_value_roundtrip `{UnicodeDB} (key : pystr) (v : Z) (d : nat) :
  (valid_key key -> exists v', key_to_value key = Ok v' /\ 0 <= v' < 4 ^ Z.of_nat (depth_of key) /\
     value_to_key v' (depth_of key) = key) /\
  (0 <= v < 4 ^ Z.of_nat d ->
     key_to_value (value_to_key v d) = Ok v /\ depth_of (value_to_key v d) = d).
Proof.
  split.
  - intros (Hd & _ & Hne). eexists. split; [by apply key_to_value_path|]. rewrite depth_path.
    split; [by apply path_val_bounds|]. unfold value_to_key.
    destruct (Nat.eqb_spec (length (path_of key)) 0) as [E|E].
    + destruct (path_of key) eqn:Ep; [|done]. by rewrite <- (key_path key Hne), Ep.
    + rewrite value_digits_path by done. rewrite <- (key_path key Hne) at 2.
      by destruct (path_of key).
  - intros Hv. unfold value_to_key. destruct (Nat.eqb_spec d 0) as [->|Hd].
    + assert (v = 0) as -> by (simpl in Hv; lia). done.
    + pose proof (value_digits_digit4 d v) as H4. pose proof (path_of_path _ H4) as Ep.
      rewrite depth_path, key_to_value_path, Ep by (by rewrite Ep).
      by rewrite value_digits_val, value_digits_length.
Qed.

Theorem key_value_roundtrip_witness :
  (exists v', key_to_value (H:=latin1_db) (u "0312") = Ok v' /\ 0 <= v' < 4 ^ Z.of_nat (depth_of (u "0312")) /\
     value_to_key v' (depth_of (u "0312")) = u "0312") /\
  key_to_value (H:=latin1_db) (value_to_key 54 4) = Ok 54.
Proof.
  split.
  - apply (proj1 (key_value_roundtrip (H:=latin1_db) (u "0312") 54 4%nat)).
    split; [repeat constructor; discriminate|split; [vm_compute; lia|discriminate]].
  - apply (proj2 (key_value_roundtrip (H:=latin1_db) (u "0312") 54 4%nat)). simpl. lia.
Defined.

(** the quadkey code of a grid point.  It is a 40-bit number, different
    points have different codes, and a point's code is in a cell's range
    exactly when the cell is the one at the point's column (from the west)
    and row (from the north) among the cells of that depth. *)
Theorem qk_code_cells (x y : Z) :
  0 <= x < side -> 0 <= y < side ->
  0 <= qk_code x y < 2 ^ 40 /\
  (forall x' y', 0 <= x' < side -> 0 <= y' < side -> qk_code x y = qk_code x' y' -> x = x' /\ y = y') /\
  forall key, valid_key key ->
    in_cell (qk_code x y) key <->
    x / 2 ^ (Z.of_nat MAX_DEPTH - Z.of_nat (depth_of key)) = cell_column (path_of key) /\
    (side - 1 - y) / 2 ^ (Z.of_nat MAX_DEPTH - Z.of_nat (depth_of key)) = cell_row (path_of key).
Proof.
  intros Hx Hy.
  assert (D : forall x y, 0 <= x < side -> 0 <= y < side -> forall k p, (k <= MAX_DEPTH)%nat ->
    Forall digit4 p -> length p = k -> firstn k (code_path (qk_code x y)) = p <->
    x / 2 ^ (Z.of_nat MAX_DEPTH - Z.of_nat k) = cell_column p /\
    (side - 1 - y) / 2 ^ (Z.of_nat MAX_DEPTH - Z.of_nat k) = cell_row p).
  { clear. intros x y Hx Hy k p Hk Hp Hl. destruct (qk_code_path x y) as [-> _].
    unfold code_digits. rewrite firstn_map, inv_y by done. apply path_digits_grid; (done || lia). }
  destruct (qk_code_path x y) as [_ Hb]. split; [exact Hb|]. split.
  - intros x' y' Hx' Hy' E. set (p := code_path (qk_code x y)).
    assert (Hp : Forall digit4 p /\ length p = MAX_DEPTH)
      by (split; [apply value_digits_digit4|apply value_digits_length]).
    destruct Hp as [Hp Hl].
    destruct (proj1 (D x y Hx Hy MAX_DEPTH p (le_n _) Hp Hl)) as [E1 E2].
    { unfold p. apply firstn_all2. fold p. lia. }
    destruct (proj1 (D x' y' Hx' Hy' MAX_DEPTH p (le_n _) Hp Hl)) as [E3 E4].
    { unfold p. rewrite <- E. apply firstn_all2. fold p. lia. }
    rewrite Z.sub_diag in *. change (2 ^ 0) with 1 in *. rewrite !Z.div_1_r in *. lia.
  - intros key Hv. rewrite in_cell_prefix by done. rewrite depth_path.
    destruct Hv as (Hd & Hl & _). by apply D.
Qed.

Theorem qk_code_cells_witness :
  0 <= qk_code 563200 655000 < 2 ^ 40 /\ in_cell (qk_code 563200 655000) (u "12").
Proof.
  destruct (qk_code_cells 563200 655000) as (B & _ & C); [done|done|]. split; [exact B|].
  apply C; [split; [repeat constructor; discriminate|split; [vm_compute; lia|discriminate]]|].
  split; reflexivity.
Defined.

(** on e7 coordinates the vectorised code, which floors and clips, is the
    scalar one, which truncates and takes min and max, errors included. *)
Theorem point_to_qk_vectorised (lat_e7 lon_e7 : Z) :
  point_to_qk_np lat_e7 lon_e7 = point_to_qk (e7_degrees lat_e7) (e7_degrees lon_e7).
Proof.
  unfold point_to_qk_np, point_to_qk, grid_xy. cbv zeta.
  set (fx := grid_float 180 360 _). set (fy := grid_float 90 180 _).
  destruct (int_of_float fx) as [x|ex] eqn:Ex.
  - destruct (floor_of_float fx) as [x'|] eqn:Ex'; [|apply floor_int_exn in Ex'; congruence].
    cbn [res_bind]. destruct (int_of_float fy) as [y|ey] eqn:Ey.
    + destruct (floor_of_float fy) as [y'|] eqn:Ey'; [|apply floor_int_exn in Ey'; congruence].
      cbn [res_bind fst snd]. by rewrite (clamp_floor fx x x'), (clamp_floor fy y y').
    + apply floor_int_exn in Ey. by rewrite Ey.
  - apply floor_int_exn in Ex. by rewrite Ex.
Qed.

(** leaf lookup.  For a leaf set without nesting, the index is built, and
    the binary search returns a leaf; if some leaf covers the code it is that
    one, and [contains_qk] says so.  For codes at or above some leaf's lower
    bound, [contains_qk] is exact: it holds only if the returned leaf covers
    the code. *)
Theorem leaf_index_lookup `{UnicodeDB} `{NumpyLaws} (keys : list pystr) (q : Z) :
  leaf_set keys -> keys <> [] ->
  exists index leaf b, LeafIndex_init keys = Ok index /\ leaf_for_qk index q = Ok leaf /\
    contains_qk index (leaf_index_for_qk index q) q = Ok b /\ leaf ∈ keys /\
    (forall k, k ∈ keys -> in_cell q k -> k = leaf /\ b = true) /\
    ((exists k, k ∈ keys /\ cell_lo k <= q) -> b = true -> in_cell q leaf).
Proof.
  intros Hk Hne. destruct (leaf_lookup keys Hk Hne q) as (leaf & El & Hin & Ec & Hlo & Hcov).
  assert (Hv : valid_key leaf) by (destruct Hk as [Hv _]; by eapply Forall_forall in Hv).
  exists (built keys), leaf, (q <=? cell_hi leaf).
  split_and!; [by apply init_built|done|done|done| |].
  - intros k Hkk Hq. specialize (Hcov k Hkk Hq). subst k. split; [done|].
    apply in_cell_range in Hq; [|done]. apply Z.leb_le. lia.
  - intros Hex Hb%Z.leb_le. apply in_cell_range; [done|]. specialize (Hlo Hex). lia.
Qed.

(** The leaf set of the witnesses. *)
Definition sample_leaves : list pystr := [u "0"; u "13"; u "120"; u "3"].
Lemma sample_leaf_set : leaf_set sample_leaves.
Proof.
  split.
  - repeat (apply Forall_cons; split; [split; [repeat constructor; discriminate|split; [vm_compute; lia|discriminate]]|]).
    constructor.
  - unfold sample_leaves, is_ancestor. intros k1 k2 H1 H2 (l & E & Hin).
    repeat (apply elem_of_cons in H2 as [->|H2];
      [injection E as <-;
       repeat (apply elem_of_cons in H1 as [->|H1];
         [repeat (apply elem_of_cons in Hin as [Hin|Hin]; [discriminate|]); by apply elem_of_nil in Hin|]);
       by apply elem_of_nil in H1|]).
    by apply elem_of_nil in H2.
Qed.

#[local] Existing Instance spec_numpy.
#[local] Existing Instance spec_numpy_laws.

Theorem leaf_index_lookup_witness :
  exists index leaf b, LeafIndex_init (H:=latin1_db) sample_leaves = Ok index /\
    leaf_for_qk index (4 ^ 19 + 3 * 4 ^ 18) = Ok leaf /\
    contains_qk index (leaf_index_for_qk index (4 ^ 19 + 3 * 4 ^ 18)) (4 ^ 19 + 3 * 4 ^ 18) = Ok b /\
    leaf ∈ sample_leaves /\
    (forall k, k ∈ sample_leaves -> in_cell (4 ^ 19 + 3 * 4 ^ 18) k -> k = leaf /\ b = true) /\
    ((exists k, k ∈ sample_leaves /\ cell_lo k <= 4 ^ 19 + 3 * 4 ^ 18) -> b = true ->
       in_cell (4 ^ 19 + 3 * 4 ^ 18) leaf).
Proof.
  apply (leaf_index_lookup (H:=latin1_db) sample_leaves).
  - exact sample_leaf_set.
  - discriminate.
Defined.

(** C21: the v2 placement returns a cell that covers both extreme corners of the
    box, whatever the leaves, provided the root is an allowed depth. It does not
    say that a scan of the box reads that cell: below the first leaf the cell is
    neither a leaf nor at an allowed depth ([placement_v2_gap]). *)
Theorem placement_v2_contains `{UnicodeDB} `{NumpyLaws} (keys : list pystr) (sw ne : Z)
    (ad : list nat) (md : nat) :
  leaf_set keys -> keys <> [] -> 0%nat ∈ ad -> (md <= MAX_DEPTH)%nat ->
  0 <= sw < 4 ^ 20 -> 0 <= ne < 4 ^ 20 ->
  exists index key, LeafIndex_init keys = Ok index /\ placement_v2 index sw ne ad md = Ok key /\
    valid_key key /\ in_cell sw key /\ in_cell ne key.
Proof.
  intros Hk Hne Had Hmd Hsw Hnw.
  destruct (placement_eq keys sw ne ad md Hk Hne Had Hmd) as (leaf & r & _ & _ & _ & _ & _ & Hrt & _ & E).
  set (t := Nat.min _ _) in *.
  set (fin := if (t =? depth_of leaf)%nat && (sw <=? cell_hi leaf) then t else r) in E.
  destruct (lcp_depth_spec sw ne md Hmd) as (Hl & Hp & _).
  assert (Hfin : (fin <= lcp_depth sw ne md)%nat) by (unfold fin; case_match; lia).
  exists (built keys), (cell_at sw fin). split_and!; [by apply init_built|done|apply cell_at_valid; lia| |].
  - by rewrite cell_at_in by lia.
  - rewrite cell_at_in by lia. apply (f_equal (firstn fin)) in Hp. rewrite !take_take in Hp.
    by replace (fin `min` lcp_depth sw ne md)%nat with fin in Hp by lia.
Qed.

Theorem placement_v2_contains_witness :
  exists index key, LeafIndex_init (H:=latin1_db) sample_leaves = Ok index /\
    placement_v2 index (4 ^ 19 + 5) (4 ^ 19 + 77777) DEFAULT_ANCESTOR_DEPTHS DEFAULT_MAX_DEPTH_V2 = Ok key /\
    valid_key key /\ in_cell (4 ^ 19 + 5) key /\ in_cell (4 ^ 19 + 77777) key.
Proof.
  apply (placement_v2_contains (H:=latin1_db) sample_leaves).
  - exact sample_leaf_set.
  - discriminate.
  - left.
  - vm_compute. lia.
  - split; [discriminate|reflexivity].
  - split; [discriminate|reflexivity].
Defined.

(** C22: where a leaf covers the south-west corner, the v2 placement is the
    documented one: the leaf itself if it also covers the north-east corner
    and is within the depth limit; otherwise the deepest cell at an allowed
    ancestor depth, no deeper than that leaf or the limit, that covers
    both. *)
Theorem placement_v2_exact `{UnicodeDB} `{NumpyLaws} (keys : list pystr) (leaf : pystr) (sw ne : Z)
    (ad : list nat) (md : nat) :
  leaf_set keys -> leaf ∈ keys -> in_cell sw leaf -> 0%nat ∈ ad -> (md <= MAX_DEPTH)%nat ->
  0 <= ne < 4 ^ 20 ->
  exists index key, LeafIndex_init keys = Ok index /\ placement_v2 index sw ne ad md = Ok key /\
    (in_cell ne leaf -> (depth_of leaf <= md)%nat -> key = leaf) /\
    (~ in_cell ne leaf \/ (md < depth_of leaf)%nat ->
       depth_of key ∈ ad /\
       forall c, valid_key c -> in_cell sw c -> in_cell ne c -> depth_of c ∈ ad ->
         (depth_of c <= md)%nat -> (depth_of c <= depth_of leaf)%nat ->
         (depth_of c <= depth_of key)%nat).
Proof.
  intros Hk Hin Hsw Had Hmd Hnw. assert (Hne : keys <> []) by (by intros ->; apply elem_of_nil in Hin).
  destruct (placement_eq keys sw ne ad md Hk Hne Had Hmd)
    as (leaf' & r & _ & _ & Hcov & _ & Hr & Hrt & Hmax & E).
  rewrite <- (Hcov leaf Hin Hsw) in *. clear leaf' Hcov.
  assert (Hv : valid_key leaf) by (destruct Hk as [Hv _]; by eapply Forall_forall in Hv).
  pose proof (in_cell_bound _ _ Hv Hsw) as Hb.
  assert (Hhi : (sw <=? cell_hi leaf) = true).
  { apply Z.leb_le. apply in_cell_range in Hsw; [lia|done]. }
  rewrite Hhi, andb_true_r in E.
  pose proof (in_cell_at sw leaf Hv Hb Hsw) as El.
  assert (Hdl : (depth_of leaf <= MAX_DEPTH)%nat) by (rewrite depth_path; apply Hv).
  destruct (lcp_depth_spec sw ne md Hmd) as (Hl & Hp & Hlmax).
  assert (Hshare : forall d, (d <= MAX_DEPTH)%nat -> in_cell ne (cell_at sw d) ->
    (d <= md)%nat -> (d <= lcp_depth sw ne md)%nat).
  { intros d Hd Hc Hdm. apply Hlmax; [done|]. rewrite cell_at_in in Hc by done. done. }
  set (t := Nat.min _ _) in *.
  exists (built keys). eexists. split; [by apply init_built|]. split; [exact E|]. split.
  - intros Hnel Hdm. rewrite El in Hnel. specialize (Hshare _ Hdl Hnel Hdm).
    assert (t = depth_of leaf) as -> by lia. rewrite Nat.eqb_refl. done.
  - intros Hcase. assert (Ht : (t =? depth_of leaf)%nat = false).
    { apply Nat.eqb_neq. intros Ht. destruct Hcase as [Hn|]; [|lia]. apply Hn.
      rewrite El. rewrite cell_at_in by done. apply (f_equal (firstn (depth_of leaf))) in Hp.
      rewrite !take_take in Hp.
      by replace (depth_of leaf `min` lcp_depth sw ne md)%nat with (depth_of leaf) in Hp by lia. }
    rewrite Ht. destruct (cell_at_path sw r ltac:(lia)) as [Pr Lr].
    assert (Hdr : depth_of (cell_at sw r) = r) by (rewrite depth_path, Pr; done).
    rewrite Hdr. split; [done|]. intros c Hvc Hsc Hnc Hdc Hcm Hcl. apply Hmax; [done|].
    pose proof (in_cell_at sw c Hvc Hb Hsc) as Ec. rewrite Ec in Hnc.
    specialize (Hshare (depth_of c) ltac:(lia) Hnc Hcm). lia.
Qed.

Theorem placement_v2_exact_witness :
  in_cell (4 ^ 19 + 5) (u "1") /\
  exists index key, LeafIndex_init (H:=latin1_db) [u "1"] = Ok index /\
    placement_v2 index (4 ^ 19 + 5) (4 ^ 19 + 77777) DEFAULT_ANCESTOR_DEPTHS DEFAULT_MAX_DEPTH_V2 = Ok key /\
    (in_cell (4 ^ 19 + 77777) (u "1") -> (depth_of (u "1") <= DEFAULT_MAX_DEPTH_V2)%nat -> key = u "1") /\
    (~ in_cell (4 ^ 19 + 77777) (u "1") \/ (DEFAULT_MAX_DEPTH_V2 < depth_of (u "1"))%nat ->
       depth_of key ∈ DEFAULT_ANCESTOR_DEPTHS /\
       forall c, valid_key c -> in_cell (4 ^ 19 + 5) c -> in_cell (4 ^ 19 + 77777) c ->
         depth_of c ∈ DEFAULT_ANCESTOR_DEPTHS -> (depth_of c <= DEFAULT_MAX_DEPTH_V2)%nat ->
         (depth_of c <= depth_of (u "1"))%nat -> (depth_of c <= depth_of key)%nat).
Proof.
  assert (Hv : valid_key (u "1"))
    by (split; [repeat constructor; discriminate|split; [vm_compute; lia|discriminate]]).
  assert (Hin : in_cell (4 ^ 19 + 5) (u "1")) by (apply in_cell_div; [exact Hv|reflexivity]).
  split; [exact Hin|]. apply (placement_v2_exact (H:=latin1_db) [u "1"] (u "1")).
  - split; [apply Forall_singleton; exact Hv|]. intros k1 k2 ->%list_elem_of_singleton ->%list_elem_of_singleton.
    by apply ancestor_irrefl.
  - left.
  - exact Hin.
  - left.
  - vm_compute. lia.
  - split; [discriminate|reflexivity].
Defined.

(** the placement goes wrong in the part of the code space below the
    first leaf.  [contains_qk] compares with the leaf's upper bound only, so
    there it answers yes for a code outside the leaf; a box in the north-west
    quadrant of a world whose only leaf is the south-east one is placed in
    cell [0], which is neither a leaf nor at an allowed ancestor depth, and
    which the cells scanned for that very box do not include. *)
Theorem placement_v2_gap `{UnicodeDB} `{NumpyLaws} :
  let box := (525000000, -1340000000, 525000900, -1339999000) in
  let '(ymin, xmin, ymax, xmax) := box in
  containing_cells_v2 ymin xmin ymax xmax [u "3"] DEFAULT_ANCESTOR_DEPTHS DEFAULT_MAX_DEPTH_V2 =
    Ok (u "0") /\
  depth_of (u "0") ∉ DEFAULT_ANCESTOR_DEPTHS /\
  cells_for_bbox (e7_degrees ymin, e7_degrees xmin, e7_degrees ymax, e7_degrees xmax) [u "3"] = Ok [ROOT].
Proof.
  cbv zeta. split_and!; [|by apply (bool_decide_eq_true_1 (1%nat ∉ DEFAULT_ANCESTOR_DEPTHS))|by vm_compute].
  assert (Hv : valid_key (u "3"))
    by (split; [repeat constructor; discriminate|split; [vm_compute; lia|discriminate]]).
  assert (Hk : leaf_set [u "3"]).
  { split; [by apply Forall_singleton|].
    intros k1 k2 ->%list_elem_of_singleton ->%list_elem_of_singleton. by apply ancestor_irrefl. }
  unfold containing_cells_v2. cbn [Nat.ltb Nat.leb MAX_DEPTH DEFAULT_MAX_DEPTH_V2].
  rewrite init_built by done. cbn [res_bind].
  assert (Esw : exists sw, point_to_qk_np 525000000 (-1340000000) = Ok sw /\ firstn 1 (code_path sw) = u "0" /\
    sw <= cell_hi (u "3")) by (eexists; split_and!; [vm_compute; reflexivity|reflexivity|done]).
  assert (Ene : exists ne, point_to_qk_np 525000900 (-1339999000) = Ok ne /\ firstn 1 (code_path ne) = u "0")
    by (eexists; split_and!; [vm_compute; reflexivity|reflexivity]).
  destruct Esw as (sw & -> & Psw & Hsw), Ene as (ne & -> & Pne). cbn [res_bind].
  destruct (placement_eq [u "3"] sw ne DEFAULT_ANCESTOR_DEPTHS DEFAULT_MAX_DEPTH_V2 Hk)
    as (leaf & r & Hin & _ & _ & _ & _ & _ & _ & ->); [done|left|vm_compute; lia|].
  apply list_elem_of_singleton in Hin as ->.
  destruct (lcp_depth_spec sw ne DEFAULT_MAX_DEPTH_V2) as (_ & _ & Hl); [vm_compute; lia|].
  specialize (Hl 1%nat ltac:(vm_compute; lia) ltac:(by rewrite Psw, Pne)).
  change (depth_of (u "3")) with 1%nat.
  replace (lcp_depth sw ne DEFAULT_MAX_DEPTH_V2 `min` 1)%nat with 1%nat by lia.
  rewrite (proj2 (Z.leb_le _ _) Hsw). cbn [Nat.eqb andb]. unfold cell_at. by rewrite Psw.
Qed.

Theorem placement_v2_gap_witness :
  containing_cells_v2 (H:=latin1_db) 525000000 (-1340000000) 525000900 (-1339999000) [u "3"]
    DEFAULT_ANCESTOR_DEPTHS DEFAULT_MAX_DEPTH_V2 = Ok (u "0").
Proof. exact (proj1 (placement_v2_gap (H:=latin1_db))). Defined.

(** [point_cell] stops at a leaf, or at depth 20 when no leaf is on the
    way; no proper ancestor of its answer is a leaf, and the answer's box
    holds the point: half-open on the high sides, except at the world's
    edges, whatever the point (NaN included). *)
Theorem point_cell_correct (lat lon : pyfloat) (lvs : list pystr) :
  let k := point_cell lat lon lvs in
  valid_key k /\ (k ∈ lvs \/ depth_of k = MAX_DEPTH) /\
  (forall a, is_ancestor a k -> a ∉ lvs) /\
  exists b, cell_bbox k = Ok b /\ holds_point lat lon b.
Proof.
  cbv zeta. unfold point_cell.
  destruct (point_cell_loop_path MAX_DEPTH lat lon lvs WORLD ROOT) as (s & Hs & Ep & Hl & Hne & Hend & Hmid);
    [constructor|done|].
  destruct (point_cell_loop_box MAX_DEPTH lat lon lvs WORLD ROOT) as (b & Hb & Hh);
    [constructor|done|by repeat split; left|].
  set (k := point_cell_loop _ _ _ _ _ _) in *. cbn [path_of app] in Ep. rewrite path_of_root in *.
  cbn [app] in Ep. assert (Hv : valid_key k) by (split_and!; [by rewrite Ep|by rewrite Ep|done]).
  split_and!; [done|by rewrite depth_path, Ep| |].
  - intros a (n & Hn & ->)%is_ancestor_prefix; [|done]. rewrite Ep in *.
    specialize (Hmid n Hn). done.
  - exists b. split; [|done]. unfold cell_bbox. destruct (k =s ROOT) eqn:Ek; [|].
    + apply str_eqb_eq in Ek. rewrite Ek in Hb. done.
    + unfold path_of in Hb. by rewrite Ek in Hb.
Qed.

(** [containing_cell] returns the root or a cell whose box contains the
    whole bbox, and it stops for a reason: at a leaf, at depth 20, or where
    not exactly one quadrant contains the bbox. *)
Theorem containing_cell_correct (bbox : BBox) (lvs : list pystr) :
  let k := containing_cell bbox lvs in
  valid_key k /\
  exists b, cell_bbox k = Ok b /\ (k = ROOT \/ bbox_contains b bbox = true) /\
    (k ∈ lvs \/ depth_of k = MAX_DEPTH \/
     forall d cb, List.filter (fun c => bbox_contains (snd c) bbox) (candidates b) <> [(d, cb)]).
Proof.
  cbv zeta. unfold containing_cell.
  destruct (containing_cell_loop_box MAX_DEPTH bbox lvs WORLD ROOT)
    as (b & s & Hs & Ep & Hl & Hne & Hb & Hc & Hend); [constructor|done|by left|done|].
  set (k := containing_cell_loop _ _ _ _ _) in *. rewrite path_of_root in Ep. cbn [app] in Ep.
  split; [split_and!; [by rewrite Ep|by rewrite Ep|done]|].
  exists b. split_and!; [|done|by rewrite depth_path, Ep].
  unfold cell_bbox. destruct (k =s ROOT) eqn:Ek.
  - apply str_eqb_eq in Ek. rewrite Ek in Hb. done.
  - unfold path_of in Hb. by rewrite Ek in Hb.
Qed.

Lemma cell_bbox_from_valid p b : Forall digit4 p -> is_Some (match cell_bbox_from b p with Ok x => Some x | _ => None end).
Proof.
  intros Hp. revert b. induction Hp as [|c p Hc Hp IH]; intros b; [done|].
  cbn [cell_bbox_from]. unfold digit4 in Hc. destruct b as [[[s w] n] e].
  assert (c = 48 \/ c = 49 \/ c = 50 \/ c = 51) as [-> | [-> | [-> | ->]]] by lia;
    cbn [quadrant res_of_option res_bind]; apply IH.
Qed.

(** the cells scanned for a bbox: the root, each leaf whose box meets the
    bbox with all its ancestors, and nothing else; sorted, without
    duplicates, and closed under taking parents. *)
Theorem cells_for_bbox_correct (bbox : BBox) (lvs : list pystr) :
  Forall valid_key lvs ->
  exists out, cells_for_bbox bbox lvs = Ok out /\ StronglySorted str_le out /\ NoDup out /\
    (forall k, k ∈ out <-> k = ROOT \/
       exists leaf b, leaf ∈ lvs /\ cell_bbox leaf = Ok b /\ bbox_intersects b bbox = true /\
         (k = leaf \/ is_ancestor k leaf)) /\
    (forall k p, k ∈ out -> parent k = Some p -> p ∈ out).
Proof.
  intros Hv.
  assert (L : exists out, cells_for_bbox_loop bbox lvs = Ok out /\ forall k, k ∈ out <->
    exists leaf b, leaf ∈ lvs /\ cell_bbox leaf = Ok b /\ bbox_intersects b bbox = true /\
      (k = leaf \/ is_ancestor k leaf)).
  { induction Hv as [|leaf lvs Hl Hv (out & E & Hout)]; cbn [cells_for_bbox_loop].
    - exists []. split; [done|]. intros k. rewrite elem_of_nil. split; [done|].
      intros (? & ? & Hin & _). by apply elem_of_nil in Hin.
    - assert (Hb : exists b, cell_bbox leaf = Ok b).
      { unfold cell_bbox. destruct (leaf =s ROOT) eqn:El; [by eexists|].
        destruct Hl as (Hd & _). unfold path_of in Hd. rewrite El in Hd.
        pose proof (cell_bbox_from_valid leaf WORLD Hd) as [x Hx].
        destruct (cell_bbox_from WORLD leaf); [by eexists|done]. }
      destruct Hb as [b Hb]. rewrite Hb, E. cbn [res_bind].
      pose proof (ancestors_path leaf Hl) as Ha.
      destruct (bbox_intersects b bbox) eqn:Ei.
      + rewrite Ha. cbn [res_map res_bind]. eexists. split; [done|]. intros k.
        rewrite elem_of_app, elem_of_cons, Hout. split.
        * intros [[->|Hk]|(l' & b' & Hin & Hrest)].
          -- exists leaf, b. split_and!; [left|done|done|by left].
          -- exists leaf, b. split_and!; [left|done|done|right]. by eexists.
          -- exists l', b'. split; [by right|done].
        * intros (l' & b' & Hin & Hb' & Hi & Hk). apply elem_of_cons in Hin as [->|Hin].
          -- left. destruct Hk as [->|(x & Hx & Hk)]; [by left|right]. rewrite Ha in Hx.
             by injection Hx as <-.
          -- right. by exists l', b'.
      + cbn [res_map res_bind]. exists out. split; [done|]. intros k. rewrite Hout. split.
        * intros (l' & b' & Hin & Hrest). exists l', b'. split; [by right|done].
        * intros (l' & b' & Hin & Hb' & Hi & Hk). apply elem_of_cons in Hin as [->|Hin]; [congruence|].
          by exists l', b'. }
  destruct L as (out & E & Hout). exists (sorted_set (ROOT :: out)). unfold cells_for_bbox. rewrite E.
  split_and!; [done|apply sorted_set_sorted|apply sorted_set_nodup| |].
  - intros k. by rewrite elem_of_sorted_set, elem_of_cons, Hout.
  - intros k p Hk Hp. rewrite elem_of_sorted_set, elem_of_cons, Hout in *.
    destruct Hk as [->|(leaf & b & Hin & Hb & Hi & Hk)]; [done|].
    assert (Hvl : valid_key leaf) by (by eapply Forall_forall in Hv).
    right. exists leaf, b. split_and!; [done|done|done|right].
    assert (Hn : exists n, (n <= length (path_of leaf))%nat /\ k = key_of (firstn n (path_of leaf))).
    { destruct Hk as [->|(n & Hn & ->)%is_ancestor_prefix]; [| |done].
      - exists (length (path_of leaf)). rewrite firstn_all. split; [done|]. symmetry. apply key_path, Hvl.
      - exists n. split; [lia|done]. }
    destruct Hn as (n & Hn & ->).
    rewrite parent_path in Hp by (apply Forall_take, Hvl).
    destruct (firstn n (path_of leaf)) as [|c l] eqn:El; [done|].
    assert (Hp' : p = key_of (removelast (c :: l))) by congruence. rewrite Hp'. clear Hp Hp'.
    apply is_ancestor_prefix; [done|]. exists (n - 1)%nat.
    destruct n as [|n]; [by rewrite take_0 in El|].
    split; [lia|]. rewrite <- El, removelast_firstn_len, length_firstn, take_take. do 2 f_equal. lia.
Qed.

Theorem cells_for_bbox_correct_witness :
  Forall valid_key [u "12"; u "03"] /\
  exists out, cells_for_bbox (e7_degrees 10000000, e7_degrees (-20000000), e7_degrees 20000000, e7_degrees 30000000)
      [u "12"; u "03"] = Ok out /\
    StronglySorted str_le out /\ NoDup out /\
    (forall k, k ∈ out <-> k = ROOT \/
       exists leaf b, leaf ∈ [u "12"; u "03"] /\ cell_bbox leaf = Ok b /\
         bbox_intersects b (e7_degrees 10000000, e7_degrees (-20000000), e7_degrees 20000000, e7_degrees 30000000) = true /\
         (k = leaf \/ is_ancestor k leaf)) /\
    (forall k p, k ∈ out -> parent k = Some p -> p ∈ out).
Proof.
  assert (Hv : Forall valid_key [u "12"; u "03"]).
  { repeat (apply Forall_cons; split; [split; [repeat constructor; discriminate|split; [vm_compute; lia|discriminate]]|]).
    constructor. }
  split; [exact Hv|].
  exact (cells_for_bbox_correct (e7_degrees 10000000, e7_degrees (-20000000), e7_degrees 20000000, e7_degrees 30000000)
    [u "12"; u "03"] Hv).
Defined.
