(* ===== verification/LayoutHilbert.v ===== *)
(** The builder's Hilbert keys ([src/osmpq/layout/hilbert.py]), scalar and, one
    row at a time, vectorised. *)
From S2P Require Import Prelude PyFloat Numpy.

Definition ORDER : nat := 20.

(** [while s > 0: ...; s //= 2]; [n] is the side of the grid. *)
Fixpoint xy2d_loop (fuel : nat) (n s x y d : Z) : res Z :=
  if s <=? 0 then Ok d
  else match fuel with
  | O => Raise OutOfFuel
  | S f =>
      let rx := if 0 <? Z.land x s then 1 else 0 in
      let ry := if 0 <? Z.land y s then 1 else 0 in
      let d := d + s * s * Z.lxor (3 * rx) ry in
      let '(x, y) :=
        if ry =? 0 then
          let '(x, y) := if rx =? 1 then (n - 1 - x, n - 1 - y) else (x, y) in (y, x)
        else (x, y) in
      xy2d_loop f n (s / 2) x y d
  end.

Definition hilbert_xy2d (order : nat) (x y : Z) : res Z :=
  let n := Z.shiftl 1 (Z.of_nat order) in xy2d_loop (S order) n (n / 2) x y 0.

Definition side : Z := Z.shiftl 1 (Z.of_nat ORDER).

(** [(v + half) / full * n] *)
Definition grid_float (half full : Z) (v : pyfloat) : pyfloat :=
  fmul (fdiv (fadd v (float_of_Z half)) (float_of_Z full)) (float_of_Z side).
Definition e7_degrees (v : Z) : pyfloat := fdiv (float_of_Z v) (float_of_Z 10000000).

Definition grid_xy (lat_e7 lon_e7 : Z) : res (Z * Z) :=
  let* x := int_of_float (grid_float 180 360 (e7_degrees lon_e7)) in
  let* y := int_of_float (grid_float 90 180 (e7_degrees lat_e7)) in
  Ok (Z.min (Z.max x 0) (side - 1), Z.min (Z.max y 0) (side - 1)).

Definition hilbert_key (lat_e7 lon_e7 : Z) : res Z :=
  let* xy := grid_xy lat_e7 lon_e7 in hilbert_xy2d ORDER (fst xy) (snd xy).

(** One row of [hilbert_keys]: [np.where] under the swap and flip masks, and
    a [uint64] accumulator. *)
Definition uint64 (v : Z) : Z := v mod 2 ^ 64.
Fixpoint keys_loop (fuel : nat) (n s x y d : Z) : res Z :=
  if s <=? 0 then Ok d
  else match fuel with
  | O => Raise OutOfFuel
  | S f =>
      let rx := if 0 <? Z.land x s then 1 else 0 in
      let ry := if 0 <? Z.land y s then 1 else 0 in
      let d := uint64 (d + uint64 (uint64 (s * s) * uint64 (Z.lxor (3 * rx) ry))) in
      let swap_mask := ry =? 0 in
      let flip_mask := swap_mask && (rx =? 1) in
      let x := if flip_mask then n - 1 - x else x in
      let y := if flip_mask then n - 1 - y else y in
      let new_x := if swap_mask then y else x in
      let new_y := if swap_mask then x else y in
      keys_loop f n (s / 2) new_x new_y d
  end.

Definition hilbert_keys (lat_e7 lon_e7 : Z) : res Z :=
  let* x := floor_of_float (grid_float 180 360 (e7_degrees lon_e7)) in
  let* y := floor_of_float (grid_float 90 180 (e7_degrees lat_e7)) in
  keys_loop (S ORDER) side (side / 2) (np_clip x 0 (side - 1)) (np_clip y 0 (side - 1)) 0.
