(* ===== verification/EngineHilbert.v ===== *)
(** The query engine's Hilbert keys ([src/osmpq/engine/hilbert.py]), scalar and,
    one row at a time, the [pyarrow.compute] mirrors. *)
From S2P Require Import Prelude PyFloat.

Definition ORDER : nat := 20.
Definition SIDE : Z := Z.shiftl 1 (Z.of_nat ORDER).
Definition MAXCOORD : Z := SIDE - 1.

Definition rot (n x y rx ry : Z) : Z * Z :=
  if ry =? 0 then
    let '(x, y) := if rx =? 1 then (n - 1 - x, n - 1 - y) else (x, y) in (y, x)
  else (x, y).

Fixpoint xy2d_loop (fuel : nat) (n s x y d : Z) : res Z :=
  if s <=? 0 then Ok d
  else match fuel with
  | O => Raise OutOfFuel
  | S f =>
      let rx := if 0 <? Z.land x s then 1 else 0 in
      let ry := if 0 <? Z.land y s then 1 else 0 in
      let d := d + s * s * Z.lxor (3 * rx) ry in
      let '(x, y) := rot n x y rx ry in
      xy2d_loop f n (s / 2) x y d
  end.

Definition xy2d (order : nat) (x y : Z) : res Z :=
  let n := Z.shiftl 1 (Z.of_nat order) in xy2d_loop (S order) n (n / 2) x y 0.

Definition grid_float (half full : Z) (v : pyfloat) : pyfloat :=
  fmul (fdiv (fadd v (float_of_Z half)) (float_of_Z full)) (float_of_Z SIDE).

Definition lonlat_to_xy (lon lat : pyfloat) : res (Z * Z) :=
  let* x := int_of_float (grid_float 180 360 lon) in
  let* y := int_of_float (grid_float 90 180 lat) in
  Ok (Z.max 0 (Z.min MAXCOORD x), Z.max 0 (Z.min MAXCOORD y)).

Definition lonlat_to_hilbert (lon lat : pyfloat) : res Z :=
  let* xy := lonlat_to_xy lon lat in xy2d ORDER (fst xy) (snd xy).

Definition e7_to_hilbert (lon_e7 lat_e7 : Z) : res Z :=
  lonlat_to_hilbert (fdiv (float_of_Z lon_e7) (float_of_Z 10000000))
    (fdiv (float_of_Z lat_e7) (float_of_Z 10000000)).

Definition bbox_e7_center_hilbert (xmin_e7 ymin_e7 xmax_e7 ymax_e7 : Z) : res Z :=
  let half v := fdiv (fdiv (float_of_Z v) (float_of_Z 2)) (float_of_Z 10000000) in
  lonlat_to_hilbert (half (xmin_e7 + xmax_e7)) (half (ymin_e7 + ymax_e7)).

(** One row of the [pyarrow.compute] mirrors. *)
Definition vec_deg_to_xy (lon_deg lat_deg : pyfloat) : res (Z * Z) :=
  let* x := int_of_float (grid_float 180 360 lon_deg) in
  let* y := int_of_float (grid_float 90 180 lat_deg) in
  Ok (Z.max (Z.min x MAXCOORD) 0, Z.max (Z.min y MAXCOORD) 0).

Definition vec_lonlat_to_xy (lon_e7 lat_e7 : Z) : res (Z * Z) :=
  vec_deg_to_xy (fdiv (float_of_Z lon_e7) (float_of_Z 10000000))
    (fdiv (float_of_Z lat_e7) (float_of_Z 10000000)).

Fixpoint vec_xy2d_loop (fuel : nat) (s x y d : Z) : res Z :=
  if s <=? 0 then Ok d
  else match fuel with
  | O => Raise OutOfFuel
  | S f =>
      let rx := if 0 <? Z.land x s then 1 else 0 in
      let ry := if 0 <? Z.land y s then 1 else 0 in
      let d := d + s * s * Z.lxor (3 * rx) ry in
      let neg := (ry =? 0) && (rx =? 1) in
      let n1 := SIDE - 1 in
      let x2 := if neg then n1 - x else x in
      let y2 := if neg then n1 - y else y in
      let swap := ry =? 0 in
      vec_xy2d_loop f (s / 2) (if swap then y2 else x) (if swap then x2 else y) d
  end.
Definition vec_xy2d (x y : Z) : res Z := vec_xy2d_loop (S ORDER) (SIDE / 2) x y (x * 0).

Definition vec_hilbert_from_xy (x y : Z) : res Z :=
  let* d := vec_xy2d x y in Ok d.
Definition vec_node_hilbert (lon_e7 lat_e7 : Z) : res Z :=
  let* xy := vec_lonlat_to_xy lon_e7 lat_e7 in vec_hilbert_from_xy (fst xy) (snd xy).

Definition vec_bbox_hilbert (xmin_e7 ymin_e7 xmax_e7 ymax_e7 : Z) : res Z :=
  let mid a b := fdiv (fadd (float_of_Z a) (float_of_Z b))
                   (fmul (float_of_Z 2) (float_of_Z 10000000)) in
  let* xy := vec_deg_to_xy (mid xmin_e7 xmax_e7) (mid ymin_e7 ymax_e7) in
  vec_hilbert_from_xy (fst xy) (snd xy).
