(* ===== verification/HilbertFacts.v ===== *)
(** The Hilbert key is the Hilbert curve: a bijection between the grid and the
    indices whose consecutive points are neighbours; and the four
    implementations of it agree. *)
From S2P Require Import Prelude PyFloat Numpy LayoutHilbert EngineHilbert.

(** * The curve, recursively *)

(** The index of a point of the [2^k] by [2^k] grid. *)
Fixpoint curve_index (k : nat) (x y : Z) : Z :=
  match k with
  | O => 0
  | S k' =>
      let s := 2 ^ Z.of_nat k' in
      let rx := x / s in
      let ry := y / s in
      let '(x', y') :=
        if ry =? 0 then
          if rx =? 1 then (s - 1 - y mod s, s - 1 - x mod s) else (y mod s, x mod s)
        else (x mod s, y mod s) in
      s * s * Z.lxor (3 * rx) ry + curve_index k' x' y'
  end.

(** The point at an index. *)
Fixpoint curve_point (k : nat) (d : Z) : Z * Z :=
  match k with
  | O => (0, 0)
  | S k' =>
      let s := 2 ^ Z.of_nat k' in
      let '(a, b) := curve_point k' (d mod (s * s)) in
      match d / (s * s) with
      | 0 => (b, a)
      | 1 => (a, s + b)
      | 2 => (s + a, s + b)
      | _ => (2 * s - 1 - b, s - 1 - a)
      end
  end.

Definition in_grid (k : nat) (p : Z * Z) : Prop :=
  0 <= fst p < 2 ^ Z.of_nat k /\ 0 <= snd p < 2 ^ Z.of_nat k.
Definition neighbours (p q : Z * Z) : Prop :=
  Z.abs (fst p - fst q) + Z.abs (snd p - snd q) = 1.

Lemma pow2_pos k : 0 < 2 ^ Z.of_nat k.
Proof. apply Z.pow_pos_nonneg; lia. Qed.
Lemma pow2_S k : 2 ^ Z.of_nat (S k) = 2 * 2 ^ Z.of_nat k.
Proof. rewrite Nat2Z.inj_succ, Z.pow_succ_r by lia. done. Qed.
Lemma pow4_S k : 4 ^ Z.of_nat k = 2 ^ Z.of_nat k * 2 ^ Z.of_nat k.
Proof. rewrite <- Z.pow_mul_l. done. Qed.

(** A coordinate is its top bit and the rest. *)
Lemma split_coord k x :
  0 <= x < 2 ^ Z.of_nat (S k) ->
  exists r x', x = r * 2 ^ Z.of_nat k + x' /\ (r = 0 \/ r = 1) /\ 0 <= x' < 2 ^ Z.of_nat k /\
    x / 2 ^ Z.of_nat k = r /\ x mod 2 ^ Z.of_nat k = x'.
Proof.
  intros Hx. rewrite pow2_S in Hx. pose proof (pow2_pos k).
  exists (x / 2 ^ Z.of_nat k), (x mod 2 ^ Z.of_nat k).
  pose proof (Z.div_mod x (2 ^ Z.of_nat k) ltac:(lia)).
  pose proof (Z.mod_pos_bound x (2 ^ Z.of_nat k) ltac:(lia)). split_and!; try done; nia.
Qed.

Lemma curve_point_grid k d : 0 <= d < 4 ^ Z.of_nat k -> in_grid k (curve_point k d).
Proof.
  revert d. induction k as [|k IH]; intros d Hd; cbn [curve_point]; [done|].
  pose proof (pow2_pos k) as Hs. set (s := 2 ^ Z.of_nat k) in *.
  assert (Hm : 0 <= d mod (s * s) < 4 ^ Z.of_nat k)
    by (rewrite pow4_S; apply Z.mod_pos_bound; fold s; nia).
  specialize (IH _ Hm). unfold in_grid in *. rewrite pow2_S. fold s in IH |- *.
  destruct (curve_point k (d mod (s * s))) as [a b]. cbn [fst snd] in IH.
  destruct (d / (s * s)) as [|[| |]|]; [..|]; try (destruct p); cbn [fst snd]; lia.
Qed.

Lemma quadrant_cases k d :
  0 <= d < 4 ^ Z.of_nat (S k) ->
  let s := 2 ^ Z.of_nat k in
  exists q r, d = q * (s * s) + r /\ 0 <= r < s * s /\ (q = 0 \/ q = 1 \/ q = 2 \/ q = 3) /\
    d / (s * s) = q /\ d mod (s * s) = r.
Proof.
  intros Hd s. rewrite pow4_S, pow2_S in Hd. fold s in Hd. pose proof (pow2_pos k). fold s in H.
  exists (d / (s * s)), (d mod (s * s)).
  pose proof (Z.div_mod d (s * s) ltac:(nia)). pose proof (Z.mod_pos_bound d (s * s) ltac:(nia)).
  split_and!; try done; nia.
Qed.

Lemma curve_point_S k s q r :
  s = 2 ^ Z.of_nat k -> 0 <= r < s * s -> q = 0 \/ q = 1 \/ q = 2 \/ q = 3 ->
  curve_point (S k) (q * (s * s) + r) =
    let '(a, b) := curve_point k r in
    if q =? 0 then (b, a) else if q =? 1 then (a, s + b)
    else if q =? 2 then (s + a, s + b) else (2 * s - 1 - b, s - 1 - a).
Proof.
  intros Es Hr Hq. cbn [curve_point]. rewrite <- Es.
  rewrite (Z.add_comm (q * _)), Z.div_add, Z.mod_add, Z.div_small, Z.mod_small by nia.
  destruct (curve_point k r) as [a b]. by destruct Hq as [-> | [-> | [-> | ->]]].
Qed.

Lemma curve_index_S k s rx ry x y :
  s = 2 ^ Z.of_nat k ->
  0 <= x < s -> 0 <= y < s -> rx = 0 \/ rx = 1 -> ry = 0 \/ ry = 1 ->
  curve_index (S k) (rx * s + x) (ry * s + y) =
    (if ry =? 0 then if rx =? 1 then 3 else 0 else if rx =? 1 then 2 else 1) * (s * s) +
    (if ry =? 0 then if rx =? 1 then curve_index k (s - 1 - y) (s - 1 - x) else curve_index k y x
     else curve_index k x y).
Proof.
  intros Es Hx Hy Hrx Hry. cbn [curve_index]. rewrite <- Es. clear Es.
  assert (Hdm : forall r z, 0 <= z < s -> (r * s + z) / s = r /\ (r * s + z) mod s = z).
  { intros r z Hz. rewrite Z.add_comm, Z.div_add, Z.mod_add, Z.div_small, Z.mod_small by lia. lia. }
  destruct (Hdm rx x Hx) as [-> ->], (Hdm ry y Hy) as [-> ->].
  assert (L : Z.lxor (3 * 0) 0 = 0 /\ Z.lxor (3 * 0) 1 = 1 /\ Z.lxor (3 * 1) 0 = 3 /\ Z.lxor (3 * 1) 1 = 2)
    by done. destruct L as (L0 & L1 & L2 & L3).
  destruct Hrx as [-> | ->], Hry as [-> | ->]; cbn [Z.eqb Pos.eqb];
    rewrite ?L0, ?L1, ?L2, ?L3; lia.
Qed.

(** [curve_point] inverts [curve_index], both ways. *)
Lemma index_of_point k d :
  0 <= d < 4 ^ Z.of_nat k -> curve_index k (fst (curve_point k d)) (snd (curve_point k d)) = d.
Proof.
  revert d. induction k as [|k IH]; intros d Hd; [simpl in *; lia|].
  pose proof (pow2_pos k) as Hs.
  destruct (quadrant_cases k d Hd) as (q & r & -> & Hr & Hq & _). set (s := 2 ^ Z.of_nat k) in *.
  assert (E4 : 4 ^ Z.of_nat k = s * s) by apply pow4_S.
  assert (Hr4 : 0 <= r < 4 ^ Z.of_nat k) by (by rewrite E4).
  pose proof (curve_point_grid k r Hr4) as [Ha Hb]. specialize (IH r Hr4). rewrite (curve_point_S k s) by done.
  destruct (curve_point k r) as [a b]. cbn [fst snd] in *. fold s in Ha, Hb, Hr |- *.
  destruct Hq as [-> | [-> | [-> | ->]]]; cbn [Z.eqb Pos.eqb fst snd].
  - replace b with (0 * s + b) by lia. replace a with (0 * s + a) by lia.
    rewrite (curve_index_S k s 0 0) by (done || lia). cbn [Z.eqb]. lia.
  - replace a with (0 * s + a) by lia. replace (s + b) with (1 * s + b) by lia.
    rewrite (curve_index_S k s 0 1) by (done || lia). cbn [Z.eqb Pos.eqb]. fold s. lia.
  - replace (s + a) with (1 * s + a) by lia. replace (s + b) with (1 * s + b) by lia.
    rewrite (curve_index_S k s 1 1) by (done || lia). cbn [Z.eqb Pos.eqb]. fold s. lia.
  - replace (2 * s - 1 - b) with (1 * s + (s - 1 - b)) by lia.
    replace (s - 1 - a) with (0 * s + (s - 1 - a)) by lia.
    rewrite (curve_index_S k s 1 0) by (done || lia). cbn [Z.eqb Pos.eqb]. fold s.
    replace (s - 1 - (s - 1 - a)) with a by lia. replace (s - 1 - (s - 1 - b)) with b by lia. lia.
Qed.

Lemma point_of_index k x y :
  in_grid k (x, y) ->
  0 <= curve_index k x y < 4 ^ Z.of_nat k /\ curve_point k (curve_index k x y) = (x, y).
Proof.
  revert x y. induction k as [|k IH]; intros x y [Hx Hy]; cbn [fst snd] in *.
  { simpl in *. split; [lia|]. f_equal; lia. }
  destruct (split_coord k x Hx) as (rx & x' & -> & Hrx & Hx' & _).
  destruct (split_coord k y Hy) as (ry & y' & -> & Hry & Hy' & _).
  pose proof (pow2_pos k) as Hs.  rewrite pow4_S, pow2_S.
  set (s := 2 ^ Z.of_nat k) in *. rewrite (curve_index_S k s) by done.
  assert (IH' : forall a b, 0 <= a < s -> 0 <= b < s ->
    0 <= curve_index k a b < s * s /\ curve_point k (curve_index k a b) = (a, b)).
  { intros a b Ha Hb. unfold s. rewrite <- pow4_S. by apply IH. }
  destruct Hry as [-> | ->]; [destruct Hrx as [-> | ->]|destruct Hrx as [-> | ->]]; cbn [Z.eqb Pos.eqb].
  - destruct (IH' y' x') as [B E]; [lia..|]. split; [lia|].
    rewrite (curve_point_S k s 0) by (done || lia). rewrite E. cbn [Z.eqb]. f_equal; lia.
  - destruct (IH' (s - 1 - y') (s - 1 - x')) as [B E]; [lia..|]. split; [lia|].
    rewrite (curve_point_S k s 3) by (done || lia). rewrite E. cbn [Z.eqb Pos.eqb]. fold s. f_equal; lia.
  - destruct (IH' x' y') as [B E]; [lia..|]. split; [lia|].
    rewrite (curve_point_S k s 1) by (done || lia). rewrite E. cbn [Z.eqb Pos.eqb]. fold s. f_equal; lia.
  - destruct (IH' x' y') as [B E]; [lia..|]. split; [lia|].
    rewrite (curve_point_S k s 2) by (done || lia). rewrite E. cbn [Z.eqb Pos.eqb]. fold s. f_equal; lia.
Qed.

(** The curve starts at the south-west corner and ends at the south-east. *)
Lemma curve_ends k :
  curve_point k 0 = (0, 0) /\ curve_point k (4 ^ Z.of_nat k - 1) = (2 ^ Z.of_nat k - 1, 0).
Proof.
  induction k as [|k [IH0 IH1]]; [done|]. pose proof (pow2_pos k) as Hs.
  rewrite pow4_S, pow2_S in *. set (s := 2 ^ Z.of_nat k) in *. split.
  - replace 0 with (0 * (s * s) + 0) at 1 by lia. rewrite (curve_point_S k s 0) by (done || nia).
    by rewrite IH0.
  - replace (2 * s * (2 * s) - 1) with (3 * (s * s) + (s * s - 1)) by lia.
    rewrite (curve_point_S k s 3) by (done || nia). rewrite IH1. cbn [Z.eqb Pos.eqb]. fold s.
    f_equal; lia.
Qed.

Lemma curve_neighbours k d :
  0 <= d < 4 ^ Z.of_nat k - 1 -> neighbours (curve_point k d) (curve_point k (d + 1)).
Proof.
  revert d. induction k as [|k IH]; intros d Hd; [simpl in Hd; lia|].
  destruct (quadrant_cases k d ltac:(lia)) as (q & r & -> & Hr & Hq & _).
  pose proof (pow2_pos k) as Hs. destruct (curve_ends k) as [E0 E1]. rewrite pow4_S in *.
  rewrite pow2_S in Hd. set (s := 2 ^ Z.of_nat k) in *.
  rewrite (curve_point_S k s q r) by done. fold s.
  destruct (decide (r = s * s - 1)) as [->|].
  - rewrite E1. replace (q * (s * s) + (s * s - 1) + 1) with ((q + 1) * (s * s) + 0) by lia.
    rewrite (curve_point_S k s (q + 1) 0) by (done || nia). rewrite E0. fold s. unfold neighbours.
    change (2 ^ Z.of_nat k) with s.
    destruct Hq as [-> | [-> | [-> | ->]]];
      [change (0 + 1) with 1|change (1 + 1) with 2|change (2 + 1) with 3|exfalso; lia];
      cbn [Z.eqb Pos.eqb fst snd]; lia.
  - specialize (IH r ltac:(lia)).
    replace (q * (s * s) + r + 1) with (q * (s * s) + (r + 1)) by lia.
    rewrite (curve_point_S k s q (r + 1)) by (done || lia). fold s. unfold neighbours in *.
    destruct (curve_point k r) as [a b], (curve_point k (r + 1)) as [a' b']. cbn [fst snd] in IH.
    destruct Hq as [-> | [-> | [-> | ->]]]; cbn [Z.eqb Pos.eqb fst snd]; lia.
Qed.

(** * The loops compute [curve_index] *)
Lemma testbit_div x k : 0 <= k -> Z.testbit x k = (x / 2 ^ k mod 2 =? 1).
Proof.
  intros Hk. rewrite <- Z.shiftr_div_pow2 by done.
  rewrite <- (Z.add_0_l k) at 1. rewrite <- Z.shiftr_spec, Z.bit0_odd by done.
  rewrite Zmod_odd. by destruct (Z.odd _).
Qed.

Lemma land_pow2 x k : 0 <= k -> (0 <? Z.land x (2 ^ k)) = (x / 2 ^ k mod 2 =? 1).
Proof.
  intros Hk. rewrite <- testbit_div by done.
  assert (E : Z.land x (2 ^ k) = if Z.testbit x k then 2 ^ k else 0).
  { apply Z.bits_inj'. intros n Hn. rewrite Z.land_spec, Z.pow2_bits_eqb by done.
    destruct (Z.eqb_spec k n) as [->|Hne].
    - destruct (Z.testbit x n) eqn:E; [by rewrite Z.pow2_bits_eqb, Z.eqb_refl|by rewrite Z.bits_0].
    - rewrite andb_false_r. destruct (Z.testbit x k); [|by rewrite Z.bits_0].
      rewrite Z.pow2_bits_eqb by done. symmetry. by apply Z.eqb_neq. }
  rewrite E. destruct (Z.testbit x k); [|done]. apply Z.ltb_lt. by apply Z.pow_pos_nonneg.
Qed.

(** The low bits of a coordinate, and of its mirror image. *)
Lemma mod_split x k :
  x mod 2 ^ Z.of_nat (S k) =
    (x / 2 ^ Z.of_nat k mod 2) * 2 ^ Z.of_nat k + x mod 2 ^ Z.of_nat k.
Proof.
  pose proof (pow2_pos k). rewrite pow2_S, (Z.mul_comm 2), Z.rem_mul_r by lia. lia.
Qed.

Lemma mirror_mod k order x :
  (k <= order)%nat ->
  (2 ^ Z.of_nat order - 1 - x) mod 2 ^ Z.of_nat k = 2 ^ Z.of_nat k - 1 - x mod 2 ^ Z.of_nat k.
Proof.
  intros Hk. pose proof (pow2_pos k) as Hs.
  assert (E : 2 ^ Z.of_nat order = 2 ^ (Z.of_nat order - Z.of_nat k) * 2 ^ Z.of_nat k)
    by (rewrite <- Z.pow_add_r by lia; f_equal; lia).
  set (s := 2 ^ Z.of_nat k) in *. set (m := 2 ^ (Z.of_nat order - Z.of_nat k)) in *.
  pose proof (Z.div_mod x s ltac:(lia)). pose proof (Z.mod_pos_bound x s Hs).
  symmetry. apply (Z.mod_unique _ _ (m - 1 - x / s)); [lia|]. rewrite E. nia.
Qed.

Lemma step_index k x y :
  let s := 2 ^ Z.of_nat k in
  let rx := if 0 <? Z.land x s then 1 else 0 in
  let ry := if 0 <? Z.land y s then 1 else 0 in
  curve_index (S k) (x mod 2 ^ Z.of_nat (S k)) (y mod 2 ^ Z.of_nat (S k)) =
    s * s * Z.lxor (3 * rx) ry +
    (if ry =? 0 then if rx =? 1 then curve_index k (s - 1 - y mod s) (s - 1 - x mod s)
                     else curve_index k (y mod s) (x mod s)
     else curve_index k (x mod s) (y mod s)).
Proof.
  cbv zeta. rewrite !mod_split, !land_pow2 by lia. pose proof (pow2_pos k) as Hs.
  set (s := 2 ^ Z.of_nat k) in *.
  pose proof (Z.mod_pos_bound x s Hs). pose proof (Z.mod_pos_bound y s Hs).
  pose proof (Z.mod_pos_bound (x / s) 2 ltac:(lia)). pose proof (Z.mod_pos_bound (y / s) 2 ltac:(lia)).
  assert (Hx : x / s mod 2 = 0 \/ x / s mod 2 = 1) by lia.
  assert (Hy : y / s mod 2 = 0 \/ y / s mod 2 = 1) by lia.
  rewrite (curve_index_S k s) by done.
  assert (L : Z.lxor (3 * 0) 0 = 0 /\ Z.lxor (3 * 0) 1 = 1 /\ Z.lxor (3 * 1) 0 = 3 /\ Z.lxor (3 * 1) 1 = 2)
    by done. destruct L as (L0 & L1 & L2 & L3).
  destruct Hx as [-> | ->], Hy as [-> | ->]; cbn [Z.eqb Pos.eqb];
    rewrite ?L0, ?L1, ?L2, ?L3; lia.
Qed.

Lemma half_pow k : 2 ^ Z.of_nat (S k) / 2 = 2 ^ Z.of_nat k.
Proof. rewrite pow2_S, Z.mul_comm. by apply Z.div_mul. Qed.

Lemma layout_loop_index k order fuel x y d :
  (k <= order)%nat -> (k < fuel)%nat ->
  LayoutHilbert.xy2d_loop fuel (2 ^ Z.of_nat order) (2 ^ Z.of_nat k / 2) x y d =
    Ok (d + curve_index k (x mod 2 ^ Z.of_nat k) (y mod 2 ^ Z.of_nat k)).
Proof.
  revert fuel x y d. induction k as [|k IH]; intros fuel x y d Hk Hf;
    (destruct fuel as [|f]; [lia|]); cbn [LayoutHilbert.xy2d_loop].
  - change (2 ^ Z.of_nat 0 / 2) with 0. cbn [Z.leb Z.compare curve_index]. f_equal. lia.
  - rewrite half_pow. pose proof (pow2_pos k). destruct (Z.leb_spec (2 ^ Z.of_nat k) 0); [lia|].
    rewrite step_index. cbv zeta. rewrite Z.add_assoc.
    set (rx := if 0 <? Z.land x _ then 1 else 0). set (ry := if 0 <? Z.land y _ then 1 else 0).
    destruct (ry =? 0); [destruct (rx =? 1)|]; rewrite IH by lia; rewrite ?mirror_mod by lia; done.
Qed.

Lemma shift_one k : Z.shiftl 1 (Z.of_nat k) = 2 ^ Z.of_nat k.
Proof. by rewrite Z.shiftl_1_l. Qed.

Lemma layout_index order x y :
  in_grid order (x, y) -> LayoutHilbert.hilbert_xy2d order x y = Ok (curve_index order x y).
Proof.
  intros [Hx Hy]. cbn [fst snd] in *. unfold LayoutHilbert.hilbert_xy2d. cbv zeta. rewrite shift_one.
  rewrite layout_loop_index by lia. by rewrite !Z.mod_small.
Qed.

(** ** The implementations agree *)
Lemma engine_loop fuel n s x y d : EngineHilbert.xy2d_loop fuel n s x y d = LayoutHilbert.xy2d_loop fuel n s x y d.
Proof.
  revert s x y d. induction fuel as [|f IH]; intros; cbn [EngineHilbert.xy2d_loop LayoutHilbert.xy2d_loop]; [done|].
  case_match; [done|]. unfold EngineHilbert.rot. repeat case_match; by rewrite IH.
Qed.

Lemma vec_loop fuel s x y d :
  EngineHilbert.vec_xy2d_loop fuel s x y d = LayoutHilbert.xy2d_loop fuel EngineHilbert.SIDE s x y d.
Proof.
  revert s x y d. induction fuel as [|f IH]; intros; cbn [EngineHilbert.vec_xy2d_loop LayoutHilbert.xy2d_loop]; [done|].
  case_match; [done|].
  set (rx := if 0 <? Z.land x s then 1 else 0). set (ry := if 0 <? Z.land y s then 1 else 0).
  destruct (ry =? 0); [destruct (rx =? 1)|]; cbn [andb]; by rewrite IH.
Qed.

(** The [uint64] accumulator never wraps. *)
Lemma keys_loop_eq k fuel n x y d :
  0 <= d -> d + 4 ^ Z.of_nat k <= 2 ^ 64 ->
  LayoutHilbert.keys_loop fuel n (2 ^ Z.of_nat k / 2) x y d = LayoutHilbert.xy2d_loop fuel n (2 ^ Z.of_nat k / 2) x y d.
Proof.
  revert fuel x y d. induction k as [|k IH]; intros fuel x y d Hd Hb.
  - change (2 ^ Z.of_nat 0 / 2) with 0. by destruct fuel.
  - destruct fuel as [|f]; [done|]. cbn [LayoutHilbert.keys_loop LayoutHilbert.xy2d_loop]. rewrite half_pow.
    pose proof (pow2_pos k). destruct (Z.leb_spec (2 ^ Z.of_nat k) 0); [lia|].
    rewrite !pow4_S, !pow2_S in Hb. set (s := 2 ^ Z.of_nat k) in *.
    set (rx := if 0 <? Z.land x s then 1 else 0). set (ry := if 0 <? Z.land y s then 1 else 0).
    assert (Hq : 0 <= Z.lxor (3 * rx) ry <= 3)
      by (unfold rx, ry; destruct (0 <? Z.land x s), (0 <? Z.land y s); done).
    assert (Hu : LayoutHilbert.uint64 (d + LayoutHilbert.uint64 (LayoutHilbert.uint64 (s * s) * LayoutHilbert.uint64 (Z.lxor (3 * rx) ry)))
                 = d + s * s * Z.lxor (3 * rx) ry).
    { unfold LayoutHilbert.uint64. rewrite !(Z.mod_small (s * s)), !(Z.mod_small (Z.lxor _ _)) by lia.
      rewrite (Z.mod_small (s * s * _)) by nia. apply Z.mod_small. nia. }
    rewrite Hu.
    assert (IH' : forall a b, LayoutHilbert.keys_loop f n (s / 2) a b (d + s * s * Z.lxor (3 * rx) ry) =
                              LayoutHilbert.xy2d_loop f n (s / 2) a b (d + s * s * Z.lxor (3 * rx) ry)).
    { intros a b. apply IH; [nia|]. rewrite pow4_S. fold s. nia. }
    destruct (ry =? 0); [destruct (rx =? 1)|]; cbn [andb]; by rewrite IH'.
Qed.

Lemma clip_floor hi x n m :
  0 <= hi -> int_of_float x = Ok n -> floor_of_float x = Ok m ->
  np_clip m 0 hi = Z.min (Z.max n 0) hi.
Proof.
  intros Hs. unfold np_clip.
  destruct x as [s|s| |[] p e]; cbn [int_of_float floor_of_float]; try done;
    try (intros [= <-] [= <-]; lia).
  intros [= <-] [= <-].
  assert (0 <= Z.shiftl (Zpos p) e) by (apply Z.shiftl_nonneg; lia).
  assert (Z.shiftl (- Zpos p) e < 0) by (apply Z.shiftl_neg; lia). lia.
Qed.

Lemma int_floor_raise x e : int_of_float x = Raise e <-> floor_of_float x = Raise e.
Proof. by destruct x as [s|s| |[] p ex]. Qed.

(** * Properties *)

(** C23: [hilbert_xy2d] is the Hilbert curve of its order.  On the [2^order] by
    [2^order] grid it always returns (its loop terminates); its values are a
    numbering of the grid by [0 .. 4^order - 1] without gaps or repetitions,
    inverted by [curve_point]; and consecutive numbers are at neighbouring
    points, so that ranges of keys are compact regions. *)
Theorem hilbert_xy2d_curve (order : nat) :
  (forall x y, in_grid order (x, y) ->
     exists d, LayoutHilbert.hilbert_xy2d order x y = Ok d /\ 0 <= d < 4 ^ Z.of_nat order /\
       curve_point order d = (x, y)) /\
  (forall d, 0 <= d < 4 ^ Z.of_nat order ->
     in_grid order (curve_point order d) /\
     LayoutHilbert.hilbert_xy2d order (fst (curve_point order d)) (snd (curve_point order d)) = Ok d) /\
  (forall d, 0 <= d < 4 ^ Z.of_nat order - 1 ->
     neighbours (curve_point order d) (curve_point order (d + 1))).
Proof.
  split_and!.
  - intros x y Hg. exists (curve_index order x y). rewrite layout_index by done.
    split; [done|]. by apply point_of_index.
  - intros d Hd. pose proof (curve_point_grid _ _ Hd) as Hg. split; [done|].
    rewrite layout_index by (by destruct (curve_point order d)). by rewrite index_of_point.
  - apply curve_neighbours.
Qed.

(** C39: the builder's and the engine's Hilbert keys are the same function,
    scalar or vectorised, for every pair of e7 coordinates and with the same
    exceptions, the [uint64] accumulator of the vectorised loop never
    wrapping around. *)
Theorem hilbert_implementations_agree (order : nat) (x y lat_e7 lon_e7 : Z) :
  EngineHilbert.xy2d order x y = LayoutHilbert.hilbert_xy2d order x y /\
  LayoutHilbert.hilbert_keys lat_e7 lon_e7 = LayoutHilbert.hilbert_key lat_e7 lon_e7 /\
  EngineHilbert.e7_to_hilbert lon_e7 lat_e7 = LayoutHilbert.hilbert_key lat_e7 lon_e7 /\
  EngineHilbert.vec_node_hilbert lon_e7 lat_e7 = LayoutHilbert.hilbert_key lat_e7 lon_e7.
Proof.
  assert (Hside : LayoutHilbert.side = 2 ^ Z.of_nat LayoutHilbert.ORDER) by done.
  split_and!.
  - apply engine_loop.
  - unfold LayoutHilbert.hilbert_keys, LayoutHilbert.hilbert_key, LayoutHilbert.grid_xy.
    set (fx := LayoutHilbert.grid_float 180 360 _). set (fy := LayoutHilbert.grid_float 90 180 _).
    destruct (int_of_float fx) as [n|e] eqn:Ex; [|apply int_floor_raise in Ex; by rewrite Ex].
    destruct (floor_of_float fx) as [n'|] eqn:Ex'; [|apply int_floor_raise in Ex'; congruence].
    cbn [res_bind].
    destruct (int_of_float fy) as [m|e] eqn:Ey; [|apply int_floor_raise in Ey; by rewrite Ey].
    destruct (floor_of_float fy) as [m'|] eqn:Ey'; [|apply int_floor_raise in Ey'; congruence].
    cbn [res_bind fst snd]. rewrite (clip_floor _ fx n n'), (clip_floor _ fy m m') by done.
    rewrite Hside. rewrite keys_loop_eq by done. unfold LayoutHilbert.hilbert_xy2d. cbv zeta.
    by rewrite shift_one.
  - unfold EngineHilbert.e7_to_hilbert, EngineHilbert.lonlat_to_hilbert, EngineHilbert.lonlat_to_xy, LayoutHilbert.hilbert_key, LayoutHilbert.grid_xy.
    change (EngineHilbert.grid_float) with (LayoutHilbert.grid_float). fold (LayoutHilbert.e7_degrees lon_e7) (LayoutHilbert.e7_degrees lat_e7).
    destruct (int_of_float (LayoutHilbert.grid_float 180 360 _)) as [n|]; [|done]. cbn [res_bind].
    destruct (int_of_float (LayoutHilbert.grid_float 90 180 _)) as [m|]; [|done]. cbn [res_bind fst snd].
    unfold EngineHilbert.xy2d. cbv zeta. rewrite engine_loop. unfold EngineHilbert.MAXCOORD. change EngineHilbert.SIDE with LayoutHilbert.side.
    assert (0 <= LayoutHilbert.side - 1) by done.
    replace (Z.max 0 (Z.min (LayoutHilbert.side - 1) n)) with (Z.min (Z.max n 0) (LayoutHilbert.side - 1)) by lia.
    by replace (Z.max 0 (Z.min (LayoutHilbert.side - 1) m)) with (Z.min (Z.max m 0) (LayoutHilbert.side - 1)) by lia.
  - unfold EngineHilbert.vec_node_hilbert, EngineHilbert.vec_lonlat_to_xy, EngineHilbert.vec_deg_to_xy, LayoutHilbert.hilbert_key, LayoutHilbert.grid_xy.
    change (EngineHilbert.grid_float) with (LayoutHilbert.grid_float). fold (LayoutHilbert.e7_degrees lon_e7) (LayoutHilbert.e7_degrees lat_e7).
    destruct (int_of_float (LayoutHilbert.grid_float 180 360 _)) as [n|]; [|done]. cbn [res_bind].
    destruct (int_of_float (LayoutHilbert.grid_float 90 180 _)) as [m|]; [|done]. cbn [res_bind fst snd].
    unfold EngineHilbert.vec_hilbert_from_xy, EngineHilbert.vec_xy2d. rewrite vec_loop, Z.mul_0_r.
    unfold EngineHilbert.MAXCOORD. change EngineHilbert.SIDE with LayoutHilbert.side. assert (0 <= LayoutHilbert.side - 1) by done.
    replace (Z.max (Z.min n (LayoutHilbert.side - 1)) 0) with (Z.min (Z.max n 0) (LayoutHilbert.side - 1)) by lia.
    replace (Z.max (Z.min m (LayoutHilbert.side - 1)) 0) with (Z.min (Z.max m 0) (LayoutHilbert.side - 1)) by lia.
    unfold LayoutHilbert.hilbert_xy2d. cbv zeta. change (Z.shiftl 1 (Z.of_nat LayoutHilbert.ORDER)) with LayoutHilbert.side.
    by destruct (LayoutHilbert.xy2d_loop _ _ _ _ _ _).
Qed.
