(* ===== verification/LeafSelect.v ===== *)
(** Leaf-cell selection ([select_leaf_cells] of [src/osmpq/build/common.py]):
    the quadtree is split while a cell holds too many nodes. *)
From S2P Require Import Prelude PyStr PyFloat Numpy Cells CellsFacts.

(** [np.concatenate(([0], np.cumsum(counts)))] *)
Fixpoint cumsum (acc : Z) (counts : list Z) : list Z :=
  acc :: match counts with [] => [] | c :: cs => cumsum (acc + c) cs end.

Section Select.
Context `{UnicodeDB} `{Numpy}.

Definition range_count (codes cum : list Z) (lo hi : Z) : res Z :=
  let i0 := searchsorted_left codes lo in
  let i1 := searchsorted_right codes hi in
  let* a := res_of_option IndexError (cum !! i1) in
  let* b := res_of_option IndexError (cum !! i0) in
  Ok (a - b).

(** [recurse(key, depth)], with [left = max_depth - depth] levels to go; the
    keys it appends, in order. *)
Fixpoint recurse (left : nat) (codes cum : list Z) (max_nodes : Z) (key : pystr) : res (list pystr) :=
  let* r := qk_range key in
  let* n := range_count codes cum (fst r) (snd r) in
  let leaf := Ok (if (0 <? n) || (key =s ROOT) then [key] else []) in
  if n <=? max_nodes then leaf
  else match left with
  | O => leaf
  | S left' =>
      let* cs := children key in
      let* parts := res_mapM (recurse left' codes cum max_nodes) cs in
      Ok (concat parts)
  end.

(** [rows] are the (lat_e7, lon_e7) pairs of the node table.  The codes of
    [np.unique] are sorted, so the [argsort] that follows changes nothing. *)
Definition select_leaf_cells (rows : list (Z * Z)) (max_nodes : Z) (max_depth : nat)
  : res (list pystr) :=
  match rows with
  | [] => Ok [ROOT]
  | _ =>
      let* qk := res_mapM (fun r => point_to_qk_np (fst r) (snd r)) rows in
      let cc := unique_counts qk in
      recurse max_depth (map fst cc) (cumsum 0 (map snd cc)) max_nodes ROOT
  end.
End Select.

(** * The count of a range *)

(** How many of [qk] are in a cell. *)
Definition in_range (q : Z) (key : pystr) : bool := (cell_lo key <=? q) && (q <=? cell_hi key).
Definition population (qk : list Z) (key : pystr) : Z :=
  Z.of_nat (length (List.filter (fun q => in_range q key) qk)).

Lemma in_range_cell q key : valid_key key -> in_range q key = true <-> in_cell q key.
Proof. intros Hv. rewrite in_cell_range by done. unfold in_range. rewrite andb_true_iff, !Z.leb_le. done. Qed.

(** Sum of the counts of the codes below position [i]. *)
Definition total (cc : list (Z * Z)) : Z := fold_right (fun p a => snd p + a) 0 cc.

Lemma cumsum_lookup acc cc i :
  (i <= length cc)%nat ->
  cumsum acc (map snd cc) !! i = Some (acc + total (firstn i cc)).
Proof.
  revert acc i. induction cc as [|[c n] cc IH]; intros acc [|i] Hi; cbn [map cumsum firstn total fold_right snd] in *;
    try (simpl in Hi; lia); try (simpl; f_equal; lia).
  cbn. rewrite IH by (simpl in Hi; lia). f_equal. unfold total. lia.
Qed.

Lemma total_app l1 l2 : total (l1 ++ l2) = total l1 + total l2.
Proof. induction l1 as [|[c n] l1 IH]; simpl; [done|]. unfold total in *. simpl. lia. Qed.

Section Count.
Context `{NumpyLaws}.
Variable qk : list Z.
Notation cc := (unique_counts qk).

(** Elements of [qk] whose code is listed in a part of [cc]. *)
Lemma total_filter part :
  (forall p, p ∈ part -> p ∈ cc) -> NoDup (map fst part) ->
  total part = Z.of_nat (length (List.filter (fun q => bool_decide (q ∈ map fst part)) qk)).
Proof.
  induction part as [|[c n] part IH]; intros Hin Hnd.
  - simpl. clear. by induction qk.
  - cbn [map fst] in Hnd. apply NoDup_cons in Hnd as [Hc Hnd]. cbn [total fold_right snd].
    fold (total part). rewrite IH; [|intros p Hp; apply Hin; by right|done].
    rewrite (unique_count qk c n) by (apply Hin; by left). rewrite <- Nat2Z.inj_add. f_equal.
    clear IH Hin Hnd. cbn [map fst].
    induction qk as [|q l IHl]; [done|]. cbn [List.filter]. rewrite filter_cons.
    destruct (decide (q = c)) as [->|Hne].
    + rewrite (bool_decide_eq_false_2 _ Hc), bool_decide_eq_true_2 by (by left). simpl. lia.
    + rewrite (bool_decide_ext (q ∈ c :: map fst part) (q ∈ map fst part)).
      2: { rewrite elem_of_cons. tauto. }
      destruct (bool_decide (q ∈ map fst part)); simpl; lia.
Qed.

Lemma sorted_lt_le l : StronglySorted Z.lt l -> StronglySorted Z.le l.
Proof.
  intros Hs. induction Hs as [|x l Hs IH Hx]; constructor; [done|].
  eapply Forall_impl; [exact Hx|]. intros; simpl in *; lia.
Qed.

Lemma sorted_lt_nodup l : StronglySorted Z.lt l -> NoDup l.
Proof.
  intros Hs. induction Hs as [|x l Hs IH Hx]; constructor; [|done].
  intros Hin. eapply Forall_forall in Hx; [|exact Hin]. lia.
Qed.

(** The cumulated counts give the population of a range. *)
Lemma range_count_spec lo hi :
  lo <= hi ->
  range_count (map fst cc) (cumsum 0 (map snd cc)) lo hi =
    Ok (Z.of_nat (length (List.filter (fun q => (lo <=? q) && (q <=? hi)) qk))).
Proof.
  intros Hlh. pose proof (unique_sorted qk) as Hs. pose proof (sorted_lt_le _ Hs) as Hle.
  unfold range_count. cbv zeta.
  destruct (searchsorted_left_spec _ lo Hle) as (L1 & L2 & L3).
  destruct (searchsorted_right_spec _ hi Hle) as (R1 & R2 & R3).
  set (i0 := searchsorted_left _ lo) in *. set (i1 := searchsorted_right _ hi) in *.
  rewrite length_map in L3, R3. rewrite !cumsum_lookup by done. cbn [res_of_option res_bind]. f_equal.
  rewrite <- (take_drop i0 (firstn i1 cc)) at 1.
  assert (Hi : (i0 <= i1)%nat).
  { destruct (Nat.le_gt_cases i0 i1) as [|Hgt]; [done|]. exfalso.
    destruct (lookup_lt_is_Some_2 (map fst cc) i1) as [c Ec]; [rewrite length_map; lia|].
    assert (E1 : firstn i0 (map fst cc) !! i1 = Some c) by (by rewrite lookup_take_lt by lia).
    assert (E2 : skipn i1 (map fst cc) !! 0%nat = Some c) by (by rewrite lookup_drop, Nat.add_0_r).
    eapply Forall_lookup in L1; [|exact E1]. eapply Forall_lookup in R2; [|exact E2]. simpl in *. lia. }
  rewrite total_app, take_take. replace (i0 `min` i1)%nat with i0 by lia.
  set (part := drop i0 (take i1 cc)).
  assert (Hpart : map fst part = drop i0 (take i1 (map fst cc)))
    by (unfold part; by rewrite <- skipn_map, <- firstn_map).
  rewrite (total_filter part).
  - rewrite Z.add_0_l. match goal with |- ?a + ?b - _ = _ => replace (a + b - (0 + a)) with b by lia end.
    do 2 f_equal. apply List.filter_ext_in. intros q Hq%list_elem_of_In.
    apply unique_mem in Hq. apply eq_true_iff_eq.
    rewrite bool_decide_eq_true, andb_true_iff, !Z.leb_le, Hpart.
    rewrite <- (take_drop i1 (map fst cc)), <- (take_drop i0 (take i1 (map fst cc))) in Hq.
    rewrite take_take in Hq. replace (i0 `min` i1)%nat with i0 in Hq by lia.
    rewrite !elem_of_app in Hq. split.
    + intros Hin. split.
      * assert (Hin' : q ∈ drop i0 (map fst cc)).
        { apply list_elem_of_lookup in Hin as [j Ej].
          rewrite lookup_drop in Ej. apply lookup_take_Some in Ej as [Ej _].
          apply list_elem_of_lookup. exists j. by rewrite lookup_drop. }
        eapply Forall_forall in L2; [|exact Hin']. done.
      * assert (Hin' : q ∈ take i1 (map fst cc)).
        { apply list_elem_of_lookup in Hin as [j Ej]. rewrite lookup_drop in Ej.
          apply list_elem_of_lookup. by eexists. }
        eapply Forall_forall in R1; [|exact Hin']. done.
    + intros [H1 H2]. destruct Hq as [[Hq|Hq]|Hq]; [|done|].
      * eapply Forall_forall in L1; [|exact Hq]. simpl in L1. lia.
      * eapply Forall_forall in R2; [|exact Hq]. simpl in R2. lia.
  - intros p Hp. unfold part in Hp. apply list_elem_of_lookup in Hp as [j Ej].
    rewrite lookup_drop in Ej. apply lookup_take_Some in Ej as [Ej _].
    by eapply list_elem_of_lookup_2.
  - rewrite Hpart. apply sorted_lt_nodup in Hs.
    eapply sublist_NoDup; [exact Hs|etrans; [apply sublist_drop|apply sublist_take]].
Qed.
End Count.

(** * Lists of lists *)
Lemma elem_of_concat_lookup {A} (x : A) ls :
  x ∈ concat ls <-> exists i l, ls !! i = Some l /\ x ∈ l.
Proof.
  rewrite list_elem_of_In, in_concat. split.
  - intros (l & Hl & Hx). apply list_elem_of_In, list_elem_of_lookup in Hl as [i Ei].
    exists i, l. split; [done|]. by apply list_elem_of_In.
  - intros (i & l & Ei & Hx). exists l. split; apply list_elem_of_In; [|done].
    by eapply list_elem_of_lookup_2.
Qed.

Lemma nodup_concat {A} (ls : list (list A)) :
  (forall i l, ls !! i = Some l -> NoDup l) ->
  (forall i j l1 l2 x, ls !! i = Some l1 -> ls !! j = Some l2 -> x ∈ l1 -> x ∈ l2 -> i = j) ->
  NoDup (concat ls).
Proof.
  induction ls as [|l ls IH]; intros Hnd Hdisj; cbn [concat]; [constructor|].
  apply NoDup_app. split_and!.
  - by apply (Hnd 0%nat).
  - intros x Hx Hx'. apply elem_of_concat_lookup in Hx' as (j & l' & Ej & Hx').
    specialize (Hdisj 0%nat (S j) l l' x eq_refl Ej Hx Hx'). done.
  - apply IH; [intros i; apply (Hnd (S i))|].
    intros i j l1 l2 x Ei Ej H1 H2. specialize (Hdisj (S i) (S j) l1 l2 x Ei Ej H1 H2). lia.
Qed.

(** * What the selection guarantees *)

(** [ls] are the leaves below [key], [left] levels deep at most. *)
Record selection (qk : list Z) (max_nodes : Z) (left : nat) (key : pystr) (ls : list pystr) : Prop := {
  sel_below : forall k, k ∈ ls -> valid_key k /\ (k = key \/ is_ancestor key k);
  sel_antichain : forall k1 k2, k1 ∈ ls -> k2 ∈ ls -> ~ is_ancestor k1 k2;
  sel_nodup : NoDup ls;
  sel_cover : forall q, q ∈ qk -> in_cell q key -> exists k, k ∈ ls /\ in_cell q k;
  sel_occupied : forall k, k ∈ ls -> 0 < population qk k \/ k = ROOT;
  sel_small : forall k, k ∈ ls ->
    population qk k <= max_nodes \/ depth_of k = (depth_of key + left)%nat;
  sel_needed : forall k p, k ∈ ls -> k <> key -> parent k = Some p -> max_nodes < population qk p
}.

Section Selection.
Context `{UnicodeDB} `{NumpyLaws}.
Variable qk : list Z.
Variable max_nodes : Z.
Notation codes := (map fst (unique_counts qk)).
Notation cum := (cumsum 0 (map snd (unique_counts qk))).

Lemma population_range key :
  valid_key key -> range_count codes cum (cell_lo key) (cell_hi key) = Ok (population qk key).
Proof.
  intros Hv. pose proof (width_pos _ (proj1 (proj2 Hv))). apply range_count_spec.
  unfold cell_lo, cell_hi. lia.
Qed.

Lemma population_positive q key :
  valid_key key -> q ∈ qk -> in_cell q key -> 0 < population qk key.
Proof.
  intros Hv Hq Hin. unfold population.
  assert (In q (List.filter (fun q => in_range q key) qk)).
  { apply filter_In. split; [by apply list_elem_of_In|]. by apply in_range_cell. }
  destruct (List.filter _ qk); [done|simpl; lia].
Qed.

(** A key with no nodes above [max_nodes] to split is itself the leaf. *)
Lemma selection_leaf left key :
  valid_key key -> (left = 0%nat \/ population qk key <= max_nodes) ->
  selection qk max_nodes left key (if (0 <? population qk key) || (key =s ROOT) then [key] else []).
Proof.
  intros Hv Hl. destruct (_ || _) eqn:E.
  - apply orb_true_iff in E. split.
    + intros k ->%list_elem_of_singleton. auto.
    + intros k1 k2 ->%list_elem_of_singleton ->%list_elem_of_singleton. by apply ancestor_irrefl.
    + apply NoDup_singleton.
    + intros q _ Hq. exists key. split; [by left|done].
    + intros k ->%list_elem_of_singleton. destruct E as [E|E]; [left; by apply Z.ltb_lt|right; by apply str_eqb_eq].
    + intros k ->%list_elem_of_singleton. destruct Hl; [right; lia|by left].
    + intros k p ->%list_elem_of_singleton. done.
  - apply orb_false_iff in E as [E _]. apply Z.ltb_ge in E. split; try (intros; by (set_solver)).
    + constructor.
    + intros q Hq Hin. pose proof (population_positive _ _ Hv Hq Hin). lia.
Qed.

(** Leaves of the children together. *)
Lemma selection_children left key cs parts :
  valid_key key -> max_nodes < population qk key ->
  Forall (fun c => valid_key c /\ parent c = Some key /\ depth_of c = S (depth_of key)) cs ->
  NoDup cs ->
  (forall q, in_cell q key <->
     exists c, c ∈ cs /\ in_cell q c /\ forall c', c' ∈ cs -> in_cell q c' -> c' = c) ->
  Forall2 (selection qk max_nodes left) cs parts ->
  selection qk max_nodes (S left) key (concat parts).
Proof.
  intros Hv Hmax Hcs Hnd Hsplit Hsel.
  assert (Hmem : forall k, k ∈ concat parts -> exists i c ls, cs !! i = Some c /\ parts !! i = Some ls /\
    k ∈ ls /\ selection qk max_nodes left c ls /\ valid_key c /\ parent c = Some key /\
    depth_of c = S (depth_of key) /\ valid_key k /\ forall q, in_cell q k -> in_cell q c).
  { intros k Hk. apply elem_of_concat_lookup in Hk as (i & ls & Ei & Hk).
    destruct (Forall2_lookup_r _ _ _ _ _ Hsel Ei) as (c & Ec & Hc).
    pose proof (Forall_lookup_1 _ _ _ _ Hcs Ec) as (? & ? & ?).
    destruct (sel_below _ _ _ _ _ Hc k Hk) as [Hvk Hkc].
    exists i, c, ls. split_and!; try done. intros q Hq. destruct Hkc as [->|Ha]; [done|].
    by eapply ancestor_contains. }
  assert (Huniq : forall i1 i2 c1 c2 q, cs !! i1 = Some c1 -> cs !! i2 = Some c2 ->
    in_cell q c1 -> in_cell q c2 -> i1 = i2).
  { intros i1 i2 c1 c2 q E1 E2 I1 I2.
    pose proof (Forall_lookup_1 _ _ _ _ Hcs E1) as (Hv1 & Hp1 & _).
    assert (in_cell q key) as (c & _ & _ & Hu)%Hsplit.
    { eapply ancestor_contains; [exact Hv1|by apply parent_ancestor|done]. }
    eapply NoDup_lookup; [exact Hnd|exact E1|].
    rewrite E2. f_equal. trans c; [|symmetry]; (apply Hu; [by eapply list_elem_of_lookup_2|done]). }
  split.
  - intros k (i & c & ls & _ & _ & Hk & Hs & Hvc & Hp & _ & Hvk & _)%Hmem. split; [done|]. right.
    destruct (sel_below _ _ _ _ _ Hs k Hk) as [_ [->|Ha]]; [by apply parent_ancestor|].
    eapply (ancestor_trans key c k); [done|by apply parent_ancestor|done].
  - intros k1 k2 (i1 & c1 & ls1 & E1 & L1 & Hk1 & Hs1 & _ & _ & _ & Hv1 & I1)%Hmem
      (i2 & c2 & ls2 & E2 & L2 & Hk2 & Hs2 & _ & _ & _ & Hv2 & I2)%Hmem Ha.
    pose proof (in_cell_lo k2 Hv2) as Hlo.
    assert (i1 = i2) as <-.
    { apply (Huniq i1 i2 c1 c2 (cell_lo k2)); [done..| |by apply I2]. apply I1. by eapply ancestor_contains. }
    assert (ls1 = ls2) as <- by congruence. by eapply sel_antichain in Ha.
  - apply nodup_concat.
    + intros i ls Ei. destruct (Forall2_lookup_r _ _ _ _ _ Hsel Ei) as (c & Ec & Hc). apply Hc.
    + intros i j ls1 ls2 k Ei Ej Hk1 Hk2.
      destruct (Forall2_lookup_r _ _ _ _ _ Hsel Ei) as (c1 & E1 & Hs1).
      destruct (Forall2_lookup_r _ _ _ _ _ Hsel Ej) as (c2 & E2 & Hs2).
      destruct (sel_below _ _ _ _ _ Hs1 k Hk1) as [Hvk B1], (sel_below _ _ _ _ _ Hs2 k Hk2) as [_ B2].
      pose proof (in_cell_lo k Hvk) as Hlo.
      apply (Huniq i j c1 c2 (cell_lo k)); [done..| |].
      * destruct B1 as [->|]; [done|by apply (ancestor_contains c1 k)].
      * destruct B2 as [->|]; [done|by apply (ancestor_contains c2 k)].
  - intros q Hq Hin. apply Hsplit in Hin as (c & Hc & Hqc & _).
    apply list_elem_of_lookup in Hc as [i Ei].
    destruct (Forall2_lookup_l _ _ _ _ _ Hsel Ei) as (ls & El & Hs).
    destruct (sel_cover _ _ _ _ _ Hs q Hq Hqc) as (k & Hk & Hkq). exists k. split; [|done].
    apply elem_of_concat_lookup. eauto.
  - intros k (i & c & ls & _ & _ & Hk & Hs & _)%Hmem. by eapply sel_occupied.
  - intros k (i & c & ls & _ & _ & Hk & Hs & _ & _ & Hd & _)%Hmem.
    destruct (sel_small _ _ _ _ _ Hs k Hk); [by left|right; lia].
  - intros k p (i & c & ls & _ & _ & Hk & Hs & _ & Hpc & _)%Hmem _ Hp.
    destruct (decide (k = c)) as [->|Hne]; [|by eapply sel_needed].
    rewrite Hpc in Hp. injection Hp as <-. done.
Qed.

Lemma recurse_selection left key :
  valid_key key -> (depth_of key + left <= MAX_DEPTH)%nat ->
  exists ls, recurse left codes cum max_nodes key = Ok ls /\ selection qk max_nodes left key ls.
Proof.
  revert key. induction left as [|left IH]; intros key Hv Hd; cbn [recurse];
    rewrite qk_range_path by done; cbn [res_bind fst snd];
    fold (cell_lo key) (cell_hi key); rewrite population_range by done; cbn [res_bind].
  - eexists. split; [by destruct (_ <=? _)|]. apply selection_leaf; auto.
  - destruct (Z.leb_spec (population qk key) max_nodes).
    { eexists. split; [done|]. apply selection_leaf; auto. }
    destruct (children_cells key Hv ltac:(lia)) as (cs & -> & _ & Hnd & Hcs & Hsplit). cbn [res_bind].
    assert (Hparts : exists parts, res_mapM (recurse left codes cum max_nodes) cs = Ok parts /\
      Forall2 (selection qk max_nodes left) cs parts).
    { assert (Hcs' : Forall (fun c => valid_key c /\ depth_of c = S (depth_of key)) cs)
        by (eapply Forall_impl; [exact Hcs|]; naive_solver).
      clear Hcs Hsplit Hnd.
      induction Hcs' as [|c cs [Hvc Hdc] _ (parts & E & F)]; [by exists []|].
      destruct (IH c Hvc ltac:(lia)) as (ls & El & Hls). exists (ls :: parts).
      cbn [res_mapM]. rewrite El. cbn [res_bind]. rewrite E. split; [done|by constructor]. }
    destruct Hparts as (parts & -> & F). eexists. split; [done|].
    by apply (selection_children left key cs parts).
Qed.
End Selection.

Lemma qk_np_bound lat lon q : point_to_qk_np lat lon = Ok q -> 0 <= q < 4 ^ 20.
Proof.
  unfold point_to_qk_np. cbv zeta. destruct (floor_of_float _); [|done]. cbn [res_bind].
  destruct (floor_of_float _); [|done]. cbn [res_bind]. intros [= <-]. apply qk_code_path.
Qed.

Lemma valid_root : valid_key ROOT.
Proof. split_and!; [constructor|simpl; unfold MAX_DEPTH; lia|done]. Qed.

Lemma in_cell_root q : 0 <= q < 4 ^ 20 -> in_cell q ROOT.
Proof. intros Hq. apply in_cell_prefix; [apply valid_root|done|done]. Qed.

(** C24: leaf-cell selection.  For any table of nodes with computable codes
    and a depth limit of at most 20, the recursion ends and returns leaves
    without duplicates or nesting; every node's code is in exactly one leaf;
    every leaf but the root holds a node; a leaf above the depth limit holds
    at most [max_nodes] nodes, and no cell was split that did not have to
    be. *)
Theorem select_leaf_cells_correct `{UnicodeDB} `{NumpyLaws} (rows : list (Z * Z)) (qk : list Z)
    (max_nodes : Z) (max_depth : nat) :
  (max_depth <= MAX_DEPTH)%nat -> rows <> [] ->
  res_mapM (fun r => point_to_qk_np (fst r) (snd r)) rows = Ok qk ->
  exists leaves, select_leaf_cells rows max_nodes max_depth = Ok leaves /\
    leaf_set leaves /\ NoDup leaves /\
    (forall q, q ∈ qk -> exists k, k ∈ leaves /\ in_cell q k /\
       forall k', k' ∈ leaves -> in_cell q k' -> k' = k) /\
    (forall k, k ∈ leaves ->
       (0 < population qk k \/ k = ROOT) /\
       (population qk k <= max_nodes \/ depth_of k = max_depth) /\
       (forall p, parent k = Some p -> max_nodes < population qk p)).
Proof.
  intros Hmd Hne Hqk. unfold select_leaf_cells. destruct rows as [|r rows]; [done|]. rewrite Hqk.
  cbn [res_bind]. cbv zeta.
  destruct (recurse_selection qk max_nodes max_depth ROOT valid_root) as (ls & E & S); [done|].
  exists ls. assert (Hset : leaf_set ls).
  { split; [|apply S]. apply Forall_forall. intros k Hk. by apply (sel_below _ _ _ _ _ S). }
  split_and!; [done|done|apply S| |].
  - intros q Hq.
    assert (Hb : 0 <= q < 4 ^ 20).
    { apply res_mapM_Ok in Hqk. apply list_elem_of_lookup in Hq as [i Ei].
      destruct (Forall2_lookup_r _ _ _ _ _ Hqk Ei) as (x & _ & Hx). by eapply qk_np_bound. }
    destruct (sel_cover _ _ _ _ _ S q Hq (in_cell_root q Hb)) as (k & Hk & Hin).
    exists k. split_and!; [done|done|]. intros k' Hk' Hin'. by eapply leaf_set_meet.
  - intros k Hk. split_and!; [by eapply sel_occupied|by destruct (sel_small _ _ _ _ _ S k Hk); auto|].
    intros p Hp. eapply sel_needed; [exact S|done| |done]. intros ->. done.
Qed.

#[local] Existing Instance spec_numpy.
#[local] Existing Instance spec_numpy_laws.

Definition sample_rows : list (Z * Z) :=
  [(525000000, 134000000); (525000900, 134000900); (-338000000, 1512000000); (407000000, -740000000)].

Theorem select_leaf_cells_correct_witness :
  select_leaf_cells (H:=latin1_db) sample_rows 2 12 = Ok [u "0"; u "1"; u "3"] /\
  exists qk leaves, res_mapM (fun r => point_to_qk_np (fst r) (snd r)) sample_rows = Ok qk /\
    select_leaf_cells (H:=latin1_db) sample_rows 2 12 = Ok leaves /\
    leaf_set leaves /\ NoDup leaves.
Proof.
  split; [vm_compute; reflexivity|].
  assert (E : exists qk, res_mapM (fun r => point_to_qk_np (fst r) (snd r)) sample_rows = Ok qk)
    by (eexists; vm_compute; reflexivity).
  destruct E as [qk E].
  destruct (select_leaf_cells_correct (H:=latin1_db) sample_rows qk 2 12%nat) as (ls & E2 & H1 & H2 & _);
    [vm_compute; lia|discriminate|exact E|].
  exists qk, ls. split; [exact E|]. split; [exact E2|]. split; [exact H1|exact H2].
Defined.
