(* ===== verification/CellSelectFacts.v ===== *)
(** Facts about file selection: which cells a bbox query reads, and that
    pruning by row group or by id range never drops a file that matters. *)
From S2P Require Import Prelude PyStr PyFloat Json Numpy Cells CellsFacts Catalog CellSelect.

(** * The engine's geometry is the layout's *)
Lemma cell_bbox_loop_eq key s w n e :
  cell_bbox_loop key s w n e = Cells.cell_bbox_from (s, w, n, e) key.
Proof.
  revert s w n e; induction key as [|d key IH]; intros s w n e; [done|].
  cbn [cell_bbox_loop Cells.cell_bbox_from]. unfold quadrant, midpoint.
  destruct (Z.eqb_spec d 48) as [->|H0]; [by rewrite IH|].
  destruct (Z.eqb_spec d 49) as [->|H1]; [by rewrite IH|].
  destruct (Z.eqb_spec d 50) as [->|H2]; [by rewrite IH|].
  destruct (Z.eqb_spec d 51) as [->|H3]; [by rewrite IH|].
  destruct d as [|p|p]; try done. do 6 (destruct p as [p|p|]; try done).
Qed.

Lemma cell_bbox_eq key : CellSelect.cell_bbox key = Cells.cell_bbox key.
Proof.
  unfold CellSelect.cell_bbox, Cells.cell_bbox, WORLD_BBOX, WORLD. change (u "root") with ROOT.
  destruct (key =s ROOT); [done|]. apply cell_bbox_loop_eq.
Qed.

(** * Sets of keys *)
Lemma elem_of_filter_str_in (c : pystr) (l present : list pystr) :
  c ∈ base.filter (fun c => str_in c present = true) l <-> c ∈ l /\ c ∈ present.
Proof. rewrite list_elem_of_filter, str_in_spec. tauto. Qed.

Lemma leaves_meeting_spec leaves bbox hits :
  leaves_meeting leaves bbox = Ok hits ->
  forall leaf, leaf ∈ hits <->
    leaf ∈ leaves /\ exists b, CellSelect.cell_bbox leaf = Ok b /\ CellSelect.bbox_intersects bbox b = true.
Proof.
  revert hits; induction leaves as [|l leaves IH]; intros hits; cbn [leaves_meeting].
  - intros [= <-] leaf. rewrite elem_of_nil. naive_solver.
  - intros (b & Hb & H1)%res_bind_Ok. apply res_bind_Ok in H1 as (hs & Hh & H1).
    specialize (IH _ Hh). injection H1 as <-. intros leaf.
    destruct (CellSelect.bbox_intersects bbox b) eqn:Ei; rewrite ?elem_of_cons, IH.
    + split; [intros [->|[H1 H2]]; eauto|]. intros [[->|H1] H2]; auto.
    + split; [intros [H1 H2]; eauto|]. intros [[->|H1] (b' & Hb' & Hi)]; [congruence|eauto].
Qed.

Lemma extra_cells_spec cells wanted bbox out :
  extra_cells cells wanted bbox = Ok out ->
  forall c, c ∈ out <-> c ∈ cells /\ c ∉ wanted /\
    exists b, CellSelect.cell_bbox c = Ok b /\ CellSelect.bbox_intersects bbox b = true.
Proof.
  revert out; induction cells as [|x cells IH]; intros out; cbn [extra_cells].
  - intros [= <-] c. rewrite elem_of_nil. naive_solver.
  - intros (more & Hm & H1)%res_bind_Ok. specialize (IH _ Hm).
    destruct (str_in x wanted) eqn:Ex.
    + apply str_in_spec in Ex. injection H1 as <-. intros c. rewrite IH, elem_of_cons. naive_solver.
    + assert (Hx : x ∉ wanted) by (intros H; apply str_in_spec in H; congruence).
      apply res_bind_Ok in H1 as (b & Hb & H1). injection H1 as <-. intros c.
      destruct (CellSelect.bbox_intersects bbox b) eqn:Ei; rewrite ?elem_of_cons, IH.
      * split; [intros [->|H1]; naive_solver|]. intros ([->|H1] & H2 & H3); [by left | by right].
      * split; [naive_solver|]. intros ([->|H1] & H2 & b' & Hb' & Hi); [congruence|naive_solver].
Qed.

(** The cells a leaf brings into a selection. *)
Definition brought_by (version : Z) (depths : list Z) (table leaf c : pystr) : Prop :=
  if (2 <=? version) && str_in table [u "way"; u "relation"; u "area"]
  then c = leaf \/ exists d, d ∈ 0 :: depths /\ d <= Z.of_nat (length leaf) /\ c = _ancestor_at_depth leaf d
  else c = u "root" \/ exists i, (1 <= i <= length leaf)%nat /\ leaf <> u "root" /\ c = take i leaf.

Lemma wanted_cells_spec version depths table leaves c :
  c ∈ wanted_cells version depths table leaves <->
  exists leaf, leaf ∈ leaves /\ brought_by version depths table leaf c.
Proof.
  unfold wanted_cells, brought_by. destruct ((2 <=? version) && _).
  - rewrite list_elem_of_In, in_flat_map. setoid_rewrite <- list_elem_of_In.
    apply exist_proper; intros leaf. apply and_iff_compat_l. unfold leaf_cells_at.
    rewrite elem_of_cons, list_elem_of_omap. apply or_iff_compat_l.
    split.
    + intros (d & Hd & E). destruct (Z.leb_spec d (Z.of_nat (length leaf))); [|done].
      injection E as <-. eauto.
    + intros (d & Hd & Hl & ->). exists d. split; [done|]. by rewrite (proj2 (Z.leb_le _ _) Hl).
  - rewrite list_elem_of_In, in_flat_map. setoid_rewrite <- list_elem_of_In.
    apply exist_proper; intros leaf. apply and_iff_compat_l. unfold ancestors_and_self.
    destruct (leaf =s u "root") eqn:E.
    + apply str_eqb_eq in E as ->. rewrite list_elem_of_singleton. naive_solver.
    + apply str_eqb_neq in E. rewrite elem_of_cons, elem_of_map. apply or_iff_compat_l.
      setoid_rewrite elem_of_seq. split.
      * intros (i & -> & Hi). exists i. split; [lia|done].
      * intros (i & Hi & _ & ->). exists i. split; [done|lia].
Qed.

Section Select.
Context `{UnicodeDB}.

(** What [cells_for_bbox] reads from the manifest. *)
Record selection_inputs (m : Manifest) (table : pystr) (leaves base delta : list pystr)
    (version : Z) (depths : list Z) : Prop := {
  si_leaves : leaf_cells m = Ok leaves;
  si_base : (let* cells := table_cells m table in res_map (map fst) (items cells)) = Ok base;
  si_delta : delta_present_cells m table = Ok delta;
  si_version : manifest_version m = Ok version;
  si_depths : 2 <= version -> str_in table [u "way"; u "relation"; u "area"] = true ->
              ancestor_depths m = Ok depths
}.

Lemma cells_for_bbox_spec m table bbox out :
  CellSelect.cells_for_bbox m table (Some bbox) = Ok out ->
  exists leaves base delta version depths,
    selection_inputs m table leaves base delta version depths /\
    StronglySorted str_le out /\ NoDup out /\
    forall c, c ∈ out <-> c ∈ base ++ delta /\
      ((exists leaf b, leaf ∈ leaves /\ CellSelect.cell_bbox leaf = Ok b /\
          CellSelect.bbox_intersects bbox b = true /\ brought_by version depths table leaf c) \/
       (c ∉ base /\ exists b, CellSelect.cell_bbox c = Ok b /\ CellSelect.bbox_intersects bbox b = true)).
Proof.
  unfold CellSelect.cells_for_bbox. intros (cells & Hc & H1)%res_bind_Ok.
  apply res_bind_Ok in H1 as (its & Hi & H1). apply res_bind_Ok in H1 as (delta & Hd & H1).
  unfold _cells_for_present in H1. apply res_bind_Ok in H1 as (hits & Hh & H1).
  apply res_bind_Ok in H1 as (version & Hv & H1). apply res_bind_Ok in H1 as (depths & Hdp & H1).
  apply res_bind_Ok in H1 as (extra & He & H1). injection H1 as <-.
  unfold leaves_intersecting in Hh. apply res_bind_Ok in Hh as (leaves & Hl & Hh).
  pose proof (leaves_meeting_spec _ _ _ Hh) as Hhits. pose proof (extra_cells_spec _ _ _ _ He) as Hextra.
  exists leaves, (map fst its), delta, version, depths.
  split_and!; [|apply sorted_set_sorted|apply sorted_set_nodup|].
  { split; [done| |done|done|].
    - rewrite Hc. cbn [res_bind]. by rewrite Hi.
    - intros H2 H3. rewrite (proj2 (Z.leb_le _ _) H2), H3 in Hdp. exact Hdp. }
  intros c. rewrite elem_of_sorted_set, elem_of_filter_str_in, elem_of_app, Hextra.
  rewrite list_elem_of_filter, negb_true_iff, <- not_true_iff_false, str_in_spec, wanted_cells_spec.
  setoid_rewrite Hhits. split.
  - intros [[Hw|(Hx & _ & Hb)] Hp]; (split; [done|]).
    + left. destruct Hw as (leaf & (Hin & b & Hb & Hi') & Hbr). exists leaf, b. done.
    + right. destruct Hx as [Hx _]. done.
  - intros [Hp [(leaf & b & Hin & Hb & Hi' & Hbr)|(Hx & Hb)]]; (split; [|done]).
    + left. exists leaf. eauto.
    + destruct (str_in c (wanted_cells version depths table hits)) eqn:Ew.
      * left. apply str_in_spec, wanted_cells_spec in Ew as (leaf & Hl' & Hbr).
        exists leaf. split; [by apply Hhits|done].
      * right. split_and!; [done|done| |done]. intros (leaf & Hl' & Hbr).
        assert (Ew' : str_in c (wanted_cells version depths table hits) = true).
        { apply str_in_spec, wanted_cells_spec. exists leaf. split; [by apply Hhits|done]. }
        congruence.
Qed.

(** C31: the cells a bbox query reads are exactly the present ones (base or
    delta) that are an intersecting leaf, one of its ancestors (every ancestor
    before manifest v2 and for nodes, those at an allowed depth or the root
    otherwise), or a cell declared by a delta only whose own box meets the
    query; sorted and without duplicates.  Boxes are those of the layout. *)
Theorem cells_for_bbox_exact m table bbox out :
  CellSelect.cells_for_bbox m table (Some bbox) = Ok out ->
  exists leaves base delta version depths,
    selection_inputs m table leaves base delta version depths /\
    StronglySorted str_le out /\ NoDup out /\
    forall c, c ∈ out <-> c ∈ base ++ delta /\
      ((exists leaf b, leaf ∈ leaves /\ Cells.cell_bbox leaf = Ok b /\
          CellSelect.bbox_intersects bbox b = true /\ brought_by version depths table leaf c) \/
       (c ∉ base /\ exists b, Cells.cell_bbox c = Ok b /\ CellSelect.bbox_intersects bbox b = true)).
Proof.
  intros Ho. destruct (cells_for_bbox_spec _ _ _ _ Ho) as (l & b & d & v & ds & Hi & Hs & Hn & Hc).
  exists l, b, d, v, ds. split_and!; [done..|]. intros c. rewrite Hc. by setoid_rewrite cell_bbox_eq.
Qed.

(** * Id ranges *)
Lemma filterM_Ok {A} (f : A -> res bool) l out :
  filterM f l = Ok out -> forall x, x ∈ out <-> x ∈ l /\ f x = Ok true.
Proof.
  revert out; induction l as [|y l IH]; intros out; cbn [filterM].
  { intros [= <-] x. rewrite elem_of_nil. tauto. }
  intros (b & Hb & H1)%res_bind_Ok. apply res_bind_Ok in H1 as (r & Hr & H1). injection H1 as <-.
  intros x. destruct b; rewrite ?elem_of_cons, (IH _ Hr x).
  - split; [intros [->|[]]; auto|]. intros [[->|]]; auto.
  - split; [intros []; auto|]. intros [[->|] Hx]; [congruence|auto].
Qed.

(** [min_id <= i <= max_id] *)
Definition part_covers (p : json) (i : Z) : Prop :=
  exists mn mx, getitem p (u "min_id") = Ok (JInt mn) /\ getitem p (u "max_id") = Ok (JInt mx) /\
    mn <= i <= mx.

Lemma parts_for_range_keeps parts lo hi out :
  parts_for_range parts (Some lo) (Some hi) = Ok out ->
  (forall p, p ∈ out -> p ∈ parts) /\
  forall p i, p ∈ parts -> part_covers p i -> lo <= i <= hi -> p ∈ out.
Proof.
  unfold parts_for_range. intros (b & _ & H1)%res_bind_Ok. destruct b; cbn [negb] in H1.
  - pose proof (filterM_Ok _ _ _ H1) as Hf. split; [intros p Hp; by apply Hf|].
    intros p i Hp (mn & mx & Hmn & Hmx & Hi) Hr. apply Hf. split; [done|]. unfold overlaps.
    rewrite Hmx. cbn [res_bind ge_int]. rewrite (proj2 (Z.leb_le lo mx)) by lia. cbn [negb res_bind].
    rewrite Hmn. cbn [res_bind le_int]. by rewrite (proj2 (Z.leb_le mn hi)) by lia.
  - injection H1 as <-. auto.
Qed.

(** * Row groups *)

(** The row groups the index file gives for a file. *)
Definition row_box (m : Manifest) (f : pystr) (r : rowgroup_row) : option RowGroupBBox :=
  match r with
  | (Some relp, Some xmin, Some ymin, Some xmax, Some ymax) =>
      if path m relp =s f then Some (xmin, ymin, xmax, ymax) else None
  | _ => None
  end.

Lemma rowgroup_boxes m rows f idx :
  default [] (dict_get f (fold_left (add_rowgroup m) rows idx)) =
  default [] (dict_get f idx) ++ omap (row_box m f) rows.
Proof.
  revert idx; induction rows as [|r rows IH]; intros idx; [by rewrite app_nil_r|].
  cbn [fold_left]. rewrite IH. cbn [omap list_omap].
  destruct r as [[[[relp xmin] ymin] xmax] ymax]. unfold add_rowgroup, row_box.
  destruct relp, xmin, ymin, xmax, ymax; try done.
  rewrite dict_get_set. destruct (path m _ =s f) eqn:E; [|done].
  apply str_eqb_eq in E as ->. cbn [from_option id]. by rewrite <- app_assoc.
Qed.

(** A point of a box, edges included. *)
Definition box_point (b : RowGroupBBox) (x y : Z) : Prop :=
  let '(x0, y0, x1, y1) := b in x0 <= x <= x1 /\ y0 <= y <= y1.

Lemma box_meets_point q b x y : box_point q x y -> box_point b x y -> box_meets q b = true.
Proof.
  destruct q as [[[? ?] ?] ?], b as [[[? ?] ?] ?]. unfold box_point, box_meets.
  intros. rewrite !andb_true_iff, !Z.leb_le. lia.
Qed.

(** The cached indexes of a manifest are the ones its index files hold.  The
    cache starts empty and the files of a published manifest do not change. *)
Definition cache_ok (read_rows : pystr -> option (list rowgroup_row)) m (cache : rowgroup_cache) : Prop :=
  forall table idx, dict_get table cache = Some idx -> _load_rowgroup_index read_rows m table = Ok idx.
Lemma rowgroup_index_cached read_rows m table cache r cache' : cache_ok read_rows m cache ->
  _rowgroup_index_for read_rows m table cache = (r, cache') ->
  r = _load_rowgroup_index read_rows m table /\ cache_ok read_rows m cache'.
Proof.
  intros Hc. unfold _rowgroup_index_for. destruct (dict_get table cache) as [idx|] eqn:E; [intros [= <- <-]; by rewrite (Hc _ _ E)|].
  destruct (_load_rowgroup_index read_rows m table) as [idx|] eqn:El; intros [= <- <-]; [|done]. split; [done|].
  intros t i. rewrite dict_get_set. destruct (table =s t) eqn:Et; [|exact (Hc t i)]. apply str_eqb_eq in Et as <-. by intros [= <-].
Qed.
(** A loaded index keeps the files that may matter. *)
Lemma loaded_index_keeps read_rows m table idx f q : _load_rowgroup_index read_rows m table = Ok (Some idx) ->
  (forall rel p rows, rowgroup_index_paths m = Ok rel -> dict_get table rel = Some (JStr p) -> read_rows (path m p) = Some rows ->
     omap (row_box m f) rows = [] \/ exists r b x y, r ∈ rows /\ row_box m f r = Some b /\ box_point q x y /\ box_point b x y) ->
  keep_file idx q f = true.
Proof.
  intros El Hbox. unfold _load_rowgroup_index in El. apply res_bind_Ok in El as (rel & Hrel & El).
  destruct (dict_get table rel) as [v|] eqn:Ev; [|done].
  destruct (negb (truthy v)); [done|]. apply res_bind_Ok in El as (p & Hpv & El).
  destruct v; try discriminate. injection Hpv as ->.
  destruct (read_rows (path m p)) as [rows|] eqn:Er; [|done]. injection El as <-.
  unfold keep_file.
  assert (Hb : default [] (dict_get f (fold_left (add_rowgroup m) rows [])) = omap (row_box m f) rows)
    by exact (rowgroup_boxes m rows f []).
  destruct (dict_get f _) as [boxes|] eqn:Eb; [|done].
  change (boxes = omap (row_box m f) rows) in Hb. subst boxes.
  destruct (Hbox rel p rows Hrel Ev Er) as [->|(r & b & x & y & Hr & Hrb & Hq & Hm)]; [done|].
  apply (box_meets_point q) in Hm; [|done].
  assert (Hin : b ∈ omap (row_box m f) rows) by (apply list_elem_of_omap; eauto).
  destruct (omap (row_box m f) rows) as [|b0 bs] eqn:Eo; [done|].
  apply existsb_exists. exists b. split; [by apply list_elem_of_In|done].
Qed.

(** C32: choosing files never loses data. Pruning by row group drops only files
    none of whose indexed row groups shares a point with the query box, and no
    file without index entries, whatever the order of the index file. That
    holds for an index read now and for one taken from the manifest's cache:
    the empty cache is right, a right cache stays right with every use, and
    with it pruning is what it is without. Choosing by-id parts keeps every part
    whose id range holds one of the ids. *)
Theorem file_selection_complete m table :
  (forall read_rows, cache_ok read_rows m []) /\
  (forall read_rows files bbox cache stats r c st, cache_ok read_rows m cache ->
     prune_files_by_bbox read_rows m table files bbox cache stats = (r, c, st) ->
     cache_ok read_rows m c /\ r = (prune_files_by_bbox read_rows m table files bbox [] stats).1.1 /\
     forall out, r = Ok out ->
     (forall f, f ∈ out -> f ∈ files) /\
     forall f, f ∈ files ->
       (forall rel p rows, rowgroup_index_paths m = Ok rel -> dict_get table rel = Some (JStr p) ->
          read_rows (path m p) = Some rows ->
          omap (row_box m f) rows = [] \/
          exists r b x y, r ∈ rows /\ row_box m f r = Some b /\ box_point bbox x y /\ box_point b x y) ->
       f ∈ out) /\
  (forall ids out parts, byid_parts_for_ids m table ids = Ok out -> byid_parts m table = Ok parts ->
     forall p i, p ∈ parts -> i ∈ ids -> part_covers p i -> p ∈ out).
Proof.
  split_and!; [done|..].
  - intros read_rows files bbox cache stats r c st Hc Hp.
    destruct files as [|f0 files]; [injection Hp as <- <- _; split_and!; [done|done|]; intros out [= <-]; split; [done|by intros f Hf]|].
    unfold prune_files_by_bbox in *. set (fs := f0 :: files) in *. cbn iota in *.
    destruct (_rowgroup_index_for read_rows m table cache) as [ri c1] eqn:E1.
    destruct (_rowgroup_index_for read_rows m table []) as [r0 c0] eqn:E0.
    destruct (rowgroup_index_cached _ _ _ _ _ _ Hc E1) as [-> Hc1]. apply rowgroup_index_cached in E0 as [-> _]; [|done].
    destruct (_load_rowgroup_index read_rows m table) as [[idx|]|] eqn:El; injection Hp as <- <- _; (split; [done|]; split; [done|]).
    + intros out [= <-]. split; [intros f [_ Hf]%list_elem_of_filter; done|].
      intros f Hf Hbox. apply list_elem_of_filter. split; [|done]. by eapply loaded_index_keeps.
    + intros out [= <-]. auto.
    + done.
  - intros ids out parts Ho Hparts p i Hp Hi Hc. unfold byid_parts_for_ids in Ho.
    destruct ids as [|j ids]; [by inversion Hi|]. unfold byid_parts_for_range in Ho.
    rewrite Hparts in Ho. cbn [res_bind] in Ho.
    eapply (proj2 (parts_for_range_keeps _ _ _ _ Ho)); [done|exact Hc|].
    split; [by apply min_of_le | by apply max_of_ge].
Qed.
End Select.

(** * Samples *)
Definition sample_data (cells : list pystr) : json :=
  JObj [(u "manifest_version", JInt 2); (u "ancestor_depths", JList [JInt 0; JInt 3]);
        (u "leaf_cells", JList [JStr (u "0"); JStr (u "3")]);
        (u "rowgroup_index", JObj [(u "way", JStr (u "idx"))]);
        (u "byid", JObj [(u "way", JList [
           JObj [(u "path", JStr (u "a")); (u "min_id", JInt 1); (u "max_id", JInt 9)];
           JObj [(u "path", JStr (u "b")); (u "min_id", JInt 10); (u "max_id", JInt 20)]])]);
        (u "tables", JObj [(u "way", JObj [(u "cells", JObj (map (fun c => (c, JObj [])) cells))])])].
Definition sample : Manifest := {| m_root := u "/d"; m_data := sample_data [u "root"; u "3"; u "0"] |}.
Definition degrees (s w n e : Z) : BBox := (float_of_Z s, float_of_Z w, float_of_Z n, float_of_Z e).

Lemma cells_for_bbox_exact_witness :
  @CellSelect.cells_for_bbox latin1_db sample (u "way") (Some (degrees 5 (-7) 6 (-5))) = Ok [u "0"; u "root"] /\
  StronglySorted str_le [u "0"; u "root"].
Proof.
  assert (E : @CellSelect.cells_for_bbox latin1_db sample (u "way") (Some (degrees 5 (-7) 6 (-5)))
              = Ok [u "0"; u "root"]) by by vm_compute.
  split; [exact E|]. by destruct (@cells_for_bbox_exact latin1_db _ _ _ _ E) as (? & ? & ? & ? & ? & _ & Hs & _).
Defined.

(** A gap between the leaves hides elements.  The leaves of a dataset need
    not tile the world (empty quadrants are dropped), and the engine walks up
    from the leaves that meet the query only: here a way from the north-west to
    the south-east quadrant is placed at the root, its box contains the query
    box, the root file is present, and still no cell at all is read, where the
    layout's own [cells_for_bbox] reads the root. *)
Theorem cells_for_bbox_gap :
  @containing_cells_v2 latin1_db spec_numpy (-100000000) (-100000000) 100000000 100000000
     [u "0"; u "3"] [0; 3]%nat 13 = Ok ROOT /\
  CellSelect.bbox_intersects (degrees (-10) (-10) 10 10) (degrees 5 5 6 6) = true /\
  (let* cells := table_cells sample (u "way") in contains cells ROOT) = Ok true /\
  @CellSelect.cells_for_bbox latin1_db sample (u "way") (Some (degrees 5 5 6 6)) = Ok [] /\
  Cells.cells_for_bbox (degrees 5 5 6 6) [u "0"; u "3"] = Ok [ROOT].
Proof. split_and!; by vm_compute. Qed.

Definition sample_rows (_ : pystr) : option (list rowgroup_row) :=
  Some [(Some (u "x"), Some 0, Some 0, Some 5, Some 5);
        (Some (u "y"), Some 100, Some 100, Some 105, Some 105)].

Definition sample_index : RowGroupIndex := [(u "/d/x", [(0, 0, 5, 5)]); (u "/d/y", [(100, 100, 105, 105)])].
Lemma file_selection_complete_witness :
  (let cache := (prune_files_by_bbox sample_rows sample (u "way") [u "/d/y"] (1, 1, 2, 2) [] None).1.2 in
   cache = [(u "way", Some sample_index)] /\
   (prune_files_by_bbox sample_rows sample (u "way") [u "/d/x"; u "/d/y"; u "/d/z"] (1, 1, 2, 2) cache None).1.1 =
     Ok [u "/d/x"; u "/d/z"] /\
   cache_ok sample_rows sample cache) /\
  exists out, byid_parts_for_ids sample (u "way") [12; 15] = Ok out /\
    JObj [(u "path", JStr (u "b")); (u "min_id", JInt 10); (u "max_id", JInt 20)] ∈ out.
Proof.
  destruct (file_selection_complete sample (u "way")) as (Hnil & Hprune & Hparts). split.
  - intros cache. split; [by vm_compute|]. split; [by vm_compute|].
    destruct (prune_files_by_bbox sample_rows sample (u "way") [u "/d/y"] (1, 1, 2, 2) [] None) as [[r c] st] eqn:E.
    exact (proj1 (Hprune sample_rows _ _ _ _ _ _ _ (Hnil sample_rows) E)).
  - destruct (byid_parts_for_ids sample (u "way") [12; 15]) as [out|] eqn:E; [|by vm_compute in E].
    exists out. split; [done|]. refine (Hparts [12; 15] out _ E eq_refl _ 12 _ _ _).
    + right. left.
    + left.
    + exists 10, 20. split; [done|]. split; [done|lia].
Defined.
