(* ===== verification/Executor.v ===== *)
(** [engine/executor.py]: cancellation, the manifest refresh of a long-lived
    engine, and how a run's end becomes a result.  DuckDB and the clock are
    parameters: connections are identifiers, times are integers. *)
From S2P Require Import QlAst.
From S2P Require Import Prelude PyStr PyFloat Json Store Catalog.


(** * CancelToken *)
Section Token.
Context {conn : Type}.

(** The token's state, and the connections interrupted so far, latest first. *)
Record CancelToken := { _con : option conn; _cancelled : bool; interrupts : list conn }.
Definition new_token : CancelToken := {| _con := None; _cancelled := false; interrupts := [] |}.

(** [self._con.interrupt()], any exception (also that of [None]) dropped. *)
Definition _interrupt_locked (t : CancelToken) : CancelToken :=
  match _con t with
  | Some c => {| _con := _con t; _cancelled := _cancelled t; interrupts := c :: interrupts t |}
  | None => t
  end.
Definition _bind (c : conn) (t : CancelToken) : CancelToken :=
  let t' := {| _con := Some c; _cancelled := _cancelled t; interrupts := interrupts t |} in
  if _cancelled t' then _interrupt_locked t' else t'.
Definition _unbind (t : CancelToken) : CancelToken :=
  {| _con := None; _cancelled := _cancelled t; interrupts := interrupts t |}.
Definition cancel (t : CancelToken) : CancelToken :=
  let t' := {| _con := _con t; _cancelled := true; interrupts := interrupts t |} in
  if _con t' is Some _ then _interrupt_locked t' else t'.
Definition is_cancelled (t : CancelToken) : bool := _cancelled t.

Inductive token_op := OpBind (c : conn) | OpUnbind | OpCancel.
Definition token_step (t : CancelToken) (o : token_op) : CancelToken :=
  match o with OpBind c => _bind c t | OpUnbind => _unbind t | OpCancel => cancel t end.
Definition token_run (os : list token_op) : CancelToken := fold_left token_step os new_token.
End Token.
Arguments CancelToken conn : clear implicits.
Arguments token_op conn : clear implicits.

(** * The manifest refresh *)
Section Engine.
Context `{UnicodeDB} `{JsonModule}.

(** The dataset as it is at some moment, read one text file at a time. *)
Variable D : Type.
Variable read_text_any : D -> pystr -> res pystr.
Variable root : pystr.

Record Engine := {
  manifest : Manifest;
  _manifest_number : option pystr;     (** [manifest/LATEST]'s stripped text *)
  _last_manifest_check : Z;
  _manifest_refresh_seconds : Z
}.

Definition latest_text (d : D) : res pystr :=
  res_map py_strip (read_text_any d (join_root root (u "manifest/LATEST"))).
Definition load_at (d : D) : res Manifest := load_manifest (read_text_any d) root.

(** [Engine.__init__]: the manifest is loaded at one moment and the number read
    at a later one. *)
Definition Engine_init (d1 d2 : D) (now refresh : Z) : res Engine :=
  let* m := load_at d1 in
  Ok {| manifest := m;
        _manifest_number := match latest_text d2 with Ok t => Some t | Raise _ => None end;
        _last_manifest_check := now;
        _manifest_refresh_seconds := refresh |}.

Inductive number_value := NumInt (n : Z) | NumText (t : pystr) | NumNone.
Definition manifest_number (e : Engine) : number_value :=
  match _manifest_number e with
  | None => NumNone
  | Some t => match py_int t with Ok n => NumInt n | Raise _ => NumText t end
  end.

Definition checked (now : Z) (e : Engine) : Engine :=
  {| manifest := manifest e; _manifest_number := _manifest_number e;
     _last_manifest_check := now; _manifest_refresh_seconds := _manifest_refresh_seconds e |}.

Definition due (now : Z) (e : Engine) : bool :=
  negb (now - _last_manifest_check e <? _manifest_refresh_seconds e).

(** [LATEST] is read at [d1], the manifest loaded at [d2]. *)
Definition refresh_manifest_if_due (now : Z) (d1 d2 : D) (e : Engine) : Engine :=
  if negb (due now e) then e else
  let e1 := checked now e in
  match latest_text d1 with
  | Raise _ => e1
  | Ok t =>
      if (match _manifest_number e with Some n => n =s t | None => false end) then e1
      else match load_at d2 with
           | Raise _ => e1
           | Ok m => {| manifest := m; _manifest_number := Some t; _last_manifest_check := now;
                        _manifest_refresh_seconds := _manifest_refresh_seconds e |}
           end
  end.

(** * A run *)
Record Stats := {
  s_timed_out : option bool;
  s_cancelled : bool;
  s_files_read : option Z;
  s_files_considered : option Z;
  s_elements : option Z
}.
Record Result (element : Type) := {
  elements : list element;
  remark : option pystr;
  r_timestamp : json;
  stats : Stats;
  is_diff : bool
}.
Arguments elements {element} _.
Arguments remark {element} _.

(** How the planner's pass over the program ended. *)
Inductive pass {element : Type} :=
  | Finished (els : list element) (files_read considered read : Z) (warnings : list pystr)
  | Interrupted (timed_out : bool)
  | Failed (e : exn).
Arguments pass element : clear implicits.

Definition effective_timeout (timeout : option Z) (settings : QlAst.Settings) : option Z :=
  match timeout with
  | Some t => Some t
  | None => if QlAst.timeout settings =? 0 then None else Some (QlAst.timeout settings)
  end.

Definition timeout_remark (t : pystr) : pystr :=
  u "runtime error: Query timed out in " ++ [34] ++ u "osmpq" ++ [34] ++ u " at line 1 after " ++ t ++
  u " seconds.".
(** [elapsed]: the seconds with one decimal. *)
Definition killed_remark (elapsed : pystr) : pystr :=
  u "runtime error: Query aborted in " ++ [34] ++ u "osmpq" ++ [34] ++ u " at line 1 after " ++ elapsed ++
  u " seconds (killed by kill_my_queries).".
Definition history_prefix : pystr := u "history starts at ".

(** The end of [run_program]; an exception that is neither an interruption nor
    a [RuntimeQueryError] goes through. *)
Definition run_program_end {element} (m : Manifest) (settings : QlAst.Settings)
    (timeout : option Z) (elapsed : pystr) (p : pass element) : res (Result element) :=
  let* ts := timestamp_osm_base m in
  let diff := (if QlAst.diff settings is Some _ then true else false) ||
              (if QlAst.adiff settings is Some _ then true else false) in
  match p with
  | Interrupted true =>
      Ok {| elements := [];
            remark := Some (timeout_remark (match effective_timeout timeout settings with
                                            | Some t => str_of_Z t | None => u "None" end));
            r_timestamp := ts;
            stats := {| s_timed_out := Some true; s_cancelled := false; s_files_read := None;
                        s_files_considered := None; s_elements := None |};
            is_diff := false |}
  | Interrupted false =>
      Ok {| elements := []; remark := Some (killed_remark elapsed); r_timestamp := ts;
            stats := {| s_timed_out := Some false; s_cancelled := true; s_files_read := None;
                        s_files_considered := None; s_elements := None |};
            is_diff := false |}
  | Failed (RuntimeQueryError msg) =>
      Ok {| elements := []; remark := Some msg; r_timestamp := ts;
            stats := {| s_timed_out := None; s_cancelled := false; s_files_read := None;
                        s_files_considered := None; s_elements := None |};
            is_diff := false |}
  | Failed e => Raise e
  | Finished els files_read considered read warnings =>
      Ok {| elements := els;
            remark := List.find (fun w => startswith w history_prefix) warnings;
            r_timestamp := ts;
            stats := {| s_timed_out := None; s_cancelled := false; s_files_read := Some files_read;
                        s_files_considered := Some (files_read + Z.max 0 (considered - read));
                        s_elements := Some (Z.of_nat (length els)) |};
            is_diff := diff |}
  end.

(** [_setup_connection]: the statement issued for [[maxsize:]]. *)
Definition _setup_connection (settings : QlAst.Settings) : option pystr :=
  if QlAst.maxsize settings =? 0 then None
  else Some (u "SET memory_limit='" ++ str_of_Z (Z.max 1 (QlAst.maxsize settings / 1048576)) ++ u "MB'").
End Engine.
Arguments elements {element} _.
Arguments remark {element} _.
Arguments stats {element} _.
