(* ===== verification/Server.v ===== *)
(** [server.py]: the HTTP interpreter.  Requests acquire a slot (per client and
    in total), run, and release it; [/api/kill_my_queries] cancels the runs of
    one client.  The web framework, the clock and [Engine] are outside: a
    request's headers are a lookup function, times are integers, and the end of
    a run is a value of [run_end]. *)
From S2P Require Import QlAst.
From S2P Require Import Prelude PyStr PyFloat Json Store Executor QlParser.

Section Server.
Context `{UnicodeDB} {conn : Type}.

(** * Environment accessors *)

Definition _env_int (env : env_t) (name : pystr) (dflt : Z) : Z :=
  match dict_get name env with
  | None => dflt
  | Some raw => match py_int raw with Ok n => n | Raise _ => dflt end
  end.

(** Of the non-ASCII characters none lower-cases to a letter of the words. *)
Definition _env_bool (env : env_t) (name : pystr) (dflt : bool) : bool :=
  match dict_get name env with
  | None => dflt
  | Some raw => negb (str_in (ascii_lower (py_strip raw)) [u "0"; u "false"; u "no"; []])
  end.

Definition _slots_per_ip (env : env_t) : Z := _env_int env (u "OSMPQ_SLOTS_PER_IP") 2.
Definition _max_concurrent (env : env_t) : Z := _env_int env (u "OSMPQ_MAX_CONCURRENT") 8.
Definition _max_timeout (env : env_t) : Z := _env_int env (u "OSMPQ_MAX_TIMEOUT") 180.
Definition _max_maxsize (env : env_t) : Z := _env_int env (u "OSMPQ_MAX_MAXSIZE") 1073741824.
Definition _trust_proxy (env : env_t) : bool := _env_bool env (u "OSMPQ_TRUST_PROXY") false.
Definition _announced_endpoint (env : env_t) : pystr :=
  env_get env (u "OSMPQ_ANNOUNCED_ENDPOINT") (u "none").

Record Request := {
  headers : pystr -> option pystr;
  client_host : option pystr
}.

(** [s.split(",")[0]] *)
Definition first_entry (s : pystr) : pystr := fst (partition_char 44 s).

Definition peer (r : Request) : pystr := default (u "unknown") (client_host r).
Definition _client_ip (env : env_t) (r : Request) : pystr :=
  if _trust_proxy env then
    match headers r (u "CF-Connecting-IP") with
    | Some (c :: cf) => py_strip (c :: cf)
    | _ =>
        match headers r (u "X-Forwarded-For") with
        | Some (c :: xff) => py_strip (first_entry (c :: xff))
        | _ => peer r
        end
    end
  else peer r.

(** * Slots *)

Record RunningQuery := {
  q_id : Z;
  q_ip : pystr;
  q_maxsize : Z;
  q_timeout : Z;
  q_start : Z;
  q_cancel : CancelToken conn
}.

Record slots := {
  _running : gmap Z RunningQuery;
  _ip_counts : gmap pystr Z;
  _id_seq : Z                       (** the next value of [itertools.count(1)] *)
}.
Definition no_slots : slots := {| _running := ∅; _ip_counts := ∅; _id_seq := 1 |}.

Definition ip_count (ip : pystr) (s : slots) : Z := default 0 (_ip_counts s !! ip).

Definition _try_acquire (env : env_t) (now : Z) (ip : pystr) (s : slots) : option RunningQuery * slots :=
  if _max_concurrent env <=? Z.of_nat (size (_running s)) then (None, s)
  else if _slots_per_ip env <=? ip_count ip s then (None, s)
  else
    let qid := _id_seq s in
    let rq := {| q_id := qid; q_ip := ip; q_maxsize := 0; q_timeout := 0; q_start := now;
                 q_cancel := new_token |} in
    (Some rq, {| _running := <[qid := rq]> (_running s);
                 _ip_counts := <[ip := ip_count ip s + 1]> (_ip_counts s);
                 _id_seq := qid + 1 |}).

(** [id] and [ip] are the fields of the query released. *)
Definition _release (id : Z) (ip : pystr) (s : slots) : slots :=
  let remaining := ip_count ip s - 1 in
  {| _running := delete id (_running s);
     _ip_counts := if remaining <=? 0 then delete ip (_ip_counts s)
                   else <[ip := remaining]> (_ip_counts s);
     _id_seq := _id_seq s |}.

Definition queries_of (ip : pystr) (m : gmap Z RunningQuery) : gmap Z RunningQuery :=
  base.filter (fun kv => q_ip kv.2 = ip) m.
Definition _running_for_ip (ip : pystr) (s : slots) : list RunningQuery :=
  map snd (map_to_list (queries_of ip (_running s))).

(** A change to the query object, seen through [_running]. *)
Definition update_query (id : Z) (f : RunningQuery -> RunningQuery) (s : slots) : slots :=
  {| _running := alter f id (_running s); _ip_counts := _ip_counts s; _id_seq := _id_seq s |}.
Definition set_limits (maxsize timeout : Z) (rq : RunningQuery) : RunningQuery :=
  {| q_id := q_id rq; q_ip := q_ip rq; q_maxsize := maxsize; q_timeout := timeout;
     q_start := q_start rq; q_cancel := q_cancel rq |}.
Definition on_token (f : CancelToken conn -> CancelToken conn) (rq : RunningQuery) : RunningQuery :=
  {| q_id := q_id rq; q_ip := q_ip rq; q_maxsize := q_maxsize rq; q_timeout := q_timeout rq;
     q_start := q_start rq; q_cancel := f (q_cancel rq) |}.

(** * Pages *)

Definition _RATE_LIMIT_HTML : pystr :=
  u "<html><body><p>Error: runtime error: open64: 0 Success /osm3s_v0.7.62_osm_base " ++
  u "Dispatcher_Client::request_read_and_idx::rate_limited. Please check " ++
  u "/api/status for the quota of your IP address.</p></body></html>".

Definition _error_html (message : pystr) (line : Z) : pystr :=
  u "<html><body><p><strong style=" ++ [34] ++ u "color:#FF0000" ++ [34] ++ u ">Error</strong>: " ++
  u "line " ++ str_of_Z line ++ u ": parse error: " ++ message ++ u "</p></body></html>".

(** [sorted(mine, key=lambda r: r.id)] *)
Definition by_q_id (a b : RunningQuery) : Prop := q_id a <= q_id b.
#[export] Instance by_q_id_dec : RelDecision by_q_id := fun a b => Z_le_dec (q_id a) (q_id b).
Definition sorted_queries (l : list RunningQuery) : list RunningQuery := merge_sort by_q_id l.

Definition available_slots (env : env_t) (ip : pystr) (s : slots) : Z :=
  Z.max 0 (_slots_per_ip env - Z.of_nat (length (_running_for_ip ip s))).

(** [iso] renders a time as [strftime] does. *)
Definition status_line (iso : Z -> pystr) (rq : RunningQuery) : pystr :=
  str_of_Z (q_id rq) ++ u " " ++ str_of_Z (q_maxsize rq) ++ u " " ++ str_of_Z (q_timeout rq) ++
  u " " ++ iso (q_start rq).
Definition join_nl (ls : list pystr) : pystr := concat (map (fun l => l ++ [10]) ls).
Definition status (env : env_t) (iso : Z -> pystr) (now : Z) (r : Request) (s : slots) : pystr :=
  let ip := _client_ip env r in
  join_nl ([u "Connected as: " ++ ip;
            u "Current time: " ++ iso now;
            u "Announced endpoint: " ++ _announced_endpoint env;
            u "Rate limit: " ++ str_of_Z (_slots_per_ip env);
            str_of_Z (available_slots env ip s) ++ u " slots available now.";
            u "Currently running queries (pid, space limit, time limit, start time):"] ++
           map (status_line iso) (sorted_queries (_running_for_ip ip s))).

Definition kill_my_queries (env : env_t) (r : Request) (s : slots) : pystr * slots :=
  let ip := _client_ip env r in
  let mine := sorted_queries (_running_for_ip ip s) in
  (u "<html><body><p>The following queries have been killed:</p>" ++ [10] ++
   concat (map (fun rq => u "<p> pid: " ++ str_of_Z (q_id rq) ++ u " </p>" ++ [10]) mine) ++
   u "</body></html>",
   {| _running := (fun rq => if q_ip rq =s ip then on_token cancel rq else rq) <$> _running s;
      _ip_counts := _ip_counts s; _id_seq := _id_seq s |}).

(** * The interpreter *)

(** [min(v, cap) if v else cap] *)
Definition clamp (v cap : Z) : Z := if v =? 0 then cap else Z.min v cap.
Definition clamp_settings (env : env_t) (st : Settings) : Settings :=
  let st := set_timeout (clamp (QlAst.timeout st) (_max_timeout env)) st in
  set_maxsize (clamp (QlAst.maxsize st) (_max_maxsize env)) st.

Inductive reply :=
  | ErrorPage (status : Z) (html : pystr)
  | InternalError                          (** an exception leaves the handler: 500 *)
  | Rendered (cache_control : pystr).      (** 200 with the rendered result *)

(** A handler past [_try_acquire], waiting for the engine. *)
Record handler := { h_id : Z; h_ip : pystr; h_program : Program }.

Definition line_or_1 (line : option Z) : Z :=
  match line with Some l => if l =? 0 then 1 else l | None => 1 end.

(** [_handle_interpreter] up to the call of [run_program]. *)
Definition interpreter_begin (env : env_t) (now : Z) (r : Request) (query_text : pystr) (s : slots) :
    (reply + handler) * slots :=
  let ip := _client_ip env r in
  match parse query_text with
  | Raise (ParseError message line _) => (inl (ErrorPage 400 (_error_html message (line_or_1 line))), s)
  | Raise _ => (inl InternalError, s)
  | Ok program =>
      let st := clamp_settings env (settings program) in
      match _try_acquire env now ip s with
      | (None, s') => (inl (ErrorPage 429 _RATE_LIMIT_HTML), s')
      | (Some rq, s') =>
          (inr {| h_id := q_id rq; h_ip := q_ip rq;
                  h_program := mkProgram st (statements program) |},
           update_query (q_id rq) (set_limits (QlAst.maxsize st) (QlAst.timeout st)) s')
      end
  end.

(** How [get_engine] and [run_program] end. *)
Inductive run_end :=
  | EndResult (remark : option pystr)
  | EndUnsupported (message : pystr)
  | EndRaised.

(** The rest of [_handle_interpreter]; the slot is released first in every case. *)
Definition interpreter_end (h : handler) (e : run_end) (s : slots) : reply * slots :=
  (match e with
   | EndResult remark =>
       Rendered (match remark with
                 | Some (_ :: _) => u "no-store" | _ => u "public, max-age=60" end)
   | EndUnsupported message => ErrorPage 400 (_error_html message 1)
   | EndRaised => InternalError
   end,
   _release (h_id h) (h_ip h) s).

(** * The server as a transition system *)
Record server := { slots_of : slots; handlers : list handler }.
Definition idle : server := {| slots_of := no_slots; handlers := [] |}.

Definition request (env : env_t) (now : Z) (r : Request) (q : pystr) (sv : server) : server :=
  match interpreter_begin env now r q (slots_of sv) with
  | (inl _, s) => {| slots_of := s; handlers := handlers sv |}
  | (inr h, s) => {| slots_of := s; handlers := handlers sv ++ [h] |}
  end.

(** [M] and [N] bound the limits in force when requests arrive. *)
Inductive step (M N : Z) : server -> server -> Prop :=
  | step_request env now r q sv :
      _max_concurrent env <= M -> _slots_per_ip env <= N -> step M N sv (request env now r q sv)
  | step_engine sv h o :
      (** the engine binds its cursor to the query's token, or unbinds it *)
      h ∈ handlers sv -> o <> OpCancel ->
      step M N sv {| slots_of := update_query (h_id h) (on_token (fun t => token_step t o)) (slots_of sv);
                     handlers := handlers sv |}
  | step_kill env r sv :
      step M N sv {| slots_of := snd (kill_my_queries env r (slots_of sv)); handlers := handlers sv |}
  | step_end l1 h l2 s e :
      step M N {| slots_of := s; handlers := l1 ++ h :: l2 |}
               {| slots_of := snd (interpreter_end h e s); handlers := l1 ++ l2 |}.

Definition reachable (M N : Z) (sv : server) : Prop := rtc (step M N) idle sv.
End Server.
Arguments RunningQuery conn : clear implicits.
Arguments slots conn : clear implicits.
Arguments server conn : clear implicits.
