(* ===== verification/ServerFacts.v ===== *)
(** Theorems on [engine/executor.py]: cancellation reaches every bound
    connection, and the manifest refresh converges to the published manifest.

    Theorems on [server.py]: the slot accounting is exact in every reachable
    state and nothing leaks, the limits hold, [kill_my_queries] reaches every
    cursor of the client and no one else's, and the interpreter's replies. *)
From S2P Require Import Prelude PyStr QlAst QlParser Json Store Catalog Executor Server PyFloat.

(** * Cancellation *)

(** Every bound connection is interrupted once the token is cancelled, in
    whatever order cancelling and binding arrive, and only connections that
    were bound are ever interrupted. *)
Theorem token_bound_interrupted {conn : Type} (os : list (token_op conn)) :
  let t := token_run os in
  (forall c, _con t = Some c -> _cancelled t = true -> c ∈ interrupts t) /\
  (_cancelled t = true <-> OpCancel ∈ os) /\
  (forall c, c ∈ interrupts t -> OpBind c ∈ os /\ OpCancel ∈ os).
Proof.
  unfold token_run. induction os as [|o os IH] using rev_ind.
  { split_and!; [done| |intros c Hc; inversion Hc]. split; [done|intros Hc; inversion Hc]. }
  rewrite fold_left_app. cbn [fold_left]. set (t := fold_left token_step os new_token) in *.
  destruct IH as (H1 & H2 & H3). setoid_rewrite elem_of_app. setoid_rewrite list_elem_of_singleton.
  destruct o as [c| |]; cbn [token_step].
  - unfold _bind, _interrupt_locked. cbn. destruct (_cancelled t) eqn:Ec; cbn [_con _cancelled interrupts].
    + assert (OpCancel ∈ os) by by apply H2. split_and!.
      * intros c' [= <-] _. left.
      * tauto.
      * intros c' [->|Hc']%elem_of_cons; [tauto|]. apply H3 in Hc'. tauto.
    + split_and!; [done| |intros c' Hc'; apply H3 in Hc'; tauto].
      split; [done|]. intros [Hin|]; [|done]. by apply H2 in Hin.
  - unfold _unbind. cbn [_con _cancelled interrupts]. split_and!; [done| |].
    + rewrite H2. split; [tauto|]. by intros [|].
    + intros c Hc. apply H3 in Hc. tauto.
  - unfold cancel, _interrupt_locked. cbn. destruct (_con t) as [c|] eqn:Ec; cbn [_con _cancelled interrupts].
    + split_and!; [intros c' Hc' _; injection Hc' as <-; left|tauto|].
      * intros c' [->|Hc']%elem_of_cons; [|apply H3 in Hc'; tauto]. split; [|tauto]. left.
        clear -Ec. subst t. revert c Ec. induction os as [|o os IH] using rev_ind; [done|]. intros c.
        rewrite fold_left_app. cbn [fold_left]. rewrite elem_of_app, list_elem_of_singleton.
        set (t := fold_left token_step os new_token) in *. destruct o as [c0| |]; cbn [token_step].
        -- unfold _bind, _interrupt_locked. cbn. destruct (_cancelled t); intros [= ->]; tauto.
        -- done.
        -- unfold cancel, _interrupt_locked. cbn. destruct (_con t) eqn:E; cbn; rewrite ?E; [|congruence].
           intros [= ->]. left. by apply IH.
    + split_and!; [intros c' Hc'; congruence|tauto|]. intros c' Hc'. apply H3 in Hc'. tauto.
Qed.

(** * The manifest refresh *)
Section Refresh.
Context `{UnicodeDB} `{JsonModule}.
Context {D : Type} (read_text_any : D -> pystr -> res pystr) (root : pystr).

(** The dataset's successive states; a publication changes [LATEST]. *)
Variable timeline : nat -> D.
Abbreviation text i := (latest_text D read_text_any root (timeline i)).
Abbreviation load i := (load_at D read_text_any root (timeline i)).

(** Numbers never come back: between two moments with the same [LATEST]
    nothing was published. *)
Definition numbers_identify : Prop := forall i j k t,
  (i <= j <= k)%nat -> text i = Ok t -> text k = Ok t -> load j = load k.

(** One refresh reads [LATEST] at [i] and, later, the manifest at [j]. *)
Definition refresh_step (e : Engine) (w : Z * nat * nat) : Engine :=
  refresh_manifest_if_due D read_text_any root w.1.1 (timeline w.1.2) (timeline w.2) e.
Definition refreshes (ws : list (Z * nat * nat)) (e : Engine) : Engine := fold_left refresh_step ws e.
Definition ordered (w : Z * nat * nat) : Prop := (w.1.2 <= w.2)%nat.

(** The engine's number is at most as recent as its manifest. *)
Definition coherent (e : Engine) : Prop :=
  match _manifest_number e with
  | None => True
  | Some t => exists i j, (i <= j)%nat /\ text i = Ok t /\ load j = Ok (manifest e)
  end.

Lemma refresh_coherent e w : ordered w -> coherent e -> coherent (refresh_step e w).
Proof.
  intros Hw He. unfold refresh_step, refresh_manifest_if_due.
  destruct (negb _); [done|]. destruct (text w.1.2) as [t|] eqn:Et; [|exact He].
  destruct (match _manifest_number e with Some _ => _ | None => _ end); [exact He|].
  destruct (load w.2) as [m|] eqn:El; [|exact He]. exists w.1.2, w.2. done.
Qed.

Lemma refreshes_coherent ws e : Forall ordered ws -> coherent e -> coherent (refreshes ws e).
Proof.
  intros Hws. revert e. induction Hws as [|w ws Hw _ IH]; intros e He; [done|].
  by apply IH, refresh_coherent.
Qed.

Lemma init_coherent i now iv e :
  Engine_init D read_text_any root (timeline i) (timeline i) now iv = Ok e -> coherent e.
Proof.
  unfold Engine_init. destruct (load i) as [m|] eqn:El; [|done]. simpl. intros [= <-].
  unfold coherent. simpl. destruct (text i) as [t|] eqn:Et; [|done]. by exists i, i.
Qed.

(** C34: The manifest refresh converges (liveness).  Start an engine while no
    publication is in flight, let the writer publish as it likes, and refresh
    any number of times, each refresh reading LATEST no later than the manifest
    body, possibly with reads that fail.  Once the writer has stopped, the first
    due refresh leaves the engine with the last published manifest and its
    number, and every further refresh keeps them. *)
Theorem engine_refresh_converges i0 K now0 iv e ws now i j t m us :
  numbers_identify ->
  (forall k, (K <= k)%nat -> timeline k = timeline K) ->
  text K = Ok t -> load K = Ok m ->
  Engine_init D read_text_any root (timeline i0) (timeline i0) now0 iv = Ok e ->
  Forall ordered ws -> (K <= i <= j)%nat -> due now (refreshes ws e) = true ->
  Forall (fun w => (K <= w.1.2 <= w.2)%nat) us ->
  let e' := refreshes us (refresh_step (refreshes ws e) (now, i, j)) in
  manifest e' = m /\ _manifest_number e' = Some t.
Proof.
  intros Hid HK Ht Hm Hinit Hws Hij Hdue Hus.
  pose proof (refreshes_coherent ws e Hws (init_coherent _ _ _ _ Hinit)) as Hc.
  generalize dependent (refreshes ws e). clear e Hinit Hws. intros e Hdue Hc.
  set (good e := manifest e = m /\ _manifest_number e = Some t).
  assert (Hgood : forall e w, (K <= w.1.2 <= w.2)%nat -> good e -> good (refresh_step e w)).
  { intros e' w Hw [Hm' Hn]. unfold refresh_step, refresh_manifest_if_due.
    destruct (negb _); [done|]. rewrite (HK w.1.2), Ht, Hn, str_eqb_refl by lia. done. }
  assert (Hfold : forall us e, Forall (fun w => (K <= w.1.2 <= w.2)%nat) us -> good e -> good (refreshes us e)).
  { clear us Hus. intros us e' Hus. revert e'. induction Hus; intros e' He'; [done|]. apply IHHus; auto. }
  apply (Hfold us); [done|]. clear us Hus Hfold Hgood.
  unfold refresh_step, refresh_manifest_if_due. cbn [fst snd]. rewrite Hdue. cbn [negb].
  rewrite (HK i), (HK j), Ht, Hm by lia. unfold coherent in Hc.
  destruct (_manifest_number e) as [n|] eqn:En; [|done].
  destruct (n =s t) eqn:Ent; [|done]. apply str_eqb_eq in Ent as ->.
  destruct Hc as (a & b & Hab & Ha & Hb). split; [cbn|done].
  enough (load b = load K) by congruence.
  destruct (decide (b <= K)%nat) as [|]; [by apply (Hid a b K t)|]. by rewrite (HK b) by lia.
Qed.

(** An engine whose start overlaps a publication serves the old manifest for
    as long as nothing further is published: the constructor loads the manifest
    before it reads LATEST, so the number it keeps may be newer than the
    manifest, and every later refresh of the quiescent dataset, due or not,
    compares equal numbers and returns. *)
Theorem engine_init_stale K now0 iv t m_old ws :
  (forall k, (K < k)%nat -> timeline k = timeline (S K)) ->
  load K = Ok m_old -> text (S K) = Ok t ->
  Forall (fun w => (K < w.1.2 <= w.2)%nat) ws ->
  exists e, Engine_init D read_text_any root (timeline K) (timeline (S K)) now0 iv = Ok e /\
            manifest (refreshes ws e) = m_old.
Proof.
  intros HK Hm Ht Hws. unfold Engine_init. rewrite Hm, Ht. eexists. split; [reflexivity|].
  match goal with |- manifest (refreshes ws ?e) = _ => set (e0 := e) end.
  assert (Hs : manifest e0 = m_old /\ _manifest_number e0 = Some t) by done.
  clearbody e0. revert e0 Hs. induction Hws as [|w ws Hw _ IH]; intros e [Hm' Hn]; [done|].
  apply IH. unfold refresh_step, refresh_manifest_if_due.
  destruct (negb _); [done|]. rewrite (HK w.1.2), Ht, Hn, str_eqb_refl by lia. done.
Qed.
End Refresh.

(** Datasets numbered by an integer; manifest [n] is the JSON number [n]. *)
Definition numbered_read (d : Z) (p : pystr) : res pystr :=
  if p =s u "r/manifest/LATEST" then Ok (str_of_Z d)
  else if p =s u "r/manifest/" ++ str_of_Z d ++ u ".json" then @json_dumps tree_json (JInt d)
  else Raise FileNotFoundError.
Definition numbered_manifest (d : Z) : Manifest := {| m_root := u "r"; m_data := JInt d |}.
Definition publish_once (k : nat) : Z := if (k <=? 0)%nat then 1 else 2.

Lemma engine_refresh_converges_witness :
  let e := {| manifest := numbered_manifest 1; _manifest_number := Some (u "1");
              _last_manifest_check := 0; _manifest_refresh_seconds := 60 |} in
  let e' := @refreshes latin1_db tree_json Z numbered_read (u "r") publish_once []
             (@refresh_step latin1_db tree_json Z numbered_read (u "r") publish_once e (60, 1%nat, 2%nat)) in
  manifest e' = numbered_manifest 2 /\ _manifest_number e' = Some (u "2").
Proof.
  intros e e'.
  apply (@engine_refresh_converges latin1_db tree_json Z numbered_read (u "r") publish_once
           0 1 0 60 e [] 60 1 2 (u "2") (numbered_manifest 2) []).
  - intros i j k t Hijk. unfold publish_once.
    destruct (Nat.leb_spec i 0), (Nat.leb_spec j 0), (Nat.leb_spec k 0); try lia; try done.
    all: by vm_compute; intros [= <-].
  - intros k Hk. unfold publish_once. by destruct (Nat.leb_spec k 0); [lia|].
  - by vm_compute.
  - by vm_compute.
  - by vm_compute.
  - constructor.
  - lia.
  - by vm_compute.
  - constructor.
Defined.

Lemma engine_init_stale_witness :
  exists e, @Engine_init latin1_db tree_json Z numbered_read (u "r") 1 2 0 60 = Ok e /\
  manifest (@refreshes latin1_db tree_json Z numbered_read (u "r") publish_once [(60, 1%nat, 1%nat)] e) =
  numbered_manifest 1.
Proof.
  apply (@engine_init_stale latin1_db tree_json Z numbered_read (u "r") publish_once 0 0 60 (u "2")).
  - intros k Hk. unfold publish_once. destruct (Nat.leb_spec k 0); [lia|done].
  - by vm_compute.
  - by vm_compute.
  - repeat constructor.
Defined.

Section ServerFacts.
Context `{UnicodeDB} {conn : Type}.
Implicit Types (sv : server conn) (s : slots conn).

(** * The invariant *)
Definition owners (hs : list handler) : gmap Z pystr :=
  list_to_map (map (fun h => (h_id h, h_ip h)) hs).
Definition held (ip : pystr) (hs : list handler) : list handler :=
  base.filter (fun h => h_ip h = ip) hs.
Definition held_count (ip : pystr) (hs : list handler) : Z := Z.of_nat (length (held ip hs)).

Record inv (M N : Z) sv : Prop := {
  inv_nodup : NoDup (map h_id (handlers sv));
  inv_owners : q_ip <$> _running (slots_of sv) = owners (handlers sv);
  inv_counts : forall ip, _ip_counts (slots_of sv) !! ip =
    if held_count ip (handlers sv) =? 0 then None else Some (held_count ip (handlers sv));
  inv_total : Z.of_nat (length (handlers sv)) <= Z.max 0 M;
  inv_per_ip : forall ip, held_count ip (handlers sv) <= Z.max 0 N;
  inv_seq : Forall (fun h => h_id h < _id_seq (slots_of sv)) (handlers sv);
  inv_id : forall i rq, _running (slots_of sv) !! i = Some rq ->
    q_id rq = i /\ exists os, q_cancel rq = token_run os
}.

Lemma ip_count_held M N sv ip : inv M N sv -> ip_count ip (slots_of sv) = held_count ip (handlers sv).
Proof.
  intros Hi. unfold ip_count. rewrite (inv_counts _ _ _ Hi).
  destruct (Z.eqb_spec (held_count ip (handlers sv)) 0); simpl; lia.
Qed.

Lemma owners_size hs : NoDup (map h_id hs) -> size (owners hs) = length hs.
Proof.
  intros Hn. unfold owners. induction hs as [|h hs IH]; [done|].
  apply NoDup_cons in Hn as [Hh Hn]. cbn. rewrite map_size_insert_None.
  - by rewrite <- IH.
  - apply not_elem_of_list_to_map_1. by rewrite <- list_fmap_compose.
Qed.

Lemma running_size M N sv : inv M N sv -> size (_running (slots_of sv)) = length (handlers sv).
Proof.
  intros Hi. rewrite <- (owners_size _ (inv_nodup _ _ _ Hi)), <- (inv_owners _ _ _ Hi).
  by rewrite map_size_fmap.
Qed.

Lemma held_count_app ip l1 l2 : held_count ip (l1 ++ l2) = held_count ip l1 + held_count ip l2.
Proof. unfold held_count, held. rewrite filter_app, length_app. lia. Qed.
Lemma held_count_cons ip h l :
  held_count ip (h :: l) = (if decide (h_ip h = ip) then 1 else 0) + held_count ip l.
Proof. unfold held_count, held. rewrite filter_cons. destruct (decide _); simpl length; lia. Qed.
Lemma held_count_nonneg ip l : 0 <= held_count ip l.
Proof. unfold held_count. lia. Qed.

(** Handlers are a multiset for the invariant. *)
Lemma owners_middle l1 h l2 : NoDup (map h_id (l1 ++ h :: l2)) ->
  owners (l1 ++ h :: l2) = <[h_id h := h_ip h]> (owners (l1 ++ l2)) /\ owners (l1 ++ l2) !! h_id h = None.
Proof.
  intros Hn. assert (Hp : l1 ++ h :: l2 ≡ₚ h :: l1 ++ l2) by (symmetry; apply Permutation_middle).
  split.
  - unfold owners. rewrite (list_to_map_proper _ (map (fun h => (h_id h, h_ip h)) (h :: l1 ++ l2))); [done| |].
    + by rewrite <- list_fmap_compose.
    + by rewrite Hp.
  - rewrite Hp in Hn. apply NoDup_cons in Hn as [Hh _]. apply not_elem_of_list_to_map_1.
    by rewrite <- list_fmap_compose.
Qed.

(** Changing a query object leaves the owners as they are. *)
Lemma update_owners i f s : (forall rq, q_ip (f rq) = q_ip rq) ->
  q_ip <$> _running (update_query i f s) = q_ip <$> _running s.
Proof.
  intros Hf. apply map_eq. intros j. rewrite !lookup_fmap. cbn. destruct (decide (i = j)) as [->|Hne].
  - rewrite lookup_alter_eq. destruct (_running s !! j); simpl; by rewrite ?Hf.
  - by rewrite lookup_alter_ne.
Qed.

Lemma update_lookup i f s j rq : _running (update_query i f s) !! j = Some rq ->
  exists rq0, _running s !! j = Some rq0 /\ (rq = rq0 \/ rq = f rq0).
Proof.
  cbn. destruct (decide (i = j)) as [->|Hne].
  - rewrite lookup_alter_eq. destruct (_running s !! j); naive_solver.
  - rewrite lookup_alter_ne by done. eauto.
Qed.

Lemma token_run_snoc {C : Type} (os : list (token_op C)) o : token_run (os ++ [o]) = token_step (token_run os) o.
Proof. unfold token_run. by rewrite fold_left_app. Qed.

(** A query object keeps its id and a token reached by some operations. *)
Definition good (i : Z) (rq : RunningQuery conn) : Prop := q_id rq = i /\ exists os, q_cancel rq = token_run os.
Lemma good_step i rq o : good i rq -> good i (on_token (fun t => token_step t o) rq).
Proof. intros [? [os E]]. split; [done|]. exists (os ++ [o]). simpl. by rewrite E, token_run_snoc. Qed.
Lemma good_cancel i rq : good i rq -> good i (on_token cancel rq).
Proof. apply (good_step i rq OpCancel). Qed.

Lemma inv_update M N sv i f :
  (forall rq, q_ip (f rq) = q_ip rq) -> (forall j rq, good j rq -> good j (f rq)) ->
  inv M N sv -> inv M N {| slots_of := update_query i f (slots_of sv); handlers := handlers sv |}.
Proof.
  intros Hf Hg []. split; try done.
  - by cbn [slots_of handlers]; rewrite update_owners.
  - cbn [slots_of]. intros j rq (rq0 & Hq & [->| ->])%update_lookup; [by apply inv_id0|].
    apply Hg. by apply inv_id0.
Qed.

(** ** Acquiring and releasing *)
Lemma inv_acquire M N sv env now ip rq s' p :
  inv M N sv -> _max_concurrent env <= M -> _slots_per_ip env <= N ->
  _try_acquire env now ip (slots_of sv) = (Some rq, s') ->
  inv M N {| slots_of := s'; handlers := handlers sv ++ [{| h_id := q_id rq; h_ip := q_ip rq; h_program := p |}] |}.
Proof.
  intros Hi HM HN. pose proof (running_size _ _ _ Hi) as Hsz. pose proof (ip_count_held _ _ _ ip Hi) as Hcnt.
  unfold _try_acquire. rewrite Hsz, Hcnt.
  destruct (Z.leb_spec (_max_concurrent env) (Z.of_nat (length (handlers sv)))) as [|HlM]; [done|].
  destruct (Z.leb_spec (_slots_per_ip env) (held_count ip (handlers sv))) as [|HlN]; [done|].
  intros [= <- <-]. cbn [q_id q_ip]. destruct Hi.
  set (h := {| h_id := _id_seq (slots_of sv); h_ip := ip; h_program := p |}).
  assert (Hnew : NoDup (map h_id (handlers sv ++ [h]))).
  { rewrite map_app. apply NoDup_app. split_and!; [done| |apply NoDup_singleton].
    intros i Hin%elem_of_map. destruct Hin as (h' & -> & Hh'). rewrite Forall_forall in inv_seq0.
    intros Hs%list_elem_of_singleton. cbn in Hs. specialize (inv_seq0 h' Hh'). lia. }
  destruct (owners_middle (handlers sv) h [] Hnew) as [Ho _]. rewrite app_nil_r in Ho.
  split; cbn [slots_of handlers _running _ip_counts _id_seq]; [done| | | | | |].
  - by rewrite fmap_insert, inv_owners0, Ho.
  - intros ip'. rewrite held_count_app, held_count_cons. cbn [h_ip h].
    change (held_count ip' []) with 0. pose proof (held_count_nonneg ip' (handlers sv)).
    destruct (decide (ip = ip')) as [->|Hne].
    + rewrite lookup_insert_eq. destruct (Z.eqb_spec (held_count ip' (handlers sv) + (1 + 0)) 0); [lia|].
      f_equal; lia.
    + rewrite lookup_insert_ne by done. rewrite inv_counts0, !Z.add_0_r. done.
  - rewrite length_app. simpl length. lia.
  - intros ip'. rewrite held_count_app, held_count_cons. cbn [h_ip h].
    change (held_count ip' []) with 0. specialize (inv_per_ip0 ip').
    destruct (decide (ip = ip')) as [->|]; lia.
  - apply Forall_app. split; [|by repeat constructor; cbn; lia].
    eapply Forall_impl; [exact inv_seq0|]. cbn. intros. lia.
  - intros i rq. destruct (decide (_id_seq (slots_of sv) = i)) as [<-|].
    + rewrite lookup_insert_eq. intros [= <-]. split; [done|]. by exists [].
    + rewrite lookup_insert_ne by done. apply inv_id0.
Qed.

Lemma inv_release M N s l1 h l2 :
  inv M N {| slots_of := s; handlers := l1 ++ h :: l2 |} ->
  inv M N {| slots_of := _release (h_id h) (h_ip h) s; handlers := l1 ++ l2 |}.
Proof.
  intros Hi. pose proof (ip_count_held _ _ _ (h_ip h) Hi) as Hcnt. destruct Hi.
  cbn [slots_of handlers] in *. destruct (owners_middle _ _ _ inv_nodup0) as [Ho Hno].
  assert (Hc : forall ip, held_count ip (l1 ++ h :: l2) = (if decide (h_ip h = ip) then 1 else 0) + held_count ip (l1 ++ l2)).
  { intros ip. rewrite !held_count_app, held_count_cons. lia. }
  split; cbn [slots_of handlers _release _running _ip_counts _id_seq].
  - revert inv_nodup0. rewrite !map_app. simpl. rewrite <- Permutation_middle. by intros [_ ?]%NoDup_cons.
  - rewrite fmap_delete, inv_owners0, Ho. by rewrite delete_insert_id.
  - intros ip. rewrite Hcnt, Hc, decide_True by done. specialize (inv_counts0 ip). rewrite Hc in inv_counts0.
    pose proof (held_count_nonneg (h_ip h) (l1 ++ l2)).
    replace (1 + held_count (h_ip h) (l1 ++ l2) - 1) with (held_count (h_ip h) (l1 ++ l2)) by lia.
    destruct (decide (h_ip h = ip)) as [<-|Hne].
    + destruct (Z.eqb_spec (held_count (h_ip h) (l1 ++ l2)) 0) as [->|].
      * cbn [Z.leb Z.compare]. by rewrite lookup_delete_eq.
      * destruct (Z.leb_spec (held_count (h_ip h) (l1 ++ l2)) 0); [lia|]. by rewrite lookup_insert_eq.
    + destruct (_ <=? 0); [rewrite lookup_delete_ne by done|rewrite lookup_insert_ne by done]; exact inv_counts0.
  - revert inv_total0. rewrite !length_app. simpl length. lia.
  - intros ip. specialize (inv_per_ip0 ip). rewrite Hc in inv_per_ip0. destruct (decide _); lia.
  - apply Forall_app in inv_seq0 as [H1 H2]. apply Forall_cons in H2 as [_ H2]. by apply Forall_app.
  - intros i rq Hq. apply inv_id0. by apply lookup_delete_Some in Hq as [_ ?].
Qed.

Lemma step_inv M N sv sv' : step M N sv sv' -> inv M N sv -> inv M N sv'.
Proof.
  destruct 1 as [env now r q sv HM HN|sv h o Hh Ho|env r sv|l1 h l2 s e]; intros Hi.
  - unfold request, interpreter_begin. destruct (parse q) as [program|[]]; try by destruct Hi.
    destruct (_try_acquire _ _ _ _) as [[rq|] s'] eqn:Ea.
    + pose proof (inv_acquire _ _ _ _ _ _ _ _
        (mkProgram (clamp_settings env (settings program)) (statements program)) Hi HM HN Ea) as Hi'.
      by refine (inv_update _ _ _ (q_id rq) _ _ _ Hi').
    + unfold _try_acquire in Ea. destruct (_ <=? _); [|destruct (_ <=? _); [|done]]; injection Ea as <-; by destruct Hi.
  - apply inv_update; [done|intros; by apply good_step|done].
  - destruct Hi. split; try done; cbn [slots_of kill_my_queries snd _running].
    + cbn [handlers]. rewrite <- inv_owners0, <- map_fmap_compose. apply map_fmap_ext.
      intros i rq _. simpl. by destruct (_ =s _).
    + intros i rq. rewrite lookup_fmap. destruct (_running (slots_of sv) !! i) as [rq0|] eqn:E; [|done].
      simpl. intros [= <-]. specialize (inv_id0 _ _ E). destruct (_ =s _); [by apply good_cancel|done].
  - by apply inv_release.
Qed.

Lemma reachable_inv M N sv : reachable M N sv -> inv M N sv.
Proof.
  unfold reachable. assert (H0 : inv M N (@idle conn)).
  { split; cbn [idle slots_of handlers no_slots _running _ip_counts _id_seq length]; try done; try lia.
    - apply NoDup_nil_2.
    - intros ip. unfold held_count. cbn. lia. }
  revert H0. generalize (@idle conn). intros sv0 H0 Hr. induction Hr; eauto using step_inv.
Qed.

(** ** Counting *)
Lemma owners_of_ip ip hs : NoDup (map h_id hs) ->
  size (base.filter (fun kv : Z * pystr => kv.2 = ip) (owners hs)) = length (held ip hs).
Proof.
  unfold owners, held. induction hs as [|h hs IH]; intros Hn; [done|].
  apply NoDup_cons in Hn as [Hh Hn]. cbn [map]. rewrite list_to_map_cons, filter_cons.
  assert (Hno : (list_to_map (map (fun h => (h_id h, h_ip h)) hs) : gmap Z pystr) !! h_id h = None)
    by (apply not_elem_of_list_to_map_1; by rewrite <- list_fmap_compose).
  destruct (decide (h_ip h = ip)) as [He|He].
  - rewrite map_filter_insert_True by done. rewrite map_size_insert_None.
    + by rewrite IH.
    + apply map_lookup_filter_None. by left.
  - rewrite map_filter_insert_False by done. rewrite delete_id by done. by apply IH.
Qed.

Lemma running_for_ip_count M N sv ip : inv M N sv ->
  length (_running_for_ip ip (slots_of sv)) = length (held ip (handlers sv)).
Proof.
  intros Hi. unfold _running_for_ip, queries_of. rewrite length_map, length_map_to_list.
  rewrite <- (owners_of_ip ip _ (inv_nodup _ _ _ Hi)), <- (inv_owners _ _ _ Hi), map_filter_fmap.
  by rewrite map_size_fmap.
Qed.

(** C35: the slot accounting is exact in every reachable state, whatever the
    interleaving of requests, engine steps, kills and ends (successful or not):
    the queries listed as running are those of the handlers in flight, the
    per-client counter equals the number of that client's handlers and has no
    entry when there are none, and neither limit is ever exceeded.  Nothing
    leaks: when no handler is in flight, every table is empty. *)
Theorem server_slots_exact M N sv :
  reachable M N sv ->
  size (_running (slots_of sv)) = length (handlers sv) /\
  Z.of_nat (length (handlers sv)) <= Z.max 0 M /\
  (forall ip, let n := Z.of_nat (length (held ip (handlers sv))) in
     Z.of_nat (length (_running_for_ip ip (slots_of sv))) = n /\
     _ip_counts (slots_of sv) !! ip = (if n =? 0 then None else Some n) /\ n <= Z.max 0 N) /\
  (handlers sv = [] -> _running (slots_of sv) = ∅ /\ _ip_counts (slots_of sv) = ∅).
Proof.
  intros Hi%reachable_inv. split_and!.
  - by eapply running_size.
  - apply Hi.
  - intros ip n. split; [subst n; f_equal; by eapply running_for_ip_count|].
    split; [apply (inv_counts _ _ _ Hi)|apply (inv_per_ip _ _ _ Hi)].
  - intros Hh. split.
    + apply map_size_empty_inv. rewrite (running_size _ _ _ Hi). by rewrite Hh.
    + apply map_eq. intros ip. by rewrite (inv_counts _ _ _ Hi), Hh.
Qed.

(** * The interpreter's replies *)
Lemma clamp_spec v cap : clamp v cap <= cap /\ (v <> 0 -> clamp v cap <= v).
Proof. unfold clamp. destruct (Z.eqb_spec v 0); lia. Qed.

Lemma updated_count i f rs ip v m q :
  ip_count ip (update_query i f {| _running := rs; _ip_counts := <[ip := v]> m; _id_seq := q |} : slots conn) = v.
Proof. unfold ip_count. cbn [update_query _ip_counts]. by rewrite lookup_insert_eq. Qed.

(** C36: what a request gets.  A syntax error is a 400 page and takes no slot; a
    well-formed query is refused with 429 exactly when the server or the
    client is at its limit, again changing nothing; otherwise it goes to the
    engine with its statements untouched and with [timeout] and [maxsize]
    clamped to the caps and never widened, and however the engine ends, the
    slot it took is free again: the same client could at once send the next
    request. *)
Theorem interpreter_replies M N sv env now r q :
  reachable M N sv ->
  let s := slots_of sv in
  let ip := _client_ip env r in
  let full := _max_concurrent env <= Z.of_nat (length (handlers sv)) \/
              _slots_per_ip env <= Z.of_nat (length (held ip (handlers sv))) in
  match parse q with
  | Raise (ParseError msg line _) =>
      interpreter_begin env now r q s = (inl (ErrorPage 400 (_error_html msg (line_or_1 line))), s)
  | Raise _ => interpreter_begin env now r q s = (inl InternalError, s)
  | Ok program =>
      (full -> interpreter_begin env now r q s = (inl (ErrorPage 429 _RATE_LIMIT_HTML), s)) /\
      (~ full -> exists h s', interpreter_begin env now r q s = (inr h, s') /\
         h_ip h = ip /\ _running s !! h_id h = None /\
         statements (h_program h) = statements program /\
         (let st := settings (h_program h) in let st0 := settings program in
          QlAst.timeout st <= _max_timeout env /\ (QlAst.timeout st0 <> 0 -> QlAst.timeout st <= QlAst.timeout st0) /\
          QlAst.maxsize st <= _max_maxsize env /\ (QlAst.maxsize st0 <> 0 -> QlAst.maxsize st <= QlAst.maxsize st0)) /\
         forall e, let s2 := snd (interpreter_end h e s') in
           _running s2 = _running s /\ _ip_counts s2 = _ip_counts s)
  end.
Proof.
  intros Hi%reachable_inv. cbn zeta. unfold interpreter_begin.
  destruct (parse q) as [program|[]]; try done.
  unfold _try_acquire. rewrite (running_size _ _ _ Hi), (ip_count_held _ _ _ (_client_ip env r) Hi).
  fold (held_count (_client_ip env r) (handlers sv)). set (n := held_count _ _).
  destruct (Z.leb_spec (_max_concurrent env) (Z.of_nat (length (handlers sv)))) as [|H1]; [by split; [|lia]|].
  destruct (Z.leb_spec (_slots_per_ip env) n) as [|H2]; [by split; [|lia]|].
  split; [lia|]. intros _. eexists _, _. split; [reflexivity|].
  assert (Hnone : _running (slots_of sv) !! _id_seq (slots_of sv) = None).
  { destruct (_running (slots_of sv) !! _id_seq (slots_of sv)) eqn:E; [|done].
    assert (E' : (q_ip <$> _running (slots_of sv)) !! _id_seq (slots_of sv) = Some (q_ip r0))
      by by rewrite lookup_fmap, E.
    rewrite (inv_owners _ _ _ Hi) in E'. apply elem_of_list_to_map_2, elem_of_map in E' as (h & Heq & Hh).
    pose proof (inv_seq _ _ _ Hi) as Hs. rewrite Forall_forall in Hs. apply Hs in Hh.
    injection Heq as Heq _. lia. }
  cbn [h_ip h_id h_program q_id q_ip]. split_and!; try done; try apply clamp_spec.
  intros e. cbn [interpreter_end snd _release h_id h_ip _ip_counts _running]. split.
  - rewrite <- (delete_insert_id (_running (slots_of sv)) _ {| q_id := 0; q_ip := []; q_maxsize := 0; q_timeout := 0; q_start := 0; q_cancel := new_token |} Hnone) at 2.
    apply map_eq. intros i. destruct (decide (i = _id_seq (slots_of sv))) as [->|Hne].
    + by rewrite !lookup_delete_eq.
    + cbn [update_query _running]. by rewrite !lookup_delete_ne, lookup_alter_ne, !lookup_insert_ne by done.
  - rewrite updated_count. cbn [update_query _ip_counts]. replace (n + 1 - 1) with n by lia.
    pose proof (inv_counts _ _ _ Hi (_client_ip env r)) as Hc. fold n in Hc.
    assert (0 <= n) by apply held_count_nonneg.
    destruct (Z.eqb_spec n 0) as [->|].
    + cbn [Z.leb Z.compare]. by rewrite delete_insert_id.
    + destruct (Z.leb_spec n 0); [lia|]. rewrite insert_insert_eq. by apply insert_id.
Qed.

(** * kill_my_queries *)

(** [/api/kill_my_queries] reaches every query of the calling client and
    nobody else's: afterwards each of them is cancelled, a cursor already
    bound to it has been interrupted, and one bound later will be interrupted
    as it is bound; the other clients' query objects are unchanged, and no
    slot is taken or freed. *)
Theorem kill_my_queries_own M N sv env r :
  reachable M N sv ->
  let ip := _client_ip env r in
  let s' := snd (kill_my_queries env r (slots_of sv)) in
  _ip_counts s' = _ip_counts (slots_of sv) /\
  (forall i, is_Some (_running s' !! i) <-> is_Some (_running (slots_of sv) !! i)) /\
  forall i rq, _running s' !! i = Some rq ->
    if q_ip rq =s ip then
      is_cancelled (q_cancel rq) = true /\
      (forall c, _con (q_cancel rq) = Some c -> c ∈ interrupts (q_cancel rq)) /\
      (forall c, c ∈ interrupts (_bind c (q_cancel rq)))
    else _running (slots_of sv) !! i = Some rq.
Proof.
  intros Hi%reachable_inv. cbn zeta. cbn [kill_my_queries snd _running _ip_counts].
  split; [done|]. split; [intros i; by rewrite lookup_fmap, fmap_is_Some|].
  intros i rq. rewrite lookup_fmap. destruct (_running (slots_of sv) !! i) as [rq0|] eqn:E; [|done].
  simpl. intros [= <-]. destruct (q_ip rq0 =s _client_ip env r) eqn:Eip; simpl; [|by rewrite Eip].
  rewrite Eip. destruct (inv_id _ _ _ Hi _ _ E) as [_ [os ->]].
  assert (Hc : _cancelled (cancel (token_run os)) = true).
  { unfold cancel, _interrupt_locked. cbn. by destruct (_con (token_run os)) eqn:Ec; cbn; rewrite ?Ec. }
  split; [done|]. split.
  - intros c. unfold cancel, _interrupt_locked. cbn.
    destruct (_con (token_run os)) eqn:Ec; cbn; rewrite ?Ec; [|congruence].
    intros [= <-]. left.
  - intros c. unfold _bind, _interrupt_locked. cbn [_cancelled]. rewrite Hc. cbn [_con interrupts]. left.
Qed.
End ServerFacts.

(** * A run of the server *)
Definition browser : Request := {| headers _ := None; client_host := Some (u "10.0.0.1") |}.
Definition sample_query : pystr := u "[timeout:1000];node(1);out;".
Definition one_running : server Z := @request latin1_db Z [] 5 browser sample_query idle.

Lemma one_running_reachable : @reachable latin1_db Z 8 2 one_running.
Proof. apply rtc_once. by apply step_request; vm_compute. Defined.

Lemma server_slots_exact_witness :
  size (_running (slots_of one_running)) = 1%nat /\
  _ip_counts (slots_of one_running) !! u "10.0.0.1" = Some 1.
Proof.
  destruct (@server_slots_exact latin1_db Z 8 2 one_running one_running_reachable) as (H1 & _ & H3 & _).
  split; [by rewrite H1; vm_compute|]. destruct (H3 (u "10.0.0.1")) as (_ & -> & _). by vm_compute.
Defined.

(** A second query of the same client is accepted, its time limit clamped. *)
Lemma interpreter_replies_witness :
  exists h s', @interpreter_begin latin1_db Z [] 9 browser sample_query (slots_of one_running) = (inr h, s') /\
    QlAst.timeout (settings (h_program h)) <= 180.
Proof.
  pose proof (@interpreter_replies latin1_db Z 8 2 one_running [] 9 browser sample_query one_running_reachable) as Hr.
  cbn zeta in Hr. destruct (@parse latin1_db sample_query) as [program|] eqn:Ep; [|by vm_compute in Ep].
  destruct Hr as [_ Hr]. destruct Hr as (h & s' & Hb & _ & _ & _ & (Ht & _) & _).
  - intros [Hc|Hc]; vm_compute in Hc; by apply Hc.
  - exists h, s'. split; [exact Hb|exact Ht].
Defined.

Lemma kill_my_queries_own_witness :
  exists rq, _running (snd (@kill_my_queries latin1_db Z [] browser (slots_of one_running))) !! 1 = Some rq /\
  is_cancelled (q_cancel rq) = true.
Proof.
  destruct (_running (snd (@kill_my_queries latin1_db Z [] browser (slots_of one_running))) !! 1) as [rq|] eqn:Hq;
    [|by vm_compute in Hq].
  exists rq. split; [done|].
  pose proof (proj2 (proj2 (@kill_my_queries_own latin1_db Z 8 2 one_running [] browser one_running_reachable)) 1 rq Hq) as Hk.
  change (@_client_ip latin1_db [] browser) with (u "10.0.0.1") in Hk.
  assert (Eip : q_ip rq =s u "10.0.0.1" = true).
  { assert (Hip : q_ip <$> _running (snd (@kill_my_queries latin1_db Z [] browser (slots_of one_running))) !! 1 =
                  Some (u "10.0.0.1")) by by vm_compute.
    rewrite Hq in Hip. by injection Hip as ->. }
  rewrite Eip in Hk. apply Hk.
Defined.

(** the message of a parse error is neither escaped nor stripped of its own
    position: the text of a string literal of the query reaches the page as
    markup, and the position prefix appears twice. *)
Theorem error_page_not_escaped :
  interpreter_begin (H := latin1_db) (conn := Z) [] 0 browser (34 :: u "<b>x</b>" ++ [34]) no_slots =
  (inl (ErrorPage 400 (
     u "<html><body><p><strong style=" ++ [34] ++ u "color:#FF0000" ++ [34] ++ u ">Error</strong>: " ++
     u "line 1: parse error: line 1: parse error: unexpected token '" ++ [34] ++ u "<b>x</b>" ++ [34] ++
     u "'</p></body></html>")), no_slots).
Proof. by vm_compute. Qed.
