(* ===== verification/Sql.v ===== *)
(** The relational operators of the SQL the program assembles, on bags of rows
    represented as lists: joins, [IN] filters and the ranking
    [QUALIFY row_number() OVER (PARTITION BY id ORDER BY rank DESC) = 1].
    Rows have an integer [id] column. *)
From S2P Require Import Prelude.

Class Keyed (R : Type) := id_of : R -> Z.

(** * Operators *)
Section Joins.
Context {A B C : Type}.

(** [FROM l LEFT JOIN r ON on] *)
Definition left_join (on : A -> B -> bool) (f : A -> option B -> C) (l : list A) (r : list B) : list C :=
  flat_map (fun a => match base.filter (fun b => on a b = true) r with
                     | [] => [f a None]
                     | bs => map (fun b => f a (Some b)) bs
                     end) l.

(** [FROM l JOIN r ON on] *)
Definition inner_join (on : A -> B -> bool) (f : A -> B -> C) (l : list A) (r : list B) : list C :=
  flat_map (fun a => map (f a) (base.filter (fun b => on a b = true) r)) l.
End Joins.

Section Rows.
Context {R : Type} `{Keyed R}.

Definition ids (l : list R) : list Z := map id_of l.
Definition mem (i : Z) (l : list Z) : bool := existsb (Z.eqb i) l.

(** [WHERE id IN (SELECT id FROM ...)] and [NOT IN]; the ids are never null. *)
Definition where_in (js : list Z) (l : list R) : list R := base.filter (fun r => mem (id_of r) js = true) l.
Definition where_not_in (js : list Z) (l : list R) : list R := base.filter (fun r => mem (id_of r) js = false) l.

(** The first row with an id: the row, when ids are unique. *)
Fixpoint find_id (i : Z) (l : list R) : option R :=
  match l with
  | [] => None
  | r :: l => if id_of r =? i then Some r else find_id i l
  end.

(** Of the rows with one id, the one of the highest rank; the first of them on
    equal ranks. *)
Fixpoint qualify_from (before l : list (Z * R)) : list R :=
  match l with
  | [] => []
  | x :: rest =>
      let beats y := negb (id_of y.2 =? id_of x.2) || (y.1 <? x.1) in
      let holds y := negb (id_of y.2 =? id_of x.2) || (y.1 <=? x.1) in
      if forallb beats before && forallb holds rest
      then x.2 :: qualify_from (before ++ [x]) rest
      else qualify_from (before ++ [x]) rest
  end.
Definition qualify (l : list (Z * R)) : list R := qualify_from [] l.

(** * Lemmas *)
Definition unique (l : list R) : Prop := NoDup (ids l).

Lemma mem_spec i l : mem i l = true <-> i ∈ l.
Proof.
  unfold mem. rewrite existsb_exists. setoid_rewrite Z.eqb_eq. rewrite list_elem_of_In. naive_solver.
Qed.
Lemma mem_false i l : mem i l = false <-> i ∉ l.
Proof. rewrite <- mem_spec. destruct (mem i l); naive_solver. Qed.

Lemma elem_of_where_in js l r : r ∈ where_in js l <-> r ∈ l /\ id_of r ∈ js.
Proof. unfold where_in. rewrite list_elem_of_filter, mem_spec. tauto. Qed.
Lemma elem_of_where_not_in js l r : r ∈ where_not_in js l <-> r ∈ l /\ id_of r ∉ js.
Proof. unfold where_not_in. rewrite list_elem_of_filter, mem_false. tauto. Qed.

Lemma find_id_Some i l r : find_id i l = Some r -> r ∈ l /\ id_of r = i.
Proof.
  induction l as [|x l IH]; [done|]. simpl. destruct (Z.eqb_spec (id_of x) i).
  - intros [= ->]. split; [left|done].
  - intros [? ?]%IH. split; [by right|done].
Qed.
Lemma find_id_None i l : find_id i l = None <-> i ∉ ids l.
Proof.
  induction l as [|x l IH]; simpl.
  - split; [intros _ Hi; inversion Hi|done].
  - rewrite elem_of_cons. destruct (Z.eqb_spec (id_of x) i); [naive_solver|]. rewrite IH. naive_solver.
Qed.
Lemma find_id_is_Some i l : is_Some (find_id i l) <-> i ∈ ids l.
Proof.
  destruct (find_id i l) eqn:E.
  - split; [intros _|eauto]. apply find_id_Some in E as [Hr <-]. by apply elem_of_map_2.
  - apply find_id_None in E. split; [by intros [? ?]|done].
Qed.

Lemma find_id_unique l r : unique l -> r ∈ l -> find_id (id_of r) l = Some r.
Proof.
  induction l as [|x l IH]; intros Hu Hr; [inversion Hr|].
  apply NoDup_cons in Hu as [Hx Hu]. simpl. apply elem_of_cons in Hr as [->|Hr].
  - by rewrite Z.eqb_refl.
  - destruct (Z.eqb_spec (id_of x) (id_of r)) as [E|]; [|by apply IH].
    destruct Hx. rewrite E. by apply elem_of_map_2.
Qed.
Lemma unique_elem l r i : unique l -> r ∈ l /\ id_of r = i <-> find_id i l = Some r.
Proof. intros Hu. split; [intros [? <-]; by apply find_id_unique | apply find_id_Some]. Qed.

Lemma unique_filter (P : R -> Prop) `{!forall r, Decision (P r)} l : unique l -> unique (base.filter P l).
Proof.
  unfold unique, ids. induction l as [|x l IH]; simpl; [done|]. intros [Hx Hu]%NoDup_cons.
  rewrite filter_cons. destruct (decide (P x)); simpl; [|by apply IH].
  apply NoDup_cons. split; [|by apply IH].
  intros (y & Hy & Hin)%elem_of_map. apply Hx. rewrite Hy. apply list_elem_of_filter in Hin as [_ Hin].
  by apply elem_of_map_2.
Qed.

Lemma find_id_app i l1 l2 :
  find_id i (l1 ++ l2) = match find_id i l1 with Some r => Some r | None => find_id i l2 end.
Proof. induction l1 as [|x l1 IH]; simpl; [done|]. by destruct (_ =? _). Qed.

Lemma find_id_where_in i js l : find_id i (where_in js l) = if mem i js then find_id i l else None.
Proof.
  unfold where_in. induction l as [|x l IH]; simpl; [by destruct (mem i js)|]. rewrite filter_cons.
  destruct (decide (mem (id_of x) js = true)) as [Hm|Hm]; simpl; rewrite ?IH.
  - destruct (Z.eqb_spec (id_of x) i) as [<-|]; [by rewrite Hm|done].
  - destruct (Z.eqb_spec (id_of x) i) as [<-|]; [|done]. by destruct (mem (id_of x) js).
Qed.
Lemma find_id_where_not_in i js l : find_id i (where_not_in js l) = if mem i js then None else find_id i l.
Proof.
  unfold where_not_in. induction l as [|x l IH]; simpl; [by destruct (mem i js)|]. rewrite filter_cons.
  destruct (decide (mem (id_of x) js = false)) as [Hm|Hm]; simpl; rewrite ?IH.
  - destruct (Z.eqb_spec (id_of x) i) as [<-|]; [by rewrite Hm|done].
  - destruct (Z.eqb_spec (id_of x) i) as [<-|]; [|done]. by destruct (mem (id_of x) js).
Qed.

(** ** The ranking *)
Lemma elem_of_qualify_from before l r :
  r ∈ qualify_from before l <->
  exists k l1 l2, l = l1 ++ (k, r) :: l2 /\
    (forall y, y ∈ before ++ l1 -> id_of y.2 = id_of r -> y.1 < k) /\
    (forall y, y ∈ l2 -> id_of y.2 = id_of r -> y.1 <= k).
Proof.
  revert before. induction l as [|x l IH]; intros before; cbn [qualify_from].
  - split; [intros Hr; inversion Hr|]. intros (k & l1 & l2 & E & _). by destruct l1.
  - set (b := forallb _ before && forallb _ l).
    assert (Hb : b = true <->
      (forall y, y ∈ before -> id_of y.2 = id_of x.2 -> y.1 < x.1) /\
      (forall y, y ∈ l -> id_of y.2 = id_of x.2 -> y.1 <= x.1)).
    { subst b. rewrite andb_true_iff, !forallb_forall. setoid_rewrite orb_true_iff.
      setoid_rewrite negb_true_iff. setoid_rewrite Z.eqb_neq. setoid_rewrite Z.ltb_lt. setoid_rewrite Z.leb_le.
      setoid_rewrite list_elem_of_In. split; intros [H1 H2]; split; intros y Hy.
      - intros E. by destruct (H1 y Hy).
      - intros E. by destruct (H2 y Hy).
      - destruct (decide (id_of y.2 = id_of x.2)); [right; auto|by left].
      - destruct (decide (id_of y.2 = id_of x.2)); [right; auto|by left]. }
    assert (Hrest : r ∈ qualify_from (before ++ [x]) l <->
      exists k l1 l2, x :: l = (x :: l1) ++ (k, r) :: l2 /\
        (forall y, y ∈ before ++ x :: l1 -> id_of y.2 = id_of r -> y.1 < k) /\
        (forall y, y ∈ l2 -> id_of y.2 = id_of r -> y.1 <= k)).
    { rewrite IH. split; intros (k & l1 & l2 & E & H1 & H2); exists k, l1, l2.
      - split_and!; [by rewrite E| |done]. intros y. rewrite <- (app_assoc before [x]) in H1. apply H1.
      - split_and!; [by injection E| |done]. intros y. rewrite <- (app_assoc before [x]). apply H1. }
    transitivity ((b = true /\ r = x.2) \/ r ∈ qualify_from (before ++ [x]) l).
    { destruct b; rewrite ?elem_of_cons; naive_solver. }
    rewrite Hb, Hrest. split.
    + intros [[[H1 H2] ->]|(k & l1 & l2 & E & H1 & H2)].
      * exists x.1, [], l. rewrite app_nil_r. split_and!; [by destruct x|done|done].
      * by exists k, (x :: l1), l2.
    + intros (k & [|x' l1] & l2 & E & H1 & H2).
      * injection E as -> ->. left. rewrite app_nil_r in H1. done.
      * injection E as -> ->. right. by exists k, l1, l2.
Qed.

(** Tiers in descending order of rank. *)
Fixpoint newest (i : Z) (ts : list (Z * list R)) : option R :=
  match ts with
  | [] => None
  | t :: ts => match find_id i t.2 with Some r => Some r | None => newest i ts end
  end.
Definition flat (ts : list (Z * list R)) : list (Z * R) := flat_map (fun t => map (pair t.1) t.2) ts.
Definition tiers_ok (ts : list (Z * list R)) : Prop :=
  StronglySorted (fun a b => b.1 < a.1) ts /\ Forall (fun t => unique t.2) ts.

Lemma elem_of_flat ts k r : (k, r) ∈ flat ts <-> exists l, (k, l) ∈ ts /\ r ∈ l.
Proof.
  unfold flat. rewrite list_elem_of_In, in_flat_map. setoid_rewrite <- list_elem_of_In. split.
  - intros ([k' l] & Hl & (r' & E & Hr)%elem_of_map). injection E as -> ->. eauto.
  - intros (l & Hl & Hr). exists (k, l). split; [done|]. by apply (elem_of_map_2 (pair k)).
Qed.

Lemma newest_spec i ts r : tiers_ok ts ->
  newest i ts = Some r <->
  id_of r = i /\ exists k, (k, r) ∈ flat ts /\ forall k' r', (k', r') ∈ flat ts -> id_of r' = i -> k' <= k.
Proof.
  intros [Hs Hu]. induction Hs as [|[k l] ts Hs IH Hk]; cbn [newest].
  - split; [done|]. intros (_ & k & Hr & _). inversion Hr.
  - apply Forall_cons in Hu as [Hu Hus]. specialize (IH Hus). rewrite Forall_forall in Hk.
    cbn [snd] in Hu. cbn [flat flat_map fst snd]. fold (flat ts).
    assert (Hl : forall k' r', (k', r') ∈ map (pair k) l ++ flat ts <-> (k' = k /\ r' ∈ l) \/ (k', r') ∈ flat ts).
    { intros k' r'. rewrite elem_of_app, (elem_of_map (pair k)). naive_solver. }
    setoid_rewrite Hl.
    assert (Hlow : forall k' r', (k', r') ∈ flat ts -> k' < k).
    { intros k' r' (l' & Hin & _)%elem_of_flat. by apply (Hk _ Hin). }
    destruct (find_id i l) as [r0|] eqn:E.
    + pose proof (find_id_Some _ _ _ E) as [Hr0 Hi0]. split.
      * intros [= <-]. split; [done|]. exists k. split; [by left|].
        intros k' r' [[-> _]|Hf] _; [lia|]. apply Hlow in Hf. lia.
      * intros (Hi & k1 & [[-> Hr]|Hf] & Hmax).
        -- cbn [snd] in E. rewrite <- Hi, (find_id_unique _ _ Hu Hr) in E. congruence.
        -- apply Hlow in Hf. assert (k <= k1) by (apply (Hmax k r0); auto). lia.
    + assert (Hno : forall r', r' ∈ l -> id_of r' <> i).
      { intros r' Hr' Hi. apply find_id_None in E. apply E. rewrite <- Hi. by apply elem_of_map_2. }
      rewrite IH. split; intros (Hi & k1 & Hf & Hmax); (split; [done|]; exists k1).
      * split; [by right|]. intros k' r' [[-> Hr']|Hf'] Hi'; [by apply Hno in Hr'|eauto].
      * destruct Hf as [[-> Hr]|Hf]; [by apply Hno in Hr|]. split; [done|]. intros; eapply Hmax; eauto.
Qed.

Lemma flat_nodup ts : tiers_ok ts -> NoDup (map (fun y : Z * R => (y.1, id_of y.2)) (flat ts)).
Proof.
  intros [Hs Hu]. induction Hs as [|[k l] ts Hs IH Hk]; [constructor|].
  apply Forall_cons in Hu as [Hu Hus]. cbn [flat flat_map fst snd]. fold (flat ts). rewrite map_app.
  apply NoDup_app. split_and!; [| |by apply IH].
  - rewrite map_map. cbn [fst snd]. cbn [snd] in Hu. clear -Hu. unfold unique, ids in Hu.
    rewrite <- (map_map id_of (pair k)). by apply (NoDup_fmap_2 (pair k)).
  - intros x Hx1 Hx2. apply elem_of_map in Hx1 as (y & -> & Hy). apply (elem_of_map (pair k)) in Hy as (r & -> & Hr).
    apply elem_of_map in Hx2 as (y & E & Hy). destruct y as [k' r']. injection E as Ek _.
    apply elem_of_flat in Hy as (l' & Hl' & _). rewrite Forall_forall in Hk. apply Hk in Hl'. cbn in *. lia.
Qed.

Lemma elem_of_qualify_flat ts r : tiers_ok ts -> r ∈ qualify (flat ts) <-> newest (id_of r) ts = Some r.
Proof.
  intros Hok. unfold qualify. rewrite elem_of_qualify_from, (newest_spec _ _ _ Hok). split.
  - intros (k & l1 & l2 & E & H1 & H2). split; [done|]. exists k. split.
    + rewrite E. rewrite elem_of_app, elem_of_cons. auto.
    + intros k' r' Hf Hi. rewrite E, elem_of_app, elem_of_cons in Hf.
      destruct Hf as [Hf|[[= -> ->]|Hf]]; [|lia|by apply (H2 _ Hf)].
      specialize (H1 _ Hf Hi). cbn in H1. lia.
  - intros (_ & k & Hf & Hmax). apply list_elem_of_split in Hf as (l1 & l2 & E). exists k, l1, l2.
    pose proof (flat_nodup _ Hok) as Hn. rewrite E, map_app in Hn. cbn [map fst snd] in Hn.
    split_and!; [done| |].
    + intros [k' r'] Hy Hi. cbn in Hi |- *.
      assert (k' <= k) by (apply (Hmax k' r'); [rewrite E, elem_of_app; by left|done]).
      assert (k' <> k); [|lia]. intros ->. apply NoDup_app in Hn as (_ & Hd & _).
      apply (Hd (k, id_of r)); [|left]. apply elem_of_map. exists (k, r'). cbn. by rewrite Hi.
    + intros [k' r'] Hy Hi. apply (Hmax k' r'); [|done]. rewrite E, elem_of_app, elem_of_cons. auto.
Qed.

Lemma unique_qualify l : unique (qualify l).
Proof.
  unfold qualify. generalize (@nil (Z * R)). induction l as [|x l IH]; intros before; cbn [qualify_from]; [constructor|].
  destruct (forallb _ before && forallb _ l) eqn:E; [|by apply IH].
  apply NoDup_cons. split; [|by apply IH]. apply andb_prop in E as [_ E]. rewrite forallb_forall in E.
  intros (z & Hz & Hin)%elem_of_map. apply elem_of_qualify_from in Hin as (k & l1 & l2 & -> & H1 & _).
  assert (Hlt : x.1 < k) by (apply H1; [rewrite !elem_of_app, list_elem_of_singleton; auto|done]).
  assert (Hle : k <= x.1).
  { assert (Hin : In (k, z) (l1 ++ (k, z) :: l2)) by (apply in_or_app; right; by left).
    specialize (E _ Hin). cbn in E. rewrite <- Hz, Z.eqb_refl in E. by apply Z.leb_le. }
  lia.
Qed.

Lemma find_id_qualify ts i : tiers_ok ts -> find_id i (qualify (flat ts)) = newest i ts.
Proof.
  intros Hok. destruct (newest i ts) as [r|] eqn:E.
  - pose proof (proj1 (newest_spec _ _ _ Hok) E) as [<- _].
    apply find_id_unique; [apply unique_qualify|]. by apply elem_of_qualify_flat.
  - destruct (find_id i _) as [r|] eqn:Ef; [|done]. apply find_id_Some in Ef as [Hr <-].
    apply elem_of_qualify_flat in Hr; [congruence|done].
Qed.

(** ** Joins on the id *)
Context {A : Type} `{Keyed A}.

Lemma left_join_unique {C : Type} (f : A -> option R -> C) l r : unique r ->
  left_join (fun a b => id_of b =? id_of a) f l r = map (fun a => f a (find_id (id_of a) r)) l.
Proof.
  intros Hu. unfold left_join. induction l as [|a l IH]; cbn [flat_map]; [done|]. rewrite IH. clear IH. cbn [map].
  match goal with |- ?x ++ _ = ?z :: _ => enough (x = [z]) as -> by done end.
  induction r as [|b r IHr]; simpl; [done|]. apply NoDup_cons in Hu as [Hb Hu]. rewrite filter_cons.
  destruct (Z.eqb_spec (id_of b) (id_of a)) as [E|E]; [|by apply IHr].
  rewrite decide_True by done. simpl.
  destruct (base.filter (fun b0 => (id_of b0 =? id_of a) = true) r) as [|b0 l0] eqn:Ef; [done|].
  exfalso. apply Hb. assert (Hin : b0 ∈ b0 :: l0) by left. rewrite <- Ef in Hin.
  apply list_elem_of_filter in Hin as [E0%Z.eqb_eq Hin]. rewrite E, <- E0. by apply elem_of_map_2.
Qed.
End Rows.

#[export] Hint Resolve unique_qualify : osm.
