(* ===== verification/PyTime.v ===== *)
(** [datetime.strptime(s, "%Y-%m-%dT%H:%M:%SZ")] of the Python standard library
    (literals match case-insensitively, a digit is any decimal digit where the
    directive says so), and the truncations to the hour and the day. *)
From S2P Require Import Prelude PyStr.

Record datetime := { year : Z; month : Z; day : Z; hour_ : Z; minute : Z; second : Z }.

#[export] Instance datetime_eq_dec : EqDecision datetime.
Proof. solve_decision. Defined.

Definition is_leap (y : Z) : bool := (y mod 4 =? 0) && (negb (y mod 100 =? 0) || (y mod 400 =? 0)).
Definition days_in_month (y m : Z) : Z :=
  if m =? 2 then (if is_leap y then 29 else 28)
  else if (m =? 4) || (m =? 6) || (m =? 9) || (m =? 11) then 30 else 31.

Definition valid_datetime (t : datetime) : bool :=
  (1 <=? year t) && (1 <=? month t) && (month t <=? 12) &&
  (1 <=? day t) && (day t <=? days_in_month (year t) (month t)) && (second t <=? 59).

Section Strptime.
Context `{UnicodeDB}.

(** An ASCII digit between two bounds, and any decimal digit. *)
Definition between (lo hi c : Z) : bool := (48 + lo <=? c) && (c <=? 48 + hi).
Definition any_digit (c : Z) : bool := if py_decimal c is Some _ then true else false.
Definition digit_value (c : Z) : Z := default 0 (py_decimal c).
Definition number (s : pystr) : Z := fold_left (fun a c => 10 * a + digit_value c) s 0.

(** The text up to a separator. *)
Fixpoint until (stop : Z -> bool) (s : pystr) : option (pystr * pystr) :=
  match s with
  | [] => None
  | c :: s => if stop c then Some ([], s)
              else '(a, r) ← until stop s; Some (c :: a, r)
  end.

Definition Y_ok (s : pystr) : bool :=
  match s with [a; b; c; d] => any_digit a && any_digit b && any_digit c && any_digit d | _ => false end.
Definition m_ok (s : pystr) : bool :=
  match s with
  | [a; b] => (between 1 1 a && between 0 2 b) || (between 0 0 a && between 1 9 b)
  | [a] => between 1 9 a
  | _ => false
  end.
Definition d_ok (s : pystr) : bool :=
  match s with
  | [a; b] => (between 3 3 a && between 0 1 b) || (between 1 2 a && any_digit b) ||
              (((a =? 32) || between 0 0 a) && between 1 9 b)
  | [a] => between 1 9 a
  | _ => false
  end.
Definition H_ok (s : pystr) : bool :=
  match s with
  | [a; b] => (between 2 2 a && between 0 3 b) || (between 0 1 a && any_digit b)
  | [a] => any_digit a
  | _ => false
  end.
Definition M_ok (s : pystr) : bool :=
  match s with [a; b] => between 0 5 a && any_digit b | [a] => any_digit a | _ => false end.
Definition S_ok (s : pystr) : bool :=
  match s with
  | [a; b] => (between 6 6 a && between 0 1 b) || (between 0 5 a && any_digit b)
  | [a] => any_digit a
  | _ => false
  end.

Definition field (ok : pystr -> bool) (stop : Z -> bool) (s : pystr) : option (Z * pystr) :=
  '(a, r) ← until stop s;
  if ok a then Some (number (lstrip_by (Z.eqb 32) a), r) else None.

(** [None] stands for [ValueError]. *)
Definition strptime (s : pystr) : option datetime :=
  '(y, s) ← field Y_ok (Z.eqb 45) s;
  '(mo, s) ← field m_ok (Z.eqb 45) s;
  '(d, s) ← field d_ok (fun c => (c =? 84) || (c =? 116)) s;
  '(h, s) ← field H_ok (Z.eqb 58) s;
  '(mi, s) ← field M_ok (Z.eqb 58) s;
  '(se, s) ← field S_ok (fun c => (c =? 90) || (c =? 122)) s;
  let t := {| year := y; month := mo; day := d; hour_ := h; minute := mi; second := se |} in
  if (s =s []) && valid_datetime t then Some t else None.
End Strptime.

(** [dt.replace(...)]; parsed times carry no microseconds. *)
Definition floor_hour (t : datetime) : datetime :=
  {| year := year t; month := month t; day := day t; hour_ := hour_ t; minute := 0; second := 0 |}.
Definition floor_day (t : datetime) : datetime :=
  {| year := year t; month := month t; day := day t; hour_ := 0; minute := 0; second := 0 |}.

Example strptime_sample :
  @strptime latin1_db (u "2026-09-19T00:23:06Z") =
  Some {| year := 2026; month := 9; day := 19; hour_ := 0; minute := 23; second := 6 |}.
Proof. by vm_compute. Qed.
