(* ===== verification/Tiers.v ===== *)
(** [update/updater.py], the rolling delta tiers: merging a batch into a tier,
    writing a tier version with its tombstones and cells, and folding hour into
    day and day into week when the clock crosses a boundary.  A Parquet file is
    the bag of its rows; a tier carries the contents of its files. *)
From S2P Require Import Prelude PyStr Sql PyTime.

Inductive etype := TNode | TWay | TRelation.
Definition _TYPES : list etype := [TNode; TWay; TRelation].
#[export] Instance etype_eq_dec : EqDecision etype.
Proof. solve_decision. Defined.

(** A delta row: the columns the delta logic reads; [data] is the rest of the
    base columns. *)
Record delta_row (D : Type) := {
  r_id : Z;
  r_cell : option pystr;
  data : D;
  deleted : bool;
  prev_cell : option pystr;
  r_seq : Z
}.
Arguments r_id {D} _. Arguments r_cell {D} _. Arguments data {D} _.
Arguments deleted {D} _. Arguments prev_cell {D} _. Arguments r_seq {D} _.
Arguments Build_delta_row {D} _ _ _ _ _ _.
#[export] Instance delta_row_keyed {D} : Keyed (delta_row D) := r_id.

Definition with_prev {D} (p : option pystr) (r : delta_row D) : delta_row D :=
  {| r_id := r_id r; r_cell := r_cell r; data := data r; deleted := deleted r;
     prev_cell := p; r_seq := r_seq r |}.

Section Tiers.
Context `{UnicodeDB} {B S : Type}.

(** The byid and the spatial table of one element type. *)
Record tables := { t_byid : list (delta_row B); t_spatial : list (delta_row S) }.

Record tombstone := { tb_type : etype; tb_id : Z; tb_prev_cell : pystr; tb_seq : Z }.

(** An entry of the manifest's [deltas], with the contents of its files. *)
Record tier := {
  version : Z;
  seq_from : option Z;
  seq_to : option Z;
  timestamp : option pystr;
  rows : etype -> Z;
  cells : etype -> list pystr;
  files : etype -> tables;
  tombstones : list tombstone
}.
Record deltas := { hour : option tier; day : option tier; week : option tier }.

Definition same_id {X Y : Type} `{Keyed X} `{Keyed Y} (a : X) (b : Y) : bool := id_of b =? id_of a.

(** * _merge_type *)
Definition merge_byid (new old : list (delta_row B)) : list (delta_row B) :=
  left_join same_id
    (fun n o => with_prev (match o with Some o => prev_cell o | None => prev_cell n end) n) new old ++
  where_not_in (ids new) old.

(** The row of an id only the old tier has: the old spatial columns, the rest
    from the old byid table. *)
Definition kept_old (ob : delta_row B) (os : delta_row S) : delta_row S :=
  {| r_id := r_id os; r_cell := r_cell os; data := data os; deleted := deleted ob;
     prev_cell := prev_cell ob; r_seq := r_seq ob |}.

Definition merge_spatial (new_byid old_byid : list (delta_row B)) (new_spatial old_spatial : list (delta_row S)) :
    list (delta_row S) :=
  left_join same_id
    (fun n ob => with_prev (match ob with Some ob => prev_cell ob | None => prev_cell n end) n) new_spatial old_byid ++
  inner_join same_id kept_old (where_not_in (ids new_byid) old_byid) old_spatial.

(** [_merge_type] on the tables of one type; [None] when there is no old tier. *)
Definition _merge_type (new : tables) (old : option tables) : tables :=
  match old with
  | None => new
  | Some o => {| t_byid := merge_byid (t_byid new) (t_byid o);
                 t_spatial := merge_spatial (t_byid new) (t_byid o) (t_spatial new) (t_spatial o) |}
  end.

Definition _load_old (meta : option tier) (typ : etype) : option tables := (fun t => files t typ) <$> meta.

(** * _write_tier_version *)
(** [WHERE prev_cell IS NOT NULL AND (prev_cell != cell OR deleted)], a
    comparison with NULL being unknown. *)
Definition leaves_tombstone (r : delta_row B) : option pystr :=
  match prev_cell r with
  | None => None
  | Some p =>
      if (match r_cell r with Some c => negb (p =s c) | None => false end) || deleted r then Some p else None
  end.
Definition tomb_pieces (typ : etype) (byid : list (delta_row B)) : list tombstone :=
  omap (fun r => (fun p => {| tb_type := typ; tb_id := r_id r; tb_prev_cell := p; tb_seq := r_seq r |})
                 <$> leaves_tombstone r) byid.

Definition _write_tier_version (merged : etype -> tables) (from to : option Z) (ts : option pystr)
    (version : Z) : option tier :=
  if (length (concat (map (fun t => t_byid (merged t)) _TYPES)) =? 0)%nat then None
  else Some {|
    version := version; seq_from := from; seq_to := to; timestamp := ts;
    rows t := Z.of_nat (length (t_byid (merged t)));
    cells t := sorted_set (omap r_cell (t_spatial (merged t)));
    files := merged;
    tombstones := flat_map (fun t => tomb_pieces t (t_byid (merged t))) _TYPES
  |}.

(** * Boundary crossings *)
Definition _parse_ts (s : option pystr) : option datetime :=
  match s with None | Some [] => None | Some s => strptime s end.

Definition crossed (floor : datetime -> datetime) (old new : option datetime) : bool :=
  match old, new with Some a, Some b => negb (bool_decide (floor a = floor b)) | _, _ => false end.

Definition meta_ts (m : option tier) : option datetime :=
  match m with Some t => _parse_ts (timestamp t) | None => None end.

Definition _tier_crossings (ds : deltas) (batch_timestamp : option pystr) : bool * bool :=
  let batch_dt := _parse_ts batch_timestamp in
  let hour_crossed := crossed floor_hour (meta_ts (hour ds)) batch_dt in
  (hour_crossed, hour_crossed && crossed floor_day (meta_ts (day ds)) batch_dt).

(** * _write_tiers *)

(** [min(x for x in [a, b] if x is not None)] *)
Definition min_present (a b : option Z) : res Z :=
  match a, b with
  | Some a, Some b => Ok (Z.min a b)
  | Some x, None | None, Some x => Ok x
  | None, None => Raise ValueError
  end.

Definition next_version (m : option tier) : Z := (match m with Some t => version t | None => 0 end) + 1.
Definition seq_from_of (m : option tier) : option Z := m ≫= seq_from.

(** [if out: new_deltas[tier] = meta] *)
Definition put (out old : option tier) : option tier := match out with Some _ => out | None => old end.

(** [batch] is what [batch_byid_<t>] and [resolved[t]] hold. *)
Definition _write_tiers (ds : deltas) (batch : etype -> tables) (first_seq last_seq : Z)
    (batch_timestamp : option pystr) : res deltas :=
  let '(hour_crossed, day_crossed) := _tier_crossings ds batch_timestamp in
  match hour_crossed, hour ds with
  | true, Some hour_old =>
      let merged_day typ := _merge_type (files hour_old typ) (_load_old (day ds) typ) in
      let* day_seq_from := min_present (seq_from_of (day ds)) (seq_from hour_old) in
      let day_version := next_version (day ds) in
      let hour' := _write_tier_version batch (Some first_seq) (Some last_seq) batch_timestamp
                     (next_version (hour ds)) in
      if day_crossed then
        let merged_week typ := _merge_type (merged_day typ) (_load_old (week ds) typ) in
        let* week_seq_from := min_present (seq_from_of (week ds)) (Some day_seq_from) in
        let week' := _write_tier_version merged_week (Some week_seq_from) (seq_to hour_old)
                       (timestamp hour_old) (next_version (week ds)) in
        let day' := _write_tier_version batch (Some first_seq) (Some last_seq) batch_timestamp day_version in
        Ok {| hour := put hour' (hour ds); day := put day' (day ds); week := put week' (week ds) |}
      else
        let day' := _write_tier_version merged_day (Some day_seq_from) (seq_to hour_old)
                      (timestamp hour_old) day_version in
        Ok {| hour := put hour' (hour ds); day := put day' (day ds); week := week ds |}
  | _, hour_old =>
      let merged_hour typ := _merge_type (batch typ) (_load_old hour_old typ) in
      let from := match hour_old with Some h => seq_from h | None => Some first_seq end in
      let hour' := _write_tier_version merged_hour from (Some last_seq) batch_timestamp
                     (next_version hour_old) in
      Ok {| hour := put hour' hour_old; day := day ds; week := week ds |}
  end.
End Tiers.
Arguments tables B S : clear implicits.
Arguments tier B S : clear implicits.
Arguments deltas B S : clear implicits.
