(* ===== verification/DeltaRead.v ===== *)
(** [engine/sources.py], the delta read path: the rows of a table in a list of
    cells, and the rows of a list of ids, from the base files and the tiers.
    A file is the bag of its rows; the SQL predicate of a query is a boolean
    function of a row. *)
From S2P Require Import Prelude PyStr Sql Tiers.

(** A base row. *)
Record base_row (D : Type) := { b_id : Z; b_cell : option pystr; b_data : D }.
Arguments b_id {D} _. Arguments b_cell {D} _. Arguments b_data {D} _.
Arguments Build_base_row {D} _ _ _.
#[export] Instance base_row_keyed {D} : Keyed (base_row D) := b_id.

(** [{project(cols)}]: a delta row read as a base row. *)
Definition project {D} (r : delta_row D) : base_row D :=
  {| b_id := r_id r; b_cell := r_cell r; b_data := data r |}.

Section Read.
Context {B S : Type}.

(** The present tiers with their ranks, highest first. *)
Definition delta_tiers (ds : deltas B S) : list (Z * tier B S) :=
  omap (fun x : Z * option (tier B S) => pair x.1 <$> x.2) [(3, hour ds); (2, day ds); (1, week ds)].

(** [cell IN (...)]: a NULL cell is in no list. *)
Definition cell_in (cells : list pystr) (c : option pystr) : bool :=
  match c with Some c => str_in c cells | None => false end.

Record delta_layer := {
  cand : list (delta_row S);
  shadow : list Z
}.

Definition tomb_ids (typ : etype) (cells : list pystr) (t : tier B S) : list Z :=
  map tb_id (base.filter (fun x => bool_decide (tb_type x = typ) && str_in (tb_prev_cell x) cells = true)
               (tombstones t)).

Definition spatial_delta_layer (ds : deltas B S) (typ : etype) (cells : list pystr) : option delta_layer :=
  match delta_tiers ds, cells with
  | [], _ | _, [] => None
  | tiers, _ =>
      let cand := qualify (flat_map (fun t => map (pair t.1)
                    (base.filter (fun r => cell_in cells (r_cell r) = true) (t_spatial (files t.2 typ)))) tiers) in
      Some {| cand := cand;
              shadow := remove_dups (ids cand ++ flat_map (fun t => tomb_ids typ cells t.2) tiers) |}
  end.

(** [catalog.DELTA_STATS] *)
Record DeltaStats := { delta_rows : Z; shadowed : Z }.
Definition add_stats (rows sh : Z) (st : DeltaStats) : DeltaStats :=
  {| delta_rows := delta_rows st + rows; shadowed := shadowed st + sh |}.

Definition count {A} (l : list A) : Z := Z.of_nat (length l).
Definition select {D} (p : base_row D -> bool) (l : list (base_row D)) : list (base_row D) :=
  base.filter (fun r => p r = true) l.

(** [base] holds the rows of [base_files]. *)
Definition current_rows (ds : deltas B S) (typ : etype) (cells : list pystr) (base : list (base_row S))
    (where_ : base_row S -> bool) (st : DeltaStats) : list (base_row S) * DeltaStats :=
  match spatial_delta_layer ds typ cells with
  | None => (select where_ base, st)
  | Some l =>
      let chosen := select where_ base in
      (where_not_in (shadow l) chosen ++
       select where_ (map project (base.filter (fun r => deleted r = false) (cand l))),
       add_stats (count (cand l)) (count (where_in (shadow l) chosen)) st)
  end.

Definition byid_current_rows (ds : deltas B S) (typ : etype) (base : list (base_row B))
    (id_pred : Z -> bool) (tag_where : base_row B -> bool) (st : DeltaStats) : list (base_row B) * DeltaStats :=
  let chosen := select (fun r => id_pred (b_id r)) base in
  match delta_tiers ds with
  | [] => (select tag_where chosen, st)
  | tiers =>
      let cand := qualify (flat_map (fun t => map (pair t.1)
                    (base.filter (fun r => id_pred (r_id r) = true) (t_byid (files t.2 typ)))) tiers) in
      (where_not_in (ids cand) (select tag_where chosen) ++
       select tag_where (map project (base.filter (fun r => deleted r = false) cand)),
       add_stats (count cand) (count (where_in (ids cand) chosen)) st)
  end.
End Read.
