(* ===== verification/TiersFacts.v ===== *)
(** Theorems on the delta tiers: an update run refines the abstract state (a
    map from ids to rows) whatever boundaries it crosses, and keeps the
    invariant that makes the tombstones of the tiers complete. *)
From S2P Require Import Prelude PyStr Sql PyTime Tiers DeltaRead.

Section TiersFacts.
Context `{UnicodeDB} {B S : Type}.
Implicit Types (ds : deltas B S) (t : tables B S).

(** * Well-formed tiers *)
(** The two tables of a type hold the same elements. *)
Definition agree {D E : Type} (a : option (delta_row D)) (b : option (delta_row E)) : Prop :=
  match a, b with
  | Some a, Some b => r_cell a = r_cell b /\ deleted a = deleted b /\ prev_cell a = prev_cell b
  | None, None => True
  | _, _ => False
  end.
Record tables_ok t : Prop := {
  ok_byid : unique (t_byid t);
  ok_spatial : unique (t_spatial t);
  ok_agree : forall i, agree (find_id i (t_byid t)) (find_id i (t_spatial t));
  (** an element that is not deleted has a cell *)
  ok_cell : forall i r, find_id i (t_byid t) = Some r -> deleted r = false -> is_Some (r_cell r)
}.

(** The content of a tier that may be absent. *)
Definition no_tables : tables B S := {| t_byid := []; t_spatial := [] |}.
Definition layer (m : option (tier B S)) (typ : etype) : tables B S :=
  match m with Some x => files x typ | None => no_tables end.

Record tier_ok (m : tier B S) : Prop := {
  ok_files : forall typ, tables_ok (files m typ);
  ok_tombs : forall typ i p, (exists x, x ∈ tombstones m /\ tb_type x = typ /\ tb_id x = i /\ tb_prev_cell x = p) <->
    exists r, r ∈ t_byid (files m typ) /\ r_id r = i /\ leaves_tombstone r = Some p;
  ok_from : is_Some (seq_from m)
}.
Definition maybe_ok (m : option (tier B S)) : Prop := forall x, m = Some x -> tier_ok x.
Definition deltas_ok ds : Prop := maybe_ok (hour ds) /\ maybe_ok (day ds) /\ maybe_ok (week ds).

Lemma layer_ok m typ : maybe_ok m -> tables_ok (layer m typ).
Proof.
  destruct m as [x|]; intros Hm; [by apply Hm|]. split; try apply NoDup_nil_2; done.
Qed.

Lemma id_of_delta {D} (r : delta_row D) : id_of r = r_id r.
Proof. done. Qed.

(** * Merging *)
Definition merged {D E : Type} (n : option (delta_row D)) (o : option (delta_row E)) (o' : option (delta_row D)) :
    option (delta_row D) :=
  match n with
  | Some n => Some (with_prev (match o with Some o => prev_cell o | None => prev_cell n end) n)
  | None => o'
  end.

Lemma find_id_map {D} (f : delta_row D -> delta_row D) i l : (forall r, r_id (f r) = r_id r) ->
  find_id i (map f l) = f <$> find_id i l.
Proof.
  intros Hf. induction l as [|r l IH]; [done|]. cbn [find_id map]. rewrite !id_of_delta, Hf. by destruct (_ =? _).
Qed.

Lemma find_merge_byid new old i : unique old ->
  find_id i (@merge_byid B new old) = merged (find_id i new) (find_id i old) (find_id i old).
Proof.
  intros Ho. unfold merge_byid, same_id. rewrite left_join_unique by done.
  rewrite find_id_app. cbn zeta.
  replace (find_id i (map _ new)) with
    ((fun n => with_prev (match find_id (r_id n) old with Some o => prev_cell o | None => prev_cell n end) n) <$> find_id i new)
    by (symmetry; by apply (find_id_map (fun n => with_prev _ n))).
  rewrite find_id_where_not_in. unfold merged. destruct (find_id i new) as [n|] eqn:E; simpl.
  - apply find_id_Some in E as [_ <-]. done.
  - apply find_id_None in E. apply mem_false in E. by rewrite E.
Qed.

Lemma unique_map {D} (f : delta_row D -> delta_row D) l : (forall r, r_id (f r) = r_id r) -> unique l -> unique (map f l).
Proof.
  intros Hf. unfold unique, ids. rewrite map_map. erewrite map_ext; [done|]. intros r. symmetry. apply Hf.
Qed.

Lemma unique_app {D} (l1 l2 : list (delta_row D)) :
  unique l1 -> unique l2 -> (forall i, i ∈ ids l1 -> i ∉ ids l2) -> unique (l1 ++ l2).
Proof. intros. unfold unique, ids. rewrite map_app. by apply NoDup_app. Qed.

Lemma ids_map {D} (f : delta_row D -> delta_row D) l : (forall r, r_id (f r) = r_id r) -> ids (map f l) = ids l.
Proof. intros Hf. unfold ids. rewrite map_map. by apply map_ext. Qed.

Lemma ids_where_not_in {D} js (l : list (delta_row D)) i : i ∈ ids (where_not_in js l) -> i ∉ js /\ i ∈ ids l.
Proof.
  intros (r & -> & Hr)%elem_of_map. apply elem_of_where_not_in in Hr as [? ?].
  split; [done|]. by apply elem_of_map_2.
Qed.

Lemma unique_merge_byid new old : unique new -> unique old -> unique (@merge_byid B new old).
Proof.
  intros Hn Ho. unfold merge_byid, same_id. rewrite left_join_unique by done. apply unique_app.
  - by apply (unique_map (fun n => with_prev _ n)).
  - by apply unique_filter.
  - intros i Hi. rewrite (ids_map (fun n => with_prev _ n)) in Hi by done.
    intros [? ?]%ids_where_not_in. done.
Qed.

Lemma inner_join_unique {D E F : Type} (f : delta_row D -> delta_row E -> F) l r : unique r ->
  inner_join same_id f l r = omap (fun a => f a <$> find_id (r_id a) r) l.
Proof.
  intros Hu. unfold inner_join. induction l as [|a l IH]; [done|]. cbn [flat_map omap list_omap]. rewrite IH.
  assert (Ef : base.filter (fun b => same_id a b = true) r = option_list (find_id (r_id a) r)).
  { clear IH. induction r as [|b r IHr]; [done|]. apply NoDup_cons in Hu as [Hb Hu]. rewrite filter_cons.
    unfold same_id. cbn [find_id]. change (id_of a) with (r_id a).
    destruct (Z.eqb_spec (id_of b) (r_id a)) as [Eb|]; [rewrite decide_True by done|by apply IHr].
    cbn. f_equal. specialize (IHr Hu). unfold same_id in IHr. change (id_of a) with (r_id a) in IHr. rewrite IHr.
    rewrite <- Eb. by rewrite (proj2 (find_id_None (id_of b) r) Hb). }
  rewrite Ef. by destruct (find_id (r_id a) r).
Qed.

Lemma find_join_old (ls : list (delta_row B)) (os : list (delta_row S)) i : unique ls -> unique os ->
  find_id i (omap (fun ob => kept_old ob <$> find_id (r_id ob) os) ls) =
  (ob ← find_id i ls; kept_old ob <$> find_id i os).
Proof.
  intros Hl Ho. induction ls as [|ob ls IH]; [done|]. apply NoDup_cons in Hl as [Hb Hl].
  specialize (IH Hl). cbn [omap list_omap find_id].
  destruct (find_id (r_id ob) os) as [o|] eqn:Eo; cbn [fmap option_fmap option_map].
  - pose proof (find_id_Some _ _ _ Eo) as [_ Hid]. cbn [find_id]. change (id_of (kept_old ob o)) with (r_id o).
    change (id_of o) with (r_id o) in Hid. change (id_of ob) with (r_id ob). rewrite Hid.
    destruct (Z.eqb_spec (r_id ob) i) as [<-|]; [by rewrite Eo|exact IH].
  - change (id_of ob) with (r_id ob). destruct (Z.eqb_spec (r_id ob) i) as [<-|]; [|exact IH].
    rewrite IH. rewrite (proj2 (find_id_None (r_id ob) ls) Hb). simpl. by rewrite Eo.
Qed.

Lemma unique_join_old (ls : list (delta_row B)) (os : list (delta_row S)) : unique ls -> unique os ->
  unique (omap (fun ob => kept_old ob <$> find_id (r_id ob) os) ls) /\
  forall i, i ∈ ids (omap (fun ob => kept_old ob <$> find_id (r_id ob) os) ls) -> i ∈ ids ls.
Proof.
  intros Hl Ho. assert (Hin : forall i (l : list (delta_row B)), i ∈ ids (omap (fun ob => kept_old ob <$> find_id (r_id ob) os) l) -> i ∈ ids l).
  { intros i l (r & -> & (ob & Hob & E)%list_elem_of_omap)%elem_of_map.
    destruct (find_id (r_id ob) os) as [o|] eqn:Eo; [|done]. injection E as <-.
    apply find_id_Some in Eo as [_ Hid]. change (id_of (kept_old ob o)) with (id_of o). rewrite Hid.
    by apply (elem_of_map_2 r_id). }
  split; [|auto]. induction ls as [|ob ls IH]; [apply NoDup_nil_2|]. apply NoDup_cons in Hl as [Hb Hl].
  cbn [omap list_omap]. destruct (find_id (r_id ob) os) as [o|] eqn:Eo; [|by apply IH]. cbn.
  apply NoDup_cons. split; [|by apply IH]. apply find_id_Some in Eo as [_ Hid].
  change (id_of (kept_old ob o)) with (id_of o). rewrite Hid. intros Hi%Hin. by apply Hb.
Qed.

Lemma merge_ok new old : tables_ok new -> tables_ok old -> tables_ok (_merge_type new (Some old)).
Proof.
  intros [Hnb Hns Hna Hnc] [Hob Hos Hoa Hoc]. cbn [_merge_type].
  assert (Hkeep : unique (where_not_in (ids (t_byid new)) (t_byid old))) by by apply unique_filter.
  split; cbn [t_byid t_spatial].
  - by apply unique_merge_byid.
  - unfold merge_spatial. rewrite inner_join_unique by done. unfold same_id. rewrite left_join_unique by done.
    destruct (unique_join_old _ _ Hkeep Hos) as [Hu Hin]. apply unique_app; [|exact Hu|].
    + by apply (unique_map (fun n => with_prev _ n)).
    + intros i Hi. rewrite (ids_map (fun n => with_prev _ n)) in Hi by done.
      intros Hj%Hin. apply ids_where_not_in in Hj as [Hj _]. apply Hj.
      apply find_id_is_Some. specialize (Hna i). apply find_id_is_Some in Hi as [s Hs]. rewrite Hs in Hna.
      destruct (find_id i (t_byid new)); [eauto|done].
  - intros i. rewrite find_merge_byid by done. unfold merge_spatial.
    rewrite inner_join_unique by done. unfold same_id. rewrite left_join_unique by done.
    rewrite find_id_app. rewrite (find_join_old _ _ i Hkeep Hos), find_id_where_not_in.
    replace (find_id i (map _ (t_spatial new))) with
      ((fun n => with_prev (match find_id (r_id n) (t_byid old) with Some o => prev_cell o | None => prev_cell n end) n) <$> find_id i (t_spatial new))
      by (symmetry; by apply (find_id_map (fun n => with_prev _ n))).
    specialize (Hna i). specialize (Hoa i). unfold merged, agree in *.
    destruct (find_id i (t_byid new)) as [n|] eqn:En, (find_id i (t_spatial new)) as [ns|] eqn:Ens; try done.
    + cbn. apply find_id_Some in Ens as [_ <-]. split_and!; [apply Hna..|].
      change (id_of ns) with (r_id ns). destruct (find_id (r_id ns) (t_byid old)); [done|apply Hna].
    + cbn. apply find_id_None, mem_false in En. rewrite En.
      destruct (find_id i (t_byid old)) as [o|], (find_id i (t_spatial old)) as [os|]; try done.
      cbn. split_and!; [apply Hoa|done|done].
  - intros i r. rewrite find_merge_byid by done. unfold merged. destruct (find_id i (t_byid new)) as [n|] eqn:En.
    + intros [= <-]. cbn. by apply (Hnc i).
    + apply Hoc.
Qed.

(** * Writing a tier version *)
Lemma write_cases (m : etype -> tables B S) from to ts v :
  (_write_tier_version m from to ts v = None /\ forall typ, t_byid (m typ) = []) \/
  exists x, _write_tier_version m from to ts v = Some x /\ files x = m /\ seq_from x = from /\
    tombstones x = flat_map (fun typ => tomb_pieces typ (t_byid (m typ))) _TYPES.
Proof.
  unfold _write_tier_version. destruct (Nat.eqb_spec (length (concat (map (fun typ => t_byid (m typ)) _TYPES))) 0) as [E|E].
  - left. split; [done|]. cbn in E. rewrite !length_app in E. cbn in E.
    intros []; apply nil_length_inv; lia.
  - right. eexists. split_and!; reflexivity.
Qed.

Lemma written_ok (m : etype -> tables B S) x from :
  (forall typ, tables_ok (m typ)) -> files x = m -> seq_from x = Some from ->
  tombstones x = flat_map (fun typ => tomb_pieces typ (t_byid (m typ))) _TYPES -> tier_ok x.
Proof.
  intros Hm Hf Hs Ht. split; [intros; by rewrite Hf| |rewrite Hs; eauto].
  intros typ i p. rewrite Ht, Hf. setoid_rewrite list_elem_of_In. setoid_rewrite in_flat_map.
  split.
  - intros (tb & (typ' & _ & Htb) & Ety & Ei & Ep). unfold tomb_pieces in Htb.
    rewrite <- list_elem_of_In, list_elem_of_omap in Htb. destruct Htb as (r & Hr & E).
    destruct (leaves_tombstone r) as [p'|] eqn:El; [|done]. injection E as <-. cbn in *. subst.
    exists r. rewrite <- list_elem_of_In. done.
  - intros (r & Hr & Hi & Hl). eexists. split_and!.
    + exists typ. split; [by destruct typ; cbn; tauto|]. unfold tomb_pieces.
      rewrite <- list_elem_of_In, list_elem_of_omap. exists r. rewrite <- list_elem_of_In in Hr.
      split; [done|]. by rewrite Hl.
    + done.
    + done.
    + done.
Qed.

Lemma put_ok (m : etype -> tables B S) from to ts v old :
  (forall typ, tables_ok (m typ)) -> maybe_ok old -> maybe_ok (put (_write_tier_version m (Some from) to ts v) old).
Proof.
  intros Hm Ho. destruct (write_cases m (Some from) to ts v) as [[-> _]|(x & -> & Hf & Hs & Ht)]; [done|].
  intros ? [= <-]. by apply (written_ok m x from).
Qed.

(** What a tier's byid table holds for an id after writing [m] over [old]. *)
Definition no_rows (m : etype -> tables B S) : bool :=
  (length (concat (map (fun typ => t_byid (m typ)) _TYPES)) =? 0)%nat.

Lemma no_rows_nil m typ : no_rows m = true -> t_byid (m typ) = [].
Proof.
  intros E%Nat.eqb_eq. cbn in E. rewrite !length_app in E. cbn in E. destruct typ; apply nil_length_inv; lia.
Qed.

Lemma put_find (m : etype -> tables B S) from to ts v old typ i :
  find_id i (t_byid (layer (put (_write_tier_version m from to ts v) old) typ)) =
  if no_rows m then find_id i (t_byid (layer old typ)) else find_id i (t_byid (m typ)).
Proof. unfold _write_tier_version. fold (no_rows m). by destruct (no_rows m). Qed.

(** * The abstract state *)
Implicit Types (base : etype -> list (base_row B)).

Definition found (m : option (tier B S)) typ i : option (delta_row B) := find_id i (t_byid (layer m typ)).
Definition first_of {A} (a b c : option A) : option A :=
  match a with Some _ => a | None => match b with Some _ => b | None => c end end.
Definition newest_row ds typ i := first_of (found (hour ds) typ i) (found (day ds) typ i) (found (week ds) typ i).
Definition oldest_row ds typ i := first_of (found (week ds) typ i) (found (day ds) typ i) (found (hour ds) typ i).

(** What a delta row says about its element, over what was there before. *)
Definition over {D} (r : option (delta_row D)) (b : option (base_row D)) : option (base_row D) :=
  match r with Some r => if deleted r then None else Some (project r) | None => b end.

(** The current row of an id. *)
Definition current base ds typ i : option (base_row B) := over (newest_row ds typ i) (find_id i (base typ)).

(** The oldest tier that knows an id remembers where the base stores it. *)
Definition prev_ok base ds : Prop := forall typ i r,
  oldest_row ds typ i = Some r -> prev_cell r = find_id i (base typ) ≫= b_cell.

Definition batch_ok base ds (batch : etype -> tables B S) : Prop :=
  (forall typ, tables_ok (batch typ)) /\
  forall typ i n, find_id i (t_byid (batch typ)) = Some n -> prev_cell n = current base ds typ i ≫= b_cell.

(** ** One run, one id *)
(** What the three tiers hold for an id, before and after a run; only the fold
    of a run without rows leaves a tier that it folds. *)
Variant moved (empty : bool) (b h d w : option (delta_row B)) : option (delta_row B) -> option (delta_row B) -> option (delta_row B) -> Prop :=
  | moved_same : moved empty b h d w (merged b h h) d w
  | moved_hour h' : h' = b \/ empty = true /\ b = None /\ h' = h -> moved empty b h d w h' (merged h d d) w
  | moved_day h' d' : h' = b /\ d' = b \/ empty = true /\ b = None /\ h' = h /\ d' = d ->
      moved empty b h d w h' d' (merged (merged h d d) w w).

Lemma over_with_prev {D} p (n : delta_row D) b : over (Some (with_prev p n)) b = over (Some n) b.
Proof. done. Qed.

Lemma moved_current e b h d w h' d' w' x : moved e b h d w h' d' w' ->
  over (first_of h' d' w') x = over b (over (first_of h d w) x).
Proof.
  destruct 1 as [|h' [->|(? & -> & ->)]|h' d' [[-> ->]|(? & -> & -> & ->)]];
    repeat match goal with o : option _ |- _ => destruct o end; done.
Qed.

Lemma moved_prev e b h d w h' d' w' (c : option pystr) : moved e b h d w h' d' w' ->
  (forall n, b = Some n -> first_of h d w = None -> prev_cell n = c) ->
  (forall r, first_of w d h = Some r -> prev_cell r = c) ->
  forall r, first_of w' d' h' = Some r -> prev_cell r = c.
Proof.
  destruct 1 as [|h' [->|(? & -> & ->)]|h' d' [[-> ->]|(? & -> & -> & ->)]];
    repeat match goal with o : option _ |- _ => destruct o end; cbn; naive_solver.
Qed.

(** *** The chain of previous cells *)

(** The row of a tier names the cell the element has in the older tiers and the
    base; an hour row may instead name the cell its day row names, since a run
    that crosses midnight writes its batch to both tiers. *)
Definition linked (h d w : option (delta_row B)) (b : option (base_row B)) : Prop :=
  (forall y, w = Some y -> prev_cell y = b ≫= b_cell) /\
  (forall x, d = Some x -> prev_cell x = over w b ≫= b_cell) /\
  (forall z, h = Some z -> prev_cell z = over (first_of d w None) b ≫= b_cell \/
     exists x, d = Some x /\ prev_cell z = prev_cell x).
(** What a fold needs to find the base row of an element: a tombstone for its
    cell, or the newest row's cell or previous cell. *)
Definition touches (h d w : option (delta_row B)) (b : option (base_row B)) : Prop := forall c n,
  b ≫= b_cell = Some c -> first_of h d w = Some n ->
  r_cell n = Some c \/ prev_cell n = Some c \/
  exists x, (h = Some x \/ d = Some x \/ w = Some x) /\ leaves_tombstone x = Some c.
Definition placed_ok (r : option (delta_row B)) : Prop := forall x, r = Some x -> deleted x = false -> is_Some (r_cell x).

Lemma leaves_or_stays (x : delta_row B) c : placed_ok (Some x) -> prev_cell x = Some c ->
  leaves_tombstone x = Some c \/ (deleted x = false /\ r_cell x = Some c).
Proof.
  intros Hp Hc. unfold leaves_tombstone. rewrite Hc. destruct (deleted x) eqn:Ed; [left; by rewrite orb_true_r|].
  destruct (Hp x eq_refl Ed) as [c' Ec]. rewrite Ec. destruct (c =s c') eqn:Ecc; [|by left].
  apply str_eqb_eq in Ecc as <-. auto.
Qed.
Lemma linked_touches h d w b : placed_ok h -> placed_ok d -> placed_ok w -> linked h d w b -> touches h d w b.
Proof.
  intros Ph Pd Pw (Hw & Hd & Hh) c n Hc Hn.
  assert (Hover : forall m x, (m = h \/ m = d \/ m = w) -> placed_ok m -> m = Some x -> prev_cell x = Some c ->
    (exists y, (h = Some y \/ d = Some y \/ w = Some y) /\ leaves_tombstone y = Some c) \/ over m b ≫= b_cell = Some c /\ r_cell x = Some c).
  { intros m x Hm Pm -> Hx. destruct (leaves_or_stays x c Pm Hx) as [Hl|[Hd' Hx']]; [left; exists x; naive_solver|right].
    cbn. rewrite Hd'. done. }
  assert (Hdw : (exists y, (h = Some y \/ d = Some y \/ w = Some y) /\ leaves_tombstone y = Some c) \/
                over (first_of d w None) b ≫= b_cell = Some c /\
                (forall x, first_of d w None = Some x -> r_cell x = Some c) /\ forall x, d = Some x -> prev_cell x = Some c).
  { assert (Hw' : (exists y, (h = Some y \/ d = Some y \/ w = Some y) /\ leaves_tombstone y = Some c) \/
                over w b ≫= b_cell = Some c /\ forall x, w = Some x -> r_cell x = Some c).
    { destruct w as [y|]; [|by right]. destruct (Hover (Some y) y) as [?|[? ?]]; [auto|done|done| |by left|].
      - by rewrite (Hw y).
      - right. split; [done|]. by intros ? [= <-]. }
    destruct Hw' as [?|[Ew Hwc]]; [by left|]. destruct d as [x|]; [|right; split_and!; [by destruct w|by destruct w|done]].
    assert (Ex : prev_cell x = Some c) by (rewrite (Hd x eq_refl); done).
    destruct (Hover (Some x) x) as [?|[? ?]]; [auto|done|done|done|by left|]. right.
    split_and!; [done|by intros ? [= <-]|by intros ? [= <-]]. }
  destruct Hdw as [?|(Ec & Hcell & Hprev)]; [auto|]. destruct h as [z|].
  - injection Hn as <-. right. left. destruct (Hh z eq_refl) as [->|(x & Ex & ->)]; auto.
  - left. apply Hcell. destruct d; [done|]. by destruct w.
Qed.

Lemma project_with_prev {D} p (r : delta_row D) : project (with_prev p r) = project r.
Proof. done. Qed.
Ltac links :=
  cbn [first_of merged over with_prev prev_cell r_cell deleted] in *;
  repeat match goal with H : forall y, Some _ = Some y -> _ |- _ => specialize (H _ eq_refl) end;
  split_and!; intros ? [=]; subst; rewrite ?project_with_prev in *; cbn [with_prev prev_cell r_cell deleted];
  repeat match goal with H : _ \/ _ |- _ => destruct H as [?|(? & [=] & ?)]; subst end;
  try congruence;
  first [by left; congruence | right; eexists; split; [reflexivity|congruence]].

Lemma moved_linked b h d w h' d' w' x : moved false b h d w h' d' w' ->
  (forall n, b = Some n -> prev_cell n = over (first_of h d w) x ≫= b_cell) ->
  linked h d w x -> linked h' d' w' x.
Proof.
  destruct 1 as [|h' [->|(? & -> & ->)]|h' d' [[-> ->]|(? & -> & -> & ->)]]; try done;
    intros Hb (Hw & Hd & Hh); unfold linked;
    repeat match goal with o : option (delta_row _) |- _ => destruct o end; links.
Qed.
Lemma placed_merged p q r : placed_ok p -> placed_ok r -> placed_ok (@merged B B p q r).
Proof. intros Hp Hr x. destruct p as [y|]; [|apply Hr]. intros [= <-]. by apply (Hp y). Qed.

(** Whatever a run crosses, and with or without a batch, the base row of an
    element that a tier knows can be found afterwards. *)
Lemma moved_touches e b h d w h' d' w' x : moved e b h d w h' d' w' ->
  placed_ok b -> placed_ok h -> placed_ok d -> placed_ok w ->
  (forall n, b = Some n -> prev_cell n = over (first_of h d w) x ≫= b_cell) ->
  linked h d w x -> touches h' d' w' x.
Proof.
  intros Hm Pb Ph Pd Pw Hb Hl. pose proof (placed_merged h d d Ph Pd) as Phd. pose proof (placed_merged _ w w Phd Pw) as Phw.
  destruct e.
  2: { pose proof (moved_linked _ _ _ _ _ _ _ _ Hm Hb Hl) as Hl'. apply linked_touches; [..|exact Hl'];
       destruct Hm as [|h' [->|(? & -> & ->)]|h' d' [[-> ->]|(? & -> & -> & ->)]]; auto using placed_merged. }
  assert (Hfalse : forall h' d' w', moved false b h d w h' d' w' -> placed_ok h' -> placed_ok d' -> placed_ok w' -> touches h' d' w' x).
  { intros a1 a2 a3 Hm' P1 P2 P3. apply linked_touches; [done..|]. by apply (moved_linked b h d w). }
  destruct Hm as [|h' [->|(_ & -> & ->)]|h' d' [[-> ->]|(_ & -> & -> & ->)]].
  - apply Hfalse; [constructor|by apply placed_merged|done|done].
  - apply Hfalse; [constructor; by left|done..].
  - intros c n Hc Hn. pose proof (linked_touches _ _ _ _ Ph Pd Pw Hl c n Hc) as Hold. destruct h as [z|]; [|by apply Hold].
    injection Hn as <-. destruct Hl as (Hw & Hd & Hh). destruct (Hold eq_refl) as [?|[?|(y & [Hy|[Hy|Hy]] & Hleave)]]; [by left|right; by left|..].
    + right. right. exists y. auto.
    + subst d. assert (Hp : prev_cell (with_prev (prev_cell y) z) = Some c).
      { cbn. unfold leaves_tombstone in Hleave. destruct (prev_cell y) as [p|]; [|done]. by destruct (_ || _). }
      destruct (leaves_or_stays _ c (fun x E => Phd x E) Hp) as [Hz|[_ Hz]]; [|by left].
      right. right. exists (with_prev (prev_cell y) z). auto.
    + right. right. exists y. auto.
  - apply Hfalse; [constructor; by left|done..].
  - intros c n Hc Hn. destruct Hl as (Hw & Hd & Hh).
    assert (Hx : first_of h d w = None \/ exists x0, merged (merged h d d) w w = Some x0 /\ prev_cell x0 = Some c /\ r_cell n = r_cell x0).
    { destruct w as [y|]; [pose proof (Hw y eq_refl)|]; (destruct d as [r|]; [pose proof (Hd r eq_refl)|]);
        (destruct h as [z|]; [pose proof (Hh z eq_refl) as Hz|]); cbn in *; injection Hn as <- || (by left);
        right; eexists; (split; [reflexivity|]); cbn; try (split; [congruence|done]).
      destruct Hz as [Hz|(? & [=] & _)]. split; [congruence|done]. }
    destruct Hx as [Hx|(y & Hy & Hp & Hcell)].
    + destruct h, d, w; cbn in *; done.
    + destruct (leaves_or_stays y c (fun x E => Phw x ltac:(congruence)) Hp) as [Hl|[_ Hl]]; [|left; congruence].
      right. right. exists y. auto.
Qed.

Lemma with_prev_id {D} (n : delta_row D) : with_prev (prev_cell n) n = n.
Proof. by destruct n. Qed.

(** ** A run *)
Lemma find_merge_type new old typ i : maybe_ok old ->
  find_id i (t_byid (_merge_type new (_load_old old typ))) =
  merged (find_id i (t_byid new)) (found old typ i) (found old typ i).
Proof.
  intros Ho. unfold found, _load_old. destruct old as [x|]; cbn [fmap option_fmap option_map _merge_type layer].
  - cbn [t_byid]. apply find_merge_byid. by apply Ho.
  - unfold merged. destruct (find_id i (t_byid new)); [|done]. cbn. by rewrite with_prev_id.
Qed.

Lemma merge_type_ok new old typ : tables_ok new -> maybe_ok old -> tables_ok (_merge_type new (_load_old old typ)).
Proof.
  intros Hn Ho. destruct old as [x|]; [|done]. apply merge_ok; [done|]. by apply Ho.
Qed.

Lemma merge_type_nil new old typ : t_byid (_merge_type new (_load_old old typ)) = [] -> maybe_ok old ->
  t_byid new = [] /\ t_byid (layer old typ) = [].
Proof.
  intros E Ho. assert (Hi : forall i, merged (find_id i (t_byid new)) (found old typ i) (found old typ i) = None).
  { intros i. rewrite <- find_merge_type, E by done. done. }
  assert (Hnil : forall l : list (delta_row B), (forall i, find_id i l = None) -> l = []).
  { intros [|r l] Hl; [done|]. specialize (Hl (r_id r)). cbn in Hl. by rewrite Z.eqb_refl in Hl. }
  split; apply Hnil; intros i; specialize (Hi i); unfold merged, found in *;
    by destruct (find_id i (t_byid new)).
Qed.

(** The three branches of [_write_tiers]. *)
Section Branches.
Context ds (batch : etype -> tables B S).
Hypothesis Hds : deltas_ok ds.
Hypothesis Hbatch : forall typ, tables_ok (batch typ).

Definition moves ds' : Prop := forall typ i,
  moved (no_rows batch) (find_id i (t_byid (batch typ))) (found (hour ds) typ i) (found (day ds) typ i) (found (week ds) typ i)
    (found (hour ds') typ i) (found (day ds') typ i) (found (week ds') typ i).

Lemma batch_none typ i : no_rows batch = true -> find_id i (t_byid (batch typ)) = None.
Proof. intros E. by rewrite no_rows_nil. Qed.

Lemma same_branch from to ts v :
  let ds' := {| hour := put (_write_tier_version
                  (fun typ => _merge_type (batch typ) (_load_old (hour ds) typ)) (Some from) to ts v) (hour ds);
                day := day ds; week := week ds |} in
  deltas_ok ds' /\ moves ds'.
Proof.
  destruct Hds as (Hh & Hd & Hw). split; [split_and!; try done|].
  - apply put_ok; [|done]. intros typ. by apply merge_type_ok.
  - intros typ i. cbn [hour day week].
    replace (found (put _ _) typ i) with (merged (find_id i (t_byid (batch typ))) (found (hour ds) typ i) (found (hour ds) typ i));
      [constructor|].
    unfold found at 3. rewrite put_find. destruct (no_rows _) eqn:E; [|by rewrite find_merge_type].
    apply (no_rows_nil _ typ), merge_type_nil in E as [-> E]; [|done]. unfold found. by rewrite E.
Qed.

Context (x : tier B S) (Hx : hour ds = Some x).

Lemma found_hour typ i : found (hour ds) typ i = find_id i (t_byid (files x typ)).
Proof. by rewrite Hx. Qed.
Lemma hour_files_ok typ : tables_ok (files x typ).
Proof. destruct Hds as [Hh _]. by apply Hh. Qed.

Definition folded_day (typ : etype) : tables B S := _merge_type (files x typ) (_load_old (day ds) typ).
Lemma folded_day_ok typ : tables_ok (folded_day typ).
Proof. apply merge_type_ok; [apply hour_files_ok|apply Hds]. Qed.
Lemma find_folded_day typ i :
  find_id i (t_byid (folded_day typ)) = merged (found (hour ds) typ i) (found (day ds) typ i) (found (day ds) typ i).
Proof. unfold folded_day. rewrite find_merge_type by apply Hds. by rewrite found_hour. Qed.

Lemma hour_branch f to ts v f2 to2 ts2 v2 :
  let ds' := {| hour := put (_write_tier_version batch (Some f) to ts v) (hour ds);
                day := put (_write_tier_version folded_day (Some f2) to2 ts2 v2) (day ds); week := week ds |} in
  deltas_ok ds' /\ moves ds'.
Proof.
  pose proof folded_day_ok as Hf. destruct Hds as (Hh & Hd & Hw). split; [split_and!|]; try done.
  - by apply put_ok.
  - by apply put_ok.
  - intros typ i. cbn [hour day week]. unfold found at 4 5. rewrite !put_find. fold (found (hour ds) typ i).
    fold (found (day ds) typ i). destruct (no_rows folded_day) eqn:E.
    + replace (found (day ds) typ i) with (merged (found (hour ds) typ i) (found (day ds) typ i) (found (day ds) typ i)) at 2.
      * constructor. destruct (no_rows batch) eqn:Eb; [right|by left]. split; [done|]. split; [by apply batch_none|done].
      * apply (no_rows_nil _ typ), merge_type_nil in E as [E1 E2]; [|done].
        rewrite found_hour, E1. unfold found. by rewrite E2.
    + rewrite find_folded_day. constructor.
      destruct (no_rows batch) eqn:Eb; [right|by left]. split; [done|]. split; [by apply batch_none|done].
Qed.

Lemma day_branch f to ts v v1 f2 to2 ts2 v2 :
  let ds' := {| hour := put (_write_tier_version batch (Some f) to ts v) (hour ds);
                day := put (_write_tier_version batch (Some f) to ts v1) (day ds);
                week := put (_write_tier_version (fun typ => _merge_type (folded_day typ) (_load_old (week ds) typ))
                               (Some f2) to2 ts2 v2) (week ds) |} in
  deltas_ok ds' /\ moves ds'.
Proof.
  pose proof folded_day_ok as Hf. destruct Hds as (Hh & Hd & Hw). split; [split_and!|]; try by apply put_ok.
  - apply put_ok; [|done]. intros typ. by apply merge_type_ok.
  - intros typ i. cbn [hour day week]. unfold found at 4 5 6. rewrite !put_find. fold (found (hour ds) typ i).
    fold (found (day ds) typ i). fold (found (week ds) typ i).
    assert (E : (if no_rows (fun typ => _merge_type (folded_day typ) (_load_old (week ds) typ))
                 then found (week ds) typ i
                 else find_id i (t_byid (_merge_type (folded_day typ) (_load_old (week ds) typ)))) =
      merged (merged (found (hour ds) typ i) (found (day ds) typ i) (found (day ds) typ i))
        (found (week ds) typ i) (found (week ds) typ i)).
    { destruct (no_rows _) eqn:E; [|by rewrite find_merge_type, find_folded_day].
      apply (no_rows_nil _ typ), merge_type_nil in E as [E1 E2]; [|done].
      rewrite <- find_folded_day, E1. unfold found. by rewrite E2. }
    rewrite E. constructor. destruct (no_rows batch) eqn:Eb; [right|by left].
    split; [done|]. split; [by apply batch_none|done].
Qed.
End Branches.

(** The run as a move of every id; it never raises on well-formed tiers. *)
Lemma write_tiers_moved ds batch f l ts :
  deltas_ok ds -> (forall typ, tables_ok (batch typ)) ->
  exists ds', _write_tiers ds batch f l ts = Ok ds' /\ deltas_ok ds' /\ moves ds batch ds'.
Proof.
  intros Hds Hb. unfold _write_tiers. destruct (_tier_crossings ds ts) as [hc dc].
  assert (Hfrom : forall m, maybe_ok m -> m = None \/ exists y, m ≫= seq_from = Some y).
  { intros [y|] Hm; [right|by left]. destruct (ok_from _ (Hm y eq_refl)) as [z Hz]. exists z. exact Hz. }
  destruct (hour ds) as [x|] eqn:Ex.
  - pose proof Hds as (Hh & Hd & Hw). destruct (ok_from _ (Hh x Ex)) as [fx Hfx].
    destruct hc; cbn iota.
    + assert (Hmin : exists y, min_present (seq_from_of (day ds)) (seq_from x) = Ok y).
      { rewrite Hfx. unfold seq_from_of. destruct (day ds ≫= seq_from); eauto. }
      destruct Hmin as [y ->]. cbn [res_bind]. destruct dc.
      * assert (Hmin : exists z, min_present (seq_from_of (week ds)) (Some y) = Ok z).
        { unfold seq_from_of. destruct (week ds ≫= seq_from); eauto. }
        destruct Hmin as [z ->]. cbn [res_bind]. eexists. split; [reflexivity|]. rewrite <- Ex.
        by apply day_branch.
      * eexists. split; [reflexivity|]. rewrite <- Ex. by apply hour_branch.
    + eexists. split; [reflexivity|]. rewrite Hfx, <- Ex. by apply same_branch.
  - eexists. split; [by destruct hc|]. rewrite <- Ex. by apply same_branch.
Qed.

(** A run keeps the invariant. *)
Lemma run_keeps_ok base ds batch first_seq last_seq ts :
  deltas_ok ds -> prev_ok base ds -> batch_ok base ds batch ->
  exists ds', _write_tiers ds batch first_seq last_seq ts = Ok ds' /\
    deltas_ok ds' /\ prev_ok base ds' /\ moves ds batch ds'.
Proof.
  intros Hds Hp [Hb Hbp]. destruct (write_tiers_moved ds batch first_seq last_seq ts Hds Hb) as (ds' & E & Hok & Hm).
  exists ds'. split_and!; [done|done| |done]. intros typ i. apply (moved_prev _ _ _ _ _ _ _ _ _ (Hm typ i)).
  - intros n Hn Hnone. rewrite (Hbp _ _ _ Hn). unfold current, newest_row. by rewrite Hnone.
  - apply (Hp typ i).
Qed.

(** *** The chain through a run *)
Definition linked_tiers base ds : Prop := forall typ i,
  linked (found (hour ds) typ i) (found (day ds) typ i) (found (week ds) typ i) (find_id i (base typ)).
Definition touching_tiers base ds : Prop := forall typ i,
  touches (found (hour ds) typ i) (found (day ds) typ i) (found (week ds) typ i) (find_id i (base typ)).

Lemma found_placed m typ i : maybe_ok m -> placed_ok (found m typ i).
Proof. intros Hm x Hx. by apply (ok_cell _ (layer_ok m typ Hm) i). Qed.

(** A run with rows keeps the chain; after any run the base rows can be found. *)
Lemma run_keeps_linked base ds batch ds' : deltas_ok ds -> linked_tiers base ds -> batch_ok base ds batch ->
  moves ds batch ds' ->
  (no_rows batch = false -> linked_tiers base ds') /\ touching_tiers base ds'.
Proof.
  intros (Hh & Hd & Hw) Hl [Hb Hbp] Hm. split.
  - intros E typ i. pose proof (Hm typ i) as Hmi. rewrite E in Hmi. apply (moved_linked _ _ _ _ _ _ _ _ Hmi); [|apply Hl].
    intros n Hn. apply (Hbp typ i n Hn).
  - intros typ i. apply (moved_touches _ _ _ _ _ _ _ _ _ (Hm typ i)); [|by apply found_placed..| |apply Hl].
    + intros x Hx. by apply (ok_cell _ (Hb typ) i).
    + intros n Hn. apply (Hbp typ i n Hn).
Qed.

(** C12: an update run refines the abstract state.  Whatever boundaries the
    batch's time stamp crosses, and so whatever is merged or folded, the run
    succeeds; afterwards the current row of an id is the batch's row where the
    batch has one (none if it deletes the element) and is otherwise unchanged;
    and the tiers are well formed again: one row per id in every table, byid
    and spatial tables agreeing, and the oldest tier that knows an id still
    naming the base cell of the element, which is what the tombstones need. *)
Theorem update_run_refines base ds batch first_seq last_seq ts :
  deltas_ok ds -> prev_ok base ds -> batch_ok base ds batch ->
  exists ds', _write_tiers ds batch first_seq last_seq ts = Ok ds' /\
    deltas_ok ds' /\ prev_ok base ds' /\
    forall typ i, current base ds' typ i =
      over (find_id i (t_byid (batch typ))) (current base ds typ i).
Proof.
  intros Hds Hp Hb. destruct (run_keeps_ok base ds batch first_seq last_seq ts Hds Hp Hb) as (ds' & E & Hok & Hp' & Hm).
  exists ds'. split_and!; [done..|]. intros typ i. unfold current, newest_row. apply (moved_current (no_rows batch)). apply Hm.
Qed.
End TiersFacts.

(** * Two runs on a sample dataset *)
Definition sample_row {D} (i : Z) (c : pystr) (d : D) (prev : option pystr) : delta_row D :=
  {| r_id := i; r_cell := Some c; data := d; deleted := false; prev_cell := prev; r_seq := 1 |}.
Definition sample_batch (i : Z) (c : pystr) (d : Z) (prev : option pystr) (typ : etype) : tables Z Z :=
  match typ with
  | TNode => {| t_byid := [sample_row i c d prev]; t_spatial := [sample_row i c d prev] |}
  | _ => {| t_byid := []; t_spatial := [] |}
  end.
Definition sample_base (typ : etype) : list (base_row Z) :=
  match typ with TNode => [{| b_id := 1; b_cell := Some (u "0"); b_data := 1 |}] | _ => [] end.
Definition no_deltas : deltas Z Z := {| hour := None; day := None; week := None |}.

Lemma sample_tables_ok i c d prev typ : tables_ok (sample_batch i c d prev typ).
Proof.
  destruct typ; split; cbn; try apply NoDup_singleton; try apply NoDup_nil_2; try done.
  - intros j. by destruct (_ =? _).
  - intros j r. destruct (_ =? _); [|done]. intros [= <-] _. eauto.
Qed.

Lemma no_deltas_ok : deltas_ok no_deltas.
Proof. done. Qed.

Lemma sample_batch_ok : batch_ok sample_base no_deltas (sample_batch 1 (u "1") 2 (Some (u "0"))).
Proof.
  split; [intros; apply sample_tables_ok|]. intros [] i n Hn; try done.
  apply find_id_Some in Hn as [Hn <-]. apply list_elem_of_singleton in Hn as ->. reflexivity.
Qed.

Lemma sample_prev_ok : prev_ok sample_base no_deltas.
Proof. by intros typ i r. Qed.

(** Node 1 moves from cell 0 to cell 1. *)
Lemma update_run_refines_witness :
  exists ds', @_write_tiers latin1_db Z Z no_deltas (sample_batch 1 (u "1") 2 (Some (u "0"))) 5 6
                (Some (u "2026-09-19T10:00:00Z")) = Ok ds' /\
    current sample_base ds' TNode 1 = Some {| b_id := 1; b_cell := Some (u "1"); b_data := 2 |}.
Proof.
  destruct (@update_run_refines latin1_db Z Z sample_base no_deltas (sample_batch 1 (u "1") 2 (Some (u "0"))) 5 6
              (Some (u "2026-09-19T10:00:00Z")) no_deltas_ok sample_prev_ok sample_batch_ok)
    as (ds' & E & _ & _ & Hc).
  exists ds'. split; [exact E|]. rewrite Hc. reflexivity.
Defined.
