(* ===== verification/DeltaReadFacts.v ===== *)
(** Theorems on the delta read path: a lookup by id returns exactly the current
    rows; a scan of cells never brings back a base row that a tier has
    replaced, and is exact for every element all of whose tier rows in the
    scanned cells are superseded by a row in those cells.  For other elements
    it is not: a row of an older tier comes back. *)
From S2P Require Import Prelude PyStr Sql PyTime Tiers DeltaRead TiersFacts.

Section ReadFacts.
Context {B S : Type}.
Implicit Types (ds : deltas B S).

(** * The tiers a read considers *)
Lemma find_id_filter {R} `{Keyed R} (P : R -> Prop) `{!forall r, Decision (P r)} i (l : list R) : unique l ->
  find_id i (base.filter P l) = (r ← find_id i l; if decide (P r) then Some r else None).
Proof.
  intros Hu. induction l as [|x l IH]; [done|]. apply NoDup_cons in Hu as [Hx Hu]. specialize (IH Hu).
  rewrite filter_cons. cbn [find_id]. destruct (decide (P x)) as [Hp|Hp]; cbn [find_id].
  - destruct (Z.eqb_spec (id_of x) i); [|exact IH]. cbn. by rewrite decide_True.
  - rewrite IH. destruct (Z.eqb_spec (id_of x) i) as [<-|]; [|done]. cbn.
    rewrite (proj2 (find_id_None (id_of x) l) Hx). simpl. by rewrite decide_False.
Qed.

Section Tables.
Context {D : Type} (sel : tables B S -> list (delta_row D)) (Hsel : sel no_tables = []).
Context (P : delta_row D -> Prop) `{!forall r, Decision (P r)}.
Definition selected (m : option (tier B S)) typ i : option (delta_row D) :=
  r ← find_id i (sel (layer m typ)); if decide (P r) then Some r else None.
Lemma selected_all m typ i : (forall r, P r) -> selected m typ i = find_id i (sel (layer m typ)).
Proof. intros Hp. unfold selected. destruct (find_id _ _); cbn; [by rewrite decide_True|done]. Qed.
Lemma selected_on_id m typ i (b : bool) : (forall r, r_id r = i -> P r <-> b = true) ->
  selected m typ i = if b then find_id i (sel (layer m typ)) else None.
Proof.
  intros Hp. unfold selected. destruct (find_id _ _) as [r|] eqn:E; cbn; [|by destruct b].
  apply find_id_Some in E as [_ E]. specialize (Hp r E).
  destruct b; [rewrite decide_True by tauto|rewrite decide_False by naive_solver]; done.
Qed.
Definition read_tiers ds typ : list (Z * list (delta_row D)) :=
  map (fun t => (t.1, base.filter P (sel (files t.2 typ)))) (delta_tiers ds).

Lemma flat_read_tiers ds typ :
  flat_map (fun t : Z * tier B S => map (pair t.1) (base.filter P (sel (files t.2 typ)))) (delta_tiers ds) =
  flat (read_tiers ds typ).
Proof. unfold flat, read_tiers. induction (delta_tiers ds) as [|t l IH]; [done|]. cbn. by rewrite IH. Qed.

Context ds typ (Hu : forall m, m = hour ds \/ m = day ds \/ m = week ds -> unique (sel (layer m typ))).

Lemma read_tiers_ok : tiers_ok (read_tiers ds typ).
Proof.
  unfold read_tiers, delta_tiers, tiers_ok.
  pose proof (Hu (hour ds) ltac:(tauto)) as H1. pose proof (Hu (day ds) ltac:(tauto)) as H2.
  pose proof (Hu (week ds) ltac:(tauto)) as H3. clear Hu.
  split.
  - destruct (hour ds), (day ds), (week ds); cbn; repeat constructor; cbn; lia.
  - destruct (hour ds), (day ds), (week ds); cbn; repeat constructor; cbn [snd]; by apply unique_filter.
Qed.

Lemma newest_read i : newest i (read_tiers ds typ) =
  first_of (selected (hour ds) typ i) (selected (day ds) typ i) (selected (week ds) typ i).
Proof.
  unfold read_tiers, delta_tiers, selected.
  pose proof (Hu (hour ds) ltac:(tauto)) as H1. pose proof (Hu (day ds) ltac:(tauto)) as H2.
  pose proof (Hu (week ds) ltac:(tauto)) as H3. clear Hu.
  destruct (hour ds), (day ds), (week ds);
    cbn [omap list_omap fmap option_fmap option_map fst snd map newest layer] in *; rewrite ?Hsel;
    rewrite ?find_id_filter by done; cbn [find_id mbind option_bind];
    unfold first_of; repeat (case_match; try done); done.
Qed.
End Tables.

(** * Lookup by id *)
Definition ok_read {D} (sel : tables B S -> list (delta_row D)) ds typ : Prop :=
  forall m, m = hour ds \/ m = day ds \/ m = week ds -> unique (sel (layer m typ)).

Lemma ok_read_byid ds typ : deltas_ok ds -> ok_read t_byid ds typ.
Proof. intros (Hh & Hd & Hw) m [->|[->| ->]]; by apply ok_byid, layer_ok. Qed.
Lemma ok_read_spatial ds typ : deltas_ok ds -> ok_read t_spatial ds typ.
Proof. intros (Hh & Hd & Hw) m [->|[->| ->]]; by apply ok_spatial, layer_ok. Qed.

Lemma elem_of_select {D} p (l : list (base_row D)) r : r ∈ select p l <-> r ∈ l /\ p r = true.
Proof. unfold select. rewrite list_elem_of_filter. tauto. Qed.

(** The alive rows among the candidates, as base rows. *)
Lemma elem_of_alive {D} (cand : list (delta_row D)) r : unique cand ->
  r ∈ map project (base.filter (fun r => deleted r = false) cand) <->
  exists n, find_id (b_id r) cand = Some n /\ over (Some n) None = Some r.
Proof.
  intros Hu. rewrite (elem_of_map project). setoid_rewrite list_elem_of_filter. split.
  - intros (n & -> & Hd & Hn). exists n. split; [by apply (find_id_unique _ n)|]. cbn. by rewrite Hd.
  - intros (n & Hn & Ho). apply find_id_Some in Hn as [Hn _]. cbn in Ho.
    destruct (deleted n) eqn:Ed; [done|]. injection Ho as <-. eauto.
Qed.

Lemma unique_alive {D} (cand : list (delta_row D)) p : unique cand ->
  unique (select p (map project (base.filter (fun r => deleted r = false) cand))).
Proof.
  intros Hu. apply unique_filter. unfold unique, ids. rewrite map_map.
  by apply (unique_filter (fun r => deleted r = false)).
Qed.
Lemma ids_alive {D} (cand : list (delta_row D)) p i :
  i ∈ ids (select p (map project (base.filter (fun r => deleted r = false) cand))) -> i ∈ ids cand.
Proof.
  intros (r & -> & [Hr _]%elem_of_select)%elem_of_map. apply (elem_of_map project) in Hr as (n & -> & Hn).
  apply list_elem_of_filter in Hn as [_ Hn]. by apply (elem_of_map_2 r_id).
Qed.

(** Base rows outside a set of ids together with candidate rows inside it. *)
Lemma unique_read {D} (cand : list (delta_row D)) (sh : list Z) p (chosen : list (base_row D)) :
  unique cand -> unique chosen -> (forall i, i ∈ ids cand -> i ∈ sh) ->
  unique (where_not_in sh chosen ++ select p (map project (base.filter (fun r => deleted r = false) cand))).
Proof.
  intros Hc Hb Hsh. unfold unique, ids. rewrite map_app. apply NoDup_app. split_and!.
  - by apply (unique_filter (fun r => mem (id_of r) sh = false)).
  - intros i (r & -> & Hr)%elem_of_map Hi. apply elem_of_where_not_in in Hr as [_ Hr].
    by apply Hr, Hsh, (ids_alive cand p).
  - exact (unique_alive cand p Hc).
Qed.

(** The base rows read may leave out rows of other ids. *)
Lemma byid_exact ds typ (base : etype -> list (base_row B)) read pred tag st : deltas_ok ds -> unique read ->
  (forall r, pred (b_id r) = true -> r ∈ read <-> find_id (b_id r) (base typ) = Some r) ->
  let out := fst (byid_current_rows ds typ read pred tag st) in
  unique out /\
  forall r, r ∈ out <-> pred (b_id r) = true /\ tag r = true /\ current base ds typ (b_id r) = Some r.
Proof.
  intros Hds Hb Hread. cbn zeta. pose proof (ok_read_byid _ typ Hds) as Hok. unfold byid_current_rows.
  set (chosen := select (fun r => pred (b_id r)) read).
  assert (Hch : unique chosen) by by apply unique_filter.
  assert (Hchosen : forall r, r ∈ chosen <-> find_id (b_id r) (base typ) = Some r /\ pred (b_id r) = true).
  { intros r. unfold chosen. rewrite elem_of_select. destruct (pred (b_id r)) eqn:E; [rewrite (Hread r E); tauto|]. split; intros [? ?]; congruence. }
  assert (Hcur : forall r : base_row B, current base ds typ (b_id r) = over (newest (b_id r) (read_tiers t_byid (fun _ => True) ds typ)) (find_id (b_id r) (base typ))).
  { intros r. unfold current, newest_row. rewrite (newest_read t_byid eq_refl) by done. f_equal.
    by rewrite !(selected_all t_byid). }
  destruct (delta_tiers ds) as [|t0 tiers] eqn:Et; cbn [fst].
  - split; [by apply unique_filter|]. intros r. rewrite elem_of_select, Hchosen, Hcur.
    unfold read_tiers. rewrite Et. cbn. tauto.
  - rewrite <- Et. rewrite (flat_read_tiers t_byid (fun r => pred (r_id r) = true)).
    set (cand := qualify _).
    assert (Hcand : unique cand) by apply unique_qualify.
    assert (Hfind : forall i, find_id i cand = if pred i then newest i (read_tiers t_byid (fun _ => True) ds typ) else None).
    { intros i. unfold cand. rewrite find_id_qualify by by apply (read_tiers_ok t_byid).
      rewrite !(newest_read t_byid eq_refl) by done.
      rewrite !(selected_on_id t_byid _ _ _ _ (pred i)) by by intros r ->.
      rewrite !(selected_all t_byid) by done. by destruct (pred i). }
    split.
    + apply unique_read; [done|by apply unique_filter|done].
    + intros r. rewrite elem_of_app, elem_of_where_not_in, !elem_of_select, (elem_of_alive cand), Hchosen by done.
      rewrite <- find_id_None. change (id_of r) with (b_id r). rewrite !Hfind, Hcur.
      clear. destruct (pred (b_id r)).
      2: { split; [intros [[[[_ [=]] _] _]|[(n' & [=] & _) _]]|intros [[=] _]]. }
      destruct (newest (b_id r) _) as [n|]; cbn [over].
      * split; [intros [[_ [=]]|[(n' & [= <-] & E) Ht]]; auto|]. intros (_ & Ht & E). right. eauto.
      * split; [intros [[[[E _] Ht] _]|[(n' & [=] & _) _]]; auto|]. intros (_ & Ht & E). left. auto.
Qed.

(** C19: a lookup by id is exact.  The rows returned for an id predicate are the
    current rows (newest tier first, deletions removed, the base last) of the
    ids it selects that satisfy the tag condition, each once. *)
Theorem byid_current_rows_exact ds typ (base : etype -> list (base_row B)) pred tag st :
  deltas_ok ds -> unique (base typ) ->
  let out := fst (byid_current_rows ds typ (base typ) pred tag st) in
  unique out /\
  forall r, r ∈ out <-> pred (b_id r) = true /\ tag r = true /\ current base ds typ (b_id r) = Some r.
Proof.
  intros Hds Hb. apply byid_exact; [done|done|]. intros r _. rewrite <- unique_elem by done. change (id_of r) with (b_id r). tauto.
Qed.

(** * Scans of cells *)
Definition present ds (x : tier B S) : Prop := hour ds = Some x \/ day ds = Some x \/ week ds = Some x.
Lemma present_tiers ds x : present ds x <-> exists k, (k, x) ∈ delta_tiers ds.
Proof.
  unfold present, delta_tiers. setoid_rewrite list_elem_of_omap. split.
  - intros [E|[E|E]]; [exists 3, (3, hour ds)|exists 2, (2, day ds)|exists 1, (1, week ds)];
      (split; [rewrite !elem_of_cons; tauto|cbn; by rewrite E]).
  - intros (k & [k' m] & Hin & E). rewrite !elem_of_cons in Hin. cbn in E.
    destruct Hin as [[= -> ->]|[[= -> ->]|[[= -> ->]|Hin]]]; [..|inversion Hin];
      match type of E with _ <$> ?m = _ => destruct m eqn:Em; [|done] end; injection E as _ ->; auto.
Qed.

Section Scan.
Context ds (typ : etype) (bbase : etype -> list (base_row B)) (sbase : list (base_row S)) (cells : list pystr).
Hypothesis Hds : deltas_ok ds.
Hypothesis Hprev : prev_ok bbase ds.
Hypothesis Hbase : unique sbase.
Hypothesis Hcells : forall i, find_id i sbase ≫= b_cell = find_id i (bbase typ) ≫= b_cell.

Definition sfound (m : option (tier B S)) i : option (delta_row S) := find_id i (t_spatial (layer m typ)).
Definition snewest i := first_of (sfound (hour ds) i) (sfound (day ds) i) (sfound (week ds) i).
(** The current spatial row of an id. *)
Definition scurrent i : option (base_row S) := over (snewest i) (find_id i sbase).
Definition in_cells (r : delta_row S) : Prop := cell_in cells (r_cell r) = true.
Definition cnewest i := first_of (selected t_spatial in_cells (hour ds) typ i)
  (selected t_spatial in_cells (day ds) typ i) (selected t_spatial in_cells (week ds) typ i).

(** Every tier row of the id that lies in the scanned cells is superseded by a
    row in those cells. *)
Definition settled i : Prop := forall m r n, m = hour ds \/ m = day ds \/ m = week ds ->
  sfound m i = Some r -> in_cells r -> snewest i = Some n -> in_cells n.

Lemma maybe_all m : m = hour ds \/ m = day ds \/ m = week ds -> maybe_ok m.
Proof. destruct Hds as (? & ? & ?). by intros [->|[->| ->]]. Qed.

Lemma sfound_agree m i : m = hour ds \/ m = day ds \/ m = week ds -> agree (found m typ i) (sfound m i).
Proof. intros Hm%maybe_all. by apply ok_agree, layer_ok. Qed.

Lemma cnewest_settled i : settled i ->
  cnewest i = (n ← snewest i; if decide (in_cells n) then Some n else None).
Proof.
  intros Hs. unfold cnewest, snewest, selected in *. fold (sfound (hour ds) i) (sfound (day ds) i) (sfound (week ds) i).
  pose proof (Hs (hour ds)) as H1. pose proof (Hs (day ds)) as H2. pose proof (Hs (week ds)) as H3. clear Hs.
  unfold snewest in *.
  destruct (sfound (hour ds) i) as [h|], (sfound (day ds) i) as [d|], (sfound (week ds) i) as [w|];
    cbn in *; repeat (case_decide; cbn); try done; naive_solver.
Qed.

Lemma cnewest_known i : is_Some (cnewest i) -> is_Some (snewest i).
Proof.
  unfold cnewest, snewest, selected. fold (sfound (hour ds) i) (sfound (day ds) i) (sfound (week ds) i).
  destruct (sfound (hour ds) i), (sfound (day ds) i), (sfound (week ds) i); cbn; try (by eauto).
Qed.

(** The tier that first replaced a base row of the scanned cells still shows it:
    by a candidate or by a tombstone. *)
Lemma replaced_is_shadowed i b c : find_id i sbase = Some b -> b_cell b = Some c -> c ∈ cells ->
  is_Some (snewest i) ->
  is_Some (cnewest i) \/ exists x, present ds x /\ i ∈ tomb_ids typ cells x.
Proof.
  intros Hb Hc Hin Hknown.
  assert (Hold : exists o m x, (m = hour ds \/ m = day ds \/ m = week ds) /\ m = Some x /\ found m typ i = Some o /\
                   oldest_row ds typ i = Some o).
  { destruct Hknown as [n Hn]. unfold snewest in Hn. unfold oldest_row.
    pose proof (sfound_agree (hour ds) i ltac:(tauto)) as Ah. pose proof (sfound_agree (day ds) i ltac:(tauto)) as Ad.
    pose proof (sfound_agree (week ds) i ltac:(tauto)) as Aw.
    assert (Hsome : forall (m : option (tier B S)) o, found m typ i = Some o -> exists x, m = Some x).
    { intros [x|] o Ho; [eauto|done]. }
    destruct (found (week ds) typ i) as [w|] eqn:Ew; [|destruct (found (day ds) typ i) as [d|] eqn:Ed;
      [|destruct (found (hour ds) typ i) as [h|] eqn:Eh]].
    - destruct (Hsome _ _ Ew) as [x Hx]. exists w, (week ds), x. auto 6.
    - destruct (Hsome _ _ Ed) as [x Hx]. exists d, (day ds), x. auto 6.
    - destruct (Hsome _ _ Eh) as [x Hx]. exists h, (hour ds), x. auto 6.
    - exfalso. unfold agree in *.
      destruct (sfound (hour ds) i), (sfound (day ds) i), (sfound (week ds) i); done. }
  destruct Hold as (o & m & x & Hm & -> & Ho & Hold).
  pose proof (Hprev _ _ _ Hold) as Hp. rewrite <- Hcells, Hb in Hp. cbn in Hp. rewrite Hc in Hp.
  assert (Hx : present ds x) by (unfold present; naive_solver).
  pose proof (maybe_all _ Hm x eq_refl) as Hok.
  destruct (leaves_tombstone o) as [p|] eqn:El.
  - right. exists x. split; [done|]. unfold tomb_ids.
    assert (Ep : p = c) by (unfold leaves_tombstone in El; rewrite Hp in El; destruct (_ || _); congruence). subst p.
    destruct (proj2 (ok_tombs _ Hok typ i c)) as (tb & Htb & Ety & Eid & Epc).
    { exists o. split; [|split; [|done]].
      - by apply find_id_Some in Ho as [? _].
      - by apply find_id_Some in Ho as [_ ?]. }
    rewrite <- Eid. apply elem_of_map_2, list_elem_of_filter. split; [|done].
    rewrite bool_decide_true by done. rewrite Epc. by apply str_in_spec.
  - left. pose proof (sfound_agree (Some x) i Hm) as Ha. rewrite Ho in Ha.
    destruct (sfound (Some x) i) as [sr|] eqn:Es; [|done]. destruct Ha as (Hcell & _ & _).
    assert (Hin' : in_cells sr).
    { unfold in_cells. rewrite <- Hcell. unfold leaves_tombstone in El. rewrite Hp in El.
      destruct (deleted o) eqn:Ed; [by rewrite orb_true_r in El|].
      destruct (ok_cell _ (ok_files _ Hok typ) i o Ho Ed) as [c' Ec]. rewrite Ec in *.
      destruct (c =s c') eqn:Ecc; [|done]. apply str_eqb_eq in Ecc as <-. by apply str_in_spec. }
    assert (Hsel : selected t_spatial in_cells (Some x) typ i = Some sr).
    { unfold selected. change (find_id i (t_spatial (layer (Some x) typ))) with (sfound (Some x) i).
      rewrite Es. cbn. by rewrite decide_True. }
    unfold cnewest. destruct Hm as [Hm|[Hm|Hm]]; rewrite Hm in Hsel; rewrite Hsel; unfold first_of;
      repeat case_match; eauto.
Qed.

(** A tombstone belongs to a row of its tier. *)
Lemma tomb_known i x : present ds x -> i ∈ tomb_ids typ cells x -> is_Some (snewest i).
Proof.
  intros Hx (tb & -> & [Hb Htb]%list_elem_of_filter)%elem_of_map.
  apply andb_prop in Hb as [Hty%bool_decide_eq_true _].
  assert (Hm : Some x = hour ds \/ Some x = day ds \/ Some x = week ds) by (unfold present in Hx; naive_solver).
  destruct (proj1 (ok_tombs _ (maybe_all _ Hm x eq_refl) typ (tb_id tb) (tb_prev_cell tb))) as (r & Hr & Hid & _); [by exists tb|].
  assert (Hf : is_Some (found (Some x) typ (tb_id tb))).
  { apply find_id_is_Some. rewrite <- Hid. by apply (elem_of_map_2 r_id). }
  destruct Hf as [n Hf]. pose proof (sfound_agree (Some x) (tb_id tb) Hm) as Ha. rewrite Hf in Ha.
  destruct (sfound (Some x) (tb_id tb)) as [sn|] eqn:Es; [|done]. unfold snewest.
  destruct Hm as [Hm|[Hm|Hm]]; rewrite Hm in Es; rewrite Es; unfold first_of; repeat case_match; eauto.
Qed.

Lemma elem_of_scan_base r : r ∈ base.filter (fun r => cell_in cells (b_cell r) = true) sbase <->
  cell_in cells (b_cell r) = true /\ find_id (b_id r) sbase = Some r.
Proof. rewrite list_elem_of_filter, <- unique_elem by done. change (id_of r) with (b_id r). tauto. Qed.

Lemma snewest_none_tiers i : delta_tiers ds = [] -> snewest i = None.
Proof.
  unfold delta_tiers, snewest, sfound. destruct (hour ds), (day ds), (week ds); cbn; done.
Qed.

(** The base files read may leave out rows: what is returned is current all the same. *)
Lemma scan_exact where_ st scanned : unique scanned ->
  (forall r, r ∈ scanned -> cell_in cells (b_cell r) = true /\ find_id (b_id r) sbase = Some r) ->
  let out := fst (current_rows ds typ cells scanned where_ st) in
  unique out /\
  (forall r, r ∈ out -> where_ r = true /\ cell_in cells (b_cell r) = true) /\
  (forall r, r ∈ out -> is_Some (snewest (b_id r)) ->
     exists m n, (m = hour ds \/ m = day ds \/ m = week ds) /\ sfound m (b_id r) = Some n /\ over (Some n) None = Some r) /\
  (forall r, where_ r = true -> cell_in cells (b_cell r) = true -> settled (b_id r) ->
     r ∈ out <-> scurrent (b_id r) = Some r /\ (snewest (b_id r) = None -> r ∈ scanned)).
Proof.
  intros Hu Hscan. cbn zeta. unfold current_rows, spatial_delta_layer.
  assert (Hchosen : forall r, r ∈ select where_ scanned <-> where_ r = true /\ cell_in cells (b_cell r) = true /\ find_id (b_id r) sbase = Some r /\ r ∈ scanned).
  { intros r. rewrite elem_of_select. pose proof (Hscan r). tauto. }
  assert (Hplain : delta_tiers ds = [] \/ cells = [] ->
    unique (select where_ scanned) /\
    (forall r, r ∈ select where_ scanned -> where_ r = true /\ cell_in cells (b_cell r) = true) /\
    (forall r, r ∈ select where_ scanned -> is_Some (snewest (b_id r)) -> False) /\
    (forall r, where_ r = true -> cell_in cells (b_cell r) = true -> settled (b_id r) ->
       r ∈ select where_ scanned <-> scurrent (b_id r) = Some r /\ (snewest (b_id r) = None -> r ∈ scanned))).
  { intros Hd. setoid_rewrite Hchosen.
    split; [by apply unique_filter|]. split; [tauto|].
    assert (Hnone : forall r : base_row S, cell_in cells (b_cell r) = true -> snewest (b_id r) = None).
    { intros r Hr. destruct Hd as [Hd| ->]; [by apply snewest_none_tiers|]. by destruct (b_cell r). }
    split.
    - intros r (_ & Hr & _) [n Hn]. by rewrite Hnone in Hn.
    - intros r Hw Hr _. unfold scurrent. rewrite (Hnone r Hr). cbn. tauto. }
  destruct (delta_tiers ds) as [|t0 tiers] eqn:Et.
  { destruct (Hplain ltac:(by left)) as (H1 & H2 & H3 & H4). split_and!; try done.
    intros r Hr Hk. by destruct (H3 r Hr). }
  destruct cells as [|c0 cells0] eqn:Ec.
  { destruct (Hplain ltac:(by right)) as (H1 & H2 & H3 & H4). split_and!; try done.
    intros r Hr Hk. by destruct (H3 r Hr). }
  rewrite <- Ec in *. rewrite <- Et. clear Hplain. cbn [cand shadow fst].
  rewrite (flat_read_tiers t_spatial in_cells). set (cand := qualify _). set (sh := remove_dups _).
  assert (Hcand : unique cand) by apply unique_qualify.
  assert (Hfind : forall i, find_id i cand = cnewest i).
  { intros i. unfold cand. pose proof (ok_read_spatial _ typ Hds) as Hok.
    rewrite find_id_qualify by by apply (read_tiers_ok t_spatial). by rewrite (newest_read t_spatial eq_refl). }
  assert (Hsh : forall i, i ∈ sh <-> is_Some (cnewest i) \/ exists x, present ds x /\ i ∈ tomb_ids typ cells x).
  { intros i. unfold sh. rewrite elem_of_remove_dups, elem_of_app, <- find_id_is_Some, Hfind.
    apply or_iff_compat_l. rewrite list_elem_of_In, in_flat_map. setoid_rewrite <- list_elem_of_In.
    setoid_rewrite present_tiers. split.
    - intros ([k x] & Hx & Hi). eauto.
    - intros (x & (k & Hx) & Hi). by exists (k, x). }
  assert (Hids : forall i, i ∈ ids cand -> i ∈ sh).
  { intros i Hi. apply Hsh. left. rewrite <- Hfind. by apply find_id_is_Some. }
  clearbody sh. clear Et Ec.
  set (out := _ ++ _).
  assert (Hout : forall r, r ∈ out <-> where_ r = true /\
     ((cell_in cells (b_cell r) = true /\ find_id (b_id r) sbase = Some r /\ r ∈ scanned /\ b_id r ∉ sh) \/
      exists n, cnewest (b_id r) = Some n /\ over (Some n) None = Some r)).
  { intros r. unfold out. rewrite elem_of_app, elem_of_where_not_in, Hchosen, elem_of_select, (elem_of_alive cand) by done.
    change (id_of r) with (b_id r). rewrite Hfind. tauto. }
  assert (Hcn : forall i n r, cnewest i = Some n -> over (Some n) None = Some r -> cell_in cells (b_cell r) = true /\
     exists m, (m = hour ds \/ m = day ds \/ m = week ds) /\ sfound m i = Some n).
  { intros i n r Hn Ho. assert (Hsel : exists m, (m = hour ds \/ m = day ds \/ m = week ds) /\ selected t_spatial in_cells m typ i = Some n).
    { unfold cnewest, first_of in Hn. repeat case_match; simplify_eq; eauto 10. }
    destruct Hsel as (m & Hm & Hsel). unfold selected in Hsel. fold (sfound m i) in Hsel.
    destruct (sfound m i) as [n'|] eqn:En; [|done]. cbn in Hsel. case_decide as Hin; [|done]. injection Hsel as <-.
    split; [|by exists m]. cbn in Ho. destruct (deleted n'); [done|]. by injection Ho as <-. }
  split_and!.
  - apply unique_read; [done|by apply unique_filter|done].
  - intros r Hr. apply Hout in Hr as [Hw [(Hc & _)|(n & Hn & Ho)]]; [done|]. split; [done|]. by apply (Hcn _ _ _ Hn Ho).
  - intros r Hr Hk. apply Hout in Hr as [Hw [(Hc & Hb & _ & Hnsh)|(n & Hn & Ho)]].
    + exfalso. apply Hnsh, Hsh. unfold cell_in in Hc. destruct (b_cell r) as [c|] eqn:Ecl; [|done].
      eapply replaced_is_shadowed; [exact Hb|exact Ecl|by apply str_in_spec|done].
    + destruct (Hcn _ _ _ Hn Ho) as (_ & m & Hm & Hf). eauto.
  - intros r Hw Hc Hs. rewrite Hout. unfold scurrent. pose proof (cnewest_settled _ Hs) as Hcs.
    destruct (snewest (b_id r)) as [n|] eqn:En; cbn [mbind option_bind] in Hcs.
    + split.
      * intros [_ [(_ & Hb & _ & Hnsh)|(n' & Hn' & Ho)]]; (split; [|done]).
        -- exfalso. apply Hnsh, Hsh. unfold cell_in in Hc. destruct (b_cell r) as [c|] eqn:Ecl; [|done].
           eapply replaced_is_shadowed; [exact Hb|exact Ecl|by apply str_in_spec|by rewrite En].
        -- rewrite Hcs in Hn'. case_decide; [|done]. by injection Hn' as <-.
      * intros [Ho _]. split; [done|]. right. exists n. split; [|exact Ho]. rewrite Hcs. rewrite decide_True; [done|].
        cbn in Ho. destruct (deleted n); [done|]. by injection Ho as <-.
    + cbn [over]. split.
      * intros [_ [(_ & Hb & Hin & _)|(n' & Hn' & _)]]; [done|]. by rewrite Hcs in Hn'.
      * intros [Hb Hin]. split; [done|]. left. split_and!; [done|done|by apply Hin|]. rewrite Hsh, Hcs. intros [[? [=]]|(x & Hx & Ht)].
        apply (tomb_known _ _ Hx) in Ht as [? Ht]. congruence.
Qed.

(** C20: a scan of cells.  The rows it returns satisfy the condition and lie in
    the scanned cells, each id once; a base row is returned only if no tier
    knows its element (a tier that moved or deleted it shadows it by a
    candidate or a tombstone); and for every settled id the scan is exact: it
    returns the current row of the element if that row is in the cells. *)
Theorem current_rows_exact where_ st :
  let scanned := base.filter (fun r => cell_in cells (b_cell r) = true) sbase in
  let out := fst (current_rows ds typ cells scanned where_ st) in
  unique out /\
  (forall r, r ∈ out -> where_ r = true /\ cell_in cells (b_cell r) = true) /\
  (forall r, r ∈ out -> is_Some (snewest (b_id r)) ->
     exists m n, (m = hour ds \/ m = day ds \/ m = week ds) /\ sfound m (b_id r) = Some n /\ over (Some n) None = Some r) /\
  (forall r, where_ r = true -> cell_in cells (b_cell r) = true -> settled (b_id r) ->
     r ∈ out <-> scurrent (b_id r) = Some r).
Proof.
  cbn zeta. destruct (scan_exact where_ st (base.filter (fun r => cell_in cells (b_cell r) = true) sbase)) as (H1 & H2 & H3 & H4).
  { by apply unique_filter. }
  { intros r. apply elem_of_scan_base. }
  split_and!; [done..|]. intros r Hw Hc Hs. rewrite (H4 r Hw Hc Hs). split; [tauto|]. intros E. split; [done|].
  intros En. apply elem_of_scan_base. unfold scurrent in E. rewrite En in E. done.
Qed.
End Scan.
End ReadFacts.

(** * The sample dataset *)
Lemma sample_base_unique typ : unique (sample_base typ).
Proof. destruct typ; cbn; [apply NoDup_singleton|apply NoDup_nil_2..]. Qed.

Lemma byid_current_rows_exact_witness :
  let out := fst (byid_current_rows no_deltas TNode (sample_base TNode) (Z.eqb 1) (fun _ => true)
                    {| delta_rows := 0; shadowed := 0 |}) in
  {| b_id := 1; b_cell := Some (u "0"); b_data := 1 |} ∈ out.
Proof.
  cbn zeta. apply (byid_current_rows_exact no_deltas TNode sample_base (Z.eqb 1) (fun _ => true)
           {| delta_rows := 0; shadowed := 0 |} no_deltas_ok (sample_base_unique TNode)).
  split; [reflexivity|]. split; [reflexivity|]. reflexivity.
Defined.

(** After node 1 has moved from cell 0 to cell 1, a scan of both cells returns
    its new row and no other. *)
Lemma current_rows_exact_witness :
  exists ds, @_write_tiers latin1_db Z Z no_deltas (sample_batch 1 (u "1") 2 (Some (u "0"))) 5 6
               (Some (u "2026-09-19T10:00:00Z")) = Ok ds /\
  {| b_id := 1; b_cell := Some (u "1"); b_data := 2 |} ∈
    fst (current_rows ds TNode [u "0"; u "1"]
           (base.filter (fun r => cell_in [u "0"; u "1"] (b_cell r) = true) (sample_base TNode))
           (fun _ => true) {| delta_rows := 0; shadowed := 0 |}).
Proof.
  destruct (@run_keeps_ok latin1_db Z Z sample_base no_deltas (sample_batch 1 (u "1") 2 (Some (u "0"))) 5 6
              (Some (u "2026-09-19T10:00:00Z")) no_deltas_ok sample_prev_ok sample_batch_ok)
    as (ds & E & Hok & Hp & _).
  exists ds. split; [exact E|].
  destruct (current_rows_exact ds TNode sample_base (sample_base TNode) [u "0"; u "1"] Hok Hp (sample_base_unique TNode)
              (fun i => eq_refl) (fun _ => true) {| delta_rows := 0; shadowed := 0 |}) as (_ & _ & _ & Hx).
  vm_compute in E. injection E as <-. apply Hx.
  - reflexivity.
  - reflexivity.
  - intros m r n _ _ _ Hn. cbn in Hn. injection Hn as <-. reflexivity.
  - reflexivity.
Defined.

(** A scan of cells can return a superseded row.  Node 1, in cell 0 of the
    base, moves to cell 1 at 10:00 and to cell 2 at 11:05; the second run folds
    the first move into the day tier.  A scan of cell 1 then returns the node
    as it was between the moves: candidates are restricted to the scanned cells
    before the tiers are ranked, and the newer tier's tombstone for cell 1
    shadows base rows only.  The lookup by id returns the current row. *)
Theorem cell_scan_stale_row :
  exists ds1 ds2,
    @_write_tiers latin1_db Z Z no_deltas (sample_batch 1 (u "1") 2 (Some (u "0"))) 5 6
      (Some (u "2026-09-19T10:00:00Z")) = Ok ds1 /\
    @_write_tiers latin1_db Z Z ds1 (sample_batch 1 (u "2") 3 (Some (u "1"))) 7 8
      (Some (u "2026-09-19T11:05:00Z")) = Ok ds2 /\
    fst (current_rows ds2 TNode [u "1"] [] (fun _ => true) {| delta_rows := 0; shadowed := 0 |}) =
      [{| b_id := 1; b_cell := Some (u "1"); b_data := 2 |}] /\
    fst (byid_current_rows ds2 TNode (sample_base TNode) (Z.eqb 1) (fun _ => true) {| delta_rows := 0; shadowed := 0 |}) =
      [{| b_id := 1; b_cell := Some (u "2"); b_data := 3 |}].
Proof. eexists _, _. split; [by vm_compute|]. split; [by vm_compute|]. split; by vm_compute. Qed.
