(* ===== verification/Fetch.v ===== *)
(** [update/updater.py], the first half of a run: the current state of
    elements (delta tiers over the base files of the ids), the changes that are
    not newer than it, the extent filter and the set of ways and relations a
    batch touches.  A Parquet file is the bag of its rows. *)
From S2P Require Import Prelude PyStr PyFloat Json Osc Sql Numpy Tiers DeltaRead.

#[export] Instance row_keyed {P} : Keyed (row P) := Osc.id.
#[export] Instance pair_keyed {A} : Keyed (Z * A) := fst.

(** * Columns *)

(** The payload columns of every element type; a column a type does not have is
    null, as are all of them in the row of a deleted element. *)
Record columns := {
  lat_e7 : option Z; lon_e7 : option Z;
  refs : option (list Z);
  members : option (list member);
  c_tags : option (list (pystr * pystr));
  promoted : list (option pystr);
  c_version : option Z; c_changeset : option Z; c_timestamp : option Osc.datetime; c_uid : option Z; c_user : option pystr;
  xmin_e7 : option Z; ymin_e7 : option Z; xmax_e7 : option Z; ymax_e7 : option Z;
  geometry : option (list (option (pyfloat * pyfloat)));
  is_closed : option bool; is_area : option bool;
  centroid_lat_e7 : option Z; centroid_lon_e7 : option Z;
  hilbert : option Z
}.
Abbreviation base_columns := (base_row columns).

(** A file of a table with the id range the manifest gives for it. *)
Record part (R : Type) := { min_id : option Z; max_id : option Z; p_rows : list R }.
Arguments min_id {R} _. Arguments max_id {R} _. Arguments p_rows {R} _.

(** What the manifest names: base files by id, the two reverse indexes
    (node, way) and (member type, member, parent), and the tiers. *)
Record dataset := {
  byid : etype -> list (part base_columns);
  node_way : list (part (Z * Z));
  member_index : list (part (pystr * Z * Z));
  d_deltas : deltas columns columns
}.

Definition _select_parts {R} (parts : list (part R)) (lo hi : Z) : list (part R) :=
  base.filter (fun p => match min_id p, max_id p with
                   | Some mn, Some mx => negb ((mx <? lo) || (hi <? mn))
                   | _, _ => false
                   end = true) parts.

(** [read_parquet] of several files. *)
Definition read_parts {R} (parts : list (part R)) : list R := flat_map p_rows parts.

Definition unnest {A} (l : option (list A)) : list A := default [] l.

(** * _load_tiers, _build_delta_indexes *)
Definition raw_view (ds : deltas columns columns) (typ : etype) : list (delta_row columns) :=
  qualify (flat_map (fun t => map (pair t.1) (t_byid (files t.2 typ))) (delta_tiers ds)).
Definition alive_view (ds : deltas columns columns) (typ : etype) : list base_columns :=
  map project (base.filter (fun r => deleted r = false) (raw_view ds typ)).

Definition delta_node_way (ds : deltas columns columns) : list (Z * Z) :=
  remove_dups (flat_map (fun w => map (fun ref => (ref, b_id w)) (unnest (refs (b_data w)))) (alive_view ds TWay)).
Definition delta_member (ds : deltas columns columns) : list (pystr * Z * Z) :=
  remove_dups (flat_map (fun r => map (fun m => (m_type m, m_ref m, b_id r)) (unnest (members (b_data r))))
                 (alive_view ds TRelation)).

(** * _fetch_current *)

(** [ids] is the content of [ids_table]. *)
Definition _fetch_current (d : dataset) (typ : etype) (wanted : list Z) : list base_columns :=
  match wanted with
  | [] => []
  | i :: rest =>
      let parts := _select_parts (byid d typ) (min_of i rest) (max_of i rest) in
      where_in wanted (alive_view (d_deltas d) typ) ++
      where_not_in (ids (raw_view (d_deltas d) typ)) (where_in wanted (read_parts parts))
  end.

(** * _drop_stale_versions *)

(** [p.id IS NULL OR b.version > p.version] *)
Definition newer {P} (b : row P) (p : option base_columns) : bool :=
  match p with
  | None => true
  | Some p => match c_version (b_data p) with Some v => v <? Osc.version b | None => false end
  end.
Definition _drop_stale_versions {P} (d : dataset) (typ : etype) (raw : list (row P)) : list (row P) :=
  let prior := _fetch_current d typ (remove_dups (ids raw)) in
  omap (fun x => x) (left_join same_id (fun b p => if newer b p then Some b else None) raw prior).

(** * _extent_filter *)

(** The ids of the members of one type. *)
Definition _member_ids (t : list _RelationRow) (mtype : pystr) : list Z :=
  remove_dups (flat_map (fun r => omap (fun m => if m_type m =s mtype then Some (m_ref m) else None) (payload r)) t).

Record extent := { south_e7 : Z; west_e7 : Z; north_e7 : Z; east_e7 : Z }.

Definition inside (x : extent) (n : _NodeRow) : bool :=
  match payload n with
  | (Some lat, Some lon) => (south_e7 x <=? lat) && (lat <=? north_e7 x) && (west_e7 x <=? lon) && (lon <=? east_e7 x)
  | _ => false
  end.

Record batch_rows := { batch_node : list _NodeRow; batch_way : list _WayRow; batch_relation : list _RelationRow }.
Record filtered := {
  kept : batch_rows;
  exists_node : list base_columns;
  dropped : Z * Z * Z
}.
Definition keep {A} (p : A -> bool) (l : list A) : list A := base.filter (fun x => p x = true) l.
Definition len {A} (l : list A) : Z := Z.of_nat (length l).

Definition _extent_filter (d : dataset) (x : extent) (b : batch_rows) : filtered :=
  let node_ids := remove_dups (ids (batch_node b) ++ flat_map payload (batch_way b) ++ _member_ids (batch_relation b) (u "n")) in
  let way_ids := remove_dups (ids (batch_way b) ++ _member_ids (batch_relation b) (u "w")) in
  let rel_ids := remove_dups (ids (batch_relation b) ++ _member_ids (batch_relation b) (u "r")) in
  let exists_node := _fetch_current d TNode node_ids in
  let exists_way := _fetch_current d TWay way_ids in
  let exists_relation := _fetch_current d TRelation rel_ids in
  let kept_node := keep (fun n => mem (Osc.id n) (ids exists_node) || (negb (Osc.deleted _ n) && inside x n)) (batch_node b) in
  let known_node_ids := ids exists_node ++ ids kept_node in
  let kept_way := keep (fun w => mem (Osc.id w) (ids exists_way) ||
                           (negb (Osc.deleted _ w) && existsb (fun ref => mem ref known_node_ids) (payload w))) (batch_way b) in
  let known_member m :=
    ((m_type m =s u "n") && mem (m_ref m) (ids exists_node)) ||
    ((m_type m =s u "w") && mem (m_ref m) (ids exists_way)) ||
    ((m_type m =s u "r") && mem (m_ref m) (ids exists_relation)) in
  let kept_relation := keep (fun r => mem (Osc.id r) (ids exists_relation) ||
                                (negb (Osc.deleted _ r) && existsb known_member (payload r))) (batch_relation b) in
  {| kept := {| batch_node := kept_node; batch_way := kept_way; batch_relation := kept_relation |};
     exists_node := exists_node;
     dropped := (len (batch_node b) - len kept_node, len (batch_way b) - len kept_way,
                 len (batch_relation b) - len kept_relation) |}.

(** * _touched_set *)
Section Touched.
Context `{Numpy}.
Definition np_unique (l : list Z) : list Z := map fst (unique_counts l).
Definition np_setdiff1d (a b : list Z) : list Z := base.filter (fun i => mem i b = false) (np_unique a).

(** The ways of the kept nodes, from the base index and the tiers. *)
Definition parent_ways (d : dataset) (node_ids : list Z) : list Z :=
  match node_ids with
  | [] => []
  | i :: rest =>
      let pick rows := remove_dups (map snd (base.filter (fun r : Z * Z => mem r.1 node_ids = true) rows)) in
      pick (read_parts (_select_parts (node_way d) (min_of i rest) (max_of i rest))) ++
      pick (delta_node_way (d_deltas d))
  end.

Definition _parent_relations (d : dataset) (ids : list Z) : list Z :=
  match ids with
  | [] => []
  | _ =>
      let pick rows := remove_dups (map snd (base.filter (fun r : pystr * Z * Z => mem r.1.2 ids = true) rows)) in
      np_unique (pick (read_parts (member_index d)) ++ pick (delta_member (d_deltas d)))
  end.

(** [for _ in range(8)] *)
Fixpoint relations_loop (n : nat) (d : dataset) (touched : list Z) : list Z :=
  match n with
  | O => touched
  | S n =>
      let combined := np_unique (touched ++ _parent_relations d touched) in
      if (length combined =? length touched)%nat then touched else relations_loop n d combined
  end.

Definition touched_ways (d : dataset) (k : batch_rows) : list Z :=
  let kept_way_ids := ids (batch_way k) in
  let candidate := np_unique (kept_way_ids ++ parent_ways d (ids (batch_node k))) in
  let alive := ids (_fetch_current d TWay (np_setdiff1d candidate kept_way_ids)) in
  np_unique (kept_way_ids ++ alive).

Definition touched_relations (d : dataset) (k : batch_rows) (touched_way_ids : list Z) : list Z :=
  let kept_relation_ids := ids (batch_relation k) in
  let seed := np_unique (kept_relation_ids ++ _parent_relations d (ids (batch_node k)) ++
                         _parent_relations d touched_way_ids) in
  let touched := relations_loop 8 d seed in
  let alive := ids (_fetch_current d TRelation (np_setdiff1d touched kept_relation_ids)) in
  np_unique (kept_relation_ids ++ alive).

Definition _touched_set (d : dataset) (k : batch_rows) : list Z * list Z :=
  let w := touched_ways d k in (w, touched_relations d k w).
End Touched.
