(* ===== verification/UpdateRun.v ===== *)
(** [update/updater.py], [_resolve]: the new rows of every touched element, with
    the geometry, bounding box, cell, centroid and Hilbert key recomputed from
    the coordinates of its nodes and the boxes of its members.

    [update/updater.py], a run: fetching the change files, resolving the batch
    against the current state, writing the tiers and the fields of the next
    manifest.  The typed record [manifest] holds the fields of the manifest a
    run reads and replaces. *)
From S2P Require Import Prelude PyStr PyFloatFacts Json Replication Osc Numpy Cells LayoutHilbert Sql PyTime Tiers DeltaRead Fetch.
From S2P Require Import PyFloat.

(** * Columns of a row *)
Definition null_columns : columns := {|
  lat_e7 := None; lon_e7 := None; refs := None; members := None; c_tags := None; promoted := [];
  c_version := None; c_changeset := None; c_timestamp := None; c_uid := None; c_user := None;
  xmin_e7 := None; ymin_e7 := None; xmax_e7 := None; ymax_e7 := None; geometry := None;
  is_closed := None; is_area := None; centroid_lat_e7 := None; centroid_lon_e7 := None; hilbert := None |}.

(** [tags['key']]: null when the map is null or has no such key. *)
Definition tag (k : pystr) (tags : option (list (pystr * pystr))) : option pystr := tags ≫= dict_get k.

Definition promoted_select (promoted_keys : list pystr) (tags : option (list (pystr * pystr))) : list (option pystr) :=
  map (fun k => tag k tags) promoted_keys.
Definition promoted_null (promoted_keys : list pystr) : list (option pystr) := map (fun _ => None) promoted_keys.

Section Resolve.
Context `{UnicodeDB} `{Numpy}.
Context (promoted_keys : list pystr).

(** The columns of a changed element, and those an element keeps from its
    current row; the derived ones are null. *)
Definition changed {P} (k : row P) (lat lon : option Z) (rs : option (list Z)) (ms : option (list member)) : columns := {|
  lat_e7 := lat; lon_e7 := lon; refs := rs; members := ms;
  c_tags := Osc.tags k; promoted := promoted_select promoted_keys (Osc.tags k);
  c_version := Some (Osc.version k); c_changeset := Some (Osc.changeset _ k); c_timestamp := Osc.timestamp _ k;
  c_uid := Osc.uid _ k; c_user := Some (Osc.user _ k);
  xmin_e7 := None; ymin_e7 := None; xmax_e7 := None; ymax_e7 := None; geometry := None;
  is_closed := None; is_area := None; centroid_lat_e7 := None; centroid_lon_e7 := None; hilbert := None |}.
Definition carried (p : columns) : columns := {|
  lat_e7 := None; lon_e7 := None; refs := refs p; members := members p;
  c_tags := c_tags p; promoted := promoted p;
  c_version := c_version p; c_changeset := c_changeset p; c_timestamp := c_timestamp p;
  c_uid := c_uid p; c_user := c_user p;
  xmin_e7 := None; ymin_e7 := None; xmax_e7 := None; ymax_e7 := None; geometry := None;
  is_closed := None; is_area := None; centroid_lat_e7 := None; centroid_lon_e7 := None; hilbert := None |}.

Definition deleted_columns : columns := {|
  lat_e7 := None; lon_e7 := None; refs := None; members := None; c_tags := None; promoted := promoted_null promoted_keys;
  c_version := None; c_changeset := None; c_timestamp := None; c_uid := None; c_user := None;
  xmin_e7 := None; ymin_e7 := None; xmax_e7 := None; ymax_e7 := None; geometry := None;
  is_closed := None; is_area := None; centroid_lat_e7 := None; centroid_lon_e7 := None; hilbert := None |}.

(** A row whose cell is not known yet, and the row of a deleted element. *)
Definition pending (i : Z) (c : columns) (del : bool) (prev : option pystr) (seq : Z) : delta_row columns :=
  {| r_id := i; r_cell := None; data := c; deleted := del; prev_cell := prev; r_seq := seq |}.
Definition deleted_row (r : delta_row columns) : delta_row columns :=
  {| r_id := r_id r; r_cell := prev_cell r; data := deleted_columns; deleted := true;
     prev_cell := prev_cell r; r_seq := r_seq r |}.

(** [touched_way_base], [touched_relation_base]: the kept changes, then the
    touched elements that are not among them. *)
Definition touched_base {P} (cols : row P -> columns) (kept : list (row P)) (prior : list base_columns)
    (touched : list Z) (last_seq : Z) : list (delta_row columns) :=
  left_join same_id
    (fun k p => pending (Osc.id k) (cols k) (Osc.deleted _ k) (p ≫= b_cell) (Osc.seq k)) kept prior ++
  map (fun p => pending (b_id p) (carried (b_data p)) false (b_cell p) last_seq)
    (where_not_in (ids kept) (where_in touched prior)).

(** [WHERE NOT deleted] and [WHERE deleted] *)
Definition alive (l : list (delta_row columns)) : list (delta_row columns) := base.filter (fun r => deleted r = false) l.
Definition dead (l : list (delta_row columns)) : list (delta_row columns) := base.filter (fun r => deleted r = true) l.

(** * Node coordinates *)
Abbreviation coords := (list (Z * (option Z * option Z))).

Definition node_coords_all (d : dataset) (kept_node : list _NodeRow) (way_refs member_nodes : list Z) : coords :=
  let needed := remove_dups (ids kept_node ++ way_refs ++ member_nodes) in
  let prior := _fetch_current d TNode needed in
  map (fun k => (Osc.id k, payload k)) (base.filter (fun k => Osc.deleted _ k = false) kept_node) ++
  map (fun p => (b_id p, (lat_e7 (b_data p), lon_e7 (b_data p)))) (where_not_in (ids kept_node) prior).

(** * Aggregates: nulls are ignored, and the result over none is null *)
Definition agg (f : Z -> Z -> Z) (l : list (option Z)) : option Z :=
  match omap (fun x => x) l with [] => None | v :: vs => Some (fold_left f vs v) end.
(** [LEAST], [GREATEST] *)
Definition opt2 (f : Z -> Z -> Z) (a b : option Z) : option Z := agg f [a; b].

Record box := { xmin : option Z; ymin : option Z; xmax : option Z; ymax : option Z }.
Definition no_box : box := {| xmin := None; ymin := None; xmax := None; ymax := None |}.
Definition boxed (b : box) : option (Z * Z * Z * Z) :=
  match ymin b, xmin b, ymax b, xmax b with
  | Some s, Some w, Some n, Some e => Some (s, w, n, e)
  | _, _, _, _ => None
  end.
Definition with_box (b : box) (c : columns) : columns := {|
  lat_e7 := lat_e7 c; lon_e7 := lon_e7 c; refs := refs c; members := members c; c_tags := c_tags c; promoted := promoted c;
  c_version := c_version c; c_changeset := c_changeset c; c_timestamp := c_timestamp c; c_uid := c_uid c; c_user := c_user c;
  xmin_e7 := xmin b; ymin_e7 := ymin b; xmax_e7 := xmax b; ymax_e7 := ymax b; geometry := geometry c;
  is_closed := is_closed c; is_area := is_area c; centroid_lat_e7 := centroid_lat_e7 c;
  centroid_lon_e7 := centroid_lon_e7 c; hilbert := hilbert c |}.
Definition box_of (c : columns) : box :=
  {| xmin := xmin_e7 c; ymin := ymin_e7 c; xmax := xmax_e7 c; ymax := ymax_e7 c |}.

(** * Ways *)

(** [way_pts] of one way, in the order of its references. *)
Definition way_pts (cs : coords) (rs : list Z) : list (option Z * option Z) :=
  left_join (fun ref n => fst n =? ref) (fun _ n => match n with Some n => snd n | None => (None, None) end) rs cs.

(** [way_geom] of one way. *)
Definition way_box (pts : list (option Z * option Z)) : box :=
  match omap fst pts with
  | [] => no_box
  | _ => {| ymin := agg Z.min (map fst pts); ymax := agg Z.max (map fst pts);
            xmin := agg Z.min (map snd pts); xmax := agg Z.max (map snd pts) |}
  end.
Definition st_point (lon lat : option Z) : option (pyfloat * pyfloat) :=
  match lon, lat with Some lon, Some lat => Some (Cells.e7_degrees lon, Cells.e7_degrees lat) | _, _ => None end.
Definition way_line (pts : list (option Z * option Z)) : option (list (option (pyfloat * pyfloat))) :=
  if (2 <=? length (omap fst pts))%nat
  then Some (omap (fun p => match fst p with Some _ => Some (st_point (snd p) (fst p)) | None => None end) pts)
  else None.

Definition closed (rs : list Z) : bool :=
  (4 <=? length rs)%nat && match head rs, last rs with Some a, Some b => a =? b | _, _ => false end.
Definition coalesce_tag (k : pystr) (tags : option (list (pystr * pystr))) : pystr := default [] (tag k tags).
Definition present {A} (o : option A) : bool := match o with Some _ => true | None => false end.
Definition area (is_closed : bool) (tags : option (list (pystr * pystr))) : bool :=
  is_closed && negb (coalesce_tag (u "area") tags =s u "no")
  && negb ((present (tag (u "highway") tags) || present (tag (u "barrier") tags))
           && negb (coalesce_tag (u "area") tags =s u "yes")).

(** [way_cell_assign], [rel_cell_assign]: the cell, Hilbert key and centroid of
    a box, and the defaults without one. *)
Definition _assign (lvs : list pystr) (ancestor_depths : list nat) (max_depth : nat) (b : box) :
    res (pystr * Z * option Z * option Z) :=
  match boxed b with
  | None => Ok (ROOT, 0, None, None)
  | Some (s, w, n, e) =>
      let* cell := containing_cells_v2 s w n e lvs ancestor_depths max_depth in
      let mid a b := round_of_float (fdiv (fadd (float_of_Z a) (float_of_Z b)) (float_of_Z 2)) in
      let* clat := mid s n in
      let* clon := mid w e in
      let* h := hilbert_keys clat clon in
      Ok (cell, h, Some clat, Some clon)
  end.

(** [c if c else None] *)
Definition nonempty (c : pystr) : option pystr := match c with [] => None | _ => Some c end.

Definition placed (r : delta_row columns) (c : columns) (a : pystr * Z * option Z * option Z) : delta_row columns :=
  let '(cell, h, clat, clon) := a in
  {| r_id := r_id r; r_cell := nonempty cell;
     data := {| lat_e7 := lat_e7 c; lon_e7 := lon_e7 c; refs := refs c; members := members c; c_tags := c_tags c;
                promoted := promoted c; c_version := c_version c; c_changeset := c_changeset c;
                c_timestamp := c_timestamp c; c_uid := c_uid c; c_user := c_user c;
                xmin_e7 := xmin_e7 c; ymin_e7 := ymin_e7 c; xmax_e7 := xmax_e7 c; ymax_e7 := ymax_e7 c;
                geometry := geometry c; is_closed := is_closed c; is_area := is_area c;
                centroid_lat_e7 := clat; centroid_lon_e7 := clon; hilbert := Some h |};
     deleted := false; prev_cell := prev_cell r; r_seq := r_seq r |}.

Section Placement.
Context (lvs : list pystr) (ancestor_depths : list nat) (max_depth : nat).

(** A row of [way_resolved_pre]. *)
Definition way_columns (cs : coords) (c : columns) : columns :=
  let pts := way_pts cs (unnest (refs c)) in
  let b := way_box pts in
  let cl := closed (unnest (refs c)) in
  {| lat_e7 := None; lon_e7 := None; refs := refs c; members := None; c_tags := c_tags c; promoted := promoted c;
     c_version := c_version c; c_changeset := c_changeset c; c_timestamp := c_timestamp c; c_uid := c_uid c; c_user := c_user c;
     xmin_e7 := xmin b; ymin_e7 := ymin b; xmax_e7 := xmax b; ymax_e7 := ymax b; geometry := way_line pts;
     is_closed := Some cl; is_area := Some (area cl (c_tags c));
     centroid_lat_e7 := None; centroid_lon_e7 := None; hilbert := None |}.

Definition resolve_way (cs : coords) (r : delta_row columns) : res (delta_row columns) :=
  let c := way_columns cs (data r) in
  res_map (placed r c) (_assign lvs ancestor_depths max_depth (box_of c)).

Definition resolved_way (cs : coords) (touched_way_base : list (delta_row columns)) : res (list (delta_row columns)) :=
  res_map (fun rs => rs ++ map deleted_row (dead touched_way_base))
    (res_mapM (resolve_way cs) (alive touched_way_base)).

(** * Relations *)
Abbreviation boxes := (list (Z * box)).

(** [way_bbox_all], [rel_bbox_member_lookup]: the boxes that are known. *)
Definition known (l : boxes) : boxes := base.filter (fun b => present (xmin (snd b)) = true) l.
Definition row_box (r : delta_row columns) : Z * box := (r_id r, box_of (data r)).
Definition base_box (p : base_columns) : Z * box := (b_id p, box_of (b_data p)).

Definition members_of (mtype : pystr) (r : delta_row columns) : list Z :=
  omap (fun m => if m_type m =s mtype then Some (m_ref m) else None) (unnest (members (data r))).

(** The rows of a join on the id of a member. *)
Definition lookup_ids {A} (refs : list Z) (l : list (Z * A)) : list A :=
  inner_join (fun ref b => fst b =? ref) (fun _ b => snd b) refs l.

Definition point_box (p : option Z * option Z) : box := {| ymin := fst p; ymax := fst p; xmin := snd p; xmax := snd p |}.

(** [relation_bbox0] of one relation: its member nodes and ways. *)
Definition join_boxes (bs : list box) : box :=
  {| ymin := agg Z.min (map ymin bs); ymax := agg Z.max (map ymax bs);
     xmin := agg Z.min (map xmin bs); xmax := agg Z.max (map xmax bs) |}.
Definition relation_bbox0 (cs : coords) (way_bbox_all : boxes) (r : delta_row columns) : box :=
  join_boxes (map point_box (lookup_ids (members_of (u "n") r) cs) ++ lookup_ids (members_of (u "w") r) way_bbox_all).

(** [relation_bbox1] of one relation: with its member relations. *)
Definition relation_bbox1 (b0 : box) (lookup : boxes) (r : delta_row columns) : box :=
  let rb := join_boxes (lookup_ids (members_of (u "r") r) lookup) in
  {| ymin := opt2 Z.min (ymin b0) (ymin rb); ymax := opt2 Z.max (ymax b0) (ymax rb);
     xmin := opt2 Z.min (xmin b0) (xmin rb); xmax := opt2 Z.max (xmax b0) (xmax rb) |}.

Definition relation_columns (b : box) (c : columns) : columns := with_box b {|
  lat_e7 := None; lon_e7 := None; refs := None; members := members c; c_tags := c_tags c; promoted := promoted c;
  c_version := c_version c; c_changeset := c_changeset c; c_timestamp := c_timestamp c; c_uid := c_uid c; c_user := c_user c;
  xmin_e7 := None; ymin_e7 := None; xmax_e7 := None; ymax_e7 := None; geometry := None;
  is_closed := None; is_area := None; centroid_lat_e7 := None; centroid_lon_e7 := None; hilbert := None |}.

Definition resolve_relation (cs : coords) (way_bbox_all lookup : boxes) (r : delta_row columns) : res (delta_row columns) :=
  let c := relation_columns (relation_bbox1 (relation_bbox0 cs way_bbox_all r) lookup r) (data r) in
  res_map (placed r c) (_assign lvs ancestor_depths max_depth (box_of c)).

Definition resolved_relation (cs : coords) (way_bbox_all extra_relation_bbox : boxes)
    (touched_relation_base : list (delta_row columns)) : res (list (delta_row columns)) :=
  let rs := alive touched_relation_base in
  let lookup := known (map (fun r => (r_id r, relation_bbox0 cs way_bbox_all r)) rs) ++ extra_relation_bbox in
  res_map (fun out => out ++ map deleted_row (dead touched_relation_base))
    (res_mapM (resolve_relation cs way_bbox_all lookup) rs).

(** * Nodes *)

(** [node_cell_assign] of one node; a missing coordinate of a node that is not
    deleted counts as 0. *)
Definition node_cell_assign (n : _NodeRow) : res (option pystr * Z) :=
  if Osc.deleted _ n then Ok (None, 0)
  else
    let lat := default 0 (payload n).1 in
    let lon := default 0 (payload n).2 in
    let* cell := point_cells_np lat lon lvs in
    let* h := hilbert_keys lat lon in
    Ok (nonempty cell, h).

Definition resolve_node (n : _NodeRow) (p : option base_columns) (a : option pystr * Z) : delta_row columns :=
  if Osc.deleted _ n then deleted_row (pending (Osc.id n) null_columns true (p ≫= b_cell) (Osc.seq n))
  else
    let c := changed n (payload n).1 (payload n).2 None None in
    {| r_id := Osc.id n; r_cell := a.1;
       data := {| lat_e7 := lat_e7 c; lon_e7 := lon_e7 c; refs := None; members := None; c_tags := c_tags c;
                  promoted := promoted c; c_version := c_version c; c_changeset := c_changeset c;
                  c_timestamp := c_timestamp c; c_uid := c_uid c; c_user := c_user c;
                  xmin_e7 := None; ymin_e7 := None; xmax_e7 := None; ymax_e7 := None; geometry := None;
                  is_closed := None; is_area := None; centroid_lat_e7 := None; centroid_lon_e7 := None;
                  hilbert := Some a.2 |};
       deleted := false; prev_cell := p ≫= b_cell; r_seq := Osc.seq n |}.

Definition resolved_node (kept_node : list _NodeRow) (exists_node : list base_columns) : res (list (delta_row columns)) :=
  let* assigned := res_mapM (fun n => res_map (pair n) (node_cell_assign n)) kept_node in
  let joined := left_join (fun x p => b_id p =? Osc.id (fst x)) (fun x p => resolve_node (fst x) p (snd x)) assigned exists_node in
  Ok (alive joined ++ dead joined).

(** * _resolve *)
Record resolved := { res_node : list (delta_row columns); res_way : list (delta_row columns); res_relation : list (delta_row columns) }.

Definition way_change (k : _WayRow) : columns := changed k None None (Some (payload k)) None.
Definition relation_change (k : _RelationRow) : columns := changed k None None None (Some (payload k)).

Definition _resolve (d : dataset) (k : batch_rows) (exists_node : list base_columns)
    (touched_way_ids touched_relation_ids : list Z) (last_seq : Z) : res resolved :=
  let prior_way_all := _fetch_current d TWay touched_way_ids in
  let prior_relation_all := _fetch_current d TRelation touched_relation_ids in
  let touched_way_base := touched_base way_change (batch_way k) prior_way_all touched_way_ids last_seq in
  let touched_relation_base :=
    touched_base relation_change (batch_relation k) prior_relation_all touched_relation_ids last_seq in
  let cs := node_coords_all d (batch_node k)
              (flat_map (fun r => unnest (refs (data r))) (alive touched_way_base))
              (flat_map (members_of (u "n")) (alive touched_relation_base)) in
  let members_outside mtype touched :=
    base.filter (fun i => mem i touched = false) (remove_dups (flat_map (members_of mtype) (alive touched_relation_base))) in
  let extra_way_bbox := known (map base_box (_fetch_current d TWay (members_outside (u "w") touched_way_ids))) in
  let extra_relation_bbox :=
    known (map base_box (_fetch_current d TRelation (members_outside (u "r") touched_relation_ids))) in
  let* ways := resolved_way cs touched_way_base in
  let way_bbox_all := known (map row_box (base.filter (fun r => deleted r = false) ways)) ++ extra_way_bbox in
  let* relations := resolved_relation cs way_bbox_all extra_relation_bbox touched_relation_base in
  let* nodes := resolved_node (batch_node k) exists_node in
  Ok {| res_node := nodes; res_way := ways; res_relation := relations |}.
End Placement.
End Resolve.

(** * The batch *)

(** [ts.strftime("%Y-%m-%dT%H:%M:%SZ")]: the wall clock of a time stamp counts
    seconds from 1970; days to a civil date by the 400-year cycle. *)
Definition civil (days : Z) : Z * Z * Z :=
  let z := days + 719468 in
  let era := z / 146097 in
  let doe := z mod 146097 in
  let yoe := (doe - doe / 1460 + doe / 36524 - doe / 146096) / 365 in
  let doy := doe - (365 * yoe + yoe / 4 - yoe / 100) in
  let mp := (5 * doy + 2) / 153 in
  let d := doy - (153 * mp + 2) / 5 + 1 in
  let m := if mp <? 10 then mp + 3 else mp - 9 in
  (yoe + era * 400 + (if m <=? 2 then 1 else 0), m, d).
Definition strftime (t : Osc.datetime) : pystr :=
  let '(y, m, d) := civil (wall t / 86400) in
  let s := wall t mod 86400 in
  let two n := zero_pad 2 (str_of_Z n) in
  str_of_Z y ++ u "-" ++ two m ++ u "-" ++ two d ++ u "T" ++
  two (s / 3600) ++ u ":" ++ two (s / 60 mod 60) ++ u ":" ++ two (s mod 60) ++ u "Z".

(** The maximum of the time stamps of one table, which raises when they are all
    null; [ts] is the maximum so far. *)
Definition max_timestamp {P} (t : list (row P)) (ts : option Z) : res (option Z) :=
  match t with
  | [] => Ok ts
  | _ =>
      match omap (fun r => wall <$> Osc.timestamp _ r) t with
      | [] => Raise ValueError
      | v :: vs =>
          let mx := fold_left Z.max vs v in
          Ok (match ts with Some ts => if ts <? mx then Some mx else Some ts | None => Some mx end)
      end
  end.
Definition _max_element_timestamp (b : BatchResult) : res (option pystr) :=
  let* ts := max_timestamp (Osc.node b) None in
  let* ts := max_timestamp (Osc.way b) ts in
  let* ts := max_timestamp (Osc.relation b) ts in
  Ok ((fun w => strftime {| wall := w; aware := false |}) <$> ts).

(** * The tables of a batch *)

(** The byid columns of a row ([BYID_COLUMNS]). *)
Definition byid_columns (typ : etype) (c : columns) : columns := {|
  lat_e7 := lat_e7 c; lon_e7 := lon_e7 c; refs := refs c; members := members c; c_tags := c_tags c; promoted := promoted c;
  c_version := c_version c; c_changeset := c_changeset c; c_timestamp := c_timestamp c; c_uid := c_uid c; c_user := c_user c;
  xmin_e7 := xmin_e7 c; ymin_e7 := ymin_e7 c; xmax_e7 := xmax_e7 c; ymax_e7 := ymax_e7 c; geometry := None;
  is_closed := is_closed c; is_area := is_area c; centroid_lat_e7 := None; centroid_lon_e7 := None;
  hilbert := match typ with TRelation => None | _ => hilbert c end |}.
Definition byid_row (typ : etype) (r : delta_row columns) : delta_row columns :=
  {| r_id := r_id r; r_cell := r_cell r; data := byid_columns typ (data r); deleted := deleted r;
     prev_cell := prev_cell r; r_seq := r_seq r |}.
Definition table_of (typ : etype) (r : resolved) : list (delta_row columns) :=
  match typ with TNode => res_node r | TWay => res_way r | TRelation => res_relation r end.
Definition batch_tables (r : resolved) (typ : etype) : tables columns columns :=
  {| t_byid := map (byid_row typ) (table_of typ r); t_spatial := table_of typ r |}.

Definition with_deltas (d : dataset) (ds : deltas columns columns) : dataset :=
  {| byid := byid d; node_way := node_way d; member_index := member_index d; d_deltas := ds |}.

Record manifest := {
  data_files : dataset;
  replication_sequence : option Z;
  timestamp_osm_base : option pystr;
  manifest_version : Z;
  replication_source : option pystr;
  extent_degrees : pyfloat * pyfloat * pyfloat * pyfloat;
  leaf_cells : list pystr;
  ancestor_depths : list nat;
  max_depth : nat;
  promoted_keys : list pystr;
  has_history : bool
}.

Record RunSummary := {
  applied : Z; summary_first : option Z; summary_last : option Z; summary_timestamp : option pystr;
  rows_touched : list (etype * Z); summary_dropped : Z * Z * Z; no_op : bool
}.

Section Run.
Context `{UnicodeDB} `{Numpy}.

Definition extent_e7 (x : pyfloat * pyfloat * pyfloat * pyfloat) : res extent :=
  let '(south, west, north, east) := x in
  let e7 v := round_of_float (fmul v (float_of_Z 10000000)) in
  let* s := e7 south in
  let* w := e7 west in
  let* n := e7 north in
  let* e := e7 east in
  Ok {| south_e7 := s; west_e7 := w; north_e7 := n; east_e7 := e |}.

(** [_run_once_impl] up to the tiers: steps 1 to 7. *)
Definition resolve_batch (m : manifest) (x : extent) (raw : batch_rows) (last_seq : Z) : res (resolved * filtered) :=
  let d := data_files m in
  let b := {| batch_node := _drop_stale_versions d TNode (batch_node raw);
              batch_way := _drop_stale_versions d TWay (batch_way raw);
              batch_relation := _drop_stale_versions d TRelation (batch_relation raw) |} in
  let f := _extent_filter d x b in
  let '(ways, relations) := _touched_set d (kept f) in
  let* r := _resolve (promoted_keys m) (leaf_cells m) (ancestor_depths m) (max_depth m) d (kept f) (exists_node f)
              ways relations last_seq in
  Ok (r, f).

Definition or_str (a b : option pystr) : option pystr := match a with None | Some [] => b | Some _ => a end.

(** [or cells_mod.DEFAULT_ANCESTOR_DEPTHS], [or cells_mod.DEFAULT_MAX_DEPTH_V2] *)
Definition or_depths (l : list nat) : list nat := match l with [] => DEFAULT_ANCESTOR_DEPTHS | _ => l end.
Definition or_depth (n : nat) : nat := match n with O => DEFAULT_MAX_DEPTH_V2 | _ => n end.

(** The whole of it on a root without history: the tiers and the next manifest.
    [fetched] is not empty. *)
Definition _run_once_impl (m : manifest) (x : extent) (source : option pystr) (raw : batch_rows) (first_seq last_seq n_fetched : Z)
    (batch_timestamp : option pystr) : res (manifest * RunSummary) :=
  let* rf := resolve_batch m x raw last_seq in
  let* ds := _write_tiers (d_deltas (data_files m)) (batch_tables rf.1) first_seq last_seq batch_timestamp in
  Ok ({| data_files := with_deltas (data_files m) ds;
         replication_sequence := Some last_seq;
         timestamp_osm_base := or_str batch_timestamp (timestamp_osm_base m);
         manifest_version := (if has_history m then Z.max 5 else fun v => v) (Z.max 3 (manifest_version m));
         replication_source := or_str source (replication_source m);
         extent_degrees := extent_degrees m; leaf_cells := leaf_cells m;
         ancestor_depths := or_depths (ancestor_depths m); max_depth := or_depth (max_depth m);
         promoted_keys := promoted_keys m; has_history := has_history m |},
      {| applied := n_fetched; summary_first := Some first_seq; summary_last := Some last_seq;
         summary_timestamp := batch_timestamp;
         rows_touched := map (fun t => (t, len (table_of t rf.1))) _TYPES;
         summary_dropped := dropped rf.2; no_op := false |}).

(** * run_once *)
Context {C : Type} `{HttpClient C}.
Variable FileProcessor : pystr -> res (list osm_object).
Variables (opt_source : option pystr) (max_diffs : Z).

Definition no_diffs : RunSummary :=
  {| applied := 0; summary_first := None; summary_last := None; summary_timestamp := None;
     rows_touched := []; summary_dropped := (0, 0, 0); no_op := true |}.
Definition raw_batch (b : BatchResult) : batch_rows :=
  {| batch_node := Osc.node b; batch_way := Osc.way b; batch_relation := Osc.relation b |}.

(** The manifest to publish, when there is one. *)
Definition run_once (m : manifest) (c : C) (cache : dir_t) : res (option manifest * RunSummary) * C * dir_t :=
  match or_str opt_source (replication_source m) with
  | None | Some [] => (Raise ValueError, c, cache)
  | Some source =>
      let m := {| data_files := data_files m; replication_sequence := replication_sequence m;
                  timestamp_osm_base := timestamp_osm_base m; manifest_version := manifest_version m;
                  replication_source := replication_source m; extent_degrees := extent_degrees m;
                  leaf_cells := leaf_cells m; ancestor_depths := or_depths (ancestor_depths m);
                  max_depth := or_depth (max_depth m); promoted_keys := promoted_keys m; has_history := has_history m |} in
      let from_seq := default 0 (replication_sequence m) + 1 in
      match extent_e7 (extent_degrees m) with
      | Raise e => (Raise e, c, cache)
      | Ok x =>
          match fetch_range source DEFAULT_RETRIES from_seq max_diffs c cache with
          | (Raise e, c1, cache1) => (Raise e, c1, cache1)
          | (Ok [], c1, cache1) => (Ok (None, no_diffs), c1, cache1)
          | (Ok (f :: fs), c1, cache1) =>
              let fetched := f :: fs in
              let last_f := List.last fetched f in
              let run :=
                let* b := parse_batch FileProcessor (map (fun r => (fr_seq r, fr_osc_path r)) fetched) in
                let* batch_timestamp := match fr_timestamp last_f with
                                        | None | Some [] => _max_element_timestamp b
                                        | ts => Ok ts
                                        end in
                res_map (fun x => (Some x.1, x.2))
                  (_run_once_impl m x opt_source (raw_batch b) (fr_seq f) (fr_seq last_f) (len fetched) batch_timestamp) in
              (run, c1, cache1)
          end
      end
  end.
End Run.
