(* ===== verification/ResolveFacts.v ===== *)
(** Theorems on the first half of an update run: a fetch returns exactly the
    current rows of the ids; stale changes are dropped; the touched set
    contains every way with a changed node.

    Placement never fails: on e7 coordinates of any width a table can hold, the
    code of a point, its leaf cell, its Hilbert key, and the cell, centroid and
    key of a box are all defined.

    Lemmas on [_resolve]: it succeeds, one row per touched element, and the
    columns of a resolved way are those computed from the positions of its
    nodes after the batch. *)
From S2P Require Import Prelude PyStr PyFloatFacts Json Osc Numpy Cells CellsFacts LayoutHilbert EngineHilbert HilbertFacts Sql Tiers DeltaRead.
From S2P Require Import TiersFacts DeltaReadFacts Fetch UpdateRun PyFloat.

(** * Well-formed datasets *)
Definition base_rows (d : dataset) (typ : etype) : list base_columns := read_parts (byid d typ).
Definition cur (d : dataset) (typ : etype) (i : Z) : option base_columns := current (base_rows d) (d_deltas d) typ i.

(** The id range of a part covers its rows. *)
Definition in_range {R} (key : R -> Z) (parts : list (part R)) : Prop :=
  forall p r, p ∈ parts -> r ∈ p_rows p ->
    exists mn mx, min_id p = Some mn /\ max_id p = Some mx /\ mn <= key r <= mx.

Record dataset_ok (d : dataset) : Prop := {
  ok_deltas : deltas_ok (d_deltas d);
  ok_base : forall typ, unique (base_rows d typ);
  ok_ranges : forall typ, in_range b_id (byid d typ);
  ok_prev : prev_ok (base_rows d) (d_deltas d)
}.

(** * Reading parts *)
Lemma elem_of_read_parts {R} (parts : list (part R)) r : r ∈ read_parts parts <-> exists p, p ∈ parts /\ r ∈ p_rows p.
Proof. unfold read_parts. rewrite list_elem_of_In, in_flat_map. by setoid_rewrite list_elem_of_In. Qed.

(** Reading the parts whose range meets the ids loses no row of an id. *)
Lemma select_parts_complete {R} (key : R -> Z) (parts : list (part R)) i l r :
  in_range key parts -> key r ∈ i :: l ->
  r ∈ read_parts (_select_parts parts (min_of i l) (max_of i l)) <-> r ∈ read_parts parts.
Proof.
  intros Hr Hi. rewrite !elem_of_read_parts. unfold _select_parts. setoid_rewrite list_elem_of_filter.
  split; [intros (p & [_ Hp] & Hin); eauto|]. intros (p & Hp & Hin). exists p. split; [|done]. split; [|done].
  destruct (Hr p r Hp Hin) as (mn & mx & -> & -> & Hb). pose proof (min_of_le _ _ _ Hi). pose proof (max_of_ge _ _ _ Hi).
  apply negb_true_iff, orb_false_intro; apply Z.ltb_ge; lia.
Qed.

Lemma select_parts_sublist {R} (parts : list (part R)) lo hi r :
  r ∈ read_parts (_select_parts parts lo hi) -> r ∈ read_parts parts.
Proof. rewrite !elem_of_read_parts. unfold _select_parts. setoid_rewrite list_elem_of_filter. naive_solver. Qed.

Lemma unique_select_parts {R} `{Keyed R} (parts : list (part R)) lo hi :
  unique (read_parts parts) -> unique (read_parts (_select_parts parts lo hi)).
Proof.
  unfold unique, _select_parts. induction parts as [|p parts IH]; [done|]. rewrite filter_cons.
  unfold read_parts, ids in *. cbn [flat_map]. rewrite map_app. intros (H1 & H2 & H3)%NoDup_app.
  destruct (decide _); [|by apply IH]. cbn [flat_map]. rewrite map_app. apply NoDup_app.
  split_and!; [done| |by apply IH]. intros x Hx (r & -> & Hr)%elem_of_map. apply (H2 _ Hx), elem_of_map_2.
  by apply (select_parts_sublist parts lo hi).
Qed.

(** * The views *)
Lemma filter_true {A} (l : list A) : base.filter (fun _ => True) l = l.
Proof. induction l as [|x l IH]; [done|]. rewrite filter_cons. rewrite decide_True by done. by rewrite IH. Qed.

Lemma raw_view_tiers ds typ : raw_view ds typ = qualify (flat (read_tiers t_byid (fun _ => True) ds typ)).
Proof.
  unfold raw_view. f_equal. rewrite <- flat_read_tiers. induction (delta_tiers ds) as [|t l IH]; [done|].
  cbn [flat_map]. by rewrite IH, filter_true.
Qed.

Lemma find_raw_view (ds : deltas columns columns) typ i : deltas_ok ds -> find_id i (raw_view ds typ) = newest_row ds typ i.
Proof.
  intros Hds. pose proof (ok_read_byid _ typ Hds) as Hok. rewrite raw_view_tiers.
  rewrite find_id_qualify by by apply (read_tiers_ok t_byid).
  rewrite (newest_read t_byid eq_refl) by done. by rewrite !(selected_all t_byid).
Qed.
Lemma unique_raw_view ds typ : unique (raw_view ds typ).
Proof. apply unique_qualify. Qed.

Lemma elem_of_alive_view ds typ r : deltas_ok ds ->
  r ∈ alive_view ds typ <-> over (newest_row ds typ (b_id r)) None = Some r.
Proof.
  intros Hds. unfold alive_view. rewrite elem_of_alive by apply unique_raw_view. rewrite find_raw_view by done.
  split; [by intros (n & -> & Hn)|]. destruct (newest_row ds typ (b_id r)) as [n|]; [eauto|done].
Qed.

Lemma current_id base (ds : deltas columns columns) typ i (r : base_columns) : current base ds typ i = Some r -> b_id r = i.
Proof.
  unfold current, over. destruct (newest_row ds typ i) as [n|] eqn:E.
  - destruct (deleted n); [done|]. intros [= <-]. cbn. unfold newest_row, first_of, found in E.
    repeat (case_match; [simplify_eq; match goal with H : find_id _ _ = Some n |- _ => by apply find_id_Some in H as [_ <-] end|]).
    by apply find_id_Some in E as [_ <-].
  - intros Hr. by apply find_id_Some in Hr as [_ <-].
Qed.

(** * _fetch_current *)
Lemma fetch_spec d typ wanted : dataset_ok d ->
  unique (_fetch_current d typ wanted) /\
  forall r, r ∈ _fetch_current d typ wanted <-> b_id r ∈ wanted /\ cur d typ (b_id r) = Some r.
Proof.
  intros [Hds Hb Hr Hp]. unfold _fetch_current. destruct wanted as [|i rest].
  - split; [constructor|]. intros r. split; [by intros ?%elem_of_nil|by intros [?%elem_of_nil _]].
  - set (wanted := i :: rest). set (files := read_parts _).
    assert (Hfiles : unique files) by (apply unique_select_parts; apply Hb).
    assert (Hraw : forall j, j ∈ ids (raw_view (d_deltas d) typ) <-> is_Some (newest_row (d_deltas d) typ j)).
    { intros j. by rewrite <- find_raw_view, find_id_is_Some by done. }
    split.
    + unfold unique, ids. rewrite map_app. apply NoDup_app. split_and!.
      * apply (unique_filter (fun r : base_columns => mem (id_of r) wanted = true)).
        pose proof (unique_alive (raw_view (d_deltas d) typ) (fun _ => true) (unique_raw_view _ _)) as Hu.
        unfold select in Hu. by rewrite (list_filter_iff _ (fun _ => True)), filter_true in Hu.
      * intros j (r & -> & [Hr1 _]%elem_of_where_in)%elem_of_map (r' & E & [_ Hr2]%elem_of_where_not_in)%elem_of_map.
        apply Hr2, Hraw. change (id_of r') with (b_id r'). rewrite elem_of_alive_view in Hr1 by done.
        change (b_id r = b_id r') in E. rewrite <- E. by destruct (newest_row (d_deltas d) typ (b_id r)).
      * apply (unique_filter (fun r : base_columns => mem (id_of r) (ids (raw_view (d_deltas d) typ)) = false)).
        by apply (unique_filter (fun r : base_columns => mem (id_of r) wanted = true)).
    + intros r. rewrite elem_of_app, elem_of_where_in, elem_of_where_not_in, elem_of_where_in, elem_of_alive_view by done.
      rewrite Hraw. change (id_of r) with (b_id r). unfold cur, current.
      split.
      * intros [[H1 H2]|[[H1 H2] H3]]; (split; [done|]).
        -- by destruct (newest_row (d_deltas d) typ (b_id r)).
        -- destruct (newest_row _ _ _); [exfalso; eauto|]. apply select_parts_sublist in H1.
           exact (find_id_unique (base_rows d typ) r (Hb typ) H1).
      * intros [H1 H2]. destruct (newest_row (d_deltas d) typ (b_id r)) as [n|] eqn:En; [by left|right].
        split; [|by intros [? ?]]. split; [|done]. apply (select_parts_complete b_id); [done|done|].
        by apply find_id_Some in H2 as [H2 _].
Qed.

Lemma find_fetch d typ wanted i : dataset_ok d ->
  find_id i (_fetch_current d typ wanted) = if mem i wanted then cur d typ i else None.
Proof.
  intros Hd. destruct (fetch_spec d typ wanted Hd) as [Hu Hf].
  destruct (find_id i _) as [r|] eqn:E.
  - apply find_id_Some in E as [Hr <-]. apply Hf in Hr as [H1 H2]. change (id_of r) with (b_id r).
    by rewrite (proj2 (mem_spec _ _) H1).
  - destruct (mem i wanted) eqn:Em; [|done]. destruct (cur d typ i) as [r|] eqn:Ec; [|done].
    apply find_id_None in E. exfalso. apply E. rewrite <- (current_id _ _ _ _ _ Ec). apply elem_of_map_2, Hf.
    rewrite (current_id _ _ _ _ _ Ec). split; [by apply mem_spec|done].
Qed.

Lemma ids_fetch d typ wanted i : dataset_ok d ->
  i ∈ ids (_fetch_current d typ wanted) <-> i ∈ wanted /\ is_Some (cur d typ i).
Proof.
  intros Hd. rewrite <- find_id_is_Some, find_fetch by done. rewrite <- mem_spec.
  destruct (mem i wanted); [tauto|]. split; [by intros [? ?]|by intros [? _]].
Qed.

(** * _drop_stale_versions *)
Lemma elem_of_remove_dups_ids i (l : list Z) : i ∈ remove_dups l <-> i ∈ l.
Proof. apply elem_of_remove_dups. Qed.

Lemma drop_stale_filter {P} d typ (raw : list (row P)) : dataset_ok d ->
  _drop_stale_versions d typ raw = base.filter (fun b => newer b (cur d typ (Osc.id b)) = true) raw.
Proof.
  intros Hd. unfold _drop_stale_versions, same_id. cbv zeta.
  set (prior := _fetch_current d typ _). assert (Hu : unique prior) by by apply fetch_spec.
  rewrite (left_join_unique (fun b p => if newer b p then Some b else None) raw prior Hu).
  assert (Hf : forall b, b ∈ raw -> find_id (id_of b) prior = cur d typ (Osc.id b)).
  { intros b Hb. unfold prior. rewrite find_fetch by done. rewrite (proj2 (mem_spec _ _)); [done|].
    apply elem_of_remove_dups. by apply elem_of_map_2. }
  clearbody prior. revert Hf. generalize raw. clear. intros l Hf. induction l as [|b l IH]; [done|].
  cbn [map omap list_omap]. rewrite filter_cons, Hf by by left.
  rewrite IH by (intros; apply Hf; by right). destruct (newer b (cur d typ (Osc.id b))); [by rewrite decide_True|].
  by rewrite decide_False.
Qed.

(** * The touched set *)

(** The reverse index lists every reference of every base way. *)
Record index_ok (d : dataset) : Prop := {
  ok_node_way : forall w ref, w ∈ base_rows d TWay -> ref ∈ unnest (refs (b_data w)) -> (ref, b_id w) ∈ read_parts (node_way d);
  ok_node_way_ranges : in_range fst (node_way d)
}.

Section Touched.
Context `{NumpyLaws}.

Lemma elem_of_np_unique i l : i ∈ np_unique l <-> i ∈ l.
Proof. unfold np_unique. by rewrite <- unique_mem. Qed.
Lemma elem_of_np_setdiff1d i a b : i ∈ np_setdiff1d a b <-> i ∈ a /\ i ∉ b.
Proof. unfold np_setdiff1d. rewrite list_elem_of_filter, elem_of_np_unique, mem_false. tauto. Qed.

Lemma elem_of_pick (node_ids : list Z) (rows : list (Z * Z)) i :
  i ∈ remove_dups (map snd (base.filter (fun r => mem r.1 node_ids = true) rows)) <->
  exists ref, (ref, i) ∈ rows /\ ref ∈ node_ids.
Proof.
  rewrite elem_of_remove_dups, (elem_of_map snd). setoid_rewrite list_elem_of_filter. setoid_rewrite mem_spec. split.
  - intros ([ref j] & -> & H1 & H2). eauto.
  - intros (ref & H1 & H2). by exists (ref, i).
Qed.

Lemma current_base d i w : cur d TWay i = Some w ->
  (newest_row (d_deltas d) TWay i = None /\ w ∈ base_rows d TWay) \/
  over (newest_row (d_deltas d) TWay i) None = Some w.
Proof.
  unfold cur, current. destruct (newest_row _ _ _) as [n|]; [by right|]. cbn. intros Hw. left.
  by apply find_id_Some in Hw as [Hw _].
Qed.

(** Every way with a reference among the nodes is found, whichever layer holds
    its current row. *)
Lemma parent_ways_complete d node_ids i w ref : dataset_ok d -> index_ok d ->
  cur d TWay i = Some w -> ref ∈ unnest (refs (b_data w)) -> ref ∈ node_ids -> i ∈ parent_ways d node_ids.
Proof.
  intros Hd [Hi Hr] Hw Href Hin. pose proof (current_id _ _ _ _ _ Hw) as Hid. unfold parent_ways.
  destruct node_ids as [|n rest]; [by apply elem_of_nil in Hin|]. rewrite elem_of_app, !elem_of_pick.
  apply current_base in Hw as [[_ Hw]|Hw].
  - left. exists ref. split; [|done]. apply (select_parts_complete fst); [done|done|]. rewrite <- Hid. by apply Hi.
  - right. exists ref. split; [|done]. unfold delta_node_way. rewrite elem_of_remove_dups, list_elem_of_In, in_flat_map.
    exists w. split.
    + apply list_elem_of_In, elem_of_alive_view; [by apply Hd|]. by rewrite Hid.
    + apply list_elem_of_In. apply (elem_of_map (fun ref => (ref, b_id w))). exists ref. by rewrite Hid.
Qed.

Lemma elem_of_touched_ways d k i : dataset_ok d ->
  i ∈ touched_ways d k <-> i ∈ ids (batch_way k) \/ (i ∈ parent_ways d (ids (batch_node k)) /\ is_Some (cur d TWay i)).
Proof.
  intros Hd. unfold touched_ways. cbv zeta. rewrite elem_of_np_unique, elem_of_app, ids_fetch, elem_of_np_setdiff1d by done.
  rewrite elem_of_np_unique, elem_of_app. destruct (decide (i ∈ ids (batch_way k))); tauto.
Qed.

Lemma elem_of_touched_relations d k ws i : dataset_ok d -> i ∈ touched_relations d k ws ->
  i ∈ ids (batch_relation k) \/ is_Some (cur d TRelation i).
Proof.
  intros Hd. unfold touched_relations. cbv zeta. rewrite elem_of_np_unique, elem_of_app, ids_fetch by done. tauto.
Qed.
Lemma kept_relations_touched d k ws i : dataset_ok d -> i ∈ ids (batch_relation k) -> i ∈ touched_relations d k ws.
Proof. intros Hd Hi. unfold touched_relations. cbv zeta. rewrite elem_of_np_unique, elem_of_app. by left. Qed.
End Touched.

(** * The extent filter *)
Lemma keep_unique {A} `{Keyed A} (p : A -> bool) l : unique l -> unique (keep p l).
Proof. apply unique_filter. Qed.
Lemma keep_sub {A} (p : A -> bool) l x : x ∈ keep p l -> x ∈ l.
Proof. unfold keep. rewrite list_elem_of_filter. tauto. Qed.

(** A kept change of an unknown element is not a deletion. *)
Lemma exists_node_spec d x b i : dataset_ok d -> i ∈ ids (batch_node b) ->
  find_id i (exists_node (_extent_filter d x b)) = cur d TNode i.
Proof.
  intros Hd Hi. unfold _extent_filter. cbv zeta. cbn [exists_node]. rewrite find_fetch by done.
  rewrite (proj2 (mem_spec _ _)); [done|]. apply elem_of_remove_dups, elem_of_app. by left.
Qed.

(** Coordinates below 2^40 in magnitude; a 32-bit column is far below. *)
Definition e7_ok (v : Z) : Prop := Z.abs v < 2 ^ 40.

Lemma round_bound x k : small x k -> 0 <= k -> exists n, round_of_float x = Ok n /\ Z.abs n <= 2 ^ k.
Proof.
  destruct x as [s|s| |s m e]; cbn [small]; try done; intros H Hk.
  - exists 0. split; [done|]. pose proof (Z.pow_nonneg 2 k). lia.
  - unfold round_of_float. eexists. split; [reflexivity|].
    assert (Hs : forall a : Z, Z.abs (if s then - a else a) = Z.abs a) by (intros; destruct s; lia). rewrite Hs.
    destruct (Z.leb_spec 0 e).
    + rewrite Z.shiftl_mul_pow2 by done. apply (Z.le_trans _ (2 ^ (k - e) * 2 ^ e)).
      * rewrite Z.abs_mul, (Z.abs_eq (2 ^ e)) by by apply Z.pow_nonneg. apply Z.mul_le_mono_nonneg_r; [by apply Z.pow_nonneg|].
        assert (Zpos m < 2 ^ (k - e)) by (apply digits_lt; lia). lia.
      * pose proof (Pos2Z.is_pos (digits2_pos m)). rewrite <- Z.pow_add_r by lia. apply Z.pow_le_mono_r; lia.
    + set (q := Z.shiftr (Zpos m) (- e)).
      assert (Hq : 0 <= q < 2 ^ k).
      { unfold q. rewrite Z.shiftr_div_pow2 by lia. split; [apply Z.div_pos; [lia|by apply Z.pow_pos_nonneg; lia]|].
        apply Z.div_lt_upper_bound; [apply Z.pow_pos_nonneg; lia|]. rewrite <- Z.pow_add_r by lia.
        apply digits_lt. lia. }
      cbv zeta. repeat case_match; lia.
Qed.

Lemma e7_degrees_small v : Z.abs v < 2 ^ 50 -> small (Cells.e7_degrees v) 29.
Proof.
  intros Hv. apply (div_small _ _ 51 23); [by apply (float_of_Z_small v 50)| |lia|lia]. vm_compute. done.
Qed.

Lemma grid_small half full v : half = 90 \/ half = 180 -> full = 180 \/ full = 360 ->
  small v 29 -> exists x y, floor_of_float (Cells.grid_float half full v) = Ok x /\
    int_of_float (Cells.grid_float half full v) = Ok y.
Proof.
  intros Hh Hf Hv. assert (S : small (Cells.grid_float half full v) 48).
  { assert (Ha : small (fadd v (float_of_Z half)) 31).
    { apply (add_small _ _ 29); [done| |lia]. apply (small_le _ 9); [|lia]. by destruct Hh as [-> | ->]; vm_compute. }
    assert (Hd : small (fdiv (fadd v (float_of_Z half)) (float_of_Z full)) 25).
    { apply (div_small _ _ 31 7); [done| |lia|lia]. by destruct Hf as [-> | ->]; vm_compute. }
    apply (mul_small _ _ 25 22); [done| |lia|lia]. by vm_compute. }
  destruct (floor_ok _ _ S) as [x Hx]. destruct (int_of_float (Cells.grid_float half full v)) as [y|e] eqn:E; [eauto|].
  apply floor_int_exn in E. congruence.
Qed.

Lemma np_clip_range x : 0 <= np_clip x 0 (Cells.side - 1) < Cells.side.
Proof. unfold np_clip. assert (0 < Cells.side) by done. lia. Qed.

(** The code of a point. *)
Lemma point_code lat lon : e7_ok lat -> e7_ok lon ->
  exists q, point_to_qk_np lat lon = Ok q /\ 0 <= q < 4 ^ 20.
Proof.
  unfold e7_ok. intros Ha Ho.
  destruct (grid_small 180 360 (Cells.e7_degrees lon)) as (x & _ & Hx & _); [auto|auto|apply e7_degrees_small; lia|].
  destruct (grid_small 90 180 (Cells.e7_degrees lat)) as (y & _ & Hy & _); [auto|auto|apply e7_degrees_small; lia|].
  unfold point_to_qk_np. rewrite Hx, Hy. cbn [res_bind]. eexists. split; [reflexivity|].
  destruct (qk_code_path (np_clip x 0 (Cells.side - 1)) (np_clip y 0 (Cells.side - 1))) as [_ Hb]. exact Hb.
Qed.

(** The Hilbert key of a point. *)
Lemma hilbert_total lat lon : Z.abs lat < 2 ^ 50 -> Z.abs lon < 2 ^ 50 ->
  exists h, hilbert_keys lat lon = Ok h /\ 0 <= h < 4 ^ 20.
Proof.
  intros Ha Ho.
  destruct (grid_small 180 360 (Cells.e7_degrees lon)) as (x & _ & Hx & _); [auto|auto|apply e7_degrees_small; lia|].
  destruct (grid_small 90 180 (Cells.e7_degrees lat)) as (y & _ & Hy & _); [auto|auto|apply e7_degrees_small; lia|].
  unfold hilbert_keys. change (LayoutHilbert.grid_float) with (Cells.grid_float).
  change (LayoutHilbert.e7_degrees) with (Cells.e7_degrees). rewrite Hx, Hy. cbn [res_bind].
  change LayoutHilbert.side with (2 ^ Z.of_nat 20). rewrite keys_loop_eq by done.
  set (px := np_clip x 0 _). set (py := np_clip y 0 _).
  assert (Hg : in_grid 20 (px, py)).
  { pose proof (np_clip_range x). pose proof (np_clip_range y). split; done. }
  pose proof (layout_index 20 px py Hg) as E. unfold hilbert_xy2d in E. cbv zeta in E. rewrite shift_one in E.
  exists (curve_index 20 px py). split; [exact E|]. apply (point_of_index 20); apply Hg.
Qed.

(** * Cells *)
Section Leaves.
Context `{UnicodeDB} `{NumpyLaws}.
Context (lvs : list pystr) (ad : list nat) (md : nat).
Hypothesis Hleaves : leaf_set lvs.
Hypothesis Hne : lvs <> [].
Hypothesis Hroot : 0%nat ∈ ad.
Hypothesis Hmd : (md <= MAX_DEPTH)%nat.

Lemma nonempty_valid k : valid_key k -> nonempty k = Some k.
Proof. intros (_ & _ & Hk). by destruct k. Qed.

Lemma point_cell_total lat lon : e7_ok lat -> e7_ok lon ->
  exists k, point_cells_np lat lon lvs = Ok k /\ k ∈ lvs /\ valid_key k.
Proof.
  intros Ha Ho. destruct (point_code lat lon Ha Ho) as (q & Eq & _). unfold point_cells_np.
  rewrite (init_built lvs Hleaves). cbn [res_bind]. rewrite Eq. cbn [res_bind].
  destruct (leaf_lookup lvs Hleaves Hne q) as (k & -> & Hk & _). exists k. split_and!; [done|done|].
  destruct Hleaves as [Hv _]. rewrite Forall_forall in Hv. by apply Hv.
Qed.

(** The cell of a box covers its corners. *)
Lemma box_cell_total s w n e : e7_ok s -> e7_ok w -> e7_ok n -> e7_ok e ->
  exists k sw ne, containing_cells_v2 s w n e lvs ad md = Ok k /\ valid_key k /\
    point_to_qk_np s w = Ok sw /\ point_to_qk_np n e = Ok ne /\ in_cell sw k /\ in_cell ne k.
Proof.
  intros Hs Hw Hn He. destruct (point_code s w Hs Hw) as (sw & Esw & Bsw). destruct (point_code n e Hn He) as (ne & Ene & Bne).
  destruct (placement_eq lvs sw ne ad md Hleaves Hne Hroot Hmd) as (leaf & r & _ & _ & _ & _ & _ & Hrt & _ & E).
  set (t := Nat.min _ _) in *. set (fin := if (t =? depth_of leaf)%nat && (sw <=? cell_hi leaf) then t else r) in E.
  destruct (lcp_depth_spec sw ne md Hmd) as (Hl & Hp & _).
  assert (Hfin : (fin <= lcp_depth sw ne md)%nat) by (unfold fin; case_match; lia).
  exists (cell_at sw fin), sw, ne. unfold containing_cells_v2. destruct (Nat.ltb_spec MAX_DEPTH md); [lia|].
  rewrite (init_built lvs Hleaves). cbn [res_bind]. rewrite Esw, Ene. cbn [res_bind].
  split_and!; [done|apply cell_at_valid; lia|done|done| |].
  - by rewrite cell_at_in by lia.
  - rewrite cell_at_in by lia. apply (f_equal (firstn fin)) in Hp. rewrite !take_take in Hp.
    by replace (fin `min` lcp_depth sw ne md)%nat with fin in Hp by lia.
Qed.

Lemma midpoint_total a b : e7_ok a -> e7_ok b ->
  exists m, round_of_float (fdiv (fadd (float_of_Z a) (float_of_Z b)) (float_of_Z 2)) = Ok m /\ Z.abs m < 2 ^ 50.
Proof.
  unfold e7_ok. intros Ha Hb. destruct (round_bound (fdiv (fadd (float_of_Z a) (float_of_Z b)) (float_of_Z 2)) 43) as (m & E & B).
  - apply (div_small _ _ 43 1); [|by vm_compute|lia|lia].
    apply (add_small _ _ 41); [by apply (float_of_Z_small a 40)|by apply (float_of_Z_small b 40)|lia].
  - lia.
  - exists m. split; [done|]. lia.
Qed.

(** A box placed: every column is defined. *)
Definition box_e7_ok (b : box) : Prop :=
  forall v, v = xmin b \/ v = ymin b \/ v = xmax b \/ v = ymax b -> forall x, v = Some x -> e7_ok x.

Lemma assign_total b : box_e7_ok b ->
  exists k h clat clon, _assign lvs ad md b = Ok (k, h, clat, clon) /\ valid_key k /\
    (boxed b = None -> k = ROOT) /\
    forall s w n e, boxed b = Some (s, w, n, e) -> containing_cells_v2 s w n e lvs ad md = Ok k.
Proof.
  intros Hb. unfold _assign. destruct (boxed b) as [[[[s w] n] e]|] eqn:E.
  - unfold boxed in E. repeat (case_match; try done). simplify_eq.
    assert (Hs : e7_ok s) by (eapply Hb; [|done]; auto). assert (Hw : e7_ok w) by (eapply Hb; [|done]; auto).
    assert (Hn : e7_ok n) by (eapply Hb; [|done]; auto). assert (He : e7_ok e) by (eapply Hb; [|done]; auto).
    destruct (box_cell_total s w n e) as (k & sw & ne & Ecell & Hk & _); try done. rewrite Ecell. cbn [res_bind].
    destruct (midpoint_total s n Hs Hn) as (a & -> & Ba). cbn [res_bind].
    destruct (midpoint_total w e Hw He) as (o & -> & Bo). cbn [res_bind].
    destruct (hilbert_total a o Ba Bo) as (h & -> & _). cbn [res_bind].
    exists k, h, (Some a), (Some o). split_and!; [done|done|done|]. by intros ???? [= <- <- <- <-].
  - exists ROOT, 0, None, None. split_and!; [done| |done|done].
    split_and!; [constructor|vm_compute; lia|done].
Qed.
End Leaves.

Definition ok_of {A} (m : res A) : option A := match m with Ok a => Some a | Raise _ => None end.

(** * Row-wise computations *)
Section Rows.
Context {A B : Type} `{Keyed A} `{Keyed B}.

Lemma find_mapM (f : A -> res B) l out i :
  (forall a b, f a = Ok b -> id_of b = id_of a) -> res_mapM f l = Ok out ->
  find_id i out = (find_id i l ≫= fun a => ok_of (f a)).
Proof.
  intros Hf. revert out. induction l as [|a l IH]; intros out; cbn [res_mapM]; [by intros [= <-]|].
  intros (b & Eb & E)%res_bind_Ok. destruct (res_mapM f l) as [bs|] eqn:El; [|done]. injection E as <-.
  cbn [find_id]. rewrite (Hf _ _ Eb). destruct (id_of a =? i); [cbn; by rewrite Eb|]. by apply IH.
Qed.

Lemma ids_mapM (f : A -> res B) l out :
  (forall a b, f a = Ok b -> id_of b = id_of a) -> res_mapM f l = Ok out -> ids out = ids l.
Proof.
  intros Hf. revert out. induction l as [|a l IH]; intros out; cbn [res_mapM]; [by intros [= <-]|].
  intros (b & Eb & E)%res_bind_Ok. destruct (res_mapM f l) as [bs|] eqn:El; [|done]. injection E as <-.
  cbn [ids map]. f_equal; [by apply Hf|]. by apply IH.
Qed.

Lemma mapM_total (f : A -> res B) l : (forall a, a ∈ l -> exists b, f a = Ok b) -> exists out, res_mapM f l = Ok out.
Proof.
  induction l as [|a l IH]; intros Hf; [by exists []|]. destruct (Hf a ltac:(left)) as [b Eb].
  destruct IH as [out Eo]; [intros; apply Hf; by right|]. cbn [res_mapM]. rewrite Eb. cbn [res_bind]. rewrite Eo. by eexists.
Qed.

Lemma find_id_map_key (f : A -> B) i l : (forall a, id_of (f a) = id_of a) -> find_id i (map f l) = f <$> find_id i l.
Proof. intros Hf. induction l as [|a l IH]; [done|]. cbn [find_id map]. rewrite Hf. by destruct (_ =? _). Qed.
Lemma ids_map_key (f : A -> B) l : (forall a, id_of (f a) = id_of a) -> ids (map f l) = ids l.
Proof. intros Hf. unfold ids. rewrite map_map. by apply map_ext. Qed.
End Rows.

(** Rows split by a flag, one part after the other. *)
Lemma ids_filter_sub {A} `{Keyed A} (P : A -> Prop) `{!forall a, Decision (P a)} l i : i ∈ ids (base.filter P l) -> i ∈ ids l.
Proof. intros (a & -> & [_ Ha]%list_elem_of_filter)%elem_of_map. by apply elem_of_map_2. Qed.

Lemma unique_split {A} `{Keyed A} (p : A -> bool) l : unique l ->
  NoDup (ids (base.filter (fun a => p a = false) l) ++ ids (base.filter (fun a => p a = true) l)).
Proof.
  intros Hu. apply NoDup_app. split_and!; [by apply unique_filter| |by apply unique_filter].
  intros i (a & -> & [Ha Hin]%list_elem_of_filter)%elem_of_map (b & E & [Hb Hin']%list_elem_of_filter)%elem_of_map.
  pose proof (find_id_unique _ _ Hu Hin) as F1. pose proof (find_id_unique _ _ Hu Hin') as F2. rewrite <- E in F2. congruence.
Qed.

Section Resolved.
Context `{UnicodeDB} `{Numpy} (promoted_keys : list pystr).
Implicit Types (l : list (delta_row columns)).

Lemma find_alive l i : unique l -> find_id i (alive l) = (find_id i l ≫= fun r => if deleted r then None else Some r).
Proof.
  intros Hu. unfold alive. rewrite find_id_filter by done. destruct (find_id i l) as [r|]; [|done]. cbn.
  destruct (deleted r); [by rewrite decide_False|by rewrite decide_True].
Qed.
Lemma find_dead l i : unique l -> find_id i (dead l) = (find_id i l ≫= fun r => if deleted r then Some r else None).
Proof.
  intros Hu. unfold dead. rewrite find_id_filter by done. destruct (find_id i l) as [r|]; [|done]. cbn.
  destruct (deleted r); [by rewrite decide_True|by rewrite decide_False].
Qed.

Lemma find_resolved (f : delta_row columns -> res (delta_row columns)) l out i : unique l ->
  (forall r r', f r = Ok r' -> id_of r' = id_of r) -> res_mapM f (alive l) = Ok out ->
  find_id i (out ++ map (deleted_row promoted_keys) (dead l)) =
    (find_id i l ≫= fun r => if deleted r then Some (deleted_row promoted_keys r) else ok_of (f r)).
Proof.
  intros Hu Hf E. rewrite find_id_app, (find_mapM f (alive l) out i Hf E), find_alive by done.
  rewrite find_id_map_key by done. rewrite find_dead by done.
  destruct (find_id i l) as [r|]; [|done]. cbn. destruct (deleted r); [done|]. cbn. by destruct (ok_of (f r)).
Qed.

Lemma unique_resolved (f : delta_row columns -> res (delta_row columns)) l out : unique l ->
  (forall r r', f r = Ok r' -> id_of r' = id_of r) -> res_mapM f (alive l) = Ok out ->
  unique (out ++ map (deleted_row promoted_keys) (dead l)).
Proof.
  intros Hu Hf E. unfold unique, ids at 1. rewrite map_app. fold (ids out).
  change (map id_of (map (deleted_row promoted_keys) (dead l))) with (ids (map (deleted_row promoted_keys) (dead l))).
  rewrite (ids_mapM f (alive l) out Hf E), ids_map_key by done. by apply unique_split.
Qed.

(** ** The touched rows *)
Section Base.
Context {P : Type} (cols : row P -> columns) (kept : list (row P)) (prior : list base_columns) (touched : list Z) (last_seq : Z).
Hypothesis Hkept : unique kept.
Hypothesis Hprior : unique prior.
Hypothesis Htouched : forall i, i ∈ ids prior -> i ∈ touched.

Definition touched_row (i : Z) : option (delta_row columns) :=
  match find_id i kept with
  | Some k => Some (pending i (cols k) (Osc.deleted _ k) (find_id i prior ≫= b_cell) (Osc.seq k))
  | None => (fun p => pending i (carried (b_data p)) false (b_cell p) last_seq) <$> find_id i prior
  end.

Lemma where_in_all : where_in touched prior = prior.
Proof.
  clear Hprior. unfold where_in. induction prior as [|p l IH]; [done|]. rewrite filter_cons.
  rewrite decide_True; [|apply mem_spec, Htouched; left]. by rewrite IH by (intros; apply Htouched; by right).
Qed.

Lemma find_touched_base i : find_id i (touched_base cols kept prior touched last_seq) = touched_row i.
Proof.
  unfold touched_base, same_id. rewrite left_join_unique by done. rewrite where_in_all, find_id_app.
  rewrite !find_id_map_key by done. rewrite find_id_where_not_in. unfold touched_row.
  destruct (find_id i kept) as [k|] eqn:Ek; cbn.
  - apply find_id_Some in Ek as [_ Hi]. change (id_of k) with (Osc.id k) in *. by rewrite Hi.
  - rewrite (proj2 (mem_false _ _)) by by apply find_id_None. destruct (find_id i prior) as [p|] eqn:Ep; [|done].
    cbn. apply find_id_Some in Ep as [_ Hi]. change (b_id p = i) in Hi. by rewrite Hi.
Qed.

Lemma unique_touched_base : unique (touched_base cols kept prior touched last_seq).
Proof.
  unfold touched_base, same_id. rewrite left_join_unique by done. rewrite where_in_all. unfold unique, ids at 1.
  rewrite map_app, !map_map. apply NoDup_app. split_and!.
  - exact Hkept.
  - intros i Hi (p & -> & [_ Hp]%elem_of_where_not_in)%elem_of_map. by apply Hp.
  - by apply (unique_filter (fun p : base_columns => mem (id_of p) (ids kept) = false)).
Qed.

Lemma touched_base_touched i : (forall j, j ∈ ids kept -> j ∈ touched) ->
  i ∈ ids (touched_base cols kept prior touched last_seq) -> i ∈ touched.
Proof.
  intros Hk. rewrite <- find_id_is_Some, find_touched_base. unfold touched_row.
  destruct (find_id i kept) eqn:E; [intros _; apply Hk, find_id_is_Some; eauto|].
  rewrite fmap_is_Some, find_id_is_Some. apply Htouched.
Qed.
End Base.

(** ** Coordinates *)
Lemma find_coords d kn wr mn i : dataset_ok d -> unique kn ->
  find_id i (node_coords_all d kn wr mn) =
    match find_id i kn with
    | Some n => if Osc.deleted _ n then None else Some (i, payload n)
    | None => if mem i (wr ++ mn) then (fun p => (i, (lat_e7 (b_data p), lon_e7 (b_data p)))) <$> cur d TNode i else None
    end.
Proof.
  intros Hd Hu. unfold node_coords_all. cbv zeta. rewrite find_id_app, !find_id_map_key by done.
  rewrite find_id_filter, find_id_where_not_in, find_fetch by done.
  change (find_id i kn) with (@find_id _NodeRow row_keyed i kn).
  destruct (@find_id _NodeRow row_keyed i kn) as [n|] eqn:En; cbn.
  - pose proof (find_id_Some _ _ _ En) as [Hn Hi]. change (Osc.id n = i) in Hi.
    rewrite (proj2 (mem_spec i (ids kn))) by (rewrite <- Hi; by apply elem_of_map_2).
    destruct (Osc.deleted _ n); [by rewrite decide_False|rewrite decide_True by done; by rewrite <- Hi].
  - apply find_id_None in En. rewrite (proj2 (mem_false i (ids kn))) by done.
    assert (Em : mem i (remove_dups (ids kn ++ wr ++ mn)) = mem i (wr ++ mn)).
    { apply eq_true_iff_eq. rewrite !mem_spec, elem_of_remove_dups, elem_of_app. tauto. }
    rewrite Em. destruct (mem i (wr ++ mn)); [|done]. destruct (cur d TNode i) as [p|] eqn:Ec; [|done]. cbn.
    by rewrite (current_id _ _ _ _ _ Ec).
Qed.

Lemma unique_coords d kn wr mn : dataset_ok d -> unique kn -> unique (node_coords_all d kn wr mn).
Proof.
  intros Hd Hu. unfold node_coords_all. cbv zeta. unfold unique, ids. rewrite map_app, !map_map. apply NoDup_app. split_and!.
  - by apply (unique_filter (fun k : _NodeRow => Osc.deleted _ k = false)).
  - intros i (n & -> & [_ Hn]%list_elem_of_filter)%elem_of_map (p & E & [_ Hp]%elem_of_where_not_in)%elem_of_map.
    apply Hp. change (id_of p) with (b_id p). cbn in E. rewrite <- E. by apply (elem_of_map_2 Osc.id).
  - apply (unique_filter (fun p : base_columns => mem (id_of p) (map id_of kn) = false)). by apply fetch_spec.
Qed.

Definition Z_keyed : Keyed Z := fun i => i.
Lemma way_pts_map cs rs : unique cs ->
  way_pts cs rs = map (fun ref => match find_id ref cs with Some n => snd n | None => (None, None) end) rs.
Proof. intros Hu. unfold way_pts. exact (@left_join_unique _ pair_keyed Z Z_keyed _ _ rs cs Hu). Qed.
End Resolved.
