(* ===== verification/UpdateRunFacts.v ===== *)
(** Theorems on an update run as a whole: on a well-formed dataset a run
    succeeds; afterwards the nodes are the old ones with the batch applied, and
    every way still has the geometry, the box, the cell and the flags computed
    from the positions of its nodes, whether the way itself, its nodes or
    nothing of it changed.

    An update run keeps the state well formed and applies exactly the kept
    changes; composed from the resolution of the batch and the refinement of
    the tiers. *)
From S2P Require Import Prelude PyStr Json Osc Numpy Cells CellsFacts LayoutHilbert Sql PyTime Tiers DeltaRead TiersFacts DeltaReadFacts.
From S2P Require Import Fetch UpdateRun ResolveFacts PyFloat.

(** * Coordinates in range *)
Definition opt_e7 (o : option Z) : Prop := forall x, o = Some x -> e7_ok x.
Record columns_e7 (c : columns) : Prop := {
  lat_ok : opt_e7 (lat_e7 c); lon_ok : opt_e7 (lon_e7 c);
  xmin_ok : opt_e7 (xmin_e7 c); ymin_ok : opt_e7 (ymin_e7 c); xmax_ok : opt_e7 (xmax_e7 c); ymax_ok : opt_e7 (ymax_e7 c)
}.
Definition coords_ok (d : dataset) : Prop := forall typ i r, cur d typ i = Some r -> columns_e7 (b_data r).
Definition pos_e7 (p : option Z * option Z) : Prop := opt_e7 p.1 /\ opt_e7 p.2.

Definition picks (f : Z -> Z -> Z) : Prop := forall a b, f a b = a \/ f a b = b.
Lemma picks_min : picks Z.min. Proof. intros a b. lia. Qed.
Lemma picks_max : picks Z.max. Proof. intros a b. lia. Qed.

Lemma agg_e7 f l : picks f -> (forall o, o ∈ l -> opt_e7 o) -> opt_e7 (agg f l).
Proof.
  intros Hf Hl x. unfold agg. destruct (omap (fun x => x) l) as [|v vs] eqn:E; [done|]. intros [= <-].
  assert (Ho : forall y, y ∈ v :: vs -> e7_ok y).
  { intros y Hy. rewrite <- E in Hy. apply list_elem_of_omap in Hy as (o & Ho & ->). by apply (Hl _ Ho). }
  clear E Hl. assert (Hv : e7_ok v) by (apply Ho; left). assert (Hvs : forall y, y ∈ vs -> e7_ok y) by (intros; apply Ho; by right).
  clear Ho. revert v Hv. induction vs as [|w vs IH]; intros v Hv; [done|]. cbn [fold_left]. apply IH.
  - intros; apply Hvs; by right.
  - destruct (Hf v w) as [-> | ->]; [done|]. apply Hvs. left.
Qed.
#[local] Hint Resolve picks_min picks_max : osm.

Lemma opt2_e7 f a b : picks f -> opt_e7 a -> opt_e7 b -> opt_e7 (opt2 f a b).
Proof. intros Hf Ha Hb. apply agg_e7; [done|]. by intros o [->|[->|?%elem_of_nil]%elem_of_cons]%elem_of_cons. Qed.

Lemma box_e7 b : opt_e7 (xmin b) -> opt_e7 (ymin b) -> opt_e7 (xmax b) -> opt_e7 (ymax b) -> box_e7_ok b.
Proof. intros ???? v [->|[->|[->| ->]]]; done. Qed.

Lemma way_box_e7 pts : (forall p, p ∈ pts -> pos_e7 p) -> box_e7_ok (way_box pts).
Proof.
  intros Hp. assert (H1 : forall o, o ∈ map fst pts -> opt_e7 o) by (intros o (p & -> & Hin)%elem_of_map; by apply Hp).
  assert (H2 : forall o, o ∈ map snd pts -> opt_e7 o) by (intros o (p & -> & Hin)%elem_of_map; by apply Hp).
  unfold way_box. destruct (omap fst pts); [by apply box_e7|]. apply box_e7; apply agg_e7; auto with osm.
Qed.

Lemma join_boxes_e7 bs : (forall b, b ∈ bs -> box_e7_ok b) -> box_e7_ok (join_boxes bs).
Proof.
  intros Hb. assert (Hsel : forall sel, (forall b, sel b = xmin b \/ sel b = ymin b \/ sel b = xmax b \/ sel b = ymax b) ->
    forall o, o ∈ map sel bs -> opt_e7 o).
  { intros sel Hs o (b & -> & Hin)%elem_of_map x Hx. by eapply (Hb b Hin (sel b)). }
  apply box_e7; apply agg_e7; auto with osm; apply Hsel; auto.
Qed.

Lemma elem_of_lookup_ids {A} refs (l : list (Z * A)) (b : A) : b ∈ lookup_ids refs l -> exists i, (i, b) ∈ l.
Proof.
  unfold lookup_ids, inner_join. rewrite list_elem_of_In, in_flat_map. intros (r & _ & Hin).
  apply list_elem_of_In, elem_of_map in Hin as ([i b'] & -> & [_ Hin]%list_elem_of_filter). by exists i.
Qed.

(** The columns an edit sets, besides references, members and position. *)
Definition meta (c : columns) : option (list (pystr * pystr)) * list (option pystr) *
    (option Z * option Z * option Osc.datetime * option Z * option pystr) :=
  (c_tags c, promoted c, (c_version c, c_changeset c, c_timestamp c, c_uid c, c_user c)).

(** * The derived columns of a way *)
Section Run.
Context `{UnicodeDB} `{NumpyLaws}.
Context (promoted_keys lvs : list pystr) (ad : list nat) (md : nat).
Hypothesis Hleaves : leaf_set lvs.
Hypothesis Hne : lvs <> [].
Hypothesis Hroot : 0%nat ∈ ad.
Hypothesis Hmd : (md <= MAX_DEPTH)%nat.

Definition position (d : dataset) (ref : Z) : option Z * option Z :=
  match cur d TNode ref with Some n => (lat_e7 (b_data n), lon_e7 (b_data n)) | None => (None, None) end.

Record way_derived (pos : Z -> option Z * option Z) (w : base_columns) : Prop := {
  derived_box : box_of (b_data w) = way_box (map pos (unnest (refs (b_data w))));
  derived_closed : is_closed (b_data w) = Some (closed (unnest (refs (b_data w))));
  derived_area : is_area (b_data w) = Some (area (closed (unnest (refs (b_data w)))) (c_tags (b_data w)));
  derived_cell : exists k, b_cell w = Some k /\ valid_key k /\
    match boxed (way_box (map pos (unnest (refs (b_data w))))) with
    | None => k = ROOT
    | Some (s, w, n, e) => containing_cells_v2 s w n e lvs ad md = Ok k
    end
}.
Definition ways_ok (d : dataset) : Prop := forall i w, cur d TWay i = Some w -> way_derived (position d) w.

Lemma position_e7 d ref : coords_ok d -> pos_e7 (position d ref).
Proof.
  intros Hc. unfold position. destruct (cur d TNode ref) as [n|] eqn:E; [|by split].
  destruct (Hc _ _ _ E). by split.
Qed.

Lemma valid_nonempty k : valid_key k -> nonempty k = Some k.
Proof. intros (_ & _ & Hk). by destruct k. Qed.

(** ** One resolved way *)
Lemma placed_fields r c k h clat clon : valid_key k ->
  r_id (placed r c (k, h, clat, clon)) = r_id r /\ r_cell (placed r c (k, h, clat, clon)) = Some k /\
  deleted (placed r c (k, h, clat, clon)) = false /\ prev_cell (placed r c (k, h, clat, clon)) = prev_cell r.
Proof. intros Hk. cbn. by rewrite valid_nonempty. Qed.

Lemma resolve_way_id cs r r' : resolve_way lvs ad md cs r = Ok r' -> id_of r' = id_of r.
Proof. unfold resolve_way. destruct (_assign _ _ _ _) as [[[[? ?] ?] ?]|]; [by intros [= <-]|done]. Qed.
Lemma resolve_relation_id cs ws lk r r' : resolve_relation lvs ad md cs ws lk r = Ok r' -> id_of r' = id_of r.
Proof. unfold resolve_relation. destruct (_assign _ _ _ _) as [[[[? ?] ?] ?]|]; [by intros [= <-]|done]. Qed.

(** A way resolved: the row, its columns, and its byid image. *)
Lemma resolve_way_spec cs r (pos : Z -> option Z * option Z) :
  way_pts cs (unnest (refs (data r))) = map pos (unnest (refs (data r))) ->
  (forall ref, ref ∈ unnest (refs (data r)) -> pos_e7 (pos ref)) ->
  exists r', resolve_way lvs ad md cs r = Ok r' /\ deleted r' = false /\ prev_cell r' = prev_cell r /\ is_Some (r_cell r') /\
    columns_e7 (data r') /\ refs (data r') = refs (data r) /\ meta (data r') = meta (data r) /\
    way_derived pos (project (byid_row TWay r')).
Proof.
  intros Hpts Hpos. unfold resolve_way. set (c := way_columns cs (data r)).
  assert (Hb : box_of c = way_box (map pos (unnest (refs (data r))))).
  { unfold box_of, c, way_columns. cbv zeta. cbn [xmin_e7 ymin_e7 xmax_e7 ymax_e7]. rewrite Hpts. by destruct (way_box _). }
  assert (He : box_e7_ok (box_of c)).
  { rewrite Hb. apply way_box_e7. intros p (ref & -> & Hin)%elem_of_map. by apply Hpos. }
  destruct (assign_total lvs ad md Hleaves Hne Hroot Hmd (box_of c) He) as (k & h & clat & clon & Ea & Hk & Hnb & Hbx).
  rewrite Ea. eexists. split; [reflexivity|].
  assert (Hm : match boxed (way_box (map pos (unnest (refs (data r))))) with
               | None => k = ROOT
               | Some (s, w, n, e) => containing_cells_v2 s w n e lvs ad md = Ok k
               end).
  { rewrite <- Hb. destruct (boxed (box_of c)) as [[[[s w] n] e]|]; [by apply Hbx|by apply Hnb]. }
  destruct (placed_fields r c k h clat clon Hk) as (_ & Ec & Ed & Ep). rewrite Ed, Ep, Ec. split_and!; [done|done|eauto| |done|done|].
  - split; try (intros x; apply He; cbn; tauto); by intros x.
  - split; cbn [project byid_row b_data byid_columns data placed box_of refs is_closed is_area c_tags xmin_e7 ymin_e7 xmax_e7 ymax_e7].
    + exact Hb.
    + done.
    + done.
    + exists k. split; [exact (valid_nonempty k Hk)|]. split; [done|exact Hm].
Qed.

Lemma resolve_relation_spec cs ws lk r : (forall i p, (i, p) ∈ cs -> pos_e7 p) ->
  (forall i b, (i, b) ∈ ws -> box_e7_ok b) -> (forall i b, (i, b) ∈ lk -> box_e7_ok b) ->
  exists r', resolve_relation lvs ad md cs ws lk r = Ok r' /\ deleted r' = false /\ prev_cell r' = prev_cell r /\
    is_Some (r_cell r') /\ columns_e7 (data r') /\ members (data r') = members (data r) /\ meta (data r') = meta (data r).
Proof.
  intros Hcs Hws Hlk. unfold resolve_relation. set (b := relation_bbox1 _ _ _). set (c := relation_columns b (data r)).
  assert (Hbox : forall b, box_of (relation_columns b (data r)) = b) by by intros [].
  assert (H0b : box_e7_ok (relation_bbox0 cs ws r)).
  { apply join_boxes_e7. intros x [Hx|Hx]%elem_of_app.
    - apply elem_of_map in Hx as (p & -> & Hx). apply elem_of_lookup_ids in Hx as [i Hx]. destruct (Hcs i p Hx). by apply box_e7.
    - apply elem_of_lookup_ids in Hx as [i Hx]. by apply (Hws i). }
  assert (Hr : box_e7_ok (join_boxes (lookup_ids (members_of (u "r") r) lk))).
  { apply join_boxes_e7. intros x [i Hx]%elem_of_lookup_ids. by apply (Hlk i). }
  assert (Hb : box_e7_ok b).
  { apply box_e7; apply opt2_e7; auto with osm; intros x; first [by apply H0b; tauto|by apply Hr; tauto]. }
  destruct (assign_total lvs ad md Hleaves Hne Hroot Hmd b Hb) as (k & h & clat & clon & Ea & Hk & _).
  unfold c. rewrite Hbox, Ea. eexists. split; [reflexivity|].
  destruct (placed_fields r (relation_columns b (data r)) k h clat clon Hk) as (_ & Ec & Ed & Ep). rewrite Ed, Ep, Ec.
  split_and!; [done|done|eauto| |done|done]. split; try (intros x; apply Hb; cbn; tauto); by intros x.
Qed.

(** ** One resolved node *)
Definition node_change (n : _NodeRow) : columns := changed promoted_keys n (payload n).1 (payload n).2 None None.

Lemma resolve_node_spec n p : pos_e7 (payload n) ->
  exists a, node_cell_assign lvs n = Ok a /\
    let r := resolve_node promoted_keys n p a in
    r_id r = Osc.id n /\ deleted r = Osc.deleted _ n /\ prev_cell r = p ≫= b_cell /\
    (Osc.deleted _ n = false -> is_Some (r_cell r) /\ columns_e7 (data r) /\
       (lat_e7 (data r), lon_e7 (data r)) = payload n /\ meta (data r) = meta (node_change n)).
Proof.
  intros [Hlat Hlon]. unfold node_cell_assign, resolve_node. destruct (Osc.deleted _ n) eqn:Ed.
  - exists (None, 0). split; [done|]. cbn. by split_and!.
  - assert (K1 : e7_ok (default 0 (payload n).1)) by (destruct (payload n).1; [by apply Hlat|by vm_compute]).
    assert (K2 : e7_ok (default 0 (payload n).2)) by (destruct (payload n).2; [by apply Hlon|by vm_compute]).
    destruct (point_cell_total lvs Hleaves Hne _ _ K1 K2) as (k & Ek & _ & Hk).
    destruct (hilbert_total (default 0 (payload n).1) (default 0 (payload n).2)) as (h & Eh & _); [unfold e7_ok in *; lia..|].
    cbv zeta. rewrite Ek. cbn [res_bind]. rewrite Eh. cbn [res_bind]. eexists. split; [reflexivity|].
    cbn. split_and!; [done..|]. intros _. rewrite valid_nonempty by done. split_and!; [eauto| |by destruct (payload n)|done].
    split; try done; by intros x.
Qed.

(** * The whole of [_resolve] *)
Section Resolution.
Context (d : dataset) (k : batch_rows) (ex : list base_columns) (last_seq : Z).
Hypothesis Hd : dataset_ok d.
Hypothesis Hc : coords_ok d.
Hypothesis Hn : unique (batch_node k).
Hypothesis Hw : unique (batch_way k).
Hypothesis Hr : unique (batch_relation k).
Hypothesis Hpos : forall n, n ∈ batch_node k -> pos_e7 (payload n).
Hypothesis Hex : unique ex.
Hypothesis Hexists : forall i, i ∈ ids (batch_node k) -> find_id i ex = cur d TNode i.

Definition ws : list Z := touched_ways d k.
Definition rs : list Z := touched_relations d k ws.

(** The position of a node once the batch is applied. *)
Definition pos_after (ref : Z) : option Z * option Z :=
  match find_id ref (batch_node k) with
  | Some n => if Osc.deleted _ n then (None, None) else payload n
  | None => position d ref
  end.

Lemma pos_after_e7 ref : pos_e7 (pos_after ref).
Proof.
  unfold pos_after. destruct (find_id ref (batch_node k)) as [n|] eqn:E; [|by apply position_e7].
  destruct (Osc.deleted _ n); [by split|]. apply find_id_Some in E as [E _]. by apply Hpos.
Qed.

Lemma find_row_fetch {P} (cols : row P -> columns) (kept : list (row P)) typ touched i :
  unique kept -> (forall j, j ∈ ids kept -> j ∈ touched) ->
  find_id i (touched_base cols kept (_fetch_current d typ touched) touched last_seq) =
  match find_id i kept with
  | Some b => Some (pending i (cols b) (Osc.deleted _ b) (cur d typ i ≫= b_cell) (Osc.seq b))
  | None => if mem i touched then (fun p => pending i (carried (b_data p)) false (b_cell p) last_seq) <$> cur d typ i else None
  end.
Proof.
  intros Hu Ht. rewrite find_touched_base; [|by apply fetch_spec|intros j Hj; by apply ids_fetch in Hj as [? _]].
  unfold touched_row. rewrite find_fetch by done. destruct (find_id i kept) as [b|] eqn:E.
  - rewrite (proj2 (mem_spec i touched)); [done|]. apply Ht, find_id_is_Some. eauto.
  - by destruct (mem i touched).
Qed.

Definition way_base := touched_base (way_change promoted_keys) (batch_way k) (_fetch_current d TWay ws) ws last_seq.
Definition relation_base :=
  touched_base (relation_change promoted_keys) (batch_relation k) (_fetch_current d TRelation rs) rs last_seq.

Lemma kept_ways_touched i : i ∈ ids (batch_way k) -> i ∈ ws.
Proof. intros Hi. apply elem_of_touched_ways; [done|]. by left. Qed.

Lemma unique_way_base : unique way_base.
Proof. apply unique_touched_base; [done|by apply fetch_spec|]. intros j Hj. by apply ids_fetch in Hj as [? _]. Qed.
Lemma unique_relation_base : unique relation_base.
Proof. apply unique_touched_base; [done|by apply fetch_spec|]. intros j Hj. by apply ids_fetch in Hj as [? _]. Qed.

Definition cs : list (Z * (option Z * option Z)) :=
  node_coords_all d (batch_node k) (flat_map (fun r => unnest (refs (data r))) (alive way_base))
    (flat_map (members_of (u "n")) (alive relation_base)).

Lemma cs_e7 i p : (i, p) ∈ cs -> pos_e7 p.
Proof.
  intros Hin. assert (E : find_id i cs = Some (i, p)).
  { exact (@find_id_unique _ pair_keyed cs (i, p) (unique_coords d (batch_node k) _ _ Hd Hn) Hin). }
  unfold cs in E. rewrite find_coords in E by done. destruct (find_id i (batch_node k)) as [n|] eqn:En.
  - destruct (Osc.deleted _ n); [done|]. injection E as <-. apply find_id_Some in En as [En _]. by apply Hpos.
  - destruct (mem i _); [|done]. destruct (cur d TNode i) as [r|] eqn:Ec; [|done]. injection E as <-.
    destruct (Hc _ _ _ Ec). by split.
Qed.

(** The points of a touched way are the positions of its nodes. *)
Lemma way_pts_after r : r ∈ alive way_base ->
  way_pts cs (unnest (refs (data r))) = map pos_after (unnest (refs (data r))).
Proof.
  intros Hin. unfold cs. rewrite way_pts_map by by apply unique_coords. apply map_ext_in. intros ref Href%list_elem_of_In.
  rewrite find_coords by done. unfold pos_after. destruct (find_id ref (batch_node k)) as [n|]; [by destruct (Osc.deleted _ n)|].
  rewrite (proj2 (mem_spec _ _)).
  - unfold position. by destruct (cur d TNode ref).
  - apply elem_of_app. left. apply list_elem_of_In, in_flat_map. exists r. by rewrite <- !list_elem_of_In.
Qed.

(** *** Ways *)
Lemma resolved_way_total : exists out, resolved_way promoted_keys lvs ad md cs way_base = Ok out /\ unique out /\
  forall i, find_id i out =
    (find_id i way_base ≫= fun r => if deleted r then Some (deleted_row promoted_keys r) else ok_of (resolve_way lvs ad md cs r)).
Proof.
  unfold resolved_way. destruct (mapM_total (resolve_way lvs ad md cs) (alive way_base)) as [out E].
  - intros r Hin. destruct (resolve_way_spec cs r pos_after) as (r' & E & _); [by apply way_pts_after|intros; apply pos_after_e7|eauto].
  - rewrite E. exists (out ++ map (deleted_row promoted_keys) (dead way_base)). split; [done|]. split.
    + apply (unique_resolved promoted_keys (resolve_way lvs ad md cs)); [apply unique_way_base|apply resolve_way_id|done].
    + intros i. apply find_resolved; [apply unique_way_base|apply resolve_way_id|done].
Qed.

Lemma alive_elem i r : find_id i way_base = Some r -> deleted r = false -> r ∈ alive way_base.
Proof. intros Hr1 Hr2. unfold alive. apply list_elem_of_filter. split; [done|]. by apply find_id_Some in Hr1 as [? _]. Qed.

(** A resolved way that is not deleted. *)
Lemma way_row out i n : (forall i, find_id i out =
    (find_id i way_base ≫= fun r => if deleted r then Some (deleted_row promoted_keys r) else ok_of (resolve_way lvs ad md cs r))) ->
  find_id i out = Some n ->
  exists r, find_id i way_base = Some r /\ prev_cell n = prev_cell r /\ deleted n = deleted r /\
    (deleted n = false -> is_Some (r_cell n) /\ columns_e7 (data n) /\ refs (data n) = refs (data r) /\
       meta (data n) = meta (data r) /\ way_derived pos_after (project (byid_row TWay n))).
Proof.
  intros Hout. rewrite Hout. destruct (find_id i way_base) as [r|] eqn:Er; [|done]. cbn [mbind option_bind].
  destruct (deleted r) eqn:Ed.
  - intros [= <-]. exists r. by split_and!.
  - destruct (resolve_way_spec cs r pos_after) as (r' & E & Hdel & Hprev & Hcell & Hcol & Href & Hmeta & Hder).
    + by apply way_pts_after, (alive_elem i).
    + intros; apply pos_after_e7.
    + rewrite E. intros [= <-]. exists r. rewrite Hdel, Ed. by split_and!.
Qed.

(** *** Relations *)
Lemma relation_bbox0_e7 wb r : (forall i b, (i, b) ∈ wb -> box_e7_ok b) -> box_e7_ok (relation_bbox0 cs wb r).
Proof.
  intros Hwb. apply join_boxes_e7. intros x [Hx|Hx]%elem_of_app.
  - apply elem_of_map in Hx as (p & -> & Hx). apply elem_of_lookup_ids in Hx as [i Hx]. destruct (cs_e7 i p Hx). by apply box_e7.
  - apply elem_of_lookup_ids in Hx as [i Hx]. by apply (Hwb i).
Qed.

Lemma known_sub l x : x ∈ known l -> x ∈ l.
Proof. unfold known. rewrite list_elem_of_filter. tauto. Qed.
Lemma columns_box c : columns_e7 c -> box_e7_ok (box_of c).
Proof. intros []. by apply box_e7. Qed.
Lemma extra_e7 typ wanted i b : (i, b) ∈ known (map base_box (_fetch_current d typ wanted)) -> box_e7_ok b.
Proof.
  intros Hin%known_sub. apply (elem_of_map base_box) in Hin as (p & E & Hin). injection E as -> ->.
  apply fetch_spec in Hin as [_ Hin]; [|done]. by apply columns_box, (Hc _ _ _ Hin).
Qed.

Lemma resolved_relation_total wb eb : (forall i b, (i, b) ∈ wb -> box_e7_ok b) -> (forall i b, (i, b) ∈ eb -> box_e7_ok b) ->
  exists out, resolved_relation promoted_keys lvs ad md cs wb eb relation_base = Ok out /\ unique out /\
    (forall i n, find_id i out = Some n -> exists r, find_id i relation_base = Some r /\ prev_cell n = prev_cell r /\
      deleted n = deleted r /\ (deleted n = false -> is_Some (r_cell n) /\ columns_e7 (data n) /\
        members (data n) = members (data r) /\ meta (data n) = meta (data r))) /\
    forall i, find_id i out = None -> find_id i relation_base = None.
Proof.
  intros Hwb Heb. unfold resolved_relation. cbv zeta. set (lk := known _ ++ eb).
  assert (Hlk : forall i b, (i, b) ∈ lk -> box_e7_ok b).
  { intros i b [Hin|Hin]%elem_of_app; [|by apply (Heb i)]. apply known_sub in Hin.
    apply (elem_of_map (fun r => (r_id r, relation_bbox0 cs wb r))) in Hin as (r & E & _). injection E as -> ->.
    by apply relation_bbox0_e7. }
  set (f := resolve_relation lvs ad md cs wb lk).
  assert (Hf : forall r, exists r', f r = Ok r' /\ deleted r' = false /\ prev_cell r' = prev_cell r /\ is_Some (r_cell r') /\
    columns_e7 (data r') /\ members (data r') = members (data r) /\ meta (data r') = meta (data r)).
  { intros r. apply resolve_relation_spec; [apply cs_e7|done|done]. }
  destruct (mapM_total f (alive relation_base)) as [out E]; [intros r _; destruct (Hf r) as (r' & E & _); eauto|].
  rewrite E. exists (out ++ map (deleted_row promoted_keys) (dead relation_base)). split; [done|]. split.
  - apply (unique_resolved promoted_keys f); [apply unique_relation_base|apply resolve_relation_id|done].
  - split; intros i; [intros n|]; rewrite (find_resolved promoted_keys f);
      [|apply unique_relation_base|apply resolve_relation_id|done| |apply unique_relation_base|apply resolve_relation_id|done];
      destruct (find_id i relation_base) as [r|]; try done; cbn [mbind option_bind]; destruct (Hf r) as (r' & -> & Hdel & Hprev & Hrest);
      destruct (deleted r) eqn:Ed; try done.
    + intros [= <-]. exists r. by split_and!.
    + intros [= <-]. exists r. rewrite Hdel, Ed. by split_and!.
Qed.

(** *** Nodes *)
Definition node_keyed : Keyed (_NodeRow * (option pystr * Z)) := fun x => Osc.id x.1.

Lemma resolved_node_total : exists out, resolved_node promoted_keys lvs (batch_node k) ex = Ok out /\ unique out /\
  forall i, find_id i out = (find_id i (batch_node k) ≫= fun n =>
    ok_of (res_map (resolve_node promoted_keys n (cur d TNode i)) (node_cell_assign lvs n))).
Proof.
  unfold resolved_node. set (f := fun n => res_map (pair n) (node_cell_assign lvs n)).
  destruct (mapM_total f (batch_node k)) as [as_ E].
  { intros n Hin. destruct (resolve_node_spec n None (Hpos n Hin)) as (a & Ea & _). unfold f. rewrite Ea. by eexists. }
  rewrite E. cbn [res_bind].
  assert (Hkey : forall a b, f a = Ok b -> @id_of _ node_keyed b = id_of a).
  { intros a b. unfold f. destruct (node_cell_assign lvs a); [by intros [= <-]|done]. }
  change (fun x p => b_id p =? Osc.id (fst x)) with
    (fun (x : _NodeRow * (option pystr * Z)) (p : base_columns) => id_of p =? @id_of _ node_keyed x).
  rewrite (left_join_unique (H0 := node_keyed)) by done.
  pose (g := fun x : _NodeRow * (option pystr * Z) => resolve_node promoted_keys x.1 (find_id (Osc.id x.1) ex) x.2).
  change (map _ as_) with (map g as_). set (joined := map g as_).
  assert (Hg : forall x, r_id (g x) = @id_of _ node_keyed x).
  { intros x. unfold g, resolve_node. by destruct (Osc.deleted _ _). }
  assert (Hu : unique joined).
  { unfold unique, joined. rewrite (ids_map_key (H := node_keyed)) by done.
    by rewrite (@ids_mapM _ _ row_keyed node_keyed f (batch_node k) as_). }
  eexists. split; [reflexivity|]. split.
  - unfold unique, ids. rewrite map_app. by apply (unique_split deleted joined).
  - intros i. rewrite find_id_app, find_alive, find_dead by done.
    transitivity (find_id i joined); [destruct (find_id i joined) as [r|]; [cbn; by destruct (deleted r)|done]|].
    unfold joined. rewrite (find_id_map_key (H := node_keyed)) by done.
    rewrite (@find_mapM _ _ row_keyed node_keyed f (batch_node k) as_) by done.
    match goal with |- _ <$> (?x ≫= _) = ?y => change y with (x ≫= fun n => ok_of (res_map (resolve_node promoted_keys n (cur d TNode i)) (node_cell_assign lvs n))); destruct x as [n|] eqn:En; [|done] end.
    cbn [mbind option_bind].
    apply find_id_Some in En as [Hin Hid]. change (Osc.id n = i) in Hid. unfold f.
    destruct (node_cell_assign lvs n) as [a|]; [|done]. cbn. unfold g, id_of, node_keyed. cbn. do 2 f_equal. rewrite Hid.
    apply Hexists. rewrite <- Hid. by apply (elem_of_map_2 Osc.id).
Qed.

(** *** The three tables *)

(** What the row of a touched element keeps of its change, or of its current
    row when it is touched only through its members. *)
Definition follows {P X} (kept : list (row P)) (typ : etype) (sel : columns -> X) (of_change : row P -> columns)
    (i : Z) (n : delta_row columns) : Prop :=
  match find_id i kept with
  | Some b => deleted n = Osc.deleted _ b /\ (deleted n = false -> sel (data n) = sel (of_change b))
  | None => deleted n = false /\ exists p, cur d typ i = Some p /\ sel (data n) = sel (b_data p)
  end.
Definition way_part (c : columns) := (refs c, meta c).
Definition relation_part (c : columns) := (members c, meta c).
Definition node_part (c : columns) := (lat_e7 c, lon_e7 c, meta c).

Record batch_spec (r : resolved) : Prop := {
  bs_unique typ : unique (table_of typ r);
  bs_row typ i n : find_id i (table_of typ r) = Some n -> prev_cell n = cur d typ i ≫= b_cell /\
    (deleted n = false -> is_Some (r_cell n) /\ columns_e7 (data n));
  bs_node i : match find_id i (res_node r) with
    | Some n => exists b, find_id i (batch_node k) = Some b /\ follows (batch_node k) TNode node_part node_change i n
    | None => find_id i (batch_node k) = None
    end;
  bs_way i : match find_id i (res_way r) with
    | Some n => follows (batch_way k) TWay way_part (way_change promoted_keys) i n /\
        (deleted n = false -> way_derived pos_after (project (byid_row TWay n)))
    | None => find_id i (batch_way k) = None /\ (i ∉ ws \/ cur d TWay i = None)
    end;
  bs_relation i : match find_id i (res_relation r) with
    | Some n => follows (batch_relation k) TRelation relation_part (relation_change promoted_keys) i n
    | None => find_id i (batch_relation k) = None
    end
}.

(** A row of [touched_base] says what its change or its current row says. *)
Lemma base_follows {P X} (kept : list (row P)) typ (sel : columns -> X) (cols : row P -> columns) touched i r n :
  unique kept -> (forall j, j ∈ ids kept -> j ∈ touched) ->
  (forall c, sel (carried c) = sel c) ->
  find_id i (touched_base cols kept (_fetch_current d typ touched) touched last_seq) = Some r ->
  deleted n = deleted r -> (deleted n = false -> sel (data n) = sel (data r)) ->
  prev_cell r = cur d typ i ≫= b_cell /\ follows kept typ sel cols i n.
Proof.
  intros Hu Ht Hsel Hrow Hdel Hdata. rewrite find_row_fetch in Hrow by done. unfold follows.
  destruct (find_id i kept) as [b|].
  - injection Hrow as <-. split; [done|]. by split.
  - destruct (mem i touched); [|done]. destruct (cur d typ i) as [p|] eqn:Ep; [|done]. injection Hrow as <-.
    split; [done|]. split; [done|]. exists p. split; [done|]. rewrite Hdata by done. cbn. apply Hsel.
Qed.

Lemma base_none {P} (kept : list (row P)) typ (cols : row P -> columns) touched i :
  unique kept -> (forall j, j ∈ ids kept -> j ∈ touched) ->
  find_id i (touched_base cols kept (_fetch_current d typ touched) touched last_seq) = None ->
  find_id i kept = None /\ (i ∉ touched \/ cur d typ i = None).
Proof.
  intros Hu Ht. rewrite find_row_fetch by done. destruct (find_id i kept); [done|]. split; [done|].
  destruct (mem i touched) eqn:Em; [right|left; by apply mem_false]. by destruct (cur d typ i).
Qed.

Lemma resolve_correct : exists r, _resolve promoted_keys lvs ad md d k ex ws rs last_seq = Ok r /\ batch_spec r.
Proof.
  destruct resolved_way_total as (ways & Ew & Uw & Fw).
  set (wb := known (map row_box (base.filter (fun r => deleted r = false) ways)) ++ known (map base_box (_fetch_current d TWay
    (base.filter (fun i => mem i ws = false) (remove_dups (flat_map (members_of (u "w")) (alive relation_base))))))).
  assert (Hwb : forall i b, (i, b) ∈ wb -> box_e7_ok b).
  { intros i b [Hin|Hin]%elem_of_app; [|by eapply extra_e7]. apply known_sub in Hin.
    apply (elem_of_map row_box) in Hin as (n & E & [Hdel Hin]%list_elem_of_filter). injection E as -> ->.
    pose proof (find_id_unique _ _ Uw Hin) as Ef. apply (way_row ways _ n Fw) in Ef as (r & _ & _ & _ & Hn').
    destruct (Hn' Hdel) as (_ & Hcol & _). by apply columns_box. }
  destruct (resolved_relation_total wb _ Hwb (extra_e7 TRelation
    (base.filter (fun i => mem i rs = false) (remove_dups (flat_map (members_of (u "r")) (alive relation_base))))))
    as (rels & Er & Ur & Fr & Frn).
  destruct resolved_node_total as (nodes & En & Un & Fn).
  exists {| res_node := nodes; res_way := ways; res_relation := rels |}. split.
  { unfold _resolve. cbv zeta. fold way_base relation_base. fold cs. rewrite Ew. cbn [res_bind]. fold wb. rewrite Er.
    cbn [res_bind]. rewrite En. done. }
  assert (Rn : forall i n, find_id i nodes = Some n -> exists b, find_id i (batch_node k) = Some b /\ prev_cell n = cur d TNode i ≫= b_cell /\
    deleted n = Osc.deleted _ b /\ (deleted n = false -> is_Some (r_cell n) /\ columns_e7 (data n) /\ node_part (data n) = node_part (node_change b))).
  { intros i n. rewrite Fn. destruct (find_id i (batch_node k)) as [b|] eqn:Eb; [|done]. cbn [mbind option_bind].
    apply find_id_Some in Eb as [Hin _]. destruct (resolve_node_spec b (cur d TNode i) (Hpos b Hin)) as (a & -> & Hid & Hdel & Hprev & Hal).
    intros [= <-]. exists b. split_and!; [done|done|done|]. rewrite Hdel. intros Hf. destruct (Hal Hf) as (H1' & H2 & H3 & H4).
    split_and!; [done|done|]. unfold node_part. rewrite H4. cbn [node_change changed lat_e7 lon_e7]. by rewrite <- H3. }
  split.
  - by intros [].
  - intros [] i n Hf; cbn [table_of] in Hf; cbn in Hf.
    + apply Rn in Hf as (b & _ & Hp & _ & Hal). split; [done|]. intros Ha. by destruct (Hal Ha) as (? & ? & _).
    + apply (way_row ways _ _ Fw) in Hf as (r & Hr1 & Hp & Hdel & Hal). rewrite Hp. split.
      * eapply (base_follows _ TWay way_part); [exact Hw|apply kept_ways_touched| |exact Hr1|exact Hdel|]; [done|].
        intros Ha. destruct (Hal Ha) as (_ & _ & H3 & H4 & _). unfold way_part. by rewrite H3, H4.
      * intros Ha. by destruct (Hal Ha) as (? & ? & _).
    + apply Fr in Hf as (r & Hr1 & Hp & Hdel & Hal). rewrite Hp. split.
      * eapply (base_follows _ TRelation relation_part); [exact Hr|by intros; apply kept_relations_touched| |exact Hr1|exact Hdel|]; [done|].
        intros Ha. destruct (Hal Ha) as (_ & _ & H3 & H4). unfold relation_part. by rewrite H3, H4.
      * intros Ha. by destruct (Hal Ha) as (? & ? & _).
  - intros i. cbn [res_node]. destruct (find_id i nodes) as [n|] eqn:E.
    + apply Rn in E as (b & Eb & _ & Hdel & Hal). exists b. split; [done|]. unfold follows.
      rewrite (Eb : @find_id (row (option Z * option Z)) row_keyed i (batch_node k) = Some b). split; [done|].
      intros Ha. by destruct (Hal Ha) as (_ & _ & ?).
    + rewrite Fn in E. destruct (find_id i (batch_node k)) as [b|] eqn:Eb; [|done]. cbn [mbind option_bind] in E.
      apply find_id_Some in Eb as [Hin _]. destruct (resolve_node_spec b (cur d TNode i) (Hpos b Hin)) as (a & Ea & _). by rewrite Ea in E.
  - intros i. cbn [res_way]. destruct (find_id i ways) as [n|] eqn:E.
    + apply (way_row ways _ _ Fw) in E as (r & Hr1 & Hp & Hdel & Hal). split.
      * eapply (base_follows _ TWay way_part); [exact Hw|apply kept_ways_touched| |exact Hr1|exact Hdel|]; [done|].
        intros Ha. destruct (Hal Ha) as (_ & _ & H3 & H4 & _). unfold way_part. by rewrite H3, H4.
      * intros Ha. by destruct (Hal Ha) as (_ & _ & _ & _ & ?).
    + rewrite Fw in E. destruct (find_id i way_base) as [r|] eqn:Er'.
      * cbn [mbind option_bind] in E. destruct (deleted r) eqn:Ed; [done|].
        destruct (resolve_way_spec cs r pos_after) as (r' & Er2 & _); [by apply way_pts_after, (alive_elem i)|intros; apply pos_after_e7|].
        by rewrite Er2 in E.
      * eapply base_none; [exact Hw|apply kept_ways_touched|exact Er'].
  - intros i. cbn [res_relation]. destruct (find_id i rels) as [n|] eqn:E.
    + apply Fr in E as (r & Hr1 & Hp & Hdel & Hal).
      eapply (base_follows _ TRelation relation_part); [exact Hr|by intros; apply kept_relations_touched| |exact Hr1|exact Hdel|]; [done|].
      intros Ha. destruct (Hal Ha) as (_ & _ & H3 & H4). unfold relation_part. by rewrite H3, H4.
    + apply Frn in E. eapply base_none in E as [E _]; [exact E|exact Hr|by intros; apply kept_relations_touched].
Qed.
End Resolution.
End Run.

(** * States *)
Record state_ok `{UnicodeDB} `{Numpy} (lvs : list pystr) (ad : list nat) (md : nat) (d : dataset) : Prop := {
  st_dataset : dataset_ok d;
  st_index : index_ok d;
  st_coords : coords_ok d;
  st_ways : ways_ok lvs ad md d
}.

Record changes_ok (b : batch_rows) : Prop := {
  ch_node : unique (batch_node b); ch_way : unique (batch_way b); ch_relation : unique (batch_relation b);
  ch_pos : forall n, n ∈ batch_node b -> pos_e7 (payload n)
}.

(** What the current row of an id says after a batch: what its change says
    when it has one, and otherwise what it said before. *)
Definition says {P X} (kept : list (row P)) (typ : etype) (sel : columns -> X) (of_change : row P -> columns)
    (d d' : dataset) (i : Z) : Prop :=
  match find_id i kept with
  | Some b => if Osc.deleted _ b then cur d' typ i = None
              else exists n, cur d' typ i = Some n /\ sel (b_data n) = sel (of_change b)
  | None => (fun p => sel (b_data p)) <$> cur d' typ i = (fun p => sel (b_data p)) <$> cur d typ i
  end.

Lemma way_derived_ext `{UnicodeDB} `{Numpy} lvs ad md pos pos' w :
  (forall ref, ref ∈ unnest (refs (b_data w)) -> pos ref = pos' ref) ->
  way_derived lvs ad md pos w -> way_derived lvs ad md pos' w.
Proof.
  intros Hp. assert (E : map pos (unnest (refs (b_data w))) = map pos' (unnest (refs (b_data w)))).
  { apply map_ext_in. intros ref Hr. apply Hp. by apply list_elem_of_In. }
  intros []. split; by rewrite <- ?E.
Qed.

(** * The tables of the batch *)
Lemma find_batch r typ i : find_id i (t_byid (batch_tables r typ)) = byid_row typ <$> find_id i (table_of typ r).
Proof. by apply find_id_map_key. Qed.

Section Batch.
Context `{UnicodeDB} `{NumpyLaws} (promoted_keys lvs : list pystr) (ad : list nat) (md : nat).
Context (d : dataset) (k : batch_rows) (r : resolved).
Hypothesis Hb : batch_spec promoted_keys lvs ad md d k r.

Lemma batch_tables_ok : batch_ok (base_rows d) (d_deltas d) (batch_tables r).
Proof.
  split.
  - intros typ. pose proof (bs_unique _ _ _ _ _ _ _ Hb typ) as Hu. split.
    + unfold unique. cbn [batch_tables t_byid]. by rewrite ids_map_key.
    + exact Hu.
    + intros i. rewrite find_batch. cbn [batch_tables t_spatial]. by destruct (find_id i (table_of typ r)).
    + intros i n. rewrite find_batch. destruct (find_id i (table_of typ r)) as [n'|] eqn:E; [|done]. intros [= <-] Hdel.
      by apply (bs_row _ _ _ _ _ _ _ Hb typ i n' E).
  - intros typ i n. rewrite find_batch. destruct (find_id i (table_of typ r)) as [n'|] eqn:E; [|done]. intros [= <-].
    by apply (bs_row _ _ _ _ _ _ _ Hb typ i n' E).
Qed.

Section After.
Context (ds' : deltas columns columns).
Hypothesis Hmoved : moves (d_deltas d) (batch_tables r) ds'.
Let d' := with_deltas d ds'.

Lemma cur_after typ i : cur d' typ i = over (byid_row typ <$> find_id i (table_of typ r)) (cur d typ i).
Proof. unfold cur, current, newest_row. rewrite <- find_batch. apply (moved_current (no_rows (batch_tables r))). apply Hmoved. Qed.

Lemma coords_after : coords_ok d -> coords_ok d'.
Proof.
  intros Hc typ i n. rewrite cur_after. destruct (find_id i (table_of typ r)) as [n'|] eqn:E; [|apply Hc]. cbn.
  destruct (deleted n') eqn:Ed; [done|]. intros [= <-].
  destruct (bs_row _ _ _ _ _ _ _ Hb typ i n' E) as [_ Ha]. destruct (Ha Ed) as [_ []]. by split.
Qed.

Lemma position_after ref : position d' ref = pos_after d k ref.
Proof.
  unfold position. rewrite cur_after. pose proof (bs_node _ _ _ _ _ _ _ Hb ref) as Hn. cbn [table_of].
  unfold pos_after. destruct (find_id ref (res_node r)) as [n|] eqn:E; cbn.
  - destruct Hn as (b & Eb & Hf). unfold follows in Hf. rewrite Eb.
    rewrite (Eb : @find_id (row (option Z * option Z)) row_keyed ref (batch_node k) = Some b) in Hf.
    destruct Hf as [Hdel Hal]. rewrite <- Hdel. destruct (deleted n); [done|]. specialize (Hal eq_refl).
    unfold node_part in Hal. cbn in Hal |- *. injection Hal as -> -> _. by destruct (payload b).
  - by rewrite Hn.
Qed.

Lemma ways_after : dataset_ok d -> index_ok d -> ways_ok lvs ad md d -> ways_ok lvs ad md d'.
Proof.
  intros Hd Hi Hw i w. rewrite cur_after. pose proof (bs_way _ _ _ _ _ _ _ Hb i) as Hway. cbn [table_of].
  destruct (find_id i (res_way r)) as [n|] eqn:E; cbn.
  - destruct (deleted n) eqn:Ed; [done|]. intros [= <-]. destruct Hway as [_ Hder].
    eapply way_derived_ext; [|by apply Hder]. intros ref _. symmetry. apply position_after.
  - intros Hcur. destruct Hway as [Hnone [Ht|?]]; [|congruence].
    eapply way_derived_ext; [|by apply (Hw i)]. intros ref Href. rewrite position_after. unfold pos_after.
    destruct (find_id ref (batch_node k)) as [b|] eqn:Eb; [|done]. exfalso. apply Ht.
    apply elem_of_touched_ways; [done|]. right. split; [|eauto].
    apply (parent_ways_complete d _ i w ref); [done|done|done|done|]. apply find_id_is_Some. eauto.
Qed.

Lemma says_follows {P X} (kept : list (row P)) typ (sel : columns -> X) (of_change : row P -> columns) i :
  (forall c, sel (byid_columns typ c) = sel c) ->
  match find_id i (table_of typ r) with
  | Some n => follows d kept typ sel of_change i n
  | None => find_id i kept = None
  end -> says kept typ sel of_change d d' i.
Proof.
  intros Hsel. unfold says. rewrite cur_after. destruct (find_id i (table_of typ r)) as [n|] eqn:E; cbn.
  - unfold follows. destruct (find_id i kept) as [b|].
    + intros [Hdel Hal]. rewrite <- Hdel. destruct (deleted n); [done|]. eexists. split; [reflexivity|]. cbn.
      rewrite Hsel. by apply Hal.
    + intros (Hdel & p & -> & Hp). rewrite Hdel. cbn. by rewrite Hsel, Hp.
  - by intros ->.
Qed.
End After.
End Batch.

(** * The run *)
Section Run.
Context `{UnicodeDB} `{NumpyLaws}.

(** The changes a run applies: newer than the current version, and inside the
    extent or known. *)
Definition batch_of (m : manifest) (raw : batch_rows) : batch_rows :=
  {| batch_node := _drop_stale_versions (data_files m) TNode (batch_node raw);
     batch_way := _drop_stale_versions (data_files m) TWay (batch_way raw);
     batch_relation := _drop_stale_versions (data_files m) TRelation (batch_relation raw) |}.
Definition applied_changes (m : manifest) (x : extent) (raw : batch_rows) : batch_rows :=
  kept (_extent_filter (data_files m) x (batch_of m raw)).

Lemma batch_of_ok m raw : dataset_ok (data_files m) -> changes_ok raw -> changes_ok (batch_of m raw).
Proof.
  intros Hd [Hn Hw Hr Hp]. split; cbn [batch_of batch_node batch_way batch_relation]; rewrite drop_stale_filter by done;
    try by apply unique_filter. intros n [_ Hin]%list_elem_of_filter. by apply Hp.
Qed.
Lemma applied_ok m x raw : dataset_ok (data_files m) -> changes_ok raw -> changes_ok (applied_changes m x raw).
Proof.
  intros Hd Hraw. destruct (batch_of_ok m raw Hd Hraw) as [Hn Hw Hr Hp]. unfold applied_changes, _extent_filter. cbv zeta.
  split; cbn [kept batch_node batch_way batch_relation]; try by apply keep_unique. intros n Hin%keep_sub. by apply Hp.
Qed.

Lemma kept_nodes_sub m x raw i : i ∈ ids (batch_node (applied_changes m x raw)) -> i ∈ ids (batch_node (batch_of m raw)).
Proof. intros (n & -> & Hn)%elem_of_map. apply elem_of_map_2. by apply keep_sub in Hn. Qed.

Lemma resolve_batch_correct m x raw last_seq :
  leaf_set (leaf_cells m) -> leaf_cells m <> [] -> 0%nat ∈ ancestor_depths m -> (max_depth m <= MAX_DEPTH)%nat ->
  dataset_ok (data_files m) -> coords_ok (data_files m) -> changes_ok raw ->
  exists r f, resolve_batch m x raw last_seq = Ok (r, f) /\ kept f = applied_changes m x raw /\
    batch_spec (promoted_keys m) (leaf_cells m) (ancestor_depths m) (max_depth m) (data_files m) (applied_changes m x raw) r.
Proof.
  intros Hl Hne Hroot Hmd Hd Hc Hraw. destruct (applied_ok m x raw Hd Hraw) as [Hn Hw Hr Hp].
  set (f := _extent_filter (data_files m) x (batch_of m raw)).
  assert (Hu : unique (exists_node f)) by by apply fetch_spec.
  destruct (resolve_correct (promoted_keys m) (leaf_cells m) (ancestor_depths m) (max_depth m) Hl Hne Hroot Hmd
              (data_files m) (kept f) (exists_node f) last_seq Hd Hc Hn Hw Hr Hp Hu) as (r & E & Hs).
  { intros i Hi. apply exists_node_spec; [done|]. by apply (kept_nodes_sub m x raw). }
  exists r, f. split; [|done]. unfold resolve_batch. fold (batch_of m raw). fold f. unfold _touched_set. cbv zeta.
  unfold ws, rs, ws in E. rewrite E. done.
Qed.

(** C11: an update run.  On a well-formed state, for any batch of changes with at
    most one change per element, the run succeeds whatever boundaries it
    crosses; the state it publishes is well formed again, and in particular
    every current way has the box, the flags and the cell computed from the
    current positions of its nodes, although only changed elements and the
    ways found through the reverse indexes were recomputed; and the current
    version of every element says what its applied change says (absent after a
    deletion) or what it said before. *)
Theorem update_run_correct (m : manifest) x source raw first_seq last_seq n_fetched ts :
  leaf_set (leaf_cells m) -> leaf_cells m <> [] -> 0%nat ∈ ancestor_depths m -> (0 < max_depth m <= MAX_DEPTH)%nat ->
  state_ok (leaf_cells m) (ancestor_depths m) (max_depth m) (data_files m) -> changes_ok raw ->
  exists m' s, _run_once_impl m x source raw first_seq last_seq n_fetched ts = Ok (m', s) /\
    replication_sequence m' = Some last_seq /\
    state_ok (leaf_cells m') (ancestor_depths m') (max_depth m') (data_files m') /\
    let b := applied_changes m x raw in
    let d := data_files m in
    let d' := data_files m' in
    forall i, says (batch_node b) TNode node_part (node_change (promoted_keys m)) d d' i /\
      says (batch_way b) TWay way_part (way_change (promoted_keys m)) d d' i /\
      says (batch_relation b) TRelation relation_part (relation_change (promoted_keys m)) d d' i.
Proof.
  intros Hl Hne Hroot Hmd [Hd Hi Hc Hw] Hraw.
  destruct (resolve_batch_correct m x raw last_seq Hl Hne Hroot ltac:(lia) Hd Hc Hraw) as (r & f & Er & Ef & Hb).
  destruct (run_keeps_ok (base_rows (data_files m)) (d_deltas (data_files m)) (batch_tables r) first_seq last_seq ts)
    as (ds' & Et & Hds' & Hp' & Hm); [by apply Hd|by apply Hd|by eapply batch_tables_ok|].
  unfold _run_once_impl. rewrite Er. cbn [res_bind fst snd]. rewrite Et. cbn [res_bind].
  eexists _, _. split; [reflexivity|]. cbn [replication_sequence leaf_cells ancestor_depths max_depth data_files].
  assert (Ead : or_depths (ancestor_depths m) = ancestor_depths m) by (destruct (ancestor_depths m); [by apply elem_of_nil in Hroot|done]).
  assert (Emd : or_depth (max_depth m) = max_depth m) by (destruct (max_depth m); [lia|done]). rewrite Ead, Emd.
  split; [done|]. split.
  - split.
    + destruct Hd. by split.
    + destruct Hi. by split.
    + by eapply coords_after.
    + by eapply ways_after.
  - intros i. split_and!; eapply says_follows; try done.
    + pose proof (bs_node _ _ _ _ _ _ _ Hb i) as Hs. cbn [table_of]. destruct (find_id i (res_node r)); [|done].
      by destruct Hs as (b & _ & Hs).
    + pose proof (bs_way _ _ _ _ _ _ _ Hb i) as Hs. cbn [table_of]. by destruct (find_id i (res_way r)); destruct Hs.
    + by pose proof (bs_relation _ _ _ _ _ _ _ Hb i).
Qed.
End Run.

(** * A run on a sample dataset *)
Definition sample_node (i lat lon : Z) : base_columns :=
  {| b_id := i; b_cell := Some (u "0");
     b_data := changed [] {| Osc.id := i; Osc.deleted := false; Osc.version := 1; Osc.timestamp := None; Osc.changeset := 1;
                             Osc.uid := None; Osc.user := []; Osc.tags := None; payload := tt; Osc.seq := 1 |}
                 (Some lat) (Some lon) None None |}.
Definition sample_way : base_columns :=
  {| b_id := 10; b_cell := Some (u "0");
     b_data := {| lat_e7 := None; lon_e7 := None; refs := Some [1; 2]; members := None; c_tags := None; promoted := [];
                  c_version := Some 1; c_changeset := Some 1; c_timestamp := None; c_uid := None; c_user := Some [];
                  xmin_e7 := Some (-1000000000); ymin_e7 := Some 500000000; xmax_e7 := Some (-990000000); ymax_e7 := Some 510000000;
                  geometry := None; is_closed := Some false; is_area := Some false; centroid_lat_e7 := None;
                  centroid_lon_e7 := None; hilbert := None |} |}.
Definition sample_dataset : dataset := {|
  byid typ := match typ with
    | TNode => [{| min_id := Some 1; max_id := Some 2;
                   p_rows := [sample_node 1 500000000 (-1000000000); sample_node 2 510000000 (-990000000)] |}]
    | TWay => [{| min_id := Some 10; max_id := Some 10; p_rows := [sample_way] |}]
    | TRelation => []
    end;
  node_way := [{| min_id := Some 1; max_id := Some 2; p_rows := [(1, 10); (2, 10)] |}];
  member_index := [];
  d_deltas := {| hour := None; day := None; week := None |} |}.
Definition sample_manifest : manifest := {|
  data_files := sample_dataset; replication_sequence := Some 4; timestamp_osm_base := None; manifest_version := 3;
  replication_source := None; extent_degrees := (float_of_Z 0, float_of_Z 0, float_of_Z 0, float_of_Z 0);
  leaf_cells := sample_leaves; ancestor_depths := DEFAULT_ANCESTOR_DEPTHS; max_depth := DEFAULT_MAX_DEPTH_V2;
  promoted_keys := []; has_history := false |}.
Definition world : extent :=
  {| south_e7 := -900000000; west_e7 := -1800000000; north_e7 := 900000000; east_e7 := 1800000000 |}.
(** Node 1 moves. *)
Definition sample_move : _NodeRow :=
  {| Osc.id := 1; Osc.deleted := false; Osc.version := 2; Osc.timestamp := None; Osc.changeset := 2; Osc.uid := None;
     Osc.user := []; Osc.tags := None; payload := (Some 490000000, Some (-1000000000)); Osc.seq := 5 |}.
Definition sample_changes : batch_rows := {| batch_node := [sample_move]; batch_way := []; batch_relation := [] |}.

Lemma sample_current typ i r : cur sample_dataset typ i = Some r ->
  (typ = TNode /\ (r = sample_node 1 500000000 (-1000000000) \/ r = sample_node 2 510000000 (-990000000))) \/
  (typ = TWay /\ r = sample_way).
Proof.
  unfold cur, current. change (newest_row (d_deltas sample_dataset) typ i) with (@None (delta_row columns)). cbn [over].
  intros Hr. apply find_id_Some in Hr as [Hr _]. destruct typ; cbn in Hr;
    repeat (apply elem_of_cons in Hr as [->|Hr]; [tauto|]); by apply elem_of_nil in Hr.
Qed.

Lemma sample_state_ok :
  @state_ok latin1_db spec_numpy sample_leaves DEFAULT_ANCESTOR_DEPTHS DEFAULT_MAX_DEPTH_V2 sample_dataset.
Proof.
  split.
  - split; [done| | |by intros typ i r].
    + intros []; unfold unique; refine (bool_decide_unpack (NoDup _) _); by vm_compute.
    + intros [] p r Hp Hr; cbn in Hp; try (by apply elem_of_nil in Hp); apply list_elem_of_singleton in Hp as ->; cbn in Hr;
        repeat (apply elem_of_cons in Hr as [->|Hr]; [do 2 eexists; split_and!; [reflexivity|reflexivity|by vm_compute|by vm_compute]|]);
        by apply elem_of_nil in Hr.
  - split.
    + intros w ref Hw%list_elem_of_singleton. subst w. cbn. intros Hr.
      repeat (apply elem_of_cons in Hr as [->|Hr]; [set_solver|]). by apply elem_of_nil in Hr.
    + intros p r Hp%list_elem_of_singleton. subst p. cbn. intros Hr.
      repeat (apply elem_of_cons in Hr as [->|Hr]; [do 2 eexists; split_and!; [reflexivity|reflexivity|by vm_compute|by vm_compute]|]).
      by apply elem_of_nil in Hr.
  - intros typ i r [(_ & [->| ->])|(_ & ->)]%sample_current; split; intros x; intros [=]; subst x; by vm_compute.
  - intros i w [([=] & _)|(_ & ->)]%sample_current. split; [reflexivity|reflexivity|reflexivity|].
    exists (u "0"). split; [done|]. split; [|by vm_compute].
    split_and!; [repeat constructor; discriminate|vm_compute; lia|done].
Qed.

Lemma sample_applied : @find_id (row (option Z * option Z)) row_keyed 1
    (batch_node (@applied_changes sample_manifest world sample_changes)) = Some sample_move.
Proof. by vm_compute. Qed.

(** A run leaves the layout parameters of the manifest alone. *)
Lemma run_layout `{UnicodeDB} `{Numpy} m x source raw f l n ts m' s : ancestor_depths m <> [] -> max_depth m <> 0%nat ->
  _run_once_impl m x source raw f l n ts = Ok (m', s) ->
  leaf_cells m' = leaf_cells m /\ ancestor_depths m' = ancestor_depths m /\ max_depth m' = max_depth m.
Proof.
  intros Ha Hm. unfold _run_once_impl. destruct (resolve_batch _ _ _ _) as [rf|]; [|done]. cbn [res_bind].
  destruct (_write_tiers _ _ _ _ _) as [ds|]; [|done]. cbn [res_bind]. intros [= <- _]. cbn.
  split_and!; [done|by destruct (ancestor_depths m)|by destruct (max_depth m)].
Qed.

Lemma sample_changes_ok : changes_ok sample_changes.
Proof.
  split; cbn; try apply NoDup_nil_2; [apply NoDup_singleton|]. intros n ->%list_elem_of_singleton.
  split; intros x [= <-]; by vm_compute.
Qed.

Lemma update_run_correct_witness :
  exists m' s n, @_run_once_impl latin1_db spec_numpy sample_manifest world None sample_changes 5 6 2
      (Some (u "2026-09-19T10:00:00Z")) = Ok (m', s) /\
    cur (data_files m') TNode 1 = Some n /\ lat_e7 (b_data n) = Some 490000000 /\
    @ways_ok latin1_db spec_numpy sample_leaves DEFAULT_ANCESTOR_DEPTHS DEFAULT_MAX_DEPTH_V2 (data_files m').
Proof.
  destruct (@update_run_correct latin1_db spec_numpy spec_numpy_laws sample_manifest world None sample_changes 5 6 2
              (Some (u "2026-09-19T10:00:00Z"))) as (m' & s & E & Hseq & Hst & Hsays).
  - exact sample_leaf_set.
  - discriminate.
  - left.
  - split; [vm_compute; lia|vm_compute; lia].
  - exact sample_state_ok.
  - exact sample_changes_ok.
  - cbn zeta in Hsays. destruct (Hsays 1) as [Hn _]. unfold says in Hn.
    rewrite sample_applied in Hn. cbn [sample_move Osc.deleted] in Hn. destruct Hn as (n & Hc & Hp).
    exists m', s, n. split; [exact E|]. split; [exact Hc|]. split; [by injection Hp|].
    destruct Hst as [_ _ _ Hw]. intros i w Hcur. specialize (Hw i w Hcur).
    destruct (fun Ha Hb => run_layout _ _ _ _ _ _ _ _ _ _ Ha Hb E) as (E1 & E2 & E3); [discriminate|discriminate|].
    change (leaf_cells sample_manifest) with sample_leaves in E1.
    change (ancestor_depths sample_manifest) with DEFAULT_ANCESTOR_DEPTHS in E2.
    change (max_depth sample_manifest) with DEFAULT_MAX_DEPTH_V2 in E3. by rewrite <- E1, <- E2, <- E3.
Defined.

(** * What the filter and the bounded iteration lose *)
Definition new_row {P} (i : Z) (p : P) : row P :=
  {| Osc.id := i; Osc.deleted := false; Osc.version := 1; Osc.timestamp := None; Osc.changeset := 2; Osc.uid := None;
     Osc.user := []; Osc.tags := None; payload := p; Osc.seq := 5 |}.
(** A node and a relation with that node as its member, both new. *)
Definition new_relation : batch_rows :=
  {| batch_node := [new_row 5 (Some 1, Some 1)]; batch_way := [];
     batch_relation := [new_row 7 [{| m_type := u "n"; m_ref := 5; m_role := [] |}]] |}.

(** The extent filter loses new relations.  With the world as extent, the
    filter keeps a new node and drops the relation created with it in the same
    batch, because the members of a relation are looked up in the state before
    the batch only. *)
Theorem new_relation_dropped :
  let b := @applied_changes sample_manifest world new_relation in
  batch_node b = batch_node new_relation /\ batch_relation b = [].
Proof. by vm_compute. Qed.

(** A chain of relations 101, ..., 110, each a member of the next, the first with
    node 1 as its member. *)
Definition nested_dataset : dataset := {|
  byid typ := match typ with
    | TRelation => [{| min_id := Some 101; max_id := Some 110;
        p_rows := map (fun i => {| b_id := 100 + Z.of_nat i; b_cell := Some (u "root"); b_data := null_columns |}) (List.seq 1 10) |}]
    | _ => byid sample_dataset typ
    end;
  node_way := node_way sample_dataset;
  member_index := [{| min_id := None; max_id := None;
    p_rows := (u "n", 1, 101) :: map (fun i => (u "r", 100 + Z.of_nat i, 101 + Z.of_nat i)) (List.seq 1 9) |}];
  d_deltas := d_deltas sample_dataset |}.

(** parents of relations are followed eight times, not to a fixed point. *)
Theorem nested_relations_truncated :
  let r := @touched_relations spec_numpy nested_dataset sample_changes [10] in
  r = [101; 102; 103; 104; 105; 106; 107; 108; 109] /\
  @_parent_relations spec_numpy nested_dataset r = [102; 103; 104; 105; 106; 107; 108; 109; 110].
Proof. by vm_compute. Qed.
