(* ===== verification/Compact.v ===== *)
(** [build/compact.py]: the folding of the delta tiers into a new generation of
    base files.  Files are the bags of their rows; the directory a file is
    written to and its size in bytes are left out, so a file that is placed
    under a new name ([_place_file]) is the same file. *)
From S2P Require Import Prelude PyStr PyFloat Json Osc Sql Numpy Tiers DeltaRead Fetch UpdateRun.

(** The entry of a cell in the table of nodes, and in a flat table. *)
Record node_entry := { tagged : option (list base_columns); untagged : option (list base_columns) }.
Record flat_entry := { f_rows : list base_columns; bbox : list (option pyfloat) }.

(** A generation of a dataset: the files of [tables], and those the updater reads. *)
Record snapshot := {
  node_cells : list (pystr * node_entry);
  way_cells : list (pystr * flat_entry);
  relation_cells : list (pystr * flat_entry);
  data_files : dataset
}.

(** [quantile_disc(col, fractions)], for the fractions [i / n]. *)
Class Quantiles := quantile_disc : list Z -> Z -> list Z.

Section Compact.
Context `{UnicodeDB}.
Implicit Types (ds : deltas columns columns) (table : etype).

(** * Reading the tiers *)
Definition TIER_ORDER ds : list (option (tier columns columns)) := [hour ds; day ds; week ds].

(** The contents of the files of a table with the ranks of their tiers. *)
Definition _delta_paths (kind : tables columns columns -> list (delta_row columns)) ds table :
    list (list (delta_row columns) * Z) :=
  omap (fun x : Z * option (tier columns columns) => (fun t => (kind (files t table), x.1)) <$> x.2)
    (zip [0; 1; 2] (TIER_ORDER ds)).

Definition _tombstone_paths ds : list (list tombstone) := omap (fmap tombstones) (TIER_ORDER ds).

(** [None]: no view is created.  The rank is negated, the order being ascending. *)
Definition _build_winners (kind : tables columns columns -> list (delta_row columns)) ds table :
    option (list (delta_row columns)) :=
  match _delta_paths kind ds table with
  | [] => None
  | paths => Some (qualify (flat_map (fun p => map (pair (- p.2)) p.1) paths))
  end.

Definition _touched_cells ds table (winners : option (list (delta_row columns))) : list pystr :=
  omap (fun c => c) (match winners with Some w => map r_cell w ++ map prev_cell w | None => [] end) ++
  flat_map (fun tombs => map tb_prev_cell (base.filter (fun t => bool_decide (tb_type t = table) = true) tombs))
    (_tombstone_paths ds).

(** * Spatial tables *)

(** [WHERE id NOT IN (SELECT id FROM winners_view)]: an error when there is no view. *)
Definition not_replaced (winners : option (list (delta_row columns))) (l : list base_columns) : res (list base_columns) :=
  match winners with
  | Some w => Ok (where_not_in (ids w) l)
  | None => Raise DuckDBError
  end.

(** [WHERE cell = '...' AND NOT deleted] *)
Definition placed_in (cell : pystr) (winners : list (delta_row columns)) : list base_columns :=
  map project (base.filter (fun r => match r_cell r with Some c => c =s cell | None => false end && negb (deleted r) = true) winners).
Definition new_in (cell : pystr) (winners : option (list (delta_row columns))) : list base_columns :=
  match winners with Some w => placed_in cell w | None => [] end.

(** [tags IS NOT NULL] *)
Definition is_tagged (r : base_columns) : bool := match c_tags (b_data r) with Some _ => true | None => false end.

(** A file without rows is removed. *)
Definition kept_file (l : list base_columns) : option (list base_columns) :=
  match l with [] => None | _ => Some l end.
Definition empty_entry : node_entry := {| tagged := None; untagged := None |}.
Definition entry_parts (e : node_entry) : list (list base_columns) := omap (fun p => p) [tagged e; untagged e].
Definition some_part (e : node_entry) : option node_entry := match entry_parts e with [] => None | _ => Some e end.

Definition compact_node_cell (old : option node_entry) (winners : option (list (delta_row columns)))
    (touched : bool) (cell : pystr) : res (option node_entry) :=
  let old_entry := default empty_entry old in
  if negb touched then Ok (some_part old_entry)
  else
    let* kept := res_mapM (not_replaced winners) (entry_parts old_entry) in
    let combined := concat kept ++ new_in cell winners in
    Ok (some_part {| tagged := kept_file (base.filter (fun r => is_tagged r = true) combined);
                     untagged := kept_file (base.filter (fun r => is_tagged r = false) combined) |}).

(** The entries of the cells that have one, in the order of the cells. *)
Definition compact_cells {E} (f : option E -> bool -> pystr -> res (option E)) (old : list (pystr * E))
    (touched : list pystr) : res (list (pystr * E)) :=
  res_map (omap (fun x => x))
    (res_mapM (fun cell => res_map (fmap (pair cell)) (f (dict_get cell old) (str_in cell touched) cell))
       (sorted_set (map fst old ++ touched))).

Definition _compact_node_spatial (old_cells : list (pystr * node_entry)) (winners : option (list (delta_row columns)))
    (touched : list pystr) : res (list (pystr * node_entry)) :=
  compact_cells (fun old => compact_node_cell old winners) old_cells touched.

(** The corners of the boxes of a file, in degrees. *)
Definition corner (f : Z -> Z -> Z) (col : columns -> option Z) (l : list base_columns) : option pyfloat :=
  (fun v => fdiv (float_of_Z v) (float_of_Z 10000000)) <$>
  agg f (map (fun r => col (b_data r)) (base.filter (fun r => present (xmin_e7 (b_data r)) = true) l)).
Definition file_bbox (l : list base_columns) : list (option pyfloat) :=
  [corner Z.min ymin_e7 l; corner Z.min xmin_e7 l; corner Z.max ymax_e7 l; corner Z.max xmax_e7 l].

Definition compact_flat_cell (old : option flat_entry) (winners : option (list (delta_row columns)))
    (touched : bool) (cell : pystr) : res (option flat_entry) :=
  if negb touched then Ok old
  else
    let* kept := match old with Some e => not_replaced winners (f_rows e) | None => Ok [] end in
    match kept ++ new_in cell winners with
    | [] => Ok None
    | rows => Ok (Some {| f_rows := rows; bbox := file_bbox rows |})
    end.

Definition _compact_flat_spatial (old_cells : list (pystr * flat_entry)) (winners : option (list (delta_row columns)))
    (touched : list pystr) : res (list (pystr * flat_entry)) :=
  compact_cells (fun old => compact_flat_cell old winners) old_cells touched.

(** * Files by id *)

(** The id range of a file, from the statistics in its footer. *)
Definition _parquet_id_range {R} (col : R -> Z) (l : list R) : option Z * option Z :=
  match map col l with
  | [] => (None, None)
  | i :: rest => (Some (min_of i rest), Some (max_of i rest))
  end.
Definition file_part {R} (col : R -> Z) (l : list R) : option (part R) :=
  match l with
  | [] => None
  | _ => let (mn, mx) := _parquet_id_range col l in Some {| min_id := mn; max_id := mx; p_rows := l |}
  end.

(** A subquery used as a value. *)
Definition scalar {A} (l : list A) : res (option A) :=
  match l with
  | [] => Ok None
  | [x] => Ok (Some x)
  | _ => Raise DuckDBError
  end.

Definition between {R} (i : Z) (p : part R) : bool :=
  match min_id p, max_id p with Some mn, Some mx => (mn <=? i) && (i <=? mx) | _, _ => false end.

(** [ORDER BY max_id DESC LIMIT 1] of the parts below an id. *)
Fixpoint nearest_lower {R} (i : Z) (parts : list (Z * part R)) : option (Z * Z) :=
  match parts with
  | [] => None
  | (k, p) :: rest =>
      match max_id p with
      | Some mx =>
          if mx <? i then
            match nearest_lower i rest with
            | Some (k', mx') => if mx <? mx' then Some (k', mx') else Some (k, mx)
            | None => Some (k, mx)
            end
          else nearest_lower i rest
      | None => nearest_lower i rest
      end
  end.

Definition indexed {A} (l : list A) : list (Z * A) := zip (seqZ 0 (Z.of_nat (length l))) l.

(** [COALESCE(containing part, nearest lower part, first part)] *)
Definition target_part {R} (parts : list (part R)) (i : Z) : res (option Z) :=
  let* containing := scalar (map fst (base.filter (fun x => between i x.2 = true) (indexed parts))) in
  Ok (match containing with
      | Some k => Some k
      | None => match nearest_lower i (indexed parts) with
                | Some (k, _) => Some k
                | None => fst <$> head (indexed parts)
                end
      end).

Definition _assign_target_parts {R} (parts : list (part R)) (winners : list (delta_row columns)) :
    res (list (option Z * delta_row columns)) :=
  res_mapM (fun w => res_map (fun k => (k, w)) (target_part parts (r_id w))) winners.

Definition is_target (k : Z) (t : option Z) : bool := match t with Some t => t =? k | None => false end.

(** The files of the parts that are rewritten, and the others. *)
Definition rewrite_parts {R} (col : R -> Z) (touched : list Z) (rewritten : Z -> part R -> list R)
    (old : list (part R)) : list (part R) :=
  omap (fun x => x)
    (map (fun kp : Z * part R => if mem kp.1 touched then file_part col (rewritten kp.1 kp.2) else Some kp.2) (indexed old)).

Definition _compact_byid_table (old : list (part base_columns)) (winners : option (list (delta_row columns))) :
    res (list (part base_columns)) :=
  match winners with
  | None => Ok old
  | Some w =>
      let alive := base.filter (fun r => deleted r = false) in
      match old with
      | [] => Ok (option_list (file_part b_id (map project (alive w))))
      | _ =>
          let* assign := _assign_target_parts old w in
          Ok (rewrite_parts b_id (omap fst assign)
                (fun k p => where_not_in (ids w) (p_rows p) ++
                            map project (alive (map snd (base.filter (fun x => is_target k x.1 = true) assign))))
                old)
      end
  end.

(** * The node to ways index *)
Definition way_pairs (l : list base_columns) : list (Z * Z) :=
  flat_map (fun w => map (fun ref => (ref, b_id w)) (unnest (refs (b_data w)))) l.

Definition touched_nodes (old_ways : list base_columns) (way_winners node_winners : option (list (delta_row columns))) : list Z :=
  remove_dups
    (match way_winners with
     | Some w => map fst (way_pairs (where_in (ids w) old_ways)) ++
                 map fst (way_pairs (map project (base.filter (fun r => deleted r = false) w)))
     | None => []
     end ++
     match node_winners with Some n => ids n | None => [] end).

Definition _compact_node_way_index (old : list (part (Z * Z))) (old_ways new_ways : list (part base_columns))
    (way_winners node_winners : option (list (delta_row columns))) : res (list (part (Z * Z))) :=
  match old, way_winners, node_winners with
  | [], _, _ => Ok []
  | _, None, None => Ok old
  | _, _, _ =>
      match touched_nodes (read_parts old_ways) way_winners node_winners with
      | [] => Ok old
      | touched =>
          let pairs := base.filter (fun p => mem p.1 touched = true) (way_pairs (read_parts new_ways)) in
          let* target := res_mapM (fun i => res_map (pair i) (target_part old i)) touched in
          Ok (rewrite_parts fst (omap snd target)
                (fun k p => base.filter (fun r => mem r.1 touched = false) (p_rows p) ++
                   inner_join (fun (r : Z * Z) (t : Z * option Z) => t.1 =? r.1) (fun r _ => r) pairs
                     (base.filter (fun t => is_target k t.2 = true) target))
                old)
      end
  end.

(** * The member index *)
Definition RANGE_TARGET_ROWS : Z := 4000000.

(** [sorted(set(l))] *)
Definition sorted_ints (l : list Z) : list Z := merge_sort Z.le (remove_dups l).

Definition range_bounds `{Quantiles} (col : list Z) (total target_rows : Z) : list (option Z * option Z) :=
  let n := Z.max 1 (- (- total / target_rows)) in
  if n =? 1 then [(None, None)]
  else
    let qs := sorted_ints (quantile_disc col n) in
    let bounds := None :: map Some qs ++ [None] in
    zip (removelast bounds) (tl bounds).

Definition range_cond (lo hi : option Z) (i : Z) : bool :=
  match lo with Some lo => lo <=? i | None => true end && match hi with Some hi => i <? hi | None => true end.

Definition member_rows (relations : list base_columns) : list (pystr * Z * Z) :=
  flat_map (fun r => map (fun m => (m_type m, m_ref m, b_id r)) (unnest (members (b_data r)))) relations.

(** The parts of this index have no id range in the manifest. *)
Definition _compact_member_index `{Quantiles} (relation_parts : list (part base_columns)) : list (part (pystr * Z * Z)) :=
  match relation_parts with
  | [] => []
  | _ =>
      let new_members := member_rows (read_parts relation_parts) in
      if Z.of_nat (length new_members) =? 0 then []
      else
        map (fun b => {| min_id := None; max_id := None;
                         p_rows := base.filter (fun m => range_cond b.1 b.2 m.1.2 = true) new_members |})
          (range_bounds (map (fun m => m.1.2) new_members) (Z.of_nat (length new_members)) RANGE_TARGET_ROWS)
  end.

(** * compact *)
Definition no_deltas : deltas columns columns := {| hour := None; day := None; week := None |}.

Definition compact `{Quantiles} (s : snapshot) : res snapshot :=
  let d := data_files s in
  let ds := d_deltas d in
  let spatial t := _build_winners t_spatial ds t in
  let by_id t := _build_winners t_byid ds t in
  let cells t := _touched_cells ds t (spatial t) in
  let* nodes := _compact_node_spatial (node_cells s) (spatial TNode) (cells TNode) in
  let* node_byid := _compact_byid_table (byid d TNode) (by_id TNode) in
  let* ways := _compact_flat_spatial (way_cells s) (spatial TWay) (cells TWay) in
  let* way_byid := _compact_byid_table (byid d TWay) (by_id TWay) in
  let* relations := _compact_flat_spatial (relation_cells s) (spatial TRelation) (cells TRelation) in
  let* relation_byid := _compact_byid_table (byid d TRelation) (by_id TRelation) in
  let* pairs := _compact_node_way_index (node_way d) (byid d TWay) way_byid (by_id TWay) (by_id TNode) in
  Ok {| node_cells := nodes; way_cells := ways; relation_cells := relations;
        data_files := {|
          byid t := match t with TNode => node_byid | TWay => way_byid | TRelation => relation_byid end;
          node_way := pairs;
          member_index := _compact_member_index relation_byid;
          d_deltas := no_deltas |} |}.

(** The counts of the new manifest's [stats]. *)
Record stats := { nodes : Z; tagged_nodes : Z; ways : Z; relations : Z }.
Definition row_count {R} (parts : list (part R)) : Z := fold_right Z.add 0 (map (fun p => len (p_rows p)) parts).
Definition compact_stats (s : snapshot) : stats := {|
  nodes := row_count (byid (data_files s) TNode);
  tagged_nodes := fold_right Z.add 0 (map (fun e => match tagged e.2 with Some l => len l | None => 0 end) (node_cells s));
  ways := row_count (byid (data_files s) TWay);
  relations := row_count (byid (data_files s) TRelation) |}.
End Compact.
