(* ===== verification/CompactFacts.v ===== *)
(** Theorems on the parts of a table with id ranges, as compaction rewrites
    them: the part an id belongs to exists and is the only one whose rewriting
    keeps the ranges apart, and rewriting parts loses no row.

    Theorems on compaction: folding the delta tiers into the base changes the
    state of no element, and the new generation is well formed again. *)
From S2P Require Import Prelude PyStr Json Osc Numpy Sql Tiers DeltaRead TiersFacts DeltaReadFacts Fetch UpdateRun ResolveFacts Compact.
From S2P Require Import PyFloat.

(** * Ranges *)
Definition range_of {R} (p : part R) (mn mx : Z) : Prop := min_id p = Some mn /\ max_id p = Some mx /\ mn <= mx.
Definition before {R} (p q : part R) : Prop :=
  exists mx mn, max_id p = Some mx /\ min_id q = Some mn /\ mx < mn.

(** The parts are in the order of their ranges, which are disjoint. *)
Record ranges_sorted {R} (parts : list (part R)) : Prop := {
  rs_sorted : StronglySorted before parts;
  rs_range : forall p, p ∈ parts -> exists mn mx, range_of p mn mx
}.

(** * Numbered lists *)
Lemma elem_of_indexed {A} (l : list A) k x : (k, x) ∈ indexed l <-> 0 <= k /\ l !! Z.to_nat k = Some x.
Proof.
  unfold indexed. rewrite list_elem_of_lookup. setoid_rewrite lookup_zip_Some. setoid_rewrite lookup_seqZ. split.
  - intros (j & [-> Hj] & Hl). split; [lia|]. rewrite <- Hl. f_equal. lia.
  - intros [Hk Hl]. exists (Z.to_nat k). split; [|done]. pose proof (lookup_lt_Some _ _ _ Hl). lia.
Qed.
Lemma elem_of_indexed_2 {A} (l : list A) k x : (k, x) ∈ indexed l -> x ∈ l.
Proof. intros [_ Hl]%elem_of_indexed. by eapply list_elem_of_lookup_2. Qed.
Lemma indexed_elem {A} (l : list A) x : x ∈ l -> exists k, (k, x) ∈ indexed l.
Proof.
  intros [j Hj]%list_elem_of_lookup. exists (Z.of_nat j). apply elem_of_indexed. rewrite Nat2Z.id. split; [lia|done].
Qed.
Lemma head_indexed {A} (x : A) l : head (indexed (x :: l)) = Some (0, x).
Proof. unfold indexed. cbn [length]. by rewrite Nat2Z.inj_succ, seqZ_cons by lia. Qed.
Lemma indexed_sorted {A} (l : list A) : StronglySorted (fun x y : Z * A => x.1 < y.1) (indexed l).
Proof.
  unfold indexed. generalize 0. induction l as [|x l IH]; intros m; [constructor|].
  cbn [length]. rewrite Nat2Z.inj_succ, seqZ_cons by lia. rewrite Z.pred_succ. cbn [zip zip_with]. constructor; [apply IH|].
  apply Forall_forall. intros [k y] (j & Hj)%list_elem_of_lookup. apply lookup_zip_Some in Hj as [Hj _].
  apply lookup_seqZ in Hj as [-> _]. cbn. lia.
Qed.
Lemma strongly_sorted_omap {A B} (P : A -> A -> Prop) (Q : B -> B -> Prop) (f : A -> option B) l :
  (forall x y x' y', x ∈ l -> y ∈ l -> P x y -> f x = Some x' -> f y = Some y' -> Q x' y') ->
  StronglySorted P l -> StronglySorted Q (omap f l).
Proof.
  intros HPQ Hl. revert HPQ. induction Hl as [|x l Hl IH Hx]; intros HPQ; [constructor|].
  assert (IH' : StronglySorted Q (omap f l)) by (apply IH; intros; eapply HPQ; eauto; by right).
  cbn. destruct (f x) as [x'|] eqn:E; [|done]. constructor; [done|]. apply Forall_forall. rewrite Forall_forall in Hx.
  intros y' (y & Hy & Ey)%list_elem_of_omap. eapply HPQ; eauto; [left|by right].
Qed.

(** At most one element satisfies a condition: a filter keeps at most one. *)
Lemma filter_at_most_one {A} (P : A -> Prop) `{!forall x, Decision (P x)} l :
  NoDup l -> (forall x y, x ∈ l -> y ∈ l -> P x -> P y -> x = y) ->
  (forall x, x ∈ l -> ~ P x) /\ base.filter P l = [] \/ exists x, x ∈ l /\ P x /\ base.filter P l = [x].
Proof.
  intros Hn Hu. pose proof (NoDup_filter P _ Hn) as Hf. destruct (base.filter P l) as [|x [|y l']] eqn:E.
  - left. split; [|done]. intros x Hx Hp. assert (Hin : x ∈ base.filter P l) by by apply list_elem_of_filter.
    rewrite E in Hin. by apply elem_of_nil in Hin.
  - right. exists x. assert (Hin : x ∈ base.filter P l) by (rewrite E; left). apply list_elem_of_filter in Hin as [? ?]. auto.
  - exfalso. assert (Hx : x ∈ base.filter P l) by (rewrite E; left). assert (Hy : y ∈ base.filter P l) by (rewrite E; right; left).
    apply list_elem_of_filter in Hx as [? ?], Hy as [? ?]. apply NoDup_cons in Hf as [Hx _]. apply Hx.
    rewrite (Hu x y) by done. left.
Qed.

Section Parts.
Context {R : Type}.
Implicit Types (parts : list (part R)) (p q : part R).

Lemma sorted_before parts j k p q : ranges_sorted parts -> (j, p) ∈ indexed parts -> (k, q) ∈ indexed parts -> j < k -> before p q.
Proof.
  intros [Hs _] [Hj Hp]%elem_of_indexed [Hk Hq]%elem_of_indexed Hlt.
  assert (Hlt' : (Z.to_nat j < Z.to_nat k)%nat) by lia. clear Hlt Hj Hk. revert Hp Hq Hlt'. generalize (Z.to_nat j) (Z.to_nat k).
  induction Hs as [|x l Hs IH Hx]; intros j' k' Hp Hq Hlt; [by rewrite lookup_nil in Hp|].
  destruct k' as [|k']; [lia|]. destruct j' as [|j']; [|apply (IH j' k'); [done|done|lia]].
  injection Hp as ->. rewrite Forall_forall in Hx. by apply Hx, (list_elem_of_lookup_2 _ k').
Qed.

(** Where an id may be put: above the lower parts, below the higher ones; the
    first part takes all that lies below it. *)
Definition zone parts (k i : Z) : Prop :=
  (forall j q mn, (j, q) ∈ indexed parts -> k < j -> min_id q = Some mn -> i < mn) /\
  (0 < k -> exists p mn, (k, p) ∈ indexed parts /\ min_id p = Some mn /\ mn <= i).

Lemma zone_own parts k p mn mx i : ranges_sorted parts -> (k, p) ∈ indexed parts -> range_of p mn mx -> mn <= i <= mx ->
  zone parts k i.
Proof.
  intros Hs Hp (Hmn & Hmx & _) Hi. split.
  - intros j q mn' Hq Hlt Hmn'. destruct (sorted_before _ _ _ _ _ Hs Hp Hq Hlt) as (a & b & Ha & Hb & Hab).
    rewrite Hmx in Ha. rewrite Hmn' in Hb. injection Ha as <-. injection Hb as <-. lia.
  - intros _. exists p, mn. split; [done|]. split; [done|lia].
Qed.
Lemma zone_apart parts j k i i' : zone parts j i -> zone parts k i' -> 0 <= j -> j < k -> i < i'.
Proof.
  intros [Hi _] [_ Hi'] Hj Hlt. destruct (Hi' ltac:(lia)) as (p & mn & Hp & Hmn & Hle).
  specialize (Hi _ _ _ Hp Hlt Hmn). lia.
Qed.

Lemma nearest_lower_None i (l : list (Z * part R)) : nearest_lower i l = None ->
  forall k p mx, (k, p) ∈ l -> max_id p = Some mx -> i <= mx.
Proof.
  induction l as [|[k0 p0] l IH]; intros E k p mx Hin Hmx; [by apply elem_of_nil in Hin|]. cbn [nearest_lower] in E.
  apply elem_of_cons in Hin as [[= <- <-]|Hin].
  - rewrite Hmx in E. destruct (Z.ltb_spec mx i); [|lia]. by destruct (nearest_lower i l) as [[? ?]|]; [destruct (_ <? _)|].
  - apply (IH) with (k := k) (p := p); [|done|done]. destruct (max_id p0); [|done]. destruct (_ <? i); [|done].
    by destruct (nearest_lower i l) as [[? ?]|]; [destruct (_ <? _)|].
Qed.
Lemma nearest_lower_Some i (l : list (Z * part R)) k mx : nearest_lower i l = Some (k, mx) ->
  (exists p, (k, p) ∈ l /\ max_id p = Some mx) /\ mx < i /\
  forall k' p' mx', (k', p') ∈ l -> max_id p' = Some mx' -> mx' < i -> mx' <= mx.
Proof.
  revert k mx. induction l as [|[k0 p0] l IH]; intros k mx E; [done|]. cbn [nearest_lower] in E.
  assert (Hskip : nearest_lower i l = Some (k, mx) -> (forall mx', max_id p0 = Some mx' -> mx' < i -> mx' <= mx) -> 
    (exists p, (k, p) ∈ (k0, p0) :: l /\ max_id p = Some mx) /\ mx < i /\
    forall k' p' mx', (k', p') ∈ (k0, p0) :: l -> max_id p' = Some mx' -> mx' < i -> mx' <= mx).
  { intros ((p & Hp & Hmx) & Hlt & Hmax)%IH H0. split; [exists p; split; [by right|done]|]. split; [done|].
    intros k' p' mx' [[= -> ->]|Hin]%elem_of_cons; [apply H0|by apply (Hmax k')]. }
  destruct (max_id p0) as [mx0|] eqn:E0; [|by apply Hskip].
  destruct (Z.ltb_spec mx0 i) as [Hlt0|Hge0]; [|apply Hskip; [done|]; intros ? [= <-]; lia].
  destruct (nearest_lower i l) as [[k1 mx1]|] eqn:E1.
  - destruct (Z.ltb_spec mx0 mx1) as [Hlt|Hge]; injection E as <- <-; [apply Hskip; [done|]; intros ? [= <-]; lia|].
    destruct (IH _ _ eq_refl) as (_ & _ & Hmax). split; [exists p0; split; [left|done]|]. split; [done|].
    intros k' p' mx' [[= -> ->]|Hin]%elem_of_cons Hmx' Hlt'; [rewrite E0 in Hmx'; injection Hmx' as <-; lia|].
    specialize (Hmax _ _ _ Hin Hmx' Hlt'). lia.
  - injection E as <- <-. split; [exists p0; split; [left|done]|]. split; [done|].
    intros k' p' mx' [[= -> ->]|Hin]%elem_of_cons Hmx' Hlt'; [rewrite E0 in Hmx'; injection Hmx' as <-; lia|].
    pose proof (nearest_lower_None _ _ E1 _ _ _ Hin Hmx'). lia.
Qed.

(** * The part of an id *)
Lemma target_part_spec parts i : ranges_sorted parts -> parts <> [] ->
  exists k p, target_part parts i = Ok (Some k) /\ (k, p) ∈ indexed parts /\ zone parts k i /\
    forall j q, (j, q) ∈ indexed parts -> between i q = true -> j = k.
Proof.
  intros Hs Hne.
  assert (Hbetween : forall q, between i q = true <-> exists mn mx, min_id q = Some mn /\ max_id q = Some mx /\ mn <= i <= mx).
  { intros q. unfold between. destruct (min_id q), (max_id q); rewrite ?andb_true_iff, ?Z.leb_le; naive_solver. }
  assert (Hone : forall j q j' q', (j, q) ∈ indexed parts -> (j', q') ∈ indexed parts ->
            between i q = true -> between i q' = true -> j = j').
  { intros j q j' q' Hq Hq' (mn & mx & H1 & H2 & H3)%Hbetween (mn' & mx' & H1' & H2' & H3')%Hbetween.
    destruct (Z.lt_trichotomy j j') as [Hlt|[?|Hlt]]; [|done|]; exfalso.
    - destruct (sorted_before _ _ _ _ _ Hs Hq Hq' Hlt) as (a & b & Ha & Hb & Hab). simplify_eq. lia.
    - destruct (sorted_before _ _ _ _ _ Hs Hq' Hq Hlt) as (a & b & Ha & Hb & Hab). simplify_eq. lia. }
  assert (Hnodup : NoDup (indexed parts)).
  { apply (NoDup_fmap_1 fst). unfold indexed. rewrite fst_zip by (rewrite length_seqZ; lia). apply NoDup_seqZ. }
  assert (Hsame : forall j q q', (j, q) ∈ indexed parts -> (j, q') ∈ indexed parts -> q = q').
  { intros j q q' [_ H1]%elem_of_indexed [_ H2]%elem_of_indexed. congruence. }
  unfold target_part.
  destruct (filter_at_most_one (fun x : Z * part R => between i x.2 = true) (indexed parts) Hnodup) as
    [[Hno E]|((k & p) & Hp & Hb & E)].
  { intros [j q] [j' q'] Hq Hq' Hb Hb'. pose proof (Hone _ _ _ _ Hq Hq' Hb Hb') as ->. f_equal. eauto. }
  - rewrite E. cbn [map scalar res_bind]. destruct (nearest_lower i (indexed parts)) as [[k mx]|] eqn:El.
    + apply nearest_lower_Some in El as ((p & Hp & Hmx) & Hlt & Hmax). exists k, p. split_and!; [done|done| |].
      * split.
        -- intros j q mn Hq Hkj Hmn. destruct (rs_range _ Hs q) as (mn' & mx' & H1 & H2 & H3); [by eapply elem_of_indexed_2|].
           rewrite Hmn in H1. injection H1 as <-. destruct (Z.le_gt_cases mn i) as [Hle|]; [exfalso|done].
           destruct (Z.le_gt_cases i mx') as [Hle'|Hgt].
           ++ apply (Hno _ Hq). apply Hbetween. eauto 6.
           ++ specialize (Hmax _ _ _ Hq H2 ltac:(lia)). destruct (sorted_before _ _ _ _ _ Hs Hp Hq Hkj) as (a & b & Ha & Hb & Hab).
              simplify_eq. lia.
        -- intros _. destruct (rs_range _ Hs p) as (mn' & mx' & H1 & H2 & H3); [by eapply elem_of_indexed_2|].
           exists p, mn'. simplify_eq. split_and!; [done|done|lia].
      * intros j q Hq Hb. by destruct (Hno _ Hq).
    + destruct parts as [|p parts']; [done|]. exists 0, p. rewrite head_indexed. split_and!; [done|by apply elem_of_indexed| |].
      * split; [|lia]. intros j q mn Hq _ Hmn.
        destruct (rs_range _ Hs q) as (mn' & mx' & H1 & H2 & H3); [by eapply elem_of_indexed_2|]. simplify_eq.
        destruct (Z.le_gt_cases mn i) as [Hle|]; [exfalso|done].
        destruct (Z.le_gt_cases i mx') as [Hle'|Hgt]; [apply (Hno _ Hq), Hbetween; eauto 6|].
        pose proof (nearest_lower_None _ _ El _ _ _ Hq H2). lia.
      * intros j q Hq Hb. by destruct (Hno _ Hq).
  - rewrite E. cbn [map scalar res_bind fst]. exists k, p. split_and!; [done|done| |].
    + apply Hbetween in Hb as (mn & mx & H1 & H2 & H3). apply (zone_own _ k p mn mx); [done|done| |done]. split; [done|split; [done|lia]].
    + intros j q Hq Hbq. eauto.
Qed.
(** * Rewriting parts *)
Context (col : R -> Z).

Lemma file_part_spec l p : file_part col l = Some p ->
  p_rows p = l /\ exists i i', i ∈ map col l /\ i' ∈ map col l /\ range_of p i i' /\ forall r, r ∈ l -> i <= col r <= i'.
Proof.
  unfold file_part, _parquet_id_range. destruct l as [|r l]; [done|]. cbn [map]. intros [= <-]. split; [done|].
  exists (min_of (col r) (map col l)), (max_of (col r) (map col l)). split_and!; [apply min_of_in|apply max_of_in| |].
  - split; [done|split; [done|]]. transitivity (col r); [apply min_of_le|apply max_of_ge]; left.
  - intros r' Hr'. split; [apply min_of_le|apply max_of_ge]; by apply (elem_of_map_2 col (r :: l)).
Qed.
Lemma file_part_None l : file_part col l = None -> l = [].
Proof. unfold file_part. destruct l; [done|]. by destruct (_parquet_id_range _ _). Qed.

Context parts (Hs : ranges_sorted parts) (Hr : in_range col parts).
Context (touched : list Z) (rewritten : Z -> part R -> list R).
Hypothesis Hzone : forall k p r, (k, p) ∈ indexed parts -> mem k touched = true -> r ∈ rewritten k p -> zone parts k (col r).

Definition new_rows (k : Z) (p : part R) : list R := if mem k touched then rewritten k p else p_rows p.
Definition new_part (kp : Z * part R) : option (part R) :=
  if mem kp.1 touched then file_part col (rewritten kp.1 kp.2) else Some kp.2.

Lemma rewrite_parts_omap : rewrite_parts col touched rewritten parts = omap new_part (indexed parts).
Proof. unfold rewrite_parts. clear. induction (indexed parts) as [|x l IH]; [done|]. cbn. by rewrite IH. Qed.

Lemma new_part_spec k p q : (k, p) ∈ indexed parts -> new_part (k, p) = Some q ->
  p_rows q = new_rows k p /\ exists mn mx, range_of q mn mx /\ zone parts k mn /\ zone parts k mx /\
    forall r, r ∈ p_rows q -> mn <= col r <= mx.
Proof.
  intros Hp. unfold new_part, new_rows. cbn [fst snd]. destruct (mem k touched) eqn:Et.
  - intros (E & i & i' & Hi & Hi' & Hrange & Hall)%file_part_spec. split; [done|]. exists i, i'.
    apply elem_of_map in Hi as (r & -> & Hin), Hi' as (r' & -> & Hin').
    split_and!; [done|by apply (Hzone k p)|by apply (Hzone k p)|]. by rewrite E.
  - intros [= <-]. split; [done|]. destruct (rs_range _ Hs p) as (mn & mx & Hrange); [by eapply elem_of_indexed_2|].
    exists mn, mx. pose proof Hrange as (Hmn & Hmx & Hle). split_and!; [done| | |].
    + apply (zone_own _ k p mn mx); [done..|lia].
    + apply (zone_own _ k p mn mx); [done..|lia].
    + intros r Hin. destruct (Hr p r) as (mn' & mx' & H1 & H2 & H3); [by eapply elem_of_indexed_2|done|]. by simplify_eq.
Qed.

(** The rows of the new parts are the rows of every rewritten or kept part. *)
Lemma elem_of_rewrite_parts r : r ∈ read_parts (rewrite_parts col touched rewritten parts) <->
  exists k p, (k, p) ∈ indexed parts /\ r ∈ new_rows k p.
Proof.
  rewrite elem_of_read_parts, rewrite_parts_omap. setoid_rewrite list_elem_of_omap. split.
  - intros (q & ([k p] & Hp & Hq) & Hin). exists k, p. split; [done|].
    destruct (new_part_spec _ _ _ Hp Hq) as [E _]. by rewrite <- E.
  - intros (k & p & Hp & Hin). destruct (new_part (k, p)) as [q|] eqn:Hq.
    + exists q. split; [by exists (k, p)|]. destruct (new_part_spec _ _ _ Hp Hq) as [E _]. by rewrite E.
    + exfalso. unfold new_part, new_rows in *. cbn [fst snd] in Hq. destruct (mem k touched); [|done].
      rewrite (file_part_None _ Hq) in Hin. by apply elem_of_nil in Hin.
Qed.

Lemma rewrite_parts_sorted : ranges_sorted (rewrite_parts col touched rewritten parts).
Proof.
  rewrite rewrite_parts_omap. split.
  - apply (strongly_sorted_omap (fun x y => x.1 < y.1)); [|apply indexed_sorted].
    intros [j p] [k q] p' q' Hp Hq Hlt Hp' Hq'. cbn in Hlt.
    destruct (new_part_spec _ _ _ Hp Hp') as (_ & mn & mx & (_ & Hmx & _) & _ & Hz & _).
    destruct (new_part_spec _ _ _ Hq Hq') as (_ & mn' & mx' & (Hmn' & _ & _) & Hz' & _ & _).
    exists mx, mn'. split_and!; [done|done|]. apply (zone_apart parts j k); [done|done| |done].
    by apply elem_of_indexed in Hp as [? _].
  - intros q ([k p] & Hp & Hq)%list_elem_of_omap.
    destruct (new_part_spec _ _ _ Hp Hq) as (_ & mn & mx & Hrange & _). eauto.
Qed.

Lemma rewrite_parts_in_range : in_range col (rewrite_parts col touched rewritten parts).
Proof.
  intros q r Hq Hin. rewrite rewrite_parts_omap in Hq. apply list_elem_of_omap in Hq as ([k p] & Hp & Hq).
  destruct (new_part_spec _ _ _ Hp Hq) as (_ & mn & mx & (Hmn & Hmx & _) & _ & _ & Hall). exists mn, mx. auto.
Qed.
End Parts.

(** Parts with disjoint ranges hold an id once if each of them does. *)
Lemma unique_parts {R} `{Keyed R} (parts : list (part R)) : ranges_sorted parts -> in_range id_of parts ->
  (forall p, p ∈ parts -> unique (p_rows p)) -> unique (read_parts parts).
Proof.
  intros [Hs Hrg] Hr Hu. unfold unique, ids, read_parts in *. induction Hs as [|p l Hs IH Hp]; [constructor|].
  cbn [flat_map]. rewrite map_app. apply NoDup_app. split_and!.
  - apply Hu. left.
  - intros i (r & -> & Hin)%elem_of_map (r' & E & Hin')%elem_of_map. apply (elem_of_read_parts l) in Hin' as (q & Hq & Hin').
    destruct (Hr p r) as (mn & mx & Hmn & Hmx & Hb); [left|done|].
    destruct (Hr q r') as (mn' & mx' & Hmn' & Hmx' & Hb'); [by right|done|].
    rewrite Forall_forall in Hp. destruct (Hp q Hq) as (a & b & Ha & Hb'' & Hab). simplify_eq. lia.
  - apply IH; [intros q Hq; apply Hrg; by right|intros q r Hq; apply Hr; by right|intros q Hq; apply Hu; by right].
Qed.

(** * Replacing the rows of a set of keys *)
Section Replace.
Context {R : Type} (col : R -> Z) (old : list (part R)).
Hypothesis Hs : ranges_sorted old.
Hypothesis Hr : in_range col old.
Hypothesis Hne : old <> [].

(** The part of a key. *)
Definition part_of (i : Z) : option Z := match target_part old i with Ok k => k | Raise _ => None end.

Lemma part_of_spec i : exists k, target_part old i = Ok (Some k) /\ part_of i = Some k.
Proof. unfold part_of. destruct (target_part_spec old i Hs Hne) as (k & p & E & _). rewrite E. eauto. Qed.
Lemma part_of_zone i k : part_of i = Some k -> exists p, (k, p) ∈ indexed old /\ zone old k i /\
  forall j q, (j, q) ∈ indexed old -> between i q = true -> j = k.
Proof.
  destruct (target_part_spec old i Hs Hne) as (k' & p & E & H1 & H2 & H3). unfold part_of. rewrite E. intros [= <-]. eauto.
Qed.

Context (keys touched : list Z) (new : R -> Prop) (rewritten : Z -> part R -> list R).
Hypothesis Htouched : forall k, k ∈ touched <-> exists i, i ∈ keys /\ part_of i = Some k.
Hypothesis Hrewritten : forall k p r, r ∈ rewritten k p <->
  (r ∈ p_rows p /\ col r ∉ keys) \/ (new r /\ col r ∈ keys /\ part_of (col r) = Some k).

Lemma replace_zone k p r : (k, p) ∈ indexed old -> mem k touched = true -> r ∈ rewritten k p -> zone old k (col r).
Proof.
  intros Hp _ [[Hin _]|(_ & _ & Ek)]%Hrewritten.
  - destruct (Hr p r) as (mn & mx & H1 & H2 & H3); [by eapply elem_of_indexed_2|done|].
    apply (zone_own _ k p mn mx); [done|done| |done]. split; [done|split; [done|lia]].
  - by destruct (part_of_zone _ _ Ek) as (_ & _ & Hz & _).
Qed.

Lemma elem_of_replaced r : r ∈ read_parts (rewrite_parts col touched rewritten old) <->
  (r ∈ read_parts old /\ col r ∉ keys) \/ (new r /\ col r ∈ keys).
Proof.
  rewrite (elem_of_rewrite_parts col old Hs Hr) by apply replace_zone. rewrite elem_of_read_parts. unfold new_rows. split.
  - intros (k & p & Hp & Hin). pose proof (elem_of_indexed_2 _ _ _ Hp) as Hp'. destruct (mem k touched) eqn:Et.
    + apply Hrewritten in Hin as [[Hin Hno]|(Hn & Hk & _)]; [left|right]; eauto.
    + left. split; [eauto|]. intros Hk. destruct (part_of_spec (col r)) as (k' & _ & Ek').
      destruct (part_of_zone _ _ Ek') as (_ & _ & _ & Hone).
      destruct (Hr p r) as (mn & mx & H1 & H2 & H3); [done|done|].
      assert (k = k').
      { apply (Hone k p); [done|]. unfold between. rewrite H1, H2, andb_true_iff, !Z.leb_le. done. }
      subst k'. apply mem_false in Et. apply Et, Htouched. eauto.
  - intros [[(p & Hp & Hin) Hno]|(Hn & Hk)].
    + destruct (indexed_elem _ _ Hp) as [k Hk]. exists k, p. split; [done|].
      destruct (mem k touched); [apply Hrewritten; auto|done].
    + destruct (part_of_spec (col r)) as (k & _ & Ek). destruct (part_of_zone _ _ Ek) as (p & Hp & _). exists k, p.
      split; [done|]. rewrite (proj2 (mem_spec _ _)) by (apply Htouched; eauto). apply Hrewritten. auto.
Qed.

Lemma replaced_ok : ranges_sorted (rewrite_parts col touched rewritten old) /\ in_range col (rewrite_parts col touched rewritten old).
Proof.
  split; [apply rewrite_parts_sorted; [done|done|apply replace_zone]|].
  apply (rewrite_parts_in_range col); [done|done|apply replace_zone].
Qed.
End Replace.

(** * The winners *)
Section Winners.
Context (kind : tables columns columns -> list (delta_row columns)) (Hkind : kind no_tables = []).
Implicit Types (ds : deltas columns columns).

Definition kfound (m : option (tier columns columns)) typ i : option (delta_row columns) := find_id i (kind (layer m typ)).
Definition knewest ds typ i := first_of (kfound (hour ds) typ i) (kfound (day ds) typ i) (kfound (week ds) typ i).

Lemma winners_spec ds typ :
  (forall m, m = hour ds \/ m = day ds \/ m = week ds -> unique (kind (layer m typ))) ->
  match _build_winners kind ds typ with
  | None => hour ds = None /\ day ds = None /\ week ds = None
  | Some w => unique w /\ forall i, find_id i w = knewest ds typ i
  end.
Proof.
  intros Hu. unfold _build_winners.
  set (paths := _delta_paths kind ds typ). set (ts := map (fun p => (- p.2, p.1)) paths).
  assert (Ef : flat_map (fun p : list (delta_row columns) * Z => map (pair (- p.2)) p.1) paths = flat ts).
  { unfold ts, flat. induction paths as [|p l IH]; [done|]. cbn. by rewrite IH. }
  assert (Hts : tiers_ok ts /\ forall i, newest i ts = knewest ds typ i).
  { unfold ts, paths, _delta_paths, knewest, kfound.
    pose proof (Hu (hour ds) ltac:(tauto)) as H1. pose proof (Hu (day ds) ltac:(tauto)) as H2.
    pose proof (Hu (week ds) ltac:(tauto)) as H3. clear Hu. cbn [TIER_ORDER zip zip_with].
    destruct (hour ds) as [h|], (day ds) as [d|], (week ds) as [x|]; cbn; rewrite ?Hkind;
      (split; [split; repeat first [apply SSorted_nil | apply SSorted_cons | apply Forall_nil_2 | apply Forall_cons_2];
               cbn; try done; lia
              |intros i; cbn; by repeat (destruct (find_id i (kind _)))]). }
  destruct paths as [|p l] eqn:Ep.
  - clear -Ep. subst paths. unfold _delta_paths, TIER_ORDER in Ep. by destruct (hour ds), (day ds), (week ds).
  - rewrite Ef. split; [apply unique_qualify|]. intros i. destruct Hts as [Hok Hn]. by rewrite find_id_qualify.
Qed.
End Winners.

Lemma alive_rows (w : list (delta_row columns)) i : unique w ->
  find_id i (map project (base.filter (fun r => deleted r = false) w)) = (find_id i w ≫= fun r => over (Some r) None).
Proof.
  intros Hw. rewrite find_id_map_key by done. rewrite find_id_filter by done.
  destruct (find_id i w) as [r|]; [|done]. cbn. by destruct (deleted r).
Qed.

(** A list of rows in which each id has the row [over] gives it. *)
Definition folded (w : list (delta_row columns)) (old : list base_columns) i : option base_columns :=
  over (find_id i w) (find_id i old).

Lemma elem_of_folded (w : list (delta_row columns)) (old new : list base_columns) : unique w -> unique old -> unique new ->
  (forall r, r ∈ new <-> (r ∈ old /\ b_id r ∉ ids w) \/ exists x, x ∈ w /\ deleted x = false /\ project x = r) ->
  forall i, find_id i new = folded w old i.
Proof.
  intros Hw Hold Hnew Hr i. unfold folded. apply option_eq. intros r. rewrite <- unique_elem, Hr by done.
  destruct (find_id i w) as [x|] eqn:E; cbn [over].
  - split.
    + intros [[[_ Hno]|(y & Hy & Hd & <-)] <-].
      * exfalso. apply Hno. apply find_id_is_Some. by exists x.
      * rewrite (find_id_unique _ y Hw Hy : find_id (id_of (project y)) w = Some y) in E. injection E as <-. by rewrite Hd.
    + destruct (deleted x) eqn:Ed; [done|]. intros [= <-]. apply find_id_Some in E as [Hx E]. split; [|done]. right. eauto.
  - pose proof (proj1 (find_id_None _ _) E) as Hno. rewrite <- unique_elem by done. split.
    + intros [[[Hin _]|(y & Hy & Hd & <-)] <-]; [done|]. exfalso. apply Hno. by apply (elem_of_map_2 r_id).
    + intros [Hin <-]. auto.
Qed.

Lemma select_all {D} (l : list (base_row D)) : select (fun _ => true) l = l.
Proof. unfold select. induction l as [|x l IH]; [done|]. rewrite filter_cons. rewrite decide_True by done. by rewrite IH. Qed.

(** * Files by id *)
Lemma is_target_spec k t : is_target k t = true <-> t = Some k.
Proof. destruct t as [j|]; cbn; [rewrite Z.eqb_eq|]; naive_solver. Qed.

Section ById.
Context (old : list (part base_columns)).
Hypothesis Hs : ranges_sorted old.
Hypothesis Hr : in_range b_id old.
Hypothesis Hu : unique (read_parts old).

Lemma unique_part p : p ∈ old -> unique (p_rows p).
Proof.
  clear -Hu. unfold unique, ids, read_parts in *. induction old as [|q l IH]; intros Hp; [by apply elem_of_nil in Hp|].
  cbn [flat_map] in Hu. rewrite map_app in Hu. apply NoDup_app in Hu as (H1 & _ & H3).
  apply elem_of_cons in Hp as [->|Hp]; auto.
Qed.

Lemma unique_file_part (l : list base_columns) : unique l -> unique (read_parts (option_list (file_part b_id l))).
Proof.
  intros Hl. destruct (file_part b_id l) as [p|] eqn:E; [|constructor]. apply file_part_spec in E as [E _].
  cbn. by rewrite app_nil_r, E.
Qed.

Variable w : list (delta_row columns).
Hypothesis Hw : unique w.

Abbreviation target x := (part_of old (r_id x)).
Context (Hne : old <> []).

Lemma compact_assign_total : _assign_target_parts old w = Ok (map (fun x => (target x, x)) w).
Proof.
  unfold _assign_target_parts. clear Hw. induction w as [|x l IH]; [done|]. cbn [res_mapM map]. rewrite IH.
  destruct (part_of_spec old Hs Hne (r_id x)) as (k & E & Et). by rewrite Et, E.
Qed.

Definition byid_rows (k : Z) (p : part base_columns) : list base_columns :=
  where_not_in (ids w) (p_rows p) ++
  map project (base.filter (fun r => deleted r = false)
    (map snd (base.filter (fun x => is_target k x.1 = true) (map (fun x => (target x, x)) w)))).

Lemma targeted k : map snd (base.filter (fun x : option Z * delta_row columns => is_target k x.1 = true) (map (fun x => (target x, x)) w)) =
  base.filter (fun x => is_target k (target x) = true) w.
Proof.
  clear Hw. induction w as [|x l IH]; [done|]. cbn [map]. rewrite !filter_cons. cbn [fst].
  destruct (decide (is_target k (target x) = true)); cbn [map snd]; by rewrite IH.
Qed.

(** The rows the winners bring. *)
Definition brought (r : base_columns) : Prop := exists x, x ∈ w /\ deleted x = false /\ project x = r.
Lemma brought_key r : brought r -> b_id r ∈ ids w.
Proof. intros (x & Hx & _ & <-). by apply (elem_of_map_2 r_id). Qed.

Lemma elem_of_byid_rows k p r : r ∈ byid_rows k p <->
  (r ∈ p_rows p /\ b_id r ∉ ids w) \/ (brought r /\ b_id r ∈ ids w /\ part_of old (b_id r) = Some k).
Proof.
  unfold byid_rows. rewrite elem_of_app, elem_of_where_not_in, targeted, (elem_of_map project).
  repeat setoid_rewrite list_elem_of_filter. setoid_rewrite is_target_spec. split.
  - intros [?|(x & -> & Hd & Ht & Hx)]; [by left|]. right.
    assert (Hb : brought (project x)) by (exists x; done). split_and!; [done|by apply brought_key|done].
  - intros [?|((x & Hx & Hd & <-) & _ & Ht)]; [by left|]. right. exists x. done.
Qed.

Lemma unique_byid_rows k p : p ∈ old -> unique (byid_rows k p).
Proof.
  intros Hp. unfold byid_rows. rewrite targeted.
  rewrite <- (select_all (map project _)).
  apply (unique_read (base.filter (fun x => is_target k (target x) = true) w) (ids w) (fun _ => true)).
  - by apply unique_filter.
  - by apply unique_part.
  - apply ids_filter_sub.
Qed.

Definition touched_parts : list Z := omap fst (map (fun x => (target x, x)) w).
Lemma elem_of_touched_parts k : k ∈ touched_parts <-> exists i, i ∈ ids w /\ part_of old i = Some k.
Proof.
  unfold touched_parts. rewrite list_elem_of_omap. setoid_rewrite (elem_of_map (fun x => (target x, x))). split.
  - intros (y & (x & -> & Hx) & E). exists (r_id x). split; [by apply (elem_of_map_2 r_id)|done].
  - intros (i & (x & -> & Hx)%elem_of_map & E). exists (target x, x). eauto.
Qed.

Abbreviation folded_parts := (rewrite_parts b_id touched_parts byid_rows old).
Lemma elem_of_new_byid r : r ∈ read_parts folded_parts <->
  (r ∈ read_parts old /\ b_id r ∉ ids w) \/ brought r.
Proof.
  rewrite (elem_of_replaced b_id old Hs Hr Hne (ids w) touched_parts brought byid_rows elem_of_touched_parts elem_of_byid_rows).
  pose proof (brought_key r). tauto.
Qed.
Lemma folded_ok : ranges_sorted folded_parts /\ in_range b_id folded_parts.
Proof. apply (replaced_ok b_id old Hs Hr Hne (ids w) touched_parts brought byid_rows elem_of_byid_rows). Qed.

Lemma unique_new_byid : unique (read_parts folded_parts).
Proof.
  apply unique_parts; [apply folded_ok..|].
  intros q Hq. rewrite rewrite_parts_omap in Hq by done. apply list_elem_of_omap in Hq as ([k p] & Hp & Hq).
  pose proof (replace_zone b_id old Hs Hr Hne (ids w) touched_parts brought byid_rows elem_of_byid_rows) as Hz.
  destruct (new_part_spec b_id old Hs Hr touched_parts byid_rows Hz _ _ _ Hp Hq) as [E _]. rewrite E. unfold new_rows.
  apply elem_of_indexed_2 in Hp. destruct (mem k touched_parts); [by apply unique_byid_rows|by apply unique_part].
Qed.
End ById.

(** A table by id is folded exactly. *)
Lemma compact_byid_spec (old : list (part base_columns)) winners :
  ranges_sorted old -> in_range b_id old -> unique (read_parts old) ->
  (forall w, winners = Some w -> unique w) ->
  exists new, _compact_byid_table old winners = Ok new /\
    ranges_sorted new /\ in_range b_id new /\ unique (read_parts new) /\
    forall i, find_id i (read_parts new) = folded (default [] winners) (read_parts old) i.
Proof.
  intros Hs Hr Hu Hw. destruct winners as [w|]; [|by exists old]. specialize (Hw w eq_refl). cbn [_compact_byid_table default].
  destruct old as [|p0 old'].
  - set (rows := map project _). assert (Hrows : unique rows).
    { unfold rows. rewrite <- (select_all (map project _)). by apply (unique_alive w (fun _ => true)). }
    exists (option_list (file_part b_id rows)). split; [done|]. pose proof (unique_file_part rows Hrows) as Hu'.
    assert (Hfind : forall i, find_id i (read_parts (option_list (file_part b_id rows))) = folded w [] i).
    { intros i. transitivity (find_id i rows).
      - destruct (file_part b_id rows) as [p|] eqn:E; [|by rewrite (file_part_None _ _ E)].
        apply file_part_spec in E as [E _]. cbn. by rewrite app_nil_r, E.
      - unfold rows, folded. rewrite alive_rows by done. by destruct (find_id i w). }
    destruct (file_part b_id rows) as [p|] eqn:E; cbn [option_list] in *.
    + apply file_part_spec in E as (E & i & i' & _ & _ & Hrange & Hall). split_and!; [| |done|done].
      * split; [repeat constructor|]. intros q ->%list_elem_of_singleton. eauto.
      * intros q r ->%list_elem_of_singleton Hin. destruct Hrange as (? & ? & _). exists i, i'. rewrite E in Hin. auto.
    + split_and!; [| |done|done]; [split; [constructor|]|]; by intros q Hq%elem_of_nil || intros q r Hq%elem_of_nil.
  - set (old := p0 :: old') in *. assert (Hne : old <> []) by done.
    rewrite (compact_assign_total old Hs w Hne). cbn [res_bind]. eexists. split; [reflexivity|].
    fold (touched_parts old w). fold (byid_rows old w).
    destruct (folded_ok old Hs Hr w Hne) as [Hs' Hr']. split_and!; [done|done|by apply unique_new_byid|].
    apply elem_of_folded; [done|done|by apply unique_new_byid|]. intros r. by apply elem_of_new_byid.
Qed.

(** * Spatial tables *)
Section Spatial.
Context {T : Type} (rows : T -> list base_columns).
Context (f : option T -> bool -> pystr -> res (option T)).
Context (winners : option (list (delta_row columns))) (old : list (pystr * T)) (touched : list pystr).

Definition all_rows (cells : list (pystr * T)) : list base_columns := flat_map (fun e => rows e.2) cells.
Definition opt_rows (e : option T) : list base_columns := match e with Some e => rows e | None => [] end.
Abbreviation w := (default [] winners).

(** A cell keeps its rows, or loses the replaced ones and gets the new ones. *)
Hypothesis Hstep : forall o t c, (winners = None -> t = false) -> exists eo, f o t c = Ok eo /\
  opt_rows eo ≡ₚ if t : bool then where_not_in (ids w) (opt_rows o) ++ placed_in c w else opt_rows o.

Hypothesis Hkeys : NoDup (map fst old).
Hypothesis Hcell : forall c e r, (c, e) ∈ old -> r ∈ rows e -> b_cell r = Some c.
Hypothesis Hu : unique (all_rows old).
Hypothesis Hw : unique w.
Hypothesis Hnone : winners = None -> touched = [].
Hypothesis Hreplaced : forall r, r ∈ all_rows old -> b_id r ∈ ids w -> exists c, b_cell r = Some c /\ c ∈ touched.
Hypothesis Hnew : forall x, x ∈ w -> deleted x = false -> exists c, r_cell x = Some c /\ c ∈ touched.

Lemma elem_of_all_rows cells r : r ∈ all_rows cells <-> exists c e, (c, e) ∈ cells /\ r ∈ rows e.
Proof.
  unfold all_rows. rewrite list_elem_of_In, in_flat_map. setoid_rewrite <- list_elem_of_In. split.
  - intros ([c e] & He & Hr). eauto.
  - intros (c & e & He & Hr). by exists (c, e).
Qed.
Lemma dict_get_elem {A} c (d : list (pystr * A)) e : NoDup (map fst d) -> dict_get c d = Some e <-> (c, e) ∈ d.
Proof.
  induction d as [|[c' e'] d IH]; intros Hn; [split; [done|intros H%elem_of_nil; done]|].
  apply NoDup_cons in Hn as [Hc Hn]. cbn [dict_get]. rewrite elem_of_cons. destruct (c' =s c) eqn:Ec.
  - apply str_eqb_eq in Ec as ->. split; [intros [= ->]; by left|]. intros [[= ->]|Hin]; [done|].
    destruct Hc. by apply (elem_of_map_2 fst _ (c, e)).
  - rewrite IH by done. split; [by right|]. intros [[= -> ->]|?]; [by rewrite str_eqb_refl in Ec|done].
Qed.
Lemma opt_rows_old c r : r ∈ opt_rows (dict_get c old) <-> b_cell r = Some c /\ r ∈ all_rows old.
Proof.
  rewrite elem_of_all_rows. destruct (dict_get c old) as [e|] eqn:Ee; cbn [opt_rows].
  - apply dict_get_elem in Ee; [|done]. split; [intros Hr; split; [by apply (Hcell c e)|eauto]|].
    intros [Hc (c' & e' & He' & Hr)]. pose proof (Hcell _ _ _ He' Hr) as Hc'. rewrite Hc in Hc'. injection Hc' as <-.
    apply dict_get_elem in Ee, He'; [|done..]. by simplify_eq.
  - rewrite elem_of_nil. split; [done|]. intros [Hc (c' & e' & He' & Hr)]. pose proof (Hcell _ _ _ He' Hr) as Hc'.
    rewrite Hc in Hc'. injection Hc' as <-. apply dict_get_elem in He'; [|done]. by rewrite Ee in He'.
Qed.
Lemma elem_of_placed_in c r : r ∈ placed_in c w <-> b_cell r = Some c /\ exists x, x ∈ w /\ deleted x = false /\ project x = r.
Proof.
  unfold placed_in. rewrite (elem_of_map project). setoid_rewrite list_elem_of_filter. split.
  - intros (x & -> & [Hx Hd]%andb_true_iff & Hin). cbn. apply negb_true_iff in Hd. split; [|eauto].
    destruct (r_cell x) as [c'|]; [|done]. by apply str_eqb_eq in Hx as ->.
  - intros (Hc & x & Hin & Hd & <-). exists x. cbn in Hc. rewrite Hc, Hd, str_eqb_refl. done.
Qed.

(** The rows of the new generation. *)
Definition new_row (r : base_columns) : Prop :=
  (r ∈ all_rows old /\ b_id r ∉ ids w) \/ exists x, x ∈ w /\ deleted x = false /\ project x = r.

Lemma new_row_inj r r' : new_row r -> new_row r' -> b_id r = b_id r' -> r = r'.
Proof.
  intros [[H1 H2]|(x & Hx & _ & <-)] [[H1' H2']|(x' & Hx' & _ & <-)] E.
  - pose proof (find_id_unique _ _ Hu H1) as F. pose proof (find_id_unique _ _ Hu H1') as F'.
    change (id_of r) with (b_id r) in F. rewrite E in F. change (id_of r') with (b_id r') in F'. congruence.
  - destruct H2. rewrite E. by apply (elem_of_map_2 r_id).
  - destruct H2'. rewrite <- E. by apply (elem_of_map_2 r_id).
  - pose proof (find_id_unique _ x Hw Hx) as F. pose proof (find_id_unique _ x' Hw Hx') as F'.
    change (r_id x = r_id x') in E. change (id_of x) with (r_id x) in F. rewrite E in F. change (id_of x') with (r_id x') in F'. congruence.
Qed.

Lemma cell_step c : exists eo, f (dict_get c old) (str_in c touched) c = Ok eo /\
  (forall r, r ∈ opt_rows eo <-> b_cell r = Some c /\ new_row r) /\ unique (opt_rows eo).
Proof.
  destruct (Hstep (dict_get c old) (str_in c touched) c) as (eo & Eo & Hp).
  { intros ->%Hnone. done. }
  exists eo. split; [done|].
  assert (Hou : unique (opt_rows (dict_get c old))).
  { destruct (dict_get c old) as [e|] eqn:Ee; [|constructor]. apply dict_get_elem in Ee; [|done]. cbn.
    clear -Hu Ee. unfold unique, all_rows, ids in *. induction old as [|e0 l IH]; [by apply elem_of_nil in Ee|].
    cbn [flat_map] in Hu. rewrite map_app in Hu. apply NoDup_app in Hu as (H1 & _ & H3).
    apply elem_of_cons in Ee as [<-|Ee]; auto. }
  destruct (str_in c touched) eqn:Et.
  - split.
    + intros r. rewrite Hp, elem_of_app, elem_of_where_not_in, opt_rows_old, elem_of_placed_in. unfold new_row.
      change (id_of r) with (b_id r). tauto.
    + unfold unique, ids. rewrite Hp. rewrite map_app. apply NoDup_app. split_and!.
      * by apply (unique_filter (fun r => mem (id_of r) (ids w) = false)).
      * intros i (r & -> & [_ Hr]%elem_of_where_not_in)%elem_of_map (r' & E' & Hr')%elem_of_map.
        apply elem_of_placed_in in Hr' as (_ & x & Hx & _ & <-). apply Hr. rewrite E'. by apply (elem_of_map_2 r_id).
      * unfold placed_in. rewrite map_map. by apply (unique_filter (fun r : delta_row columns => _ = true)).
  - split.
    + intros r. rewrite Hp, opt_rows_old. unfold new_row. split; [intros [Hc Hr]; split; [done|]|intros [Hc [[Hr _]|(x & Hx & Hd & <-)]]; [done|]].
      * left. split; [done|]. intros Hin. destruct (Hreplaced _ Hr Hin) as (c' & Hc' & Hin'). rewrite Hc in Hc'. injection Hc' as <-.
        apply str_in_spec in Hin'. congruence.
      * exfalso. destruct (Hnew x Hx Hd) as (c' & Hc' & Hin'). cbn in Hc. rewrite Hc in Hc'. injection Hc' as <-.
        apply str_in_spec in Hin'. congruence.
    + unfold unique, ids. by rewrite Hp.
Qed.

Lemma compact_cells_Ok : exists new, compact_cells f old touched = Ok new /\ NoDup (map fst new) /\
  forall c e, (c, e) ∈ new <-> c ∈ map fst old ++ touched /\ f (dict_get c old) (str_in c touched) c = Ok (Some e).
Proof.
  unfold compact_cells. set (step := fun cell : pystr => f (dict_get cell old) (str_in cell touched) cell).
  assert (H : forall l, exists out, res_mapM (fun cell => res_map (fmap (pair cell)) (step cell)) l = Ok out /\
    (NoDup l -> NoDup (map fst (omap (fun x => x) out))) /\ forall c e, (c, e) ∈ omap (fun x => x) out <-> c ∈ l /\ step c = Ok (Some e)).
  { induction l as [|c l (out & Eo & Hn & Hin)].
    - exists []. split; [done|]. split; [constructor|]. intros c e. cbn. rewrite !elem_of_nil. tauto.
    - destruct (cell_step c) as (eo & Ec & _). exists ((pair c <$> eo) :: out). cbn [res_mapM]. fold (step c) in Ec.
      rewrite Eo, Ec. split; [done|]. split.
      + intros [Hc Hn']%NoDup_cons. specialize (Hn Hn'). destruct eo as [e|]; [|done]. cbn. apply NoDup_cons. split; [|done].
        intros ([c' e'] & -> & Hin')%elem_of_map. by apply Hin in Hin' as [? _].
      + intros c' e'. rewrite elem_of_cons. destruct eo as [e|]; cbn [fmap option_fmap option_map].
        * change (omap (fun x => x) (Some (c, e) :: out)) with ((c, e) :: omap (fun x => x) out). rewrite elem_of_cons, Hin. split.
          -- intros [[= -> ->]|[? ?]]; auto.
          -- intros [[->|?] E']; [left|right; done]. congruence.
        * change (omap (fun x => x) (None :: out)) with (omap (fun x : option (pystr * T) => x) out). rewrite Hin. split; [tauto|].
          intros [[->|?] E']; [congruence|done]. }
  destruct (H (sorted_set (map fst old ++ touched))) as (out & Eo & Hn & Hin). subst step. rewrite Eo. eexists. split; [done|]. split.
  - apply Hn, sorted_set_nodup.
  - intros c e. by rewrite Hin, elem_of_sorted_set.
Qed.

Lemma compact_spatial_spec : exists new, compact_cells f old touched = Ok new /\ NoDup (map fst new) /\
  (forall c e r, (c, e) ∈ new -> r ∈ rows e -> b_cell r = Some c) /\ unique (all_rows new) /\
  forall i, find_id i (all_rows new) = folded w (all_rows old) i.
Proof.
  destruct compact_cells_Ok as (new & En & Hn & Hin). exists new. split; [done|]. split; [done|].
  assert (Hrows : forall c e, (c, e) ∈ new -> unique (rows e) /\ forall r, r ∈ rows e <-> b_cell r = Some c /\ new_row r).
  { intros c e [_ Ee]%Hin. destruct (cell_step c) as (eo & Eo & Hr & Hun). rewrite Ee in Eo. injection Eo as <-. done. }
  assert (Hrow : forall c e r, (c, e) ∈ new -> r ∈ rows e -> b_cell r = Some c /\ new_row r).
  { intros c e r He Hr. by apply (Hrows c e He). }
  split; [intros c e r He Hr; by apply (Hrow c e)|].
  assert (Hun : unique (all_rows new)).
  { clear Hin En. unfold all_rows, unique, ids. induction new as [|[c e] l IH]; [constructor|].
    apply NoDup_cons in Hn as [Hc Hn]. cbn [flat_map]. rewrite map_app. apply NoDup_app. split_and!.
    - apply (Hrows c e). left.
    - intros i (r & -> & Hr)%elem_of_map (r' & Er & Hr')%elem_of_map. cbn [snd] in Hr.
      apply (elem_of_all_rows l) in Hr' as (c' & e' & He' & Hr'). destruct (Hrow c e r ltac:(left) Hr) as [Hrc Hn1].
      destruct (Hrow c' e' r' ltac:(by right) Hr') as [Hrc' Hn2]. pose proof (new_row_inj _ _ Hn1 Hn2 Er) as <-.
      rewrite Hrc in Hrc'. injection Hrc' as <-. apply Hc. by apply (elem_of_map_2 fst _ (c, e')).
    - apply IH; [done| |].
      + intros c' e' He'. apply Hrows. by right.
      + intros c' e' r' He'. apply (Hrow c' e'). by right. }
  split; [done|]. apply elem_of_folded; [done..|]. intros r. fold (new_row r). rewrite elem_of_all_rows. split.
  - intros (c & e & He & Hr). by apply (Hrow c e).
  - intros Hr. assert (Hc : exists c, b_cell r = Some c /\ c ∈ map fst old ++ touched).
    { destruct Hr as [[Hr _]|(x & Hx & Hd & <-)].
      - apply elem_of_all_rows in Hr as (c & e & He & Hr). exists c. split; [by apply (Hcell c e)|].
        apply elem_of_app. left. by apply (elem_of_map_2 fst _ (c, e)).
      - destruct (Hnew x Hx Hd) as (c & Hc & Hin'). exists c. rewrite elem_of_app. auto. }
    destruct Hc as (c & Hc & Hin'). destruct (cell_step c) as (eo & Eo & Hrs & _).
    pose proof (proj2 (Hrs r) (conj Hc Hr)) as Hre. destruct eo as [e|]; [|by apply elem_of_nil in Hre].
    exists c, e. split; [by apply Hin|done].
Qed.
End Spatial.

(** ** The two layouts *)
Section Steps.
Context (winners : option (list (delta_row columns))).
Abbreviation w := (default [] winners).

Lemma rows_replaced (t : bool) (l : list base_columns) : (winners = None -> t = false) -> t = true ->
  not_replaced winners l = Ok (where_not_in (ids w) l).
Proof. intros Hn ->. destruct winners; [done|]. by specialize (Hn eq_refl). Qed.
Lemma new_in_placed c : new_in c winners = placed_in c w.
Proof. by destruct winners. Qed.

Lemma flat_step o t c : (winners = None -> t = false) -> exists eo, compact_flat_cell o winners t c = Ok eo /\
  opt_rows f_rows eo ≡ₚ if t : bool then where_not_in (ids w) (opt_rows f_rows o) ++ placed_in c w else opt_rows f_rows o.
Proof.
  intros Hn. unfold compact_flat_cell. destruct t; cbn [negb]; [|by exists o]. rewrite new_in_placed.
  assert (E : match o with Some e => not_replaced winners (f_rows e) | None => Ok [] end = Ok (where_not_in (ids w) (opt_rows f_rows o))).
  { destruct o as [e|]; [|done]. by apply (rows_replaced true). }
  rewrite E. cbn [res_bind]. destruct (where_not_in _ _ ++ _) as [|r l] eqn:El; [by exists None|]. by eexists.
Qed.

Definition node_rows (e : node_entry) : list base_columns := concat (entry_parts e).
Lemma some_part_rows e : opt_rows node_rows (some_part e) = node_rows e.
Proof. unfold some_part. destruct (entry_parts e) eqn:E; [|done]. unfold node_rows. by rewrite E. Qed.

Lemma where_not_in_concat js (ls : list (list base_columns)) : concat (map (where_not_in js) ls) = where_not_in js (concat ls).
Proof. induction ls as [|l ls IH]; [done|]. cbn. rewrite IH. unfold where_not_in. by rewrite filter_app. Qed.
Lemma kept_files (l1 l2 : list base_columns) : concat (entry_parts {| tagged := kept_file l1; untagged := kept_file l2 |}) = l1 ++ l2.
Proof. unfold entry_parts, kept_file. destruct l1, l2; cbn; by rewrite ?app_nil_r. Qed.

Lemma node_step o t c : (winners = None -> t = false) -> exists eo, compact_node_cell o winners t c = Ok eo /\
  opt_rows node_rows eo ≡ₚ if t : bool then where_not_in (ids w) (opt_rows node_rows o) ++ placed_in c w else opt_rows node_rows o.
Proof.
  intros Hn. unfold compact_node_cell.
  assert (Hold : node_rows (default empty_entry o) = opt_rows node_rows o) by by destruct o.
  destruct t; cbn [negb].
  - assert (E : res_mapM (not_replaced winners) (entry_parts (default empty_entry o)) =
                Ok (map (where_not_in (ids w)) (entry_parts (default empty_entry o)))).
    { induction (entry_parts _) as [|l ls IH]; [done|]. cbn [res_mapM map]. rewrite IH.
      by rewrite (rows_replaced true) by done. }
    rewrite E. cbn [res_bind]. eexists. split; [reflexivity|]. rewrite some_part_rows. unfold node_rows at 1. rewrite kept_files.
    rewrite where_not_in_concat, new_in_placed. fold (node_rows (default empty_entry o)). rewrite Hold.
    set (l := where_not_in _ _ ++ _). clearbody l. clear. induction l as [|r l IH]; [done|]. rewrite !filter_cons.
    destruct (is_tagged r).
    + rewrite decide_True by done. rewrite decide_False by done. by apply (Permutation_skip r).
    + rewrite decide_False by done. rewrite decide_True by done. etrans; [symmetry; apply Permutation_middle|by apply Permutation_skip].
  - eexists. split; [reflexivity|]. by rewrite some_part_rows, Hold.
Qed.
End Steps.
