(* ===== verification/CompactRunFacts.v ===== *)
(** Theorems on compaction, the whole command: the new generation has the state
    of the old one with its tiers, and is well formed. *)
From S2P Require Import Prelude PyStr PyFloat Json Osc Sql Numpy Tiers DeltaRead TiersFacts DeltaReadFacts Fetch ResolveFacts UpdateRun Compact CompactFacts.

(** * The node to ways index *)
Lemma elem_of_way_pairs i y l : (i, y) ∈ way_pairs l <-> exists r, r ∈ l /\ b_id r = y /\ i ∈ unnest (refs (b_data r)).
Proof.
  unfold way_pairs. rewrite list_elem_of_In, in_flat_map. setoid_rewrite <- list_elem_of_In.
  setoid_rewrite elem_of_map. split.
  - intros (r & Hr & ref & [= -> ->] & Href). eauto.
  - intros (r & Hr & <- & Href). exists r. split; [done|]. by exists i.
Qed.

(** A join that keeps the left row. *)
Lemma elem_of_inner_join {A B} (on : A -> B -> bool) l m r :
  r ∈ inner_join on (fun r _ => r) l m <-> r ∈ l /\ exists t, t ∈ m /\ on r t = true.
Proof.
  unfold inner_join. rewrite list_elem_of_In, in_flat_map. split.
  - intros (a & Ha%list_elem_of_In & Hr%list_elem_of_In). apply (elem_of_map (fun _ => a)) in Hr as (t & -> & Ht).
    apply list_elem_of_filter in Ht as [? ?]. eauto.
  - intros (Hr & t & Ht & Ho). exists r. split; [by apply list_elem_of_In|]. apply list_elem_of_In.
    apply (elem_of_map_2 (fun _ => r) _ t). by apply list_elem_of_filter.
Qed.

(** The index lists exactly the references of the ways. *)
Definition index_exact (index : list (part (Z * Z))) (ways : list base_columns) : Prop :=
  forall p, p ∈ read_parts index <-> p ∈ way_pairs ways.

Section Index.
Context (old : list (part (Z * Z))) (old_parts new_parts : list (part base_columns)).
Context (way_winners node_winners : option (list (delta_row columns))).
Abbreviation ways_w := (default [] way_winners).
Abbreviation old_ways := (read_parts old_parts).
Abbreviation new_ways := (read_parts new_parts).
Hypothesis Hs : ranges_sorted old.
Hypothesis Hr : in_range fst old.
Hypothesis Hexact : index_exact old old_ways.
Hypothesis Hw : unique ways_w.
Hypothesis Hold : unique old_ways.
Hypothesis Hnew : unique new_ways.
Hypothesis Hfold : forall i, find_id i new_ways = folded ways_w old_ways i.

Abbreviation touched := (touched_nodes old_ways way_winners node_winners).

Lemma untouched_ref i y : i ∉ touched -> (i, y) ∈ way_pairs new_ways <-> (i, y) ∈ way_pairs old_ways.
Proof.
  intros Hi.
  assert (H1 : forall r, r ∈ old_ways -> b_id r ∈ ids ways_w -> i ∉ unnest (refs (b_data r))).
  { intros r Hin Hid Href. apply Hi. unfold touched_nodes. rewrite elem_of_remove_dups, !elem_of_app.
    destruct way_winners as [w|]; [|by apply elem_of_nil in Hid]. left. rewrite elem_of_app. left.
    apply (elem_of_map_2 fst _ (i, b_id r)), elem_of_way_pairs. exists r. by rewrite elem_of_where_in. }
  assert (H2 : forall x, x ∈ ways_w -> deleted x = false -> i ∉ unnest (refs (data x))).
  { intros x Hin Hd Href. apply Hi. unfold touched_nodes. rewrite elem_of_remove_dups, !elem_of_app.
    destruct way_winners as [w|]; [|by apply elem_of_nil in Hin]. left. rewrite elem_of_app. right.
    apply (elem_of_map_2 fst _ (i, r_id x)), elem_of_way_pairs. exists (project x). split; [|done].
    apply elem_of_map_2. by apply list_elem_of_filter. }
  rewrite !elem_of_way_pairs. split; intros (r & Hin & <- & Href).
  - pose proof (find_id_unique _ r Hnew Hin) as Hf. rewrite Hfold in Hf. unfold folded in Hf.
    destruct (find_id (id_of r) ways_w) as [x|] eqn:Ex; cbn [over] in Hf.
    + destruct (deleted x) eqn:Ed; [done|]. injection Hf as <-. apply find_id_Some in Ex as [Hx _]. by destruct (H2 x Hx Ed).
    + apply find_id_Some in Hf as [Hin' _]. eauto.
  - exists r. split; [|done]. pose proof (find_id_unique _ r Hold Hin) as Hf.
    assert (Hn : find_id (id_of r) ways_w = None).
    { apply find_id_None. intros Hid. by apply (H1 r). }
    assert (Hf' : find_id (id_of r) new_ways = Some r) by (rewrite Hfold; unfold folded; by rewrite Hn).
    by apply find_id_Some in Hf' as [? _].
Qed.

Abbreviation target i := (part_of old i).
Context (Hne : old <> []).

Lemma index_targets : res_mapM (fun i => res_map (pair i) (target_part old i)) touched = Ok (map (fun i => (i, target i)) touched).
Proof.
  induction touched as [|i l IH]; [done|]. cbn [res_mapM map]. rewrite IH.
  destruct (part_of_spec old Hs Hne i) as (k & E & Et). by rewrite Et, E.
Qed.

Definition index_rows (k : Z) (p : part (Z * Z)) : list (Z * Z) :=
  base.filter (fun r => mem r.1 touched = false) (p_rows p) ++
  inner_join (fun (r : Z * Z) (t : Z * option Z) => t.1 =? r.1) (fun r _ => r)
    (base.filter (fun p => mem p.1 touched = true) (way_pairs new_ways))
    (base.filter (fun t => is_target k t.2 = true) (map (fun i => (i, target i)) touched)).

Lemma elem_of_index_rows k p r : r ∈ index_rows k p <->
  (r ∈ p_rows p /\ r.1 ∉ touched) \/ (r ∈ way_pairs new_ways /\ r.1 ∈ touched /\ target r.1 = Some k).
Proof.
  unfold index_rows. rewrite elem_of_app, list_elem_of_filter, mem_false, elem_of_inner_join.
  rewrite list_elem_of_filter, mem_spec. split.
  - intros [[? ?]|([Ht Hin] & t & [Hk (i & -> & Hi)%elem_of_map]%list_elem_of_filter & E%Z.eqb_eq)]; [by left|].
    apply is_target_spec in Hk. cbn in *. subst i. auto.
  - intros [[? ?]|(Hin & Ht & Hk)]; [by left|]. right. split; [done|]. exists (r.1, target r.1). cbn.
    rewrite Z.eqb_refl. split; [|done]. apply list_elem_of_filter. split; [by apply is_target_spec|].
    by apply (elem_of_map_2 (fun i => (i, target i))).
Qed.

Definition index_touched : list Z := omap snd (map (fun i => (i, target i)) touched).
Lemma elem_of_index_touched k : k ∈ index_touched <-> exists i, i ∈ touched /\ target i = Some k.
Proof.
  unfold index_touched. rewrite list_elem_of_omap. setoid_rewrite (elem_of_map (fun i => (i, target i))). split.
  - intros (y & (i & -> & Hi) & E). eauto.
  - intros (i & Hi & E). exists (i, target i). eauto.
Qed.
End Index.

Lemma compact_index_spec old old_parts new_parts way_winners node_winners :
  old <> [] -> ranges_sorted old -> in_range fst old -> index_exact old (read_parts old_parts) ->
  unique (default [] way_winners) -> unique (read_parts old_parts) -> unique (read_parts new_parts) ->
  (forall i, find_id i (read_parts new_parts) = folded (default [] way_winners) (read_parts old_parts) i) ->
  exists new, _compact_node_way_index old old_parts new_parts way_winners node_winners = Ok new /\
    ranges_sorted new /\ in_range fst new /\ index_exact new (read_parts new_parts).
Proof.
  intros Hne Hs Hr Hexact Hw Hold Hnew Hfold.
  pose proof (untouched_ref old_parts new_parts way_winners node_winners Hw Hold Hnew Hfold) as Hun.
  set (T := touched_nodes (read_parts old_parts) way_winners node_winners) in *.
  assert (Hsame : T = [] -> index_exact old (read_parts new_parts)).
  { intros E [i y]. rewrite (Hexact (i, y)). symmetry. apply Hun. rewrite E. apply not_elem_of_nil. }
  set (body := fun touched : list Z =>
    let pairs := base.filter (fun p => mem p.1 touched = true) (way_pairs (read_parts new_parts)) in
    let* target := res_mapM (fun i => res_map (pair i) (target_part old i)) touched in
    Ok (rewrite_parts fst (omap snd target)
          (fun k p => base.filter (fun r => mem r.1 touched = false) (p_rows p) ++
             inner_join (fun (r : Z * Z) (t : Z * option Z) => t.1 =? r.1) (fun r _ => r) pairs
               (base.filter (fun t => is_target k t.2 = true) target))
          old)).
  assert (Hgo : exists new, match T with [] => Ok old | i :: l => body (i :: l) end = Ok new /\
    ranges_sorted new /\ in_range fst new /\ index_exact new (read_parts new_parts)).
  { destruct (decide (T = [])) as [E|E]; [rewrite E; exists old; auto|].
    replace (match T with [] => Ok old | i :: l => body (i :: l) end) with (body T) by (by destruct T). clear E. unfold body.
    rewrite (index_targets old old_parts way_winners node_winners Hs Hne : res_mapM _ T = _). cbn [res_bind].
    eexists. split; [reflexivity|].
    pose proof (elem_of_index_rows old old_parts new_parts way_winners node_winners) as Hrows.
    pose proof (elem_of_index_touched old old_parts way_winners node_winners) as Ht.
    destruct (replaced_ok fst old Hs Hr Hne T (index_touched old old_parts way_winners node_winners)
      (fun r => r ∈ way_pairs (read_parts new_parts)) _ Hrows) as [H1 H2].
    split; [exact H1|]. split; [exact H2|]. intros [i y].
    etrans; [exact (elem_of_replaced fst old Hs Hr Hne T _ (fun r => r ∈ way_pairs (read_parts new_parts)) _ Ht Hrows (i, y))|].
    cbn [fst]. specialize (Hexact (i, y)). destruct (decide (i ∈ T)) as [Hi|Hi]; [tauto|]. rewrite Hun by done. tauto. }
  unfold _compact_node_way_index. fold T. destruct old as [|p0 old']; [done|].
  destruct way_winners, node_winners; [exact Hgo..|].
  exists (p0 :: old'). split; [done|]. split; [done|]. split; [done|]. by apply Hsame.
Qed.

(** * The member index *)
Lemma range_cover (qs : list Z) (lo : option Z) i : match lo with Some lo => lo <= i | None => True end ->
  exists b, b ∈ zip (lo :: map Some qs) (map Some qs ++ [None]) /\ range_cond b.1 b.2 i = true.
Proof.
  revert lo. induction qs as [|q qs IH]; intros lo Hlo.
  - exists (lo, None). split; [left|]. unfold range_cond. cbn. destruct lo; [|done]. by rewrite (proj2 (Z.leb_le _ _)).
  - destruct (Z.lt_ge_cases i q) as [Hi|Hi].
    + exists (lo, Some q). split; [left|]. unfold range_cond. cbn. rewrite (proj2 (Z.ltb_lt _ _)) by done.
      destruct lo; [|done]. by rewrite (proj2 (Z.leb_le _ _)).
    + destruct (IH (Some q) Hi) as (b & Hb & Hc). exists b. split; [|done]. right. exact Hb.
Qed.
Lemma range_bounds_cover `{Quantiles} col total target i : exists b, b ∈ range_bounds col total target /\ range_cond b.1 b.2 i = true.
Proof.
  unfold range_bounds. destruct (_ =? 1); [exists (None, None); split; [left|done]|].
  set (qs := sorted_ints _). destruct (range_cover qs None i I) as (b & Hb & Hc). exists b. split; [|done].
  change (None :: map Some qs ++ [None]) with ((None :: map Some qs) ++ [None]). by rewrite removelast_last.
Qed.

Lemma elem_of_member_index `{Quantiles} parts m :
  m ∈ read_parts (_compact_member_index parts) <-> m ∈ member_rows (read_parts parts).
Proof.
  unfold _compact_member_index. destruct parts as [|p parts]; [done|]. set (rows := member_rows _).
  destruct (Z.of_nat (length rows) =? 0) eqn:El.
  - apply Z.eqb_eq in El. by destruct rows.
  - rewrite elem_of_read_parts. setoid_rewrite elem_of_map. split.
    + intros (q & (b & -> & Hb) & [_ Hm]%list_elem_of_filter). done.
    + intros Hm. destruct (range_bounds_cover (map (fun m => m.1.2) rows) (Z.of_nat (length rows)) RANGE_TARGET_ROWS m.1.2) as (b & Hb & Hc).
      eexists. split; [by exists b|]. by apply list_elem_of_filter.
Qed.

(** * The state of a snapshot *)
Definition cells_of (s : snapshot) (typ : etype) : list (pystr * list base_columns) :=
  match typ with
  | TNode => map (fun e => (e.1, node_rows e.2)) (node_cells s)
  | TWay => map (fun e => (e.1, f_rows e.2)) (way_cells s)
  | TRelation => map (fun e => (e.1, f_rows e.2)) (relation_cells s)
  end.
Definition spatial_rows (s : snapshot) (typ : etype) : list base_columns := flat_map snd (cells_of s typ).
Definition tiers_of (s : snapshot) : deltas columns columns := d_deltas (data_files s).
Definition base_of (s : snapshot) (typ : etype) : list base_columns := base_rows (data_files s) typ.

(** The rows of a spatial table are in the files of their cells, once. *)
Record cells_ok (cells : list (pystr * list base_columns)) : Prop := {
  co_keys : NoDup (map fst cells);
  co_cell : forall c l r, (c, l) ∈ cells -> r ∈ l -> b_cell r = Some c;
  co_unique : unique (flat_map snd cells)
}.

Record snapshot_ok (s : snapshot) : Prop := {
  so_data : dataset_ok (data_files s);
  so_parts : forall typ, ranges_sorted (byid (data_files s) typ);
  so_cells : forall typ, cells_ok (cells_of s typ);
  so_same_cell : forall typ i, find_id i (spatial_rows s typ) ≫= b_cell = find_id i (base_of s typ) ≫= b_cell;
  so_index : index_exact (node_way (data_files s)) (base_of s TWay);
  so_index_parts : ranges_sorted (node_way (data_files s));
  so_index_range : in_range fst (node_way (data_files s));
  (** the tiers lead back to the base row of every element they know *)
  so_touches : forall typ i, touches (found (hour (tiers_of s)) typ i) (found (day (tiers_of s)) typ i)
    (found (week (tiers_of s)) typ i) (find_id i (base_of s typ))
}.

(** * One element type *)
Section Type_.
Context (s : snapshot) (Hok : snapshot_ok s) (typ : etype).
Abbreviation ds := (tiers_of s).
Abbreviation spatial_w := (default [] (_build_winners t_spatial ds typ)).
Abbreviation byid_w := (default [] (_build_winners t_byid ds typ)).

Lemma winners_default (kind : tables columns columns -> list (delta_row columns)) : kind no_tables = [] ->
  (forall m, m = hour ds \/ m = day ds \/ m = week ds -> unique (kind (layer m typ))) ->
  unique (default [] (_build_winners kind ds typ)) /\
  forall i, find_id i (default [] (_build_winners kind ds typ)) = knewest kind ds typ i.
Proof.
  intros Hk Hu. pose proof (winners_spec kind Hk ds typ Hu) as Hw. destruct (_build_winners kind ds typ) as [w|]; [done|].
  destruct Hw as (E1 & E2 & E3). split; [apply NoDup_nil_2|]. intros i. unfold knewest, kfound. rewrite E1, E2, E3. cbn. by rewrite !Hk.
Qed.

Lemma Hdeltas : deltas_ok ds.
Proof. by apply so_data. Qed.
Lemma byid_winners : unique byid_w /\ forall i, find_id i byid_w = newest_row ds typ i.
Proof. apply (winners_default t_byid eq_refl). apply ok_read_byid, Hdeltas. Qed.
Lemma spatial_winners : unique spatial_w /\ forall i, find_id i spatial_w = snewest ds typ i.
Proof. apply (winners_default t_spatial eq_refl). apply ok_read_spatial, Hdeltas. Qed.

Lemma newest_agree i : agree (newest_row ds typ i) (snewest ds typ i).
Proof.
  pose proof (sfound_agree ds typ Hdeltas (hour ds) i ltac:(tauto)) as Ah.
  pose proof (sfound_agree ds typ Hdeltas (day ds) i ltac:(tauto)) as Ad.
  pose proof (sfound_agree ds typ Hdeltas (week ds) i ltac:(tauto)) as Aw.
  unfold newest_row, snewest. unfold agree in Ah, Ad, Aw.
  destruct (found (hour ds) typ i), (sfound typ (hour ds) i); try done.
  destruct (found (day ds) typ i), (sfound typ (day ds) i); try done.
  all: by destruct (found (week ds) typ i), (sfound typ (week ds) i).
Qed.

Abbreviation touched := (_touched_cells ds typ (_build_winners t_spatial ds typ)).

Lemma touched_winner c x : x ∈ spatial_w -> r_cell x = Some c \/ prev_cell x = Some c -> c ∈ touched.
Proof.
  intros Hx Hc. unfold _touched_cells. apply elem_of_app. left. apply list_elem_of_omap. exists (Some c). split; [|done].
  destruct (_build_winners t_spatial ds typ) as [w|]; [|by apply elem_of_nil in Hx]. cbn in Hx. apply elem_of_app.
  destruct Hc as [<-|<-]; [left|right]; by apply elem_of_map_2.
Qed.
Lemma touched_tombstone c m x i : (m = hour ds \/ m = day ds \/ m = week ds) -> found m typ i = Some x ->
  leaves_tombstone x = Some c -> c ∈ touched.
Proof.
  intros Hm Hx Hl. destruct m as [t|]; [|done].
  pose proof (maybe_all ds Hdeltas _ Hm t eq_refl) as Ht. apply find_id_Some in Hx as [Hx Hi].
  destruct (proj2 (ok_tombs _ Ht typ (r_id x) c)) as (tb & Htb & Ety & _ & Ec); [by exists x|].
  unfold _touched_cells. apply elem_of_app. right. apply list_elem_of_In, in_flat_map. exists (tombstones t). split.
  - apply list_elem_of_In. unfold _tombstone_paths, TIER_ORDER. apply list_elem_of_omap. exists (Some t). split; [|done].
    rewrite !elem_of_cons. naive_solver.
  - apply list_elem_of_In. rewrite <- Ec. apply elem_of_map_2, list_elem_of_filter. by rewrite bool_decide_true.
Qed.

Lemma replaced_touched r c : b_cell r = Some c -> r ∈ spatial_rows s typ -> b_id r ∈ ids spatial_w -> c ∈ touched.
Proof.
  intros Hc Hr Hi. set (i := b_id r) in *.
  assert (Hf : find_id i (spatial_rows s typ) = Some r) by exact (find_id_unique _ r (co_unique _ (so_cells _ Hok typ)) Hr).
  pose proof (so_same_cell _ Hok typ i) as Hsame. rewrite Hf in Hsame. cbn in Hsame. rewrite Hc in Hsame. symmetry in Hsame.
  destruct spatial_winners as [Hu Hn]. apply find_id_is_Some in Hi as [n Hin].
  pose proof (newest_agree i) as Ha. rewrite <- Hn, Hin in Ha. destruct (newest_row ds typ i) as [n'|] eqn:En; [|done].
  destruct Ha as (Ec & _ & Ep). apply find_id_Some in Hin as [Hin _].
  destruct (so_touches _ Hok typ i c n' Hsame En) as [H1|[H1|(x & Hx & Hl)]].
  - apply (touched_winner c n); [done|]. left. congruence.
  - apply (touched_winner c n); [done|]. right. congruence.
  - destruct Hx as [Hx|[Hx|Hx]]; eapply touched_tombstone; [| exact Hx | exact Hl| | exact Hx | exact Hl| | exact Hx | exact Hl]; tauto.
Qed.

Lemma winner_cell x : x ∈ spatial_w -> deleted x = false -> exists c, r_cell x = Some c /\ c ∈ touched.
Proof.
  intros Hx Hd. destruct spatial_winners as [Hu Hn].
  pose proof (find_id_unique _ x Hu Hx) as Hf. change (id_of x) with (r_id x) in Hf. rewrite Hn in Hf.
  pose proof (newest_agree (r_id x)) as Ha. rewrite Hf in Ha. destruct (newest_row ds typ (r_id x)) as [n|] eqn:En; [|done].
  destruct Ha as (Ec & Ed & _). assert (Hc : is_Some (r_cell n)).
  { rewrite Hd in Ed. unfold newest_row, first_of in En.
    assert (Hm : exists m, (m = hour ds \/ m = day ds \/ m = week ds) /\ found m typ (r_id x) = Some n).
    { destruct (found (hour ds) typ (r_id x)) eqn:E1; [exists (hour ds); split; [tauto|congruence]|].
      destruct (found (day ds) typ (r_id x)) eqn:E2; [exists (day ds); split; [tauto|congruence]|].
      exists (week ds). tauto. }
    destruct Hm as (m & Hm & Hfm). apply (ok_cell (layer m typ)) with (i := r_id x); [|done|done].
    apply layer_ok. by apply (maybe_all ds Hdeltas). }
  destruct Hc as [c Hc]. rewrite Hc in Ec. exists c. split; [done|]. apply (touched_winner c x); auto.
Qed.

Lemma no_winners_untouched : _build_winners t_spatial ds typ = None -> touched = [].
Proof.
  intros E. pose proof (winners_spec t_spatial eq_refl ds typ (ok_read_spatial ds typ Hdeltas)) as Hw. rewrite E in Hw.
  destruct Hw as (E1 & E2 & E3). unfold _touched_cells, _tombstone_paths, TIER_ORDER. by rewrite E, E1, E2, E3.
Qed.

(** The spatial table of the type, for either layout. *)
Lemma spatial_folded {T} (rows : T -> list base_columns) f (old : list (pystr * T)) :
  cells_of s typ = map (fun e => (e.1, rows e.2)) old ->
  (forall o t c, (_build_winners t_spatial ds typ = None -> t = false) -> exists eo, f o t c = Ok eo /\
    opt_rows rows eo ≡ₚ if t : bool then where_not_in (ids spatial_w) (opt_rows rows o) ++ placed_in c spatial_w else opt_rows rows o) ->
  exists new, compact_cells f old touched = Ok new /\ cells_ok (map (fun e => (e.1, rows e.2)) new) /\
    forall i, find_id i (flat_map snd (map (fun e => (e.1, rows e.2)) new)) =
      over (snewest ds typ i) (find_id i (spatial_rows s typ)).
Proof.
  intros Hold Hstep. destruct (so_cells _ Hok typ) as [Hk Hc Hu]. rewrite Hold in Hk, Hc, Hu.
  assert (Hflat : forall l : list (pystr * T), flat_map snd (map (fun e => (e.1, rows e.2)) l) = all_rows rows l).
  { unfold all_rows. induction l as [|e l IH]; [done|]. cbn. by rewrite IH. }
  rewrite Hflat in Hu. rewrite map_map in Hk. cbn [fst] in Hk.
  assert (Hc' : forall c e r, (c, e) ∈ old -> r ∈ rows e -> b_cell r = Some c).
  { intros c e r He. apply (Hc c (rows e)). by apply (elem_of_map_2 (fun e => (e.1, rows e.2)) _ (c, e)). }
  destruct spatial_winners as [Hw Hn].
  destruct (compact_spatial_spec rows f (_build_winners t_spatial ds typ) old touched Hstep Hk Hc' Hu Hw no_winners_untouched)
    as (new & E & Hk' & Hcell & Hu' & Hf).
  - intros r Hr Hi. assert (Hr' : r ∈ spatial_rows s typ) by (unfold spatial_rows; by rewrite Hold, Hflat).
    pose proof Hr as (c & e & He & Hre)%elem_of_all_rows. exists c. pose proof (Hc' _ _ _ He Hre) as Hbc. split; [done|].
    by apply (replaced_touched r).
  - intros x. apply winner_cell.
  - exists new. split; [done|]. rewrite Hflat. split.
    + split.
      * by rewrite map_map.
      * intros c l r ([c' e] & [= -> ->] & He)%(elem_of_map (fun e => (e.1, rows e.2))). by apply Hcell.
      * by rewrite Hflat.
    + intros i. rewrite Hf. unfold folded, spatial_rows. by rewrite Hn, Hold, Hflat.
Qed.

(** The table by id of the type. *)
Lemma byid_folded : exists new, _compact_byid_table (byid (data_files s) typ) (_build_winners t_byid ds typ) = Ok new /\
  ranges_sorted new /\ in_range b_id new /\ unique (read_parts new) /\
  (forall i, find_id i (read_parts new) = folded byid_w (base_of s typ) i) /\
  forall i, find_id i (read_parts new) = cur (data_files s) typ i.
Proof.
  destruct byid_winners as [Hw Hn].
  destruct (compact_byid_spec (byid (data_files s) typ) (_build_winners t_byid ds typ)) as (new & E & H1 & H2 & H3 & H4).
  - apply so_parts, Hok.
  - apply (so_data _ Hok).
  - apply (so_data _ Hok).
  - intros w Ew. by rewrite Ew in Hw.
  - exists new. split_and!; [done..|]. intros i. rewrite H4. unfold folded, cur, current. by rewrite Hn.
Qed.
End Type_.

(** * The whole command *)

Lemma compact_state `{Quantiles} s : snapshot_ok s -> node_way (data_files s) <> [] ->
  exists s', compact s = Ok s' /\ snapshot_ok s' /\ tiers_of s' = no_deltas /\
    (forall typ i, cur (data_files s') typ i = cur (data_files s) typ i) /\
    (forall typ i, find_id i (spatial_rows s' typ) = over (snewest (tiers_of s) typ i) (find_id i (spatial_rows s typ))) /\
    (forall m, m ∈ read_parts (member_index (data_files s')) <-> m ∈ member_rows (base_of s' TRelation)).
Proof.
  intros Hok Hne.
  destruct (spatial_folded s Hok TNode node_rows (fun o => compact_node_cell o (_build_winners t_spatial (tiers_of s) TNode)) (node_cells s)
    eq_refl (node_step _)) as (nodes & En & Cn & Fn).
  destruct (spatial_folded s Hok TWay f_rows (fun o => compact_flat_cell o (_build_winners t_spatial (tiers_of s) TWay)) (way_cells s)
    eq_refl (flat_step _)) as (ways & Ew & Cw & Fw).
  destruct (spatial_folded s Hok TRelation f_rows (fun o => compact_flat_cell o (_build_winners t_spatial (tiers_of s) TRelation))
    (relation_cells s) eq_refl (flat_step _)) as (relations & Er & Cr & Fr).
  destruct (byid_folded s Hok TNode) as (bn & Ebn & Sn & Rn & Un & _ & Cbn).
  destruct (byid_folded s Hok TWay) as (bw & Ebw & Sw & Rw & Uw & Gw & Cbw).
  destruct (byid_folded s Hok TRelation) as (br & Ebr & Sr & Rr & Ur & _ & Cbr).
  destruct (compact_index_spec (node_way (data_files s)) (byid (data_files s) TWay) bw
    (_build_winners t_byid (tiers_of s) TWay) (_build_winners t_byid (tiers_of s) TNode)) as (index & Ei & Si & Ri & Xi);
    [done|apply Hok|apply Hok|apply Hok|apply (byid_winners s Hok)|apply (so_data _ Hok)|done|done|].
  unfold compact. fold (tiers_of s).
  unfold _compact_node_spatial, _compact_flat_spatial. rewrite En. cbn [res_bind]. rewrite Ebn. cbn [res_bind].
  rewrite Ew. cbn [res_bind]. rewrite Ebw. cbn [res_bind]. rewrite Er. cbn [res_bind]. rewrite Ebr. cbn [res_bind].
  rewrite Ei. cbn [res_bind]. eexists. split; [reflexivity|].
  match goal with |- snapshot_ok ?x /\ _ => set (s' := x) end.
  assert (Hcur : forall typ i, cur (data_files s') typ i = cur (data_files s) typ i) by (intros [] i; [apply Cbn|apply Cbw|apply Cbr]).
  assert (Hbase : forall typ i, find_id i (base_of s' typ) = cur (data_files s) typ i) by (intros [] i; [apply Cbn|apply Cbw|apply Cbr]).
  assert (Hspatial : forall typ i, find_id i (spatial_rows s' typ) =
    over (snewest (tiers_of s) typ i) (find_id i (spatial_rows s typ))) by (intros [] i; [apply Fn|apply Fw|apply Fr]).
  assert (Hdata : dataset_ok (data_files s')).
  { split; [by split_and!| | |done].
    - by intros [].
    - by intros []. }
  assert (Hcell : forall typ i, find_id i (spatial_rows s' typ) ≫= b_cell = find_id i (base_of s' typ) ≫= b_cell).
  { intros typ i. rewrite Hspatial, Hbase. unfold cur, current. pose proof (newest_agree s Hok typ i) as Ha.
    pose proof (so_same_cell _ Hok typ i) as Hs. fold (tiers_of s).
    destruct (newest_row (tiers_of s) typ i) as [n|], (snewest (tiers_of s) typ i) as [m|]; [|done|done|exact Hs].
    destruct Ha as (Ec & Ed & _). cbn. rewrite <- Ed. by destruct (deleted n). }
  split_and!; [|done|done|done|].
  - split; [done|by intros []|by intros []|done|done|done|done|done].
  - intros m. apply elem_of_member_index.
Qed.

(** C13: compaction refines the dataset it replaces.  On a well-formed snapshot
    whose node to ways index has files, [compact] succeeds; the new generation
    has no tiers, is well formed again (one row per id, files with disjoint id
    ranges that cover their rows, every spatial row in the file of its cell, the
    node to ways index listing exactly the references of the ways), the lookup
    by id finds the same row for every id as the old base with its tiers did,
    the spatial tables hold the same current rows, and the member index lists
    exactly the members of the relations. *)
Theorem compact_refines `{Quantiles} s : snapshot_ok s -> node_way (data_files s) <> [] ->
  exists s', compact s = Ok s' /\ snapshot_ok s' /\ tiers_of s' = no_deltas /\
    (forall typ i, cur (data_files s') typ i = cur (data_files s) typ i) /\
    (forall typ i, find_id i (spatial_rows s' typ) = over (snewest (tiers_of s) typ i) (find_id i (spatial_rows s typ))) /\
    (forall m, m ∈ read_parts (member_index (data_files s')) <-> m ∈ member_rows (base_of s' TRelation)).
Proof. apply compact_state. Qed.

(** * Runs, then a compaction *)
Definition with_tiers (s : snapshot) (ds : deltas columns columns) : snapshot := {|
  node_cells := node_cells s; way_cells := way_cells s; relation_cells := relation_cells s;
  data_files := {| byid := byid (data_files s); node_way := node_way (data_files s);
                   member_index := member_index (data_files s); d_deltas := ds |} |}.

Lemma run_snapshot_ok s ds batch ds' : snapshot_ok s -> tiers_of s = ds -> linked_tiers (base_of s) ds ->
  batch_ok (base_of s) ds batch -> moves ds batch ds' -> deltas_ok ds' -> prev_ok (base_of s) ds' ->
  snapshot_ok (with_tiers s ds').
Proof.
  intros Hok <- Hl Hb Hm Hds' Hp'. pose proof (so_data _ Hok) as [Hd1 Hd2 Hd3 Hd4].
  destruct (run_keeps_linked _ _ _ _ Hd1 Hl Hb Hm) as [_ Ht]. split; try apply Hok; [by split|exact Ht].
Qed.

(** C14: an update followed by a compaction.  From a well-formed snapshot with a
    node_way index, whose tiers are linked to its base, a run with any batch (whatever hour and day
    boundaries its time stamp crosses) writes tiers that compaction folds
    completely: the base of the new generation holds, for every id, the batch's
    row where the batch has one (none if it deletes the element) and the current
    row of before otherwise. *)
Theorem run_then_compact `{UnicodeDB} `{Quantiles} s batch first_seq last_seq ts :
  snapshot_ok s -> node_way (data_files s) <> [] -> linked_tiers (base_of s) (tiers_of s) ->
  batch_ok (base_of s) (tiers_of s) batch ->
  exists ds' s', _write_tiers (tiers_of s) batch first_seq last_seq ts = Ok ds' /\
    (no_rows batch = false -> linked_tiers (base_of s) ds') /\
    compact (with_tiers s ds') = Ok s' /\ snapshot_ok s' /\ linked_tiers (base_of s') (tiers_of s') /\
    forall typ i, find_id i (base_of s' typ) = over (find_id i (t_byid (batch typ))) (cur (data_files s) typ i).
Proof.
  intros Hok Hne Hl Hb. pose proof (so_data _ Hok) as [Hd1 _ _ Hd4].
  destruct (run_keeps_ok (base_of s) (tiers_of s) batch first_seq last_seq ts Hd1 Hd4 Hb) as (ds' & E & Hds' & Hp' & Hm).
  pose proof (run_snapshot_ok s _ batch ds' Hok eq_refl Hl Hb Hm Hds' Hp') as Hok'.
  destruct (compact_state (with_tiers s ds') Hok' Hne) as (s' & Es & Hs' & Et & Hc & _).
  exists ds', s'. split; [done|]. split; [by apply (run_keeps_linked _ _ _ _ Hd1 Hl Hb Hm)|]. split; [done|]. split; [done|].
  split; [rewrite Et; intros typ i; split; [|split]; by intros ? [=]|]. intros typ i.
  assert (Ec : find_id i (base_of s' typ) = cur (data_files s') typ i).
  { unfold cur, current. fold (tiers_of s'). by rewrite Et. }
  rewrite Ec, Hc. unfold cur, current, newest_row. apply (moved_current (no_rows batch)). apply Hm.
Qed.

(** * A concrete snapshot *)
Section Sample.
#[local] Instance no_quantiles : Quantiles := fun _ _ => [].

Definition with_refs (rs : list Z) : columns := {|
  lat_e7 := None; lon_e7 := None; refs := Some rs; members := None; c_tags := None; promoted := [];
  c_version := None; c_changeset := None; c_timestamp := None; c_uid := None; c_user := None;
  xmin_e7 := None; ymin_e7 := None; xmax_e7 := None; ymax_e7 := None; geometry := None;
  is_closed := None; is_area := None; centroid_lat_e7 := None; centroid_lon_e7 := None; hilbert := None |}.
Definition sample_node : base_columns := {| b_id := 1; b_cell := Some (u "0"); b_data := null_columns |}.
Definition sample_way : base_columns := {| b_id := 10; b_cell := Some (u "0"); b_data := with_refs [1] |}.
Definition one_part {R} (i : Z) (r : R) : list (part R) := [{| min_id := Some i; max_id := Some i; p_rows := [r] |}].

(** Node 1 and a way through it. *)
Definition sample_snapshot : snapshot := {|
  node_cells := [(u "0", {| tagged := None; untagged := Some [sample_node] |})];
  way_cells := [(u "0", {| f_rows := [sample_way]; bbox := [None; None; None; None] |})];
  relation_cells := [];
  data_files := {|
    byid typ := match typ with TNode => one_part 1 sample_node | TWay => one_part 10 sample_way | TRelation => [] end;
    node_way := one_part 1 (1, 10);
    member_index := [];
    d_deltas := no_deltas |} |}.

(** The node moves to another cell and a second node appears. *)
Definition sample_run (typ : etype) : tables columns columns :=
  match typ with
  | TNode => let rows := [sample_row 1 (u "1") null_columns (Some (u "0")); sample_row 2 (u "2") null_columns None] in
             {| t_byid := rows; t_spatial := rows |}
  | _ => {| t_byid := []; t_spatial := [] |}
  end.

Lemma one_part_sorted {R} i (r : R) : ranges_sorted (one_part i r).
Proof.
  split; [repeat constructor|]. intros p ->%list_elem_of_singleton. exists i, i. split; [done|split; [done|lia]].
Qed.
Lemma one_part_range {R} (col : R -> Z) r : in_range col (one_part (col r) r).
Proof. intros p x ->%list_elem_of_singleton ->%list_elem_of_singleton. exists (col r), (col r). split; [done|split; [done|lia]]. Qed.
Lemma no_parts {R} (col : R -> Z) : ranges_sorted ([] : list (part R)) /\ in_range col ([] : list (part R)).
Proof. split; [split; [constructor|]|]; intros p; [|intros r]; by intros ?%elem_of_nil. Qed.

Lemma sample_snapshot_ok : snapshot_ok sample_snapshot.
Proof.
  split.
  - split; [by split_and!| | |done].
    + intros []; [apply NoDup_singleton|apply NoDup_singleton|apply NoDup_nil_2].
    + intros []; [apply (one_part_range b_id sample_node)|apply (one_part_range b_id sample_way)|apply (no_parts b_id)].
  - intros []; [apply one_part_sorted..|apply (no_parts b_id)].
  - intros []; split; try apply NoDup_singleton; try apply NoDup_nil_2.
    + intros c l r [= -> ->]%list_elem_of_singleton ->%list_elem_of_singleton. done.
    + intros c l r [= -> ->]%list_elem_of_singleton ->%list_elem_of_singleton. done.
    + by intros c l r ?%elem_of_nil.
  - intros [] i; cbn; by repeat destruct (_ =? i).
  - intros p. done.
  - apply one_part_sorted.
  - apply (one_part_range fst (1, 10)).
  - intros typ i c n _ [=].
Qed.
Lemma sample_linked : linked_tiers (base_of sample_snapshot) (tiers_of sample_snapshot).
Proof. intros typ i. split; [|split]; by intros ? [=]. Qed.
Lemma sample_run_ok : batch_ok (base_of sample_snapshot) (tiers_of sample_snapshot) sample_run.
Proof.
  split.
  - intros []; split; try apply NoDup_nil_2; try done; try (apply NoDup_cons; split; [by intros ?%list_elem_of_singleton|apply NoDup_singleton]).
    + intros i. cbn. by repeat match goal with |- context [if ?b then _ else _] => destruct b end.
    + intros i r. cbn. repeat match goal with |- context [if ?b then _ else _] => destruct b end; intros [= <-] _; cbn; eauto.
  - intros [] i n Hn; try done. apply find_id_Some in Hn as [Hn <-].
    apply elem_of_cons in Hn as [->|Hn]; [reflexivity|]. apply list_elem_of_singleton in Hn as ->. reflexivity.
Qed.

Lemma run_then_compact_witness :
  exists ds' s', @_write_tiers latin1_db columns columns (tiers_of sample_snapshot) sample_run 5 6 (Some (u "2026-09-19T10:00:00Z")) = Ok ds' /\
    compact (with_tiers sample_snapshot ds') = Ok s' /\
    b_cell <$> find_id 1 (base_of s' TNode) = Some (Some (u "1")).
Proof.
  destruct (@run_then_compact latin1_db no_quantiles sample_snapshot sample_run 5 6 (Some (u "2026-09-19T10:00:00Z"))
    sample_snapshot_ok ltac:(discriminate) sample_linked sample_run_ok) as (ds' & s' & E & _ & Ec & _ & _ & Hf).
  exists ds', s'. split; [exact E|]. split; [exact Ec|]. rewrite Hf. reflexivity.
Defined.

Lemma compact_refines_witness :
  exists s', compact sample_snapshot = Ok s' /\ forall typ i, cur (data_files s') typ i = cur (data_files sample_snapshot) typ i.
Proof.
  destruct (compact_refines sample_snapshot sample_snapshot_ok ltac:(discriminate)) as (s' & E & _ & _ & Hc & _).
  exists s'. split; [exact E|exact Hc].
Defined.
End Sample.

(** * The way index of a dataset without ways *)

(** A dataset of one node, and a run that adds a way through it. *)
Definition wayless : snapshot := {|
  node_cells := [(u "0", {| tagged := None; untagged := Some [sample_node] |})];
  way_cells := []; relation_cells := [];
  data_files := {| byid typ := match typ with TNode => one_part 1 sample_node | _ => [] end;
                   node_way := []; member_index := []; d_deltas := no_deltas |} |}.
Definition first_way (typ : etype) : tables columns columns :=
  match typ with
  | TWay => let rows := [sample_row 10 (u "0") (with_refs [1]) None] in {| t_byid := rows; t_spatial := rows |}
  | _ => {| t_byid := []; t_spatial := [] |}
  end.

(** An index without files is never rebuilt: after the compaction the base has
    the way, and the index, which finds the ways of a changed node, does not
    list it. *)
Theorem compact_drops_way_index :
  exists ds' s', @_write_tiers latin1_db columns columns no_deltas first_way 5 6 (Some (u "2026-09-19T10:00:00Z")) = Ok ds' /\
    @compact (fun _ _ => []) (with_tiers wayless ds') = Ok s' /\
    way_pairs (base_of s' TWay) = [(1, 10)] /\ node_way (data_files s') = [].
Proof. do 2 eexists. split; [vm_compute; reflexivity|]. split; [vm_compute; reflexivity|]. by split. Qed.
