(* ===== verification/PlaceFile.v ===== *)
(** [build/compact.py], [_place_file]: a file of the old generation is linked,
    or copied, into the new one. *)
From S2P Require Import Prelude PyStr Json Fs.

(** [os.link] *)
Definition link (src dst : path) (s : fs) : res fs :=
  match names s !! src with
  | None => Raise (if is_dir src s then OSError else FileNotFoundError)
  | Some i => if path_exists dst s || negb (is_dir (parent dst) s) then Raise OSError
              else Ok (set_names (<[dst := i]>) s)
  end.

(** [shutil.copy2]: a new inode with the bytes of the source. *)
Definition copy2 (src dst : path) (s : fs) : res fs :=
  match fs_read src s with
  | Raise e => Raise e
  | Ok data =>
      if is_dir dst s || negb (is_dir (parent dst) s) then Raise OSError
      else match names s !! dst with
           | Some i => Ok (Fs (names s) (dirs s) (<[i := data]> (inodes s)) (next_inode s))
           | None => Ok (Fs (<[dst := next_inode s]> (names s)) (dirs s)
                            (<[next_inode s := data]> (inodes s)) (next_inode s + 1))
           end
  end.

(** [FileNotFoundError] is an [OSError] too. *)
Definition is_os_error (e : exn) : bool := match e with OSError | FileNotFoundError => true | _ => false end.

(** [can_link]: whether the file system supports hard links. *)
Definition _place_file (can_link : bool) (src dst : path) (s : fs) : res unit * fs :=
  match run_op (Mkdirs (parent dst)) s with
  | Raise e => (Raise e, s)
  | Ok s1 =>
      match (if path_exists dst s1 then run_op (Unlink dst) s1 else Ok s1) with
      | Raise e => (Raise e, s1)
      | Ok s2 =>
          match (if can_link then link src dst s2 else Raise OSError) with
          | Ok s3 => (Ok tt, s3)
          | Raise e =>
              if is_os_error e then
                match copy2 src dst s2 with
                | Ok s3 => (Ok tt, s3)
                | Raise e => (Raise e, s2)
                end
              else (Raise e, s2)
          end
      end
  end.

Section Place.
Context (can_link : bool) (src dst : path) (s : fs) (data : bytes).
Hypothesis Hwf : fs_wf s.
Hypothesis Hsrc : is_file src s = true.
Hypothesis Hdata : fs_read src s = Ok data.
Hypothesis Hparent : parent dst <> [].
Hypothesis Hnotdir : is_dir dst s = false /\ dst ∉ prefixes (parent dst).
Hypothesis Hthrough : through_file (parent dst) s = false.

Lemma self_prefix (p : path) : p <> [] -> p ∈ prefixes p.
Proof.
  induction p as [|c p IH]; [done|]. intros _. cbn [prefixes]. destruct p as [|c' p]; [left|]. right.
  apply (elem_of_map_2 (cons c)). by apply IH.
Qed.

(** Two different names: the new one reads as the old one, which still does. *)
Lemma place_file_spec : src <> dst ->
  exists s', _place_file can_link src dst s = (Ok tt, s') /\ fs_read dst s' = Ok data /\ fs_read src s' = Ok data.
Proof.
  intros Hne. unfold _place_file, run_op. rewrite Hthrough.
  set (s1 := Fs (names s) _ (inodes s) (next_inode s)).
  apply is_file_spec in Hsrc as [i Hi]. unfold fs_read in Hdata. rewrite Hi in Hdata. injection Hdata as Hd.
  set (s2 := if path_exists dst s1 then set_names (delete dst) s1 else s1).
  assert (E2 : (if path_exists dst s1 then if is_file dst s1 then Ok (set_names (delete dst) s1) else
                  if is_dir dst s1 then Raise OSError else Raise FileNotFoundError else Ok s1) = Ok s2).
  { unfold s2. destruct (path_exists dst s1) eqn:E; [|done]. unfold path_exists in E.
    destruct (is_file dst s1) eqn:Ef; [done|]. exfalso. cbn in E. apply is_dir_spec in E. unfold s1 in E. cbn in E.
    apply elem_of_union in E as [E|E]; [apply elem_of_list_to_set in E; tauto|]. apply is_dir_spec in E. destruct Hnotdir. congruence. }
  rewrite E2.
  assert (N2 : names s2 !! src = Some i).
  { unfold s2. destruct (path_exists dst s1); cbn; [by rewrite lookup_delete_ne|done]. }
  assert (D2 : names s2 !! dst = None).
  { unfold s2. destruct (path_exists dst s1) eqn:E; cbn; [by rewrite lookup_delete_eq|].
    unfold path_exists in E. apply orb_false_elim in E as [E _]. destruct (names s !! dst) as [j|] eqn:Ej; [|done].
    assert (Ht : is_file dst s1 = true) by (apply is_file_spec; exists j; done). congruence. }
  assert (Hdirs : is_dir dst s2 = false /\ is_dir (parent dst) s2 = true).
  { assert (dirs s2 = dirs s1) as Ed by (unfold s2; by destruct (path_exists _ _)). unfold is_dir. rewrite Ed. split.
    - apply bool_decide_eq_false. cbn. rewrite elem_of_union, elem_of_list_to_set. destruct Hnotdir as [H1 H2].
      unfold is_dir in H1. apply bool_decide_eq_false in H1. tauto.
    - apply bool_decide_eq_true. cbn. rewrite elem_of_union, elem_of_list_to_set. left. by apply self_prefix. }
  assert (I2 : inodes s2 = inodes s /\ next_inode s2 = next_inode s) by (unfold s2; by destruct (path_exists _ _)).
  destruct Hdirs as [Hd1 Hd2]. destruct I2 as [I2 Nx].
  assert (Hex : path_exists dst s2 = false).
  { unfold path_exists. rewrite Hd1, orb_false_r. unfold is_file. apply bool_decide_eq_false. rewrite D2. by intros [? ?]. }
  destruct can_link.
  - unfold link. rewrite N2, Hex, Hd2. cbn [orb negb]. eexists. split; [reflexivity|]. unfold fs_read, set_names. cbn.
    rewrite lookup_insert_eq, lookup_insert_ne by done. rewrite N2, I2, Hd. done.
  - cbn [is_os_error]. unfold copy2, fs_read at 1. rewrite N2, Hd1, Hd2, D2, I2. cbn [orb negb].
    eexists. split; [reflexivity|]. unfold fs_read. cbn [names inodes]. split.
    + rewrite lookup_insert_eq. cbn. rewrite lookup_insert_eq. cbn. by rewrite Hd.
    + rewrite (lookup_insert_ne (names s2)) by done. rewrite N2. cbn. rewrite lookup_insert_ne; [by rewrite Hd|].
      rewrite Nx. specialize (Hwf src i Hi). cbn in Hwf. lia.
Qed.

(** The same name, as when compaction is given the generation it compacts: the
    file is removed before it is linked, and is lost. *)
Lemma place_file_self : is_file dst s = true ->
  exists s', _place_file can_link dst dst s = (Raise FileNotFoundError, s') /\ names s' !! dst = None.
Proof.
  intros Hf. unfold _place_file, run_op. rewrite Hthrough. set (s1 := Fs (names s) _ (inodes s) (next_inode s)).
  assert (Ef : is_file dst s1 = true) by done. unfold path_exists. rewrite Ef. cbn [orb].
  set (s2 := set_names (delete dst) s1). assert (N2 : names s2 !! dst = None) by (cbn; by rewrite lookup_delete_eq).
  assert (Hd : is_dir dst s2 = false).
  { unfold is_dir. apply bool_decide_eq_false. cbn. rewrite elem_of_union, elem_of_list_to_set. destruct Hnotdir as [H1 H2].
    unfold is_dir in H1. apply bool_decide_eq_false in H1. tauto. }
  assert (Ec : copy2 dst dst s2 = Raise FileNotFoundError).
  { unfold copy2, fs_read. rewrite N2, Hd, orb_false_r. destruct (through_file dst s2) eqn:Et; [|done]. exfalso.
    unfold through_file in *. apply existsb_exists in Et as (q & Hq & Hqf). apply is_file_spec in Hqf as [j Hj].
    assert (q <> dst) by (intros ->; congruence). cbn in Hj. rewrite lookup_delete_ne in Hj by done.
    assert (Hin : q ∈ prefixes (parent dst)).
    { apply list_elem_of_In in Hq. unfold parent in *. clear -Hq H Hparent. revert q Hq H. induction dst as [|c p IH]; intros q Hq Hne; [by apply elem_of_nil in Hq|].
      destruct p as [|c' p]; [done|]. cbn [removelast] in *. destruct (decide (p = [])) as [->|Hp].
      - cbn in Hq |- *. set_solver.
      - cbn [prefixes] in Hq. apply elem_of_cons in Hq as [->|Hq]; [left|]. apply (elem_of_map (cons c)) in Hq as (q' & -> & Hq').
        right. apply (elem_of_map_2 (cons c)). apply IH; [by destruct p|done|congruence]. }
    assert (Ht : existsb (fun q => is_file q s) (prefixes (parent dst)) = true); [|congruence].
    apply existsb_exists. exists q. split; [by apply list_elem_of_In|]. apply is_file_spec. by exists j. }
  exists s2. split; [|done]. destruct can_link.
  - unfold link. rewrite N2, Hd. cbn [is_os_error]. by rewrite Ec.
  - cbn [is_os_error]. by rewrite Ec.
Qed.
End Place.
