(* ===== verification/SqlExpr.v ===== *)
(** The scalar SQL the query engine generates: expressions with their text, the
    precedences under which the text is read back as the expression, and their
    value on a row, with SQL's NULL.

    The functions DuckDB computes from texts, numbers and geometries are
    parameters.

    Facts about generated SQL: an induction principle for expressions, and the
    string literals of a text are exactly those of its expression, whatever
    quotes the values hold. *)
From S2P Require Import Prelude PyStr SqlText PyTime PyFloat.

Class DuckDB (G : Type) := {
  (** the patterns the regular expression engine compiles *)
  regexp_valid : pystr -> bool;
  (** [regexp_matches(text, pattern[, 'i'])] for such a pattern *)
  regexp_matches : bool -> pystr -> pystr -> bool;
  (** [try_cast(text AS DOUBLE)] *)
  try_double : pystr -> option pyfloat;
  (** [CAST(x AS VARCHAR)] of a DOUBLE *)
  double_text : pyfloat -> pystr;
  flip_coordinates : G -> G;
  length_spheroid : G -> pyfloat
}.

(** * Expressions *)
Inductive cmp_op := CLt | CLe | CGt | CGe | CEq | CNe.
Inductive arith_op := AAdd | ASub | AMul | ADiv.

Inductive sqlx :=
  | XText (v : pystr)                                  (** ['v'], quotes doubled *)
  | XNum (digits : pystr) (v : Z)                      (** an integer literal *)
  | XDouble (digits : pystr) (v : pyfloat)             (** a literal with an exponent *)
  | XNull
  | XBool (b : bool)
  | XCol (qualifier name : pystr)                      (** [qualifier.name] *)
  | XQuoted (prefix name : pystr)                      (** [prefix"name"] *)
  | XBare (prefix name : pystr)                        (** [prefixname] *)
  | XIndex (e : sqlx) (k : sqlx)                       (** [e[k]] *)
  | XIsNull (e : sqlx)
  | XIsNotNull (e : sqlx)
  | XCmp (op : cmp_op) (a b : sqlx)
  | XNot (e : sqlx)
  | XAnd (a b : sqlx)
  | XOr (a b : sqlx)
  | XArith (op : arith_op) (a b : sqlx)
  | XNeg (e : sqlx)
  | XConcat (a b : sqlx)
  | XIn (e : sqlx) (sep : pystr) (vs : list sqlx)      (** [e IN (v1, v2)] *)
  | XBetween (e lo hi : sqlx)
  | XTimestamp (v : pystr)                             (** [TIMESTAMP 'v'] *)
  | XParen (e : sqlx)
  | XCall (f : pystr) (args : list sqlx)
  | XCast (e : sqlx) (ty : pystr)
  | XTryCast (e : sqlx) (ty : pystr)
  | XLambda (f : pystr) (e : sqlx) (x : pystr) (body : sqlx)   (** [f(e, x -> body)] *)
  | XCase (c1 t1 els : sqlx)
  | XCase2 (c1 t1 c2 t2 els : sqlx).

Definition cmp_text (op : cmp_op) : pystr :=
  match op with
  | CLt => u "<" | CLe => u "<=" | CGt => u ">" | CGe => u ">=" | CEq => u "=" | CNe => u "!="
  end.
Definition arith_text (op : arith_op) : pystr :=
  match op with AAdd => u "+" | ASub => u "-" | AMul => u "*" | ADiv => u "/" end.

(** The text of an expression. *)
Fixpoint show (e : sqlx) : pystr :=
  match e with
  | XText v => u "'" ++ double_quotes v ++ u "'"
  | XNum d _ | XDouble d _ => d
  | XNull => u "NULL"
  | XBool b => if b then u "TRUE" else u "FALSE"
  | XCol q n => q ++ u "." ++ n
  | XQuoted p n => p ++ [34] ++ n ++ [34]
  | XBare p n => p ++ n
  | XIndex e k => show e ++ u "[" ++ show k ++ u "]"
  | XIsNull e => show e ++ u " IS NULL"
  | XIsNotNull e => show e ++ u " IS NOT NULL"
  | XCmp op a b => show a ++ u " " ++ cmp_text op ++ u " " ++ show b
  | XNot e => u "NOT " ++ show e
  | XAnd a b => show a ++ u " AND " ++ show b
  | XOr a b => show a ++ u " OR " ++ show b
  | XArith op a b => show a ++ u " " ++ arith_text op ++ u " " ++ show b
  | XNeg e => u "-" ++ show e
  | XConcat a b => show a ++ u " || " ++ show b
  | XIn e sep vs => show e ++ u " IN (" ++ py_join sep (map show vs) ++ u ")"
  | XBetween e lo hi => show e ++ u " BETWEEN " ++ show lo ++ u " AND " ++ show hi
  | XTimestamp v => u "TIMESTAMP '" ++ double_quotes v ++ u "'"
  | XParen e => u "(" ++ show e ++ u ")"
  | XCall f args => f ++ u "(" ++ py_join (u ", ") (map show args) ++ u ")"
  | XCast e ty => u "CAST(" ++ show e ++ u " AS " ++ ty ++ u ")"
  | XTryCast e ty => u "try_cast(" ++ show e ++ u " AS " ++ ty ++ u ")"
  | XLambda f e x body => f ++ u "(" ++ show e ++ u ", " ++ x ++ u " -> " ++ show body ++ u ")"
  | XCase c1 t1 els => u "CASE WHEN " ++ show c1 ++ u " THEN " ++ show t1 ++ u " ELSE " ++ show els ++ u " END"
  | XCase2 c1 t1 c2 t2 els =>
      u "CASE WHEN " ++ show c1 ++ u " THEN " ++ show t1 ++ u " WHEN " ++ show c2 ++ u " THEN " ++ show t2 ++
      u " ELSE " ++ show els ++ u " END"
  end.

(** How tightly the head of an expression binds: 0 [OR], 1 [AND], 2 [NOT],
    3 [IS], 4 comparison, [IN] and [BETWEEN], 5 [||], 6 sums, 7 products, 8 unary minus, 9 the
    rest.  The text of a tree is read back as the tree when every operand binds
    tightly enough (operators of one level associate to the left). *)
Definition level (e : sqlx) : nat :=
  match e with
  | XOr _ _ => 0 | XAnd _ _ => 1 | XNot _ => 2 | XIsNull _ | XIsNotNull _ => 3 | XCmp _ _ _ | XIn _ _ _ | XBetween _ _ _ => 4
  | XConcat _ _ => 5
  | XArith (AAdd | ASub) _ _ => 6 | XArith _ _ _ => 7
  | XNeg _ => 8
  | _ => 9
  end%nat.
Definition at_least (n : nat) (e : sqlx) : bool := (n <=? level e)%nat.

Fixpoint readable (e : sqlx) : bool :=
  match e with
  | XText _ | XNum _ _ | XDouble _ _ | XNull | XBool _ | XCol _ _ | XQuoted _ _ | XBare _ _ | XTimestamp _ => true
  | XIndex e k => at_least 9 e && readable e && readable k
  | XIsNull e | XIsNotNull e => at_least 4 e && readable e
  | XCmp _ a b => at_least 5 a && at_least 5 b && readable a && readable b
  | XNot e => at_least 2 e && readable e
  | XAnd a b => at_least 1 a && at_least 2 b && readable a && readable b
  | XOr a b => at_least 0 a && at_least 1 b && readable a && readable b
  | XConcat a b => at_least 5 a && at_least 6 b && readable a && readable b
  | XArith (AAdd | ASub) a b => at_least 6 a && at_least 7 b && readable a && readable b
  | XArith _ a b => at_least 7 a && at_least 8 b && readable a && readable b
  | XNeg e => at_least 8 e && readable e
  | XIn e _ vs => at_least 5 e && readable e && forallb readable vs
  | XBetween e lo hi => at_least 5 e && at_least 5 lo && at_least 5 hi && readable e && readable lo && readable hi
  | XParen e | XCast e _ | XTryCast e _ => readable e
  | XCall _ args => forallb readable args
  | XLambda _ e _ body => readable e && readable body
  | XCase c1 t1 els => readable c1 && readable t1 && readable els
  | XCase2 c1 t1 c2 t2 els => readable c1 && readable t1 && readable c2 && readable t2 && readable els
  end.

(** * Values *)
Inductive sval (G : Type) :=
  | VNull
  | VBool (b : bool)
  | VText (s : pystr)
  | VInt (n : Z)
  | VDouble (x : pyfloat)
  | VTime (t : datetime)
  | VGeom (g : G)
  | VList (l : list (sval G))
  | VStruct (fields : list (pystr * sval G))
  | VMap (m : list (pystr * pystr)).
Arguments VNull {G}. Arguments VBool {G} _. Arguments VText {G} _. Arguments VInt {G} _.
Arguments VDouble {G} _. Arguments VTime {G} _. Arguments VGeom {G} _. Arguments VList {G} _.
Arguments VStruct {G} _. Arguments VMap {G} _.

(** ** DOUBLE *)
Definition is_nan (x : pyfloat) : bool := match x with S754_nan => true | _ => false end.
(** DuckDB's order on DOUBLE: NaN equals itself and is above every number. *)
Definition deq (x y : pyfloat) : bool := is_nan x && is_nan y || feqb x y.
Definition dlt (x y : pyfloat) : bool := negb (is_nan x) && (is_nan y || fltb x y).
Definition dcmp (op : cmp_op) (x y : pyfloat) : bool :=
  match op with
  | CLt => dlt x y | CLe => dlt x y || deq x y | CGt => dlt y x | CGe => dlt y x || deq x y
  | CEq => deq x y | CNe => negb (deq x y)
  end.
Definition darith (op : arith_op) : pyfloat -> pyfloat -> pyfloat :=
  match op with AAdd => fadd | ASub => fsub | AMul => fmul | ADiv => fdiv end.
Definition ffloor (x : pyfloat) : pyfloat :=
  match x with
  | S754_finite s m e => if 0 <=? e then x else if floor_of_float x is Ok n then float_of_Z n else x
  | _ => x
  end.
Definition bigint (n : Z) : bool := (- 2 ^ 63 <=? n) && (n <? 2 ^ 63).

(** ** Other types *)
Definition zcmp (op : cmp_op) (a b : Z) : bool :=
  match op with
  | CLt => a <? b | CLe => a <=? b | CGt => b <? a | CGe => b <=? a | CEq => a =? b | CNe => negb (a =? b)
  end.
(** Texts compare by code point (the order of their UTF-8 bytes). *)
Definition scmp (op : cmp_op) (a b : pystr) : bool :=
  match op with
  | CLt => negb (str_leb b a) | CLe => str_leb a b | CGt => negb (str_leb a b) | CGe => str_leb b a
  | CEq => a =s b | CNe => negb (a =s b)
  end.
(** The fields of a time stamp, most significant first. *)
Definition time_fields (t : datetime) : list Z := [year t; month t; day t; hour_ t; minute t; second t].
Definition tcmp (op : cmp_op) (a b : datetime) : bool := scmp op (time_fields a) (time_fields b).

(** [strftime(t, '%Y-%m-%dT%H:%M:%SZ')] *)
Definition iso_text (t : datetime) : pystr :=
  let two n := zero_pad 2 (str_of_Z n) in
  zero_pad 4 (str_of_Z (year t)) ++ u "-" ++ two (month t) ++ u "-" ++ two (day t) ++ u "T" ++
  two (hour_ t) ++ u ":" ++ two (minute t) ++ u ":" ++ two (second t) ++ u "Z".
Definition iso_format : pystr := u "%Y-%m-%dT%H:%M:%SZ".

(** [TIMESTAMP 'YYYY-MM-DDTHH:MM:SS'] *)
Definition timestamp_literal `{UnicodeDB} (v : pystr) : option datetime := strptime (v ++ u "Z").

Section Eval.
Context `{UnicodeDB} {G : Type} `{DuckDB G}.
Abbreviation value := (sval G).

Definition sql_cmp (op : cmp_op) (a b : value) : option value :=
  match a, b with
  | VNull, _ | _, VNull => Some VNull
  | VText s, VText t => Some (VBool (scmp op s t))
  | VInt n, VInt m => Some (VBool (zcmp op n m))
  | VDouble x, VDouble y => Some (VBool (dcmp op x y))
  | VDouble x, VInt n => Some (VBool (dcmp op x (float_of_Z n)))
  | VInt n, VDouble x => Some (VBool (dcmp op (float_of_Z n) x))
  | VTime t, VTime v => Some (VBool (tcmp op t v))
  | _, _ => None
  end.

(** Three-valued logic. *)
Definition sql_and (a b : value) : option value :=
  match a, b with
  | VBool false, (VBool _ | VNull) | (VBool _ | VNull), VBool false => Some (VBool false)
  | VBool true, VBool true => Some (VBool true)
  | VNull, (VBool _ | VNull) | VBool _, VNull => Some VNull
  | _, _ => None
  end.
Definition sql_not (a : value) : option value :=
  match a with VBool b => Some (VBool (negb b)) | VNull => Some VNull | _ => None end.
Definition sql_or (a b : value) : option value :=
  match a, b with
  | VBool true, (VBool _ | VNull) | (VBool _ | VNull), VBool true => Some (VBool true)
  | VBool false, VBool false => Some (VBool false)
  | VNull, (VBool _ | VNull) | VBool _, VNull => Some VNull
  | _, _ => None
  end.

Definition as_double (v : value) : option pyfloat :=
  match v with VDouble x => Some x | VInt n => Some (float_of_Z n) | _ => None end.
Definition sql_arith (op : arith_op) (a b : value) : option value :=
  match a, b with
  | VNull, _ | _, VNull => Some VNull
  | VInt _, VInt _ => None       (* no such arithmetic in the generated texts *)
  | _, _ => match as_double a, as_double b with
            | Some x, Some y => Some (VDouble (darith op x y))
            | _, _ => None
            end
  end.
Definition sql_neg (a : value) : option value :=
  match a with VNull => Some VNull | VDouble x => Some (VDouble (fopp x)) | VInt n => Some (VInt (- n)) | _ => None end.
Definition sql_concat (a b : value) : option value :=
  match a, b with
  | VNull, _ | _, VNull => Some VNull
  | VText s, VText t => Some (VText (s ++ t))
  | _, _ => None
  end.

Definition sql_cast (ty : pystr) (v : value) : option value :=
  match v with
  | VNull => Some VNull
  | VText s => if ty =s u "VARCHAR" then Some v
               else if ty =s u "DOUBLE" then VDouble <$> try_double s else None
  | VInt n => if ty =s u "VARCHAR" then Some (VText (str_of_Z n))
              else if ty =s u "BIGINT" then Some v
              else if ty =s u "DOUBLE" then Some (VDouble (float_of_Z n)) else None
  | VDouble x => if ty =s u "VARCHAR" then Some (VText (double_text x))
                 else if ty =s u "DOUBLE" then Some v
                 else if ty =s u "BIGINT" then
                   match round_of_float x with
                   | Ok n => if bigint n then Some (VInt n) else None
                   | Raise _ => None
                   end
                 else None
  | _ => None
  end.
Definition sql_try_cast (ty : pystr) (v : value) : option value :=
  match v with
  | VText s => if ty =s u "DOUBLE" then Some (default VNull (VDouble <$> try_double s)) else None
  | _ => sql_cast ty v
  end.

(** Equality of list elements, for [list_distinct]. *)
Definition same_value (a b : value) : bool :=
  match a, b with VInt n, VInt m => n =? m | VText s, VText t => s =s t | _, _ => false end.
Fixpoint distinct (l : list value) : list value :=
  match l with
  | [] => []
  | v :: l => if existsb (same_value v) l then distinct l else v :: distinct l
  end.
Fixpoint bool_or (l : list value) : option value :=
  match l with
  | [] => Some VNull
  | VBool b :: l => match bool_or l with
                    | Some VNull => Some (VBool b)
                    | Some (VBool c) => Some (VBool (b || c))
                    | _ => None
                    end
  | VNull :: l => bool_or l
  | _ => None
  end.

Definition entry (kv : pystr * pystr) : value := VStruct [(u "key", VText kv.1); (u "value", VText kv.2)].
Definition null_or (f : value -> option value) (v : value) : option value :=
  match v with VNull => Some VNull | _ => f v end.
Definition count_of {A} (l : list A) : value := VInt (Z.of_nat (length l)).

Definition sql_call (f : pystr) (args : list value) : option value :=
  match args with
  | [a] =>
      if f =s u "floor" then null_or (fun v => VDouble ∘ ffloor <$> as_double v) a
      else if f =s u "abs" then null_or (fun v => VDouble ∘ fabs <$> as_double v) a
      else if f =s u "cardinality" then null_or (fun v => if v is VMap m then Some (count_of m) else None) a
      else if f =s u "map_entries" then
        null_or (fun v => if v is VMap m then Some (VList (map entry m)) else None) a
      else if f =s u "array_length" then null_or (fun v => if v is VList l then Some (count_of l) else None) a
      else if f =s u "list_distinct" then
        null_or (fun v => if v is VList l then Some (VList (distinct l)) else None) a
      else if f =s u "list_first" then
        null_or (fun v => if v is VList l then Some (default VNull (head l)) else None) a
      else if f =s u "list_last" then
        null_or (fun v => if v is VList l then Some (default VNull (last l)) else None) a
      else if f =s u "list_bool_or" then null_or (fun v => if v is VList l then bool_or l else None) a
      else if f =s u "ST_FlipCoordinates" then
        null_or (fun v => if v is VGeom g then Some (VGeom (flip_coordinates g)) else None) a
      else if f =s u "ST_Length_Spheroid" then
        null_or (fun v => if v is VGeom g then Some (VDouble (length_spheroid g)) else None) a
      else None
  | [a; b] =>
      if f =s u "COALESCE" then Some (match a with VNull => b | _ => a end)
      else if f =s u "regexp_matches" then
        match a, b with
        | VNull, VText p => if regexp_valid p then Some VNull else None
        | VText s, VText p => if regexp_valid p then Some (VBool (regexp_matches false s p)) else None
        | _, _ => None
        end
      else if f =s u "strftime" then
        match a, b with
        | VNull, VText _ => Some VNull
        | VTime t, VText fmt => if fmt =s iso_format then Some (VText (iso_text t)) else None
        | _, _ => None
        end
      else None
  | [a; b; c] =>
      if f =s u "regexp_matches" then
        match a, b, c with
        | VNull, VText p, VText _ => if regexp_valid p then Some VNull else None
        | VText s, VText p, VText o =>
            if (o =s u "i") && regexp_valid p then Some (VBool (regexp_matches true s p)) else None
        | _, _, _ => None
        end
      else None
  | _ => None
  end.

Definition map_get (m : list (pystr * pystr)) (k : pystr) : value :=
  match List.find (fun kv => kv.1 =s k) m with Some kv => VText kv.2 | None => VNull end.
Definition sql_index (a k : value) : option value :=
  match a, k with
  | VNull, VText _ => Some VNull
  | VMap m, VText k => Some (map_get m k)
  | _, _ => None
  end.

(** [e IN (v1, ...)] *)
Definition sql_in (e : value) (vs : list value) : option value :=
  match mapM (sql_cmp CEq e) vs with
  | Some (r :: rs) => foldr (fun x acc => acc ≫= sql_or x) (Some r) rs
  | _ => None
  end.

Definition field_of (v : value) (name : pystr) : option value :=
  match v with
  | VStruct fs => snd <$> List.find (fun f => f.1 =s name) fs
  | _ => None
  end.
Definition is_true (v : value) : bool := match v with VBool b => b | _ => false end.

(** The columns of the row being read: by the text before the name, and the
    name. *)
Definition row_env := pystr -> pystr -> option value.

(** The value of an expression on a row; [None] is an error (an unknown column,
    a type mismatch, a conversion that fails).  [vars] are the lambda's
    parameters in scope. *)
Fixpoint eval (row : row_env) (vars : list (pystr * value)) (e : sqlx) : option value :=
  match e with
  | XText v => Some (VText v)
  | XNum _ n => Some (VInt n)
  | XDouble _ x => Some (VDouble x)
  | XNull => Some VNull
  | XBool b => Some (VBool b)
  | XCol q n =>
      match List.find (fun b => b.1 =s q) vars with
      | Some b => field_of b.2 n
      | None => row (q ++ u ".") n
      end
  | XQuoted p n | XBare p n => row p n
  | XIndex a k => eval row vars a ≫= fun v => eval row vars k ≫= sql_index v
  | XIsNull e => (fun v => VBool (match v with VNull => true | _ => false end)) <$> eval row vars e
  | XIsNotNull e => (fun v => VBool (match v with VNull => false | _ => true end)) <$> eval row vars e
  | XCmp op a b => eval row vars a ≫= fun v => eval row vars b ≫= sql_cmp op v
  | XNot e => eval row vars e ≫= sql_not
  | XAnd a b => eval row vars a ≫= fun v => eval row vars b ≫= sql_and v
  | XOr a b => eval row vars a ≫= fun v => eval row vars b ≫= sql_or v
  | XArith op a b => eval row vars a ≫= fun v => eval row vars b ≫= sql_arith op v
  | XNeg e => eval row vars e ≫= sql_neg
  | XConcat a b => eval row vars a ≫= fun v => eval row vars b ≫= sql_concat v
  | XIn e _ vs => eval row vars e ≫= fun v => mapM (eval row vars) vs ≫= sql_in v
  | XBetween e lo hi =>
      eval row vars e ≫= fun v => eval row vars lo ≫= fun l => eval row vars hi ≫= fun h =>
      sql_cmp CGe v l ≫= fun a => sql_cmp CLe v h ≫= sql_and a
  | XTimestamp v => VTime <$> timestamp_literal v
  | XParen e => eval row vars e
  | XCall f args => mapM (eval row vars) args ≫= sql_call f
  | XCast e ty => eval row vars e ≫= sql_cast ty
  | XTryCast e ty => eval row vars e ≫= sql_try_cast ty
  | XLambda f e x body =>
      eval row vars e ≫= null_or (fun v =>
        match v with
        | VList l =>
            if f =s u "list_transform" then VList <$> mapM (fun y => eval row ((x, y) :: vars) body) l
            else if f =s u "list_filter" then
              (fun bs => VList (map fst (base.filter (fun yb => is_true yb.2 = true) (zip l bs)))) <$>
              mapM (fun y => eval row ((x, y) :: vars) body) l
            else None
        | _ => None
        end)
  | XCase c t els =>
      eval row vars c ≫= fun v =>
      match v with
      | VBool true => eval row vars t
      | VBool false | VNull => eval row vars els
      | _ => None
      end
  | XCase2 c1 t1 c2 t2 els =>
      eval row vars c1 ≫= fun v =>
      match v with
      | VBool true => eval row vars t1
      | VBool false | VNull =>
          eval row vars c2 ≫= fun v =>
          match v with
          | VBool true => eval row vars t2
          | VBool false | VNull => eval row vars els
          | _ => None
          end
      | _ => None
      end
  end.

(** A statement is bound before it reads any row, and its constant patterns are
    compiled then: one that does not compile fails the statement. *)
Fixpoint patterns_valid (e : sqlx) : bool :=
  match e with
  | XText _ | XNum _ _ | XDouble _ _ | XNull | XBool _ | XCol _ _ | XQuoted _ _ | XBare _ _ | XTimestamp _ => true
  | XIsNull e | XIsNotNull e | XNot e | XNeg e | XParen e | XCast e _ | XTryCast e _ => patterns_valid e
  | XIndex a b | XCmp _ a b | XAnd a b | XOr a b | XArith _ a b | XConcat a b => patterns_valid a && patterns_valid b
  | XIn e _ vs => patterns_valid e && forallb patterns_valid vs
  | XBetween a b c | XCase a b c => patterns_valid a && patterns_valid b && patterns_valid c
  | XCall f args =>
      forallb patterns_valid args &&
      (if f =s u "regexp_matches" then match args with _ :: XText p :: _ => regexp_valid p | _ => true end else true)
  | XLambda _ e _ body => patterns_valid e && patterns_valid body
  | XCase2 a b c d e => patterns_valid a && patterns_valid b && patterns_valid c && patterns_valid d && patterns_valid e
  end.
Definition bound (e : sqlx) : res unit := if patterns_valid e then Ok tt else Raise DuckDBError.

(** [WHERE e]: the rows on which the condition is true. *)
Definition where_true (row : row_env) (e : sqlx) : bool :=
  match eval row [] e with Some v => is_true v | None => false end.
End Eval.

(** Texts that differ only in how they were cut into pieces. *)
Ltac text_eq :=
  rewrite <- ?app_assoc; rewrite ?app_nil_r;
  lazy beta iota delta [app u map String.list_ascii_of_string Ascii.N_of_ascii Ascii.N_of_digits Z.of_N
    N.add N.mul Pos.add Pos.mul Pos.succ]; reflexivity.

(** * Induction, lists of arguments included *)
Section Induction.
Context (P : sqlx -> Prop).
Context (H_text : forall v, P (XText v)) (H_num : forall d v, P (XNum d v)) (H_double : forall d v, P (XDouble d v))
  (H_null : P XNull) (H_bool : forall b, P (XBool b)) (H_col : forall q n, P (XCol q n))
  (H_quoted : forall p n, P (XQuoted p n)) (H_bare : forall p n, P (XBare p n))
  (H_index : forall e k, P e -> P k -> P (XIndex e k))
  (H_is_null : forall e, P e -> P (XIsNull e)) (H_is_not_null : forall e, P e -> P (XIsNotNull e))
  (H_cmp : forall op a b, P a -> P b -> P (XCmp op a b)) (H_not : forall e, P e -> P (XNot e))
  (H_and : forall a b, P a -> P b -> P (XAnd a b)) (H_or : forall a b, P a -> P b -> P (XOr a b))
  (H_arith : forall op a b, P a -> P b -> P (XArith op a b)) (H_neg : forall e, P e -> P (XNeg e))
  (H_concat : forall a b, P a -> P b -> P (XConcat a b))
  (H_in : forall e sep vs, P e -> Forall P vs -> P (XIn e sep vs))
  (H_between : forall e lo hi, P e -> P lo -> P hi -> P (XBetween e lo hi))
  (H_timestamp : forall v, P (XTimestamp v)) (H_paren : forall e, P e -> P (XParen e))
  (H_call : forall f args, Forall P args -> P (XCall f args))
  (H_cast : forall e ty, P e -> P (XCast e ty)) (H_try_cast : forall e ty, P e -> P (XTryCast e ty))
  (H_lambda : forall f e x body, P e -> P body -> P (XLambda f e x body))
  (H_case : forall c t els, P c -> P t -> P els -> P (XCase c t els))
  (H_case2 : forall c t c' t' els, P c -> P t -> P c' -> P t' -> P els -> P (XCase2 c t c' t' els)).

Fixpoint sqlx_nested_ind (e : sqlx) : P e :=
  let all := fix all l : Forall P l :=
    match l with [] => @List.Forall_nil _ P | x :: l => @List.Forall_cons _ P x l (sqlx_nested_ind x) (all l) end in
  match e with
  | XText v => H_text v | XNum d v => H_num d v | XDouble d v => H_double d v | XNull => H_null
  | XBool b => H_bool b | XCol q n => H_col q n | XQuoted p n => H_quoted p n | XBare p n => H_bare p n
  | XIndex e k => H_index e k (sqlx_nested_ind e) (sqlx_nested_ind k)
  | XIsNull e => H_is_null e (sqlx_nested_ind e) | XIsNotNull e => H_is_not_null e (sqlx_nested_ind e)
  | XCmp op a b => H_cmp op a b (sqlx_nested_ind a) (sqlx_nested_ind b)
  | XNot e => H_not e (sqlx_nested_ind e)
  | XAnd a b => H_and a b (sqlx_nested_ind a) (sqlx_nested_ind b)
  | XOr a b => H_or a b (sqlx_nested_ind a) (sqlx_nested_ind b)
  | XArith op a b => H_arith op a b (sqlx_nested_ind a) (sqlx_nested_ind b)
  | XNeg e => H_neg e (sqlx_nested_ind e)
  | XConcat a b => H_concat a b (sqlx_nested_ind a) (sqlx_nested_ind b)
  | XIn e sep vs => H_in e sep vs (sqlx_nested_ind e) (all vs)
  | XBetween e lo hi => H_between e lo hi (sqlx_nested_ind e) (sqlx_nested_ind lo) (sqlx_nested_ind hi)
  | XTimestamp v => H_timestamp v
  | XParen e => H_paren e (sqlx_nested_ind e)
  | XCall f args => H_call f args (all args)
  | XCast e ty => H_cast e ty (sqlx_nested_ind e)
  | XTryCast e ty => H_try_cast e ty (sqlx_nested_ind e)
  | XLambda f e x body => H_lambda f e x body (sqlx_nested_ind e) (sqlx_nested_ind body)
  | XCase c t els => H_case c t els (sqlx_nested_ind c) (sqlx_nested_ind t) (sqlx_nested_ind els)
  | XCase2 c t c' t' els =>
      H_case2 c t c' t' els (sqlx_nested_ind c) (sqlx_nested_ind t) (sqlx_nested_ind c') (sqlx_nested_ind t')
        (sqlx_nested_ind els)
  end.
End Induction.

(** * The literals of a text *)

(** The string literals of an expression, in the order of its text. *)
Fixpoint literals (e : sqlx) : list pystr :=
  match e with
  | XText v | XTimestamp v => [v]
  | XNum _ _ | XDouble _ _ | XNull | XBool _ | XCol _ _ | XQuoted _ _ | XBare _ _ => []
  | XIsNull e | XIsNotNull e | XNot e | XNeg e | XParen e | XCast e _ | XTryCast e _ => literals e
  | XIndex a b | XCmp _ a b | XAnd a b | XOr a b | XArith _ a b | XConcat a b => literals a ++ literals b
  | XLambda _ e _ body => literals e ++ literals body
  | XIn e _ vs => literals e ++ concat (map literals vs)
  | XCall _ args => concat (map literals args)
  | XBetween a b c | XCase a b c => literals a ++ literals b ++ literals c
  | XCase2 a b c d e => literals a ++ literals b ++ literals c ++ literals d ++ literals e
  end.

(** Names, types and numbers are spelled without quotes. *)
Fixpoint plain (e : sqlx) : bool :=
  match e with
  | XText _ | XTimestamp _ | XNull | XBool _ => true
  | XNum d _ | XDouble d _ => no_quote d
  | XCol q n | XQuoted q n | XBare q n => no_quote q && no_quote n
  | XIsNull e | XIsNotNull e | XNot e | XNeg e | XParen e => plain e
  | XCast e ty | XTryCast e ty => plain e && no_quote ty
  | XIndex a b | XCmp _ a b | XAnd a b | XOr a b | XArith _ a b | XConcat a b => plain a && plain b
  | XLambda f e x body => no_quote f && no_quote x && plain e && plain body
  | XIn e sep vs => plain e && no_quote sep && negb (sep =s []) && forallb plain vs
  | XCall f args => no_quote f && forallb plain args
  | XBetween a b c | XCase a b c => plain a && plain b && plain c
  | XCase2 a b c d e => plain a && plain b && plain c && plain d && plain e
  end.

Definition starts_plain (t : pystr) : Prop := match t with c :: _ => (c =? 39) = false | [] => True end.

(** What follows an expression is scanned after its literals. *)
Definition scans (s : pystr) (ls : list pystr) : Prop :=
  forall t, starts_plain t -> sql_scan (s ++ t) None = app ls <$> sql_scan t None.

Lemma fmap_app_nil {A} (o : option (list A)) : app [] <$> o = o.
Proof. by destruct o. Qed.
Lemma fmap_app_app {A} (l m : list A) (o : option (list A)) : app l <$> (app m <$> o) = app (l ++ m) <$> o.
Proof. destruct o; cbn; [by rewrite app_assoc|done]. Qed.

Lemma scans_plain s : no_quote s = true -> scans s [].
Proof. intros Hs t _. by rewrite sql_scan_skip, fmap_app_nil. Qed.
Lemma scans_text v : scans (u "'" ++ double_quotes v ++ u "'") [v].
Proof.
  intros t Ht. change (u "'") with [39]. rewrite <- !app_assoc. cbn [app]. destruct t as [|c t].
  - by rewrite sql_scan_literal_end.
  - rewrite sql_scan_literal by done. by destruct (sql_scan _ _).
Qed.

(** A text followed by one that does not start with a quote. *)
Lemma scans_app s ls s' ls' : scans s ls -> scans s' ls' -> starts_plain s' -> s' <> [] -> scans (s ++ s') (ls ++ ls').
Proof.
  intros H1 H2 Hp Hne t Ht. rewrite <- app_assoc, H1, H2, fmap_app_app; [done|done|].
  by destruct s'.
Qed.
(** A quote-free text followed by any. *)
Lemma scans_skip s s' ls' : no_quote s = true -> scans s' ls' -> scans (s ++ s') ls'.
Proof. intros Hs H2 t Ht. by rewrite <- app_assoc, sql_scan_skip, H2. Qed.

Lemma no_quote_app s t : no_quote (s ++ t) = no_quote s && no_quote t.
Proof. apply forallb_app. Qed.
Lemma no_quote_starts s : no_quote s = true -> starts_plain s.
Proof. destruct s as [|c s]; [done|]. intros [Hc _]%andb_prop. by apply negb_true_iff in Hc. Qed.

Lemma scans_end s ls sep : scans s ls -> no_quote sep = true -> sep <> [] -> scans (s ++ sep) ls.
Proof.
  intros H1 Hs Hne. rewrite <- (app_nil_r ls). apply scans_app; [done|by apply scans_plain|by apply no_quote_starts|done].
Qed.
Lemma scans_then s ls sep s' ls' :
  scans s ls -> no_quote sep = true -> sep <> [] -> scans s' ls' -> scans (s ++ sep ++ s') (ls ++ ls').
Proof.
  intros H1 Hs Hne H2. apply scans_app; [done|by apply scans_skip| |by destruct sep].
  destruct sep; [done|]. by apply (no_quote_starts (_ :: _)) in Hs.
Qed.

Lemma scans_join sep args : no_quote sep = true -> sep <> [] ->
  Forall (fun e => scans (show e) (literals e)) args ->
  scans (py_join sep (map show args)) (concat (map literals args)).
Proof.
  intros Hs Hne. induction 1 as [|e args He Hargs IH]; [by apply scans_plain|].
  destruct args as [|e' args]; cbn [map py_join concat].
  - by rewrite app_nil_r.
  - by apply scans_then.
Qed.

Lemma forall_scans (args : list sqlx) :
  Forall (fun e => plain e = true -> scans (show e) (literals e)) args -> forallb plain args = true ->
  Forall (fun e => scans (show e) (literals e)) args.
Proof. induction 1 as [|e args He _ IH]; cbn; [constructor|]. intros [? ?]%andb_prop. constructor; auto. Qed.

Ltac quote_free := first [assumption | reflexivity | match goal with op : cmp_op |- _ => by destruct op end
                         | match goal with op : arith_op |- _ => by destruct op end].
Ltac scanning :=
  repeat first
    [ assumption | apply scans_text
    | apply scans_skip; [quote_free|]
    | apply scans_then; [|quote_free|discriminate|]
    | apply scans_end; [|quote_free|discriminate]
    | apply scans_plain; quote_free ].

Lemma cast_scans f e ty ls : no_quote f = true -> scans e ls -> no_quote ty = true ->
  scans (f ++ e ++ u " AS " ++ ty ++ u ")") ls.
Proof.
  intros Hf He Ht. apply scans_skip; [done|]. apply (scans_end e ls (u " AS " ++ ty ++ u ")")); [done| |done].
  by rewrite !no_quote_app, Ht.
Qed.

Lemma show_scans e : plain e = true -> scans (show e) (literals e).
Proof.
  induction e using sqlx_nested_ind; cbn [plain show literals]; intros Hp;
    repeat match goal with H : _ && _ = true |- _ => apply andb_prop in H as [? ?] end;
    repeat match goal with H : ?a -> scans _ _, H' : ?a |- _ => specialize (H H') end;
    try (scanning; fail).
  all: try (by destruct b; apply scans_plain).
  all: try (by apply scans_plain; rewrite ?no_quote_app; repeat (apply andb_true_intro; split)).
  - apply scans_then; [done|done|done|]. apply scans_end; [|done|done].
    apply scans_join; [done| |by apply forall_scans]. by intros ->.
  - apply scans_skip; [done|]. apply scans_skip; [done|]. apply scans_end; [|done|done].
    apply scans_join; [done|done|by apply forall_scans].
  - by apply cast_scans.
  - by apply cast_scans.
Qed.

(** The string literals of the text are those of the expression, each with its
    own value: no value can end its literal early. *)
Lemma show_literals e : plain e = true -> sql_literals (show e) = Some (literals e).
Proof.
  intros Hp. unfold sql_literals. rewrite <- (app_nil_r (show e)), (show_scans e Hp [] I).
  cbn. by rewrite app_nil_r.
Qed.

(** * Evaluation steps *)
Definition truth {G} (v : sval G) : Prop := match v with VBool _ | VNull => True | _ => False end.

Section EvalSteps.
Context `{UnicodeDB} {G : Type} `{DuckDB G} (row : @row_env G).

Lemma eval_and vars a b v w r : eval row vars a = Some v -> eval row vars b = Some w -> sql_and v w = r ->
  eval row vars (XAnd a b) = r.
Proof. intros Ha Hb <-. cbn [eval]. by rewrite Ha, Hb. Qed.
Lemma eval_is_not_null vars a v : eval row vars a = Some v ->
  eval row vars (XIsNotNull a) = Some (VBool (match v with VNull => false | _ => true end)).
Proof. intros Ha. cbn [eval]. by rewrite Ha. Qed.

Lemma eval_transform vars e x body l vs : eval row vars e = Some (VList l) ->
  mapM (fun y => eval row ((x, y) :: vars) body) l = Some vs ->
  eval row vars (XLambda (u "list_transform") e x body) = Some (VList vs).
Proof. intros He Hb. cbn [eval]. rewrite He. cbn [mbind option_bind null_or]. rewrite str_eqb_refl. by rewrite Hb. Qed.

Lemma eval_filter vars e x body l bs : eval row vars e = Some (VList l) ->
  mapM (fun y => eval row ((x, y) :: vars) body) l = Some bs ->
  eval row vars (XLambda (u "list_filter") e x body) =
    Some (VList (map fst (base.filter (fun yb => is_true yb.2 = true) (zip l bs)))).
Proof.
  intros He Hb. cbn [eval]. rewrite He. cbn [mbind option_bind null_or].
  replace (u "list_filter" =s u "list_transform") with false by reflexivity. rewrite str_eqb_refl. by rewrite Hb.
Qed.

Lemma eval_call1 vars f a v w : eval row vars a = Some v -> sql_call f [v] = w -> eval row vars (XCall f [a]) = w.
Proof. intros Ha <-. cbn [eval mapM]. by rewrite Ha. Qed.
Lemma eval_call2 vars f a b v v' w : eval row vars a = Some v -> eval row vars b = Some v' ->
  sql_call f [v; v'] = w -> eval row vars (XCall f [a; b]) = w.
Proof. intros Ha Hb <-. cbn [eval mapM]. by rewrite Ha, Hb. Qed.

Lemma mapM_map {A B C} (h : C -> A) (f : A -> option B) (g : C -> B) (l : list C) :
  (forall x, f (h x) = Some (g x)) -> mapM f (map h l) = Some (map g l).
Proof. intros Hf. induction l as [|x l IH]; cbn; [done|]. by rewrite Hf, IH. Qed.
End EvalSteps.
