(* ===== verification/Schema.v ===== *)
(** [engine/schema.py]: the canonical columns of an Overpass set, the select
    list that fills them, and a row of a [set_<name>] table. *)
From S2P Require Import Prelude PyStr PyTime Json SqlExpr Osc.

(** [CANONICAL_TYPES]: name and DuckDB type, in the dict's order. *)
Definition CANONICAL_TYPES : list (pystr * pystr) := [
  (u "type", u "VARCHAR"); (u "id", u "BIGINT"); (u "cell", u "VARCHAR");
  (u "lat_e7", u "INTEGER"); (u "lon_e7", u "INTEGER"); (u "refs", u "BIGINT[]");
  (u "members", u "STRUCT(type VARCHAR, ref BIGINT, role VARCHAR)[]");
  (u "tags", u "MAP(VARCHAR, VARCHAR)"); (u "version", u "INTEGER");
  (u "changeset", u "BIGINT"); (u "timestamp", u "TIMESTAMP"); (u "uid", u "INTEGER");
  (u "user", u "VARCHAR"); (u "xmin_e7", u "INTEGER"); (u "ymin_e7", u "INTEGER");
  (u "xmax_e7", u "INTEGER"); (u "ymax_e7", u "INTEGER"); (u "geometry", u "GEOMETRY");
  (u "hilbert", u "UBIGINT") ].
Definition CANONICAL_COLUMNS : list pystr := map fst CANONICAL_TYPES.

(** [project(cols)]: the select list, a typed NULL for a column not given. *)
Definition project (cols : list (pystr * pystr)) : pystr :=
  py_join (u "," ++ [10] ++ u "  ")
    (map (fun nt => default (u "NULL::" ++ nt.2) (dict_get nt.1 cols) ++ u " AS " ++ [34] ++ nt.1 ++ [34])
       CANONICAL_TYPES).
Definition empty_set_sql : pystr := u "SELECT " ++ project [] ++ u " WHERE FALSE".

(** A row of a set.  [G] is the type of geometries; members carry the type
    letters of the base tables. *)
Record set_row (G : Type) := {
  s_type : pystr;
  s_id : Z;
  s_cell : option pystr;
  s_lat_e7 : option Z;
  s_lon_e7 : option Z;
  s_refs : option (list Z);
  s_members : option (list member);
  s_tags : option (list (pystr * pystr));
  s_version : option Z;
  s_changeset : option Z;
  s_timestamp : option PyTime.datetime;
  s_uid : option Z;
  s_user : option pystr;
  s_box : option (Z * Z * Z * Z);      (** xmin_e7, ymin_e7, xmax_e7, ymax_e7 *)
  s_geometry : option G;
  s_hilbert : option Z
}.
Arguments s_type {G} _. Arguments s_id {G} _. Arguments s_cell {G} _.
Arguments s_lat_e7 {G} _. Arguments s_lon_e7 {G} _. Arguments s_refs {G} _.
Arguments s_members {G} _. Arguments s_tags {G} _. Arguments s_version {G} _.
Arguments s_changeset {G} _. Arguments s_timestamp {G} _. Arguments s_uid {G} _.
Arguments s_user {G} _. Arguments s_box {G} _. Arguments s_geometry {G} _. Arguments s_hilbert {G} _.

(** The key every set operation compares. *)
Definition s_key {G} (r : set_row G) : pystr * Z := (s_type r, s_id r).

(** * Reading a row *)
Section Columns.
Context {G : Type}.

Definition or_null {A} (f : A -> sval G) (o : option A) : sval G := match o with Some x => f x | None => VNull end.
Lemma map_get_spec m k : map_get m k = or_null VText (dict_get k m).
Proof. unfold map_get. induction m as [|[k' v] m IH]; cbn; [done|]. by destruct (k' =s k). Qed.

Definition member_struct (m : member) : sval G :=
  VStruct [(u "type", VText (m_type m)); (u "ref", VInt (m_ref m)); (u "role", VText (m_role m))].

Definition column (r : set_row G) (name : pystr) : option (sval G) :=
  if name =s u "type" then Some (VText (s_type r))
  else if name =s u "id" then Some (VInt (s_id r))
  else if name =s u "cell" then Some (or_null VText (s_cell r))
  else if name =s u "lat_e7" then Some (or_null VInt (s_lat_e7 r))
  else if name =s u "lon_e7" then Some (or_null VInt (s_lon_e7 r))
  else if name =s u "refs" then Some (or_null (fun l => VList (map VInt l)) (s_refs r))
  else if name =s u "members" then Some (or_null (fun l => VList (map member_struct l)) (s_members r))
  else if name =s u "tags" then Some (or_null VMap (s_tags r))
  else if name =s u "version" then Some (or_null VInt (s_version r))
  else if name =s u "changeset" then Some (or_null VInt (s_changeset r))
  else if name =s u "timestamp" then Some (or_null VTime (s_timestamp r))
  else if name =s u "uid" then Some (or_null VInt (s_uid r))
  else if name =s u "user" then Some (or_null VText (s_user r))
  else if name =s u "xmin_e7" then Some (or_null (fun b => VInt b.1.1.1) (s_box r))
  else if name =s u "ymin_e7" then Some (or_null (fun b => VInt b.1.1.2) (s_box r))
  else if name =s u "xmax_e7" then Some (or_null (fun b => VInt b.1.2) (s_box r))
  else if name =s u "ymax_e7" then Some (or_null (fun b => VInt b.2) (s_box r))
  else if name =s u "geometry" then Some (or_null VGeom (s_geometry r))
  else if name =s u "hilbert" then Some (or_null VInt (s_hilbert r))
  else None.

(** The columns of a row under an alias. *)
Definition row_of (alias : pystr) (r : set_row G) : @row_env G := fun prefix name =>
  if prefix =s alias ++ u "." then column r name else None.
End Columns.
