(* ===== verification/TagSql.v ===== *)
(** [engine/tagsql.py]: tag filters as SQL conditions over the rows of the base
    and delta files, where promoted keys have columns of their own. *)
From S2P Require Import Prelude PyStr QlAst SqlText SqlExpr.

(** [_IDENT_OK] *)
Definition ident_ok (c : Z) : bool :=
  ((97 <=? c) && (c <=? 122)) || ((48 <=? c) && (c <=? 57)) || (c =? 95).
Definition _is_promotable_ident (key : pystr) : bool :=
  match key with [] => false | _ => forallb ident_ok key end.

Definition _sql_escape (s : pystr) : pystr := double_quotes s.

Definition _col_ref (key : pystr) (promoted_keys : list pystr) (prefix : pystr) : pystr * bool :=
  if str_in key promoted_keys && _is_promotable_ident key then (prefix ++ [34] ++ key ++ [34], true)
  else (prefix ++ u "tags['" ++ _sql_escape key ++ u "']", false).

Definition is_negative_only (filters : list TagFilter) : bool :=
  forallb (fun f => match tf_op f with OpNeq | OpNotExists => true | _ => false end) filters.

(** [f.value or ""] *)
Definition value_or_empty (f : TagFilter) : pystr := default [] (tf_value f).
Definition flag_text (f : TagFilter) : pystr := if case_insensitive f then u ", 'i'" else [].

Definition tag_filter_sql (f : TagFilter) (promoted_keys : list pystr) (prefix : pystr) : pystr :=
  if key_is_regex f then
    let key_pat := _sql_escape (tf_key f) in
    let val_pat := _sql_escape (value_or_empty f) in
    prefix ++ u "tags IS NOT NULL AND list_bool_or(list_transform(map_entries(" ++ prefix ++ u "tags), " ++
    u "e -> regexp_matches(e.key, '" ++ key_pat ++ u "') AND regexp_matches(e.value, '" ++ val_pat ++ u "'" ++
    flag_text f ++ u ")))"
  else
    let val_expr := (_col_ref (tf_key f) promoted_keys prefix).1 in
    let lit := _sql_escape (value_or_empty f) in
    match tf_op f with
    | OpExists => val_expr ++ u " IS NOT NULL"
    | OpNotExists => val_expr ++ u " IS NULL"
    | OpEq => val_expr ++ u " = '" ++ lit ++ u "'"
    | OpNeq => u "(" ++ val_expr ++ u " IS NULL OR " ++ val_expr ++ u " != '" ++ lit ++ u "')"
    | OpMatch =>
        val_expr ++ u " IS NOT NULL AND regexp_matches(" ++ val_expr ++ u ", '" ++ lit ++ u "'" ++ flag_text f ++ u ")"
    | OpNotMatch =>
        u "(" ++ val_expr ++ u " IS NULL OR NOT regexp_matches(" ++ val_expr ++ u ", '" ++ lit ++ u "'" ++
        flag_text f ++ u "))"
    end.

Definition tag_filters_sql (filters : list TagFilter) (promoted_keys : list pystr) (prefix : pystr) : pystr :=
  match map (fun f => tag_filter_sql f promoted_keys prefix) filters with
  | [] => u "TRUE"
  | parts => py_join (u " AND ") (map (fun p => u "(" ++ p ++ u ")") parts)
  end.

(** * The conditions as expressions *)
Section Ast.
Context (promoted_keys : list pystr) (prefix : pystr).

Definition col_ref_expr (key : pystr) : sqlx :=
  if str_in key promoted_keys && _is_promotable_ident key then XQuoted prefix key
  else XIndex (XBare prefix (u "tags")) (XText key).

Definition matches_expr (f : TagFilter) (e : sqlx) (pat : pystr) (flag : bool) : sqlx :=
  XCall (u "regexp_matches") ([e; XText pat] ++ if flag && case_insensitive f then [XText (u "i")] else []).

Definition tag_filter_expr (f : TagFilter) : sqlx :=
  if key_is_regex f then
    XAnd (XIsNotNull (XBare prefix (u "tags")))
      (XCall (u "list_bool_or")
        [XLambda (u "list_transform") (XCall (u "map_entries") [XBare prefix (u "tags")]) (u "e")
          (XAnd (matches_expr f (XCol (u "e") (u "key")) (tf_key f) false)
                (matches_expr f (XCol (u "e") (u "value")) (value_or_empty f) true))])
  else
    let e := col_ref_expr (tf_key f) in
    let lit := XText (value_or_empty f) in
    match tf_op f with
    | OpExists => XIsNotNull e
    | OpNotExists => XIsNull e
    | OpEq => XCmp CEq e lit
    | OpNeq => XParen (XOr (XIsNull e) (XCmp CNe e lit))
    | OpMatch => XAnd (XIsNotNull e) (matches_expr f e (value_or_empty f) true)
    | OpNotMatch => XParen (XOr (XIsNull e) (XNot (matches_expr f e (value_or_empty f) true)))
    end.

(** [TRUE], or the conjunction of the filters, each in parentheses. *)
Definition tag_filters_expr (filters : list TagFilter) : sqlx :=
  match map (fun f => XParen (tag_filter_expr f)) filters with
  | [] => XBool true
  | p :: ps => foldl XAnd p ps
  end.
End Ast.
