(* ===== verification/TagSqlFacts.v ===== *)
(** Theorems on tag filters: the text read as SQL selects exactly the rows the
    filters describe, whatever the keys and values hold. *)
From S2P Require Import Prelude PyStr Json QlAst SqlText SqlExpr Schema TagSql.

Section Text.
Context (promoted_keys : list pystr) (prefix : pystr).

Lemma show_col_ref key : show (col_ref_expr promoted_keys prefix key) = (_col_ref key promoted_keys prefix).1.
Proof. unfold col_ref_expr, _col_ref, _sql_escape. destruct (_ && _); cbn [show fst]; [done|text_eq]. Qed.

Lemma level_col_ref key : level (col_ref_expr promoted_keys prefix key) = 9%nat.
Proof. unfold col_ref_expr. by destruct (_ && _). Qed.
Lemma readable_col_ref key : readable (col_ref_expr promoted_keys prefix key) = true.
Proof. unfold col_ref_expr. by destruct (_ && _). Qed.

Lemma show_matches f e pat flag : show (matches_expr f e pat flag) =
  u "regexp_matches(" ++ show e ++ u ", '" ++ _sql_escape pat ++ u "'" ++ (if flag then flag_text f else []) ++ u ")".
Proof.
  unfold matches_expr, flag_text, _sql_escape.
  destruct flag, (case_insensitive f); cbn [andb app show map py_join]; text_eq.
Qed.
End Text.
Section Text.
Context (promoted_keys : list pystr) (prefix : pystr).

Lemma tag_filter_text f : show (tag_filter_expr promoted_keys prefix f) = tag_filter_sql f promoted_keys prefix.
Proof.
  unfold tag_filter_expr, tag_filter_sql. rewrite <- show_col_ref.
  destruct (key_is_regex f), (tf_op f); cbn [show map py_join]; rewrite ?show_matches; cbn [show];
    unfold _sql_escape, cmp_text; text_eq.
Qed.

Lemma tag_filter_readable f : readable (tag_filter_expr promoted_keys prefix f) = true.
Proof.
  unfold tag_filter_expr, matches_expr. pose proof (level_col_ref promoted_keys prefix (tf_key f)) as Hl.
  pose proof (readable_col_ref promoted_keys prefix (tf_key f)) as Hr.
  destruct (key_is_regex f); [by destruct (case_insensitive f)|].
  destruct (tf_op f), (case_insensitive f); cbn [readable andb app forallb];
    unfold at_least; cbn [level readable]; rewrite ?Hl, ?Hr; done.
Qed.

Lemma show_conjunction ps acc :
  show (foldl XAnd acc ps) = show acc ++ concat (map (fun p => u " AND " ++ show p) ps).
Proof.
  revert acc. induction ps as [|p ps IH]; intros acc; cbn [foldl map concat]; [by rewrite app_nil_r|].
  rewrite IH. cbn [show]. by rewrite <- !app_assoc.
Qed.
Lemma py_join_cons sep (p : pystr) ps : py_join sep (p :: ps) = p ++ concat (map (app sep) ps).
Proof.
  revert p. induction ps as [|q ps IH]; intros p; [by cbn; rewrite app_nil_r|].
  change (py_join sep (p :: q :: ps)) with (p ++ sep ++ py_join sep (q :: ps)). rewrite IH. cbn [map concat].
  by rewrite <- app_assoc.
Qed.

Lemma tag_filters_text fs : show (tag_filters_expr promoted_keys prefix fs) = tag_filters_sql fs promoted_keys prefix.
Proof.
  unfold tag_filters_expr, tag_filters_sql. destruct fs as [|f fs]; [done|]. cbn [map].
  rewrite show_conjunction, py_join_cons. cbn [show]. rewrite tag_filter_text. do 2 f_equal.
  rewrite !map_map. apply map_ext. intros g. cbn [show]. by rewrite tag_filter_text.
Qed.

(** A conjunction of parenthesised conditions. *)
Lemma conjunction_all (ok : sqlx -> bool) ps acc :
  (forall a b, ok (XAnd a b) = ok a && ok b) -> forallb ok (acc :: ps) = true -> ok (foldl XAnd acc ps) = true.
Proof.
  intros Hok. revert acc. induction ps as [|p ps IH]; intros acc; cbn [forallb foldl]; [by rewrite andb_true_r|].
  intros [Ha [Hp Hps]%andb_prop]%andb_prop. apply IH. cbn [forallb]. by rewrite Hok, Ha, Hp, Hps.
Qed.

Lemma conjunction_readable (fs : list sqlx) acc :
  readable acc = true -> at_least 1 acc = true -> forallb readable fs = true ->
  readable (foldl XAnd acc (map XParen fs)) = true.
Proof.
  revert acc. induction fs as [|f fs IH]; intros acc Ha Hl; [done|]. intros [Hf Hfs]%andb_prop.
  cbn [map foldl]. apply IH; [|done|done]. cbn [readable]. by rewrite Hl, Ha, Hf.
Qed.

Lemma tag_filters_readable fs : readable (tag_filters_expr promoted_keys prefix fs) = true.
Proof.
  unfold tag_filters_expr. destruct fs as [|f fs]; [done|]. cbn [map].
  rewrite <- (map_map (tag_filter_expr promoted_keys prefix) XParen). apply conjunction_readable; [|done|].
  - apply tag_filter_readable.
  - induction fs as [|g fs IH]; [done|]. cbn [map forallb]. by rewrite tag_filter_readable, IH.
Qed.

(** ** No quotes but those of the literals *)
Context (Hprefix : no_quote prefix = true).

Lemma ident_no_quote key : _is_promotable_ident key = true -> no_quote key = true.
Proof.
  destruct key as [|c key]; [done|]. unfold _is_promotable_ident, no_quote.
  generalize (c :: key). induction l as [|d l IH]; [done|]. cbn [forallb]. intros [Hd Hl]%andb_prop.
  rewrite IH by done. unfold ident_ok in Hd. destruct (Z.eqb_spec d 39) as [->|]; [done|done].
Qed.

Lemma col_ref_plain key : plain (col_ref_expr promoted_keys prefix key) = true.
Proof.
  unfold col_ref_expr. destruct (str_in key promoted_keys); cbn [andb]; [|cbn [plain]; by rewrite Hprefix].
  destruct (_is_promotable_ident key) eqn:E; cbn [plain]; rewrite Hprefix; [|done].
  by rewrite (ident_no_quote _ E).
Qed.

Lemma tag_filter_plain f : plain (tag_filter_expr promoted_keys prefix f) = true.
Proof.
  unfold tag_filter_expr, matches_expr. pose proof (col_ref_plain (tf_key f)) as Hc.
  destruct (key_is_regex f); [by destruct (case_insensitive f); cbn [plain forallb app andb]; rewrite !Hprefix|].
  destruct (tf_op f), (case_insensitive f); cbn [plain forallb app andb]; by rewrite ?Hc.
Qed.

Lemma tag_filters_plain fs : plain (tag_filters_expr promoted_keys prefix fs) = true.
Proof.
  assert (Hl : forall l, forallb plain (map (fun f => XParen (tag_filter_expr promoted_keys prefix f)) l) = true).
  { induction l as [|g l IH]; [done|]. cbn [map forallb]. rewrite IH. cbn [plain]. by rewrite tag_filter_plain. }
  unfold tag_filters_expr. destruct fs as [|f fs]; [done|]. cbn [map].
  apply (conjunction_all plain); [done|]. exact (Hl (f :: fs)).
Qed.

Lemma tag_filters_literals fs :
  sql_literals (tag_filters_sql fs promoted_keys prefix) = Some (literals (tag_filters_expr promoted_keys prefix fs)).
Proof. rewrite <- tag_filters_text. apply show_literals, tag_filters_plain. Qed.
End Text.

(** * Patterns *)
Section Patterns.
Context {G : Type} `{DuckDB G}.

(** The patterns of a filter compile. *)
Definition filter_valid (f : TagFilter) : bool :=
  if key_is_regex f then regexp_valid (tf_key f) && regexp_valid (value_or_empty f)
  else match tf_op f with OpMatch | OpNotMatch => regexp_valid (value_or_empty f) | _ => true end.
Definition filters_valid (fs : list TagFilter) : bool := forallb filter_valid fs.

Lemma col_ref_valid promoted_keys prefix k : patterns_valid (col_ref_expr promoted_keys prefix k) = true.
Proof. unfold col_ref_expr. by destruct (_ && _). Qed.
Lemma matches_valid f e pat flag : patterns_valid e = true -> patterns_valid (matches_expr f e pat flag) = regexp_valid pat.
Proof. intros He. unfold matches_expr. destruct (flag && case_insensitive f); cbn [app patterns_valid forallb]; by rewrite He. Qed.
Lemma tag_filter_valid promoted_keys prefix f : patterns_valid (tag_filter_expr promoted_keys prefix f) = filter_valid f.
Proof.
  unfold tag_filter_expr, filter_valid. pose proof (col_ref_valid promoted_keys prefix (tf_key f)) as Hc. destruct (key_is_regex f).
  - cbn [patterns_valid forallb]. rewrite !matches_valid by done. cbn. by rewrite !andb_true_r.
  - destruct (tf_op f); cbn [patterns_valid]; rewrite ?matches_valid, ?Hc by done; done.
Qed.
Lemma tag_filters_valid promoted_keys prefix fs : patterns_valid (tag_filters_expr promoted_keys prefix fs) = filters_valid fs.
Proof.
  unfold tag_filters_expr, filters_valid. destruct fs as [|f fs]; [done|]. cbn [map forallb].
  rewrite <- (tag_filter_valid promoted_keys prefix f). change (patterns_valid (tag_filter_expr promoted_keys prefix f))
    with (patterns_valid (XParen (tag_filter_expr promoted_keys prefix f))).
  generalize (XParen (tag_filter_expr promoted_keys prefix f)). induction fs as [|g fs IH]; intros acc; cbn [map foldl forallb]; [by rewrite andb_true_r|].
  rewrite IH. cbn [patterns_valid]. by rewrite tag_filter_valid, andb_assoc.
Qed.
End Patterns.

(** * Meaning *)
Section Meaning.
Context `{UnicodeDB} {G : Type} `{DuckDB G}.
Abbreviation tags_t := (option (list (pystr * pystr))).

Definition tag_get (k : pystr) (tags : tags_t) : option pystr := tags ≫= dict_get k.

(** What a filter asks of an element's tags. *)
Definition tag_matches (tags : tags_t) (f : TagFilter) : bool :=
  let v := value_or_empty f in
  let re := regexp_matches (case_insensitive f) in
  if key_is_regex f then
    match tags with
    | Some m => existsb (fun kv => regexp_matches false kv.1 (tf_key f) && re kv.2 v) m
    | None => false
    end
  else
    match tf_op f, tag_get (tf_key f) tags with
    | OpExists, x => match x with Some _ => true | None => false end
    | OpNotExists, x => match x with Some _ => false | None => true end
    | OpEq, x => match x with Some w => w =s v | None => false end
    | OpNeq, x => match x with Some w => negb (w =s v) | None => true end
    | OpMatch, x => match x with Some w => re w v | None => false end
    | OpNotMatch, x => match x with Some w => negb (re w v) | None => true end
    end.

(** A row of a base or delta file whose tags are [tags]: the map, and the
    promoted columns copied from it when the file was written. *)
Definition reads_tags (promoted_keys : list pystr) (prefix : pystr) (row : @row_env G) (tags : tags_t) : Prop :=
  row prefix (u "tags") = Some (match tags with Some m => VMap m | None => VNull end) /\
  forall k, str_in k promoted_keys = true -> row prefix k = Some (or_null VText (tag_get k tags)).

Context (promoted_keys : list pystr) (prefix : pystr) (row : @row_env G) (tags : tags_t).
Context (Hrow : reads_tags promoted_keys prefix row tags).

Lemma eval_col_ref vars k : eval row vars (col_ref_expr promoted_keys prefix k) = Some (or_null VText (tag_get k tags)).
Proof.
  destruct Hrow as [Ht Hp]. unfold col_ref_expr. destruct (str_in k promoted_keys) eqn:E; cbn [andb].
  - destruct (_is_promotable_ident k); cbn [eval]; [by apply Hp|].
    rewrite Ht. cbn. destruct tags as [m|]; [|done]. cbn. by rewrite map_get_spec.
  - cbn [eval]. rewrite Ht. cbn. destruct tags as [m|]; [|done]. cbn. by rewrite map_get_spec.
Qed.

Lemma eval_matches vars f e pat flag o : regexp_valid pat = true -> eval row vars e = Some (or_null VText o) ->
  eval row vars (matches_expr f e pat flag) =
    Some (match o with Some s => VBool (regexp_matches (flag && case_insensitive f) s pat) | None => VNull end).
Proof.
  intros Hv He. unfold matches_expr. destruct (flag && case_insensitive f); cbn [eval app mapM];
    rewrite He; destruct o; cbn; by rewrite Hv.
Qed.

Lemma bool_or_map {A} (g : A -> bool) (l : list A) :
  bool_or (map (fun x => VBool (g x)) l) = Some (match l with [] => VNull | _ => VBool (existsb g l) end) :> option (sval G).
Proof.
  induction l as [|x l IH]; [done|]. cbn [map bool_or]. rewrite IH. destruct l as [|y l]; cbn [existsb]; [|done].
  by rewrite orb_false_r.
Qed.

Definition entry_matches (f : TagFilter) (kv : pystr * pystr) : bool :=
  regexp_matches false kv.1 (tf_key f) && regexp_matches (case_insensitive f) kv.2 (value_or_empty f).

Lemma eval_entry vars f kv : regexp_valid (tf_key f) = true -> regexp_valid (value_or_empty f) = true ->
  eval row ((u "e", entry kv) :: vars)
    (XAnd (matches_expr f (XCol (u "e") (u "key")) (tf_key f) false)
          (matches_expr f (XCol (u "e") (u "value")) (value_or_empty f) true)) = Some (VBool (entry_matches f kv)).
Proof.
  intros Hk Hv. cbn [eval]. rewrite (eval_matches _ f _ _ false (Some kv.1)), (eval_matches _ f _ _ true (Some kv.2)) by done.
  unfold entry_matches. cbn. by destruct (regexp_matches false _ _), (regexp_matches (case_insensitive f) _ _).
Qed.

Lemma eval_key_regex vars f m : regexp_valid (tf_key f) = true -> regexp_valid (value_or_empty f) = true -> row prefix (u "tags") = Some (VMap m) ->
  eval row vars (XCall (u "list_bool_or")
    [XLambda (u "list_transform") (XCall (u "map_entries") [XBare prefix (u "tags")]) (u "e")
      (XAnd (matches_expr f (XCol (u "e") (u "key")) (tf_key f) false)
            (matches_expr f (XCol (u "e") (u "value")) (value_or_empty f) true))]) =
  Some (match m with [] => VNull | _ => VBool (existsb (entry_matches f) m) end).
Proof.
  intros Hk Hv Ht. eapply eval_call1; [eapply eval_transform|].
  - eapply eval_call1; [exact Ht|reflexivity].
  - exact (mapM_map entry _ _ m (fun kv => eval_entry vars f kv Hk Hv)).
  - exact (bool_or_map (entry_matches f) m).
Qed.

Ltac value_is := eexists; split_and!; [reflexivity|done|done].

(** With patterns that compile the condition is never an error, and it is true
    on the rows whose tags the filter matches. *)
Lemma tag_filter_meaning vars f : filter_valid f = true -> exists v, eval row vars (tag_filter_expr promoted_keys prefix f) = Some v /\
  truth v /\ is_true v = tag_matches tags f.
Proof.
  unfold filter_valid, tag_filter_expr, tag_matches. destruct (key_is_regex f).
  - intros [Hk Hv]%andb_prop. destruct Hrow as [Ht _]. destruct tags as [m|].
    + erewrite eval_and; [|by apply eval_is_not_null|by apply eval_key_regex|reflexivity].
      destruct m as [|kv m]; [value_is|]. fold (entry_matches f).
      cbn [sql_and]. destruct (existsb _ _); value_is.
    + cbn [eval mapM]. rewrite Ht. value_is.
  - intros Hv. pose proof (eval_col_ref vars (tf_key f)) as He.
    pose proof (fun Hv => eval_matches vars f _ (value_or_empty f) true _ Hv He) as Hm. cbn [andb] in Hm.
    destruct (tf_op f); try specialize (Hm Hv); cbn [eval]; rewrite ?Hm, ?He; destruct (tag_get (tf_key f) tags) as [w|]; cbn;
      try destruct (w =s value_or_empty f); try destruct (regexp_matches _ w _); cbn; value_is.
Qed.

Lemma eval_conjunction vars ps acc v (bs : sqlx -> bool) :
  eval row vars acc = Some v -> truth v ->
  (forall p, p ∈ ps -> exists w, eval row vars p = Some w /\ truth w /\ is_true w = bs p) ->
  exists w, eval row vars (foldl XAnd acc ps) = Some w /\ is_true w = is_true v && forallb bs ps.
Proof.
  revert acc v. induction ps as [|p ps IH]; intros acc v Ha Hv Hps; cbn [foldl forallb].
  - exists v. by rewrite andb_true_r.
  - destruct (Hps p) as (w & Hw & Hb & Ht); [left|].
    destruct (IH (XAnd acc p) (match sql_and v w with Some r => r | None => VNull end)) as (r & Hr & E).
    + rewrite (eval_and _ _ _ _ _ _ _ Ha Hw eq_refl).
      destruct v as [|[]| | | | | | | |], w as [|[]| | | | | | | |]; cbn in *; done.
    + destruct v as [|[]| | | | | | | |], w as [|[]| | | | | | | |]; cbn in *; try done.
    + intros q Hq. apply Hps. by right.
    + exists r. split; [done|]. rewrite E, <- Ht, andb_assoc. f_equal.
      destruct v as [|[]| | | | | | | |], w as [|[]| | | | | | | |]; cbn in *; done.
Qed.

Lemma tag_filters_meaning fs : filters_valid fs = true -> exists v, eval row [] (tag_filters_expr promoted_keys prefix fs) = Some v /\
  is_true v = forallb (tag_matches tags) fs.
Proof.
  unfold tag_filters_expr, filters_valid. destruct fs as [|f fs]; cbn [map forallb]; [by exists (VBool true)|].
  intros [Hf Hfs]%andb_prop. destruct (tag_filter_meaning [] f Hf) as (v & Hv & Hb & Ht).
  destruct (eval_conjunction [] (map (fun f => XParen (tag_filter_expr promoted_keys prefix f)) fs)
              (XParen (tag_filter_expr promoted_keys prefix f)) v
              (fun p => where_true row p)) as (w & Hw & E); [done|done| |].
  - intros p (g & -> & Hg)%elem_of_map. destruct (tag_filter_meaning [] g) as (x & Hx & Hxb & _);
      [apply list_elem_of_In in Hg; by eapply forallb_forall in Hfs|].
    exists x. split_and!; [done|done|]. unfold where_true. cbn [eval]. by rewrite Hx.
  - exists w. split; [done|]. rewrite E, Ht. cbn [forallb]. f_equal. clear -Hrow Hfs. induction fs as [|g fs IH]; [done|].
    cbn [map forallb] in *. apply andb_true_iff in Hfs as [Hg Hfs]. rewrite IH by done. f_equal.
    destruct (tag_filter_meaning [] g Hg) as (x & Hx & _ & Hxt).
    unfold where_true. cbn [eval]. by rewrite Hx.
Qed.
End Meaning.

(** C15: the tag filters of a query as SQL. Whatever the keys and values hold
    (quotes included), the generated condition is read by SQL as the
    conjunction of the filters (the text is that of the expression, its
    operands bind tightly enough, and its string literals read back as the
    expression's). A statement with it fails to bind exactly when a pattern of
    the filters does not compile; otherwise, evaluated on any row of a data file
    whose promoted columns mirror the tags map, it is never an error, and it is
    true exactly when the row's tags match every filter, absent keys included. *)
Theorem tag_filters_sql_correct `{UnicodeDB} {G : Type} `{DuckDB G} promoted_keys prefix (fs : list TagFilter) :
  no_quote prefix = true ->
  let sql := tag_filters_sql fs promoted_keys prefix in
  exists e, show e = sql /\ readable e = true /\ sql_literals sql = Some (literals e) /\
  bound e = (if filters_valid fs then Ok tt else Raise DuckDBError) /\
  forall (row : @row_env G) tags, reads_tags promoted_keys prefix row tags -> filters_valid fs = true ->
  exists v, eval row [] e = Some v /\ is_true v = forallb (tag_matches tags) fs.
Proof.
  intros Hp sql. exists (tag_filters_expr promoted_keys prefix fs). split_and!.
  - apply tag_filters_text.
  - apply tag_filters_readable.
  - by apply tag_filters_literals.
  - unfold bound. by rewrite tag_filters_valid.
  - intros row tags Hrow Hv. by apply (tag_filters_meaning promoted_keys prefix row tags).
Qed.

(** ** Samples *)

(** A pattern matches the texts that contain it; parentheses need escaping. *)
Definition sample_duckdb : DuckDB unit := {|
  regexp_valid p := negb (existsb (Z.eqb 40) p);
  regexp_matches ci s p := if ci then py_contains (map PyFloat.ascii_lower p) (map PyFloat.ascii_lower s)
                           else py_contains p s;
  try_double s := match PyFloat.py_float (H := latin1_db) s with Ok x => Some x | Raise _ => None end;
  double_text _ := u "1.5";
  flip_coordinates g := g;
  length_spheroid _ := PyFloat.float_of_Z 100
|}.
Definition sample_tags : list (pystr * pystr) := [(u "amenity", u "cafe"); (u "name", u "Joe's")].
Definition sample_row : @row_env unit := fun p n =>
  if negb (p =s u "m.") then None
  else if n =s u "tags" then Some (VMap sample_tags)
  else if n =s u "amenity" then Some (VText (u "cafe"))
  else if n =s u "shop" then Some VNull else None.
Definition sample_filters : list TagFilter :=
  [mkTagFilter (u "amenity") OpEq (Some (u "cafe")) false false;
   mkTagFilter (u "shop") OpNeq (Some (u "x")) false false;
   mkTagFilter (u "name") OpMatch (Some (u "joe's")) false true].

Lemma tag_filters_sql_correct_witness :
  tag_filters_sql sample_filters [u "amenity"; u "shop"] (u "m.") =
    u "(m." ++ [34] ++ u "amenity" ++ [34] ++ u " = 'cafe') AND ((m." ++ [34] ++ u "shop" ++ [34] ++ u " IS NULL OR m." ++
    [34] ++ u "shop" ++ [34] ++ u " != 'x')) AND (m.tags['name'] IS NOT NULL AND regexp_matches(m.tags['name'], 'joe''s', 'i'))" /\
  forallb (tag_matches (H0 := sample_duckdb) (Some sample_tags)) sample_filters = true /\
  exists e v, show e = tag_filters_sql sample_filters [u "amenity"; u "shop"] (u "m.") /\
  eval (H := latin1_db) (H0 := sample_duckdb) sample_row [] e = Some v /\ is_true v = true /\
  exists e', show e' = tag_filters_sql [mkTagFilter (u "name") OpMatch (Some (u "(")) false false] [] (u "m.") /\
    bound (H0 := sample_duckdb) e' = Raise DuckDBError.
Proof.
  split; [vm_compute; reflexivity|]. split; [vm_compute; reflexivity|].
  destruct (tag_filters_sql_correct (H := latin1_db) (H0 := sample_duckdb) [u "amenity"; u "shop"] (u "m.") sample_filters
              eq_refl) as (e & Hs & _ & _ & _ & He).
  destruct (tag_filters_sql_correct (H := latin1_db) (H0 := sample_duckdb) [] (u "m.")
              [mkTagFilter (u "name") OpMatch (Some (u "(")) false false] eq_refl) as (e' & Hs' & _ & _ & Hb & _).
  destruct (He sample_row (Some sample_tags)) as (v & Hv & Ht).
  - split; [reflexivity|]. intros k Hk. apply str_in_spec in Hk. rewrite !elem_of_cons in Hk.
    destruct Hk as [->|[->|Hk]]; [reflexivity|reflexivity|inversion Hk].
  - reflexivity.
  - exists e, v. split; [exact Hs|]. split; [exact Hv|]. split; [rewrite Ht; vm_compute; reflexivity|]. exists e'. split; [exact Hs'|exact Hb].
Defined.

(** * Untagged rows *)
Section Untagged.
Context `{UnicodeDB} {G : Type} `{DuckDB G}.

(** Untagged rows pass negative-only filters. *)
Lemma negative_only_untagged fs : forallb (fun f => negb (key_is_regex f)) fs = true ->
  is_negative_only fs = true -> forallb (tag_matches None) fs = true.
Proof.
  unfold is_negative_only. induction fs as [|f fs IH]; [done|]. cbn [forallb].
  intros [Hk Hks]%andb_prop [Hf Hfs]%andb_prop. rewrite IH by done. unfold tag_matches.
  destruct (key_is_regex f); [done|]. by destruct (tf_op f).
Qed.

(** Without a [!~] filter, no untagged row passes the others. *)
Lemma untagged_negative_only fs : forallb (fun f => match tf_op f with OpNotMatch => false | _ => true end) fs = true ->
  forallb (tag_matches None) fs = true -> is_negative_only fs = true.
Proof.
  unfold is_negative_only. induction fs as [|f fs IH]; [done|]. cbn [forallb].
  intros [Hk Hks]%andb_prop [Hf Hfs]%andb_prop. rewrite IH by done. unfold tag_matches in Hf.
  destruct (key_is_regex f); [done|]. by destruct (tf_op f).
Qed.

(** With one, they do pass, and the filters are not recognised as negative. *)
Lemma not_match_untagged k v : let f := mkTagFilter k OpNotMatch (Some v) false false in
  tag_matches None f = true /\ is_negative_only [f] = false.
Proof. done. Qed.
End Untagged.
