(* ===== verification/EvalSql.v ===== *)
(** [engine/evalsql.py]: evaluator expressions compiled to SQL over the rows of
    a set ([compile_element]), and evaluated once against a set
    ([evaluate_set]). *)
From S2P Require Import Prelude PyStr PyFloat Evaluator SqlText SqlExpr.

Definition _sql_str (s : pystr) : pystr := u "'" ++ double_quotes s ++ u "'".

Definition _tag_value_sql (key alias : pystr) : pystr := alias ++ u ".tags[" ++ _sql_str key ++ u "]".

(** * Shared fragments *)
Definition _num_sql (v : pystr) : pystr := u "try_cast(" ++ v ++ u " AS DOUBLE)".
Definition _is_num_sql (v : pystr) : pystr := u "try_cast(" ++ v ++ u " AS DOUBLE) IS NOT NULL".
Definition _format_num_sql (d : pystr) : pystr :=
  u "(CASE " ++
  u "WHEN (" ++ d ++ u ") IS NULL THEN 'nan' " ++
  u "WHEN (" ++ d ++ u ") = floor(" ++ d ++ u ") AND abs(" ++ d ++ u ") < 1e15 " ++
  u "THEN CAST(CAST(" ++ d ++ u " AS BIGINT) AS VARCHAR) " ++
  u "ELSE CAST(" ++ d ++ u " AS VARCHAR) END)".
Definition _truthy_sql (v : pystr) : pystr :=
  u "(" ++ v ++ u " IS NOT NULL AND " ++ v ++ u " != '' AND " ++ v ++ u " != '0')".
Definition _bool_to_value_sql (b : pystr) : pystr := u "(CASE WHEN " ++ b ++ u " THEN '1' ELSE '0' END)".

(** [_CMP_OP_SQL] *)
Definition _CMP_OP_SQL (op : binop) : option cmp_op :=
  match op with
  | BLt => Some CLt | BLe => Some CLe | BGt => Some CGt | BGe => Some CGe | BEq => Some CEq | BNe => Some CNe
  | _ => None
  end.

(** [_format_py_num]: [int(v)] raises on an infinity. *)
Definition float_1e15 : pyfloat := float_of_Z 1000000000000000.
Definition _format_py_num (v : pyfloat) : res pystr :=
  if negb (feqb v v) then Ok (u "nan")
  else
    let* n := int_of_float v in
    if feqb v (float_of_Z n) && fltb (fabs v) float_1e15 then Ok (str_of_Z n) else Ok (float_repr v).

(** * compile_element *)
Definition set_scoped {A} : res A :=
  Raise (UnsupportedError (u "set-scoped count/aggregate functions are not supported in (if:)")).
Definition unsupported_function {A} (name : pystr) : res A :=
  Raise (UnsupportedError (u "evaluator function " ++ name ++ u "() is not supported")).

(** [_compile_element_call] on the functions without arguments. *)
Definition compile_row_call (name alias : pystr) : res pystr :=
  let case_type ty then_ := u "WHEN " ++ alias ++ u ".type = '" ++ ty ++ u "' THEN " ++ then_ ++ u " " in
  if name =s u "id" then Ok (u "CAST(" ++ alias ++ u ".id AS VARCHAR)")
  else if name =s u "type" then Ok (u "COALESCE(" ++ alias ++ u ".type, '')")
  else if name =s u "version" then Ok (u "COALESCE(CAST(" ++ alias ++ u ".version AS VARCHAR), '')")
  else if name =s u "timestamp" then
    Ok (u "COALESCE(strftime(" ++ alias ++ u "." ++ [34] ++ u "timestamp" ++ [34] ++ u ", '%Y-%m-%dT%H:%M:%SZ'), '')")
  else if name =s u "changeset" then Ok (u "COALESCE(CAST(" ++ alias ++ u ".changeset AS VARCHAR), '')")
  else if name =s u "uid" then Ok (u "COALESCE(CAST(" ++ alias ++ u ".uid AS VARCHAR), '')")
  else if name =s u "user" then Ok (u "COALESCE(" ++ alias ++ u "." ++ [34] ++ u "user" ++ [34] ++ u ", '')")
  else if name =s u "count_tags" then Ok (u "CAST(COALESCE(cardinality(" ++ alias ++ u ".tags), 0) AS VARCHAR)")
  else if name =s u "count_members" then
    Ok (u "CAST(CASE " ++
        case_type (u "way") (u "COALESCE(array_length(" ++ alias ++ u ".refs), 0)") ++
        case_type (u "relation") (u "COALESCE(array_length(" ++ alias ++ u ".members), 0)") ++
        u "ELSE 0 END AS VARCHAR)")
  else if name =s u "count_distinct_members" then
    Ok (u "CAST(CASE " ++
        case_type (u "way") (u "COALESCE(array_length(list_distinct(" ++ alias ++ u ".refs)), 0)") ++
        case_type (u "relation")
          (u "COALESCE(array_length(list_distinct(list_transform(" ++ alias ++
           u ".members, __m -> __m.type || ':' || CAST(__m.ref AS VARCHAR)))), 0)") ++
        u "ELSE 0 END AS VARCHAR)")
  else if name =s u "is_closed" then
    Ok (_bool_to_value_sql (u "(" ++ alias ++ u ".type = 'way' AND array_length(" ++ alias ++ u ".refs) >= 2 " ++
          u "AND list_first(" ++ alias ++ u ".refs) = list_last(" ++ alias ++ u ".refs))"))
  else if name =s u "length" then
    Ok (_format_num_sql (u "COALESCE(CASE WHEN " ++ alias ++ u ".type = 'way' THEN " ++
          u "ST_Length_Spheroid(ST_FlipCoordinates(" ++ alias ++ u ".geometry)) ELSE NULL END, 0)"))
  else if name =s u "lat" then
    Ok (_format_num_sql (u "CASE WHEN " ++ alias ++ u ".type = 'node' THEN " ++ alias ++ u ".lat_e7 / 1e7 ELSE NULL END"))
  else if name =s u "lon" then
    Ok (_format_num_sql (u "CASE WHEN " ++ alias ++ u ".type = 'node' THEN " ++ alias ++ u ".lon_e7 / 1e7 ELSE NULL END"))
  else unsupported_function name.

Definition takes_argument (name : pystr) : bool :=
  str_in name [u "count_by_role"; u "is_tag"; u "number"; u "is_number"].

(** [_compile_binop], the operands compiled. *)
Definition compile_binop (op : binop) (a b : pystr) : pystr :=
  match op with
  | BAdd => _format_num_sql (u "(" ++ _num_sql a ++ u " + " ++ _num_sql b ++ u ")")
  | BSub => _format_num_sql (u "(" ++ _num_sql a ++ u " - " ++ _num_sql b ++ u ")")
  | BMul => _format_num_sql (u "(" ++ _num_sql a ++ u " * " ++ _num_sql b ++ u ")")
  | BDiv => _format_num_sql (u "(CASE WHEN " ++ _num_sql b ++ u " = 0 THEN NULL ELSE " ++ _num_sql a ++ u " / " ++
              _num_sql b ++ u " END)")
  | BAnd => _bool_to_value_sql (u "(" ++ _truthy_sql a ++ u " AND " ++ _truthy_sql b ++ u ")")
  | BOr => _bool_to_value_sql (u "(" ++ _truthy_sql a ++ u " OR " ++ _truthy_sql b ++ u ")")
  | _ =>
      let c := match _CMP_OP_SQL op with Some c => cmp_text c | None => [] end in
      let both_numeric := u "(" ++ _is_num_sql a ++ u " AND " ++ _is_num_sql b ++ u ")" in
      let num_cmp := u "(" ++ _num_sql a ++ u " " ++ c ++ u " " ++ _num_sql b ++ u ")" in
      let lex_cmp := u "(" ++ a ++ u " " ++ c ++ u " " ++ b ++ u ")" in
      _bool_to_value_sql (u "(CASE WHEN " ++ both_numeric ++ u " THEN " ++ num_cmp ++ u " ELSE " ++ lex_cmp ++ u " END)")
  end.

Fixpoint compile_element (e : expr) (alias : pystr) : res pystr :=
  match e with
  | Num v => let* s := _format_py_num v in Ok (_sql_str s)
  | Str s => Ok (_sql_str s)
  | TagAccess k => Ok (u "COALESCE(" ++ _tag_value_sql k alias ++ u ", '')")
  | SetCount _ | NamedSetCount _ _ | Aggregate _ _ => set_scoped
  | ElementCall name args =>
      if takes_argument name then
        match args with
        | [] => Raise IndexError
        | arg :: _ =>
            if name =s u "is_tag" then
              match arg with
              | Str k => Ok (_bool_to_value_sql (_tag_value_sql k alias ++ u " IS NOT NULL"))
              | _ => Raise (UnsupportedError (u "is_tag(...) requires a literal string key"))
              end
            else
              let* v := compile_element arg alias in
              if name =s u "count_by_role" then
                Ok (u "CAST(CASE WHEN " ++ alias ++ u ".type = 'relation' THEN COALESCE(array_length(" ++
                    u "list_filter(" ++ alias ++ u ".members, __m -> __m.role = (" ++ v ++
                    u "))), 0) ELSE 0 END AS VARCHAR)")
              else if name =s u "number" then Ok (_format_num_sql (_num_sql v))
              else Ok (_bool_to_value_sql (_is_num_sql v))
        end
      else compile_row_call name alias
  | Unary op e =>
      let* inner := compile_element e alias in
      Ok (match op with
          | UNot => _bool_to_value_sql (u "NOT " ++ _truthy_sql inner)
          | UNeg => _format_num_sql (u "-" ++ _num_sql inner)
          end)
  | BinOp op l r =>
      let* a := compile_element l alias in
      let* b := compile_element r alias in
      Ok (compile_binop op a b)
  | Ternary c t f =>
      let* cond := compile_element c alias in
      let* then_ := compile_element t alias in
      let* otherwise := compile_element f alias in
      Ok (u "(CASE WHEN " ++ _truthy_sql cond ++ u " THEN " ++ then_ ++ u " ELSE " ++ otherwise ++ u " END)")
  end.

Definition compile_predicate (e : expr) (alias : pystr) : res pystr :=
  let* s := compile_element e alias in Ok (_truthy_sql s).
