(* ===== verification/EvalSqlExpr.v ===== *)
(** The SQL of [EvalSql] as expressions: the text [compile_element] returns is
    that of an expression its operands bind tightly enough in, and whose string
    literals are the values of the source. *)
From S2P Require Import Prelude PyStr PyFloat Evaluator SqlText SqlExpr EvalSql.

Definition VARCHAR : pystr := u "VARCHAR".
Definition DOUBLE : pystr := u "DOUBLE".

Section Fragments.
Definition num (v : sqlx) : sqlx := XTryCast v DOUBLE.
Definition is_num (v : sqlx) : sqlx := XIsNotNull (num v).
Definition format_num (d : sqlx) : sqlx :=
  XParen (XCase2 (XIsNull (XParen d)) (XText (u "nan"))
    (XAnd (XCmp CEq (XParen d) (XCall (u "floor") [d]))
          (XCmp CLt (XCall (u "abs") [d]) (XDouble (u "1e15") float_1e15)))
    (XCast (XCast d (u "BIGINT")) VARCHAR)
    (XCast d VARCHAR)).
Definition truthy_expr (v : sqlx) : sqlx :=
  XParen (XAnd (XAnd (XIsNotNull v) (XCmp CNe v (XText []))) (XCmp CNe v (XText (u "0")))).
Definition bool_to_value (b : sqlx) : sqlx := XParen (XCase b (XText (u "1")) (XText (u "0"))).
Definition zero : sqlx := XNum (u "0") 0.
Definition coalesce (a b : sqlx) : sqlx := XCall (u "COALESCE") [a; b].
Definition call (f : pystr) (a : sqlx) : sqlx := XCall f [a].
End Fragments.

Definition row_call_expr (name alias : pystr) : option sqlx :=
  let column n := XCol alias n in
  let is_type ty := XCmp CEq (column (u "type")) (XText ty) in
  let empty := XText [] in
  let lengths refs members :=
    XCast (XCase2 (is_type (u "way")) (coalesce (call (u "array_length") refs) zero)
                  (is_type (u "relation")) (coalesce (call (u "array_length") members) zero) zero) VARCHAR in
  let refs := column (u "refs") in let members := column (u "members") in
  let e7 c := format_num (XCase (is_type (u "node")) (XArith ADiv (column c) (XDouble (u "1e7") (float_of_Z 10000000))) XNull) in
  if name =s u "id" then Some (XCast (column (u "id")) VARCHAR)
  else if name =s u "type" then Some (coalesce (column (u "type")) empty)
  else if name =s u "version" then Some (coalesce (XCast (column (u "version")) VARCHAR) empty)
  else if name =s u "timestamp" then
    Some (coalesce (XCall (u "strftime") [XQuoted (alias ++ u ".") (u "timestamp"); XText iso_format]) empty)
  else if name =s u "changeset" then Some (coalesce (XCast (column (u "changeset")) VARCHAR) empty)
  else if name =s u "uid" then Some (coalesce (XCast (column (u "uid")) VARCHAR) empty)
  else if name =s u "user" then Some (coalesce (XQuoted (alias ++ u ".") (u "user")) empty)
  else if name =s u "count_tags" then Some (XCast (coalesce (call (u "cardinality") (column (u "tags"))) zero) VARCHAR)
  else if name =s u "count_members" then Some (lengths refs members)
  else if name =s u "count_distinct_members" then
    Some (lengths (call (u "list_distinct") refs)
      (call (u "list_distinct") (XLambda (u "list_transform") members (u "__m")
        (XConcat (XConcat (XCol (u "__m") (u "type")) (XText (u ":"))) (XCast (XCol (u "__m") (u "ref")) VARCHAR)))))
  else if name =s u "is_closed" then
    Some (bool_to_value (XParen (XAnd (XAnd (is_type (u "way")) (XCmp CGe (call (u "array_length") refs) (XNum (u "2") 2)))
                                      (XCmp CEq (call (u "list_first") refs) (call (u "list_last") refs)))))
  else if name =s u "length" then
    Some (format_num (coalesce (XCase (is_type (u "way"))
      (call (u "ST_Length_Spheroid") (call (u "ST_FlipCoordinates") (column (u "geometry")))) XNull) zero))
  else if name =s u "lat" then Some (e7 (u "lat_e7"))
  else if name =s u "lon" then Some (e7 (u "lon_e7"))
  else None.

Definition binop_expr (op : binop) (a b : sqlx) : sqlx :=
  let arith op := format_num (XParen (XArith op (num a) (num b))) in
  match op with
  | BAdd => arith AAdd
  | BSub => arith ASub
  | BMul => arith AMul
  | BDiv => format_num (XParen (XCase (XCmp CEq (num b) zero) XNull (XArith ADiv (num a) (num b))))
  | BAnd => bool_to_value (XParen (XAnd (truthy_expr a) (truthy_expr b)))
  | BOr => bool_to_value (XParen (XOr (truthy_expr a) (truthy_expr b)))
  | _ => match _CMP_OP_SQL op with
         | Some c => bool_to_value (XParen (XCase (XParen (XAnd (is_num a) (is_num b)))
                                                  (XParen (XCmp c (num a) (num b))) (XParen (XCmp c a b))))
         | None => XNull
         end
  end.

Definition tag_value (k alias : pystr) : sqlx := XIndex (XCol alias (u "tags")) (XText k).

Fixpoint compile_expr (e : expr) (alias : pystr) : option sqlx :=
  match e with
  | Num v => match _format_py_num v with Ok s => Some (XText s) | Raise _ => None end
  | Str s => Some (XText s)
  | TagAccess k => Some (coalesce (tag_value k alias) (XText []))
  | SetCount _ | NamedSetCount _ _ | Aggregate _ _ => None
  | ElementCall name args =>
      if takes_argument name then
        match args with
        | [] => None
        | arg :: _ =>
            if name =s u "is_tag" then
              match arg with Str k => Some (bool_to_value (XIsNotNull (tag_value k alias))) | _ => None end
            else
              v ← compile_expr arg alias;
              Some (if name =s u "count_by_role" then
                      XCast (XCase (XCmp CEq (XCol alias (u "type")) (XText (u "relation")))
                        (coalesce (call (u "array_length")
                           (XLambda (u "list_filter") (XCol alias (u "members")) (u "__m")
                              (XCmp CEq (XCol (u "__m") (u "role")) (XParen v)))) zero) zero) VARCHAR
                    else if name =s u "number" then format_num (num v)
                    else bool_to_value (is_num v))
        end
      else row_call_expr name alias
  | Unary op e =>
      v ← compile_expr e alias;
      Some (match op with
            | UNot => bool_to_value (XNot (truthy_expr v))
            | UNeg => format_num (XNeg (num v))
            end)
  | BinOp op l r => a ← compile_expr l alias; b ← compile_expr r alias; Some (binop_expr op a b)
  | Ternary c t f =>
      c ← compile_expr c alias; t ← compile_expr t alias; f ← compile_expr f alias;
      Some (XParen (XCase (truthy_expr c) t f))
  end.

(** * The texts *)
Definition res_show (r : res pystr) (e : option sqlx) : Prop :=
  match r, e with Ok s, Some x => show x = s | Raise _, None => True | _, _ => False end.

Lemma show_num v : show (num v) = _num_sql (show v).
Proof. unfold num, _num_sql, DOUBLE. cbn [show]. text_eq. Qed.
Lemma show_is_num v : show (is_num v) = _is_num_sql (show v).
Proof. unfold is_num, num, _is_num_sql, DOUBLE. cbn [show]. text_eq. Qed.
Lemma show_format_num d : show (format_num d) = _format_num_sql (show d).
Proof. unfold format_num, _format_num_sql, VARCHAR. cbn [show map py_join cmp_text]. text_eq. Qed.
Lemma show_truthy v : show (truthy_expr v) = _truthy_sql (show v).
Proof. unfold truthy_expr, _truthy_sql. cbn [show cmp_text]. text_eq. Qed.
Lemma show_bool_to_value b : show (bool_to_value b) = _bool_to_value_sql (show b).
Proof. unfold bool_to_value, _bool_to_value_sql. cbn [show]. text_eq. Qed.
Lemma show_tag_value k alias : show (tag_value k alias) = _tag_value_sql k alias.
Proof. unfold tag_value, _tag_value_sql, _sql_str. cbn [show]. text_eq. Qed.

(** A compiled text: the shared fragments first, then the pieces. *)
Ltac fragments :=
  rewrite ?show_format_num, ?show_bool_to_value; first [apply (f_equal _format_num_sql) | apply (f_equal _bool_to_value_sql) | idtac].
Ltac texts :=
  fragments; unfold zero, coalesce, call, iso_format, VARCHAR, DOUBLE, _sql_str;
  cbn [show map py_join cmp_text arith_text];
  rewrite ?show_tag_value, ?show_truthy, ?show_is_num, ?show_num; text_eq.

Lemma row_call_text name alias : res_show (compile_row_call name alias) (row_call_expr name alias).
Proof.
  unfold compile_row_call, row_call_expr.
  repeat match goal with |- context [if name =s ?s then _ else _] => destruct (name =s s) eqn:?; [unfold res_show; texts|] end.
  done.
Qed.

(** The induction the compiler follows: into the first argument of a call. *)
Section Induction.
Context (P : expr -> Prop).
Context (H_num : forall v, P (Num v)) (H_str : forall s, P (Str s)) (H_tag : forall k, P (TagAccess k))
  (H_call : forall name args, (forall arg rest, args = arg :: rest -> P arg) -> P (ElementCall name args))
  (H_count : forall t, P (SetCount t)) (H_named : forall s t, P (NamedSetCount s t))
  (H_agg : forall f e, P e -> P (Aggregate f e)) (H_unary : forall op e, P e -> P (Unary op e))
  (H_bin : forall op l r, P l -> P r -> P (BinOp op l r))
  (H_ternary : forall c t f, P c -> P t -> P f -> P (Ternary c t f)).
Fixpoint expr_first_ind (e : expr) : P e :=
  match e with
  | Num v => H_num v | Str s => H_str s | TagAccess k => H_tag k
  | ElementCall name args =>
      H_call name args
        (match args as l return forall arg rest, l = arg :: rest -> P arg with
         | [] => fun arg rest E => match E in (_ = m) return match m with [] => True | x :: _ => P x end with eq_refl => I end
         | x :: _ => fun arg rest E =>
             match E in (_ = m) return match m with [] => True | y :: _ => P y end with eq_refl => expr_first_ind x end
         end)
  | SetCount t => H_count t | NamedSetCount s t => H_named s t
  | Aggregate f e => H_agg f e (expr_first_ind e)
  | Unary op e => H_unary op e (expr_first_ind e)
  | BinOp op l r => H_bin op l r (expr_first_ind l) (expr_first_ind r)
  | Ternary c t f => H_ternary c t f (expr_first_ind c) (expr_first_ind t) (expr_first_ind f)
  end.
End Induction.

Lemma binop_text op a b : show (binop_expr op a b) = compile_binop op (show a) (show b).
Proof. destruct op; unfold binop_expr, compile_binop; cbn [_CMP_OP_SQL]; texts. Qed.

Lemma compile_text e alias : res_show (compile_element e alias) (compile_expr e alias).
Proof.
  induction e using expr_first_ind; cbn [compile_element compile_expr].
  - by destruct (_format_py_num v).
  - done.
  - unfold res_show. texts.
  - destruct (takes_argument name); [|apply row_call_text]. destruct args as [|arg rest]; [done|].
    specialize (H arg rest eq_refl). destruct (name =s u "is_tag").
    + destruct arg; try done. unfold res_show. texts.
    + destruct (compile_element arg alias) as [v|], (compile_expr arg alias) as [x|]; try done.
      cbn in H. subst v. cbn [res_bind mbind option_bind]. unfold res_show.
      destruct (name =s u "count_by_role"); [texts|]. destruct (name =s u "number"); texts.
  - done.
  - done.
  - done.
  - destruct (compile_element e alias), (compile_expr e alias); try done. cbn in IHe. subst.
    cbn [res_bind mbind option_bind]. unfold res_show. destruct op; texts.
  - destruct (compile_element e1 alias), (compile_expr e1 alias); try done. cbn in IHe1. subst.
    destruct (compile_element e2 alias), (compile_expr e2 alias); try done. cbn in IHe2. subst.
    cbn [res_bind mbind option_bind]. apply binop_text.
  - destruct (compile_element e1 alias), (compile_expr e1 alias); try done. cbn in IHe1. subst.
    destruct (compile_element e2 alias), (compile_expr e2 alias); try done. cbn in IHe2. subst.
    destruct (compile_element e3 alias), (compile_expr e3 alias); try done. cbn in IHe3. subst.
    cbn [res_bind mbind option_bind]. unfold res_show. texts.
Qed.

(** * Reading the texts *)
Definition ok_expr (x : sqlx) : bool := readable x && at_least 9 x && plain x.

Lemma ok_expr_spec x : ok_expr x = true -> readable x = true /\ (forall n, (n <= 9)%nat -> at_least n x = true) /\ plain x = true.
Proof.
  unfold ok_expr, at_least. intros [[Hr Hl]%andb_prop Hp]%andb_prop. split_and!; try done.
  intros n Hn. apply Nat.leb_le in Hl. apply Nat.leb_le. lia.
Qed.

(** Operands that are read back as they are. *)
Ltac operands :=
  repeat match goal with H : ok_expr _ = true |- _ => apply ok_expr_spec in H as (? & ? & ?) end;
  unfold ok_expr, format_num, truthy_expr, bool_to_value, is_num, num, zero, coalesce, call, tag_value, VARCHAR, DOUBLE;
  repeat (cbn [readable plain forallb andb];
    repeat match goal with
    | H : readable ?x = true |- context [readable ?x] => rewrite H
    | H : plain ?x = true |- context [plain ?x] => rewrite H
    | H : forall n, (n <= 9)%nat -> at_least n ?x = true |- context [at_least ?n ?x] => rewrite (H n) by lia
    | H : no_quote ?x = true |- context [no_quote ?x] => rewrite H
    end); try reflexivity.

Section Reading.
Context (alias : pystr) (Halias : no_quote alias = true).

Lemma alias_dot : no_quote (alias ++ u ".") = true.
Proof. by rewrite no_quote_app, Halias. Qed.

Lemma ok_row_call name x : row_call_expr name alias = Some x -> ok_expr x = true.
Proof.
  pose proof alias_dot as Hd. unfold row_call_expr.
  repeat match goal with |- context [if name =s ?s then _ else _] =>
    destruct (name =s s); [intros [= <-]; operands|] end.
  done.
Qed.

Lemma ok_binop op a b : ok_expr a = true -> ok_expr b = true -> ok_expr (binop_expr op a b) = true.
Proof. intros Ha Hb. destruct op; unfold binop_expr; cbn [_CMP_OP_SQL]; operands. Qed.

Lemma ok_compile e x : compile_expr e alias = Some x -> ok_expr x = true.
Proof.
  revert x. induction e using expr_first_ind; intros x; cbn [compile_expr].
  - destruct (_format_py_num v); intros [= <-]. done.
  - intros [= <-]. done.
  - intros [= <-]. operands.
  - destruct (takes_argument name); [|apply ok_row_call]. destruct args as [|arg rest]; [done|].
    specialize (H arg rest eq_refl). destruct (name =s u "is_tag").
    + destruct arg; try done. intros [= <-]. operands.
    + destruct (compile_expr arg alias) as [v|]; [|done]. cbn [mbind option_bind]. intros [= <-].
      specialize (H v eq_refl). destruct (name =s u "count_by_role"); [operands|].
      destruct (name =s u "number"); operands.
  - done.
  - done.
  - done.
  - destruct (compile_expr e alias) as [v|]; [|done]. cbn [mbind option_bind]. intros [= <-].
    specialize (IHe v eq_refl). destruct op; operands.
  - destruct (compile_expr e1 alias) as [a|]; [|done]. destruct (compile_expr e2 alias) as [b|]; [|done].
    cbn [mbind option_bind]. intros [= <-]. by apply ok_binop; auto.
  - destruct (compile_expr e1 alias) as [a|]; [|done]. destruct (compile_expr e2 alias) as [b|]; [|done].
    destruct (compile_expr e3 alias) as [c|]; [|done]. cbn [mbind option_bind]. intros [= <-].
    specialize (IHe1 a eq_refl). specialize (IHe2 b eq_refl). specialize (IHe3 c eq_refl). operands.
Qed.
End Reading.
