(* ===== verification/EvalSqlFacts.v ===== *)
(** Theorems on compiled expressions: the SQL of an element-scoped expression
    computes the expression's Overpass value on every row, as a text, without
    an error. *)
From S2P Require Import Prelude PyStr PyFloat PyFloatFacts Json Osc Evaluator EvaluatorFacts SqlText SqlExpr Schema EvalSql EvalSqlExpr.

(** * Overpass values

    Every value is a text; a number is a text that parses as one.  How texts
    become numbers and numbers texts is a parameter: DuckDB does it for [(if:)]
    filters, Python for [if] statements. *)
Record numbers := {
  to_number : pystr -> option pyfloat;
  number_text : pyfloat -> pystr;
  order : cmp_op -> pyfloat -> pyfloat -> bool
}.

Definition truthy_value (s : pystr) : bool := negb (s =s []) && negb (s =s u "0").
Definition bool_value (b : bool) : pystr := if b then u "1" else u "0".
Definition count_value {A} (l : list A) : pystr := str_of_Z (Z.of_nat (length l)).

Section Reference.
Context {G : Type} (N : numbers) (meters : G -> pyfloat).

(** A missing number prints as [nan]. *)
Definition number_value (x : option pyfloat) : pystr := match x with Some x => number_text N x | None => u "nan" end.
Definition lift2 (f : pyfloat -> pyfloat -> option pyfloat) (a b : pystr) : pystr :=
  number_value (x ← to_number N a; y ← to_number N b; f x y).

Definition binop_value (op : binop) (a b : pystr) : pystr :=
  match op with
  | BAdd => lift2 (fun x y => Some (fadd x y)) a b
  | BSub => lift2 (fun x y => Some (fsub x y)) a b
  | BMul => lift2 (fun x y => Some (fmul x y)) a b
  | BDiv => lift2 (fun x y => if order N CEq y (float_of_Z 0) then None else Some (fdiv x y)) a b
  | BAnd => bool_value (truthy_value a && truthy_value b)
  | BOr => bool_value (truthy_value a || truthy_value b)
  | _ =>
      match _CMP_OP_SQL op, to_number N a, to_number N b with
      | Some c, Some x, Some y => bool_value (order N c x y)
      | Some c, _, _ => bool_value (scmp c a b)
      | None, _, _ => []
      end
  end.

(** The functions of one element. *)
Definition is_type (ty : pystr) (r : set_row G) : bool := s_type r =s ty.
Definition degrees (v : option Z) : pystr :=
  number_value ((fun n => fdiv (float_of_Z n) (float_of_Z 10000000)) <$> v).
Definition members_by (r : set_row G) (ways : list Z -> nat) (relations : list member -> nat) : pystr :=
  str_of_Z (Z.of_nat (if is_type (u "way") r then ways (default [] (s_refs r))
                      else if is_type (u "relation") r then relations (default [] (s_members r)) else 0)).
Definition closed (refs : list Z) : bool :=
  (2 <=? length refs)%nat && match head refs, last refs with Some a, Some b => a =? b | _, _ => false end.

Definition row_call_value (name : pystr) (r : set_row G) : pystr :=
  if name =s u "id" then str_of_Z (s_id r)
  else if name =s u "type" then s_type r
  else if name =s u "version" then default [] (str_of_Z <$> s_version r)
  else if name =s u "timestamp" then default [] (iso_text <$> s_timestamp r)
  else if name =s u "changeset" then default [] (str_of_Z <$> s_changeset r)
  else if name =s u "uid" then default [] (str_of_Z <$> s_uid r)
  else if name =s u "user" then default [] (s_user r)
  else if name =s u "count_tags" then count_value (default [] (s_tags r))
  else if name =s u "count_members" then members_by r length length
  else if name =s u "count_distinct_members" then
    members_by r (fun l => length (remove_dups l)) (fun l => length (remove_dups (map (fun m => (m_type m, m_ref m)) l)))
  else if name =s u "is_closed" then bool_value (is_type (u "way") r && closed (default [] (s_refs r)))
  else if name =s u "length" then
    match s_geometry r with
    | Some g => if is_type (u "way") r then number_text N (meters g) else u "0"
    | None => u "0"
    end
  else if name =s u "lat" then degrees (if is_type (u "node") r then s_lat_e7 r else None)
  else degrees (if is_type (u "node") r then s_lon_e7 r else None).

Fixpoint element_value (r : set_row G) (e : expr) : pystr :=
  match e with
  | Num v => match _format_py_num v with Ok s => s | Raise _ => [] end
  | Str s => s
  | TagAccess k => default [] (s_tags r ≫= dict_get k)
  | ElementCall name args =>
      match args with
      | arg :: _ =>
          if name =s u "is_tag" then
            match arg with
            | Str k => bool_value (if s_tags r ≫= dict_get k is Some _ then true else false)
            | _ => []
            end
          else if name =s u "count_by_role" then
            members_by r (fun _ => 0%nat)
              (fun l => length (base.filter (fun m => m_role m = element_value r arg) l))
          else if name =s u "number" then number_value (to_number N (element_value r arg))
          else if name =s u "is_number" then
            bool_value (if to_number N (element_value r arg) is Some _ then true else false)
          else row_call_value name r
      | [] => row_call_value name r
      end
  | Unary UNot e => bool_value (negb (truthy_value (element_value r e)))
  | Unary UNeg e => number_value (fopp <$> to_number N (element_value r e))
  | BinOp op a b => binop_value op (element_value r a) (element_value r b)
  | Ternary c t f => if truthy_value (element_value r c) then element_value r t else element_value r f
  | _ => []
  end.
End Reference.

(** * DuckDB's numbers *)

(** A DOUBLE has a mantissa of 53 bits. *)
Class DuckDBLaws {G} `{DuckDB G} : Prop := {
  try_double_narrow s x : try_double s = Some x -> narrow x;
  length_narrow g : narrow (length_spheroid g)
}.

Definition round_int (x : pyfloat) : Z := match round_of_float x with Ok n => n | Raise _ => 0 end.
Definition duck_numbers {G} `{DuckDB G} : numbers := {|
  to_number := try_double;
  number_text x := if deq x (ffloor x) && dlt (fabs x) float_1e15 then str_of_Z (round_int x) else double_text x;
  order := dcmp
|}.

Lemma fltb_exponents m e m' e' : dlt (S754_finite false m e) (S754_finite false m' e') = true -> e <= e'.
Proof.
  unfold dlt, fltb, SFltb. cbn [is_nan negb andb orb SFcompare]. destruct (Z.compare_spec e e'); [lia|lia|done].
Qed.

(** Below [1e15] the cast to BIGINT does not overflow. *)
Lemma round_bigint x : narrow x -> dlt (fabs x) float_1e15 = true -> round_of_float x = Ok (round_int x) /\ bigint (round_int x) = true.
Proof.
  unfold round_int. destruct x as [s|[]| |s m e]; try done. intros Hn Hl.
  assert (He : e <= -3).
  { replace float_1e15 with (S754_finite false 8000000000000000 (-3)) in Hl by (vm_compute; reflexivity).
    by apply (fltb_exponents m e 8000000000000000 (-3)). }
  cbn [round_of_float]. rewrite (proj2 (Z.leb_gt 0 e)) by lia. split; [done|].
  set (q := Z.shiftr (Zpos m) (- e)). set (n := match _ with Lt => _ | _ => _ end).
  assert (Hq : 0 <= q < 2 ^ 50).
  { unfold q. rewrite Z.shiftr_div_pow2 by lia. split; [apply Z.div_pos; lia|].
    apply Z.div_lt_upper_bound; [apply Z.pow_pos_nonneg; lia|]. cbn in Hn.
    eapply Z.lt_le_trans; [exact Hn|]. rewrite <- Z.pow_add_r by lia. apply Z.pow_le_mono_r; lia. }
  assert (q <= n <= q + 1) by (unfold n; repeat case_match; lia). unfold bigint.
  clearbody n q. destruct s; lia.
Qed.

Section Fragments.
Context `{UnicodeDB} {G : Type} `{DuckDB G} `{!DuckDBLaws}.
Context (row : @row_env G) (vars : list (pystr * sval G)).
Abbreviation number_value := (number_value duck_numbers).

Definition double_or_null (o : option pyfloat) : sval G := match o with Some x => VDouble x | None => VNull end.

Lemma eval_format_num d o : eval row vars d = Some (double_or_null o) -> (forall x, o = Some x -> narrow x) ->
  eval row vars (format_num d) = Some (VText (number_value o)).
Proof.
  intros Hd Hn. unfold format_num, VARCHAR. cbn [eval mapM]. rewrite Hd. destruct o as [x|]; [|done].
  specialize (Hn x eq_refl). cbn [double_or_null fmap option_fmap option_map mbind option_bind mret option_ret].
  cbn [number_value number_text duck_numbers].
  change (sql_call (u "floor") [VDouble x]) with (Some (VDouble (ffloor x)) : option (sval G)).
  change (sql_call (u "abs") [VDouble x]) with (Some (VDouble (fabs x)) : option (sval G)).
  cbn [mbind option_bind sql_cmp dcmp]. unfold sql_and.
  destruct (deq x (ffloor x)) eqn:E1, (dlt (fabs x) float_1e15) eqn:E2; cbn [andb]; try done.
  destruct (round_bigint x Hn E2) as [Hr Hb].
  replace (sql_cast (u "BIGINT") (VDouble x)) with (Some (VInt (round_int x)) : option (sval G)); [done|].
  cbn [sql_cast]. replace (u "BIGINT" =s u "VARCHAR") with false by done.
  replace (u "BIGINT" =s u "DOUBLE") with false by done. rewrite str_eqb_refl, Hr, Hb. done.
Qed.

Lemma eval_format_zero d : eval row vars d = Some (VInt 0) -> eval row vars (format_num d) = Some (VText (u "0")).
Proof. intros Hd. unfold format_num, VARCHAR. cbn [eval mapM]. by rewrite Hd. Qed.

Lemma eval_num v s : eval row vars v = Some (VText s) -> eval row vars (num v) = Some (double_or_null (try_double s)).
Proof.
  intros Hv. unfold num, DOUBLE. cbn [eval]. rewrite Hv. cbn [mbind option_bind sql_try_cast]. rewrite str_eqb_refl.
  by destruct (try_double s).
Qed.
Lemma eval_is_num v s : eval row vars v = Some (VText s) ->
  eval row vars (is_num v) = Some (VBool (if try_double s is Some _ then true else false)).
Proof.
  intros Hv. unfold is_num. rewrite (eval_is_not_null _ _ _ _ (eval_num v s Hv)). by destruct (try_double s).
Qed.
Lemma eval_truthy v s : eval row vars v = Some (VText s) -> eval row vars (truthy_expr v) = Some (VBool (truthy_value s)).
Proof.
  intros Hv. unfold truthy_expr, truthy_value. cbn [eval]. rewrite Hv. cbn [mbind option_bind fmap option_fmap option_map sql_cmp scmp sql_and].
  destruct (s =s []), (s =s u "0"); done.
Qed.
Lemma eval_bool_to_value b w : eval row vars b = Some w -> truth w ->
  eval row vars (bool_to_value b) = Some (VText (bool_value (is_true w))).
Proof. intros Hb Ht. unfold bool_to_value. cbn [eval]. rewrite Hb. destruct w as [|[]| | | | | | | |]; done. Qed.
Lemma eval_coalesce a b v w : eval row vars a = Some v -> eval row vars b = Some w ->
  eval row vars (coalesce a b) = Some (match v with VNull => w | _ => v end).
Proof. intros Ha Hb. unfold coalesce. by apply (eval_call2 row vars _ a b v w). Qed.

(** ** Operators *)
Lemma eval_arith op a b s t : eval row vars a = Some (VText s) -> eval row vars b = Some (VText t) ->
  eval row vars (XParen (XArith op (num a) (num b))) =
    Some (double_or_null (x ← try_double s; y ← try_double t; Some (darith op x y))).
Proof.
  intros Ha Hb. cbn [eval]. rewrite (eval_num a s Ha), (eval_num b t Hb). cbn [mbind option_bind].
  by destruct (try_double s), (try_double t).
Qed.

Lemma darith_narrow op x y : narrow x -> narrow y -> narrow (darith op x y).
Proof. destruct op; cbn [darith]; auto with osm. Qed.

Lemma eval_binop op a b s t : eval row vars a = Some (VText s) -> eval row vars b = Some (VText t) ->
  eval row vars (binop_expr op a b) = Some (VText (binop_value duck_numbers op s t)).
Proof.
  intros Ha Hb. pose proof (eval_truthy a s Ha) as Ta. pose proof (eval_truthy b t Hb) as Tb.
  assert (Hlift : forall op', eval row vars (format_num (XParen (XArith op' (num a) (num b)))) =
            Some (VText (number_value (x ← try_double s; y ← try_double t; Some (darith op' x y))))).
  { intros op'. apply eval_format_num; [by apply eval_arith|]. intros x.
    destruct (try_double s) as [x1|] eqn:E1, (try_double t) as [y1|] eqn:E2; try done. cbn. intros [= <-].
    apply darith_narrow; eapply try_double_narrow; eauto. }
  assert (Hcmp : forall c, eval row vars (bool_to_value (XParen (XCase (XParen (XAnd (is_num a) (is_num b)))
            (XParen (XCmp c (num a) (num b))) (XParen (XCmp c a b))))) =
          Some (VText (match try_double s, try_double t with
                       | Some x, Some y => bool_value (dcmp c x y) | _, _ => bool_value (scmp c s t) end))).
  { intros c. set (w := @VBool G (match try_double s, try_double t with Some x, Some y => dcmp c x y | _, _ => scmp c s t end)).
    rewrite (eval_bool_to_value _ w); [unfold w; by destruct (try_double s), (try_double t)| |done].
    cbn [eval]. rewrite (eval_is_num a s Ha), (eval_is_num b t Hb), (eval_num a s Ha), (eval_num b t Hb), Ha, Hb.
    unfold w. by destruct (try_double s), (try_double t). }
  destruct op; cbn [binop_expr _CMP_OP_SQL];
    [ | | rewrite Hcmp | rewrite Hcmp | rewrite Hcmp | rewrite Hcmp | rewrite Hcmp | rewrite Hcmp
    | by rewrite Hlift | by rewrite Hlift | by rewrite Hlift | ];
    try (unfold binop_value; cbn [_CMP_OP_SQL to_number order duck_numbers]; by destruct (try_double s), (try_double t)).
  - rewrite (eval_bool_to_value _ (VBool (truthy_value s || truthy_value t))); [done| |done].
    cbn [eval]. rewrite Ta, Tb. by destruct (truthy_value s), (truthy_value t).
  - rewrite (eval_bool_to_value _ (VBool (truthy_value s && truthy_value t))); [done| |done].
    cbn [eval]. rewrite Ta, Tb. by destruct (truthy_value s), (truthy_value t).
  - unfold binop_value, lift2. cbn [to_number order duck_numbers]. apply eval_format_num.
    + cbn [eval]. rewrite (eval_num a s Ha), (eval_num b t Hb). destruct (try_double t) as [y|] eqn:E2.
      * cbn [double_or_null mbind option_bind sql_cmp zero]. cbn [eval mbind option_bind sql_cmp].
        change (eval row vars zero) with (Some (VInt 0) : option (sval G)). cbn [mbind option_bind sql_cmp].
        destruct (dcmp CEq y (float_of_Z 0)), (try_double s); done.
      * by destruct (try_double s).
    + intros x. destruct (try_double s) as [x1|] eqn:E1, (try_double t) as [y1|] eqn:E2; try done. cbn.
      destruct (deq _ _); [done|]. intros [= <-]. apply div_narrow.
Qed.
End Fragments.

(** * Counting distinct values *)
Section Distinct.
Context {G : Type}.

(** An encoding of keys as comparable values. *)
Lemma distinct_length {A} `{EqDecision A} (f : A -> sval G) (l : list A) :
  (forall x y, same_value (f x) (f y) = bool_decide (x = y)) -> length (distinct (map f l)) = length (remove_dups l).
Proof.
  intros Hf. induction l as [|x l IH]; [done|]. cbn [map distinct remove_dups].
  assert (Hx : existsb (same_value (f x)) (map f l) = bool_decide (x ∈ l)).
  { clear IH. induction l as [|y l IH]; [done|]. cbn [map existsb]. rewrite IH, Hf.
    destruct (decide (x = y)) as [->|Hn].
    - rewrite (bool_decide_true (y = y)) by done. symmetry. apply bool_decide_true. left.
    - rewrite (bool_decide_false (x = y)) by done. cbn [orb]. apply bool_decide_ext. rewrite elem_of_cons. tauto. }
  rewrite Hx. destruct (decide_rel elem_of x l).
  - by rewrite bool_decide_true.
  - rewrite bool_decide_false by done. cbn [length]. by rewrite IH.
Qed.

Lemma same_int (x y : Z) : same_value (VInt x : sval G) (VInt y) = bool_decide (x = y).
Proof. cbn. destruct (Z.eqb_spec x y); [by rewrite bool_decide_true|by rewrite bool_decide_false]. Qed.

(** [type || ':' || ref] names a member's element. *)
Definition member_text (k : pystr * Z) : pystr := (k.1 ++ u ":") ++ str_of_Z k.2.

Lemma member_text_inj k k' : member_text k = member_text k' -> k = k'.
Proof.
  destruct k as [t n], k' as [t' n']. unfold member_text. cbn [fst snd].
  assert (Hsplit : forall a a' s s', Forall digit_or_minus s -> Forall digit_or_minus s' ->
            (a ++ u ":") ++ s = (a' ++ u ":") ++ s' -> a = a' /\ s = s').
  { intros a a' s s' Hs. revert s'. induction s as [|c s IH] using rev_ind; intros s' Hs'.
    - destruct s' as [|c' s' _] using rev_ind; [rewrite !app_nil_r; intros E; by apply app_inj_tail in E as [-> _]|].
      rewrite app_nil_r, app_assoc. intros E. apply app_inj_tail in E as [_ E].
      apply Forall_app in Hs' as [_ Hc]. apply Forall_cons in Hc as [Hc _]. rewrite <- E in Hc. by destruct Hc.
    - apply Forall_app in Hs as [Hs Hc]. destruct s' as [|c' s' _] using rev_ind.
      + rewrite app_nil_r, app_assoc. intros E. apply app_inj_tail in E as [_ E].
        apply Forall_cons in Hc as [Hc _]. rewrite E in Hc. by destruct Hc.
      + apply Forall_app in Hs' as [Hs' _]. rewrite !app_assoc. intros E. apply app_inj_tail in E as [E ->].
        rewrite <- !app_assoc in E. rewrite !app_assoc in E. destruct (IH Hs s' Hs' E) as [-> ->]. done. }
  intros E. apply Hsplit in E as [-> E]; [|apply str_of_Z_chars|apply str_of_Z_chars].
  by rewrite (str_of_Z_inj _ _ E).
Qed.

Lemma same_member (k k' : pystr * Z) :
  same_value (VText (member_text k) : sval G) (VText (member_text k')) = bool_decide (k = k').
Proof.
  cbn [same_value]. destruct (decide (k = k')) as [->|Hn].
  - by rewrite bool_decide_true, str_eqb_refl.
  - rewrite bool_decide_false by done. apply str_eqb_neq. intros E. by apply Hn, member_text_inj.
Qed.
End Distinct.

(** * Rows of a set *)
Section Rows.
Context `{UnicodeDB} {G : Type} `{DuckDB G} `{!DuckDBLaws}.
Context (alias : pystr) (r : set_row G) (vars : list (pystr * sval G)).
Context (Hvars : List.find (fun b => b.1 =s alias) vars = None).
Abbreviation row := (row_of alias r).
Definition duck_meters (g : G) : pyfloat := length_spheroid (flip_coordinates g).

Lemma eval_col n : eval row vars (XCol alias n) = column r n.
Proof. cbn [eval]. rewrite Hvars. unfold row_of. by rewrite str_eqb_refl. Qed.
Lemma eval_quoted n : eval row vars (XQuoted (alias ++ u ".") n) = column r n.
Proof. cbn [eval]. unfold row_of. by rewrite str_eqb_refl. Qed.

Lemma eval_column n v : column r n = Some v -> eval row vars (XCol alias n) = Some v.
Proof. by rewrite eval_col. Qed.
Lemma eval_quoted_column n v : column r n = Some v -> eval row vars (XQuoted (alias ++ u ".") n) = Some v.
Proof. by rewrite eval_quoted. Qed.

Lemma eval_is_type ty : eval row vars (XCmp CEq (XCol alias (u "type")) (XText ty)) = Some (VBool (is_type ty r)).
Proof.
  assert (Hc : eval row vars (XCol alias (u "type")) = Some (VText (s_type r))) by exact (eval_col _).
  remember (XCol alias (u "type")) as c. cbn [eval]. by rewrite Hc.
Qed.

(** [CAST(x AS VARCHAR)] of an integer column, or the empty text. *)
Lemma eval_int_column n (o : option Z) : column r n = Some (or_null VInt o) ->
  eval row vars (coalesce (XCast (XCol alias n) VARCHAR) (XText [])) = Some (VText (default [] (str_of_Z <$> o))).
Proof.
  intros Hc. rewrite (eval_coalesce _ _ _ _ (match o with Some n => VText (str_of_Z n) | None => VNull end) (VText [])).
  - by destruct o.
  - change (eval row vars (XCast (XCol alias n) VARCHAR)) with (eval row vars (XCol alias n) ≫= sql_cast VARCHAR).
    rewrite eval_col, Hc. by destruct o.
  - done.
Qed.

(** A count, cast to a text. *)
Lemma eval_members refs members (ways : list Z -> nat) (relations : list member -> nat) :
  eval row vars (call (u "array_length") refs) = Some (or_null (fun l => VInt (Z.of_nat (ways l))) (s_refs r)) ->
  eval row vars (call (u "array_length") members) = Some (or_null (fun l => VInt (Z.of_nat (relations l))) (s_members r)) ->
  ways [] = 0%nat -> relations [] = 0%nat ->
  eval row vars (XCast (XCase2 (XCmp CEq (XCol alias (u "type")) (XText (u "way"))) (coalesce (call (u "array_length") refs) zero)
                  (XCmp CEq (XCol alias (u "type")) (XText (u "relation"))) (coalesce (call (u "array_length") members) zero) zero) VARCHAR) =
  Some (VText (members_by r ways relations)).
Proof.
  intros Hr Hm Hw0 Hr0. pose proof (eval_is_type (u "way")) as Tw. pose proof (eval_is_type (u "relation")) as Tr.
  pose proof (eval_coalesce row vars _ zero _ (VInt 0) Hr eq_refl) as Cr.
  pose proof (eval_coalesce row vars _ zero _ (VInt 0) Hm eq_refl) as Cm.
  remember (XCmp CEq _ (XText (u "way"))) as cw. remember (XCmp CEq _ (XText (u "relation"))) as cr.
  remember (coalesce _ zero) as xr. remember (coalesce (call _ members) zero) as xm.
  cbn [eval]. rewrite Tw, Tr, Cr, Cm. unfold members_by.
  destruct (is_type (u "way") r); [destruct (s_refs r); cbn; by rewrite ?Hw0|].
  destruct (is_type (u "relation") r); [destruct (s_members r); cbn; by rewrite ?Hr0|done].
Qed.

Lemma array_length_of e (l : option (list (sval G))) : eval row vars e = Some (or_null VList l) ->
  eval row vars (call (u "array_length") e) = Some (or_null (fun l => VInt (Z.of_nat (length l))) l).
Proof. intros He. eapply eval_call1; [exact He|]. by destruct l. Qed.
Lemma list_distinct_of e (l : option (list (sval G))) : eval row vars e = Some (or_null VList l) ->
  eval row vars (call (u "list_distinct") e) = Some (or_null VList (distinct <$> l)).
Proof. intros He. eapply eval_call1; [exact He|]. by destruct l. Qed.

Lemma or_null_map {A B} (f : B -> sval G) (g : A -> B) o : or_null f (g <$> o) = or_null (fun x => f (g x)) o.
Proof. by destruct o. Qed.
Lemma eval_refs : eval row vars (XCol alias (u "refs")) = Some (or_null VList (map VInt <$> s_refs r)).
Proof. by rewrite eval_col, or_null_map. Qed.
Lemma eval_member_column : eval row vars (XCol alias (u "members")) = Some (or_null VList (map member_struct <$> s_members r)).
Proof. by rewrite eval_col, or_null_map. Qed.

Lemma eval_member_texts :
  eval row vars (XLambda (u "list_transform") (XCol alias (u "members")) (u "__m")
     (XConcat (XConcat (XCol (u "__m") (u "type")) (XText (u ":"))) (XCast (XCol (u "__m") (u "ref")) VARCHAR))) =
  Some (or_null VList (map (fun m => VText (member_text (m_type m, m_ref m))) <$> s_members r)).
Proof.
  pose proof eval_member_column as Hm. destruct (s_members r) as [l|].
  - eapply eval_transform; [exact Hm|]. by apply mapM_map.
  - cbn [or_null fmap option_fmap option_map] in Hm. remember (XCol alias (u "members")) as c. cbn [eval]. by rewrite Hm.
Qed.
(** Evaluation of a column under a function of one argument. *)
Lemma eval_cast_text a v w : eval row vars a = Some v -> sql_cast VARCHAR v = Some w -> eval row vars (XCast a VARCHAR) = Some w.
Proof. intros Ha Hw. cbn [eval]. by rewrite Ha. Qed.

Lemma eval_degrees (c : pystr) (v : option Z) : column r c = Some (or_null VInt v) ->
  eval row vars (format_num (XCase (XCmp CEq (XCol alias (u "type")) (XText (u "node")))
    (XArith ADiv (XCol alias c) (XDouble (u "1e7") (float_of_Z 10000000))) XNull)) =
  Some (VText (degrees duck_numbers (if is_type (u "node") r then v else None))).
Proof.
  intros Hc. apply eval_format_num.
  - pose proof (eval_is_type (u "node")) as Hn. pose proof (eval_col c) as Hv. rewrite Hc in Hv.
    remember (XCmp CEq _ _) as t. remember (XCol alias c) as x. cbn [eval]. rewrite Hn, Hv.
    destruct (is_type _ r); [|done]. by destruct v.
  - intros x. destruct (is_type _ r); [|done]. destruct v; [|done]. cbn. intros [= <-]. apply div_narrow.
Qed.

Lemma eval_length :
  eval row vars (format_num (coalesce (XCase (XCmp CEq (XCol alias (u "type")) (XText (u "way")))
      (call (u "ST_Length_Spheroid") (call (u "ST_FlipCoordinates") (XCol alias (u "geometry")))) XNull) zero)) =
  Some (VText (match s_geometry r with
               | Some g => if is_type (u "way") r then number_text duck_numbers (duck_meters g) else u "0"
               | None => u "0"
               end)).
Proof.
  assert (Hl : eval row vars (call (u "ST_Length_Spheroid") (call (u "ST_FlipCoordinates") (XCol alias (u "geometry")))) =
               Some (or_null (fun g => VDouble (duck_meters g)) (s_geometry r))).
  { assert (Hg : eval row vars (XCol alias (u "geometry")) = Some (or_null VGeom (s_geometry r))) by apply eval_col.
    apply (eval_call1 row vars _ _ (or_null (fun g => VGeom (flip_coordinates g)) (s_geometry r))).
    - eapply eval_call1; [exact Hg|]. by destruct (s_geometry r).
    - by destruct (s_geometry r). }
  pose proof (eval_is_type (u "way")) as Hw. set (c := XCase _ _ _).
  assert (Hc : eval row vars c = Some (match s_geometry r with
             | Some g => if is_type (u "way") r then VDouble (duck_meters g) else VNull | None => VNull end)).
  { subst c. remember (XCmp CEq _ _) as t. remember (call (u "ST_Length_Spheroid") _) as x. cbn [eval]. rewrite Hw, Hl.
    destruct (is_type _ r); by destruct (s_geometry r). }
  pose proof (eval_coalesce row vars c zero _ (VInt 0) Hc eq_refl) as Hz.
  destruct (s_geometry r) as [g|]; [|by apply eval_format_zero]. destruct (is_type _ r); [|by apply eval_format_zero].
  rewrite (eval_format_num row vars _ (Some (duck_meters g))); [done|done|]. intros x [= <-]. apply length_narrow.
Qed.

Lemma eval_is_closed :
  eval row vars (bool_to_value (XParen (XAnd (XAnd (XCmp CEq (XCol alias (u "type")) (XText (u "way")))
      (XCmp CGe (call (u "array_length") (XCol alias (u "refs"))) (XNum (u "2") 2)))
      (XCmp CEq (call (u "list_first") (XCol alias (u "refs"))) (call (u "list_last") (XCol alias (u "refs"))))))) =
  Some (VText (bool_value (is_type (u "way") r && closed (default [] (s_refs r))))).
Proof.
  pose proof (eval_is_type (u "way")) as Hw. pose proof (array_length_of _ _ eval_refs) as Hl.
  assert (Hf : eval row vars (call (u "list_first") (XCol alias (u "refs"))) =
               Some (or_null (fun l => default VNull (VInt <$> head l)) (s_refs r))).
  { eapply eval_call1; [apply eval_refs|]. by destruct (s_refs r) as [[|]|]. }
  assert (Hla : eval row vars (call (u "list_last") (XCol alias (u "refs"))) =
               Some (or_null (fun l => default VNull (VInt <$> last l)) (s_refs r))).
  { eapply eval_call1; [apply eval_refs|]. destruct (s_refs r) as [l|]; [|done]. cbn. by rewrite (fmap_last VInt l). }
  remember (XCmp CEq (XCol alias (u "type")) _) as t. remember (call (u "array_length") _) as n.
  remember (call (u "list_first") _) as f. remember (call (u "list_last") _) as la.
  set (cond := XParen _).
  assert (Hc : exists v, eval row vars cond = Some v /\ truth v /\ is_true v = is_type (u "way") r && closed (default [] (s_refs r))).
  { subst cond. cbn [eval]. rewrite Hw, Hl, Hf, Hla. unfold closed. destruct (s_refs r) as [l|].
    - change (default [] (Some l)) with l. cbn [fmap option_fmap option_map or_null mbind option_bind sql_cmp zcmp].
      rewrite length_map.
      replace (2 <=? Z.of_nat (length l)) with (2 <=? length l)%nat
        by (destruct (Nat.leb_spec 2 (length l)), (Z.leb_spec 2 (Z.of_nat (length l))); lia || done).
      destruct (is_type _ r), (2 <=? length l)%nat, (head l) as [a|], (last l) as [b|]; try destruct (a =? b) eqn:E;
        cbn; rewrite ?E; eexists; split_and!; (reflexivity || done).
    - destruct (is_type _ r); cbn; eexists; split_and!; (reflexivity || done). }
  destruct Hc as (v & Hv & Ht & <-). by apply eval_bool_to_value.
Qed.
Lemma eval_row_call name x : row_call_expr name alias = Some x ->
  eval row vars x = Some (VText (row_call_value duck_numbers duck_meters name r)).
Proof.
  unfold row_call_expr, row_call_value.
  destruct (name =s u "id"); [intros [= <-]; eapply eval_cast_text; [by eapply eval_column|done]|].
  destruct (name =s u "type"); [intros [= <-]; erewrite eval_coalesce; [|by eapply eval_column|done]; done|].
  destruct (name =s u "version"); [intros [= <-]; by apply eval_int_column|].
  destruct (name =s u "timestamp").
  { intros [= <-]. rewrite (eval_coalesce _ _ _ _ (or_null (fun t => VText (iso_text t)) (s_timestamp r)) (VText []));
      [by destruct (s_timestamp r)| |done].
    eapply eval_call2; [by eapply eval_quoted_column|done|]. destruct (s_timestamp r); cbn [or_null sql_call]; by rewrite ?str_eqb_refl. }
  destruct (name =s u "changeset"); [intros [= <-]; by apply eval_int_column|].
  destruct (name =s u "uid"); [intros [= <-]; by apply eval_int_column|].
  destruct (name =s u "user").
  { intros [= <-]. erewrite eval_coalesce; [|by eapply eval_quoted_column|done]. by destruct (s_user r). }
  destruct (name =s u "count_tags").
  { intros [= <-]. rewrite (eval_cast_text _ (VInt (Z.of_nat (length (default [] (s_tags r))))) (VText (count_value (default [] (s_tags r)))));
      [done| |done].
    assert (Hc : eval row vars (call (u "cardinality") (XCol alias (u "tags"))) =
                 Some (or_null (fun m => VInt (Z.of_nat (length m))) (s_tags r))).
    { eapply eval_call1; [by eapply eval_column|]. by destruct (s_tags r). }
    erewrite eval_coalesce; [|exact Hc|done]. by destruct (s_tags r). }
  destruct (name =s u "count_members").
  { intros [= <-]. apply eval_members; [| |done|done].
    - rewrite (array_length_of _ _ eval_refs), or_null_map. destruct (s_refs r); cbn; by rewrite ?length_map.
    - rewrite (array_length_of _ _ eval_member_column), or_null_map. destruct (s_members r); cbn; by rewrite ?length_map. }
  destruct (name =s u "count_distinct_members").
  { intros [= <-]. apply eval_members; [| |done|done].
    - rewrite (array_length_of _ _ (list_distinct_of _ _ eval_refs)), !or_null_map. destruct (s_refs r); cbn; [|done].
      by rewrite (distinct_length VInt) by apply same_int.
    - rewrite (array_length_of _ _ (list_distinct_of _ _ eval_member_texts)), !or_null_map.
      destruct (s_members r) as [l|]; cbn [or_null]; [|done].
      rewrite <- (map_map (fun m => (m_type m, m_ref m)) (fun k => VText (member_text k))).
      by rewrite (distinct_length (fun k => VText (member_text k))) by apply same_member. }
  destruct (name =s u "is_closed"); [intros [= <-]; apply eval_is_closed|].
  destruct (name =s u "length"); [intros [= <-]; apply eval_length|].
  destruct (name =s u "lat"); [intros [= <-]; by apply eval_degrees|].
  destruct (name =s u "lon"); [intros [= <-]; by apply eval_degrees|done].
Qed.
End Rows.

(** * The compiler *)
Section Compiler.
Context `{UnicodeDB} {G : Type} `{DuckDB G} `{!DuckDBLaws}.
Context (alias : pystr) (Halias : alias <> u "__m") (r : set_row G).
Abbreviation row := (row_of alias r).
Abbreviation value := (element_value duck_numbers duck_meters r).

(** The scope of an expression: only members are ever bound. *)
Definition member_scope (vars : list (pystr * sval G)) : Prop := Forall (fun b => b.1 = u "__m") vars.

Lemma scope_alias vars : member_scope vars -> List.find (fun b => b.1 =s alias) vars = None.
Proof.
  induction 1 as [|b vars Hb _ IH]; [done|]. cbn [List.find]. rewrite Hb.
  destruct (u "__m" =s alias) eqn:E; [by apply str_eqb_eq in E|done].
Qed.

Lemma eval_tag_value vars k : member_scope vars ->
  eval row vars (tag_value k alias) = Some (or_null VText (s_tags r ≫= dict_get k)).
Proof.
  intros Hv. assert (Hc : eval row vars (XCol alias (u "tags")) = Some (or_null VMap (s_tags r)))
    by (apply eval_column; [by apply scope_alias|done]).
  unfold tag_value. remember (XCol alias _) as c. cbn [eval]. rewrite Hc. destruct (s_tags r) as [m|]; [|done].
  cbn [or_null eval mbind option_bind sql_index]. by rewrite map_get_spec.
Qed.

(** [count_by_role]: the argument is evaluated in the scope of each member. *)
Lemma eval_by_role vars v s : member_scope vars ->
  (forall vars, member_scope vars -> eval row vars v = Some (VText s)) ->
  eval row vars (XCast (XCase (XCmp CEq (XCol alias (u "type")) (XText (u "relation")))
    (coalesce (call (u "array_length")
       (XLambda (u "list_filter") (XCol alias (u "members")) (u "__m")
          (XCmp CEq (XCol (u "__m") (u "role")) (XParen v)))) zero) zero) VARCHAR) =
  Some (VText (members_by r (fun _ => 0%nat) (fun l => length (base.filter (fun m => m_role m = s) l)))).
Proof.
  intros Hv Hs. pose proof (scope_alias vars Hv) as Hf.
  set (f := XLambda _ _ _ _).
  assert (Hl : eval row vars f = Some (or_null VList
            ((fun l => map member_struct (base.filter (fun m => m_role m = s) l)) <$> s_members r))).
  { subst f. pose proof (eval_member_column alias r vars Hf) as Hm. destruct (s_members r) as [l|].
    - cbn [fmap option_fmap option_map or_null] in *. erewrite eval_filter; [|exact Hm|].
      2: { apply (mapM_map member_struct _ (fun m => VBool (m_role m =s s))). intros m.
           assert (Hb : eval row ((u "__m", member_struct m) :: vars) (XParen v) = Some (VText s))
             by (apply Hs; by constructor).
           remember (XParen v) as w. cbn [eval List.find fst]. rewrite str_eqb_refl. cbn [snd]. by rewrite Hb. }
      do 2 f_equal. clear. induction l as [|m l IH]; [done|]. cbn [map zip zip_with].
      rewrite !filter_cons. cbn [snd is_true].
      destruct (decide (m_role m = s)) as [E|E].
      + rewrite decide_True by by rewrite E, str_eqb_refl. cbn [map fst]. by rewrite IH.
      + rewrite decide_False by (intros E'; by apply str_eqb_eq in E'). exact IH.
    - cbn [fmap option_fmap option_map or_null] in *. remember (XCol alias (u "members")) as c.
      remember (XCmp CEq _ _) as b. cbn [eval]. by rewrite Hm. }
  pose proof (eval_is_type alias r vars Hf (u "relation")) as Ht.
  assert (Hn : eval row vars (coalesce (call (u "array_length") f) zero) =
    Some (VInt (Z.of_nat (length (base.filter (fun m => m_role m = s) (default [] (s_members r))))))).
  { erewrite eval_coalesce; [|exact (array_length_of alias r vars f _ Hl)|reflexivity].
    destruct (s_members r); cbn; by rewrite ?length_map. }
  apply (eval_cast_text alias r vars _ (VInt (Z.of_nat (if is_type (u "relation") r
    then length (base.filter (fun m => m_role m = s) (default [] (s_members r))) else 0)))).
  2: { unfold members_by. destruct (is_type (u "way") r) eqn:Ew, (is_type (u "relation") r) eqn:Er; try done.
       unfold is_type in *. apply str_eqb_eq in Ew, Er. rewrite Er in Ew. discriminate Ew. }
  remember (XCmp CEq (XCol alias (u "type")) _) as c. remember (coalesce _ zero) as x.
  cbn [eval]. rewrite Ht, Hn. by destruct (is_type _ r).
Qed.

Lemma eval_compile e x : compile_expr e alias = Some x ->
  forall vars, member_scope vars -> eval row vars x = Some (VText (value e)).
Proof.
  revert x. induction e as [v|s|k|name args IHargs|ty|sn ty|f e _|op e IHe|op e1 e2 IHe1 IHe2|e1 e2 e3 IHe1 IHe2 IHe3] using expr_first_ind; intros x; cbn [compile_expr element_value].
  - destruct (_format_py_num v); intros [= <-] vars Hv; done.
  - by intros [= <-] vars Hv.
  - intros [= <-] vars Hv. erewrite eval_coalesce; [|by apply eval_tag_value|done].
    by destruct (s_tags r ≫= dict_get k).
  - unfold takes_argument. destruct (str_in name _) eqn:Ht.
    + destruct args as [|arg rest]; [done|]. specialize (IHargs arg rest eq_refl). destruct (name =s u "is_tag") eqn:E1.
      * destruct arg; try done. intros [= <-] vars Hv.
        erewrite eval_bool_to_value; [|apply eval_is_not_null; by apply eval_tag_value|done].
        by destruct (s_tags r ≫= dict_get value).
      * destruct (compile_expr arg alias) as [v|]; [|done]. cbn [mbind option_bind]. intros [= <-] vars Hv.
        specialize (IHargs v eq_refl). destruct (name =s u "count_by_role") eqn:E2; [by apply eval_by_role|].
        destruct (name =s u "number") eqn:E3.
        -- apply eval_format_num; [by apply eval_num, IHargs|]. intros y. cbn. intros Hy. by eapply try_double_narrow.
        -- erewrite eval_bool_to_value; [|by apply eval_is_num, IHargs|done]. cbn [is_true].
           unfold str_in in Ht. cbn [existsb] in Ht.
           rewrite E1, E2, E3, orb_false_r in Ht. cbn [orb] in Ht. by rewrite Ht.
    + intros Hx vars Hv. rewrite (eval_row_call alias r vars (scope_alias vars Hv) name x Hx).
      cbn [str_in existsb] in Ht. unfold str_in in Ht. cbn [existsb] in Ht.
      repeat (apply orb_false_elim in Ht as [? Ht]). destruct args as [|arg args]; [done|].
      by repeat match goal with E : (name =s _) = false |- _ => rewrite E; clear E end.
  - done.
  - done.
  - done.
  - destruct (compile_expr e alias) as [v|]; [|done]. cbn [mbind option_bind]. intros [= <-] vars Hv.
    specialize (IHe v eq_refl vars Hv). destruct op.
    + erewrite eval_bool_to_value; [|cbn [eval]; by rewrite (eval_truthy row vars v _ IHe)|done]. done.
    + apply eval_format_num.
      * cbn [eval]. rewrite (eval_num row vars v _ IHe). cbn [to_number duck_numbers]. by destruct (try_double _).
      * intros y. cbn [to_number duck_numbers]. destruct (try_double _) as [z|] eqn:E; [|done]. intros [= <-].
        by eapply opp_narrow, try_double_narrow.
  - destruct (compile_expr e1 alias) as [a|]; [|done]. destruct (compile_expr e2 alias) as [b|]; [|done].
    cbn [mbind option_bind]. intros [= <-] vars Hv. apply eval_binop; auto.
  - destruct (compile_expr e1 alias) as [a|]; [|done]. destruct (compile_expr e2 alias) as [b|]; [|done].
    destruct (compile_expr e3 alias) as [c|]; [|done]. cbn [mbind option_bind]. intros [= <-] vars Hv.
    pose proof (eval_truthy row vars a _ (IHe1 a eq_refl vars Hv)) as Hc. cbn [eval]. rewrite Hc.
    destruct (truthy_value _); cbn [mbind option_bind]; auto.
Qed.
End Compiler.

(** * Which expressions compile *)

(** Nothing set-scoped, literal keys for [is_tag], no infinite literal. *)
Fixpoint element_scoped (e : expr) : bool :=
  match e with
  | Num (S754_infinity _) => false
  | Num _ | Str _ | TagAccess _ => true
  | SetCount _ | NamedSetCount _ _ | Aggregate _ _ => false
  | ElementCall name args =>
      if takes_argument name then
        match args with
        | [] => false
        | arg :: _ => if name =s u "is_tag" then match arg with Str _ => true | _ => false end else element_scoped arg
        end
      else true
  | Unary _ e => element_scoped e
  | BinOp _ a b => element_scoped a && element_scoped b
  | Ternary c t f => element_scoped c && element_scoped t && element_scoped f
  end.

Definition refused (r : res pystr) : Prop := r = Raise OverflowError \/ exists m, r = Raise (UnsupportedError m).

Lemma format_py_num_ok v : match v with S754_infinity _ => refused (_format_py_num v) | _ => exists s, _format_py_num v = Ok s end.
Proof.
  unfold _format_py_num. destruct v as [s|s| |s m e].
  - destruct s; eexists; reflexivity.
  - left. by destruct s.
  - by eexists.
  - destruct (negb _); [by eexists|]. cbn [int_of_float res_bind]. case_match; by eexists.
Qed.

Lemma row_call_known name alias : element_func_arity name = Some 0%nat -> exists s, compile_row_call name alias = Ok s.
Proof.
  unfold element_func_arity. destruct (str_in name _) eqn:E; [intros _|by destruct (str_in name [u "is_tag"; _; _; _])].
  unfold compile_row_call.
  repeat match goal with |- context [if name =s ?s then _ else _] =>
    destruct (name =s s) eqn:?; [by eexists|] end.
  exfalso. unfold str_in in E. cbn [existsb] in E.
  by repeat match goal with H : (name =s _) = false |- _ => rewrite H in E; clear H end.
Qed.

Lemma takes_argument_arity name n : element_func_arity name = Some n -> takes_argument name = negb (n =? 0)%nat.
Proof.
  unfold element_func_arity, takes_argument. destruct (str_in name [u "id"; _; _; _; _; _; _; _; _; _; _; _; _; _]) eqn:E.
  - intros [= <-]. apply str_in_spec in E. rewrite !elem_of_cons in E.
    by repeat destruct E as [->|E]; [..|inversion E].
  - destruct (str_in name [u "is_tag"; _; _; _]) eqn:E2; [|done]. intros [= <-]. apply str_in_spec in E2.
    rewrite !elem_of_cons in E2. by repeat destruct E2 as [->|E2]; [..|inversion E2].
Qed.

Lemma compile_scoped alias e : expr_wf e ->
  if element_scoped e then exists s, compile_element e alias = Ok s else refused (compile_element e alias).
Proof.
  induction e as [v|s|k|name args IHargs|ty|sn ty|f e _|op e IHe|op e1 e2 IHe1 IHe2|e1 e2 e3 IHe1 IHe2 IHe3] using expr_first_ind;
    intros Hwf; cbn [element_scoped compile_element]; inversion Hwf; subst; try (by eexists); try (by right; eexists).
  - pose proof (format_py_num_ok v) as Hv. destruct v; try (destruct Hv as [txt ->]; by eexists).
    destruct Hv as [->|[m ->]]; [by left|by right; eexists].
  - rewrite (takes_argument_arity _ _ H1). destruct args as [|arg rest]; cbn [length negb Nat.eqb].
    + by apply row_call_known.
    + apply Forall_cons in H2 as [Harg _]. destruct (name =s u "is_tag"); [destruct arg; try (by eexists); by right; eexists|].
      specialize (IHargs arg rest eq_refl Harg). destruct (element_scoped arg).
      * destruct IHargs as [s ->]. cbn [res_bind]. repeat case_match; by eexists.
      * destruct IHargs as [->|[m ->]]; [by left|by right; eexists].
  - specialize (IHe ltac:(done)). destruct (element_scoped e).
    + destruct IHe as [s ->]. by eexists.
    + destruct IHe as [->|[m ->]]; [by left|by right; eexists].
  - specialize (IHe1 ltac:(done)). specialize (IHe2 ltac:(done)).
    destruct (element_scoped e1); cbn [andb].
    + destruct IHe1 as [s ->]. cbn [res_bind]. destruct (element_scoped e2).
      * destruct IHe2 as [t ->]. by eexists.
      * destruct IHe2 as [->|[m ->]]; [by left|by right; eexists].
    + destruct IHe1 as [->|[m ->]]; [by left|by right; eexists].
  - specialize (IHe1 ltac:(done)). specialize (IHe2 ltac:(done)). specialize (IHe3 ltac:(done)).
    destruct (element_scoped e1); cbn [andb].
    + destruct IHe1 as [s ->]. cbn [res_bind]. destruct (element_scoped e2); cbn [andb].
      * destruct IHe2 as [t ->]. cbn [res_bind]. destruct (element_scoped e3).
        -- destruct IHe3 as [w ->]. by eexists.
        -- destruct IHe3 as [->|[m ->]]; [by left|by right; eexists].
      * destruct IHe2 as [->|[m ->]]; [by left|by right; eexists].
    + destruct IHe1 as [->|[m ->]]; [by left|by right; eexists].
Qed.

(** The literals that are compiled with an expression. *)
Fixpoint infinite_literal (e : expr) : bool :=
  match e with
  | Num (S754_infinity _) => true
  | ElementCall _ (arg :: _) => infinite_literal arg
  | Unary _ e => infinite_literal e
  | BinOp _ a b => infinite_literal a || infinite_literal b
  | Ternary c t f => infinite_literal c || infinite_literal t || infinite_literal f
  | _ => false
  end.
Lemma compile_overflows alias e : expr_wf e -> compile_element e alias = Raise OverflowError -> infinite_literal e = true.
Proof.
  induction e as [v|s|k|name args IHargs|ty|sn ty|f e _|op e IHe|op e1 e2 IHe1 IHe2|e1 e2 e3 IHe1 IHe2 IHe3] using expr_first_ind;
    intros Hwf; cbn [infinite_literal compile_element]; inversion Hwf; subst; try done.
  - pose proof (format_py_num_ok v) as Hv. destruct v; try done; by destruct Hv as [txt ->].
  - rewrite (takes_argument_arity _ _ H1). destruct args as [|arg rest]; cbn [length negb Nat.eqb].
    + by destruct (row_call_known name alias H1) as [s ->].
    + apply Forall_cons in H2 as [Harg _]. specialize (IHargs arg rest eq_refl Harg).
      destruct (name =s u "is_tag"); [by destruct arg|]. destruct (compile_element arg alias); cbn [res_bind]; [by repeat case_match|exact IHargs].
  - specialize (IHe ltac:(done)). destruct (compile_element e alias); cbn [res_bind]; [done|exact IHe].
  - specialize (IHe1 ltac:(done)). specialize (IHe2 ltac:(done)). rewrite orb_true_iff.
    destruct (compile_element e1 alias); cbn [res_bind]; [|by left; apply IHe1].
    destruct (compile_element e2 alias); cbn [res_bind]; [done|by right; apply IHe2].
  - specialize (IHe1 ltac:(done)). specialize (IHe2 ltac:(done)). specialize (IHe3 ltac:(done)). rewrite !orb_true_iff.
    destruct (compile_element e1 alias); cbn [res_bind]; [|by left; left; apply IHe1].
    destruct (compile_element e2 alias); cbn [res_bind]; [|by left; right; apply IHe2].
    destruct (compile_element e3 alias); cbn [res_bind]; [done|by right; apply IHe3].
Qed.

(** * Theorems *)
Section Theorems.
Context `{UnicodeDB} {G : Type} `{DuckDB G} `{!DuckDBLaws}.

Lemma compiled alias e s : no_quote alias = true -> alias <> u "__m" -> compile_element e alias = Ok s ->
  exists x, show x = s /\ ok_expr x = true /\ sql_literals s = Some (literals x) /\
  forall (r : set_row G) vars, member_scope vars ->
    eval (row_of alias r) vars x = Some (VText (element_value duck_numbers duck_meters r e)).
Proof.
  intros Hq Hm Hs. pose proof (compile_text e alias) as Ht. rewrite Hs in Ht.
  destruct (compile_expr e alias) as [x|] eqn:Hx; [|done]. cbn in Ht.
  pose proof (ok_compile alias Hq e x Hx) as Hok. exists x. split_and!; [done|done| |].
  - rewrite <- Ht. by apply show_literals, ok_expr_spec.
  - intros r vars Hv. by apply eval_compile.
Qed.
End Theorems.

(** C17: compiled expressions are well typed. For an expression of the
    grammar, [compile_element] succeeds exactly when the expression is
    element-scoped (no set count or aggregate, literal keys for [is_tag]) and
    has no infinite literal; the SQL it returns is read back as one expression,
    which on every row of a set evaluates without an error to a VARCHAR that is
    not NULL. Otherwise it raises [UnsupportedError], or [OverflowError] on an
    infinite literal. *)
Theorem compile_element_typed `{UnicodeDB} {G : Type} `{DuckDB G} `{!DuckDBLaws} alias e :
  no_quote alias = true -> alias <> u "__m" -> expr_wf e ->
  if element_scoped e then
    exists s x, compile_element e alias = Ok s /\ show x = s /\ readable x = true /\
    forall r : set_row G, exists t, eval (row_of alias r) [] x = Some (VText t)
  else refused (compile_element e alias).
Proof.
  intros Hq Hm Hwf. pose proof (compile_scoped alias e Hwf) as Hc. destruct (element_scoped e); [|done].
  destruct Hc as [s Hs]. destruct (compiled (G := G) alias e s Hq Hm Hs) as (x & Hx & Hok & _ & He).
  exists s, x. split_and!; [done|done|by apply ok_expr_spec in Hok as [? _]|]. intros r. eexists. apply He. constructor.
Qed.

(** C16: the [(if:)] filter. The predicate compiled from an expression is read by
    SQL as one expression whose string literals are exactly the source's
    (quotes included), and on every row of a set it is TRUE or FALSE, never
    NULL and never an error: TRUE exactly when the Overpass value of the
    expression on that element is neither empty nor [0]. The value follows the
    Overpass rules: tags that are absent read as the empty text, a comparison
    is numeric when both sides are numbers and lexical otherwise, division by
    zero and missing coordinates are [nan], member counts and distinct members
    are counted by type and id. *)
Theorem if_filter_correct `{UnicodeDB} {G : Type} `{DuckDB G} `{!DuckDBLaws} alias e s :
  no_quote alias = true -> alias <> u "__m" -> compile_predicate e alias = Ok s ->
  exists x, show x = s /\ readable x = true /\ sql_literals s = Some (literals x) /\
  forall r : set_row G,
    eval (row_of alias r) [] x = Some (VBool (truthy_value (element_value duck_numbers duck_meters r e))).
Proof.
  unfold compile_predicate. intros Hq Hm. destruct (compile_element e alias) as [t|] eqn:Ht; [|done].
  intros [= <-]. destruct (compiled (G := G) alias e t Hq Hm Ht) as (x & Hx & Hok & _ & He).
  pose proof (ok_expr_spec x Hok) as (Hr & Hl & Hp).
  exists (truthy_expr x). split_and!.
  - by rewrite show_truthy, Hx.
  - operands.
  - rewrite <- Hx, <- show_truthy. apply show_literals. unfold truthy_expr. cbn [plain]. by rewrite Hp.
  - intros r. apply eval_truthy. apply He. constructor.
Qed.

(** ** Samples *)
Definition sample_duckdb : DuckDB unit := {|
  regexp_valid p := negb (existsb (Z.eqb 40) p);
  regexp_matches _ s p := py_contains p s;
  try_double s := match py_int (H := latin1_db) s with Ok n => Some (float_of_Z n) | Raise _ => None end;
  double_text := PyFloat.float_repr;
  flip_coordinates g := g;
  length_spheroid _ := float_of_Z 100
|}.
Lemma sample_duckdb_laws : @DuckDBLaws unit sample_duckdb.
Proof.
  split; [|intros g; exact (float_of_Z_narrow 100)]. intros s x. change (try_double s) with
    (match py_int (H := latin1_db) s with Ok n => Some (float_of_Z n) | Raise _ => None end).
  destruct (py_int s); [|done]. intros [= <-]. apply float_of_Z_narrow.
Qed.

Definition sample_way : set_row unit := {|
  s_type := u "way"; s_id := 7; s_cell := None; s_lat_e7 := None; s_lon_e7 := None;
  s_refs := Some [1; 2; 3; 1]; s_members := None;
  s_tags := Some [(u "lanes", u "10"); (u "name", u "Rue de l'Ouest")];
  s_version := Some 3; s_changeset := None; s_timestamp := None; s_uid := None; s_user := None;
  s_box := None; s_geometry := Some tt; s_hilbert := None
|}.
(** [t["lanes"] > 9 && t["name"] == "Rue de l'Ouest" && count_distinct_members() == 3] *)
Definition sample_expr : expr :=
  BinOp BAnd
    (BinOp BAnd (BinOp BGt (TagAccess (u "lanes")) (Num (float_of_Z 9)))
                (BinOp BEq (TagAccess (u "name")) (Str (u "Rue de l'Ouest"))))
    (BinOp BEq (ElementCall (u "count_distinct_members") []) (Num (float_of_Z 3))).

Lemma compile_element_typed_witness :
  element_scoped sample_expr = true /\
  exists s x, compile_element sample_expr (u "__q") = Ok s /\ show x = s /\
  exists t, eval (H := latin1_db) (H0 := sample_duckdb) (row_of (u "__q") sample_way) [] x = Some (VText t).
Proof.
  split; [vm_compute; reflexivity|].
  destruct (compile_element_typed (H := latin1_db) (H0 := sample_duckdb) (H1 := sample_duckdb_laws)
              (u "__q") sample_expr eq_refl ltac:(done)) as (s & x & Hs & Hx & _ & He).
  - repeat constructor.
  - exists s, x. split; [exact Hs|]. split; [exact Hx|]. exact (He sample_way).
Defined.

Lemma if_filter_correct_witness :
  truthy_value (element_value (duck_numbers (H := sample_duckdb)) (duck_meters (H0 := sample_duckdb)) sample_way sample_expr) = true /\
  exists s x, compile_predicate sample_expr (u "__q") = Ok s /\ show x = s /\
  eval (H := latin1_db) (H0 := sample_duckdb) (row_of (u "__q") sample_way) [] x = Some (VBool true).
Proof.
  assert (Ht : truthy_value (element_value (duck_numbers (H := sample_duckdb)) (duck_meters (H0 := sample_duckdb))
                 sample_way sample_expr) = true) by (vm_compute; reflexivity).
  split; [exact Ht|].
  destruct (compile_predicate sample_expr (u "__q")) as [s|] eqn:Es; [|vm_compute in Es; discriminate Es].
  destruct (if_filter_correct (H := latin1_db) (H0 := sample_duckdb) (H1 := sample_duckdb_laws)
              (u "__q") sample_expr s eq_refl ltac:(done) Es) as (x & Hx & _ & _ & He).
  exists s, x. split; [reflexivity|]. split; [exact Hx|]. rewrite He, Ht. reflexivity.
Defined.
