(* ===== verification/EvalSet.v ===== *)
(** [engine/evalsql.py], [evaluate_set]: an expression evaluated once, in
    Python, against the sets of the run. *)
From S2P Require Import Prelude PyStr PyFloat Osc Evaluator SqlText SqlExpr Schema EvalSql EvalSqlExpr.

Definition set_missing {A} (name : pystr) : res A :=
  Raise (RuntimeQueryError (u "runtime error: set " ++ [34] ++ u "." ++ name ++ [34] ++ u " has not been set before")).
Definition bare_element_function {A} : res A :=
  Raise (RuntimeQueryError (u "runtime error: element-scoped function used outside an aggregator in an 'if'/(if:) condition; wrap it in u(...)")).

Section Set_.
Context `{UnicodeDB} {G : Type} `{DuckDB G}.

(** The tables [set_<name>] of the connection. *)
Abbreviation sets_t := (list (pystr * list (set_row G))).
Fixpoint find_set (name : pystr) (sets : sets_t) : option (list (set_row G)) :=
  match sets with
  | [] => None
  | (n, rows) :: rest => if n =s name then Some rows else find_set name rest
  end.
Definition _require_set_table (sets : sets_t) (name : pystr) : res (list (set_row G)) :=
  match find_set name sets with Some rows => Ok rows | None => set_missing name end.

Definition _py_is_number (s : pystr) : bool := match py_float s with Ok _ => true | Raise _ => false end.
Definition _py_to_number (s : pystr) : pyfloat := match py_float s with Ok x => x | Raise _ => fnan end.
Definition truthy (s : pystr) : bool := negb (s =s []) && negb (s =s u "0").
Definition _py_bool (b : bool) : pystr := if b then u "1" else u "0".

(** Comparison of Python floats. *)
Definition py_compare (op : cmp_op) (x y : pyfloat) : bool :=
  match op with
  | CLt => fltb x y | CLe => fleb x y | CGt => fltb y x | CGe => fleb y x | CEq => feqb x y | CNe => negb (feqb x y)
  end.

(** [_TYPE_FILTER_SQL] *)
Definition type_filter (type_name : pystr) : res (set_row G -> bool) :=
  let of_type ty := fun r : set_row G => s_type r =s ty in
  if type_name =s u "nodes" then Ok (of_type (u "node"))
  else if type_name =s u "ways" then Ok (of_type (u "way"))
  else if type_name =s u "relations" then Ok (of_type (u "relation"))
  else if type_name =s u "areas" then Ok (of_type (u "area"))
  else if type_name =s u "nwr" then Ok (fun r => str_in (s_type r) [u "node"; u "way"; u "relation"])
  else Raise KeyError.

(** [SELECT count( * ) FROM set WHERE cond] *)
Definition count_rows (sets : sets_t) (name type_name : pystr) : res pystr :=
  let* rows := _require_set_table sets name in
  let* cond := type_filter type_name in
  Ok (str_of_Z (Z.of_nat (length (List.filter cond rows)))).

(** ** Aggregates over the values of the rows *)
Definition text_of (v : sval G) : option (option pystr) :=
  match v with VText s => Some (Some s) | VNull => Some None | _ => None end.

(** [SELECT value FROM set]: the values that are not NULL. *)
Definition row_values (x : sqlx) (rows : list (set_row G)) : res (list pystr) :=
  match mapM (fun r => eval (row_of (u "__e") r) [] x ≫= text_of) rows with
  | Some vs => Ok (omap (fun v => v) vs)
  | None => Raise DuckDBError
  end.
(** [min] and [max]: of texts, and of DOUBLEs in DuckDB's order. *)
Definition sql_max_text (vs : list pystr) : option pystr :=
  foldr (fun v acc => match acc with Some w => Some (if str_leb v w then w else v) | None => Some v end) None vs.
Definition sql_min_double (xs : list pyfloat) : option pyfloat :=
  foldr (fun x acc => match acc with Some y => Some (if dlt y x then y else x) | None => Some x end) None xs.
Definition sql_max_double (xs : list pyfloat) : option pyfloat :=
  foldr (fun x acc => match acc with Some y => Some (if dlt x y then y else x) | None => Some x end) None xs.
Definition sql_sum (xs : list pyfloat) : option pyfloat :=
  match xs with [] => None | x :: xs => Some (fold_left fadd xs x) end.

Definition aggregate (func : pystr) (vs : list pystr) : res pystr :=
  let doubles := omap try_double vs in
  if func =s u "u" then
    Ok (if (length (remove_dups vs) <=? 1)%nat then default [] (sql_max_text vs) else [])
  else if func =s u "min" then
    match sql_min_double doubles with Some x => _format_py_num x | None => Ok [] end
  else if func =s u "max" then
    match sql_max_double doubles with Some x => _format_py_num x | None => Ok [] end
  else if func =s u "sum" then
    _format_py_num (default (float_of_Z 0) (sql_sum doubles))
  else if func =s u "set" then Ok (py_join (u ", ") (sorted_set vs))
  else Raise (UnsupportedError (u "aggregator " ++ func ++ u "(...) is not supported")).

(** [eval_binop], the operands evaluated. *)
Definition eval_binop (op : binop) (a b : pystr) : res pystr :=
  let an := _py_to_number a in
  let bn := _py_to_number b in
  match op with
  | BAdd => _format_py_num (fadd an bn)
  | BSub => _format_py_num (fsub an bn)
  | BMul => _format_py_num (fmul an bn)
  | BDiv => _format_py_num (if feqb bn (float_of_Z 0) then fnan else fdiv an bn)
  | BAnd => Ok (_py_bool (truthy a && truthy b))
  | BOr => Ok (_py_bool (truthy a || truthy b))
  | _ => match _CMP_OP_SQL op with
         | Some c => Ok (_py_bool (if _py_is_number a && _py_is_number b then py_compare c an bn else scmp c a b))
         | None => Raise (UnsupportedError (u "evaluator operator is not supported"))
         end
  end.

Fixpoint evaluate_set (sets : sets_t) (set_name : pystr) (e : expr) : res pystr :=
  match e with
  | Num v => _format_py_num v
  | Str s => Ok s
  | TagAccess _ | ElementCall _ _ => bare_element_function
  | SetCount ty => count_rows sets set_name ty
  | NamedSetCount name ty => count_rows sets name ty
  | Aggregate func e =>
      let* rows := _require_set_table sets set_name in
      let* _ := compile_element e (u "__e") in
      match compile_expr e (u "__e") with
      | Some x => let* vs := row_values x rows in aggregate func vs
      | None => Raise DuckDBError
      end
  | Unary op e =>
      let* v := evaluate_set sets set_name e in
      match op with
      | UNot => Ok (_py_bool (negb (truthy v)))
      | UNeg => _format_py_num (fopp (_py_to_number v))
      end
  | BinOp op l r =>
      let* a := evaluate_set sets set_name l in
      let* b := evaluate_set sets set_name r in
      eval_binop op a b
  | Ternary c t f =>
      let* cond := evaluate_set sets set_name c in
      if truthy cond then evaluate_set sets set_name t else evaluate_set sets set_name f
  end.
End Set_.
