(* ===== verification/SetTables.v ===== *)
(** [engine/setops.py]: the temporary tables [set_<name>] of a run, and the set
    algebra over (type, id).

    DuckDB finds a table whatever the case of its name and stores the name as
    written; the program asks [duckdb_tables()] for the name as written. *)
From S2P Require Import Prelude PyStr QlAst SqlText SqlExpr Schema EvalSet.

(** The identifier DuckDB looks up: ASCII letters in lower case. *)
Definition fold_char (c : Z) : Z := if (65 <=? c) && (c <=? 90) then c + 32 else c.
Definition fold_name (s : pystr) : pystr := map fold_char s.

(** [row_number() OVER (PARTITION BY type, id)] without an order: which row of a
    partition, given its first and the others, comes first is DuckDB's choice. *)
Class RowChoice (G : Type) := first_row : set_row G -> list (set_row G) -> set_row G.
Class RowChoiceLaw (G : Type) `{RowChoice G} := first_row_in : forall r rs, first_row r rs ∈ r :: rs.

Section SetTables.
Context {G : Type}.
Abbreviation row := (set_row G).
(** The tables, by the name after [set_]; no two names fold to the same. *)
Abbreviation sets_t := (list (pystr * list row)).

Definition table_exists (name : pystr) (sets : sets_t) : bool :=
  match find_set name sets with Some _ => true | None => false end.

(** [FROM set_<name>] *)
Definition from_set (name : pystr) (sets : sets_t) : res (list row) :=
  match List.find (fun t => fold_name t.1 =s fold_name name) sets with
  | Some t => Ok t.2
  | None => Raise DuckDBError
  end.

(** [CREATE OR REPLACE TEMP TABLE set_<name> AS ...] *)
Definition create_or_replace (name : pystr) (rows : list row) (sets : sets_t) : sets_t :=
  (name, rows) :: base.filter (fun t => (fold_name t.1 =s fold_name name) = false) sets.

(** [_require_set] *)
Definition _require_set (sets : sets_t) (name : pystr) : res () :=
  if table_exists name sets then Ok () else set_missing name.

Definition same_key (a b : pystr * Z) : bool := (a.1 =s b.1) && (a.2 =? b.2).
Definition has_key (k : pystr * Z) (rows : list row) : bool := existsb (fun r => same_key (s_key r) k) rows.

Section Materialize.
Context `{RowChoice G}.

(** [materialize]: one row per (type, id). *)
Definition partition_row (rows : list row) (k : pystr * Z) : option row :=
  match base.filter (fun r => same_key (s_key r) k = true) rows with
  | [] => None
  | r :: rs => Some (first_row r rs)
  end.
Definition deduplicate (rows : list row) : list row :=
  omap (partition_row rows) (remove_dups (map s_key rows)).
Definition materialize (name : pystr) (select : list row) (sets : sets_t) : sets_t :=
  create_or_replace name (deduplicate select) sets.

(** [empty_set_sql()] selects nothing. *)
Definition ensure_empty_set (name : pystr) (sets : sets_t) : sets_t := materialize name [] sets.
End Materialize.

(** [union_sql]: [UNION ALL] of the tables. *)
Definition union_select (set_names : list pystr) (sets : sets_t) : res (list row) :=
  res_flat_map (fun n => from_set n sets) set_names.

(** [difference_sql] *)
Definition difference_select (first_set second_set : pystr) (sets : sets_t) : res (list row) :=
  let* a := from_set first_set sets in
  let* b := from_set second_set sets in
  Ok (base.filter (fun r => has_key (s_key r) b = false) a).
End SetTables.
