(* ===== verification/EvalSetFacts.v ===== *)
(** Theorems on [evaluate_set]: on the sets of a run it returns the Overpass
    value of the expression, or raises one of the errors a condition can meet.

    Facts about the set tables: materialising keeps one row per element, and
    union and difference are those of the sets of elements. *)
From S2P Require Import Prelude PyStr PyFloatFacts Evaluator EvaluatorFacts SqlText Osc SqlExpr Schema PyFloat EvalSql EvalSqlExpr EvalSqlFacts EvalSet.
From S2P Require Import SetTables.

(** * DuckDB's order on DOUBLE is total *)

(** A DOUBLE as a triple ordered lexicographically: its class, exponent and
    mantissa. *)
Definition rank (x : pyfloat) : Z * Z * Z :=
  match x with
  | S754_infinity true => (-2, 0, 0)
  | S754_finite true m e => (-1, - e, - Zpos m)
  | S754_zero _ => (0, 0, 0)
  | S754_finite false m e => (1, e, Zpos m)
  | S754_infinity false => (2, 0, 0)
  | S754_nan => (3, 0, 0)
  end.
Definition rank_lt (a b : Z * Z * Z) : Prop :=
  a.1.1 < b.1.1 \/ (a.1.1 = b.1.1 /\ (a.1.2 < b.1.2 \/ (a.1.2 = b.1.2 /\ a.2 < b.2))).

Lemma dlt_rank x y : dlt x y = true <-> rank_lt (rank x) (rank y).
Proof.
  unfold dlt, fltb, SFltb, rank_lt.
  destruct x as [[]|[]| |[] m e], y as [[]|[]| |[] m' e']; cbn [is_nan negb andb orb SFcompare rank fst snd];
    try (split; [done || lia|intros; done || lia]).
  - change (Pos.compare_cont Eq m m') with (Pos.compare m m').
    destruct (Z.compare_spec e e'), (Pos.compare_spec m m'); cbn [CompOpp]; (split; [done || lia|intros; done || lia]).
  - change (Pos.compare_cont Eq m m') with (Pos.compare m m').
    destruct (Z.compare_spec e e'), (Pos.compare_spec m m'); cbn [CompOpp]; (split; [done || lia|intros; done || lia]).
Qed.
Lemma dlt_false x y : dlt x y = false <-> ~ rank_lt (rank x) (rank y).
Proof. rewrite <- dlt_rank. destruct (dlt x y); naive_solver. Qed.

(** The smallest and the greatest number of a list. *)
Lemma sql_min_spec xs :
  match sql_min_double xs with Some x => x ∈ xs /\ forall y, y ∈ xs -> dlt y x = false | None => xs = [] end.
Proof.
  induction xs as [|x xs IH]; [done|]. cbn [sql_min_double foldr]. fold (sql_min_double xs).
  destruct (sql_min_double xs) as [z|].
  - destruct IH as [Hz Hall]. destruct (dlt z x) eqn:E.
    + split; [by right|]. intros y [->|Hy]%elem_of_cons; [|by apply Hall].
      apply dlt_false. apply dlt_rank in E. unfold rank_lt in *. lia.
    + split; [left|]. intros y [->|Hy]%elem_of_cons; apply dlt_false; [unfold rank_lt; lia|].
      apply dlt_false in E. pose proof (proj1 (dlt_false _ _) (Hall y Hy)). unfold rank_lt in *. lia.
  - subst. split; [left|]. intros y [->|Hy]%elem_of_cons; [apply dlt_false; unfold rank_lt; lia|inversion Hy].
Qed.
Lemma sql_max_spec xs :
  match sql_max_double xs with Some x => x ∈ xs /\ forall y, y ∈ xs -> dlt x y = false | None => xs = [] end.
Proof.
  induction xs as [|x xs IH]; [done|]. cbn [sql_max_double foldr]. fold (sql_max_double xs).
  destruct (sql_max_double xs) as [z|].
  - destruct IH as [Hz Hall]. destruct (dlt x z) eqn:E.
    + split; [by right|]. intros y [->|Hy]%elem_of_cons; [|by apply Hall].
      apply dlt_false. apply dlt_rank in E. unfold rank_lt in *. lia.
    + split; [left|]. intros y [->|Hy]%elem_of_cons; apply dlt_false; [unfold rank_lt; lia|].
      apply dlt_false in E. pose proof (proj1 (dlt_false _ _) (Hall y Hy)). unfold rank_lt in *. lia.
  - subst. split; [left|]. intros y [->|Hy]%elem_of_cons; [apply dlt_false; unfold rank_lt; lia|inversion Hy].
Qed.

(** One distinct value. *)
Lemma remove_dups_one {A} `{EqDecision A} (l : list A) : (length (remove_dups l) <= 1)%nat ->
  forall x y, x ∈ l -> y ∈ l -> x = y.
Proof.
  intros Hl x y Hx Hy. apply elem_of_remove_dups in Hx, Hy. destruct (remove_dups l) as [|a [|b l']]; cbn in Hl; [|
    |lia]; [inversion Hx|]. apply list_elem_of_singleton in Hx, Hy. by subst.
Qed.
Lemma remove_dups_more {A} `{EqDecision A} (l : list A) : (1 < length (remove_dups l))%nat ->
  exists x y, x ∈ l /\ y ∈ l /\ x <> y.
Proof.
  intros Hl. pose proof (NoDup_remove_dups l) as Hn. destruct (remove_dups l) as [|a [|b l']] eqn:E; cbn in Hl; [lia|lia|].
  assert (Hl' : forall x, x ∈ a :: b :: l' -> x ∈ l) by (intros x; rewrite <- E; apply elem_of_remove_dups).
  exists a, b. apply NoDup_cons in Hn as [Hn _]. rewrite elem_of_cons in Hn.
  split_and!; [apply Hl'; left|apply Hl'; right; left|intros ->; apply Hn; by left].
Qed.
Lemma sql_max_text_in vs : vs <> [] -> exists v, sql_max_text vs = Some v /\ v ∈ vs.
Proof.
  induction vs as [|v vs IH]; [done|]. intros _. cbn [sql_max_text foldr]. fold (sql_max_text vs).
  destruct vs as [|w vs]; [exists v; split; [done|left]|].
  destruct IH as (z & -> & Hz); [done|]. destruct (str_leb v z); eexists; (split; [done|]); [by right|left].
Qed.

Section Semantics.
Context `{UnicodeDB} {G : Type} `{DuckDB G} `{!DuckDBLaws}.
Abbreviation sets_t := (list (pystr * list (set_row G))).

(** A text read as a number: one that is not a number counts as NaN. *)
Definition number (s : pystr) : pyfloat := match py_float s with Ok x => x | Raise _ => fnan end.
Definition infinite (x : pyfloat) : Prop := exists neg, x = finf neg.
(** How a number prints: as an integer if it equals one below [10^15], and else
    as Python's [repr] writes it.  An infinity does not print. *)
Inductive prints : pyfloat -> pystr -> Prop :=
  | prints_nan : prints fnan (u "nan")
  | prints_integer x n : feqb x (float_of_Z n) = true -> Z.abs n < 10 ^ 15 -> prints x (str_of_Z n)
  | prints_decimal x : x <> fnan -> ~ infinite x -> (forall n, Z.abs n < 10 ^ 15 -> feqb x (float_of_Z n) = false) ->
      prints x (float_repr x).

(** The value of an element-scoped expression on a row, as SQL computes it. *)
Definition row_value (e : expr) (r : set_row G) : pystr := element_value duck_numbers duck_meters r e.

(** The element types a keyword counts. *)
Definition keyword_types (ty : pystr) : list pystr :=
  if ty =s u "nodes" then [u "node"] else if ty =s u "ways" then [u "way"]
  else if ty =s u "relations" then [u "relation"] else if ty =s u "areas" then [u "area"]
  else [u "node"; u "way"; u "relation"].
Definition counted (rows : list (set_row G)) (ty : pystr) : nat :=
  length (base.filter (fun r => s_type r ∈ keyword_types ty) rows).

(** The numbers among the values. *)
Definition numeric (e : expr) (rows : list (set_row G)) (x : pyfloat) : Prop :=
  exists r, r ∈ rows /\ try_double (row_value e r) = Some x.
Definition numbers_of (e : expr) (rows : list (set_row G)) : list pyfloat := omap (fun r => try_double (row_value e r)) rows.
(** The number an aggregate yields: a least, a greatest, the sum from the first
    row to the last. *)
Inductive agg_number (e : expr) (rows : list (set_row G)) : pystr -> pyfloat -> Prop :=
  | num_min x : numeric e rows x -> (forall y, numeric e rows y -> dlt y x = false) -> agg_number e rows (u "min") x
  | num_max x : numeric e rows x -> (forall y, numeric e rows y -> dlt x y = false) -> agg_number e rows (u "max") x
  | num_sum x xs : numbers_of e rows = x :: xs -> agg_number e rows (u "sum") (fold_left fadd xs x)
  | num_sum_none : numbers_of e rows = [] -> agg_number e rows (u "sum") (float_of_Z 0).

Inductive aggregates (e : expr) (rows : list (set_row G)) : pystr -> pystr -> Prop :=
  | agg_unique v : rows <> [] -> (forall r, r ∈ rows -> row_value e r = v) -> aggregates e rows (u "u") v
  | agg_empty : rows = [] -> aggregates e rows (u "u") []
  | agg_mixed r r' : r ∈ rows -> r' ∈ rows -> row_value e r <> row_value e r' -> aggregates e rows (u "u") []
  | agg_prints f x s : agg_number e rows f x -> prints x s -> aggregates e rows f s
  | agg_no_min : (forall y, ~ numeric e rows y) -> aggregates e rows (u "min") []
  | agg_no_max : (forall y, ~ numeric e rows y) -> aggregates e rows (u "max") []
  | agg_set vs : StronglySorted str_le vs -> NoDup vs -> (forall v, v ∈ vs <-> exists r, r ∈ rows /\ row_value e r = v) ->
      aggregates e rows (u "set") (py_join (u ", ") vs).

(** ** Expressions over sets *)
Definition arith (op : binop) : option (pyfloat -> pyfloat -> pyfloat) :=
  match op with
  | BAdd => Some fadd | BSub => Some fsub | BMul => Some fmul
  | BDiv => Some (fun x y => if feqb y (float_of_Z 0) then fnan else fdiv x y)
  | _ => None
  end.
(** A comparison is numeric when both sides are numbers, else lexical. *)
Definition test (op : binop) (s t : pystr) : option bool :=
  match op with
  | BAnd => Some (truthy_value s && truthy_value t)
  | BOr => Some (truthy_value s || truthy_value t)
  | _ => c ← _CMP_OP_SQL op; Some (match py_float s, py_float t with Ok x, Ok y => py_compare c x y | _, _ => scmp c s t end)
  end.

Inductive set_evaluates (sets : sets_t) (cur : pystr) : expr -> pystr -> Prop :=
  | se_num v s : prints v s -> set_evaluates sets cur (Num v) s
  | se_str s : set_evaluates sets cur (Str s) s
  | se_count ty rows : find_set cur sets = Some rows ->
      set_evaluates sets cur (SetCount ty) (str_of_Z (Z.of_nat (counted rows ty)))
  | se_named_count name ty rows : find_set name sets = Some rows ->
      set_evaluates sets cur (NamedSetCount name ty) (str_of_Z (Z.of_nat (counted rows ty)))
  | se_aggregate f e rows s : find_set cur sets = Some rows -> element_scoped e = true -> aggregates e rows f s ->
      set_evaluates sets cur (Aggregate f e) s
  | se_not e s : set_evaluates sets cur e s -> set_evaluates sets cur (Unary UNot e) (bool_value (negb (truthy_value s)))
  | se_neg e s v : set_evaluates sets cur e s -> prints (fopp (number s)) v -> set_evaluates sets cur (Unary UNeg e) v
  | se_arith op f a b s t v : arith op = Some f -> set_evaluates sets cur a s -> set_evaluates sets cur b t ->
      prints (f (number s) (number t)) v -> set_evaluates sets cur (BinOp op a b) v
  | se_test op a b s t v : test op s t = Some v -> set_evaluates sets cur a s -> set_evaluates sets cur b t ->
      set_evaluates sets cur (BinOp op a b) (bool_value v)
  | se_then c t f s v : set_evaluates sets cur c s -> truthy_value s = true -> set_evaluates sets cur t v ->
      set_evaluates sets cur (Ternary c t f) v
  | se_else c t f s v : set_evaluates sets cur c s -> truthy_value s = false -> set_evaluates sets cur f v ->
      set_evaluates sets cur (Ternary c t f) v.

(** A part that is evaluated yields an infinite number, or an expression that is
    compiled for an aggregate has an infinite literal. *)
Inductive set_overflows (sets : sets_t) (cur : pystr) : expr -> Prop :=
  | so_num v : infinite v -> set_overflows sets cur (Num v)
  | so_literal f e rows : find_set cur sets = Some rows -> infinite_literal e = true -> set_overflows sets cur (Aggregate f e)
  | so_aggregate f e rows x : find_set cur sets = Some rows -> element_scoped e = true -> agg_number e rows f x -> infinite x ->
      set_overflows sets cur (Aggregate f e)
  | so_unary op e : set_overflows sets cur e -> set_overflows sets cur (Unary op e)
  | so_neg e s : set_evaluates sets cur e s -> infinite (fopp (number s)) -> set_overflows sets cur (Unary UNeg e)
  | so_left op a b : set_overflows sets cur a -> set_overflows sets cur (BinOp op a b)
  | so_right op a b s : set_evaluates sets cur a s -> set_overflows sets cur b -> set_overflows sets cur (BinOp op a b)
  | so_arith op f a b s t : arith op = Some f -> set_evaluates sets cur a s -> set_evaluates sets cur b t ->
      infinite (f (number s) (number t)) -> set_overflows sets cur (BinOp op a b)
  | so_cond c t f : set_overflows sets cur c -> set_overflows sets cur (Ternary c t f)
  | so_then c t f s : set_evaluates sets cur c s -> truthy_value s = true -> set_overflows sets cur t ->
      set_overflows sets cur (Ternary c t f)
  | so_else c t f s : set_evaluates sets cur c s -> truthy_value s = false -> set_overflows sets cur f ->
      set_overflows sets cur (Ternary c t f).

(** * Aggregates *)
Lemma elem_of_row_value e rows v : v ∈ map (row_value e) rows <-> exists r, r ∈ rows /\ row_value e r = v.
Proof. rewrite elem_of_map. naive_solver. Qed.
Lemma elem_of_numeric e rows x : x ∈ omap try_double (map (row_value e) rows) <-> numeric e rows x.
Proof.
  rewrite list_elem_of_omap. unfold numeric. split.
  - intros (v & (r & -> & Hr)%elem_of_map & Hv). eauto.
  - intros (r & Hr & Hv). exists (row_value e r). split; [|done]. by apply elem_of_map_2.
Qed.

Lemma row_values_spec e x rows : compile_expr e (u "__e") = Some x -> row_values x rows = Ok (map (row_value e) rows).
Proof.
  intros Hx. unfold row_values.
  assert (Hv : forall r, (eval (row_of (u "__e") r) [] x ≫= text_of) = Some (Some (row_value e r))).
  { intros r. rewrite (eval_compile (u "__e") ltac:(done) r e x Hx []); [done|constructor]. }
  pose proof (mapM_map (fun r : set_row G => r) (fun r => eval (row_of (u "__e") r) [] x ≫= text_of)
    (fun r => Some (row_value e r)) rows Hv) as Hm. rewrite map_id in Hm. rewrite Hm.
  f_equal. clear. induction rows as [|r rows IH]; [done|]. cbn [map omap list_omap]. by rewrite IH.
Qed.

Lemma format_spec x : match _format_py_num x with Ok s => prints x s | Raise ex => ex = OverflowError /\ infinite x end.
Proof.
  unfold _format_py_num. destruct (feqb x x) eqn:Ex; cbn [negb].
  2: { destruct x as [[]|[]| |[] m e]; try done; [exact prints_nan|..]; unfold feqb, SFeqb, SFcompare in Ex; rewrite Z.compare_refl in Ex;
       change (Pos.compare_cont Eq m m) with (Pos.compare m m) in Ex; by rewrite Pos.compare_refl in Ex. }
  destruct (int_of_float x) as [n|ex] eqn:En; cbn [res_bind].
  2: { destruct x as [|neg| |]; try done. injection En as <-. split; [done|by exists neg]. }
  destruct (feqb x (float_of_Z n) && fltb (fabs x) float_1e15) eqn:E.
  - apply andb_true_iff in E as [E1 E2]. apply prints_integer; [done|by apply (integer_below x)].
  - apply prints_decimal; [by intros ->|intros [neg ->]; done|]. intros n' Hn'. destruct (feqb x (float_of_Z n')) eqn:E'; [|done].
    destruct (equals_integer x n' E' Hn') as [E1 E2]. rewrite En in E1. injection E1 as ->. unfold float_1e15 in E. by rewrite E', E2 in E.
Qed.

(** A number prints in one way. *)
Lemma prints_functional x s s' : prints x s -> prints x s' -> s = s'.
Proof.
  intros P1 P2. destruct P1 as [|x n En Hn|x Hx Hi Hd].
  - by inversion P2.
  - inversion P2 as [|x' n' En' Hn'|x' _ _ Hd']; subst; [done| |by rewrite Hd' in En].
    apply equals_integer in En as [En _], En' as [En' _]; [|done..]. congruence.
  - inversion P2 as [|x' n' En' Hn'|]; subst; [done|by rewrite Hd in En'|done].
Qed.

Lemma aggregate_sound e rows f : f ∈ AGG_FUNCS ->
  match aggregate f (map (row_value e) rows) with
  | Ok v => aggregates e rows f v
  | Raise ex => ex = OverflowError /\ exists x, agg_number e rows f x /\ infinite x
  end.
Proof.
  intros Hf. unfold AGG_FUNCS in Hf. rewrite !elem_of_cons in Hf. set (vs := map (row_value e) rows).
  assert (Hn : forall x, x ∈ omap try_double vs <-> numeric e rows x) by (intros; apply elem_of_numeric).
  assert (Hprint : forall x, agg_number e rows f x -> match _format_py_num x with
    | Ok v => aggregates e rows f v | Raise ex => ex = OverflowError /\ exists x, agg_number e rows f x /\ infinite x end).
  { intros x Hx. pose proof (format_spec x) as Hp. destruct (_format_py_num x) as [s|ex]; [by eapply agg_prints|].
    destruct Hp as [-> Hi]. eauto. }
  destruct Hf as [->|[->|[->|[->|[->|Hf]]]]]; [| | | | |inversion Hf].
  - change (aggregate (u "u") vs) with
      (Ok (if (length (remove_dups vs) <=? 1)%nat then default [] (sql_max_text vs) else [])).
    destruct (Nat.leb_spec (length (remove_dups vs)) 1) as [Hl|Hl].
    + destruct (decide (rows = [])) as [->|Hr]; [by apply agg_empty|].
      destruct (sql_max_text_in vs) as (v & -> & Hv); [by destruct rows|]. apply agg_unique; [done|].
      intros r Hin. apply (remove_dups_one vs Hl); [by apply (elem_of_map_2 (row_value e))|done].
    + destruct (remove_dups_more vs Hl) as (x & y & Hx & Hy & Hne).
      apply elem_of_map in Hx as (r & -> & Hr), Hy as (r' & -> & Hr'). by apply (agg_mixed e rows r r').
  - change (aggregate (u "min") vs) with
      (match sql_min_double (omap try_double vs) with Some x => _format_py_num x | None => Ok [] end).
    pose proof (sql_min_spec (omap try_double vs)) as Hm. destruct (sql_min_double _) as [x|].
    + destruct Hm as [Hx Hall]. apply Hprint, num_min; [by apply Hn|intros y Hy; by apply Hall, Hn].
    + apply agg_no_min. intros y Hy%Hn. rewrite Hm in Hy. inversion Hy.
  - change (aggregate (u "max") vs) with
      (match sql_max_double (omap try_double vs) with Some x => _format_py_num x | None => Ok [] end).
    pose proof (sql_max_spec (omap try_double vs)) as Hm. destruct (sql_max_double _) as [x|].
    + destruct Hm as [Hx Hall]. apply Hprint, num_max; [by apply Hn|intros y Hy; by apply Hall, Hn].
    + apply agg_no_max. intros y Hy%Hn. rewrite Hm in Hy. inversion Hy.
  - change (aggregate (u "sum") vs) with
      (_format_py_num (default (float_of_Z 0) (sql_sum (omap try_double vs)))). apply Hprint.
    replace (omap try_double vs) with (numbers_of e rows)
      by (subst vs; unfold numbers_of; clear; induction rows as [|r rows IH]; [done|]; cbn; by rewrite IH).
    destruct (numbers_of e rows) as [|x xs] eqn:E; [by apply num_sum_none|by apply num_sum].
  - change (aggregate (u "set") vs) with (Ok (py_join (u ", ") (sorted_set vs)) : res pystr).
    apply agg_set; [apply sorted_set_sorted|apply sorted_set_nodup|].
    intros v. rewrite elem_of_sorted_set. apply elem_of_row_value.
Qed.

(** * Operators *)
Lemma eval_binop_cases op a b :
  (exists f, arith op = Some f /\ eval_binop op a b = _format_py_num (f (number a) (number b))) \/
  exists v, test op a b = Some v /\ eval_binop op a b = Ok (bool_value v).
Proof.
  destruct op; try (left; by eexists); right; eexists; (split; [reflexivity|]); unfold eval_binop; cbn [_CMP_OP_SQL]; try done;
    unfold _py_is_number, _py_to_number; by destruct (py_float a), (py_float b).
Qed.

(** * evaluate_set *)

(** Element functions only inside aggregates, and every set assigned. *)
Definition assigned (sets : sets_t) (name : pystr) : bool := match find_set name sets with Some _ => true | None => false end.
Fixpoint answerable (sets : sets_t) (cur : pystr) (e : expr) : bool :=
  match e with
  | Num _ | Str _ => true
  | TagAccess _ | ElementCall _ _ => false
  | SetCount _ => assigned sets cur
  | NamedSetCount name _ => assigned sets name
  | Aggregate _ e => assigned sets cur && element_scoped e
  | Unary _ e => answerable sets cur e
  | BinOp _ a b => answerable sets cur a && answerable sets cur b
  | Ternary c t f => answerable sets cur c && answerable sets cur t && answerable sets cur f
  end.
Definition condition_error (ex : exn) : Prop :=
  (exists m, ex = RuntimeQueryError m) \/ (exists m, ex = UnsupportedError m).

(** What an evaluation may do. *)
Definition outcome (sets : sets_t) (cur : pystr) (e : expr) (r : res pystr) : Prop :=
  match r with
  | Ok v => set_evaluates sets cur e v
  | Raise ex => (ex = OverflowError /\ set_overflows sets cur e) \/ (answerable sets cur e = false /\ condition_error ex)
  end.

Lemma count_rows_spec sets name ty : ty ∈ TYPE_KEYWORDS ->
  match find_set name sets with
  | Some rows => count_rows sets name ty = Ok (str_of_Z (Z.of_nat (counted rows ty)))
  | None => exists m, count_rows sets name ty = Raise (RuntimeQueryError m)
  end.
Proof.
  intros Hty. unfold count_rows, _require_set_table. destruct (find_set name sets) as [rows|]; [|by eexists].
  cbn [res_bind]. unfold counted.
  assert (Hf : exists P, type_filter ty = Ok P /\ forall r : set_row G, P r = true <-> s_type r ∈ keyword_types ty).
  { unfold TYPE_KEYWORDS in Hty. rewrite !elem_of_cons in Hty.
    destruct Hty as [->|[->|[->|[->|[->|Hty]]]]]; [..|inversion Hty]; eexists; (split; [reflexivity|]); intros r;
      first [exact (str_in_spec _ _) | cbv beta; rewrite str_eqb_eq; symmetry; apply list_elem_of_singleton]. }
  destruct Hf as (P & -> & HP). cbn [res_bind]. do 3 f_equal. clear -HP. induction rows as [|r rows IH]; [done|].
  cbn [List.filter]. rewrite filter_cons. destruct (P r) eqn:E.
  - apply HP in E. rewrite decide_True by done. cbn [length]. by rewrite IH.
  - rewrite decide_False; [done|]. intros Hin%HP. congruence.
Qed.

Lemma evaluate_outcome sets cur e : expr_wf e -> outcome sets cur e (evaluate_set sets cur e).
Proof.
  induction e as [v|s|k|name args _|ty|sn ty|f e _|op e IHe|op e1 e2 IHe1 IHe2|e1 e2 e3 IHe1 IHe2 IHe3] using expr_first_ind;
    intros Hwf; inversion Hwf; subst; cbn [evaluate_set].
  - unfold outcome. pose proof (format_spec v) as Hv. destruct (_format_py_num v); [by apply se_num|].
    left. destruct Hv as [-> Hv]. split; [done|by apply so_num].
  - apply se_str.
  - right. split; [done|]. left. by eexists.
  - right. split; [done|]. left. by eexists.
  - pose proof (count_rows_spec sets cur ty ltac:(done)) as Hc. destruct (find_set cur sets) as [rows|] eqn:Es.
    + rewrite Hc. by apply se_count.
    + destruct Hc as [m ->]. right. cbn. unfold assigned. rewrite Es. split; [done|]. left. by eexists.
  - pose proof (count_rows_spec sets sn ty ltac:(done)) as Hc. destruct (find_set sn sets) as [rows|] eqn:Es.
    + rewrite Hc. by apply se_named_count.
    + destruct Hc as [m ->]. right. cbn. unfold assigned. rewrite Es. split; [done|]. left. by eexists.
  - unfold _require_set_table. destruct (find_set cur sets) as [rows|] eqn:Es.
    2: { right. cbn. unfold assigned. rewrite Es. split; [done|]. left. by eexists. }
    cbn [res_bind]. pose proof (compile_scoped (u "__e") e ltac:(done)) as Hc. pose proof (compile_text e (u "__e")) as Ht.
    destruct (element_scoped e) eqn:Esc.
    + destruct Hc as [s Hs]. rewrite Hs in Ht |- *. cbn [res_bind]. destruct (compile_expr e (u "__e")) as [x|] eqn:Hx; [|done].
      rewrite (row_values_spec e x rows Hx). cbn [res_bind]. pose proof (aggregate_sound e rows f ltac:(done)) as Ha.
      destruct (aggregate f _); [by eapply se_aggregate|]. destruct Ha as (-> & x' & Hn & Hi). left. split; [done|by eapply so_aggregate].
    + destruct Hc as [Hc|[m Hc]]; rewrite Hc; [|right; cbn; rewrite Esc, andb_false_r; split; [done|right; by eexists]].
      left. split; [done|]. eapply so_literal; [done|]. by eapply compile_overflows.
  - specialize (IHe ltac:(done)). unfold outcome in IHe. destruct (evaluate_set sets cur e) as [v|ex]; cbn [res_bind].
    2: { destruct IHe as [[-> Ho]|He]; [left; split; [done|by apply so_unary]|by right]. }
    destruct op; [by apply se_not|]. change (_py_to_number v) with (number v).
    unfold outcome. pose proof (format_spec (fopp (number v))) as Hp. destruct (_format_py_num _); [by eapply se_neg|].
    left. destruct Hp as [-> Hp]. split; [done|by eapply so_neg].
  - specialize (IHe1 ltac:(done)). specialize (IHe2 ltac:(done)). unfold outcome in IHe1, IHe2.
    destruct (evaluate_set sets cur e1) as [a|ex]; cbn [res_bind].
    2: { destruct IHe1 as [[-> Ho]|[Hn He]]; [left; split; [done|by apply so_left]|]. right. cbn. by rewrite Hn. }
    destruct (evaluate_set sets cur e2) as [b|ex]; cbn [res_bind].
    2: { destruct IHe2 as [[-> Ho]|[Hn He]]; [left; split; [done|by eapply so_right]|]. right. cbn. by rewrite Hn, andb_false_r. }
    unfold outcome. destruct (eval_binop_cases op a b) as [(f & Hf & ->)|(v & Hv & ->)]; [|by eapply se_test].
    pose proof (format_spec (f (number a) (number b))) as Hp. destruct (_format_py_num _); [by eapply se_arith|].
    left. destruct Hp as [-> Hp]. split; [done|by eapply so_arith].
  - specialize (IHe1 ltac:(done)). specialize (IHe2 ltac:(done)). specialize (IHe3 ltac:(done)). unfold outcome in *.
    destruct (evaluate_set sets cur e1) as [a|ex]; cbn [res_bind].
    2: { destruct IHe1 as [[-> Ho]|[Hn He]]; [left; split; [done|by apply so_cond]|]. right. cbn. by rewrite Hn. }
    change (truthy a) with (truthy_value a). destruct (truthy_value a) eqn:Et.
    + destruct (evaluate_set sets cur e2) as [b|ex]; [by eapply se_then|].
      destruct IHe2 as [[-> Ho]|[Hn He]]; [left; split; [done|by eapply so_then]|]. right. cbn. by rewrite Hn, andb_false_r.
    + destruct (evaluate_set sets cur e3) as [b|ex]; [by eapply se_else|].
      destruct IHe3 as [[-> Ho]|[Hn He]]; [left; split; [done|by eapply so_else]|]. right. cbn. by rewrite Hn, andb_false_r.
Qed.
End Semantics.

(** C18: the condition of an [if] statement. For every expression of the
    grammar and any sets of the run, [evaluate_set] returns the Overpass value
    of the expression: counts are the numbers of rows of a type; [u] is the
    common value of the rows, or empty; [min] and [max] are a least and a
    greatest of the numeric values; [set] is the sorted list of the distinct
    values; operators follow the typing rules; a number that equals an integer
    below 10^15 prints as that integer, any other as Python writes it. It raises
    [OverflowError] only if a part that is evaluated yields an infinite number,
    or an aggregated expression has an infinite literal; any other error (an
    unassigned set, a bare element function, something set-scoped inside an
    aggregate) is a [RuntimeQueryError] or an [UnsupportedError], and only for an
    expression that has such a part. *)
Theorem evaluate_set_correct `{UnicodeDB} {G : Type} `{DuckDB G} `{!DuckDBLaws}
    (sets : list (pystr * list (set_row G))) cur e :
  expr_wf e ->
  match evaluate_set sets cur e with
  | Ok v => set_evaluates sets cur e v
  | Raise ex => (ex = OverflowError /\ set_overflows sets cur e) \/ (answerable sets cur e = false /\ condition_error ex)
  end.
Proof. exact (evaluate_outcome sets cur e). Qed.

(** [count(ways) > 0 && max(t["lanes"]) >= 10] *)
Definition sample_condition : expr :=
  BinOp BAnd (BinOp BGt (SetCount (u "ways")) (Num (float_of_Z 0)))
             (BinOp BGe (Aggregate (u "max") (TagAccess (u "lanes"))) (Num (float_of_Z 10))).

Lemma evaluate_set_correct_witness :
  evaluate_set (H := latin1_db) (H0 := sample_duckdb) [(u "_", [sample_way])] (u "_") sample_condition = Ok (u "1") /\
  set_evaluates (H := latin1_db) (H0 := sample_duckdb) [(u "_", [sample_way])] (u "_") sample_condition (u "1").
Proof.
  assert (E : evaluate_set (H := latin1_db) (H0 := sample_duckdb) [(u "_", [sample_way])] (u "_") sample_condition = Ok (u "1"))
    by (vm_compute; reflexivity).
  split; [exact E|].
  pose proof (evaluate_set_correct (H := latin1_db) (H0 := sample_duckdb) (H1 := sample_duckdb_laws)
                [(u "_", [sample_way])] (u "_") sample_condition) as Hc.
  rewrite E in Hc. apply Hc. repeat constructor; vm_compute; repeat (left || right).
Defined.

(** * Where the two evaluators differ *)

(** NaN: the SQL of an [(if:)] filter compares it as equal to itself and above
    every number, the Python of an [if] statement as unequal to everything. *)
Lemma nan_comparisons_differ {G} `{UnicodeDB} `{DuckDB G} :
  order duck_numbers CEq fnan fnan = true /\ py_compare CEq fnan fnan = false /\
  order duck_numbers CGt fnan (float_of_Z 1) = true /\ py_compare CGt fnan (float_of_Z 1) = false.
Proof. done. Qed.

(** An infinite number is an [OverflowError]: as a literal in either evaluator,
    and as the result of arithmetic in an [if] statement. *)
Lemma infinity_overflows {G} `{UnicodeDB} `{DuckDB G} neg alias (sets : list (pystr * list (set_row G))) cur :
  compile_element (Num (finf neg)) alias = Raise OverflowError /\
  evaluate_set sets cur (Num (finf neg)) = Raise OverflowError /\
  evaluate_set sets cur (BinOp BMul (Num (float_of_decimal false 1 200)) (Num (float_of_decimal false 1 200))) =
    Raise OverflowError.
Proof. split; [by destruct neg|]. split; [by destruct neg|]. vm_compute. reflexivity. Qed.

Lemma same_key_spec a b : same_key a b = true <-> a = b.
Proof.
  destruct a as [s i], b as [t j]. unfold same_key. cbn [fst snd].
  rewrite andb_true_iff, str_eqb_eq, Z.eqb_eq. split; [by intros [-> ->]|by intros [= -> ->]].
Qed.

Section Facts.
Context {G : Type}.
Abbreviation row := (set_row G).
Abbreviation sets_t := (list (pystr * list row)).

Definition keys (rows : list row) : list (pystr * Z) := map s_key rows.

Lemma has_key_spec k (rows : list row) : has_key k rows = true <-> k ∈ keys rows.
Proof.
  unfold has_key, keys. rewrite existsb_exists, elem_of_map. setoid_rewrite same_key_spec.
  setoid_rewrite list_elem_of_In. naive_solver.
Qed.
Lemma has_key_false k (rows : list row) : has_key k rows = false <-> k ∉ keys rows.
Proof. rewrite <- has_key_spec. destruct (has_key k rows); naive_solver. Qed.

(** * Tables *)
Lemma find_set_from name (sets : sets_t) rows : NoDup (map (fold_name ∘ fst) sets) ->
  find_set name sets = Some rows -> from_set name sets = Ok rows.
Proof.
  unfold from_set. induction sets as [|[n rs] sets IH]; [done|]. cbn [map find_set List.find fst compose].
  intros [Hn Hs]%NoDup_cons. destruct (str_eqb_eq n name) as [He _].
  destruct (n =s name) eqn:E.
  - intros [= <-]. apply str_eqb_eq in E as ->. by rewrite str_eqb_refl.
  - intros Hf. destruct (fold_name n =s fold_name name) eqn:Ef; [|by apply IH].
    exfalso. apply str_eqb_eq in Ef. apply Hn. cbn. rewrite Ef.
    clear -Hf. induction sets as [|[m ms] sets IH]; [done|]. cbn [find_set] in Hf. cbn [map].
    destruct (m =s name) eqn:E; [apply str_eqb_eq in E as ->; left|right; auto].
Qed.

Lemma find_create name (rows : list row) sets : find_set name (create_or_replace name rows sets) = Some rows.
Proof. cbn. by rewrite str_eqb_refl. Qed.

Lemma find_create_ne name name' (rows : list row) sets : fold_name name' <> fold_name name ->
  find_set name' (create_or_replace name rows sets) = find_set name' sets.
Proof.
  intros Hne. cbn [create_or_replace find_set].
  destruct (name =s name') eqn:E; [by apply str_eqb_eq in E as ->|]. clear E.
  induction sets as [|[n rs] sets IH]; [done|]. rewrite filter_cons. cbn [fst].
  case_decide as Hd; cbn [find_set].
  - by rewrite IH.
  - rewrite IH. destruct (n =s name') eqn:E; [|done]. apply str_eqb_eq in E as ->.
    exfalso. apply Hd. by apply str_eqb_neq.
Qed.

(** A table replaced under a name in another case is no longer found. *)
Lemma find_create_case name name' (rows : list row) sets :
  name <> name' -> fold_name name' = fold_name name -> find_set name' (create_or_replace name rows sets) = None.
Proof.
  intros Hn Hf. cbn [create_or_replace find_set].
  destruct (name =s name') eqn:E; [by apply str_eqb_eq in E|]. clear E.
  induction sets as [|[n rs] sets IH]; [done|]. rewrite filter_cons. cbn [fst].
  case_decide as Hd; [|done]. cbn [find_set]. rewrite IH.
  destruct (n =s name') eqn:E; [|done]. apply str_eqb_eq in E as ->. rewrite Hf, str_eqb_refl in Hd. done.
Qed.

Lemma create_names name (rows : list row) sets : NoDup (map (fold_name ∘ fst) sets) ->
  NoDup (map (fold_name ∘ fst) (create_or_replace name rows sets)).
Proof.
  intros Hs. cbn [create_or_replace map]. apply NoDup_cons. split.
  - intros (t & Ht & Hin)%elem_of_map. apply list_elem_of_filter in Hin as [Hf _].
    cbn [compose fst] in Ht. by rewrite <- Ht, str_eqb_refl in Hf.
  - revert Hs. induction sets as [|t sets IH]; [done|]. cbn [map]. intros [Hn Hs]%NoDup_cons.
    rewrite filter_cons. case_decide; [|auto]. cbn [map]. apply NoDup_cons. split; [|auto].
    intros (t' & Ht & [_ Hin]%list_elem_of_filter)%elem_of_map. apply Hn. rewrite Ht. by apply elem_of_map_2.
Qed.

(** * Materialising *)
Section Choice.
Context `{RowChoiceLaw G}.

Lemma elem_of_deduplicate (rows : list row) r : r ∈ deduplicate rows -> r ∈ rows.
Proof.
  unfold deduplicate. rewrite list_elem_of_omap. intros (k & _ & Hk). unfold partition_row in Hk.
  destruct (base.filter _ rows) as [|x xs] eqn:E; [done|]. injection Hk as <-.
  pose proof (first_row_in x xs) as Hin. rewrite <- E in Hin. by apply list_elem_of_filter in Hin as [_ ?].
Qed.

Lemma partition_row_key (rows : list row) k r : partition_row rows k = Some r -> s_key r = k.
Proof.
  unfold partition_row. destruct (base.filter _ rows) as [|x xs] eqn:E; [done|]. intros [= <-].
  pose proof (first_row_in x xs) as Hin. rewrite <- E in Hin.
  apply list_elem_of_filter in Hin as [Hk _]. by apply same_key_spec.
Qed.

Lemma partition_row_Some (rows : list row) k : k ∈ keys rows -> is_Some (partition_row rows k).
Proof.
  intros (r & -> & Hr)%elem_of_map. unfold partition_row.
  destruct (base.filter _ rows) as [|x xs] eqn:E; [|by eexists].
  exfalso. assert (Hin : r ∈ base.filter (fun r' => same_key (s_key r') (s_key r) = true) rows)
    by (apply list_elem_of_filter; split; [by apply same_key_spec|done]).
  rewrite E in Hin. by inversion Hin.
Qed.

Lemma deduplicate_keys_eq (rows : list row) : keys (deduplicate rows) = remove_dups (keys rows).
Proof.
  unfold deduplicate. fold (keys rows).
  assert (Hall : forall k, k ∈ remove_dups (keys rows) -> k ∈ keys rows) by (intros k; apply elem_of_remove_dups).
  revert Hall. generalize (remove_dups (keys rows)). intros ks. induction ks as [|k ks IH]; intros Hall; [done|].
  destruct (partition_row_Some rows k) as [r Hr]; [apply Hall; left|].
  cbn. rewrite Hr. cbn. rewrite (partition_row_key _ _ _ Hr). f_equal. apply IH.
  intros k' Hk'. apply Hall. by right.
Qed.

Lemma deduplicate_unique (rows : list row) : NoDup (keys (deduplicate rows)).
Proof. rewrite deduplicate_keys_eq. apply NoDup_remove_dups. Qed.

Lemma deduplicate_keys (rows : list row) k : k ∈ keys (deduplicate rows) <-> k ∈ keys rows.
Proof. rewrite deduplicate_keys_eq. apply elem_of_remove_dups. Qed.

Lemma deduplicate_id (rows : list row) r : NoDup (keys rows) -> r ∈ deduplicate rows <-> r ∈ rows.
Proof.
  intros Hu. split; [apply elem_of_deduplicate|]. intros Hr.
  assert (Hk : s_key r ∈ keys (deduplicate rows)) by by apply deduplicate_keys, elem_of_map_2.
  apply elem_of_map in Hk as (r' & Hk & Hr'). pose proof (elem_of_deduplicate _ _ Hr') as Hin.
  assert (r = r') as ->; [|done]. clear -Hu Hr Hin Hk. induction rows as [|x rows IH]; [by inversion Hr|].
  apply NoDup_cons in Hu as [Hx Hu]. apply elem_of_cons in Hr as [->|Hr], Hin as [->|Hin]; [done| | |by apply IH].
  - exfalso. apply Hx. rewrite Hk. by apply elem_of_map_2.
  - exfalso. apply Hx. rewrite <- Hk. by apply elem_of_map_2.
Qed.
End Choice.
End Facts.
