(* ===== verification/RowSources.v ===== *)
(** What the planner and the recursions ask of [engine/sources.py] and
    [engine/attic.py]: the operations that read rows, as a class, and what they
    promise, as a second class.  [Sources.v] implements it.

    A read returns its rows and the number of files it read. *)
From S2P Require Import Prelude PyStr PyFloat PyTime QlAst SqlExpr Osc Schema Cells.

(** * Reads *)
Definition reads (A : Type) : Type := res (A * Z).
Definition reads_ret {A} (a : A) : reads A := Ok (a, 0).
Definition reads_bind {A B} (m : reads A) (k : A -> reads B) : reads B :=
  match m with
  | Ok (a, n) => match k a with Ok (b, n') => Ok (b, n + n') | Raise e => Raise e end
  | Raise e => Raise e
  end.
(** An intermediate table: no file is read for it. *)
Definition reads_lift {A} (m : res A) : reads A := res_map (fun a => (a, 0)) m.
Notation "'let!' x ':=' m 'in' k" := (reads_bind m (fun x => k))
  (at level 10, x pattern, m at level 100, k at level 200) : osm_scope.

Lemma reads_bind_Ok {A B} (m : reads A) (k : A -> reads B) b n :
  reads_bind m k = Ok (b, n) <-> exists a n1 n2, m = Ok (a, n1) /\ k a = Ok (b, n2) /\ n = n1 + n2.
Proof.
  unfold reads_bind. split.
  - destruct m as [[a n1]|]; [|done]. destruct (k a) as [[b' n2]|] eqn:E; [|done].
    intros [= <- <-]. by exists a, n1, n2.
  - intros (a & n1 & n2 & -> & -> & ->). done.
Qed.
Lemma reads_total {A B} (m : reads A) (k : A -> reads B) (P : B -> Prop) (Q : A -> Prop) :
  (exists a n, m = Ok (a, n) /\ Q a) -> (forall a, Q a -> exists b n, k a = Ok (b, n) /\ P b) ->
  exists b n, reads_bind m k = Ok (b, n) /\ P b.
Proof. intros (a & n & -> & Ha) Hk. destruct (Hk a Ha) as (b & n' & Hb & HP). cbn. rewrite Hb. eauto. Qed.

(** * Identifiers *)
Definition NODE : pystr := u "node".
Definition WAY : pystr := u "way".
Definition RELATION : pystr := u "relation".
Lemma NODE_WAY : NODE <> WAY. Proof. by vm_compute. Qed.
Lemma NODE_RELATION : NODE <> RELATION. Proof. by vm_compute. Qed.
Lemma WAY_RELATION : WAY <> RELATION. Proof. by vm_compute. Qed.
(** A type is not another. *)
Ltac distinct_types :=
  let go := cbn [fst snd] in *; pose proof NODE_WAY; pose proof NODE_RELATION; pose proof WAY_RELATION; congruence in
  solve [go | intros; exfalso; go].
Definition element_types : list pystr := [NODE; WAY; RELATION].

(** A row of a table of identifiers: the cell, where known, is where the row of
    the element is stored. *)
Record idrow := { i_type : pystr; i_id : Z; i_cell : option pystr }.
#[export] Instance idrow_eq_dec : EqDecision idrow.
Proof. solve_decision. Defined.
Definition i_key (r : idrow) : pystr * Z := (i_type r, i_id r).

(** A row recursed from: its identity, and its position if it is a node. *)
Record located := { l_type : pystr; l_id : Z; l_cell : option pystr; l_lat : option Z; l_lon : option Z }.
Definition of_row {G} (r : set_row G) : located :=
  {| l_type := s_type r; l_id := s_id r; l_cell := s_cell r; l_lat := s_lat_e7 r; l_lon := s_lon_e7 r |}.
(** A table of identifiers has no positions. *)
Definition of_idrow (r : idrow) : located :=
  {| l_type := i_type r; l_id := i_id r; l_cell := i_cell r; l_lat := None; l_lon := None |}.

(** A row of the member index. *)
Record member_row := { x_type : pystr; x_id : Z; x_role : pystr; x_parent : Z; x_parent_cell : option pystr }.

Definition box : Type := Z * Z * Z * Z.

(** * The operations *)
Class RowSources (G : Type) := {
  (** [SPATIAL_BUILDERS[t]] *)
  spatial_select : option PyTime.datetime -> pystr -> option BBox -> list TagFilter -> option (list Z) ->
    reads (list (set_row G));
  build_byid_select : option PyTime.datetime -> pystr -> list Z -> list TagFilter -> reads (list (set_row G));
  build_byid_select_from_ids_query : option PyTime.datetime -> pystr -> list Z -> option Z -> option Z ->
    list TagFilter -> reads (list (set_row G));
  build_node_hydrate_via_bbox_select : option PyTime.datetime -> list Z -> list (option box) -> list TagFilter ->
    reads (option (list (set_row G)));
  build_way_hydrate_via_bbox_select : option PyTime.datetime -> list Z -> list (option box) -> list TagFilter ->
    reads (option (list (set_row G)));
  build_spatial_hydrate_via_cell_select : option PyTime.datetime -> pystr -> list (Z * option pystr) ->
    list TagFilter -> reads (option (list (set_row G)));
  build_way_bbox_semijoin_select : option PyTime.datetime -> list Z -> BBox -> reads (option (list (set_row G)));
  (** the rows (node, way) of the parts of the node_way index for a range of
      ids; [None] when there is no such part *)
  node_way_rows : option Z -> option Z -> res (option (list (Z * Z)));
  member_rows : res (option (list member_row));
  delta_way_ids_by_ref : list Z -> res (option (list idrow));
  delta_relation_ids_by_member : pystr -> list Z -> option pystr -> res (option (list idrow));
  backward_relation_ids_snapshot : PyTime.datetime -> list located -> option (list pystr) -> option pystr ->
    reads (option (list idrow));
  (** the (type, id) that changed in an interval *)
  changed_ids : option BBox -> PyTime.datetime -> PyTime.datetime -> res (list (pystr * Z));
  (** the versions of an element and when they began, oldest first *)
  timeline_states : pystr -> Z -> res (list (option Z * PyTime.datetime))
}.

(** * What they promise *)
(** A row read by id has no geometry and its Hilbert key is computed, one read
    from the spatial copy has both as stored: the same element. *)
Definition core {G} (r : set_row G) : set_row G := {|
  s_type := s_type r; s_id := s_id r; s_cell := s_cell r; s_lat_e7 := s_lat_e7 r; s_lon_e7 := s_lon_e7 r;
  s_refs := s_refs r; s_members := s_members r; s_tags := s_tags r; s_version := s_version r;
  s_changeset := s_changeset r; s_timestamp := s_timestamp r; s_uid := s_uid r; s_user := s_user r;
  s_box := s_box r; s_geometry := None; s_hilbert := None |}.
Definition same_element {G} (a b : set_row G) : Prop := core a = core b.

#[export] Instance same_element_equivalence {G} : Equivalence (@same_element G).
Proof. split; [by intros a|intros a b; unfold same_element; done|intros a b c; unfold same_element; congruence]. Qed.
#[export] Instance s_type_proper {G} : Proper (same_element ==> eq) (@s_type G).
Proof. by intros a b [=]. Qed.
#[export] Instance s_id_proper {G} : Proper (same_element ==> eq) (@s_id G).
Proof. by intros a b [=]. Qed.
#[export] Instance s_key_proper {G} : Proper (same_element ==> eq) (@s_key G).
Proof. intros a b H. unfold s_key. by rewrite H. Qed.
#[export] Instance s_refs_proper {G} : Proper (same_element ==> eq) (@s_refs G).
Proof. by intros a b [=]. Qed.
#[export] Instance s_members_proper {G} : Proper (same_element ==> eq) (@s_members G).
Proof. by intros a b [=]. Qed.
#[export] Instance s_tags_proper {G} : Proper (same_element ==> eq) (@s_tags G).
Proof. by intros a b [=]. Qed.
#[export] Instance s_lat_proper {G} : Proper (same_element ==> eq) (@s_lat_e7 G).
Proof. by intros a b [=]. Qed.
#[export] Instance s_lon_proper {G} : Proper (same_element ==> eq) (@s_lon_e7 G).
Proof. by intros a b [=]. Qed.
#[export] Instance s_box_proper {G} : Proper (same_element ==> eq) (@s_box G).
Proof. by intros a b [=]. Qed.

(** A column of type INTEGER. *)
Definition int32 (v : Z) : Prop := - 2 ^ 31 <= v < 2 ^ 31.
Definition sane_box (b : option box) : Prop :=
  match b with Some (x0, y0, x1, y1) => int32 x0 /\ int32 y0 /\ int32 x1 /\ int32 y1 | None => True end.

(** The elements at a time: [None] for now. *)
Definition database (G : Type) : Type := pystr -> Z -> option (set_row G).
Definition well_typed {G} (db : database G) : Prop :=
  forall t i r, db t i = Some r -> s_type r = t /\ s_id r = i.

(** The rows are those of the wanted elements that exist. *)
Definition exact {G} (db : database G) (t : pystr) (wanted : Z -> set_row G -> Prop) (rows : list (set_row G)) : Prop :=
  (forall r, r ∈ rows -> exists d, db t (s_id r) = Some d /\ same_element d r /\ wanted (s_id r) d) /\
  (forall i d, db t i = Some d -> wanted i d -> exists r, r ∈ rows /\ same_element d r).

Definition reads_rows {A} (m : reads A) (P : A -> Prop) : Prop := exists a n, m = Ok (a, n) /\ P a.

(** The tag filters whose patterns compile: a read with others fails. *)
Class Compiles (G : Type) := compiles : list TagFilter -> bool.
Arguments compiles G {_} fs.

Class RowSourcesLaws (G : Type) `{RowSources G} `{Compiles G} (keeps : list TagFilter -> set_row G -> bool)
    (snap : option PyTime.datetime) (db : database G) : Prop := {
  db_typed : well_typed db;
  db_boxes : forall t i r, db t i = Some r -> sane_box (s_box r);
  keeps_all : forall r, keeps [] r = true;
  compiles_nil : compiles G [] = true;
  byid_law : forall t ids fs, t ∈ element_types -> compiles G fs = true ->
    reads_rows (build_byid_select snap t ids fs) (exact db t (fun i d => i ∈ ids /\ keeps fs d = true));
  byid_query_law : forall t i ids fs, t ∈ element_types -> compiles G fs = true ->
    reads_rows (build_byid_select_from_ids_query snap t (i :: ids) (Some (min_of i ids)) (Some (max_of i ids)) fs)
      (exact db t (fun j d => j ∈ i :: ids /\ keeps fs d = true));
  node_bbox_law : forall ids boxes fs, Forall sane_box boxes -> compiles G fs = true ->
    reads_rows (build_node_hydrate_via_bbox_select snap ids boxes fs) (fun o =>
      match o with
      | Some rows => ids <> [] /\ exact db NODE (fun i d => i ∈ ids /\ keeps fs d = true) rows
      | None => ids = []
      end);
  way_bbox_law : forall ids boxes fs, Forall sane_box boxes -> compiles G fs = true ->
    reads_rows (build_way_hydrate_via_bbox_select snap ids boxes fs) (fun o =>
      match o with
      | Some rows => ids <> [] /\ exact db WAY (fun i d => i ∈ ids /\ keeps fs d = true) rows
      | None => ids = []
      end);
  cell_law : forall t ids fs, t = WAY \/ t = RELATION -> compiles G fs = true ->
    reads_rows (build_spatial_hydrate_via_cell_select snap t ids fs) (fun o =>
      match o with
      | Some rows => ids <> [] /\ exact db t (fun i d => i ∈ map fst ids /\ keeps fs d = true) rows
      | None => ids = []
      end)
}.
