(* ===== verification/MetaFilters.v ===== *)
(** [engine/hooks.py], the box arithmetic; [engine/metafilters.py], the filters
    [newer], [changed], [user] and [uid]; [engine/idset.py], lists of ids in
    SQL; the dates of [engine/attic.py]. *)
From S2P Require Import Prelude PyStr PyFloat PyTime Json QlAst SqlText SqlExpr Osc Schema Cells Catalog EvalSet.

(** * hooks: boxes *)
Definition py_max (a b : pyfloat) : pyfloat := if fltb a b then b else a.
Definition py_min (a b : pyfloat) : pyfloat := if fltb b a then b else a.

Definition intersect_bbox (a b : option BBox) : option BBox :=
  match a, b with
  | None, _ => b
  | _, None => a
  | Some (s, w, n, e), Some (s', w', n', e') => Some (py_max s s', py_max w w', py_min n n', py_min e e')
  end.
Definition is_empty_bbox (b : option BBox) : bool :=
  match b with Some (s, w, n, e) => fltb n s || fltb e w | None => false end.

(** * idset: ids in SQL *)
Definition INLINE_ID_LIMIT : nat := 100.
(** [table] is the fresh temporary table the ids are copied to when there are
    too many of them for a list. *)
Definition id_predicate (column_expr : pystr) (ids : list Z) (table : pystr) : pystr :=
  match ids with
  | [] => u "FALSE"
  | _ => if (length ids <=? INLINE_ID_LIMIT)%nat then column_expr ++ u " IN (" ++ py_join (u ",") (map str_of_Z ids) ++ u ")"
         else column_expr ++ u " IN (SELECT id FROM " ++ table ++ u ")"
  end.
Definition id_literal (i : Z) : sqlx := XNum (str_of_Z i) i.

(** * Dates *)
Section Dates.
Context `{UnicodeDB}.

Definition decimal_digit (c : Z) : bool := match py_decimal c with Some _ => true | None => false end.
(** A text matched against a shape: [0] stands for [\d]. *)
Fixpoint shaped (shape s : pystr) : bool :=
  match shape, s with
  | [], [] => true
  | p :: shape, c :: s => (if p =? 48 then decimal_digit c else c =? p) && shaped shape s
  | _, _ => false
  end.
(** [_TIMESTAMP_RE]; [$] also matches before a newline at the end. *)
Definition timestamp_re (s : pystr) : bool :=
  let shape := u "0000-00-00T00:00:00Z" in shaped shape s || shaped (shape ++ [10]) s.

Definition invalid_date (value : pystr) : exn :=
  RuntimeQueryError (u "runtime error: date " ++ [34] ++ value ++ [34] ++
    u " is invalid. It should look like " ++ [34] ++ u "2000-01-01T00:00:00Z" ++ [34] ++ u ".").
Definition _check_timestamp (value : pystr) : res pystr :=
  if timestamp_re value then Ok value else Raise (invalid_date value).

Definition FAR_FUTURE : PyTime.datetime :=
  {| year := 9999; month := 12; day := 31; hour_ := 23; minute := 59; PyTime.second := 59 |}.
Definition parse_date (value : pystr) : res PyTime.datetime :=
  if timestamp_re value then res_of_option (invalid_date value) (strptime value) else Raise (invalid_date value).
Definition resolve_optional_date (value : option pystr) : res PyTime.datetime :=
  match value with None => Ok FAR_FUTURE | Some v => parse_date v end.

(** [history_remark]: a RuntimeQueryError in the manifest's date is no remark. *)
Definition history_remark (m : Catalog.Manifest) (t : PyTime.datetime) : res (option pystr) :=
  let* since := history_since m in
  if negb (Json.truthy since) then Ok None else
  let* since := Catalog.as_str since in
  match parse_date since with
  | Ok since_dt => Ok (if tcmp CLt t since_dt
                       then Some (u "history starts at " ++ since ++ u "; earlier dates return the earliest known state")
                       else None)
  | Raise (RuntimeQueryError _) => Ok None
  | Raise e => Raise e
  end.

(** * The predicates, on a dataset without history *)
Definition _sql_str (s : pystr) : pystr := u "'" ++ double_quotes s ++ u "'".
Definition rstrip_Z (s : pystr) : pystr := rstrip_by (Z.eqb 90) s.
Definition ts_col (alias : pystr) : pystr := alias ++ u "." ++ [34] ++ u "timestamp" ++ [34].

Definition newer_sql (alias ts : pystr) : res pystr :=
  let* ts := _check_timestamp ts in
  Ok (ts_col alias ++ u " >= TIMESTAMP " ++ _sql_str (rstrip_Z ts)).
Definition changed_sql (alias since : pystr) (until : option pystr) : res pystr :=
  let* since := _check_timestamp since in
  match until with
  | None => Ok (ts_col alias ++ u " >= TIMESTAMP " ++ _sql_str (rstrip_Z since))
  | Some until =>
      let* until := _check_timestamp until in
      Ok (ts_col alias ++ u " BETWEEN TIMESTAMP " ++ _sql_str (rstrip_Z since) ++
          u " AND TIMESTAMP " ++ _sql_str (rstrip_Z until))
  end.
Definition user_sql (alias : pystr) (names : list pystr) : pystr :=
  alias ++ u "." ++ [34] ++ u "user" ++ [34] ++ u " IN (" ++ py_join (u ", ") (map _sql_str names) ++ u ")".
Definition uid_sql (alias : pystr) (uids : list Z) : pystr :=
  alias ++ u ".uid IN (" ++ py_join (u ", ") (map str_of_Z uids) ++ u ")".

(** As expressions. *)
Definition ts_expr (alias : pystr) : sqlx := XQuoted (alias ++ u ".") (u "timestamp").
Definition since_expr (alias since : pystr) : sqlx := XCmp CGe (ts_expr alias) (XTimestamp (rstrip_Z since)).
Definition between_expr (alias since until : pystr) : sqlx :=
  XBetween (ts_expr alias) (XTimestamp (rstrip_Z since)) (XTimestamp (rstrip_Z until)).
Definition user_expr (alias : pystr) (names : list pystr) : sqlx :=
  XIn (XQuoted (alias ++ u ".") (u "user")) (u ", ") (map XText names).
Definition uid_expr (alias : pystr) (uids : list Z) : sqlx :=
  XIn (XCol alias (u "uid")) (u ", ") (map id_literal uids).

(** The expression of a metadata filter; the check of its dates first. *)
Definition meta_expr (alias : pystr) (f : filter) : res (option sqlx) :=
  match f with
  | FNewer ts => let* ts := _check_timestamp ts in Ok (Some (since_expr alias ts))
  | FChanged since None => let* since := _check_timestamp since in Ok (Some (since_expr alias since))
  | FChanged since (Some until) =>
      let* since := _check_timestamp since in
      let* until := _check_timestamp until in Ok (Some (between_expr alias since until))
  | FUser names => Ok (Some (user_expr alias names))
  | FUid uids => Ok (Some (uid_expr alias uids))
  | _ => Ok None
  end.
Definition meta_sql (alias : pystr) (f : filter) : res (option pystr) :=
  match f with
  | FNewer ts => res_map Some (newer_sql alias ts)
  | FChanged since until => res_map Some (changed_sql alias since until)
  | FUser names => Ok (Some (user_sql alias names))
  | FUid uids => Ok (Some (uid_sql alias uids))
  | _ => Ok None
  end.
End Dates.
