(* ===== verification/History.v ===== *)
(** [history/schema.py] and the snapshot reads of [engine/attic.py]: the state of
    the elements at an instant, from the history files.  A Parquet file is the
    bag of its rows. *)
From S2P Require Import Prelude PyStr PyTime Json SqlText SqlExpr Sql Tiers DeltaRead Osc Cells Catalog CellSelect RowSources.

(** * Columns of the data files *)
(** The columns of the base, delta and history files that sets are built from;
    a column the table does not have is NULL, [f_promoted] are the columns of
    the promoted keys. *)
Record file_columns (G : Type) := {
  f_lat_e7 : option Z; f_lon_e7 : option Z;
  f_refs : option (list Z);
  f_members : option (list member);
  f_tags : option (list (pystr * pystr));
  f_promoted : list (pystr * option pystr);
  f_version : option Z; f_changeset : option Z; f_timestamp : option PyTime.datetime;
  f_uid : option Z; f_user : option pystr;
  f_box : option (Z * Z * Z * Z);
  f_geometry : option G;
  f_hilbert : option Z
}.
Arguments f_lat_e7 {G} _. Arguments f_lon_e7 {G} _. Arguments f_refs {G} _. Arguments f_members {G} _.
Arguments f_tags {G} _. Arguments f_promoted {G} _. Arguments f_version {G} _. Arguments f_changeset {G} _.
Arguments f_timestamp {G} _. Arguments f_uid {G} _. Arguments f_user {G} _. Arguments f_box {G} _.
Arguments f_geometry {G} _. Arguments f_hilbert {G} _.
Abbreviation file_row G := (base_row (file_columns G)).

(** * History rows *)
Record history_row (G : Type) := {
  h_row : file_row G;
  minor : Z;
  valid_from : PyTime.datetime;
  valid_to : option PyTime.datetime;
  visible : bool
}.
Arguments h_row {G} _. Arguments minor {G} _. Arguments valid_from {G} _. Arguments valid_to {G} _. Arguments visible {G} _.
#[export] Instance history_row_keyed {G} : Keyed (history_row G) := fun r => b_id (h_row r).

Definition HISTORY_EXTRA_COLUMNS : list (pystr * pystr) :=
  [(u "minor", u "INTEGER"); (u "valid_from", u "TIMESTAMP"); (u "valid_to", u "TIMESTAMP"); (u "visible", u "BOOLEAN")].
Definition HISTORY_EXTRA_NAMES : list pystr := map fst HISTORY_EXTRA_COLUMNS.
Definition TIERS : list pystr := [u "hour"; u "day"; u "week"].
Definition STATE_ORDER_SQL : pystr := u "valid_from DESC, visible DESC, version DESC, minor DESC".
Definition history_columns (base_columns : list pystr) : list pystr := base_columns ++ HISTORY_EXTRA_NAMES.

Definition validity_predicate_sql (t_sql : pystr) (with_valid_to : bool) : pystr :=
  if with_valid_to then u "valid_from <= " ++ t_sql ++ u " AND (valid_to IS NULL OR valid_to > " ++ t_sql ++ u ")"
  else u "valid_from <= " ++ t_sql.

Definition tier_dir (generation tier : pystr) (version : Z) : pystr :=
  u "history/" ++ generation ++ u "/tier/" ++ tier ++ u "/" ++ str_of_Z version.
Definition spatial_dir (generation typ cell : pystr) : pystr :=
  u "history/" ++ generation ++ u "/spatial/" ++ typ ++ u "/cell=" ++ cell.
Definition byid_dir (generation typ : pystr) : pystr := u "history/" ++ generation ++ u "/byid/" ++ typ.

Section State.
Context {G : Type}.
Abbreviation hrow := (history_row G).
Implicit Types r x y : history_row G.

(** [valid_from <= t AND (valid_to IS NULL OR valid_to > t)] *)
Definition validity_predicate (t : PyTime.datetime) (with_valid_to : bool) r : bool :=
  tcmp CLe (valid_from r) t &&
  (negb with_valid_to || match valid_to r with None => true | Some e => tcmp CGt e t end).

Definition h_version r : option Z := f_version (b_data (h_row r)).
(** [version DESC], NULL last. *)
Definition version_above (a b : option Z) : bool :=
  match a, b with Some x, Some y => y <? x | Some _, None => true | None, _ => false end.
(** [version ASC], NULL last. *)
Definition version_below (a b : option Z) : bool :=
  match a, b with Some x, Some y => x <? y | Some _, None => true | None, _ => false end.
(** [ORDER BY valid_from DESC, visible DESC, version DESC, minor DESC]: [x]
    comes strictly before [y]. *)
Definition state_before x y : bool :=
  if tcmp CGt (valid_from x) (valid_from y) then true
  else if tcmp CGt (valid_from y) (valid_from x) then false
  else if negb (Bool.eqb (visible x) (visible y)) then visible x
  else if version_above (h_version x) (h_version y) then true
  else if version_above (h_version y) (h_version x) then false
  else minor y <? minor x.

(** [state_at_sql]: the first row of every id; of equal rows, the one read
    first. *)
Definition first_state x (xs : list hrow) : hrow := fold_left (fun b y => if state_before y b then y else b) xs x.
Definition state_of (rows : list hrow) (i : Z) : option hrow :=
  match base.filter (fun r => id_of r = i) rows with
  | [] => None
  | x :: xs => Some (first_state x xs)
  end.
Definition state_at (rows : list hrow) : list hrow := omap (state_of rows) (remove_dups (ids rows)).

(** The visible states that satisfy a condition, as rows of the table. *)
Definition visible_rows (where_ : file_row G -> bool) (rows : list hrow) : list (file_row G) :=
  select where_ (map h_row (base.filter (fun r => visible r = true) (state_at rows))).
End State.

(** * Snapshot reads *)
Section Snapshot.
Context `{UnicodeDB} {G : Type}.
Context (m : Catalog.Manifest) (history_file : pystr -> list (history_row G)).
Implicit Types t : PyTime.datetime.

(** The rows of the spatial history files of some cells that may be the state
    at [t]: the base files, and the tier files, which are not by cell. *)
Definition spatial_history (table : pystr) (cells : list pystr) t : reads (list (history_row G)) :=
  let* base_files := history_spatial_files m table cells in
  let* tier_files := history_tier_spatial_files m table in
  Ok (base.filter (fun r => validity_predicate t true r = true) (flat_map history_file base_files) ++
      base.filter (fun r => cell_in cells (b_cell (h_row r)) && validity_predicate t false r = true)
        (flat_map history_file tier_files),
      Z.of_nat (length base_files) + Z.of_nat (length tier_files)).

Definition part_path (p : json) : res pystr :=
  let* v := getitem p (u "path") in res_map (path m) (as_str v).

Definition byid_history (table : pystr) (id_pred : Z -> bool) t : reads (list (history_row G)) :=
  let* parts := history_byid_parts m table in
  let* base_files := res_mapM part_path parts in
  let* tier_files := history_tier_byid_files m table in
  Ok (base.filter (fun r => id_pred (b_id (h_row r)) && validity_predicate t true r = true) (flat_map history_file base_files) ++
      base.filter (fun r => id_pred (b_id (h_row r)) && validity_predicate t false r = true) (flat_map history_file tier_files),
      Z.of_nat (length base_files) + Z.of_nat (length tier_files)).

Definition snapshot_current_rows (table : pystr) (cells : list pystr) (where_ : file_row G -> bool) t :
    reads (list (file_row G)) :=
  let! rows := spatial_history table cells t in reads_ret (visible_rows where_ rows).

Definition snapshot_byid_current_rows (table : pystr) (id_pred : Z -> bool) (tag_where : file_row G -> bool) t :
    reads (list (file_row G)) :=
  let! rows := byid_history table id_pred t in reads_ret (visible_rows tag_where rows).

(** [raw_state_row], [raw_state_rows]: the states whatever their visibility. *)
Definition raw_state_row (table : pystr) (element_id : Z) t : res (option (history_row G)) :=
  res_map (fun rows => head (state_at rows.1)) (byid_history table (Z.eqb element_id) t).
Definition raw_state_rows (table : pystr) (wanted : list Z) t : res (list (history_row G)) :=
  match wanted with
  | [] => Ok []
  | _ => res_map (fun rows => state_at rows.1) (byid_history table (fun i => mem i wanted) t)
  end.

(** The rows of [timeline_elements]: [WHERE minor = 0 ORDER BY valid_from ASC,
    version ASC]. *)
Definition timeline_le (x y : option Z * PyTime.datetime) : Prop :=
  tcmp CLt x.2 y.2 || negb (tcmp CLt y.2 x.2) && negb (version_below y.1 x.1) = true.
#[local] Instance timeline_le_dec x y : Decision (timeline_le x y).
Proof. unfold timeline_le. apply _. Defined.
Definition timeline_states (table : pystr) (element_id : Z) : res (list (option Z * PyTime.datetime)) :=
  let* there := has_history m in
  if negb there then Ok [] else
  let* parts := history_byid_parts m table in
  let* base_files := res_mapM part_path parts in
  let* tier_files := history_tier_byid_files m table in
  Ok (merge_sort timeline_le
        (map (fun r => (h_version r, valid_from r))
          (base.filter (fun r => (b_id (h_row r) =? element_id) && (minor r =? 0) = true)
            (flat_map history_file (base_files ++ tier_files))))).

(** [backward_relation_ids_snapshot] *)
Definition type_wanted (restrict : option (list pystr)) (c : pystr) : bool :=
  match restrict with
  | None | Some [] => str_in c [u "n"; u "w"; u "r"]
  | Some l => match dict_get c [(u "n", NODE); (u "w", WAY); (u "r", RELATION)] with
              | Some t => str_in t l | None => false end
  end.
Definition snapshot_member (source : list located) (restrict : option (list pystr)) (role : option pystr) (x : member) : bool :=
  type_wanted restrict (m_type x) &&
  match role with None => true | Some r => m_role x =s r end &&
  match dict_get (m_type x) [(u "n", NODE); (u "w", WAY); (u "r", RELATION)] with
  | Some t => existsb (fun s => (l_id s =? m_ref x) && (l_type s =s t)) source
  | None => false
  end.
Definition backward_relation_ids_snapshot (source : list located) (t : PyTime.datetime) (restrict : option (list pystr))
    (role : option pystr) : reads (option (list idrow)) :=
  let cells := sorted_set (flat_map ancestors_and_self (omap l_cell source)) in
  match cells with
  | [] => reads_ret None
  | _ =>
      let* base_files := history_spatial_files m RELATION cells in
      let* tier_files := history_tier_spatial_files m RELATION in
      match base_files ++ tier_files with
      | [] => reads_ret None
      | _ =>
          let! rows := spatial_history RELATION cells t in
          reads_ret (Some (remove_dups (flat_map (fun r =>
            map (fun _ => {| i_type := RELATION; i_id := b_id (h_row r); i_cell := b_cell (h_row r) |})
              (base.filter (fun x => snapshot_member source restrict role x = true) (default [] (f_members (b_data (h_row r))))))
            (base.filter (fun r => visible r = true) (state_at rows)))))
      end
  end.

(** [changed_ids_predicate]: the (type, id) of the rows of the bbox's cells that
    begin in the interval. *)
Definition changed_in (since until : PyTime.datetime) (r : history_row G) : bool :=
  tcmp CGt (valid_from r) since && tcmp CLe (valid_from r) until.
Definition changed_ids (bbox : option BBox) (since until : PyTime.datetime) : res (list (pystr * Z)) :=
  res_flat_map (fun table =>
    let* cells := history_cells_for_bbox m table bbox in
    let* base_files := history_spatial_files m table cells in
    let* tier_files := history_tier_spatial_files m table in
    Ok (map (fun r => (table, b_id (h_row r)))
          (base.filter (fun r => changed_in since until r = true) (flat_map history_file base_files) ++
           base.filter (fun r => cell_in cells (b_cell (h_row r)) && changed_in since until r = true)
             (flat_map history_file tier_files))))
    element_types.
End Snapshot.
