(* ===== verification/Recurse.v ===== *)
(** [engine/recurse.py]: the recursions [>], [<], [>>], [<<] and the hops of the
    recurse filters, over any row source.  A table is the list of its rows. *)
From S2P Require Import Prelude PyStr PyFloat PyTime Json QlAst SqlExpr Osc Schema Cells RowSources.

(** [restrict is None or t in restrict] *)
Definition allowed (restrict : option (list pystr)) (t : pystr) : bool :=
  match restrict with None => true | Some l => str_in t l end.

(** [_MEMBER_TYPE_NAME] *)
Definition _MEMBER_TYPE_NAME : list (pystr * pystr) := [(u "n", NODE); (u "w", WAY); (u "r", RELATION)].
Definition member_type_char : list (pystr * pystr) := [(NODE, u "n"); (WAY, u "w"); (RELATION, u "r")].
Definition member_type (c : pystr) : option pystr := dict_get c _MEMBER_TYPE_NAME.

Definition has_role (role : option pystr) (r : pystr) : bool :=
  match role with None => true | Some x => r =s x end.

Definition ids_of_type (t : pystr) (rows : list idrow) : list Z :=
  map i_id (base.filter (fun r => (i_type r =s t) = true) rows).
Definition located_of_type (t : pystr) (rows : list located) : list located :=
  base.filter (fun r => (l_type r =s t) = true) rows.

(** [sql_type_range]: [min(id)], [max(id)], [count( * )]. *)
Definition id_range (ids : list Z) : option Z * option Z :=
  match ids with [] => (None, None) | i :: l => (Some (min_of i l), Some (max_of i l)) end.

Section Recurse.
Context {G : Type}.
Abbreviation row := (set_row G).

(** * One hop forward *)
(** [SELECT 'node' AS type, unnest(refs) AS id FROM source WHERE type = 'way' AND refs IS NOT NULL] *)
Definition way_refs (r : row) : list (pystr * Z) :=
  if s_type r =s WAY then map (pair NODE) (default [] (s_refs r)) else [].
(** The members of a relation of the wanted types and role. *)
Definition relation_members (wanted : list pystr) (role : option pystr) (r : row) : list (pystr * Z) :=
  if s_type r =s RELATION then
    omap (fun m => if str_in (m_type m) wanted && has_role role (m_role m)
                   then (fun t => (t, m_ref m)) <$> member_type (m_type m) else None)
      (default [] (s_members r))
  else [].

Definition _forward_hop (source : list row) (want_way want_rel : bool) (role : option pystr)
    (rel_member_types : option (list pystr)) : option (list (pystr * Z)) :=
  let wanted := base.filter (fun c => allowed rel_member_types c = true) [u "n"; u "w"; u "r"] in
  let parts := (if want_way then [flat_map way_refs source] else []) ++
               (if want_rel then match wanted with [] => [] | _ => [flat_map (relation_members wanted role) source] end
                else []) in
  match parts with [] => None | _ => Some (concat parts) end.

Definition forward_new_ids_table (source : list row) (restrict : option (list pystr)) (role : option pystr)
    (rel_member_types : option (list pystr)) : option (list idrow) :=
  (fun hop => map (fun k => {| i_type := k.1; i_id := k.2; i_cell := None |}) (remove_dups hop)) <$>
  _forward_hop source (allowed restrict WAY) (allowed restrict RELATION) role rel_member_types.

(** * One hop backward *)
Context `{RowSources G}.
Implicit Types snap : option PyTime.datetime.

Definition e7_to_degrees (n : Z) : pyfloat := fdiv (float_of_Z n) (float_of_Z 10000000).

(** [bbox_from_points_e7] *)
Definition bbox_from_points_e7 (points : list located) : option BBox :=
  match omap l_lat points, omap l_lon points with
  | la :: las, lo :: los =>
      Some (e7_to_degrees (min_of la las), e7_to_degrees (min_of lo los),
            e7_to_degrees (max_of la las), e7_to_degrees (max_of lo los))
  | _, _ => None
  end.

Definition to_idrow (r : row) : idrow := {| i_type := s_type r; i_id := s_id r; i_cell := s_cell r |}.
Definition as_part {A} (o : option (list A)) : list (list A) := match o with Some l => [l] | None => [] end.

(** The parent ways of the nodes of the source; [parts] as the code collects them. *)
Definition parent_way_parts snap (source : list located) : reads (list (list idrow)) :=
  let nodes := located_of_type NODE source in
  match nodes with
  | [] => reads_ret []
  | _ =>
      let node_ids := remove_dups (map l_id nodes) in
      let! way_rows := (match bbox_from_points_e7 nodes with
                        | Some bbox => build_way_bbox_semijoin_select snap node_ids bbox
                        | None => reads_ret None
                        end) in
      match way_rows, snap with
      | Some rows, _ => reads_ret [map to_idrow rows]
      | None, Some _ => reads_ret []
      | None, None =>
          let (lo, hi) := id_range (map l_id nodes) in
          let! index := reads_lift (node_way_rows lo hi) in
          let from_index := match index with
            | Some rows => [flat_map (fun nw => match List.find (fun s => l_id s =? nw.1) nodes with
                                                | Some _ => [{| i_type := WAY; i_id := nw.2; i_cell := None |}]
                                                | None => []
                                                end) rows]
            | None => []
            end in
          let! delta := reads_lift (delta_way_ids_by_ref node_ids) in
          match delta with
          | Some rows => Ok (from_index ++ [rows], 1)
          | None => reads_ret from_index
          end
      end
  end.

Definition source_ids (t : pystr) (source : list located) : list Z := map l_id (located_of_type t source).

(** The parent relations found in the member index. *)
Definition member_index_part (source : list located) (restrict : option (list pystr)) (role : option pystr) :
    reads (list (list idrow)) :=
  let! index := reads_lift member_rows in
  match index with
  | None => reads_ret []
  | Some rows =>
      let wanted := base.filter (fun tc => allowed restrict tc.1 && negb (bool_decide (source_ids tc.1 source = [])) = true)
                      member_type_char in
      match wanted with
      | [] => reads_ret []
      | _ => reads_ret
          [flat_map (fun x =>
             match List.find (fun tc => x_type x =s tc.2) wanted with
             | Some tc => if has_role role (x_role x) then
                            map (fun _ => {| i_type := RELATION; i_id := x_parent x; i_cell := x_parent_cell x |})
                              (base.filter (fun i => (i =? x_id x) = true) (source_ids tc.1 source))
                          else []
             | None => []
             end) rows]
      end
  end.

(** The parent relations of the delta tiers, for one type of member. *)
Definition delta_member_part (source : list located) (restrict : option (list pystr)) (role : option pystr)
    (tc : pystr * pystr) : reads (list (list idrow)) :=
  if negb (allowed restrict tc.1) then reads_ret [] else
  match source_ids tc.1 source with
  | [] => reads_ret []
  | ids => let! delta := reads_lift (delta_relation_ids_by_member tc.2 ids role) in
           match delta with Some rows => Ok ([rows], 1) | None => reads_ret [] end
  end.

Fixpoint reads_concat {A B} (f : A -> reads (list B)) (l : list A) : reads (list B) :=
  match l with
  | [] => reads_ret []
  | x :: l => let! ys := f x in let! zs := reads_concat f l in reads_ret (ys ++ zs)
  end.

Definition backward_new_ids_table snap (source : list located) (restrict : option (list pystr)) (role : option pystr) :
    reads (option (list idrow)) :=
  let! ways := (if allowed restrict NODE then parent_way_parts snap source else reads_ret []) in
  let! parts := (match snap with
                 | Some t => let! rels := backward_relation_ids_snapshot t source restrict role in
                             reads_ret (ways ++ as_part rels)
                 | None => let! index := member_index_part source restrict role in
                           let! delta := reads_concat (delta_member_part source restrict role) member_type_char in
                           reads_ret (ways ++ index ++ delta)
                 end) in
  reads_ret (match parts with [] => None | _ => Some (remove_dups (concat parts)) end).

(** * Hydrating identifiers into rows *)
Definition hydrate_type snap (id_table : list idrow) (fs : list TagFilter) (only_types : option (list pystr)) (t : pystr) :
    reads (list (list row)) :=
  if negb (allowed only_types t) then reads_ret [] else
  match ids_of_type t id_table with
  | [] => reads_ret []
  | i :: ids =>
      if t =s NODE then
        let! rows := build_byid_select_from_ids_query snap t (i :: ids) (Some (min_of i ids)) (Some (max_of i ids)) fs in
        reads_ret [rows]
      else
        let id_cells := remove_dups (map (fun r => (i_id r, i_cell r))
                          (base.filter (fun r => (i_type r =s t) = true) id_table)) in
        let! rows := build_spatial_hydrate_via_cell_select snap t id_cells fs in
        reads_ret (as_part rows)
  end.

(** The identifier tables of the program all have the column [cell]. *)
Definition hydrate_ids_table snap (id_table : list idrow) (fs : list TagFilter) (only_types : option (list pystr)) :
    reads (option (list row)) :=
  let! selects := reads_concat (hydrate_type snap id_table fs only_types) element_types in
  reads_ret (match selects with [] => None | _ => Some (concat selects) end).

(** * [>] and [<] *)
Definition boxes_of (types : list pystr) (rows : list row) : list (option box) :=
  map s_box (base.filter (fun r => str_in (s_type r) types = true) rows).

(** [if n: ...]: rows are read only when there are ids. *)
Definition when_any (ids : list Z) (m : list Z -> reads (option (list row))) : reads (option (list row)) :=
  match ids with [] => reads_ret None | _ => m ids end.

Definition build_forward_one_hop snap (source : list row) : reads (list row) :=
  match forward_new_ids_table source None None (Some [u "n"; u "w"]) with
  | None => reads_ret []
  | Some hop =>
      let! way_rows := when_any (remove_dups (ids_of_type WAY hop))
                         (fun ids => build_way_hydrate_via_bbox_select snap ids (boxes_of [RELATION] source) []) in
      let way_node_ids := match way_rows with
        | Some rows => match forward_new_ids_table rows (Some [WAY]) None None with
                       | Some ids => ids_of_type NODE ids
                       | None => []
                       end
        | None => []
        end in
      let node_ids := remove_dups (ids_of_type NODE hop ++ way_node_ids) in
      let boxes := boxes_of [WAY] source ++ boxes_of [RELATION] source ++
                   match way_rows with Some rows => map s_box rows | None => [] end in
      let! node_rows := build_node_hydrate_via_bbox_select snap node_ids boxes [] in
      reads_ret (concat (as_part way_rows ++ as_part node_rows))
  end.

Definition build_backward_one_hop snap (source : list row) : reads (list row) :=
  let! hop := backward_new_ids_table snap (map of_row source) None None in
  match hop with
  | None => reads_ret []
  | Some hop =>
      let! extra := backward_new_ids_table snap (map of_idrow hop) (Some [WAY]) None in
      let hop := match extra with Some rels => remove_dups (hop ++ rels) | None => hop end in
      let! rows := hydrate_ids_table snap hop [] None in
      reads_ret (default [] rows)
  end.

(** * [>>] and [<<] *)
Inductive direction := Forward | Backward.

Definition hop_of snap (dir : direction) (frontier : list row) : reads (option (list idrow)) :=
  match dir with
  | Forward => reads_ret (forward_new_ids_table frontier None None None)
  | Backward => backward_new_ids_table snap (map of_row frontier) None None
  end.

Definition hop_selects snap (dir : direction) (frontier : list row) (new_frontier : list idrow) :
    reads (list (list row)) :=
  match dir with
  | Forward =>
      let boxes := boxes_of [WAY; RELATION] frontier in
      let! ways := when_any (remove_dups (ids_of_type WAY new_frontier))
                     (fun ids => build_way_hydrate_via_bbox_select snap ids boxes []) in
      let! nodes := when_any (remove_dups (ids_of_type NODE new_frontier))
                      (fun ids => build_node_hydrate_via_bbox_select snap ids boxes []) in
      let! rels := hydrate_ids_table snap new_frontier [] (Some [RELATION]) in
      reads_ret (as_part ways ++ as_part nodes ++ as_part rels)
  | Backward =>
      let! rows := hydrate_ids_table snap new_frontier [] None in
      reads_ret (as_part rows)
  end.

Definition seen_key (seen : list (pystr * Z)) (r : idrow) : bool := bool_decide (i_key r ∈ seen).

(** One pass of [while True]: [None] when the loop ends without new rows. *)
Definition recurse_hop snap (dir : direction) (seen : list (pystr * Z)) (frontier : list row) :
    reads (option (list (pystr * Z) * list row)) :=
  let! hop := hop_of snap dir frontier in
  match hop with
  | None => reads_ret None
  | Some hop =>
      let new_frontier := base.filter (fun r => seen_key seen r = false) hop in
      match new_frontier with
      | [] => reads_ret None
      | _ =>
          let! selects := hop_selects snap dir frontier new_frontier in
          match selects with
          | [] => reads_ret None
          | _ => reads_ret (Some (seen ++ map i_key new_frontier, concat selects))
          end
      end
  end.

(** [fuel] is the number of hops left before [hop > 10000] ends the loop. *)
Fixpoint recurse_loop snap (dir : direction) (fuel : nat) (seen : list (pystr * Z)) (frontier : list row) :
    reads (list (list row)) :=
  match fuel with
  | O => reads_ret []
  | S fuel =>
      let! r := recurse_hop snap dir seen frontier in
      match r with
      | None => reads_ret []
      | Some (seen, rows) => let! rest := recurse_loop snap dir fuel seen rows in reads_ret (rows :: rest)
      end
  end.

Definition max_hops : nat := Z.to_nat 10001.

Definition recurse_transitive snap (input : list row) (dir : direction) : reads (list row) :=
  let! discovered := recurse_loop snap dir max_hops (remove_dups (map s_key input)) input in
  reads_ret (concat discovered ++
             match dir with
             | Forward => base.filter (fun r => (s_type r =s RELATION) = true) input
             | Backward => []
             end).
End Recurse.
