(* ===== verification/Sources.v ===== *)
(** [engine/sources.py]: the rows of a dataset as the rows of a set, by box, by
    id, and by the hints the recursions have.  SQL conditions are functions of
    a row of the files; a condition that is NULL is not true. *)
From S2P Require Import Prelude PyStr PyFloat PyTime Json QlAst SqlText SqlExpr Osc Schema TagSql Sql Tiers DeltaRead Cells Catalog CellSelect EngineHilbert SetTables RowSources Recurse History.

(** [ST_Intersects(geometry, ST_MakeEnvelope(w, s, e, n))] *)
Class Spatial (G : Type) := intersects_envelope : G -> BBox -> bool.

(** A dataset: its manifest, the contents of its files by path, and those of its
    tiers. *)
Record dataset (G : Type) := {
  d_manifest : Catalog.Manifest;
  d_deltas : deltas (file_columns G) (file_columns G);
  spatial_file : pystr -> list (file_row G);
  byid_file : pystr -> list (file_row G);
  history_file : pystr -> list (history_row G);
  node_way_file : pystr -> list (Z * Z);
  member_file : pystr -> list member_row;
  rowgroup_file : pystr -> option (list rowgroup_row);
  promoted : list pystr;
  (** the tier files a read is the first to load (the manifest caches them) *)
  tier_loads : Z
}.
Arguments d_manifest {G} _. Arguments d_deltas {G} _. Arguments spatial_file {G} _ _. Arguments byid_file {G} _ _.
Arguments history_file {G} _ _. Arguments node_way_file {G} _ _. Arguments member_file {G} _ _.
Arguments rowgroup_file {G} _ _. Arguments promoted {G} _. Arguments tier_loads {G} _.

Definition table_of (t : pystr) : option etype :=
  if t =s NODE then Some TNode else if t =s WAY then Some TWay else if t =s RELATION then Some TRelation else None.

(** * Columns *)
Section View.
Context {G : Type}.
Implicit Types r : file_row G.

Definition ok_or_null {A} (m : res A) : option A := match m with Ok a => Some a | Raise _ => None end.
(** [opq_node_hilbert], [opq_bbox_hilbert]: NULL of a NULL. *)
Definition computed_hilbert (t : pystr) r : option Z :=
  let d := b_data r in
  if t =s NODE then match f_lon_e7 d, f_lat_e7 d with
                    | Some lon, Some lat => ok_or_null (vec_node_hilbert lon lat)
                    | _, _ => None
                    end
  else match f_box d with
       | Some (x0, y0, x1, y1) => ok_or_null (vec_bbox_hilbert x0 y0 x1 y1)
       | None => None
       end.

(** The [cols] of the spatial copy ([spatial = true]) and of the copy by id. *)
Definition to_row (t : pystr) (spatial : bool) r : set_row G :=
  let d := b_data r in
  let node := t =s NODE in let way := t =s WAY in
  {| s_type := t; s_id := b_id r; s_cell := b_cell r;
     s_lat_e7 := if node then f_lat_e7 d else None;
     s_lon_e7 := if node then f_lon_e7 d else None;
     s_refs := if way then f_refs d else None;
     s_members := if node || way then None else f_members d;
     s_tags := f_tags d; s_version := f_version d; s_changeset := f_changeset d;
     s_timestamp := f_timestamp d; s_uid := f_uid d; s_user := f_user d;
     s_box := if node then None else f_box d;
     s_geometry := if way && spatial then f_geometry d else None;
     s_hilbert := if spatial then f_hilbert d else computed_hilbert t r |}.

(** The columns a tag condition reads: the tags and the promoted keys. *)
Definition file_env r : @row_env G := fun prefix name =>
  if negb (prefix =s []) then None
  else if name =s u "tags" then Some (or_null VMap (f_tags (b_data r)))
  else or_null VText <$> dict_get name (f_promoted (b_data r)).
End View.

(** * Conditions *)
Definition to_e7 (deg : pyfloat) : res Z := round_of_float (fmul deg (float_of_Z 10000000)).

(** A box in e7 units, [(s, w, n, e)] as [(w, s, e, n)]. *)
Definition bbox_e7 (b : BBox) : res (Z * Z * Z * Z) :=
  let '(s, w, n, e) := b in
  let* se := to_e7 s in let* we := to_e7 w in let* ne := to_e7 n in let* ee := to_e7 e in
  Ok (we, se, ee, ne).

Definition point_in (q : Z * Z * Z * Z) (lat lon : option Z) : bool :=
  let '(we, se, ee, ne) := q in
  match lat, lon with
  | Some lat, Some lon => (se <=? lat) && (lat <=? ne) && (we <=? lon) && (lon <=? ee)
  | _, _ => false
  end.
(** [xmax_e7 >= we AND xmin_e7 <= ee AND ymax_e7 >= se AND ymin_e7 <= ne] *)
Definition box_in (q : Z * Z * Z * Z) (b : option (Z * Z * Z * Z)) : bool :=
  let '(we, se, ee, ne) := q in
  match b with
  | Some (x0, y0, x1, y1) => (we <=? x1) && (x0 <=? ee) && (se <=? y1) && (y0 <=? ne)
  | None => false
  end.

(** [if ids: where.append(id_predicate(...))] *)
Definition ids_where (ids : option (list Z)) (i : Z) : bool :=
  match ids with None | Some [] => true | Some l => mem i l end.

Section Sources.
Context `{UnicodeDB} {G : Type} `{DuckDB G} `{Spatial G}.
Context (d : dataset G).
Abbreviation row := (set_row G).
Implicit Types snap : option PyTime.datetime.

Definition man : Catalog.Manifest := d_manifest d.
Definition has_tiers : bool := match DeltaRead.delta_tiers (d_deltas d) with [] => false | _ => true end.

Definition tag_where (fs : list TagFilter) (r : file_row G) : bool :=
  where_true (file_env r) (tag_filters_expr (promoted d) [] fs).
(** A statement with the filters in its [WHERE], once it is built. *)
Definition checked {A} (fs : list TagFilter) (m : reads A) : reads A :=
  let* r := m in let* _ := bound (tag_filters_expr (promoted d) [] fs) in Ok r.

(** * Files *)
(** [entry.get(partition)], [part["path"]] for the cells that have the entry. *)
Definition _node_files (cells : list pystr) (partition : pystr) : res (list pystr) :=
  let* tc := table_cells man NODE in
  res_flat_map (fun c =>
    let* entry := get_default tc c (JObj []) in
    let* part := get_or_none entry partition in
    if truthy part then let* p := getitem part (u "path") in res_map (fun p => [path man p]) (as_str p) else Ok []) cells.
(** [_way_files], [_relation_files] *)
Definition flat_files (table : pystr) (cells : list pystr) : res (list pystr) :=
  let* tc := table_cells man table in
  res_flat_map (fun c =>
    let* there := contains tc c in
    if there then let* e := getitem tc c in let* p := getitem e (u "path") in res_map (fun p => [path man p]) (as_str p)
    else Ok []) cells.

Definition prune (table : pystr) (files : list pystr) (q : Z * Z * Z * Z) : res (list pystr) :=
  (prune_files_by_bbox (rowgroup_file d) man table files q [] None).1.1.

(** * current_rows, byid_current_rows *)
Definition no_stats : DeltaStats := {| delta_rows := 0; shadowed := 0 |}.

Definition current_rows snap (table : pystr) (cells files : list pystr) (where_ : file_row G -> bool) :
    reads (list (file_row G)) :=
  match snap with
  | Some t => snapshot_current_rows man (history_file d) table cells where_ t
  | None =>
      match table_of table with
      | None => reads_ret []
      | Some typ =>
          let base := flat_map (spatial_file d) files in
          Ok ((DeltaRead.current_rows (d_deltas d) typ cells base where_ no_stats).1,
              match spatial_delta_layer (d_deltas d) typ cells with None => 0 | Some _ => tier_loads d end)
      end
  end.

Definition byid_current_rows snap (table : pystr) (files : list pystr) (id_pred : Z -> bool)
    (where_ : file_row G -> bool) : reads (list (file_row G)) :=
  match snap with
  | Some t => snapshot_byid_current_rows man (history_file d) table id_pred where_ t
  | None =>
      let base := flat_map (byid_file d) files in
      match table_of table with
      | None => reads_ret (select where_ (select (fun r => id_pred (b_id r)) base))
      | Some typ => Ok ((DeltaRead.byid_current_rows (d_deltas d) typ base id_pred where_ no_stats).1,
                        if has_tiers then tier_loads d else 0)
      end
  end.

Definition files_count {A} (files : list pystr) (m : reads A) : reads A :=
  res_map (fun a => (a.1, Z.of_nat (length files) + a.2)) m.

(** * Scans of a box *)
(** The cells and base files of a box: [files] gives the files of cells. *)
Definition scan_files snap (table : pystr) (bbox : option BBox) (files : list pystr -> res (list pystr)) :
    res (list pystr * list pystr) :=
  match snap with
  | Some _ => res_map (fun cells => (cells, [])) (history_cells_for_bbox man table bbox)
  | None =>
      let* cells := cells_for_bbox man table bbox in
      let* fs := files cells in
      let* fs := (match bbox with
                  | Some b => let* q := bbox_e7 b in prune table fs q
                  | None => Ok fs
                  end) in
      Ok (cells, fs)
  end.

Definition node_files (untagged : bool) (cells : list pystr) : res (list pystr) :=
  let* tagged := _node_files cells (u "tagged") in
  if untagged then res_map (app tagged) (_node_files cells (u "untagged")) else Ok tagged.

Definition nothing_to_read snap (files : list pystr) : bool :=
  match snap, files with None, [] => negb has_tiers | _, _ => false end.

(** A scan: [geo] is the condition of the box. *)
Definition spatial_scan snap (table : pystr) (bbox : option BBox) (fs : list TagFilter) (ids : option (list Z))
    (files : list pystr -> res (list pystr)) (geo : BBox -> Z * Z * Z * Z -> file_row G -> bool) : reads (list row) :=
  let* cf := scan_files snap table bbox files in
  if nothing_to_read snap cf.2 then reads_ret [] else
  let* geo := (match bbox with
               | Some b => let* q := bbox_e7 b in Ok (geo b q)
               | None => Ok (fun _ => true)
               end) in
  let where_ r := geo r && ids_where ids (b_id r) && tag_where fs r in
  files_count cf.2 (let! rows := checked fs (current_rows snap table cf.1 cf.2 where_) in reads_ret (map (to_row table true) rows)).

Definition build_node_spatial_select snap (bbox : option BBox) (fs : list TagFilter) (ids : option (list Z)) : reads (list row) :=
  spatial_scan snap NODE bbox fs ids (node_files (is_negative_only fs))
    (fun _ q r => point_in q (f_lat_e7 (b_data r)) (f_lon_e7 (b_data r))).

Definition intersects (b : BBox) (g : option G) : bool :=
  match g with Some g => intersects_envelope g b | None => false end.

Definition build_way_spatial_select snap (bbox : option BBox) (fs : list TagFilter) (ids : option (list Z)) : reads (list row) :=
  spatial_scan snap WAY bbox fs ids (flat_files WAY)
    (fun b q r => box_in q (f_box (b_data r)) && intersects b (f_geometry (b_data r))).

(** ** Relations: the members decide *)
Definition members_of_type (c : pystr) (r : row) : list Z :=
  map m_ref (base.filter (fun x => (m_type x =s c) = true) (default [] (s_members r))).
Definition parts_paths (parts : list json) : res (list pystr) := res_mapM (part_path man) parts.
Definition byid_files (table : pystr) (ids : list Z) : res (list pystr) :=
  match ids with
  | [] => Ok []
  | i :: l => let* parts := byid_parts_for_range man table (Some (min_of i l)) (Some (max_of i l)) in parts_paths parts
  end.

Definition passing (cand : list row) (nodes ways : list Z) : list row :=
  let ok r := existsb (fun i => mem i nodes) (members_of_type (u "n") r) || existsb (fun i => mem i ways) (members_of_type (u "w") r) in
  let ids := map s_id (base.filter (fun r => ok r = true) cand) in
  base.filter (fun r => mem (s_id r) ids = true) cand.

Definition _relation_bbox_exact_filter snap (cand : list row) (bbox : BBox) : reads (list row) :=
  let* q := bbox_e7 bbox in
  let node_ids := remove_dups (flat_map (members_of_type (u "n")) cand) in
  let way_ids := remove_dups (flat_map (members_of_type (u "w")) cand) in
  let node_hit (r : file_row G) := point_in q (f_lat_e7 (b_data r)) (f_lon_e7 (b_data r)) in
  let way_hit (r : file_row G) := intersects bbox (f_geometry (b_data r)) in
  match snap with
  | Some _ =>
      let! nodes := (match node_ids with
                     | [] => reads_ret []
                     | _ => byid_current_rows snap NODE [] (fun i => mem i node_ids) (fun _ => true)
                     end) in
      let! ways := (match way_ids with
                    | [] => reads_ret []
                    | _ => byid_current_rows snap WAY [] (fun i => mem i way_ids) (fun _ => true)
                    end) in
      let placed := base.filter (fun r => is_Some (b_cell r)) ways in
      let! shapes := (match remove_dups (omap b_cell placed) with
                      | [] => reads_ret []
                      | cells => current_rows snap WAY cells [] (fun r => mem (b_id r) (map b_id placed))
                      end) in
      reads_ret (passing cand (map b_id (base.filter (fun r => node_hit r = true) nodes))
                   (map b_id (base.filter (fun r => way_hit r = true) shapes)))
  | None =>
      let* nf := byid_files NODE node_ids in
      let nodes := base.filter (fun r => mem (b_id r) node_ids && node_hit r = true) (flat_map (byid_file d) nf) in
      let* wf := byid_files WAY way_ids in
      let placed := base.filter (fun r => mem (b_id r) way_ids = true /\ is_Some (b_cell r)) (flat_map (byid_file d) wf) in
      let* sf := flat_files WAY (remove_dups (omap b_cell placed)) in
      let* sf := prune WAY sf q in
      let shapes := base.filter (fun r => existsb (fun p => (b_id p =? b_id r) && bool_decide (b_cell p = b_cell r)) placed &&
                                     way_hit r = true) (flat_map (spatial_file d) sf) in
      Ok (passing cand (map b_id nodes) (map b_id shapes), Z.of_nat (length nf) + Z.of_nat (length wf) + Z.of_nat (length sf))
  end.

Definition build_relation_spatial_select snap (bbox : option BBox) (fs : list TagFilter) (ids : option (list Z)) : reads (list row) :=
  let! cand := spatial_scan snap RELATION bbox fs ids (flat_files RELATION) (fun _ q r => box_in q (f_box (b_data r))) in
  match bbox with
  | Some b => _relation_bbox_exact_filter snap cand b
  | None => reads_ret cand
  end.

Definition SPATIAL_BUILDERS snap (table : pystr) (bbox : option BBox) (fs : list TagFilter) (ids : option (list Z)) :
    reads (list row) :=
  if table =s NODE then build_node_spatial_select snap bbox fs ids
  else if table =s WAY then build_way_spatial_select snap bbox fs ids
  else if table =s RELATION then build_relation_spatial_select snap bbox fs ids
  else Raise KeyError.

(** * By id *)
Definition byid_rows snap (table : pystr) (files : list pystr) (ids : list Z) (fs : list TagFilter) : reads (list row) :=
  let! rows := checked fs (byid_current_rows snap table files (fun i => mem i ids) (tag_where fs)) in
  reads_ret (map (to_row table false) rows).

Definition build_byid_select_from_ids_query snap (table : pystr) (ids : list Z) (lo hi : option Z) (fs : list TagFilter) :
    reads (list row) :=
  match snap with
  | Some _ => byid_rows snap table [] ids fs
  | None =>
      let* parts := byid_parts_for_range man table lo hi in
      let* files := parts_paths parts in
      if nothing_to_read snap files then reads_ret [] else byid_rows snap table files ids fs
  end.

Definition build_byid_select snap (table : pystr) (ids : list Z) (fs : list TagFilter) : reads (list row) :=
  match ids with
  | [] => reads_ret []
  | i :: l => build_byid_select_from_ids_query snap table (i :: l) (Some (min_of i l)) (Some (max_of i l)) fs
  end.

(** * Hydration by a box or a cell, and by id for the rest *)
(** [_union_bbox_e7] *)
Definition _union_bbox_e7 (boxes : list (option box)) : option BBox :=
  match omap (fun b => b) boxes with
  | [] => None
  | b :: bs =>
      let side f := map f bs in
      Some (e7_to_degrees (min_of b.1.1.2 (side (fun x => x.1.1.2))), e7_to_degrees (min_of b.1.1.1 (side (fun x => x.1.1.1))),
            e7_to_degrees (max_of b.2 (side (fun x => x.2))), e7_to_degrees (max_of b.1.2 (side (fun x => x.1.2))))
  end.

(** [cells and len(cells) <= 0.5 * total_leaves] *)
Definition few_cells (cells : list pystr) : res bool :=
  let* leaves := leaf_cells man in
  let total := match leaves with [] => 1 | _ => Z.of_nat (length leaves) end in
  Ok (match cells with [] => false | _ => 2 * Z.of_nat (length cells) <=? total end).

(** The rows not found are read by id. *)
Definition with_remainder snap (table : pystr) (ids : list Z) (fs : list TagFilter) (found : option (list row)) :
    reads (option (list row)) :=
  let rest := match found with
              | Some rows => base.filter (fun i => mem i (map s_id rows) = false) (remove_dups ids)
              | None => remove_dups ids
              end in
  let! more := (match rest with
                | [] => reads_ret None
                | i :: l => let! rows := build_byid_select_from_ids_query snap table (i :: l) (Some (min_of i l)) (Some (max_of i l)) fs in
                            reads_ret (Some rows)
                end) in
  reads_ret (match found, more with
             | None, None => None
             | _, _ => Some (default [] found ++ default [] more)
             end).

(** [build_node_hydrate_via_bbox_select], [build_way_hydrate_via_bbox_select]:
    under a snapshot too the cells are those of the current tables. *)
Definition hydrate_via_bbox snap (table : pystr) (ids : list Z) (boxes : list (option box)) (fs : list TagFilter)
    (files : list pystr -> res (list pystr)) (geo : Z * Z * Z * Z -> file_row G -> bool) : reads (option (list row)) :=
  match ids with
  | [] => reads_ret None
  | _ =>
      let! found := (match _union_bbox_e7 boxes with
        | None => reads_ret None
        | Some bbox =>
            let* cells := cells_for_bbox man table (Some bbox) in
            let* few := few_cells cells in
            if negb few then reads_ret None else
            let* fls := files cells in
            let* q := bbox_e7 bbox in
            let* fls := prune table fls q in
            if negb (bool_decide (fls <> []) || has_tiers) then reads_ret None else
            files_count fls
              (let! rows := checked fs (current_rows snap table cells fls
                              (fun r => geo q r && mem (b_id r) ids && tag_where fs r)) in
               reads_ret (Some (map (to_row table true) rows)))
        end) in
      with_remainder snap table ids fs found
  end.

Definition build_node_hydrate_via_bbox_select snap (ids : list Z) (boxes : list (option box)) (fs : list TagFilter) :
    reads (option (list row)) :=
  hydrate_via_bbox snap NODE ids boxes fs (node_files true) (fun _ _ => true).
Definition build_way_hydrate_via_bbox_select snap (ids : list Z) (boxes : list (option box)) (fs : list TagFilter) :
    reads (option (list row)) :=
  hydrate_via_bbox snap WAY ids boxes fs (flat_files WAY) (fun q r => box_in q (f_box (b_data r))).

Definition build_spatial_hydrate_via_cell_select snap (table : pystr) (id_cells : list (Z * option pystr)) (fs : list TagFilter) :
    reads (option (list row)) :=
  match id_cells with
  | [] => reads_ret None
  | _ =>
      let* tc := table_cells man table in
      let* needed := filterM (contains tc) (remove_dups (omap snd id_cells)) in
      let placed := map fst (base.filter (fun ic => is_Some ic.2) id_cells) in
      let! found := (match needed with
        | [] => reads_ret None
        | _ =>
            let* files := flat_files table needed in
            if negb (bool_decide (files <> []) || has_tiers) then reads_ret None else
            files_count files
              (let! rows := checked fs (current_rows snap table needed files (fun r => mem (b_id r) placed && tag_where fs r)) in
               reads_ret (Some (map (to_row table true) rows)))
        end) in
      let ids := map fst id_cells in
      let rest := match found with
                  | Some rows => map fst (base.filter (fun ic => ic.2 = None \/ mem ic.1 (map s_id rows) = false) id_cells)
                  | None => ids
                  end in
      let! more := (match remove_dups rest with
                    | [] => reads_ret None
                    | i :: l => let! rows := build_byid_select_from_ids_query snap table (i :: l) (Some (min_of i l)) (Some (max_of i l)) fs in
                                reads_ret (Some rows)
                    end) in
      reads_ret (match found, more with
                 | None, None => None
                 | _, _ => Some (default [] found ++ default [] more)
                 end)
  end.

(** * Parents *)
Definition build_way_bbox_semijoin_select snap (node_ids : list Z) (bbox : BBox) : reads (option (list row)) :=
  let* cells := (match snap with Some _ => history_cells_for_bbox man WAY (Some bbox) | None => cells_for_bbox man WAY (Some bbox) end) in
  let* few := few_cells cells in
  if negb few then reads_ret None else
  let* q := bbox_e7 bbox in
  let* files := (match snap with
                 | Some _ => Ok []
                 | None => let* fls := flat_files WAY cells in prune WAY fls q
                 end) in
  if nothing_to_read snap files then reads_ret (Some []) else
  files_count files
    (let! rows := current_rows snap WAY cells files (fun r => box_in q (f_box (b_data r)) && tag_where [] r) in
     let cand := map (to_row WAY true) rows in
     let matching := map s_id (base.filter (fun r => existsb (fun i => mem i node_ids) (default [] (s_refs r)) = true) cand) in
     reads_ret (Some (base.filter (fun r => mem (s_id r) matching = true) cand))).

Definition node_way_rows (lo hi : option Z) : res (option (list (Z * Z))) :=
  let* parts := index_parts_for_range man (u "node_way") lo hi in
  let* files := parts_paths parts in
  Ok (match files with [] => None | _ => Some (flat_map (node_way_file d) files) end).
Definition member_rows : res (option (list member_row)) :=
  let* parts := index_parts man (u "member") in
  let* files := parts_paths parts in
  Ok (match files with [] => None | _ => Some (flat_map (member_file d) files) end).

(** The newest row of every id of the tiers, deleted ones left out. *)
Definition alive_tier_rows (typ : etype) : list (file_row G) :=
  map project (base.filter (fun r => deleted r = false)
    (qualify (flat_map (fun t => map (pair t.1) (t_byid (files t.2 typ))) (DeltaRead.delta_tiers (d_deltas d))))).

Definition delta_way_ids_by_ref (node_ids : list Z) : option (list idrow) :=
  if has_tiers then
    Some (remove_dups (map (fun r => {| i_type := WAY; i_id := b_id r; i_cell := None |})
      (base.filter (fun r => existsb (fun i => mem i node_ids) (default [] (f_refs (b_data r))) = true) (alive_tier_rows TWay))))
  else None.
Definition delta_relation_ids_by_member (c : pystr) (ids : list Z) (role : option pystr) : option (list idrow) :=
  if has_tiers then
    Some (remove_dups (map (fun r => {| i_type := RELATION; i_id := b_id r; i_cell := b_cell r |})
      (base.filter (fun r => existsb (fun x => (m_type x =s c) && mem (m_ref x) ids && has_role role (m_role x))
                               (default [] (f_members (b_data r))) = true) (alive_tier_rows TRelation))))
  else None.
End Sources.

(** The dataset as a row source. *)
#[export] Instance dataset_sources `{UnicodeDB} {G : Type} `{DuckDB G} `{Spatial G} (d : dataset G) : RowSources G := {|
  RowSources.spatial_select := SPATIAL_BUILDERS d;
  RowSources.build_byid_select := build_byid_select d;
  RowSources.build_byid_select_from_ids_query := build_byid_select_from_ids_query d;
  RowSources.build_node_hydrate_via_bbox_select := build_node_hydrate_via_bbox_select d;
  RowSources.build_way_hydrate_via_bbox_select := build_way_hydrate_via_bbox_select d;
  RowSources.build_spatial_hydrate_via_cell_select := build_spatial_hydrate_via_cell_select d;
  RowSources.build_way_bbox_semijoin_select := build_way_bbox_semijoin_select d;
  RowSources.node_way_rows := node_way_rows d;
  RowSources.member_rows := member_rows d;
  RowSources.delta_way_ids_by_ref ids := Ok (delta_way_ids_by_ref d ids);
  RowSources.delta_relation_ids_by_member c ids role := Ok (delta_relation_ids_by_member d c ids role);
  RowSources.backward_relation_ids_snapshot t source restrict role :=
    backward_relation_ids_snapshot (d_manifest d) (history_file d) source t restrict role;
  RowSources.changed_ids := changed_ids (d_manifest d) (history_file d);
  RowSources.timeline_states := timeline_states (d_manifest d) (history_file d)
|}.

(** * Set-sourced queries *)
Section FromSet.
Context {G : Type} `{DuckDB G}.
Abbreviation row := (set_row G).

(** The condition of [build_from_set_select] on a row of the first set. *)
Definition set_box_where (bbox : option BBox) : res (row -> bool) :=
  match bbox with
  | None => Ok (fun _ => true)
  | Some b =>
      let* q := bbox_e7 b in
      Ok (fun r => (s_type r =s NODE) && point_in q (s_lat_e7 r) (s_lon_e7 r) ||
                   str_in (s_type r) [WAY; RELATION] && box_in q (s_box r))
  end.
Definition set_tag_where `{UnicodeDB} (base : pystr) (fs : list TagFilter) (r : row) : bool :=
  where_true (row_of base r) (tag_filters_expr [] (base ++ u ".") fs).

(** [INNER JOIN ... USING (type, id)]: the rows of the first set that are in the
    other sets, once for every way they are. *)
Definition join_sets (rows : list row) (others : list (list row)) : list row :=
  fold_left (fun acc other =>
    flat_map (fun r => map (fun _ => r) (base.filter (fun x => s_key x = s_key r) other)) acc) others rows.

(** [sets]: the names and rows of the input sets.  DuckDB refuses a table named
    twice in one [FROM]. *)
Definition build_from_set_select `{UnicodeDB} (sets : list (pystr * list row)) (types : list pystr) (fs : list TagFilter)
    (ids : option (list Z)) (bbox : option BBox) : res (list row) :=
  match sets with
  | [] => Raise IndexError
  | (name, first) :: others =>
      let* geo := set_box_where bbox in
      if bool_decide (NoDup (map (fun s => fold_name s.1) sets)) then
        let* _ := bound (tag_filters_expr [] (u "set_" ++ name ++ u ".") fs) in
        Ok (base.filter (fun r => str_in (s_type r) types && ids_where ids (s_id r) && geo r &&
                             set_tag_where (u "set_" ++ name) fs r = true)
              (join_sets first (map snd others)))
      else Raise DuckDBError
  end.
End FromSet.
