(* ===== verification/Planner.v ===== *)
(** [engine/planner.py] and the statement hooks of [engine/evalfilter.py]: the
    statements of a program over the tables [set_<name>] of a run.

    The state of a run is the [Context] together with the temporary tables of
    its connection and the context variable [catalog.SNAPSHOT].  Where rows are
    read is the class [RowSources]; how a set is rendered, and the statements
    and filters about geometry and areas, are the classes [Renderer] and
    [AreaHooks]. *)
From S2P Require Import Prelude PyStr PyFloat PyTime Json QlAst Evaluator SqlText SqlExpr Osc Schema TagSql Cells Catalog.
From S2P Require Import Sources EvalSql EvalSqlExpr EvalSet SetTables RowSources Recurse MetaFilters.

(** [render.build_elements]: the elements of a set, and with them their versions
    ([None] when the statement only counts). *)
Class Renderer (G : Type) := build_elements :
  option PyTime.datetime -> list (set_row G) -> Out -> bool -> res (list json * list ((pystr * Z) * option Z)).

(** [geofilters.py], [areas.py]: what a statement about areas puts into its
    output set, the box a filter implies and its test of the candidate rows;
    each with the files read and the warnings. *)
Class AreaHooks (G : Type) := {
  area_statement : option PyTime.datetime -> list (pystr * list (set_row G)) -> statement ->
    res (list (set_row G) * Z * list pystr);
  geo_bbox : option PyTime.datetime -> list (pystr * list (set_row G)) -> Query -> QlAst.filter -> res (option BBox);
  geo_predicate : option PyTime.datetime -> list (pystr * list (set_row G)) -> Query -> QlAst.filter -> list (set_row G) ->
    res ((set_row G -> bool) * Z * list pystr)
}.

(** * The state of a run *)
Record state (G : Type) := {
  sets : list (pystr * list (set_row G));
  elements : list json;
  files_read : Z;
  warnings : list pystr;
  diff_versions : list ((pystr * Z) * option Z);
  SNAPSHOT : option PyTime.datetime;
  counter : Z
}.
Arguments sets {G} _. Arguments elements {G} _. Arguments files_read {G} _. Arguments warnings {G} _.
Arguments diff_versions {G} _. Arguments SNAPSHOT {G} _. Arguments counter {G} _.

Section State.
Context {G : Type}.
Implicit Types s : state G.
Definition with_sets v s : state G := {| sets := v; elements := elements s; files_read := files_read s; warnings := warnings s;
  diff_versions := diff_versions s; SNAPSHOT := SNAPSHOT s; counter := counter s |}.
Definition with_elements v s : state G := {| sets := sets s; elements := v; files_read := files_read s; warnings := warnings s;
  diff_versions := diff_versions s; SNAPSHOT := SNAPSHOT s; counter := counter s |}.
Definition with_files_read v s : state G := {| sets := sets s; elements := elements s; files_read := v; warnings := warnings s;
  diff_versions := diff_versions s; SNAPSHOT := SNAPSHOT s; counter := counter s |}.
Definition with_warnings v s : state G := {| sets := sets s; elements := elements s; files_read := files_read s; warnings := v;
  diff_versions := diff_versions s; SNAPSHOT := SNAPSHOT s; counter := counter s |}.
Definition with_versions v s : state G := {| sets := sets s; elements := elements s; files_read := files_read s; warnings := warnings s;
  diff_versions := v; SNAPSHOT := SNAPSHOT s; counter := counter s |}.
Definition with_snapshot v s : state G := {| sets := sets s; elements := elements s; files_read := files_read s; warnings := warnings s;
  diff_versions := diff_versions s; SNAPSHOT := v; counter := counter s |}.
Definition with_counter v s : state G := {| sets := sets s; elements := elements s; files_read := files_read s; warnings := warnings s;
  diff_versions := diff_versions s; SNAPSHOT := SNAPSHOT s; counter := v |}.

(** ** A statement transforms the state, and keeps what it did when it raises. *)
Definition M (A : Type) : Type := state G -> res A * state G.
Definition ret {A} (a : A) : M A := fun s => (Ok a, s).
Definition bind {A B} (m : M A) (k : A -> M B) : M B := fun s =>
  match m s with (Ok a, s) => k a s | (Raise e, s) => (Raise e, s) end.
Definition lift {A} (m : res A) : M A := fun s => (m, s).
Definition get {A} (f : state G -> A) : M A := fun s => (Ok (f s), s).
Definition modify (f : state G -> state G) : M () := fun s => (Ok (), f s).
(** [try: m finally: f] *)
Definition finally (m : M ()) (f : state G -> state G) : M () := fun s => let (r, s) := m s in (r, f s).
(** [for x in l: f(x)] *)
Definition each {A} (f : A -> M ()) : list A -> M () :=
  fix go l := match l with [] => ret () | x :: l => bind (f x) (fun _ => go l) end.
(** [[f(x) for x in l]] *)
Definition collect {A B} (f : A -> M B) : list A -> M (list B) :=
  fix go l := match l with
              | [] => ret []
              | x :: l => bind (f x) (fun y => bind (go l) (fun ys => ret (y :: ys)))
              end.
End State.
Arguments M _ _ : clear implicits.
Notation "'do!' x ':=' m 'in' k" := (bind m (fun x => k))
  (at level 10, x pattern, m at level 100, k at level 200) : osm_scope.

(** * Filters of a query *)
Definition is_core (f : QlAst.filter) : bool :=
  match f with FTag _ | FBbox _ _ _ _ | FId _ | FRecurse _ _ _ => true | _ => false end.
(** [type(f) in hooks.FILTER_HOOKS], every hook module being loaded. *)
Definition hooked (f : QlAst.filter) : bool := negb (is_core f).

Fixpoint _bbox_for (fs : list QlAst.filter) (global_bbox : option BBox) : option BBox :=
  match fs with
  | [] => global_bbox
  | FBbox s w n e :: _ => Some (s, w, n, e)
  | _ :: fs => _bbox_for fs global_bbox
  end.
Fixpoint _ids_for (fs : list QlAst.filter) : option (list Z) :=
  match fs with [] => None | FId ids :: _ => Some ids | _ :: fs => _ids_for fs end.
Definition _tag_filters_for (fs : list QlAst.filter) : list TagFilter :=
  omap (fun f => match f with FTag t => Some t | _ => None end) fs.
Definition _recurse_filters_for (fs : list QlAst.filter) : list (recurse_filter_kind * pystr * option pystr) :=
  omap (fun f => match f with FRecurse k n r => Some (k, n, r) | _ => None end) fs.

(** [_output_set_name] *)
Definition statement_name (s : statement) : pystr :=
  match s with
  | SQuery _ => u "Query" | SUnion _ _ => u "Union" | SDifference _ _ _ => u "Difference" | SRecurse _ _ _ => u "Recurse"
  | SItem _ _ => u "Item" | SIsIn _ _ _ => u "IsIn" | SMapToArea _ _ => u "MapToArea" | SOut _ => u "Out"
  | SForeach _ _ _ => u "Foreach" | SIf _ _ _ => u "If" | SRetro _ _ => u "Retro" | STimeline _ _ _ _ => u "Timeline"
  | SUnsupported _ _ => u "Unsupported"
  end.
Definition output_set (s : statement) : option pystr :=
  match s with
  | SQuery q => Some (q_output_set q)
  | SUnion _ o | SDifference _ _ o | SRecurse _ _ o | SItem _ o | SIsIn _ o _ | SMapToArea _ o | SForeach _ o _
  | STimeline _ _ _ o => Some o
  | SOut _ | SIf _ _ _ | SRetro _ _ | SUnsupported _ _ => None
  end.
Definition _output_set_name (s : statement) : res pystr :=
  match output_set s with
  | Some n => Ok n
  | None => Raise (UnsupportedError (statement_name s ++ u " cannot appear inside a union/difference block"))
  end.

(** [_program_uses_areas] *)
Definition filter_uses_areas (f : QlAst.filter) : bool := match f with FArea _ _ | FPivot _ => true | _ => false end.
Fixpoint uses_areas (s : statement) : bool :=
  let any := fix any l := match l with [] => false | s :: l => uses_areas s || any l end in
  match s with
  | SIsIn _ _ _ | SMapToArea _ _ => true
  | SQuery q => str_in (u "area") (q_types q) || existsb filter_uses_areas (q_filters q)
  | SUnion l _ | SForeach _ _ l | SRetro _ l => any l
  | SIf _ a b => any a || any b
  | SDifference a b _ => uses_areas a || uses_areas b
  | _ => false
  end.
Definition _program_uses_areas (l : list statement) : bool := existsb uses_areas l.

(** [check_settings] *)
Definition check_settings `{UnicodeDB} (m : Catalog.Manifest) (st : Settings) : res () :=
  let* h := has_history m in
  let without {A} (o : option A) := match o with Some _ => negb h | None => false end in
  if without (date st) then Raise (UnsupportedError (u "[date:] (attic) is not supported: this dataset has no history"))
  else if without (diff st) then Raise (UnsupportedError (u "[diff:] is not supported: this dataset has no history"))
  else if without (adiff st) then Raise (UnsupportedError (u "[adiff:] is not supported: this dataset has no history"))
  else Ok ().

Section Planner.
Context `{UnicodeDB} {G : Type} `{DuckDB G} `{RowChoice G} `{RowSources G} `{Renderer G} `{AreaHooks G}.
Context (m : Catalog.Manifest) (global_bbox : option BBox) (areas_used diff_mode : bool).
Abbreviation row := (set_row G).
Abbreviation MM A := (M G A).

(** ** Small steps *)
Definition add_files (n : Z) : MM () := modify (fun s => with_files_read (files_read s + n) s).
Definition read_rows {A} (r : reads A) : MM A :=
  do! a := lift r in do! _ := add_files a.2 in ret a.1.
Definition warn (w : pystr) : MM () := modify (fun s => with_warnings (warnings s ++ [w]) s).
(** The hooks of geometry and areas. *)
Definition run_hook {A} (r : res (A * Z * list pystr)) : MM A :=
  do! a := lift r in
  do! _ := add_files a.1.2 in
  do! _ := modify (fun s => with_warnings (warnings s ++ a.2) s) in
  ret a.1.1.
Definition materialize_set (name : pystr) (rows : list row) : MM () :=
  modify (fun s => with_sets (materialize name rows (sets s)) s).
Definition copy_set (name : pystr) (rows : list row) : MM () :=
  modify (fun s => with_sets (create_or_replace name rows (sets s)) s).
Definition require_set (name : pystr) : MM () := do! t := get sets in lift (_require_set t name).
Definition read_set (name : pystr) : MM (list row) := do! t := get sets in lift (from_set name t).
Definition fresh_name (prefix : pystr) : MM pystr :=
  do! n := get counter in
  do! _ := modify (with_counter (n + 1)) in
  ret (u "__" ++ prefix ++ u "_" ++ str_of_Z n).

(** * Queries *)
Definition implied_bbox (q : Query) (f : QlAst.filter) : MM (option BBox) :=
  match f with
  | FAround _ _ _ | FPoly _ | FArea _ _ | FPivot _ =>
      do! snap := get SNAPSHOT in do! t := get sets in lift (geo_bbox snap t q f)
  | _ => ret None
  end.
Fixpoint effective_bbox (q : Query) (fs : list QlAst.filter) (bbox : option BBox) : MM (option BBox) :=
  match fs with
  | [] => ret bbox
  | f :: fs => if hooked f then do! b := implied_bbox q f in effective_bbox q fs (intersect_bbox bbox b)
               else effective_bbox q fs bbox
  end.
Definition _effective_bbox (q : Query) : MM (option BBox) :=
  effective_bbox q (q_filters q) (_bbox_for (q_filters q) global_bbox).

(** A hook's condition on the candidates; [None] is an error of the query. *)
Definition expr_predicate (x : sqlx) (r : row) : option bool := is_true <$> eval (row_of (u "__q") r) [] x.
Definition if_predicate (e : expr) : MM (row -> option bool) :=
  do! _ := lift (compile_predicate e (u "__q")) in
  match compile_expr e (u "__q") with
  | Some x => ret (expr_predicate (truthy_expr x))
  | None => lift (Raise DuckDBError)
  end.
(** [changed_ids_predicate] *)
Definition changed_predicate (q : Query) (since until : PyTime.datetime) : MM (row -> option bool) :=
  do! changed := lift (changed_ids (_bbox_for (q_filters q) global_bbox) since until) in
  ret (fun r => Some (existsb (same_key (s_key r)) changed)).
Definition meta_predicate (q : Query) (f : QlAst.filter) : MM (row -> option bool) :=
  do! history := lift (has_history m) in
  match f, history with
  | FNewer ts, true =>
      do! _ := lift (_check_timestamp ts) in
      do! since := lift (parse_date ts) in changed_predicate q since FAR_FUTURE
  | FChanged since until, true =>
      do! _ := lift (_check_timestamp since) in
      do! since := lift (parse_date since) in
      do! until := lift (resolve_optional_date until) in changed_predicate q since until
  | _, _ =>
      do! x := lift (meta_expr (u "__q") f) in
      ret (match x with Some x => expr_predicate x | None => fun _ => Some true end)
  end.
Definition predicate (q : Query) (candidates : list row) (f : QlAst.filter) : MM (row -> option bool) :=
  match f with
  | FIf e => do! e := lift (Evaluator.parse e) in if_predicate e
  | FNewer _ | FChanged _ _ | FUser _ | FUid _ => meta_predicate q f
  | _ =>
      do! snap := get SNAPSHOT in
      do! t := get sets in
      do! p := run_hook (geo_predicate snap t q f candidates) in
      ret (fun r => Some (p r))
  end.
(** [SELECT * FROM base __q WHERE (p1) AND (p2) ...] *)
Definition where_all (preds : list (row -> option bool)) (rows : list row) : res (list row) :=
  res_map (omap (fun x => x))
    (res_mapM (fun r => match mapM (fun p => p r) preds with
                        | Some bs => Ok (if forallb (fun b => b) bs then Some r else None)
                        | None => Raise DuckDBError
                        end) rows).

Definition _check_unsupported_filters (q : Query) : res () :=
  if forallb (fun f => is_core f || hooked f) (q_filters q) then Ok ()
  else Raise (UnsupportedError (u "filter is not supported")).

(** [_recurse_filter_ids_table]; [None] when the hop gives no table. *)
Definition _recurse_filter_ids_table (kind : recurse_filter_kind) (name : pystr) (role : option pystr) : MM (option (list idrow)) :=
  do! _ := require_set name in
  do! source := read_set name in
  do! snap := get SNAPSHOT in
  let back t := read_rows (backward_new_ids_table snap (map of_row source) (Some [t]) role) in
  match kind with
  | RK_w => ret (forward_new_ids_table source (Some [WAY]) None None)
  | RK_r => ret (forward_new_ids_table source (Some [RELATION]) role None)
  | RK_bn => back NODE
  | RK_bw => back WAY
  | RK_br => back RELATION
  end.

(** The rows of a recurse filter. *)
Definition recurse_filter_rows (q : Query) (kind : recurse_filter_kind) (name : pystr) (role : option pystr) : MM (list row) :=
  do! ids := _recurse_filter_ids_table kind name role in
  do! snap := get SNAPSHOT in
  let fs := _tag_filters_for (q_filters q) in
  let types := q_types q in
  match ids with
  | None => ret []
  | Some ids =>
      do! source := read_set name in
      match kind with
      | RK_w =>
          if str_in NODE types then
            do! rows := read_rows (build_node_hydrate_via_bbox_select snap (map i_id ids) (boxes_of [WAY] source) fs) in
            ret (default [] rows)
          else do! rows := read_rows (hydrate_ids_table snap ids fs (Some types)) in ret (default [] rows)
      | RK_r =>
          if str_in WAY types then
            do! ways := read_rows (build_way_hydrate_via_bbox_select snap (remove_dups (ids_of_type WAY ids))
                                     (boxes_of [RELATION] source) fs) in
            do! others := (match base.filter (fun t => (t =s WAY) = false) types with
                           | [] => ret None
                           | other_types => read_rows (hydrate_ids_table snap ids fs (Some other_types))
                           end) in
            ret (default [] ways ++ default [] others)
          else do! rows := read_rows (hydrate_ids_table snap ids fs (Some types)) in ret (default [] rows)
      | _ => do! rows := read_rows (hydrate_ids_table snap ids fs (Some types)) in ret (default [] rows)
      end
  end.

Definition read_input (name : pystr) : MM (pystr * list row) := do! rows := read_set name in ret (name, rows).

(** [ids and bbox is None]: a list of ids that is there and not empty. *)
Definition some_ids (ids : option (list Z)) : option (list Z) := match ids with Some [] => None | _ => ids end.

(** [str] of a list of element types. *)
Definition types_text (types : list pystr) : pystr :=
  u "[" ++ py_join (u ", ") (map (fun t => u "'" ++ t ++ u "'") types) ++ u "]".
Definition no_bounds_warning (types : list pystr) : pystr :=
  u "query on " ++ types_text types ++ u " has no bbox and no ids; scanning all cells for an extract-sized answer".

(** The rows a query selects from, before its hooks. *)
Definition query_rows (q : Query) (bbox : option BBox) : MM (list row) :=
  let ids := _ids_for (q_filters q) in
  let fs := _tag_filters_for (q_filters q) in
  match _recurse_filters_for (q_filters q), q_input_sets q with
  | (kind, name, role) :: _, _ => recurse_filter_rows q kind name role
  | [], _ :: _ =>
      do! _ := each require_set (q_input_sets q) in
      do! inputs := collect read_input (q_input_sets q) in
      lift (build_from_set_select inputs (q_types q) fs ids bbox)
  | [], [] =>
      do! _ := (match bbox, some_ids ids with None, None => warn (no_bounds_warning (q_types q)) | _, _ => ret () end) in
      do! snap := get SNAPSHOT in
      do! parts := collect (fun t => match some_ids ids, bbox with
                                     | Some l, None => read_rows (build_byid_select snap t l fs)
                                     | _, _ => read_rows (spatial_select snap t bbox fs ids)
                                     end) (q_types q) in
      ret (concat parts)
  end.

Definition area_rows (st : statement) : MM (list row) :=
  do! snap := get SNAPSHOT in do! t := get sets in run_hook (area_statement snap t st).

Definition execute_query (q : Query) : MM () :=
  if str_in (u "area") (q_types q) then
    do! rows := area_rows (SQuery q) in materialize_set (q_output_set q) rows
  else
  do! _ := lift (_check_unsupported_filters q) in
  do! bbox := _effective_bbox q in
  if is_empty_bbox bbox then materialize_set (q_output_set q) []
  else
  do! base := query_rows q bbox in
  do! rows := (match base.filter (fun f => hooked f = true) (q_filters q) with
               | [] => ret base
               | hooks => do! preds := collect (predicate q base) hooks in lift (where_all preds base)
               end) in
  materialize_set (q_output_set q) rows.

(** * The other statements *)
Definition execute_recurse (kind : recurse_kind) (input output : pystr) : MM () :=
  do! _ := require_set input in
  do! source := read_set input in
  do! snap := get SNAPSHOT in
  do! rows := read_rows (match kind with
                         | RDown => build_forward_one_hop snap source
                         | RUp => build_backward_one_hop snap source
                         | RDownDown => recurse_transitive snap source Forward
                         | RUpUp => recurse_transitive snap source Backward
                         end) in
  materialize_set output rows.

Definition execute_item (input output : pystr) : MM () :=
  do! _ := require_set input in
  do! rows := read_set input in
  materialize_set output rows.

Definition set_versions (vs : list ((pystr * Z) * option Z)) (s : state G) : state G :=
  with_versions (fold_left (fun acc kv => kv :: base.filter (fun x => same_key x.1 kv.1 = false) acc) vs (diff_versions s)) s.

Definition effective_out (o : Out) : Out :=
  if diff_mode && o_count o
  then mkOut (o_input_set o) VIds (o_geometry o) (o_geom_bbox o) (o_order o) (o_limit o) (o_noids o) false
  else o.
Definition execute_out (o : Out) : MM () :=
  do! _ := require_set (o_input_set o) in
  do! rows := read_set (o_input_set o) in
  do! snap := get SNAPSHOT in
  do! out := lift (build_elements snap rows (effective_out o) areas_used) in
  do! _ := modify (fun s => with_elements (elements s ++ out.1) s) in
  if diff_mode then modify (set_versions out.2) else ret ().

(** ** retro *)
(** [snapshot_sets]: the tables [set_...], copied. *)
Definition restore_sets (saved : list (pystr * list row)) (now : list (pystr * list row)) : list (pystr * list row) :=
  let emptied := fold_left (fun t n => if table_exists n saved then t else create_or_replace n [] t) (map fst now) now in
  fold_left (fun t x => create_or_replace x.1 x.2 t) saved emptied.

(** [evaluate_retro_time] *)
Definition quoted (s : pystr) : option pystr :=
  match s, rev s with
  | a :: _ :: _, b :: _ => if (a =? b) && ((a =? 39) || (a =? 34)) then Some (slice s 1 (length s - 1)) else None
  | _, _ => None
  end.
Definition evaluate_retro_time (time_expr : pystr) : MM PyTime.datetime :=
  do! value := (match quoted (py_strip time_expr) with
                | Some v => ret v
                | None => do! e := lift (Evaluator.parse time_expr) in
                          do! t := get sets in lift (evaluate_set t (u "_") e)
                end) in
  lift (parse_date value).

(** [remark and remark not in ctx.warnings] *)
Definition warn_once (w : option pystr) : MM () :=
  match w with
  | Some w => modify (fun s => if str_in w (warnings s) then s else with_warnings (warnings s ++ [w]) s)
  | None => ret ()
  end.
Definition require_history (what : pystr) : MM () :=
  do! h := lift (has_history m) in
  if h then ret () else lift (Raise (UnsupportedError (what ++ u " is not supported: this dataset has no history"))).

(** The body with [SNAPSHOT = t]; the sets and [SNAPSHOT] are restored. *)
Definition retro_body (t : PyTime.datetime) (body : MM ()) : MM () :=
  do! saved := get sets in
  do! before := get SNAPSHOT in
  do! _ := modify (with_snapshot (Some t)) in
  finally body (fun s => with_sets (restore_sets saved (sets s)) (with_snapshot before s)).
Definition execute_retro (body : MM ()) (time_expr : pystr) : MM () :=
  do! _ := require_history (u "retro(...)") in
  do! t := evaluate_retro_time time_expr in
  do! remark := lift (history_remark m t) in
  do! _ := warn_once remark in
  retro_body t body.

(** ** timeline *)
Definition format_timestamp (t : PyTime.datetime) : pystr :=
  let two n := zero_pad 2 (str_of_Z n) in
  str_of_Z (PyTime.year t) ++ u "-" ++ two (PyTime.month t) ++ u "-" ++ two (PyTime.day t) ++ u "T" ++
  two (PyTime.hour_ t) ++ u ":" ++ two (PyTime.minute t) ++ u ":" ++ two (PyTime.second t) ++ u "Z".
Definition opt_str (v : option Z) : pystr := match v with Some n => str_of_Z n | None => u "None" end.

Definition timeline_tags (ty : pystr) (i : Z) (ver : option Z) (created : PyTime.datetime) (expired : option PyTime.datetime) :
    list (pystr * pystr) :=
  [(u "reftype", ty); (u "ref", str_of_Z i); (u "refversion", opt_str ver); (u "created", format_timestamp created)] ++
  match expired with Some e => [(u "expired", format_timestamp e)] | None => [] end.
(** The entries of [timeline_elements], of the version asked for. *)
Fixpoint timeline_entries (ty : pystr) (i : Z) (version : option Z) (states : list (option Z * PyTime.datetime)) :
    list (list (pystr * pystr)) :=
  match states with
  | [] => []
  | (ver, ts) :: rest =>
      let later := timeline_entries ty i version rest in
      match version with
      | Some v => if bool_decide (ver = Some v) then timeline_tags ty i ver ts (snd <$> head rest) :: later else later
      | None => timeline_tags ty i ver ts (snd <$> head rest) :: later
      end
  end.
Definition timeline_row (k : nat) (tags : list (pystr * pystr)) : row :=
  {| s_type := u "timeline"; s_id := Z.of_nat k + 1; s_cell := None; s_lat_e7 := None; s_lon_e7 := None; s_refs := None;
     s_members := None; s_tags := Some tags; s_version := None; s_changeset := None; s_timestamp := None; s_uid := None;
     s_user := None; s_box := None; s_geometry := None; s_hilbert := None |}.
Definition execute_timeline (ty : pystr) (i : Z) (version : option Z) (output : pystr) : MM () :=
  do! _ := require_history (u "timeline(...)") in
  do! states := lift (timeline_states ty i) in
  materialize_set output (imap timeline_row (timeline_entries ty i version states)).

(** ** union, difference, foreach *)
(** [_execute_and_capture]; [run] executes the statement. *)
Definition _execute_and_capture (run : statement -> MM ()) (st : statement) : MM pystr :=
  do! _ := run st in
  do! produced := lift (_output_set_name st) in
  do! snapshot := fresh_name (u "part") in
  do! rows := read_set produced in
  do! _ := copy_set snapshot rows in
  ret snapshot.

Definition execute_union (run : statement -> MM ()) (body : list statement) (output : pystr) : MM () :=
  do! parts := collect (_execute_and_capture run) body in
  match parts with
  | [] => materialize_set output []
  | _ => do! t := get sets in
         do! rows := lift (union_select parts t) in
         materialize_set output rows
  end.
Definition execute_difference (run : statement -> MM ()) (first second : statement) (output : pystr) : MM () :=
  do! a := _execute_and_capture run first in
  do! b := _execute_and_capture run second in
  do! t := get sets in
  do! rows := lift (difference_select a b t) in
  materialize_set output rows.

(** [ORDER BY type, id] *)
Definition row_le (a b : row) : Prop :=
  negb (s_type a =s s_type b) && str_leb (s_type a) (s_type b) || (s_type a =s s_type b) && (s_id a <=? s_id b) = true.
#[local] Instance row_le_dec a b : Decision (row_le a b).
Proof. unfold row_le. apply _. Defined.
Definition _run_foreach (body : MM ()) (input output : pystr) : MM () :=
  do! _ := require_set input in
  do! snapshot := fresh_name (u "foreach") in
  do! rows := read_set input in
  let ordered := merge_sort row_le rows in
  do! _ := copy_set snapshot ordered in
  each (fun r =>
    do! kept := read_set snapshot in
    do! _ := materialize_set output (base.filter (fun x => s_key x = s_key r) kept) in
    body) ordered.

Definition _run_if (then_ otherwise : MM ()) (condition : pystr) : MM () :=
  do! e := lift (Evaluator.parse condition) in
  do! t := get sets in
  do! value := lift (evaluate_set t (u "_") e) in
  if EvalSet.truthy value then then_ else otherwise.

(** ** [execute_statement] *)
Fixpoint execute_statement (st : statement) : MM () :=
  match st with
  | SQuery q => execute_query q
  | SUnion body output => execute_union execute_statement body output
  | SDifference first second output => execute_difference execute_statement first second output
  | SRecurse kind input output => execute_recurse kind input output
  | SItem input output => execute_item input output
  | SOut o => execute_out o
  | SRetro time_expr body => execute_retro (each execute_statement body) time_expr
  | STimeline ty i version output => execute_timeline ty i version output
  | SUnsupported keyword _ => lift (Raise (UnsupportedError (keyword ++ u " is not supported in M0")))
  | SIsIn _ output _ | SMapToArea _ output => do! rows := area_rows st in materialize_set output rows
  | SForeach input output body => _run_foreach (each execute_statement body) input output
  | SIf condition then_ otherwise => _run_if (each execute_statement then_) (each execute_statement otherwise) condition
  end.
End Planner.

(** * A program *)
Section Program.
Context `{UnicodeDB} {G : Type} `{DuckDB G} `{RowChoice G} `{RowSources G} `{Renderer G} `{AreaHooks G}.
Context (m : Catalog.Manifest).

Definition empty_state (snap : option PyTime.datetime) (n : Z) : state G :=
  {| sets := []; elements := []; files_read := 0; warnings := []; diff_versions := []; SNAPSHOT := snap; counter := n |}.

Definition promoted_of : res (list pystr) := let* l := promoted_keys m in res_mapM Catalog.as_str l.

(** [run_program_body] on a fresh cursor; [snap] is the caller's [SNAPSHOT]. *)
Definition run_program_body (p : Program) (diff_mode : bool) : M G () :=
  let st := settings p in
  let body := each (execute_statement m (set_bbox st) (_program_uses_areas (statements p)) diff_mode) (statements p) in
  do! _ := lift (res_map (fun _ => ()) promoted_of) in
  do! _ := modify (fun s => with_sets (ensure_empty_set (u "_") (sets s)) s) in
  do! before := get SNAPSHOT in
  match date st, before with
  | Some d, None =>
      do! t := lift (parse_date d) in
      do! remark := lift (history_remark m t) in
      do! _ := (match remark with Some w => warn w | None => ret () end) in
      do! _ := modify (with_snapshot (Some t)) in
      finally body (with_snapshot None)
  | _, _ => body
  end.

Definition run_program (p : Program) : M G () :=
  do! _ := lift (check_settings m (settings p)) in run_program_body p false.
End Program.
