(* ===== verification/RecurseFacts.v ===== *)
(** Theorems on the recursions: [>] and [>>] return exactly the elements below
    the input, [<] and [<<] all those above it; the loop ends.

    Theorems on [<] and [<<] over the current tables: every element above the
    input is found; an element found that is not above it is one the base
    indexes still list. *)
From S2P Require Import Prelude PyStr QlAst Json Osc Cells PyTime SqlExpr Schema PyFloat EvalSet SetTables EvalSetFacts RowSources.
From S2P Require Import Recurse.

Lemma reads_rows_bind {A B} (m : reads A) (k : A -> reads B) (P : A -> Prop) (Q : B -> Prop) :
  reads_rows m P -> (forall a, P a -> reads_rows (k a) Q) -> reads_rows (reads_bind m k) Q.
Proof. intros Hm Hk. unfold reads_rows in *. by eapply reads_total. Qed.
Lemma reads_rows_ret {A} (a : A) (P : A -> Prop) : P a -> reads_rows (reads_ret a) P.
Proof. intros. by exists a, 0. Qed.
Lemma reads_rows_lift {A} (m : res A) a : m = Ok a -> reads_rows (reads_lift m) (eq a).
Proof. intros ->. by exists a, 0. Qed.
Lemma reads_rows_weaken {A} (m : reads A) (P Q : A -> Prop) : reads_rows m P -> (forall a, P a -> Q a) -> reads_rows m Q.
Proof. intros (a & n & E & Ha) HPQ. exists a, n. auto. Qed.

Section Exact.
Context {G : Type} (db : database G).
Abbreviation row := (set_row G).
Abbreviation key := (pystr * Z)%type.

Definition find_row (k : key) : option row := db k.1 k.2.

(** The rows are those of the existing elements [P] holds of. *)
Definition exact_keys (P : key -> row -> Prop) (rows : list row) : Prop :=
  (forall r, r ∈ rows -> exists d, find_row (s_key r) = Some d /\ same_element d r /\ P (s_key r) d) /\
  (forall k d, find_row k = Some d -> P k d -> exists r, r ∈ rows /\ same_element d r).

(** The rows are those of the elements as they are; rows of other types (areas,
    time lines) may be among them. *)
Definition current_rows_of (rows : list row) : Prop :=
  forall r, r ∈ rows -> (exists d, find_row (s_key r) = Some d /\ same_element d r) \/
    (s_type r ∉ element_types /\ find_row (s_key r) = None).

Lemma exact_keys_ext P Q rows : (forall k d, find_row k = Some d -> P k d <-> Q k d) ->
  exact_keys P rows -> exact_keys Q rows.
Proof.
  intros Hpq [H1 H2]. split.
  - intros r Hr. destruct (H1 r Hr) as (d & Hd & Hs & HP). exists d. split_and!; [done|done|]. by apply Hpq.
  - intros k d Hd HQ. apply (H2 k d Hd). by apply Hpq.
Qed.
Lemma exact_keys_nil P : (forall k d, ~ P k d) -> exact_keys P [].
Proof. intros HP. split; [by intros r Hr%elem_of_nil|]. intros k d _ Hk. by destruct (HP k d). Qed.
Lemma exact_keys_app P Q a b : exact_keys P a -> exact_keys Q b -> exact_keys (fun k d => P k d \/ Q k d) (a ++ b).
Proof.
  intros [A1 A2] [B1 B2]. split.
  - intros r [Hr|Hr]%elem_of_app; [destruct (A1 r Hr) as (d & ? & ? & ?)|destruct (B1 r Hr) as (d & ? & ? & ?)]; eauto 6.
  - intros k d Hd [HP|HQ]; [destruct (A2 k d Hd HP) as (r & ? & ?)|destruct (B2 k d Hd HQ) as (r & ? & ?)];
      exists r; rewrite elem_of_app; auto.
Qed.

Lemma exact_to_keys t wanted rows : well_typed db -> exact db t wanted rows ->
  exact_keys (fun k d => k.1 = t /\ wanted k.2 d) rows.
Proof.
  intros Ht [H1 H2]. split.
  - intros r Hr. destruct (H1 r Hr) as (d & Hd & Hs & Hw). exists d. destruct (Ht _ _ _ Hd) as [Et _].
    assert (s_type r = t) as Er by by rewrite <- Hs. unfold find_row, s_key. cbn [fst snd]. rewrite Er. auto.
  - intros [t' i] d Hd [Et Hw]. cbn [fst snd] in *. subst t'. by apply (H2 i d).
Qed.
End Exact.

Section Hydrate.
Context {G : Type} `{RowSources G} `{Compiles G} (keeps : list TagFilter -> set_row G -> bool) (snap : option PyTime.datetime) (db : database G).
Context `{!RowSourcesLaws G keeps snap db}.
Abbreviation row := (set_row G).

Lemma elem_of_ids_of_type t (l : list idrow) i : i ∈ ids_of_type t l <-> (t, i) ∈ map i_key l.
Proof.
  unfold ids_of_type. rewrite !elem_of_map. setoid_rewrite list_elem_of_filter. setoid_rewrite str_eqb_eq. split.
  - intros (r & -> & <- & Hr). by exists r.
  - intros (r & Hk & Hr). injection Hk as -> ->. exists r. auto.
Qed.

Lemma elem_of_element_types t : t ∈ element_types <-> t = NODE \/ t = WAY \/ t = RELATION.
Proof. unfold element_types. rewrite !elem_of_cons, elem_of_nil. tauto. Qed.

Lemma boxes_sane types (source : list row) : current_rows_of db source -> (forall t, t ∈ types -> t ∈ element_types) ->
  Forall sane_box (boxes_of types source).
Proof.
  intros Hcur Hty. apply Forall_map, Forall_forall. intros r [Ht%str_in_spec Hr]%list_elem_of_filter.
  destruct (Hcur r Hr) as [(d & Hd & Hs)|[Hne _]]; [|by destruct Hne; apply Hty].
  rewrite <- Hs. by apply (db_boxes (snap := snap) (db := db) (keeps := keeps)) in Hd.
Qed.
Lemma exact_boxes_sane P rows : exact_keys db P rows -> Forall sane_box (map s_box rows).
Proof.
  intros [H1 _]. apply Forall_map, Forall_forall. intros r Hr. destruct (H1 r Hr) as (d & Hd & Hs & _).
  rewrite <- Hs. by apply (db_boxes (snap := snap) (db := db) (keeps := keeps)) in Hd.
Qed.

Definition wanted_key (fs : list TagFilter) (only : option (list pystr)) (l : list idrow) (k : pystr * Z) (d : row) : Prop :=
  k ∈ map i_key l /\ allowed only k.1 = true /\ keeps fs d = true.

Lemma hydrate_type_exact l fs only t : compiles G fs = true -> t ∈ element_types ->
  reads_rows (hydrate_type snap l fs only t) (fun parts =>
    exact_keys db (fun k d => k.1 = t /\ wanted_key fs only l k d) (concat parts) /\
    (parts = [] -> allowed only t = true -> ids_of_type t l = [])).
Proof.
  intros Hfs Ht. unfold hydrate_type. destruct (allowed only t) eqn:Ea; cbn [negb].
  2: { apply reads_rows_ret. split; [|done]. apply exact_keys_nil. intros k d (Et & _ & Hk & _). congruence. }
  destruct (ids_of_type t l) as [|i ids] eqn:Ei.
  { apply reads_rows_ret. split; [|done]. apply exact_keys_nil. intros [t' j] d (Et & Hk & _).
    cbn [fst] in Et. subst t'. apply elem_of_ids_of_type in Hk. rewrite Ei in Hk. by inversion Hk. }
  assert (Hwanted : forall rows, exact db t (fun j d => j ∈ i :: ids /\ keeps fs d = true) rows ->
            exact_keys db (fun k d => k.1 = t /\ wanted_key fs only l k d) rows).
  { intros rows He. eapply exact_keys_ext; [|by apply exact_to_keys; [apply (db_typed (snap := snap))|exact He]].
    intros [t' j] d _. unfold wanted_key. cbn [fst snd]. rewrite <- Ei.
    split; [intros (-> & Hj & ?)|intros (-> & Hj & _ & ?)]; (split_and!; [done|..|done]); try done; by apply elem_of_ids_of_type. }
  destruct (t =s NODE) eqn:En.
  - eapply reads_rows_bind; [by apply (byid_query_law (keeps := keeps) (db := db) t i ids fs)|].
    intros rows Hrows. apply reads_rows_ret. split; [|done]. cbn [concat]. rewrite app_nil_r. auto.
  - apply str_eqb_neq in En. apply elem_of_element_types in Ht.
    eapply reads_rows_bind; [apply (cell_law (keeps := keeps) (db := db) t); [naive_solver|done]|].
    set (id_cells := remove_dups _).
    assert (Hids : forall j, j ∈ map fst id_cells <-> j ∈ i :: ids).
    { intros j. rewrite <- Ei. unfold id_cells, ids_of_type. rewrite !elem_of_map. setoid_rewrite elem_of_remove_dups. split.
      - intros (x & -> & (r & -> & Hr)%elem_of_map). by exists r.
      - intros (r & -> & Hr). exists (i_id r, i_cell r). split; [done|]. by apply (elem_of_map_2 (fun r => (i_id r, i_cell r))). }
    intros [rows|] Hrows; apply reads_rows_ret; cbn [as_part concat].
    + split; [|done]. rewrite app_nil_r. apply Hwanted. destruct Hrows as [_ [H1 H2]]. split.
      * intros r Hr. destruct (H1 r Hr) as (d & ? & ? & [? ?]). exists d. by rewrite <- Hids.
      * intros j d Hd [Hj Hk]. apply (H2 j d Hd). by rewrite Hids.
    + exfalso. specialize (Hids i). rewrite Hrows in Hids. assert (i ∈ i :: ids) as Hi by left. apply Hids in Hi. by inversion Hi.
Qed.

Lemma hydrate_types_exact l fs only ts : compiles G fs = true -> (forall t, t ∈ ts -> t ∈ element_types) ->
  reads_rows (reads_concat (hydrate_type snap l fs only) ts) (fun parts =>
    exact_keys db (fun k d => k.1 ∈ ts /\ wanted_key fs only l k d) (concat parts) /\
    (parts = [] -> forall t, t ∈ ts -> allowed only t = true -> ids_of_type t l = [])).
Proof.
  intros Hfs. induction ts as [|t ts IH]; intros Hts; cbn [reads_concat].
  { apply reads_rows_ret. split; [|by intros _ t Ht%elem_of_nil]. apply exact_keys_nil. intros k d [Hk _]. by inversion Hk. }
  eapply reads_rows_bind; [apply hydrate_type_exact; [done|apply Hts; left]|]. intros a [Ha Hae].
  eapply reads_rows_bind; [apply IH; intros t' Ht'; apply Hts; by right|]. intros b [Hb Hbe].
  apply reads_rows_ret. split.
  - rewrite concat_app. eapply exact_keys_ext; [|by apply exact_keys_app; [exact Ha|exact Hb]].
    intros k d _. cbn beta. rewrite elem_of_cons. tauto.
  - intros [-> ->]%app_nil t' [->|Ht']%elem_of_cons; auto.
Qed.

Lemma hydrate_ids_table_exact l fs only : compiles G fs = true -> (forall k, k ∈ map i_key l -> k.1 ∈ element_types) ->
  reads_rows (hydrate_ids_table snap l fs only) (fun o =>
    exact_keys db (wanted_key fs only l) (default [] o) /\
    (o = None -> forall k, k ∈ map i_key l -> allowed only k.1 = false)).
Proof.
  intros Hfs Hl. unfold hydrate_ids_table. eapply reads_rows_bind; [by apply hydrate_types_exact|].
  intros parts [Hp He]. apply reads_rows_ret. split.
  - eapply exact_keys_ext; [|destruct parts; exact Hp]. intros k d _. cbn beta. split; [tauto|]. intros Hw. split; [|done].
    apply Hl, Hw.
  - destruct parts; [|done]. intros _ [t i] Hk. cbn [fst]. destruct (allowed only t) eqn:Ea; [|done].
    exfalso. pose proof (Hl _ Hk) as Ht. apply elem_of_ids_of_type in Hk. rewrite (He eq_refl t Ht Ea) in Hk. by inversion Hk.
Qed.

(** Rows of one type, read by their ids when there are any. *)
Lemma when_any_exact t l (m : list Z -> reads (option (list row))) :
  (forall ids, reads_rows (m ids) (fun o =>
     match o with
     | Some rows => ids <> [] /\ exact db t (fun j d => j ∈ ids /\ keeps [] d = true) rows
     | None => ids = []
     end)) ->
  reads_rows (when_any (remove_dups (ids_of_type t l)) m) (fun o =>
    exact_keys db (fun k _ => k.1 = t /\ k ∈ map i_key l) (default [] o) /\
    (o = None -> forall k, k ∈ map i_key l -> k.1 <> t)).
Proof.
  intros Hm. assert (Hmem : forall i, i ∈ remove_dups (ids_of_type t l) <-> (t, i) ∈ map i_key l).
  { intros i. rewrite elem_of_remove_dups. apply elem_of_ids_of_type. }
  destruct (remove_dups (ids_of_type t l)) as [|i ids]; cbn [when_any].
  - apply reads_rows_ret. assert (Hno : forall k, k ∈ map i_key l -> k.1 <> t).
    { intros [t' j] Hk Et. cbn [fst] in Et. subst t'. apply Hmem in Hk. by inversion Hk. }
    split; [|done]. apply exact_keys_nil. intros k d [Et Hk]. by apply (Hno k).
  - eapply reads_rows_weaken; [apply (Hm (i :: ids))|]. intros [rows|] Hrows; [|done].
    destruct Hrows as [_ Hrows]. split; [|done]. cbn [default].
    eapply exact_keys_ext; [|by apply exact_to_keys; [apply (db_typed (snap := snap))|exact Hrows]].
    intros [t' j] d _. cbn [fst snd]. split; [intros (-> & Hj & _)|intros [-> Hj]]; (split; [done|]).
    + by apply Hmem.
    + split; [by apply Hmem|apply (keeps_all (snap := snap) (db := db))].
Qed.
End Hydrate.

Lemma concat_as_part {A} (o : option (list A)) : concat (as_part o) = default [] o.
Proof. destruct o; [apply app_nil_r|done]. Qed.

(** * Forward hops *)
Section Forward.
Context {G : Type}.
Abbreviation row := (set_row G).
Abbreviation key := (pystr * Z)%type.

(** An element refers to the nodes of its [refs] and to its members. *)
Definition refers (r : row) (k : key) : Prop :=
  (s_type r = WAY /\ k.1 = NODE /\ exists refs, s_refs r = Some refs /\ k.2 ∈ refs) \/
  (s_type r = RELATION /\ exists ms m, s_members r = Some ms /\ m ∈ ms /\ member_type (m_type m) = Some k.1 /\ m_ref m = k.2).

#[export] Instance refers_proper : Proper (same_element ==> eq ==> iff) refers.
Proof. intros a b Hab k _ <-. unfold refers. by rewrite (s_type_proper _ _ Hab), (s_refs_proper _ _ Hab), (s_members_proper _ _ Hab). Qed.

Lemma member_type_inv c t : member_type c = Some t -> (c = u "n" /\ t = NODE) \/ (c = u "w" /\ t = WAY) \/ (c = u "r" /\ t = RELATION).
Proof.
  unfold member_type, _MEMBER_TYPE_NAME. cbn [dict_get].
  repeat match goal with
  | |- context [if ?x =s c then _ else _] => destruct (x =s c) eqn:?
  | |- context [if c =s ?x then _ else _] => destruct (c =s x) eqn:?
  end; try done; intros [= <-]; repeat match goal with E : (_ =s _) = true |- _ => apply str_eqb_eq in E; subst end; auto.
Qed.

Lemma elem_of_way_refs (r : row) k : k ∈ way_refs r <->
  s_type r = WAY /\ k.1 = NODE /\ exists refs, s_refs r = Some refs /\ k.2 ∈ refs.
Proof.
  unfold way_refs. destruct (s_type r =s WAY) eqn:E.
  - apply str_eqb_eq in E. rewrite elem_of_map. split.
    + intros (i & -> & Hi). destruct (s_refs r) as [refs|] eqn:Er; [|by inversion Hi]. cbn [fst snd]. eauto.
    + intros (_ & Hk & refs & -> & Hi). exists k.2. split; [|done]. destruct k. cbn [fst] in Hk. by subst.
  - apply str_eqb_neq in E. split; [by intros Hk%elem_of_nil|naive_solver].
Qed.
Lemma elem_of_relation_members wanted role (r : row) k : k ∈ relation_members wanted role r <->
  s_type r = RELATION /\ exists ms m, s_members r = Some ms /\ m ∈ ms /\ m_type m ∈ wanted /\
    has_role role (m_role m) = true /\ member_type (m_type m) = Some k.1 /\ m_ref m = k.2.
Proof.
  unfold relation_members. destruct (s_type r =s RELATION) eqn:E.
  - apply str_eqb_eq in E. rewrite list_elem_of_omap. split.
    + intros (m & Hm & Hk). split; [done|]. destruct (s_members r) as [ms|]; [|by inversion Hm].
      exists ms, m. destruct (str_in (m_type m) wanted && _) eqn:Eb; [|done]. apply andb_prop in Eb as [H1 H2].
      apply str_in_spec in H1. destruct (member_type (m_type m)) as [t|]; [|done]. cbn in Hk. injection Hk as <-. by split_and!.
    + destruct k as [t i]. intros (_ & ms & m & -> & Hm & Hw & Hr & Ht & Ei). cbn [fst snd] in *. subst i.
      exists m. split; [done|]. apply str_in_spec in Hw. by rewrite Hw, Hr, Ht.
  - apply str_eqb_neq in E. split; [by intros Hk%elem_of_nil|naive_solver].
Qed.

Definition hop_keys (o : option (list idrow)) : list key := map i_key (default [] o).

Lemma forward_hop_keys (source : list row) restrict role types :
  forall k, k ∈ hop_keys (forward_new_ids_table source restrict role types) <->
    exists r, r ∈ source /\
      (allowed restrict WAY = true /\ k ∈ way_refs r \/
       allowed restrict RELATION = true /\
       k ∈ relation_members (base.filter (fun c => allowed types c = true) [u "n"; u "w"; u "r"]) role r).
Proof.
  intros k. unfold hop_keys, forward_new_ids_table, _forward_hop. set (wanted := base.filter _ _). clearbody wanted.
  set (parts := _ ++ _).
  assert (Hparts : forall k, k ∈ concat parts <-> exists r, r ∈ source /\
     (allowed restrict WAY = true /\ k ∈ way_refs r \/ allowed restrict RELATION = true /\ k ∈ relation_members wanted role r)).
  { clear k. intros k. unfold parts. rewrite concat_app, elem_of_app.
    assert (Hway : k ∈ concat (if allowed restrict WAY then [flat_map way_refs source] else []) <->
      exists r, r ∈ source /\ allowed restrict WAY = true /\ k ∈ way_refs r).
    { destruct (allowed restrict WAY); cbn [concat].
      - rewrite app_nil_r, list_elem_of_In, in_flat_map. setoid_rewrite list_elem_of_In. naive_solver.
      - split; [by intros Hk%elem_of_nil|naive_solver]. }
    assert (Hrel : k ∈ concat (if allowed restrict RELATION then
        match wanted with [] => [] | _ => [flat_map (relation_members wanted role) source] end else []) <->
      exists r, r ∈ source /\ allowed restrict RELATION = true /\ k ∈ relation_members wanted role r).
    { destruct (allowed restrict RELATION); [|split; [by intros Hk%elem_of_nil|naive_solver]].
      destruct wanted as [|w ws].
      - cbn [concat]. split; [by intros Hk%elem_of_nil|]. intros (r & _ & _ & Hk).
        apply elem_of_relation_members in Hk as (_ & ms & m & _ & _ & Hm & _). by inversion Hm.
      - cbn [concat]. rewrite app_nil_r, list_elem_of_In, in_flat_map. setoid_rewrite list_elem_of_In. naive_solver. }
    rewrite Hway, Hrel. naive_solver. }
  destruct parts as [|p ps] eqn:Ep.
  { rewrite <- Hparts. cbn. done. }
  rewrite <- Hparts. cbn [fmap option_fmap option_map default]. rewrite elem_of_map. split.
  - intros (x & -> & (k0 & -> & Hk0)%elem_of_map). rewrite elem_of_remove_dups in Hk0. destruct k0. exact Hk0.
  - intros Hk. exists {| i_type := k.1; i_id := k.2; i_cell := None |}. split; [by destruct k|].
    apply elem_of_map. exists k. split; [done|]. by apply elem_of_remove_dups.
Qed.

Lemma forward_all_keys (source : list row) k :
  k ∈ hop_keys (forward_new_ids_table source None None None) <-> exists r, r ∈ source /\ refers r k.
Proof.
  rewrite forward_hop_keys. apply exist_proper; intros r. apply and_iff_compat_l.
  rewrite elem_of_way_refs, elem_of_relation_members. unfold refers. apply or_iff_compat_l || idtac.
  cbn [allowed has_role]. split.
  - intros [[_ ?]|(_ & ? & ms & m & ? & ? & _ & _ & ? & ?)]; [by left|right]. split; [done|]. by exists ms, m.
  - intros [?|(? & ms & m & ? & ? & Ht & ?)]; [by left|right]. split_and!; [done|done|]. exists ms, m.
    split_and!; try done. change (m_type m ∈ [u "n"; u "w"; u "r"]).
    apply member_type_inv in Ht as [[-> _]|[[-> _]|[-> _]]]; rewrite !elem_of_cons; auto.
Qed.

Lemma refers_type (r : row) k : refers r k -> k.1 ∈ element_types.
Proof.
  rewrite elem_of_element_types. intros [(_ & -> & _)|(_ & ms & m & _ & _ & Ht & _)]; [by left|].
  apply member_type_inv in Ht as [[_ ->]|[[_ ->]|[_ ->]]]; auto.
Qed.
End Forward.

(** * The loop

    A hop finds at least the keys [tight] relates to the frontier, and at most
    those [loose] does (they are the same forward). *)
Section Loop.
Context {G : Type} `{RowSources G} `{Compiles G} (keeps : list TagFilter -> set_row G -> bool) (snap : option PyTime.datetime) (db : database G).
Context `{!RowSourcesLaws G keeps snap db}.
Abbreviation row := (set_row G).
Abbreviation key := (pystr * Z)%type.
Context (dir : direction) (tight loose : row -> key -> Prop).
Context (tight_proper : Proper (same_element ==> eq ==> iff) tight) (loose_proper : Proper (same_element ==> eq ==> iff) loose).

(** [n] hops from a row, through elements that exist. *)
Inductive path (step : row -> key -> Prop) : nat -> row -> key -> Prop :=
  | path_one r k : step r k -> path step 1 r k
  | path_step n r j d k : step r j -> find_row db j = Some d -> path step n d k -> path step (S n) r k.

Lemma path_proper step n r r' k : Proper (same_element ==> eq ==> iff) step ->
  same_element r r' -> path step n r k -> path step n r' k.
Proof. intros Hp Hr Hpath. destruct Hpath as [r k Hs|n r j d k Hs Hd Hk]; econstructor; eauto; by eapply Hp; [symmetry; exact Hr|..]. Qed.


Definition hop_law : Prop := forall frontier, current_rows_of db frontier ->
  reads_rows (hop_of snap dir frontier) (fun o =>
    (forall r k, r ∈ frontier -> tight r k -> k ∈ hop_keys o) /\
    (forall k, k ∈ hop_keys o -> k.1 ∈ element_types /\ exists r, r ∈ frontier /\ loose r k)).
Context (Hhop : hop_law).

(** Everything new is hydrated. *)
Lemma hop_selects_exact frontier l : current_rows_of db frontier -> (forall k, k ∈ map i_key l -> k.1 ∈ element_types) -> l <> [] ->
  reads_rows (hop_selects snap dir frontier l) (fun selects =>
    selects <> [] /\ exact_keys db (fun k _ => k ∈ map i_key l) (concat selects)).
Proof.
  intros Hcur Hl Hne. pose proof (db_typed (RowSourcesLaws := RowSourcesLaws0)) as Hdb.
  pose proof (keeps_all (RowSourcesLaws := RowSourcesLaws0)) as Hall. pose proof (compiles_nil (RowSourcesLaws := RowSourcesLaws0)) as Hnil.
  assert (Hsome : exists k, k ∈ map i_key l) by (destruct l as [|x l']; [done|]; exists (i_key x); left).
  unfold hop_selects. destruct dir.
  - set (boxes := boxes_of _ _).
    assert (Hb : Forall sane_box boxes).
    { apply (boxes_sane keeps snap db); [done|]. intros t. rewrite elem_of_element_types, !elem_of_cons, elem_of_nil. tauto. }
    eapply reads_rows_bind; [apply (when_any_exact keeps snap db WAY l); intros ids; by apply (way_bbox_law (keeps := keeps) (db := db))|].
    intros ways [Hw Hw0].
    eapply reads_rows_bind; [apply (when_any_exact keeps snap db NODE l); intros ids; by apply (node_bbox_law (keeps := keeps) (db := db))|].
    intros nodes [Hn Hn0].
    eapply reads_rows_bind; [by apply (hydrate_ids_table_exact keeps snap db)|].
    intros rels [Hr Hr0]. apply reads_rows_ret. split.
    + intros [Ew [En Er]%app_nil]%app_nil. destruct ways, nodes, rels; try done. destruct Hsome as [k Hk].
      pose proof (Hl k Hk) as Ht. apply elem_of_element_types in Ht as [Et|[Et|Et]].
      * by apply (Hn0 eq_refl k Hk).
      * by apply (Hw0 eq_refl k Hk).
      * specialize (Hr0 eq_refl k Hk). cbn [allowed] in Hr0. rewrite Et in Hr0. by vm_compute in Hr0.
    + rewrite !concat_app, !concat_as_part.
      eapply exact_keys_ext; [|apply exact_keys_app; [exact Hw|apply exact_keys_app; [exact Hn|exact Hr]]].
      intros k d _. cbn beta. unfold wanted_key. rewrite Hall. split; [tauto|]. intros Hk.
      pose proof (Hl k Hk) as Ht. apply elem_of_element_types in Ht as [Et|[Et|Et]]; auto.
      right; right. split_and!; [done| |done]. by rewrite Et.
  - eapply reads_rows_bind; [by apply (hydrate_ids_table_exact keeps snap db)|].
    intros rows [Hr Hr0]. apply reads_rows_ret. destruct rows as [rows|].
    + split; [done|]. cbn [as_part concat default] in *. rewrite app_nil_r. eapply exact_keys_ext; [|exact Hr].
      intros k d _. unfold wanted_key. cbn [allowed]. rewrite Hall. tauto.
    + exfalso. destruct Hsome as [k Hk]. by specialize (Hr0 eq_refl k Hk).
Qed.

(** What the keys seen so far satisfy: a seen element outside the frontier has
    been expanded. *)
Definition expanded (seen : list key) (frontier : list row) : Prop :=
  forall j d, j ∈ seen -> find_row db j = Some d ->
    (exists r, r ∈ frontier /\ same_element d r) \/ forall k, tight d k -> k ∈ seen.

Lemma recurse_hop_law seen frontier : current_rows_of db frontier -> expanded seen frontier ->
  reads_rows (recurse_hop snap dir seen frontier) (fun o =>
    match o with
    | None => forall r k, r ∈ frontier -> tight r k -> k ∈ seen
    | Some (seen', rows) =>
        current_rows_of db rows /\ expanded seen' rows /\ (forall k, k ∈ seen -> k ∈ seen') /\
        (forall r k, r ∈ frontier -> tight r k -> k ∈ seen') /\
        (forall r, r ∈ rows -> exists d, find_row db (s_key r) = Some d /\ same_element d r /\ s_key r ∉ seen /\ s_key r ∈ seen' /\
           exists r0, r0 ∈ frontier /\ loose r0 (s_key r)) /\
        (forall k d, k ∉ seen -> k ∈ seen' -> find_row db k = Some d -> exists r, r ∈ rows /\ same_element d r)
    end).
Proof.
  intros Hcur Hexp. unfold recurse_hop. eapply reads_rows_bind; [by apply Hhop|].
  intros o [Htight Hloose]. destruct o as [hop|]; [|apply reads_rows_ret; intros r k Hr Hk; pose proof (Htight r k Hr Hk) as Hin; by inversion Hin].
  change (hop_keys (Some hop)) with (map i_key hop) in Htight, Hloose.
  set (fresh := base.filter (fun r => seen_key seen r = false) hop).
  assert (Hfresh : forall k, k ∈ map i_key fresh <-> k ∈ map i_key hop /\ k ∉ seen).
  { intros k. unfold fresh. rewrite !elem_of_map. setoid_rewrite list_elem_of_filter. unfold seen_key.
    setoid_rewrite bool_decide_eq_false. naive_solver. }
  clearbody fresh.
  assert (Hdone : fresh = [] -> forall r k, r ∈ frontier -> tight r k -> k ∈ seen).
  { intros -> r k Hr Hk. destruct (decide (k ∈ seen)) as [?|Hns]; [done|]. exfalso.
    assert (Hin : k ∈ map i_key (@nil idrow)) by (apply Hfresh; eauto). by inversion Hin. }
  assert (Hcase : fresh = [] \/ fresh <> []) by (destruct fresh; [by left|by right]).
  destruct Hcase as [Ef|Hne0]; [rewrite Ef; apply reads_rows_ret; by apply Hdone|].
  destruct fresh as [|x fresh'] eqn:Ef; [done|]. rewrite <- Ef in *.
  eapply reads_rows_bind; [apply (hop_selects_exact frontier fresh)|].
  { done. }
  { intros k [Hk _]%Hfresh. by apply Hloose. }
  { done. }
  intros selects [Hne [Hs1 Hs2]]. destruct selects as [|p ps]; [done|]. apply reads_rows_ret. set (rows := concat (p :: ps)) in *.
  assert (Hseen' : forall k, k ∈ seen ++ map i_key fresh <-> k ∈ seen \/ (k ∈ map i_key hop /\ k ∉ seen)).
  { intros k. by rewrite elem_of_app, Hfresh. }
  split_and!.
  - intros r Hr. destruct (Hs1 r Hr) as (d & Hd & Hsame & _). left. eauto.
  - intros j d Hj Hd. apply elem_of_app in Hj as [Hj|Hj].
    + right. intros k Hk. apply Hseen'. destruct (decide (k ∈ seen)) as [?|Hns]; [by left|right]. split; [|done].
      destruct (Hexp j d Hj Hd) as [(r & Hr & Hsame)|He]; [|by destruct Hns; auto].
      apply (Htight r k Hr). by apply (tight_proper d r Hsame k k eq_refl).
    + left. destruct (Hs2 j d Hd Hj) as (r & Hr & Hsame). by exists r.
  - intros k Hk. apply elem_of_app. by left.
  - intros r k Hr Hk. apply Hseen'. destruct (decide (k ∈ seen)); [by left|right]. split; [|done]. eauto.
  - intros r Hr. destruct (Hs1 r Hr) as (d & Hd & Hsame & Hk). exists d. apply Hfresh in Hk as [Hk Hns].
    split_and!; [done|done|done| |].
    + apply Hseen'. by right.
    + by apply Hloose.
  - intros k d Hns Hk Hd. apply elem_of_app in Hk as [Hk|Hk]; [done|]. by apply (Hs2 k d Hd).
Qed.

(** A path that leaves the keys seen goes through the new frontier. *)
Lemma path_through_frontier seen rows n r k : current_rows_of db rows -> expanded seen rows ->
  (forall j, tight r j -> j ∈ seen) -> path tight n r k -> k ∉ seen ->
  exists m r', (m < n)%nat /\ r' ∈ rows /\ path tight m r' k.
Proof.
  intros Hcur Hexp Hr Hp Hk. induction Hp as [r k Hs|n r j d k Hs Hd Hp IH]; [by destruct Hk; auto|].
  destruct (Hexp j d (Hr j Hs) Hd) as [(r' & Hr' & Hsame)|He].
  - exists n, r'. split; [lia|]. split; [done|]. by eapply path_proper.
  - destruct (IH He Hk) as (m & r' & Hm & ? & ?). exists m, r'. split; [lia|done].
Qed.

Lemma path_stays (seen : list key) n r k :
  (forall j d, j ∈ seen -> find_row db j = Some d -> forall j', tight d j' -> j' ∈ seen) ->
  (forall j, tight r j -> j ∈ seen) -> path tight n r k -> k ∈ seen.
Proof. intros Hclosed Hr Hp. induction Hp as [r k Hs|n r j d k Hs Hd Hp IH]; eauto. Qed.

Lemma recurse_loop_exact fuel seen frontier : current_rows_of db frontier -> expanded seen frontier ->
  reads_rows (recurse_loop snap dir fuel seen frontier) (fun parts =>
    (forall r, r ∈ concat parts -> exists d, find_row db (s_key r) = Some d /\ same_element d r /\ s_key r ∉ seen /\
       exists n r0, (n <= fuel)%nat /\ r0 ∈ frontier /\ path loose n r0 (s_key r)) /\
    (forall n r0 k d, (n <= fuel)%nat -> r0 ∈ frontier -> path tight n r0 k -> k ∉ seen -> find_row db k = Some d ->
       exists r, r ∈ concat parts /\ same_element d r)).
Proof.
  revert seen frontier. induction fuel as [|fuel IH]; intros seen frontier Hcur Hexp; cbn [recurse_loop].
  { apply reads_rows_ret. split; [by intros r Hr%elem_of_nil|]. intros n r0 k d Hn _ Hp. destruct Hp; lia. }
  eapply reads_rows_bind; [by apply recurse_hop_law|]. intros [[seen' rows]|] Ho.
  2: { apply reads_rows_ret. split; [by intros r Hr%elem_of_nil|]. intros n r0 k d _ Hr0 Hp Hk _. exfalso.
       apply Hk. apply (path_stays seen n r0 k); [|by intros j; apply Ho|done]. intros j e Hj He j' Hj'.
       destruct (Hexp j e Hj He) as [(r & Hr & Hs)|Hx]; [|auto]. apply (Ho r j' Hr). by apply (tight_proper e r Hs j' j' eq_refl). }
  destruct Ho as (Hcur' & Hexp' & Hsub & Htight & Hrows & Hnew).
  eapply reads_rows_bind; [by apply IH|]. intros parts [Hp1 Hp2]. apply reads_rows_ret. cbn [concat]. split.
  - intros r [Hr|Hr]%elem_of_app.
    + destruct (Hrows r Hr) as (d & Hd & Hs & Hns & _ & r0 & Hr0 & Hl). exists d. split_and!; [done|done|done|].
      exists 1%nat, r0. split; [lia|]. split; [done|]. by constructor.
    + destruct (Hp1 r Hr) as (d & Hd & Hs & Hns & n & r1 & Hn & Hr1 & Hp). exists d. split_and!; [done|done| |].
      { intros Hin. by apply Hns, Hsub. }
      destruct (Hrows r1 Hr1) as (d1 & Hd1 & Hs1 & _ & _ & r0 & Hr0 & Hl). exists (S n), r0. split; [lia|]. split; [done|].
      eapply path_step; [exact Hl|exact Hd1|]. eapply path_proper; [exact loose_proper|symmetry; exact Hs1|exact Hp].
  - intros n r0 k d Hn Hr0 Hp Hk Hd. destruct (decide (k ∈ seen')) as [Hin|Hnin].
    { destruct (Hnew k d Hk Hin Hd) as (r & Hr & Hs). exists r. rewrite elem_of_app. auto. }
    destruct (path_through_frontier seen' rows n r0 k Hcur' Hexp' (fun j => Htight r0 j Hr0) Hp Hnin) as (m & r' & Hm & Hr' & Hp').
    destruct (Hp2 m r' k d ltac:(lia) Hr' Hp' Hnin Hd) as (r & Hr & Hs). exists r. rewrite elem_of_app. auto.
Qed.
End Loop.


(** * [>>] *)
Section Down.
Context {G : Type} `{RowSources G} `{Compiles G} (keeps : list TagFilter -> set_row G -> bool) (snap : option PyTime.datetime) (db : database G).
Context `{!RowSourcesLaws G keeps snap db}.
Abbreviation row := (set_row G).

Lemma forward_hop_law : hop_law snap db Forward refers refers.
Proof.
  intros frontier _. cbn [hop_of]. apply reads_rows_ret. split.
  - intros r k Hr Hk. apply forward_all_keys. eauto.
  - intros k (r & Hr & Hk)%forward_all_keys. split; [by eapply refers_type|]. eauto.
Qed.

Lemma expanded_input tight (input : list row) : current_rows_of db input ->
  expanded db tight (remove_dups (map s_key input)) input.
Proof.
  intros Hcur j d Hj Hd. rewrite elem_of_remove_dups in Hj. apply elem_of_map in Hj as (r & -> & Hr). left.
  exists r. split; [done|]. destruct (Hcur r Hr) as [(d' & Hd' & Hs)|[_ Hn]]; congruence.
Qed.

Lemma down_transitive (input : list row) : current_rows_of db input ->
  reads_rows (recurse_transitive snap input Forward) (fun rows =>
    exists found, rows = found ++ base.filter (fun r => (s_type r =s RELATION) = true) input /\
      exact_keys db (fun k _ => k ∉ keys input /\
        exists n s, (n <= max_hops)%nat /\ s ∈ input /\ path db refers n s k) found).
Proof.
  intros Hcur. unfold recurse_transitive.
  eapply reads_rows_bind; [eapply (recurse_loop_exact keeps snap db Forward refers refers); try tc_solve; try done|].
  - apply forward_hop_law.
  - by apply expanded_input.
  - intros parts [H1 H2]. apply reads_rows_ret. exists (concat parts). split; [done|]. split.
    + intros r Hr. destruct (H1 r Hr) as (d & Hd & Hs & Hk & n & s & Hn & Hsin & Hp). rewrite elem_of_remove_dups in Hk. eauto 10.
    + intros k d Hd (Hk & n & s & Hn & Hs & Hp). apply (H2 n s k d Hn Hs Hp); [|done]. by rewrite elem_of_remove_dups.
Qed.
End Down.

(** * [>] *)
Section DownOnce.
Context {G : Type} `{RowSources G} `{Compiles G} (keeps : list TagFilter -> set_row G -> bool) (snap : option PyTime.datetime) (db : database G).
Context `{!RowSourcesLaws G keeps snap db}.
Abbreviation row := (set_row G).

(** The elements [>] asks for: nodes and ways the source refers to, and the
    nodes of those ways. *)
Definition below (source : list row) (k : pystr * Z) : Prop :=
  (exists s, s ∈ source /\ refers s k /\ k.1 <> RELATION) \/
  (exists s w d, s ∈ source /\ refers s (WAY, w) /\ db WAY w = Some d /\ refers d k).

Lemma forward_nw_keys (source : list row) k :
  k ∈ hop_keys (forward_new_ids_table source None None (Some [u "n"; u "w"])) <->
    exists s, s ∈ source /\ refers s k /\ k.1 <> RELATION.
Proof.
  rewrite forward_hop_keys. change (base.filter _ _) with [u "n"; u "w"]. cbn [allowed].
  apply exist_proper; intros s. apply and_iff_compat_l. rewrite elem_of_way_refs, elem_of_relation_members. split.
  - intros [(_ & Ht & Hk & Hr)|(_ & Ht & ms & m & Hms & Hm & Hw & _ & Hty & Hi)].
    + split; [left; auto|]. rewrite Hk. distinct_types.
    + split; [right; eauto 10|]. intros Er. rewrite Er in Hty.
      apply member_type_inv in Hty as [[_ ?]|[[_ ?]|[Ec _]]]; [distinct_types..|]. rewrite Ec in Hw.
      rewrite !elem_of_cons, elem_of_nil in Hw. by destruct Hw as [[=]|[[=]|[]]].
  - intros [[?|(Ht & ms & m & Hms & Hm & Hty & Hi)] Hne]; [by left|right]. split_and!; [done|done|]. exists ms, m.
    split_and!; try done. pose proof Hty as Hc. apply member_type_inv in Hc as [[-> _]|[[-> _]|[_ Er]]]; [left|right; left|done].
Qed.

Lemma way_node_keys (rows : list row) i :
  i ∈ match forward_new_ids_table rows (Some [WAY]) None None with Some ids => ids_of_type NODE ids | None => [] end <->
  exists r refs, r ∈ rows /\ s_type r = WAY /\ s_refs r = Some refs /\ i ∈ refs.
Proof.
  transitivity ((NODE, i) ∈ hop_keys (forward_new_ids_table rows (Some [WAY]) None None)).
  { unfold hop_keys. destruct (forward_new_ids_table rows (Some [WAY]) None None); [apply elem_of_ids_of_type|].
    split; intros Hi; by inversion Hi. }
  rewrite forward_hop_keys. change (allowed (Some [WAY]) WAY) with true. change (allowed (Some [WAY]) RELATION) with false.
  setoid_rewrite elem_of_way_refs. cbn [fst snd]. naive_solver.
Qed.

Lemma down_once_exact (source : list row) : current_rows_of db source ->
  reads_rows (build_forward_one_hop snap source) (exact_keys db (fun k _ => below source k)).
Proof.
  intros Hcur. pose proof (db_typed (RowSourcesLaws := RowSourcesLaws0)) as Hdb.
  pose proof (keeps_all (RowSourcesLaws := RowSourcesLaws0)) as Hall. pose proof (compiles_nil (RowSourcesLaws := RowSourcesLaws0)) as Hnil.
  assert (Hboxes : forall t, t ∈ element_types -> Forall sane_box (boxes_of [t] source)).
  { intros t Ht. apply (boxes_sane keeps snap db); [done|]. by intros t' ->%list_elem_of_singleton. }
  unfold build_forward_one_hop. pose proof (forward_nw_keys source) as Hhop.
  destruct (forward_new_ids_table source None None (Some [u "n"; u "w"])) as [hop|] eqn:Ehop; [|by vm_compute in Ehop].
  change (hop_keys (Some hop)) with (map i_key hop) in Hhop. clear Ehop.
  eapply reads_rows_bind; [apply (when_any_exact keeps snap db WAY hop); intros ids; apply (way_bbox_law (keeps := keeps) (db := db)); [apply Hboxes, elem_of_element_types; auto|exact Hnil]|].
  intros way_rows [Hw _].
  pose proof (exact_boxes_sane keeps snap db _ _ Hw) as Hwb.
  set (way_node_ids := match way_rows with Some _ => _ | None => _ end).
  assert (Hwn : forall i, i ∈ way_node_ids <-> exists r refs, r ∈ default [] way_rows /\ s_type r = WAY /\ s_refs r = Some refs /\ i ∈ refs).
  { intros i. unfold way_node_ids. destruct way_rows as [rows|]; [apply way_node_keys|]. cbn [default].
    split; [by intros Hi%elem_of_nil|]. intros (r & refs & Hr & _). by inversion Hr. }
  clearbody way_node_ids. set (node_ids := remove_dups _).
  assert (Hnodes : forall i, i ∈ node_ids <-> below source (NODE, i)).
  { intros i. unfold node_ids. rewrite elem_of_remove_dups, elem_of_app, elem_of_ids_of_type, Hhop, Hwn. unfold below. destruct Hw as [W1 W2].
    apply or_iff_compat_l. split.
    - intros (r & refs & Hr & Ht & Hrefs & Hi). destruct (W1 r Hr) as (d & Hd & Hs & Et & Hk).
      unfold s_key in Et, Hk, Hd. cbn [fst] in Et. rewrite Et in Hk, Hd.
      apply Hhop in Hk as (s & Hs' & Href & _). exists s, (s_id r), d. split_and!; [done|done|done|].
      left. split; [by rewrite Hs|]. split; [done|]. exists refs. by rewrite Hs.
    - intros (s & w & d & Hs & Href & Hd & Hk). destruct (W2 (WAY, w) d Hd) as (r & Hr & Hsame).
      { split; [done|]. apply Hhop. exists s. split_and!; [done|done|distinct_types]. }
      destruct (Hdb _ _ _ Hd) as [Ht _]. destruct Hk as [(_ & _ & refs & Hrefs & Hi)|(Hrel & _)]; [|distinct_types].
      exists r, refs. split_and!; [done|by rewrite <- Hsame|by rewrite <- Hsame|done]. }
  clearbody node_ids.
  eapply reads_rows_bind; [apply (node_bbox_law (keeps := keeps) (db := db)); [|exact Hnil]|].
  { rewrite !Forall_app. split; [apply Hboxes, elem_of_element_types; auto|]. split; [apply Hboxes, elem_of_element_types; auto|].
    by destruct way_rows. }
  intros node_rows Hn. apply reads_rows_ret.
  rewrite concat_app, !concat_as_part.
  assert (Hn' : exact_keys db (fun k _ => k.1 = NODE /\ below source k) (default [] node_rows)).
  { destruct node_rows as [rows|]; cbn [default].
    - destruct Hn as [_ Hn]. eapply exact_keys_ext; [|by apply exact_to_keys; [exact Hdb|exact Hn]].
      intros [t i] d _. cbn [fst snd]. split; [intros (-> & Hi & _)|intros [-> Hb]]; (split; [done|]).
      + by apply Hnodes.
      + split; [by apply Hnodes|apply Hall].
    - apply exact_keys_nil. intros [t i] d [Et Hb]. cbn [fst] in Et. subst t. apply Hnodes in Hb. rewrite Hn in Hb. by inversion Hb. }
  eapply exact_keys_ext; [|apply exact_keys_app; [exact Hw|exact Hn']].
  intros k d Hd. cbn beta. rewrite Hhop. unfold below. split; [naive_solver|]. intros [Hb|Hb].
  - destruct Hb as (s & Hs & Href & Hne). pose proof (refers_type _ _ Href) as Ht.
    apply elem_of_element_types in Ht as [Et|[Et|Et]]; [right; eauto 10|left; eauto 10|done].
  - right. split; [|by right]. destruct Hb as (s & w & dw & _ & _ & Hdw & Hk). destruct (Hdb _ _ _ Hdw) as [Ht _].
    destruct Hk as [(_ & ? & _)|(? & _)]; [done|distinct_types].
Qed.
End DownOnce.

Abbreviation key := (pystr * Z)%type.

(** A reference in the role asked for; a way's nodes have no roles. *)
Definition refers_as {G} (role : option pystr) (r : set_row G) (k : key) : Prop :=
  (s_type r = WAY /\ k.1 = NODE /\ exists refs, s_refs r = Some refs /\ k.2 ∈ refs) \/
  (s_type r = RELATION /\ exists ms m, s_members r = Some ms /\ m ∈ ms /\ has_role role (m_role m) = true /\
     member_type (m_type m) = Some k.1 /\ m_ref m = k.2).

(** A source node is where the dataset has it. *)
Definition node_known {G} (db : database G) (s : located) : Prop :=
  l_type s = NODE -> exists d, db NODE (l_id s) = Some d /\ s_lat_e7 d = l_lat s /\ s_lon_e7 d = l_lon s.

(** What the parent lookups promise.  [indexed p c]: the base indexes list [p]
    as a parent of [c] (as it was when the base was written). *)
Class ParentLaws (G : Type) `{RowSources G} (db : database G) (indexed : option pystr -> key -> key -> Prop) : Prop := {
  semijoin_law : forall nodes bbox, (forall s, s ∈ nodes -> l_type s = NODE /\ node_known db s) ->
    bbox_from_points_e7 nodes = Some bbox ->
    reads_rows (build_way_bbox_semijoin_select None (remove_dups (map l_id nodes)) bbox) (fun o =>
      match o with
      | Some rows => exact db WAY (fun _ d => exists s, s ∈ nodes /\ refers d (NODE, l_id s)) rows
      | None => True
      end);
  node_way_law : forall i ids, exists o o',
    node_way_rows (Some (min_of i ids)) (Some (max_of i ids)) = Ok o /\
    delta_way_ids_by_ref (remove_dups (i :: ids)) = Ok o' /\
    (forall n w, (n, w) ∈ default [] o -> indexed None (WAY, w) (NODE, n)) /\
    (forall k, k ∈ hop_keys o' -> exists d j, find_row db k = Some d /\ j ∈ i :: ids /\ k.1 = WAY /\ refers d (NODE, j)) /\
    (forall w d j, db WAY w = Some d -> j ∈ i :: ids -> refers d (NODE, j) ->
       (j, w) ∈ default [] o \/ (WAY, w) ∈ hop_keys o');
  member_law : exists o, member_rows = Ok o /\
    (forall x t role, x ∈ default [] o -> member_type (x_type x) = Some t -> has_role role (x_role x) = true ->
       indexed role (RELATION, x_parent x) (t, x_id x)) /\
    (forall t c ids role, (t, c) ∈ member_type_char -> exists o',
       delta_relation_ids_by_member c ids role = Ok o' /\
       (forall k, k ∈ hop_keys o' -> exists d j, find_row db k = Some d /\ j ∈ ids /\ k.1 = RELATION /\ refers_as role d (t, j)) /\
       (forall p d j, db RELATION p = Some d -> j ∈ ids -> refers_as role d (t, j) ->
          (exists x, x ∈ default [] o /\ x_type x = c /\ x_id x = j /\ x_parent x = p /\ has_role role (x_role x) = true) \/
          (RELATION, p) ∈ hop_keys o'))
}.

Section Up.
Context {G : Type} `{RowSources G} `{Compiles G} (keeps : list TagFilter -> set_row G -> bool) (db : database G).
Context (indexed : option pystr -> key -> key -> Prop).
Context `{!RowSourcesLaws G keeps None db} `{!ParentLaws G db indexed}.
Abbreviation row := (set_row G).

(** The parents of an element, and the elements the indexes call its parents. *)
Definition parent (role : option pystr) (c p : key) : Prop := exists d, find_row db p = Some d /\ refers_as role d c.
Definition maybe_parent (role : option pystr) (c p : key) : Prop := parent role c p \/ p.1 = WAY /\ indexed None p c \/ indexed role p c.

Lemma refers_as_None (r : row) k : refers_as None r k <-> refers r k.
Proof. unfold refers_as, refers. cbn [has_role]. naive_solver. Qed.

Definition l_key (s : located) : key := (l_type s, l_id s).

Lemma elem_of_source_ids t source i : i ∈ source_ids t source <-> exists s, s ∈ source /\ l_key s = (t, i).
Proof.
  unfold source_ids, located_of_type. rewrite elem_of_map. setoid_rewrite list_elem_of_filter. setoid_rewrite str_eqb_eq.
  unfold l_key. split; [intros (s & -> & <- & ?); eauto|intros (s & ? & [= E1 E2]); exists s; auto].
Qed.

Lemma concat_parts_keys k (parts : list (list idrow)) :
  k ∈ hop_keys (match parts with [] => None | _ => Some (remove_dups (concat parts)) end) <-> k ∈ map i_key (concat parts).
Proof.
  unfold hop_keys. destruct parts as [|p ps]; [done|]. cbn [default]. rewrite !elem_of_map.
  by setoid_rewrite elem_of_remove_dups.
Qed.

(** ** Ways *)
Lemma parent_ways_law source : (forall s, s ∈ source -> node_known db s) ->
  reads_rows (parent_way_parts None source) (fun parts =>
    (forall s p, s ∈ source -> l_type s = NODE -> parent None (l_key s) p -> p.1 = WAY -> p ∈ map i_key (concat parts)) /\
    (forall p, p ∈ map i_key (concat parts) -> p.1 = WAY /\
       exists s, s ∈ source /\ l_type s = NODE /\ maybe_parent None (l_key s) p)).
Proof.
  intros Hknown. unfold parent_way_parts.
  assert (Hin : forall s, s ∈ located_of_type NODE source <-> s ∈ source /\ l_type s = NODE).
  { intros s. unfold located_of_type. rewrite list_elem_of_filter, str_eqb_eq. tauto. }
  destruct (located_of_type NODE source) as [|s0 nodes].
  { apply reads_rows_ret. split; [|by intros p Hp%elem_of_nil]. intros s p Hs Ht _ _. exfalso.
    assert (Hs' : s ∈ []) by by apply Hin. by inversion Hs'. }
  set (bbox := bbox_from_points_e7 (s0 :: nodes)).
  assert (Hrows : reads_rows (match bbox with
      | Some b => build_way_bbox_semijoin_select None (remove_dups (map l_id (s0 :: nodes))) b
      | None => reads_ret None
      end) (fun o => match o with
        | Some rows => exact db WAY (fun _ d => exists s, s ∈ s0 :: nodes /\ refers d (NODE, l_id s)) rows
        | None => True
        end)).
  { destruct bbox as [b|] eqn:Eb; [|by apply reads_rows_ret]. apply semijoin_law; [|done].
    intros s Hs. apply Hin in Hs as [Hs Ht]. auto. }
  eapply reads_rows_bind; [exact Hrows|]. clear Hrows. intros [rows|] Hrows.
  - apply reads_rows_ret. cbn [concat]. rewrite app_nil_r.
    assert (Hk : forall k, k ∈ map i_key (map to_idrow rows) <-> k ∈ keys rows).
    { intros k. rewrite map_map. done. }
    destruct Hrows as [H1 H2]. pose proof (db_typed (snap := None) (db := db)) as Hdb. split.
    + intros s p Hs Ht (d & Hd & Href) Hp. apply Hk. destruct p as [t w]. cbn [fst] in Hp. subst t.
      destruct (H2 w d Hd) as (r & Hr & Hsame).
      { exists s. split; [by apply Hin|]. apply refers_as_None in Href. unfold l_key in Href. by rewrite Ht in Href. }
      apply elem_of_map. exists r. split; [|done]. destruct (Hdb _ _ _ Hd) as [E1 E2]. cbn [fst snd] in E1, E2.
      rewrite <- (s_key_proper _ _ Hsame). unfold s_key. by rewrite E1, E2.
    + intros p Hp. apply Hk, elem_of_map in Hp as (r & -> & Hr). destruct (H1 r Hr) as (d & Hd & Hsame & s & Hs & Href).
      destruct (Hdb _ _ _ Hd) as [Et _]. assert (Er : s_type r = WAY) by by rewrite <- Hsame. split; [done|].
      apply Hin in Hs as [Hs Ht]. exists s. split_and!; [done|done|]. left. exists d. unfold find_row, s_key. cbn [fst snd].
      rewrite Er. split; [done|]. apply refers_as_None. unfold l_key. by rewrite Ht.
  - cbn [map id_range]. clear Hrows.
    destruct (node_way_law (l_id s0) (map l_id nodes)) as (o & o' & E1 & E2 & Hidx & Hd1 & Hd2).
    eapply reads_rows_bind; [by apply reads_rows_lift|]. intros ? <-.
    set (from_index := match o with Some _ => _ | None => _ end).
    assert (Hfrom : forall k, k ∈ map i_key (concat from_index) <->
       exists n w, (n, w) ∈ default [] o /\ n ∈ map l_id (s0 :: nodes) /\ k = (WAY, w)).
    { intros k. unfold from_index. destruct o as [rows|]; cbn [concat default].
      2: { split; [by intros Hk%elem_of_nil|]. intros (n & w & Hn & _). by inversion Hn. }
      rewrite app_nil_r, elem_of_map. setoid_rewrite list_elem_of_In. setoid_rewrite in_flat_map. split.
      - intros (x & -> & (nw & Hnw & Hx)). destruct (List.find _ (s0 :: nodes)) as [s|] eqn:Ef; [|done].
        destruct Hx as [<-|[]]. apply find_some in Ef as [Hs E]. apply Z.eqb_eq in E. exists nw.1, nw.2.
        split_and!; [by destruct nw| |done]. rewrite <- E. by apply in_map.
      - intros (n & w & Hn & Hin' & ->). exists {| i_type := WAY; i_id := w; i_cell := None |}. split; [done|].
        exists (n, w). split; [done|]. cbn [fst snd]. destruct (List.find _ (s0 :: nodes)) as [s|] eqn:Ef; [by left|].
        exfalso. apply in_map_iff in Hin' as (s & Es & Hs). pose proof (find_none _ _ Ef s Hs) as E. cbn beta in E.
        by rewrite Es, Z.eqb_refl in E. }
    clearbody from_index.
    assert (Hids : forall n, n ∈ l_id s0 :: map l_id nodes <-> exists s, s ∈ source /\ l_key s = (NODE, n)).
    { intros n. change (l_id s0 :: map l_id nodes) with (map l_id (s0 :: nodes)). rewrite elem_of_map. setoid_rewrite Hin.
      unfold l_key. split; [intros (s & -> & Hs & Ht); exists s; by rewrite Ht|intros (s & Hs & [= Ht E]); exists s; auto]. }
    assert (Hall : reads_rows (match o' with Some rows => Ok (from_index ++ [rows], 1) | None => reads_ret from_index end)
       (fun parts => forall k, k ∈ map i_key (concat parts) <-> k ∈ map i_key (concat from_index) \/ k ∈ hop_keys o')).
    { destruct o' as [rows|].
      - eexists _, _. split; [reflexivity|]. intros k. rewrite concat_app, map_app, elem_of_app. cbn [concat]. by rewrite app_nil_r.
      - apply reads_rows_ret. intros k. unfold hop_keys. cbn. rewrite elem_of_nil. tauto. }
    eapply reads_rows_bind; [by apply reads_rows_lift|]. intros ? <-.
    eapply reads_rows_weaken; [exact Hall|]. intros parts Hparts. split.
    + intros s p Hs Ht (d & Hd & Href) Hp. destruct p as [t w]. cbn [fst] in Hp. subst t. apply Hparts.
      assert (Hi : l_id s ∈ l_id s0 :: map l_id nodes) by (apply Hids; exists s; unfold l_key; by rewrite Ht).
      destruct (Hd2 w d (l_id s) Hd Hi) as [Hx|Hx].
      { apply refers_as_None in Href. unfold l_key in Href. by rewrite Ht in Href. }
      * left. apply Hfrom. eauto.
      * by right.
    + intros p Hp. apply Hparts in Hp as [Hp|Hp].
      * apply Hfrom in Hp as (n & w & Hnw & Hn & ->). split; [done|]. apply Hids in Hn as (s & Hs & Ek). exists s.
        split_and!; [done|by injection Ek|]. right; left. split; [done|]. rewrite Ek. by apply Hidx.
      * destruct (Hd1 p Hp) as (d & j & Hd & Hj & Ht & Href). split; [done|]. apply Hids in Hj as (s & Hs & Ek). exists s.
        split_and!; [done|by injection Ek|]. left. exists d. split; [done|]. rewrite Ek. by apply refers_as_None.
Qed.

(** ** Relations *)
Lemma member_char_spec t c : (t, c) ∈ member_type_char <-> member_type c = Some t.
Proof.
  unfold member_type_char. rewrite !elem_of_cons, elem_of_nil. split.
  - intros [[= -> ->]|[[= -> ->]|[[= -> ->]|[]]]]; by vm_compute.
  - intros Hm. apply member_type_inv in Hm as [[-> ->]|[[-> ->]|[-> ->]]]; auto.
Qed.

(** A row of the member index with a source element as member. *)
Definition index_hit (source : list located) (restrict role : option pystr) (allow : pystr -> bool) (x : member_row) (p : key) : Prop :=
  exists s t, s ∈ source /\ l_key s = (t, x_id x) /\ member_type (x_type x) = Some t /\ allow t = true /\
    has_role role (x_role x) = true /\ p = (RELATION, x_parent x).

Lemma member_index_law source restrict role :
  reads_rows (member_index_part source restrict role) (fun parts =>
    exists o, member_rows = Ok o /\
    forall p, p ∈ map i_key (concat parts) <-> exists x, x ∈ default [] o /\ index_hit source None role (allowed restrict) x p).
Proof.
  destruct member_law as (o & Eo & _). unfold member_index_part.
  eapply reads_rows_bind; [by apply reads_rows_lift|]. intros ? <-.
  destruct o as [rows|]; cbn [default].
  2: { apply reads_rows_ret. exists None. split; [done|]. intros p. split; [by intros Hp%elem_of_nil|].
       intros (x & Hx & _). by inversion Hx. }
  set (wanted := base.filter _ member_type_char).
  assert (Hw : forall t c, (t, c) ∈ wanted <-> member_type c = Some t /\ allowed restrict t = true /\ source_ids t source <> []).
  { intros t c. unfold wanted. rewrite list_elem_of_filter, member_char_spec. cbn [fst].
    rewrite andb_true_iff, negb_true_iff, bool_decide_eq_false. tauto. }
  clearbody wanted.
  assert (Hpart : forall p, p ∈ map i_key (flat_map (fun x =>
       match List.find (fun tc => x_type x =s tc.2) wanted with
       | Some tc => if has_role role (x_role x) then
           map (fun _ => {| i_type := RELATION; i_id := x_parent x; i_cell := x_parent_cell x |})
             (base.filter (fun i => (i =? x_id x) = true) (source_ids tc.1 source)) else []
       | None => []
       end) rows) <-> exists x, x ∈ rows /\ index_hit source None role (allowed restrict) x p).
  { intros p. rewrite elem_of_map. setoid_rewrite list_elem_of_In. setoid_rewrite in_flat_map. split.
    - intros (r & -> & x & Hx & Hr). exists x. split; [done|].
      destruct (List.find _ wanted) as [[t c]|] eqn:Ef; [|done]. apply find_some in Ef as [Hin E]. cbn [fst snd] in *.
      apply str_eqb_eq in E. apply list_elem_of_In, Hw in Hin as (Hm & Ha & _). rewrite <- E in Hm.
      destruct (has_role role (x_role x)) eqn:Er; [|done]. apply in_map_iff in Hr as (i & <- & Hi).
      apply list_elem_of_In, list_elem_of_filter in Hi as [Ei Hi]. apply Z.eqb_eq in Ei. subst i.
      apply elem_of_source_ids in Hi as (s & Hs & Ek). by exists s, t.
    - intros (x & Hx & s & t & Hs & Ek & Hm & Ha & Hr & ->).
      exists {| i_type := RELATION; i_id := x_parent x; i_cell := x_parent_cell x |}. split; [done|]. exists x. split; [done|].
      assert (Hin : (t, x_type x) ∈ wanted).
      { apply Hw. split_and!; [done|done|]. intros En. assert (Hi : x_id x ∈ source_ids t source) by (apply elem_of_source_ids; eauto).
        rewrite En in Hi. by inversion Hi. }
      destruct (List.find _ wanted) as [[t' c]|] eqn:Ef.
      + apply find_some in Ef as [Hin' E]. cbn [fst snd] in *. apply str_eqb_eq in E. apply list_elem_of_In, Hw in Hin' as (Hm' & _).
        rewrite <- E, Hm in Hm'. injection Hm' as <-. rewrite Hr. apply in_map_iff. exists (x_id x). split; [done|].
        apply list_elem_of_In, list_elem_of_filter. rewrite Z.eqb_eq. split; [done|]. apply elem_of_source_ids. eauto.
      + exfalso. apply list_elem_of_In in Hin. pose proof (find_none _ _ Ef _ Hin) as E. cbn [snd] in E. by rewrite str_eqb_refl in E. }
  destruct wanted as [|w ws] eqn:Ew.
  - apply reads_rows_ret. exists (Some rows). split; [done|]. intros p. cbn [default]. rewrite <- Hpart.
    assert (En : flat_map (fun x : member_row =>
        match List.find (fun tc : pystr * pystr => x_type x =s tc.2) [] with
        | Some tc => if has_role role (x_role x) then
           map (fun _ => {| i_type := RELATION; i_id := x_parent x; i_cell := x_parent_cell x |})
             (base.filter (fun i => (i =? x_id x) = true) (source_ids tc.1 source)) else []
        | None => []
        end) rows = []) by (clear; induction rows; done).
    by rewrite En.
  - apply reads_rows_ret. exists (Some rows). split; [done|]. intros p. cbn [concat default]. by rewrite app_nil_r.
Qed.

Lemma delta_members_law source restrict role o tcs : member_rows = Ok o -> (forall tc, tc ∈ tcs -> tc ∈ member_type_char) ->
  reads_rows (reads_concat (delta_member_part source restrict role) tcs) (fun parts =>
    (forall p, p ∈ map i_key (concat parts) -> p.1 = RELATION /\
       exists s, s ∈ source /\ allowed restrict (l_type s) = true /\ parent role (l_key s) p) /\
    (forall s p c, s ∈ source -> (l_type s, c) ∈ tcs -> allowed restrict (l_type s) = true -> p.1 = RELATION ->
       parent role (l_key s) p ->
       (exists x, x ∈ default [] o /\ index_hit source None role (allowed restrict) x p) \/ p ∈ map i_key (concat parts))).
Proof.
  intros Eo. induction tcs as [|[t c] tcs IH]; intros Htcs; cbn [reads_concat].
  { apply reads_rows_ret. split; [by intros p Hp%elem_of_nil|]. intros s p c _ Hc. by inversion Hc. }
  assert (Htc : (t, c) ∈ member_type_char) by (apply Htcs; left).
  assert (Hone : reads_rows (delta_member_part source restrict role (t, c)) (fun parts =>
    (forall p, p ∈ map i_key (concat parts) -> p.1 = RELATION /\
       exists s, s ∈ source /\ allowed restrict (l_type s) = true /\ parent role (l_key s) p) /\
    (forall s p, s ∈ source -> l_type s = t -> allowed restrict t = true -> p.1 = RELATION -> parent role (l_key s) p ->
       (exists x, x ∈ default [] o /\ index_hit source None role (allowed restrict) x p) \/ p ∈ map i_key (concat parts)))).
  { unfold delta_member_part. cbn [fst snd]. destruct (allowed restrict t) eqn:Ea; cbn [negb].
    2: { apply reads_rows_ret. split; [by intros p Hp%elem_of_nil|done]. }
    destruct (source_ids t source) as [|i ids] eqn:Ei.
    { apply reads_rows_ret. split; [by intros p Hp%elem_of_nil|]. intros s p Hs Ht _ _ _. exfalso.
      assert (Hi : l_id s ∈ source_ids t source) by (apply elem_of_source_ids; exists s; unfold l_key; by rewrite Ht).
      rewrite Ei in Hi. by inversion Hi. }
    destruct member_law as (o2 & Eo2 & _ & Hdelta). assert (o2 = o) as -> by congruence.
    destruct (Hdelta t c (i :: ids) role Htc) as (o' & Ed & Hs1 & Hs2).
    eapply reads_rows_bind; [by apply reads_rows_lift|]. intros ? <-.
    assert (Hids : forall j, j ∈ i :: ids <-> exists s, s ∈ source /\ l_key s = (t, j)).
    { intros j. rewrite <- Ei. apply elem_of_source_ids. }
    assert (Hboth :
      (forall p, p ∈ hop_keys o' -> p.1 = RELATION /\
         exists s, s ∈ source /\ allowed restrict (l_type s) = true /\ parent role (l_key s) p) /\
      (forall s p, s ∈ source -> l_type s = t -> true = true -> p.1 = RELATION -> parent role (l_key s) p ->
         (exists x, x ∈ default [] o /\ index_hit source None role (allowed restrict) x p) \/ p ∈ hop_keys o')).
    { split.
      - intros p Hp. destruct (Hs1 p Hp) as (d & j & Hd & Hj & Ht & Href). split; [done|].
        apply Hids in Hj as (s & Hs & Ek). exists s. split_and!; [done|injection Ek as -> _; done|]. exists d. by rewrite Ek.
      - intros s p Hs Ht _ Hp (d & Hd & Href). destruct p as [tp p]. cbn [fst] in Hp. subst tp.
        assert (Ek : l_key s = (t, l_id s)) by (unfold l_key; by rewrite Ht). rewrite Ek in Href.
        destruct (Hs2 p d (l_id s) Hd) as [(x & Hx & Ec & Exi & Ep & Er)|Hx]; [apply Hids; eauto|done| |by right].
        left. exists x. split; [done|]. exists s, t. rewrite Exi, Ep, Ec. split_and!; [done|done| |done|done|done].
        by apply member_char_spec. }
    destruct o' as [rows|].
    - eexists _, _. split; [reflexivity|]. cbn [concat]. rewrite app_nil_r. exact Hboth.
    - apply reads_rows_ret. cbn [concat]. exact Hboth. }
  eapply reads_rows_bind; [exact Hone|]. intros a [Ha1 Ha2].
  eapply reads_rows_bind; [apply IH; intros tc Htc'; apply Htcs; by right|]. intros b [Hb1 Hb2]. apply reads_rows_ret. split.
  - intros p. rewrite concat_app, map_app, elem_of_app. intros [Hp|Hp]; auto.
  - intros s p c' Hs Hc Hal Hp Hpar. rewrite concat_app, map_app, elem_of_app. apply elem_of_cons in Hc as [Hc|Hc].
    + injection Hc as Et _. destruct (Ha2 s p Hs Et) as [?|?]; [congruence|done|done|by left|by right; left].
    + destruct (Hb2 s p c' Hs Hc Hal Hp Hpar) as [?|?]; [by left|by right; right].
Qed.

(** ** A hop *)
Lemma parent_cases role c p : parent role c p ->
  (p.1 = WAY /\ c.1 = NODE /\ parent None c p) \/ p.1 = RELATION.
Proof.
  intros (d & Hd & Href). destruct (db_typed (snap := None) _ _ _ Hd) as [Ht _].
  destruct Href as [(Hw & Hn & Hr)|(Hr & _)]; [left|right; congruence]. split_and!; [congruence|done|].
  exists d. split; [done|]. left. auto.
Qed.

Lemma backward_law source restrict role : (allowed restrict NODE = true -> forall s, s ∈ source -> node_known db s) ->
  reads_rows (backward_new_ids_table None source restrict role) (fun o =>
    (forall s p, s ∈ source -> allowed restrict (l_type s) = true -> l_type s ∈ element_types ->
       parent role (l_key s) p -> p ∈ hop_keys o) /\
    (forall p, p ∈ hop_keys o -> (p.1 = WAY \/ p.1 = RELATION) /\
       exists s, s ∈ source /\ allowed restrict (l_type s) = true /\ maybe_parent role (l_key s) p)).
Proof.
  intros Hknown. unfold backward_new_ids_table.
  eapply reads_rows_bind with (P := fun ways =>
    (forall s p, s ∈ source -> allowed restrict NODE = true -> l_type s = NODE -> parent None (l_key s) p -> p.1 = WAY ->
       p ∈ map i_key (concat ways)) /\
    (forall p, p ∈ map i_key (concat ways) -> p.1 = WAY /\
       exists s, s ∈ source /\ allowed restrict (l_type s) = true /\ maybe_parent None (l_key s) p)).
  { destruct (allowed restrict NODE) eqn:Ea.
    - eapply reads_rows_weaken; [apply parent_ways_law; auto|]. intros parts [H1 H2]. split; [eauto|].
      intros p Hp. destruct (H2 p Hp) as (? & s & ? & Ht & ?). split; [done|]. exists s. by rewrite Ht.
    - apply reads_rows_ret. split; [done|]. by intros p Hp%elem_of_nil. }
  intros ways [W1 W2].
  eapply reads_rows_bind with (P := fun parts =>
    exists rels, (forall k, k ∈ map i_key (concat parts) <-> k ∈ map i_key (concat ways) \/ k ∈ rels) /\
    (forall s p, s ∈ source -> allowed restrict (l_type s) = true -> l_type s ∈ element_types -> p.1 = RELATION ->
       parent role (l_key s) p -> p ∈ rels) /\
    (forall p, p ∈ rels -> p.1 = RELATION /\
       exists s, s ∈ source /\ allowed restrict (l_type s) = true /\ maybe_parent role (l_key s) p)).
  { eapply reads_rows_bind; [apply member_index_law|]. intros index (o & Eo & Hindex).
    eapply reads_rows_bind; [by apply (delta_members_law source restrict role o member_type_char)|].
    intros delta [D1 D2]. apply reads_rows_ret. exists (map i_key (concat index) ++ map i_key (concat delta)). split_and!.
    - intros k. by rewrite !concat_app, !map_app, !elem_of_app.
    - intros s p Hs Ha Ht Hp Hpar. rewrite elem_of_app.
      assert (exists c, (l_type s, c) ∈ member_type_char) as [c Hc].
      { apply elem_of_element_types in Ht as [->|[->| ->]]; eexists; unfold member_type_char; rewrite !elem_of_cons; eauto. }
      destruct (D2 s p c Hs Hc Ha Hp Hpar) as [Hx|Hx]; [left; by apply Hindex|by right].
    - intros p [Hp|Hp]%elem_of_app.
      + apply Hindex in Hp as (x & Hx & s & t & Hs & Ek & Hm & Ha & Hr & ->). split; [done|]. exists s.
        split_and!; [done|injection Ek as -> _; done|]. right; right. rewrite Ek.
        destruct member_law as (o2 & Eo2 & Hidx & _). assert (o2 = o) as -> by congruence. by apply Hidx.
      + destruct (D1 p Hp) as (? & s & ? & ? & ?). split; [done|]. exists s. split_and!; [done|done|by left]. }
  intros parts (rels & Hparts & R1 & R2). apply reads_rows_ret.
  assert (Hk : forall k, k ∈ hop_keys (match parts with [] => None | _ => Some (remove_dups (concat parts)) end) <->
            k ∈ map i_key (concat ways) \/ k ∈ rels).
  { intros k. by rewrite concat_parts_keys. }
  split.
  - intros s p Hs Ha Ht Hpar. apply Hk. destruct (parent_cases role (l_key s) p Hpar) as [(Hw & Hn & Hp)|Hr].
    + left. cbn [l_key fst] in Hn. apply (W1 s p Hs); [by rewrite <- Hn|done|done|done].
    + right. by apply (R1 s p).
  - intros p [Hp|Hp]%Hk.
    + destruct (W2 p Hp) as (Ew & s & Hs & Ha & Hm). split; [by left|]. exists s. split_and!; [done|done|].
      destruct Hm as [(d & Hd & Href)|[[_ Hi]|Hi]]; [|by right; left|by right; left]. left. exists d. split; [done|].
      destruct Href as [Href|(Hr & _)]; [by left|]. destruct (db_typed (snap := None) _ _ _ Hd) as [Ht _]. distinct_types.
    + destruct (R2 p Hp) as (? & s & ? & ? & ?). split; [by right|]. by exists s.
Qed.

(** The rows recursed from are current, nodes included. *)
Lemma current_known (rows : list row) : current_rows_of db rows -> forall s, s ∈ map of_row rows -> node_known db s.
Proof.
  intros Hcur s (r & -> & Hr)%elem_of_map Ht. cbn [of_row l_type l_id l_lat l_lon] in *.
  destruct (Hcur r Hr) as [(d & Hd & Hs)|[Hn _]].
  - exists d. unfold find_row, s_key in Hd. cbn [fst snd] in Hd. rewrite Ht in Hd. split; [done|]. by rewrite Hs.
  - exfalso. apply Hn. rewrite Ht. left.
Qed.

Definition tight (r : row) (p : key) : Prop := parent None (s_key r) p /\ s_type r ∈ element_types.
Definition loose (r : row) (p : key) : Prop := maybe_parent None (s_key r) p.

#[export] Instance tight_proper : Proper (same_element ==> eq ==> iff) tight.
Proof. intros a b Hab k _ <-. unfold tight. by rewrite (s_key_proper _ _ Hab), (s_type_proper _ _ Hab). Qed.
#[export] Instance loose_proper : Proper (same_element ==> eq ==> iff) loose.
Proof. intros a b Hab k _ <-. unfold loose. by rewrite (s_key_proper _ _ Hab). Qed.

Lemma backward_hop_law : hop_law None db Backward tight loose.
Proof.
  intros frontier Hcur. cbn [hop_of]. eapply reads_rows_weaken.
  { apply backward_law. intros _. by apply current_known. }
  intros o [H1 H2]. split.
  - intros r k Hr [Hp Ht]. apply (H1 (of_row r) k); [by apply elem_of_map_2|done|done|done].
  - intros k Hk. destruct (H2 k Hk) as (Ht & s & (r & -> & Hr)%elem_of_map & _ & Hm). split; [|by exists r].
    apply elem_of_element_types. tauto.
Qed.

Lemma up_transitive (input : list row) : current_rows_of db input ->
  reads_rows (recurse_transitive None input Backward) (fun rows =>
    (forall r, r ∈ rows -> exists d, find_row db (s_key r) = Some d /\ same_element d r /\ s_key r ∉ keys input /\
       exists n s, (n <= max_hops)%nat /\ s ∈ input /\ path db loose n s (s_key r)) /\
    (forall n s k d, (n <= max_hops)%nat -> s ∈ input -> path db tight n s k -> k ∉ keys input -> find_row db k = Some d ->
       exists r, r ∈ rows /\ same_element d r)).
Proof.
  intros Hcur. unfold recurse_transitive.
  eapply reads_rows_bind; [eapply (recurse_loop_exact keeps None db Backward tight loose); try tc_solve|].
  - apply backward_hop_law.
  - done.
  - by apply expanded_input.
  - intros parts [H1 H2]. apply reads_rows_ret. rewrite app_nil_r. split.
    + intros r Hr. destruct (H1 r Hr) as (d & Hd & Hs & Hk & n & s & Hn & Hin & Hp). rewrite elem_of_remove_dups in Hk. eauto 11.
    + intros n s k d Hn Hs Hp Hk Hd. apply (H2 n s k d Hn Hs Hp); [|done]. by rewrite elem_of_remove_dups.
Qed.

(** ** [<] *)
Lemma hop_empty (o : option (list idrow)) : o = None -> forall k, k ∉ hop_keys o.
Proof. intros -> k Hk. by inversion Hk. Qed.

Lemma up_once (source : list row) : current_rows_of db source ->
  reads_rows (build_backward_one_hop None source) (fun rows =>
    (forall r, r ∈ rows -> exists d, find_row db (s_key r) = Some d /\ same_element d r /\
       exists s, s ∈ source /\ (loose s (s_key r) \/
         exists w, loose s (WAY, w) /\ maybe_parent None (WAY, w) (s_key r))) /\
    (forall s k d, s ∈ source -> s_type s ∈ element_types -> find_row db k = Some d ->
       parent None (s_key s) k \/ (exists w, parent None (s_key s) (WAY, w) /\ parent None (WAY, w) k) ->
       exists r, r ∈ rows /\ same_element d r)).
Proof.
  intros Hcur. unfold build_backward_one_hop. pose proof (keeps_all (snap := None) (db := db)) as Hall.
  pose proof (compiles_nil (snap := None) (db := db) (keeps := keeps)) as Hnil.
  eapply reads_rows_bind; [apply backward_law; intros _; by apply current_known|].
  intros hop [H1 H2].
  assert (Hsrc : forall p, p ∈ hop_keys hop -> exists s, s ∈ source /\ loose s p).
  { intros p Hp. destruct (H2 p Hp) as (_ & s & (r & -> & Hr)%elem_of_map & _ & Hm). by exists r. }
  assert (Hall1 : forall s p, s ∈ source -> s_type s ∈ element_types -> parent None (s_key s) p -> p ∈ hop_keys hop).
  { intros s p Hs Ht Hp. apply (H1 (of_row s) p); [by apply elem_of_map_2|done|done|done]. }
  destruct hop as [hop|].
  2: { apply reads_rows_ret. split; [by intros r Hr%elem_of_nil|]. intros s k d Hs Ht Hd Hk. exfalso.
       destruct Hk as [Hp|(w & Hw & _)]; [pose proof (Hall1 s k Hs Ht Hp) as Hin|pose proof (Hall1 s _ Hs Ht Hw) as Hin]; by inversion Hin. }
  eapply reads_rows_bind; [apply (backward_law (map of_idrow hop) (Some [WAY]) None); intros Hn; by vm_compute in Hn|].
  intros extra [E1 E2].
  change (hop_keys (Some hop)) with (map i_key hop) in *.
  set (all := match extra with Some rels => remove_dups (hop ++ rels) | None => hop end).
  assert (Hkeys : forall k, k ∈ map i_key all <-> k ∈ map i_key hop \/ k ∈ hop_keys extra).
  { intros k. unfold all, hop_keys. destruct extra as [rels|].
    - change (default [] (Some rels)) with rels. rewrite <- elem_of_app, <- map_app, !elem_of_map.
      by setoid_rewrite elem_of_remove_dups.
    - split; [by left|]. intros [?|Hk]; [done|by inversion Hk]. }
  clearbody all. pose proof H2 as H2'.
  assert (Htypes : forall k, k ∈ map i_key all -> k.1 ∈ element_types).
  { intros k Hk. apply elem_of_element_types. apply Hkeys in Hk as [Hk|Hk]; [destruct (H2 k Hk) as [? _]|destruct (E2 k Hk) as [? _]]; tauto. }
  eapply reads_rows_bind; [by apply (hydrate_ids_table_exact keeps None db)|].
  intros rows [[X1 X2] _]. apply reads_rows_ret. split.
  - intros r Hr. destruct (X1 r Hr) as (d & Hd & Hs & Hk & _). exists d. split_and!; [done|done|].
    apply Hkeys in Hk as [Hk|Hk].
    + destruct (Hsrc _ Hk) as (s & Hsin & Hl). exists s. auto.
    + destruct (E2 _ Hk) as (_ & s0 & (x & -> & Hx)%elem_of_map & Ha & Hm).
      assert (Et : i_type x = WAY).
      { cbn [of_idrow l_type allowed] in Ha. apply str_in_spec, list_elem_of_singleton in Ha. done. }
      destruct (Hsrc (i_key x)) as (s & Hsin & Hl); [by apply elem_of_map_2|]. exists s. split; [done|]. right. exists (i_id x).
      unfold i_key, l_key, of_idrow in *. cbn [l_type l_id] in *. rewrite Et in *. auto.
  - intros s k d Hs Ht Hd Hk. apply (X2 k d Hd). split_and!; [|done|apply Hall]. apply Hkeys.
    destruct Hk as [Hp|(w & Hw & Hp)]; [left; by apply (Hall1 s)|right].
    pose proof (Hall1 s _ Hs Ht Hw) as Hin. apply elem_of_map in Hin as (x & Ex & Hx).
    assert (Ex' : i_type x = WAY /\ i_id x = w) by (unfold i_key in Ex; by injection Ex).
    destruct Ex' as [Et Ei]. apply (E1 (of_idrow x) k).
    + by apply elem_of_map_2.
    + cbn [of_idrow l_type]. rewrite Et. by vm_compute.
    + cbn [of_idrow l_type]. rewrite Et. apply elem_of_element_types. auto.
    + unfold l_key. cbn [of_idrow l_type l_id]. by rewrite Et, Ei.
Qed.
End Up.
