(* ===== verification/PlannerSem.v ===== *)
(** What a program means, without rows, files or tables: every set is a finite
    set of elements (type, id) of a database.

    The relation [means] covers queries by box, id, tag, input set and recurse
    filter, unions, differences, the four recursions, items, [foreach] and
    [out]; it says which sets there are afterwards and which set each [out]
    shows.  [PlannerRefines.v] proves that [execute_statement] does this. *)
From S2P Require Import Prelude PyStr PyFloat QlAst SqlExpr Schema Cells Sources SetTables RowSources Recurse RecurseFacts MetaFilters TagSql Planner.

Abbreviation key := (pystr * Z)%type.
(** [ORDER BY type, id] *)
Definition key_le (a b : key) : Prop :=
  negb (a.1 =s b.1) && str_leb a.1 b.1 || (a.1 =s b.1) && (a.2 <=? b.2) = true.
Abbreviation store := (gmap pystr (gset key)).
(** The sets shown, in order. *)
Abbreviation trace := (list (Out * gset key)).

Section Meaning.
Context {G : Type} `{Compiles G} (db : database G) (keeps : list TagFilter -> set_row G -> bool).
(** The elements a box selects. *)
Context (inside : option BBox -> key -> set_row G -> Prop) (global_bbox : option BBox).
Abbreviation row := (set_row G).

(** * Relations between elements *)
Definition exists_ (k : key) : Prop := is_Some (find_row db k).
(** [j] refers to [k], by a node of a way or a member, of a role if given. *)
Definition ref (role : option pystr) (j k : key) : Prop := exists d, find_row db j = Some d /\ refers_as role d k.

(** [n] steps, through elements that exist. *)
Inductive reach (step : key -> key -> Prop) : nat -> key -> key -> Prop :=
  | reach_one j k : step j k -> reach step 1 j k
  | reach_step n j i k : step j i -> exists_ i -> reach step n i k -> reach step (S n) j k.

(** ** What a recursion finds *)
Definition recursed (kind : recurse_kind) (X : gset key) (k : key) : Prop :=
  match kind with
  | RDown =>
      exists j, j ∈ X /\ (ref None j k /\ k.1 <> RELATION \/ exists w, ref None j (WAY, w) /\ ref None (WAY, w) k)
  | RUp => exists j, j ∈ X /\ (ref None k j \/ exists w, ref None (WAY, w) j /\ ref None k (WAY, w))
  | RDownDown =>
      k ∉ X /\ (exists n j, (n <= max_hops)%nat /\ j ∈ X /\ reach (ref None) n j k) \/ k ∈ X /\ k.1 = RELATION
  | RUpUp => k ∉ X /\ exists n j, (n <= max_hops)%nat /\ j ∈ X /\ reach (fun c p => ref None p c) n j k
  end.

(** ** What a recurse filter selects from *)
Definition filter_hop (kind : recurse_filter_kind) (role : option pystr) (X : gset key) (k : key) : Prop :=
  match kind with
  | RK_w => exists j, j ∈ X /\ j.1 = WAY /\ ref None j k
  | RK_r => exists j, j ∈ X /\ j.1 = RELATION /\ ref role j k
  | RK_bn => exists j, j ∈ X /\ j.1 = NODE /\ ref role k j
  | RK_bw => exists j, j ∈ X /\ j.1 = WAY /\ ref role k j
  | RK_br => exists j, j ∈ X /\ j.1 = RELATION /\ ref role k j
  end.
(** * Queries *)
(** The elements of the types and ids asked for that pass the tag filters. *)
Definition asked (q : Query) (k : key) (d : row) : Prop :=
  k.1 ∈ q_types q /\ keeps (_tag_filters_for (q_filters q)) d = true.
Definition of_ids (q : Query) (i : Z) : Prop := ids_where (_ids_for (q_filters q)) i = true.
(** The test of a box on the elements of a set. *)
Definition in_set_box (b : option BBox) (d : row) : Prop := exists f : row -> bool, set_box_where b = Ok f /\ f d = true.

(** [selected A q k d]: the query selects the element [d], which is [k].  A
    recurse filter, the first one, makes the code ignore boxes, ids and input
    sets; a set counts for its elements, which the box tests by their boxes. *)
Definition selected (A : store) (q : Query) (k : key) (d : row) : Prop :=
  let bbox := _bbox_for (q_filters q) global_bbox in
  is_empty_bbox bbox = false /\ asked q k d /\
  match _recurse_filters_for (q_filters q), q_input_sets q with
  | (kind, n, role) :: _, _ => exists X, A !! n = Some X /\ filter_hop kind role X k
  | [], _ :: _ => of_ids q k.2 /\ in_set_box bbox d /\ (forall n, n ∈ q_input_sets q -> exists X, A !! n = Some X /\ k ∈ X)
  | [], [] => of_ids q k.2 /\ inside bbox k d
  end.

(** The sets a query reads. *)
Definition query_sources (q : Query) : list pystr :=
  match _recurse_filters_for (q_filters q) with (_, n, _) :: _ => [n] | [] => q_input_sets q end.

(** A scan of the node table leaves the files of untagged nodes out unless all
    its filters are negative: no untagged node may pass the others.  (One with
    [!~] among its negative filters is misread, [TagSqlFacts.not_match_untagged].) *)
Definition untagged_covered (fs : list TagFilter) : Prop :=
  is_negative_only fs = true \/ forall r : row, default [] (s_tags r) = [] -> keeps fs r = false.

(** The filters and types of the queries [means] is about; the patterns of
    their filters compile. *)
Definition plain (q : Query) : Prop :=
  compiles G (_tag_filters_for (q_filters q)) = true /\
  (NODE ∈ q_types q -> query_sources q = [] -> untagged_covered (_tag_filters_for (q_filters q))) /\
  Forall (fun t => t ∈ element_types) (q_types q) /\
  Forall (fun f => is_core f = true) (q_filters q) /\
  NoDup (map fold_name (q_input_sets q)) /\
  (exists f : row -> bool, set_box_where (_bbox_for (q_filters q) global_bbox) = Ok f).

(** * Statements *)
Inductive means : store -> statement -> trace -> store -> Prop :=
  | means_query A q X :
      plain q -> (is_empty_bbox (_bbox_for (q_filters q) global_bbox) = false ->
                  forall n, n ∈ query_sources q -> is_Some (A !! n)) ->
      (forall k, k ∈ X <-> exists d, find_row db k = Some d /\ selected A q k d) ->
      means A (SQuery q) [] (<[q_output_set q := X]> A)
  | means_union A l o tr A' Xs :
      means_parts A l tr A' Xs -> means A (SUnion l o) tr (<[o := ⋃ Xs]> A')
  | means_difference A a b o tr A' X Y :
      means_parts A [a; b] tr A' [X; Y] -> means A (SDifference a b o) tr (<[o := X ∖ Y]> A')
  | means_recurse A kind i o X Y :
      A !! i = Some X -> (forall k, k ∈ Y <-> exists_ k /\ recursed kind X k) ->
      means A (SRecurse kind i o) [] (<[o := Y]> A)
  | means_item A i o X : A !! i = Some X -> means A (SItem i o) [] (<[o := X]> A)
  | means_out A o X : A !! o_input_set o = Some X -> means A (SOut o) [(o, X)] A
  | means_foreach A i o l X ks tr A' :
      A !! i = Some X -> (forall k, k ∈ ks <-> k ∈ X) -> NoDup ks -> StronglySorted key_le ks ->
      means_each A o l ks tr A' -> means A (SForeach i o l) tr A'
(** One statement after the other, and the sets they put out. *)
with means_parts : store -> list statement -> trace -> store -> list (gset key) -> Prop :=
  | parts_nil A : means_parts A [] [] A []
  | parts_cons A st o tr A' X l tr' A'' Xs :
      means A st tr A' -> output_set st = Some o -> A' !! o = Some X -> means_parts A' l tr' A'' Xs ->
      means_parts A (st :: l) (tr ++ tr') A'' (X :: Xs)
with means_all : store -> list statement -> trace -> store -> Prop :=
  | all_nil A : means_all A [] [] A
  | all_cons A st tr A' l tr' A'' : means A st tr A' -> means_all A' l tr' A'' -> means_all A (st :: l) (tr ++ tr') A''
(** The body, once for every element. *)
with means_each : store -> pystr -> list statement -> list key -> trace -> store -> Prop :=
  | each_nil A o l : means_each A o l [] [] A
  | each_cons A o l k ks tr A' tr' A'' :
      means_all (<[o := {[k]}]> A) l tr A' -> means_each A' o l ks tr' A'' -> means_each A o l (k :: ks) (tr ++ tr') A''.
End Meaning.

Scheme means_mut := Minimality for means Sort Prop
  with parts_mut := Minimality for means_parts Sort Prop
  with all_mut := Minimality for means_all Sort Prop
  with each_mut := Minimality for means_each Sort Prop.
Combined Scheme means_mutind from means_mut, parts_mut, all_mut, each_mut.
