(* ===== verification/PlannerFacts.v ===== *)
(** Facts about the planner: what every statement leaves alone, whether it
    returns or raises, and the scope of [retro].

    Computations of the planner that return, the names of the tables it makes
    for itself, and the tables that stand for a set of elements. *)
From S2P Require Import Prelude PyStr PyFloatFacts QlAst Evaluator Json Cells Catalog Sql PyTime SqlExpr Schema PyFloat EvalSql.
From S2P Require Import EvalSet SetTables EvalSetFacts RowSources MetaFilters Recurse Sources Planner RecurseFacts PlannerSem.

(** * Induction on statements *)
Section Induction.
Context (P : statement -> Prop).
Context (Pquery : forall q, P (SQuery q)) (Punion : forall l o, Forall P l -> P (SUnion l o))
  (Pdifference : forall a b o, P a -> P b -> P (SDifference a b o)) (Precurse : forall k i o, P (SRecurse k i o))
  (Pitem : forall i o, P (SItem i o)) (Pisin : forall a b c, P (SIsIn a b c)) (Pmap : forall i o, P (SMapToArea i o))
  (Pout : forall o, P (SOut o)) (Pforeach : forall i o l, Forall P l -> P (SForeach i o l))
  (Pif : forall c a b, Forall P a -> Forall P b -> P (SIf c a b)) (Pretro : forall t l, Forall P l -> P (SRetro t l))
  (Ptimeline : forall t i v o, P (STimeline t i v o)) (Punsupported : forall k p, P (SUnsupported k p)).

Lemma statement_nested_ind : forall st, P st.
Proof.
  fix IH 1. intros [q|l o|a b o|k i o|i o|a b c|i o|o|i o l|c a b|t l|t i v o|k p].
  - apply Pquery.
  - apply Punion. induction l; constructor; auto.
  - by apply Pdifference.
  - apply Precurse.
  - apply Pitem.
  - apply Pisin.
  - apply Pmap.
  - apply Pout.
  - apply Pforeach. induction l; constructor; auto.
  - apply Pif; [induction a|induction b]; constructor; auto.
  - apply Pretro. induction l; constructor; auto.
  - apply Ptimeline.
  - apply Punsupported.
Qed.
End Induction.

(** * Frames *)
(** A computation goes from a state to a related one, whatever its outcome. *)
Definition steps {G A} (R : state G -> state G -> Prop) (m : M G A) : Prop := forall s, R s (m s).2.

Section Steps.
Context {G : Type} (R : state G -> state G -> Prop) `{!PreOrder R}.

Lemma steps_ret {A} (a : A) : steps R (ret a).
Proof. by intros s. Qed.
Lemma steps_lift {A} (m : res A) : steps R (lift m).
Proof. by intros s. Qed.
Lemma steps_get {A} (f : state G -> A) : steps R (get f).
Proof. by intros s. Qed.
Lemma steps_modify f : (forall s, R s (f s)) -> steps R (modify f).
Proof. intros Hf s. apply Hf. Qed.
Lemma steps_bind {A B} (m : M G A) (k : A -> M G B) : steps R m -> (forall a, steps R (k a)) -> steps R (bind m k).
Proof.
  intros Hm Hk s. specialize (Hm s). unfold bind. destruct (m s) as [[a|e] s'] eqn:E; [|done].
  etrans; [exact Hm|apply Hk].
Qed.
Lemma steps_each {A} (f : A -> M G ()) l : Forall (fun x => steps R (f x)) l -> steps R (each f l).
Proof. induction 1; cbn [each]; [apply steps_ret|]. by apply steps_bind. Qed.
Lemma steps_collect {A B} (f : A -> M G B) l : Forall (fun x => steps R (f x)) l -> steps R (collect f l).
Proof.
  induction 1; cbn [collect]; [apply steps_ret|]. apply steps_bind; [done|]. intros ?.
  apply steps_bind; [done|]. intros ?. apply steps_ret.
Qed.
End Steps.
Create HintDb steps discriminated.
#[export] Hint Resolve steps_ret steps_lift steps_get : steps.
(** The tables are told apart by DuckDB. *)
Definition distinct {G} (s : state G) : Prop := NoDup (map (fold_name ∘ fst) (sets s)).

(** What no statement undoes: the snapshot it runs under, the elements already
    given out, the warnings, the fresh names taken. *)
Record frame {G} (s s' : state G) : Prop := {
  frame_snapshot : SNAPSHOT s' = SNAPSHOT s;
  frame_elements : elements s `prefix_of` elements s';
  frame_warnings : warnings s `prefix_of` warnings s';
  frame_counter : counter s <= counter s';
  frame_distinct : distinct s -> distinct s'
}.
#[export] Instance frame_preorder {G} : PreOrder (@frame G).
Proof.
  split.
  - intros s. split; done || lia.
  - intros a b c [A1 A2 A3 A4 A5] [B1 B2 B3 B4 B5].
    split; [congruence|by etrans|by etrans|lia|auto].
Qed.

(** * Restoring the sets of a block *)
Section Restore.
Context {G : Type}.
Abbreviation sets_t := (list (pystr * list (set_row G))).
Abbreviation folds l := (map (fold_name ∘ fst) l).

Lemma from_create n x rows (t : sets_t) :
  from_set n (create_or_replace x rows t) = if fold_name x =s fold_name n then Ok rows else from_set n t.
Proof.
  unfold from_set, create_or_replace. cbn [List.find fst].
  destruct (fold_name x =s fold_name n) eqn:E; [done|].
  induction t as [|[y ys] t IH]; [done|]. rewrite filter_cons. cbn [fst]. case_decide as Hd.
  - cbn [List.find fst]. by destruct (fold_name y =s fold_name n).
  - cbn [List.find fst]. destruct (fold_name y =s fold_name n) eqn:Ey; [|done].
    exfalso. apply Hd. apply str_eqb_eq in Ey as ->. by apply str_eqb_neq, not_eq_sym, str_eqb_neq.
Qed.

Lemma from_set_Ok n (t : sets_t) rows : from_set n t = Ok rows -> exists x, (x, rows) ∈ t /\ fold_name x = fold_name n.
Proof.
  unfold from_set. destruct (List.find _ t) as [[x xs]|] eqn:E; [|done]. intros [= <-].
  apply find_some in E as [Hin%list_elem_of_In Hx%str_eqb_eq]. by exists x.
Qed.
Lemma from_set_Raise n (t : sets_t) : (forall x, x ∈ folds t -> x <> fold_name n) -> from_set n t = Raise DuckDBError.
Proof.
  unfold from_set. intros Hn. destruct (List.find _ t) as [[x xs]|] eqn:E; [|done]. exfalso.
  apply find_some in E as [Hin%list_elem_of_In Hx%str_eqb_eq]. apply (Hn (fold_name n)); [|done].
  rewrite <- Hx. by apply (elem_of_map_2 (fold_name ∘ fst) _ (x, xs)).
Qed.
Lemma from_set_member n x rows (t : sets_t) : NoDup (folds t) -> (x, rows) ∈ t -> fold_name x = fold_name n ->
  from_set n t = Ok rows.
Proof.
  unfold from_set. induction t as [|[y ys] t IH]; [by intros _ ?%elem_of_nil|]. cbn [map List.find fst].
  intros [Hy Ht]%NoDup_cons [[= -> ->]|Hin]%elem_of_cons Hx.
  - by rewrite Hx, str_eqb_refl.
  - destruct (fold_name y =s fold_name n) eqn:E; [|by apply IH]. exfalso. apply Hy. apply str_eqb_eq in E.
    change ((fold_name ∘ fst) (y, ys)) with (fold_name y). rewrite E, <- Hx.
    by apply (elem_of_map_2 (fold_name ∘ fst) _ (x, rows)).
Qed.

(** The tables of the block that were not there are emptied... *)
Lemma from_emptied (saved : sets_t) n names : forall t : sets_t,
  from_set n (fold_left (fun t n => if table_exists n saved then t else create_or_replace n [] t) names t) =
  if existsb (fun x => negb (table_exists x saved) && (fold_name x =s fold_name n)) names then Ok [] else from_set n t.
Proof.
  induction names as [|x names IH]; [done|]. intros t. cbn [fold_left existsb]. rewrite IH.
  destruct (existsb _ names); [by rewrite orb_true_r|]. rewrite orb_false_r.
  destruct (table_exists x saved); [done|]. cbn [negb andb]. apply from_create.
Qed.
(** ... and the others are put back. *)
Lemma from_put_back n (saved : sets_t) : NoDup (folds saved) -> forall t : sets_t,
  from_set n (fold_left (fun t x => create_or_replace x.1 x.2 t) saved t) =
  match from_set n saved with Ok rows => Ok rows | Raise _ => from_set n t end.
Proof.
  induction saved as [|[x xs] saved IH]; [done|]. cbn [map fold_left fst snd]. intros [Hx Hs]%NoDup_cons t.
  rewrite IH by done. unfold from_set at 3. cbn [List.find fst]. fold (from_set n saved).
  destruct (fold_name x =s fold_name n) eqn:E.
  - rewrite (from_set_Raise n saved); [by rewrite from_create, E|]. intros y Hy ->. apply Hx. apply str_eqb_eq in E.
    by change ((fold_name ∘ fst) (x, xs)) with (fold_name x); rewrite E.
  - change (match List.find (fun t0 => fold_name t0.1 =s fold_name n) saved with
            | Some t0 => Ok t0.2 | None => Raise DuckDBError end) with (from_set n saved).
    destruct (from_set n saved); [done|]. by rewrite from_create, E.
Qed.

Lemma from_restore n (saved now : sets_t) : NoDup (folds saved) ->
  from_set n (restore_sets saved now) =
  match from_set n saved, from_set n now with
  | Ok rows, _ => Ok rows
  | Raise _, Ok _ => Ok []
  | Raise _, Raise e => Raise e
  end.
Proof.
  intros Hs. unfold restore_sets. rewrite from_put_back by done. destruct (from_set n saved) as [|e] eqn:Es; [done|].
  rewrite from_emptied. destruct (existsb _ _) eqn:Ee.
  - apply existsb_exists in Ee as (x & Hx%list_elem_of_In & [_ Hf%str_eqb_eq]%andb_true_iff).
    apply elem_of_map in Hx as ([y ys] & -> & Hy). cbn [fst] in Hf.
    destruct (from_set n now) eqn:En; [done|]. exfalso. unfold from_set in En.
    destruct (List.find _ now) eqn:Ef; [done|]. apply list_elem_of_In, (List.find_none _ _ Ef) in Hy.
    cbn [fst] in Hy. by rewrite Hf, str_eqb_refl in Hy.
  - destruct (from_set n now) as [rows|] eqn:En; [|done]. exfalso. apply from_set_Ok in En as (x & Hx & Hf).
    apply not_true_iff_false in Ee. apply Ee, existsb_exists. exists x. split.
    { apply list_elem_of_In. by apply (elem_of_map_2 fst _ (x, rows)). }
    rewrite Hf, str_eqb_refl, andb_true_r. apply negb_true_iff. unfold table_exists.
    destruct (find_set x saved) as [r|] eqn:Er; [|done]. exfalso.
    apply find_set_from in Er; [|done]. unfold from_set in Es, Er. rewrite Hf in Er. by rewrite Es in Er.
Qed.

(** The program finds a table under the name it was made with. *)
Lemma exists_restore n (saved now : sets_t) : NoDup (folds saved) -> table_exists n saved = true ->
  find_set n (restore_sets saved now) = find_set n saved.
Proof.
  intros Hs. unfold restore_sets, table_exists.
  set (t := fold_left _ (map fst now) now). clearbody t. revert t.
  induction saved as [|[x xs] saved IH]; [done|]. cbn [map fold_left fst snd find_set]. apply NoDup_cons in Hs as [Hx Hs].
  intros t. destruct (x =s n) eqn:E.
  - intros _. apply str_eqb_eq in E as ->. clear IH Hs.
    assert (Hkeep : forall t', find_set n t' = Some xs ->
      find_set n (fold_left (fun t0 x0 => create_or_replace x0.1 x0.2 t0) saved t') = Some xs).
    { induction saved as [|[y ys] saved IH]; [done|]. intros t' Ht. cbn [fold_left fst snd]. cbn [map] in Hx.
      apply not_elem_of_cons in Hx as [Hy Hx]. apply IH; [done|]. by rewrite find_create_ne. }
    apply Hkeep. apply find_create.
  - intros He. by apply IH.
Qed.

Lemma restore_distinct (saved now : sets_t) : NoDup (folds now) -> NoDup (folds (restore_sets saved now)).
Proof.
  intros Hn. unfold restore_sets.
  assert (He : forall names (t : sets_t), NoDup (folds t) ->
    NoDup (folds (fold_left (fun t n => if table_exists n saved then t else create_or_replace n [] t) names t))).
  { induction names as [|x names IH]; [done|]. intros t Ht. cbn [fold_left]. apply IH.
    destruct (table_exists x saved); [done|]. by apply create_names. }
  specialize (He (map fst now) now Hn). revert He. generalize (fold_left
    (fun t n => if table_exists n saved then t else create_or_replace n [] t) (map fst now) now).
  induction saved as [|[x xs] saved IH]; [done|]. intros t Ht. cbn [fold_left fst snd]. apply IH. by apply create_names.
Qed.
End Restore.

(** * Every statement stays in a closed relation *)
(** The names of the sets a statement writes. *)
Fixpoint outputs (st : statement) : list pystr :=
  let all := fix all l := match l with [] => [] | st :: l => outputs st ++ all l end in
  match st with
  | SQuery q => [q_output_set q]
  | SUnion l o => o :: all l
  | SDifference a b o => o :: outputs a ++ outputs b
  | SRecurse _ _ o | SItem _ o | SIsIn _ o _ | SMapToArea _ o | STimeline _ _ _ o => [o]
  | SOut _ | SUnsupported _ _ => []
  | SForeach _ o l => o :: all l
  | SIf _ a b => all a ++ all b
  | SRetro _ l => all l
  end.
Definition all_outputs (l : list statement) : list pystr := flat_map outputs l.
Lemma outputs_list l : (fix all l := match l with [] => [] | st :: l => outputs st ++ all l end) l = all_outputs l.
Proof. induction l as [|st l IH]; [done|]. cbn. by rewrite IH. Qed.

(** [R] contains every small step that writes a set whose name is [ok]. *)
Class Closed {G} (R : state G -> state G -> Prop) (ok : pystr -> Prop) : Prop := {
  #[global] closed_preorder :: PreOrder R;
  closed_files : forall n s, R s (with_files_read n s);
  closed_versions : forall v s, R s (with_versions v s);
  closed_warn : forall w s, R s (with_warnings (warnings s ++ w) s);
  closed_out : forall els s, R s (with_elements (elements s ++ els) s);
  closed_table : forall x rows s, ok x -> R s (with_sets (create_or_replace x rows (sets s)) s);
  closed_fresh : forall A p (k : pystr -> M G A), p ∈ [u "part"; u "foreach"] ->
    (forall n, ok n -> steps R (k n)) -> steps R (bind (fresh_name p) k);
  closed_scope : forall t body, steps R body -> steps R (retro_body t body)
}.

(** The structure of a computation. *)
Ltac steps_go :=
  repeat match goal with
  | |- forall _, _ => intros ?
  | |- steps _ (bind (fresh_name _) _) => apply closed_fresh; [solve [left|right; left]|]
  | |- steps _ (bind _ _) => apply steps_bind; [typeclasses eauto| |]
  | |- steps _ (each _ _) => apply steps_each; [typeclasses eauto|]; try (apply Forall_forall; intros ? _)
  | |- steps _ (collect _ _) => apply steps_collect; [typeclasses eauto|]; try (apply Forall_forall; intros ? _)
  | |- steps _ (match ?x with _ => _ end) => destruct x
  | |- steps _ (let (_, _) := ?x in _) => destruct x
  | |- steps _ _ => first [solve [eauto with steps typeclass_instances] | progress cbn beta zeta]
  end.

Section Frame.
Context `{UnicodeDB} {G : Type} `{DuckDB G} `{RowChoice G} `{RowSources G} `{Renderer G} `{AreaHooks G}.
Context (m : Catalog.Manifest) (global_bbox : option BBox) (areas_used diff_mode : bool).
Context (R : state G -> state G -> Prop) (ok : pystr -> Prop) `{!Closed R ok}.

Lemma steps_add_files n : steps R (add_files n).
Proof. apply steps_modify. intros s. apply closed_files. Qed.
Lemma steps_warn w : steps R (warn w).
Proof. apply steps_modify. intros s. apply closed_warn. Qed.
Lemma steps_materialize n rows : ok n -> steps R (materialize_set n rows).
Proof. intros. apply steps_modify. intros s. by apply closed_table. Qed.
Lemma steps_copy n rows : ok n -> steps R (copy_set n rows).
Proof. intros. apply steps_modify. intros s. by apply closed_table. Qed.
Lemma steps_read_rows {A} (r : reads A) : steps R (read_rows r).
Proof. unfold read_rows. pose proof steps_add_files. steps_go. Qed.
Lemma steps_run_hook {A} (r : res (A * Z * list pystr)) : steps R (run_hook r).
Proof.
  unfold run_hook. pose proof steps_add_files. steps_go. apply steps_modify. intros s. apply closed_warn.
Qed.
Lemma steps_warn_once w : steps R (warn_once w).
Proof.
  destruct w; [|apply steps_ret; typeclasses eauto]. apply steps_modify. intros s. case_match; [done|apply closed_warn].
Qed.
Hint Resolve steps_add_files steps_warn steps_materialize steps_copy steps_read_rows steps_run_hook steps_warn_once : steps.

Lemma steps_require_set n : steps R (require_set n).
Proof. unfold require_set. steps_go. Qed.
Lemma steps_read_set n : steps R (read_set n).
Proof. unfold read_set. steps_go. Qed.
Hint Resolve steps_require_set steps_read_set : steps.

Lemma steps_effective_bbox q : steps R (_effective_bbox global_bbox q).
Proof.
  unfold _effective_bbox. generalize (_bbox_for (q_filters q) global_bbox).
  induction (q_filters q) as [|f fs IH]; intros b; cbn [effective_bbox].
  - steps_go.
  - assert (steps R (implied_bbox q f)) by (unfold implied_bbox; steps_go). steps_go.
Qed.
Lemma steps_predicate q rows f : steps R (predicate m global_bbox q rows f).
Proof. unfold predicate, meta_predicate, changed_predicate, if_predicate. steps_go. Qed.
Hint Resolve steps_effective_bbox steps_predicate : steps.

Lemma steps_recurse_ids k n r : steps R (_recurse_filter_ids_table k n r).
Proof. unfold _recurse_filter_ids_table. steps_go. Qed.
Hint Resolve steps_recurse_ids : steps.
Lemma steps_query_rows q b : steps R (query_rows q b).
Proof. unfold query_rows, recurse_filter_rows, read_input. steps_go. Qed.
Hint Resolve steps_query_rows : steps.
Lemma steps_area_rows st : steps R (area_rows st).
Proof. unfold area_rows. steps_go. Qed.
Hint Resolve steps_area_rows : steps.
Lemma steps_query q : ok (q_output_set q) -> steps R (execute_query m global_bbox q).
Proof. intros. unfold execute_query. steps_go. Qed.
Lemma steps_recurse k i o : ok o -> steps R (execute_recurse k i o).
Proof. intros. unfold execute_recurse. steps_go. Qed.
Lemma steps_item i o : ok o -> steps R (execute_item i o).
Proof. intros. unfold execute_item. steps_go. Qed.
Lemma steps_out o : steps R (execute_out areas_used diff_mode o).
Proof.
  unfold execute_out. steps_go; apply steps_modify; intros s; [apply closed_out|apply closed_versions].
Qed.
Lemma steps_timeline t i v o : ok o -> steps R (execute_timeline m t i v o).
Proof. intros. unfold execute_timeline, require_history. steps_go. Qed.

Lemma steps_capture run st : steps R (run st) -> steps R (_execute_and_capture run st).
Proof.
  intros Hr. unfold _execute_and_capture. steps_go.
Qed.
Lemma steps_union run l o : ok o -> Forall (fun st => steps R (run st)) l -> steps R (execute_union run l o).
Proof.
  intros Ho Hl. unfold execute_union. apply steps_bind; [typeclasses eauto| |steps_go].
  apply steps_collect; [typeclasses eauto|]. eapply Forall_impl; [exact Hl|]. intros st. apply steps_capture.
Qed.
Lemma steps_difference run a b o : ok o -> steps R (run a) -> steps R (run b) -> steps R (execute_difference run a b o).
Proof.
  intros Ho Ha Hb. pose proof (steps_capture run a Ha). pose proof (steps_capture run b Hb).
  unfold execute_difference. steps_go.
Qed.
Lemma steps_foreach body i o : ok o -> steps R body -> steps R (_run_foreach body i o).
Proof.
  intros Ho Hb. unfold _run_foreach. steps_go.
Qed.
Lemma steps_if a b c : steps R a -> steps R b -> steps R (_run_if a b c).
Proof. intros Ha Hb. unfold _run_if. steps_go. Qed.
Lemma steps_retro body time : steps R body -> steps R (execute_retro m body time).
Proof. intros Hb. pose proof closed_scope. unfold execute_retro, require_history, evaluate_retro_time. steps_go. Qed.

Lemma steps_all_statements (run : statement -> M G ()) l :
  Forall (fun st => Forall ok (outputs st) -> steps R (run st)) l -> Forall ok (all_outputs l) ->
  Forall (fun st => steps R (run st)) l.
Proof. induction 1; [done|]. cbn [all_outputs flat_map]. intros [? ?]%Forall_app. constructor; auto. Qed.

Lemma steps_statement st : Forall ok (outputs st) ->
  steps R (execute_statement m global_bbox areas_used diff_mode st).
Proof.
  induction st as [q|l o IH|a b o IHa IHb|k i o|i o|a b c|i o|o|i o l IH|c a b IHa IHb|t l IH|t i v o|k p]
    using statement_nested_ind; cbn [execute_statement outputs]; rewrite ?outputs_list; intros Hok.
  - apply steps_query. by inversion Hok.
  - apply Forall_cons in Hok as [? ?]. apply steps_union; [done|]. by apply steps_all_statements.
  - apply Forall_cons in Hok as [? [? ?]%Forall_app]. apply steps_difference; auto.
  - apply steps_recurse. by inversion Hok.
  - apply steps_item. by inversion Hok.
  - inversion Hok. steps_go.
  - inversion Hok. steps_go.
  - apply steps_out.
  - apply Forall_cons in Hok as [? ?]. apply steps_foreach; [done|].
    apply steps_each; [typeclasses eauto|]. by apply steps_all_statements.
  - apply Forall_app in Hok as [? ?]. apply steps_if; (apply steps_each; [typeclasses eauto|]; by apply steps_all_statements).
  - apply steps_retro. apply steps_each; [typeclasses eauto|]. by apply steps_all_statements.
  - apply steps_timeline. by inversion Hok.
  - apply steps_lift. typeclasses eauto.
Qed.
Lemma steps_statements l : Forall ok (all_outputs l) ->
  steps R (each (execute_statement m global_bbox areas_used diff_mode) l).
Proof.
  intros Hok. apply steps_each; [typeclasses eauto|]. apply steps_all_statements; [|done].
  apply Forall_forall. intros st _. apply steps_statement.
Qed.
End Frame.

(** The frame is closed, whatever the names. *)
#[export] Instance frame_closed {G} : Closed (@frame G) (fun _ => True).
Proof.
  split; try typeclasses eauto.
  - by split.
  - by split.
  - intros w s. split; try done. by apply prefix_app_r.
  - intros els s. split; try done. by apply prefix_app_r.
  - intros x rows s _. split; try done. apply create_names.
  - intros A p k _ Hk. apply steps_bind; [typeclasses eauto| |auto]. intros s. split; cbn; done || lia.
  - intros t body Hb s. unfold retro_body, finally, bind, get, modify. cbn beta iota.
    destruct (Hb (with_snapshot (Some t) s)) as [B1 B2 B3 B4 B5]. destruct (body _) as [r s'].
    cbn [snd] in *. split; [done..|]. intros Hd. apply restore_distinct. by apply B5.
Qed.

Section Program.
Context `{UnicodeDB} {G : Type} `{DuckDB G} `{RowChoice G} `{RowSources G} `{Renderer G} `{AreaHooks G}.
Context (m : Catalog.Manifest).
Abbreviation fr := (@frame G).

Lemma steps_program_body p diff_mode : steps fr (run_program_body m p diff_mode).
Proof.
  unfold run_program_body. apply steps_bind; [typeclasses eauto|apply steps_lift; typeclasses eauto|]. intros _.
  apply steps_bind; [typeclasses eauto|apply steps_modify; intros s; by apply (closed_table (R := frame))|]. intros _ s.
  set (body := each _ _).
  assert (Hb : steps fr body).
  { apply (steps_statements _ _ _ _ _ (fun _ => True)). by apply Forall_true. }
  clearbody body. unfold bind at 1, get. destruct (date (settings p)) as [d|], (SNAPSHOT s) eqn:Es; try apply Hb.
  unfold lift, bind at 1. destruct (parse_date d) as [t|e]; [|done].
  unfold bind at 1. destruct (history_remark m t) as [w|e]; [|done].
  assert (Hw : fr s (match w with Some w => warn w | None => ret () end s).2).
  { destruct w; [by apply (steps_warn _ (fun _ => True))|done]. }
  unfold bind at 1. destruct (match w with Some w => warn w | None => ret () end s) as [[[]|e] s'] eqn:Ew; [|done].
  etrans; [exact Hw|]. cbn [snd]. unfold bind, modify, finally.
  destruct (Hb (with_snapshot (Some t) s')) as [B1 B2 B3 B4 B5]. destruct (body _) as [r s2]. cbn [snd] in *.
  split; try done. cbn. rewrite (frame_snapshot _ _ Hw). done.
Qed.

Lemma steps_program p : steps fr (run_program m p).
Proof. unfold run_program. pose proof (steps_program_body p). steps_go. Qed.
End Program.

(** * Fresh names *)
Lemma str_of_Z_inj a b : str_of_Z a = str_of_Z b -> a = b.
Proof. intros E. pose proof (py_int_str_of_Z (H := latin1_db) a) as Ha. rewrite E, (py_int_str_of_Z (H := latin1_db)) in Ha. by injection Ha. Qed.
Lemma fold_digits n : fold_name (str_of_Z n) = str_of_Z n.
Proof.
  unfold fold_name. pose proof (str_of_Z_chars n) as Hn. induction Hn as [|c l Hc Hl IH]; [done|]. cbn [map]. rewrite IH.
  f_equal. unfold fold_char. destruct (Z.leb_spec 65 c); [|done].
  exfalso. destruct Hc as [->|Hc%ascii_digit_spec]; lia.
Qed.

Definition fresh (p : pystr) (k : Z) : pystr := u "__" ++ p ++ u "_" ++ str_of_Z k.
Abbreviation captures := [u "part"; u "foreach"].

Lemma fold_fresh p k : p ∈ captures -> fold_name (fresh p k) = fresh p k.
Proof.
  intros Hp. unfold fresh, fold_name. rewrite !map_app. fold (fold_name (str_of_Z k)). rewrite fold_digits.
  apply elem_of_cons in Hp as [->|Hp%list_elem_of_singleton]; [done|by subst].
Qed.
Lemma fresh_inj p k p' k' : p ∈ captures -> p' ∈ captures -> fresh p k = fresh p' k' -> k = k'.
Proof.
  intros [->|Hp%list_elem_of_singleton]%elem_of_cons [->|Hp'%list_elem_of_singleton]%elem_of_cons E; subst;
    try (by vm_compute in E); unfold fresh in E; apply (str_of_Z_inj k k').
  - change (u "__" ++ u "part" ++ u "_" ++ str_of_Z k) with (u "__part_" ++ str_of_Z k) in E.
    change (u "__" ++ u "part" ++ u "_" ++ str_of_Z k') with (u "__part_" ++ str_of_Z k') in E.
    by apply app_inv_head in E.
  - change (u "__" ++ u "foreach" ++ u "_" ++ str_of_Z k) with (u "__foreach_" ++ str_of_Z k) in E.
    change (u "__" ++ u "foreach" ++ u "_" ++ str_of_Z k') with (u "__foreach_" ++ str_of_Z k') in E.
    by apply app_inv_head in E.
Qed.

(** A name no table of the planner's own has. *)
Definition user_name (n : pystr) : Prop := match n with 95 :: 95 :: _ => False | _ => True end.
Lemma user_not_fresh n p k : user_name n -> p ∈ captures -> fold_name n <> fresh p k.
Proof.
  intros Hn _ E. unfold fresh in E. change (u "__") with [95; 95] in E. cbn [app] in E.
  destruct n as [|a [|b n]]; try done. cbn [fold_name map] in E. injection E as Ea Eb _. unfold fold_char in *.
  destruct ((65 <=? a) && (a <=? 90)) eqn:Ha; [lia|]. destruct ((65 <=? b) && (b <=? 90)) eqn:Hb; [lia|]. by subst.
Qed.

(** * Tables of earlier captures stay *)
Section Reserved.
Context {G : Type} (c : Z).
Implicit Types s : state G.

Definition captured (n : pystr) : Prop := exists p k, p ∈ captures /\ k < c /\ n = fresh p k.
Definition writable (n : pystr) : Prop := user_name n \/ exists p k, p ∈ captures /\ c <= k /\ n = fresh p k.
Lemma writable_captured x n : writable x -> captured n -> fold_name x <> fold_name n.
Proof.
  intros Hx (p & k & Hp & Hk & ->). rewrite (fold_fresh p k Hp). destruct Hx as [Hx|(p' & k' & Hp' & Hk' & ->)].
  - by apply user_not_fresh.
  - rewrite fold_fresh by done. intros E. apply fresh_inj in E; [lia|done|done].
Qed.

Definition reserves s s' : Prop :=
  distinct s -> c <= counter s -> distinct s' /\ c <= counter s' /\
    forall n, captured n -> from_set n (sets s') = from_set n (sets s).

#[export] Instance reserves_preorder : PreOrder reserves.
Proof.
  split.
  - by intros s Hd Hc.
  - intros s1 s2 s3 H12 H23 Hd Hc. destruct (H12 Hd Hc) as (Hd2 & Hc2 & H2). destruct (H23 Hd2 Hc2) as (Hd3 & Hc3 & H3).
    split_and!; [done|done|]. intros n Hn. rewrite H3 by done. by apply H2.
Qed.
#[export] Instance reserves_closed : Closed reserves writable.
Proof.
  split; try typeclasses eauto; try (by intros ? s Hd Hc; split_and!).
  - intros x rows s Hx Hd Hc. split_and!; [by apply create_names|done|]. intros n Hn. cbn [sets with_sets].
    rewrite from_create. destruct (fold_name x =s fold_name n) eqn:E; [|done].
    apply str_eqb_eq in E. by destruct (writable_captured x n Hx Hn).
  - intros A p k Hp Hk s Hd Hc. 
    change (bind (fresh_name p) k s) with (k (fresh p (counter s)) (with_counter (counter s + 1) s)).
    assert (Hok : writable (fresh p (counter s))) by (right; by exists p, (counter s)).
    apply (Hk _ Hok (with_counter (counter s + 1) s)); [done|cbn; lia].
  - intros t body Hb s Hd Hc. unfold retro_body, finally, bind, get, modify. cbn beta iota.
    destruct (Hb (with_snapshot (Some t) s) Hd Hc) as (B1 & B2 & B3). destruct (body _) as [r s']. cbn [snd] in *.
    split_and!; [by apply restore_distinct|done|]. intros n Hn. cbn [sets with_sets with_snapshot].
    rewrite from_restore by done. specialize (B3 n Hn). change (sets (with_snapshot (Some t) s)) with (sets s) in B3.
    rewrite B3. by destruct (from_set n (sets s)).
Qed.
End Reserved.

(** * Computations that return *)
Definition runs {G A} (m : M G A) (s : state G) (Q : A -> state G -> Prop) : Prop :=
  exists a s', m s = (Ok a, s') /\ Q a s'.

Section Runs.
Context {G : Type}.
Implicit Types s : state G.
Lemma runs_done {A} (a : A) s Q : Q a s -> runs (ret a) s Q.
Proof. intros. by exists a, s. Qed.
Lemma runs_then {A B} (m : M G A) (k : A -> M G B) s Q : runs m s (fun a s' => runs (k a) s' Q) -> runs (bind m k) s Q.
Proof. intros (a & s' & E & b & s'' & E' & HQ). exists b, s''. unfold bind. by rewrite E. Qed.
Lemma runs_weaken {A} (m : M G A) s (P Q : A -> state G -> Prop) : runs m s P -> (forall a s', P a s' -> Q a s') -> runs m s Q.
Proof. intros (a & s' & E & HP) H. exists a, s'. auto. Qed.
Lemma runs_lift {A} (m : res A) a s Q : m = Ok a -> Q a s -> runs (lift m) s Q.
Proof. intros -> HQ. by exists a, s. Qed.
Lemma runs_get {A} (f : state G -> A) s Q : Q (f s) s -> runs (get f) s Q.
Proof. intros HQ. by exists (f s), s. Qed.
Lemma runs_modify f s (Q : () -> state G -> Prop) : Q () (f s) -> runs (modify f) s Q.
Proof. intros HQ. by exists (), (f s). Qed.
Lemma runs_read_rows {A} (r : reads A) s P (Q : A -> state G -> Prop) :
  reads_rows r P -> (forall a n, P a -> Q a (with_files_read n s)) -> runs (read_rows r) s Q.
Proof.
  intros (a & n & -> & HP) HQ. apply runs_then, (runs_lift _ (a, n)); [done|]. apply runs_then, runs_modify, runs_done.
  by apply HQ.
Qed.
Lemma runs_fresh p s (Q : pystr -> state G -> Prop) :
  Q (fresh p (counter s)) (with_counter (counter s + 1) s) -> runs (fresh_name p) s Q.
Proof. intros HQ. by eexists _, _. Qed.

(** A computation that leaves the sets and the answer alone. *)
Definition quiet s s' : Prop :=
  sets s' = sets s /\ SNAPSHOT s' = SNAPSHOT s /\ elements s' = elements s /\ counter s' = counter s.
#[export] Instance quiet_preorder : PreOrder quiet.
Proof. split; [by intros s|]. intros a b c (?&?&?&?) (?&?&?&?). unfold quiet. intuition congruence. Qed.
Definition runs_quiet {A} (m : M G A) s (P : A -> Prop) : Prop := runs m s (fun a s' => quiet s s' /\ P a).

Lemma runs_quiet_bind {A B} (m : M G A) (k : A -> M G B) s (P : A -> Prop) (Q : B -> Prop) :
  runs_quiet m s P -> (forall a s', quiet s s' -> P a -> runs_quiet (k a) s' Q) -> runs_quiet (bind m k) s Q.
Proof.
  intros Hm Hk. apply runs_then. eapply runs_weaken; [exact Hm|]. intros a s' [Hq HP].
  eapply runs_weaken; [by apply Hk|]. intros b s'' [Hq' HQ]. split; [by etrans|done].
Qed.
Lemma runs_quiet_ret {A} (a : A) s (P : A -> Prop) : P a -> runs_quiet (ret a) s P.
Proof. intros. by apply runs_done. Qed.
Lemma runs_quiet_lift {A} (m : res A) a s (P : A -> Prop) : m = Ok a -> P a -> runs_quiet (lift m) s P.
Proof. intros E HP. by apply (runs_lift _ a). Qed.
Lemma runs_quiet_read {A} (r : reads A) s (P : A -> Prop) : reads_rows r P -> runs_quiet (read_rows r) s P.
Proof. intros Hr. eapply runs_read_rows; [exact Hr|]. by intros a n HP. Qed.
Lemma runs_quiet_collect {A B} (f : A -> M G B) (P : A -> B -> Prop) l s :
  (forall x s', x ∈ l -> quiet s s' -> runs_quiet (f x) s' (P x)) -> runs_quiet (collect f l) s (Forall2 P l).
Proof.
  revert s. induction l as [|x l IH]; intros s Hf; cbn [collect]; [by apply runs_quiet_ret|].
  eapply runs_quiet_bind; [apply Hf; [left|done]|]. intros y s1 Hq1 Hy. cbn beta in Hy.
  eapply runs_quiet_bind; [apply IH; intros z s2 Hz Hq2; apply Hf; [by right|by etrans]|].
  intros ys s2 _ Hys. apply runs_quiet_ret. by constructor.
Qed.
Lemma runs_quiet_weaken {A} (m : M G A) s (P Q : A -> Prop) : runs_quiet m s P -> (forall a, P a -> Q a) -> runs_quiet m s Q.
Proof. intros Hm H. eapply runs_weaken; [exact Hm|]. intros a s' [? ?]. auto. Qed.
End Runs.

(** * Tables of sets of elements *)
Section Tables.
Context {G : Type} (db : database G).
Abbreviation row := (set_row G).

(** One current row for each element. *)
Record table_for (X : gset key) (rows : list row) : Prop := {
  table_unique : NoDup (keys rows);
  table_keys : forall k, k ∈ X <-> k ∈ keys rows;
  table_current : forall r, r ∈ rows -> exists d, find_row db (s_key r) = Some d /\ same_element d r;
  table_types : forall k, k ∈ X -> k.1 ∈ element_types
}.

Lemma table_rows X rows k : table_for X rows -> k ∈ X -> exists r d, r ∈ rows /\ s_key r = k /\ find_row db k = Some d /\ same_element d r.
Proof.
  intros [_ Hk Hc _] HX. apply Hk, elem_of_map in HX as (r & -> & Hr). destruct (Hc r Hr) as (d & Hd & Hs). by exists r, d.
Qed.
Lemma table_row_key X rows r : table_for X rows -> r ∈ rows -> s_key r ∈ X.
Proof. intros [_ Hk _ _] Hr. apply Hk. by apply elem_of_map_2. Qed.
Lemma table_current_rows X rows : table_for X rows -> current_rows_of db rows.
Proof. intros [_ _ Hc _] r Hr. left. by apply Hc. Qed.
Lemma table_row_type X rows r : table_for X rows -> r ∈ rows -> s_type r ∈ element_types.
Proof. intros HX Hr. pose proof (table_types _ _ HX _ (table_row_key _ _ _ HX Hr)). done. Qed.

Lemma table_perm X rows rows' : rows' ≡ₚ rows -> table_for X rows -> table_for X rows'.
Proof.
  intros Hp [T1 T2 T3 T4]. unfold keys in *. split; unfold keys; [by rewrite Hp|intros k; by rewrite Hp| |done].
  intros r Hr. apply T3. by rewrite <- Hp.
Qed.

Lemma exact_find (Hdb : well_typed db) k (d : row) : find_row db k = Some d -> s_key d = k.
Proof. destruct k as [t i]. intros Hd. destruct (Hdb t i d Hd) as [<- <-]. done. Qed.

(** What is materialised. *)
Lemma table_dedup `{RowChoiceLaw G} (Hdb : well_typed db) P X (rows : list row) :
  exact_keys db P rows -> (forall k, k ∈ X <-> exists d, find_row db k = Some d /\ P k d) ->
  (forall k, k ∈ X -> k.1 ∈ element_types) -> table_for X (deduplicate rows).
Proof.
  intros [H1 H2] HX Ht. split.
  - apply deduplicate_unique.
  - intros k. rewrite HX, deduplicate_keys. split.
    + intros (d & Hd & HP). destruct (H2 k d Hd HP) as (r & Hr & Hs). apply elem_of_map. exists r. split; [|done].
      by rewrite <- Hs, (exact_find Hdb k d).
    + intros (r & -> & Hr)%elem_of_map. destruct (H1 r Hr) as (d & Hd & _ & HP). eauto.
  - intros r Hr. destruct (H1 r (elem_of_deduplicate _ _ Hr)) as (d & Hd & Hs & _). eauto.
  - done.
Qed.

(** Rows of a table are the rows of its elements. *)
Lemma table_exact X rows : table_for X rows -> exact_keys db (fun k _ => k ∈ X) rows.
Proof.
  intros HX. split.
  - intros r Hr. destruct (table_current _ _ HX r Hr) as (d & Hd & Hs). exists d. split_and!; [done|done|].
    by eapply table_row_key.
  - intros k d Hd HkX. destruct (table_rows _ _ k HX HkX) as (r & d' & Hr & _ & Hd' & Hs). exists r. split; [done|]. congruence.
Qed.
Lemma exact_keys_filter (P Q : key -> row -> Prop) (f : row -> bool) rows :
  (forall d r, same_element d r -> find_row db (s_key r) = Some d -> f r = true <-> Q (s_key r) d) -> well_typed db ->
  exact_keys db P rows -> exact_keys db (fun k d => P k d /\ Q k d) (base.filter (fun r => f r = true) rows).
Proof.
  intros Hf Hdb [H1 H2]. split.
  - intros r [Hfr Hr]%list_elem_of_filter. destruct (H1 r Hr) as (d & Hd & Hs & HP). exists d. split_and!; [done..|].
    by apply (Hf d r).
  - intros k d Hd [HP HQ]. destruct (H2 k d Hd HP) as (r & Hr & Hs). exists r. split; [|done].
    assert (Ek : s_key r = k) by (rewrite <- Hs; by apply (exact_find Hdb)).
    apply list_elem_of_filter. split; [|done]. apply (Hf d r Hs); by rewrite Ek.
Qed.
End Tables.
