(* ===== verification/QueryMeans.v ===== *)
(** Recursions and queries select what they mean: the rows they read are the
    current rows of exactly the elements of the specification. *)
From S2P Require Import Prelude PyStr PyFloat PyTime Json QlAst SqlExpr Schema Cells Catalog.
From S2P Require Import Sql Sources EvalSet SetTables EvalSetFacts RowSources Recurse RecurseFacts MetaFilters Planner PlannerFacts PlannerSem.

(** * Rows and elements *)
#[export] Instance refers_as_proper {G} role : Proper (@same_element G ==> eq ==> iff) (refers_as role).
Proof.
  intros a b Hab k _ <-. unfold refers_as.
  by rewrite (s_type_proper _ _ Hab), (s_refs_proper _ _ Hab), (s_members_proper _ _ Hab).
Qed.

Section Relations.
Context {G : Type} (db : database G) (Hdb : well_typed db).
Abbreviation row := (set_row G).

Lemma refers_ref role X (rows : list row) r k : table_for db X rows -> r ∈ rows ->
  refers_as role r k <-> ref db role (s_key r) k.
Proof.
  intros HX Hr. destruct (table_current _ _ _ HX r Hr) as (d & Hd & Hs). unfold ref. rewrite Hd. split.
  - intros Hk. exists d. split; [done|]. by rewrite Hs.
  - intros (d' & [= <-] & Hk). by rewrite <- Hs.
Qed.

Lemma ref_type role j k : ref db role j k -> (j.1 = WAY \/ j.1 = RELATION) /\ k.1 ∈ element_types.
Proof.
  intros (d & Hd & Hk). pose proof (exact_find db Hdb _ _ Hd) as <-. split.
  - destruct Hk as [(Ht & _)|(Ht & _)]; [by left|by right].
  - apply (refers_type d). destruct Hk as [(?&?&?)|(?&ms&x&?&?&_&?&?)]; [left|right]; eauto 10.
Qed.
Lemma ref_exists role j k : ref db role j k -> exists_ db j.
Proof. intros (d & Hd & _). by exists d. Qed.

Lemma path_reach (step : row -> key -> Prop) (kstep : key -> key -> Prop) n :
  (forall j d k, find_row db j = Some d -> step d k -> kstep j k) ->
  forall j d k, find_row db j = Some d -> path db step n d k -> reach db kstep n j k.
Proof.
  intros Hstep j d k Hd Hp. revert j Hd. induction Hp as [d k Hs|n d i d' k Hs Hd' Hp IH]; intros j Hd.
  - apply reach_one. eauto.
  - eapply reach_step; [by eapply Hstep|by exists d'|by apply IH].
Qed.
Lemma reach_path (step : row -> key -> Prop) (kstep : key -> key -> Prop) (ok : key -> Prop) n :
  (forall j d k, ok j -> find_row db j = Some d -> kstep j k -> step d k) ->
  (forall j k, kstep j k -> ok k) ->
  forall j d k, ok j -> find_row db j = Some d -> reach db kstep n j k -> path db step n d k.
Proof.
  intros Hstep Hok j d k Hj Hd Hp. revert d Hj Hd. induction Hp as [j k Hs|n j i k Hs [d' Hd'] Hp IH]; intros d Hj Hd.
  - apply path_one. eauto.
  - eapply path_step; [by eapply Hstep|exact Hd'|]. apply IH; [by eapply Hok|done].
Qed.
End Relations.

(** * Recursions *)
Section Recursions.
Context {G : Type} `{RowSources G} `{Compiles G} (db : database G) (keeps : list TagFilter -> set_row G -> bool).
Context (indexed : option pystr -> key -> key -> Prop).
Context `{!RowSourcesLaws G keeps None db} `{!ParentLaws G db indexed}.
(** The base indexes list no parent that is not one now. *)
Context (up_to_date : forall role p c, indexed role p c -> ref db role p c).
Abbreviation row := (set_row G).
Let Hdb : well_typed db := db_typed (snap := None).

Definition recursion_rows (kind : recurse_kind) (source : list row) : reads (list row) :=
  match kind with
  | RDown => build_forward_one_hop None source
  | RUp => build_backward_one_hop None source
  | RDownDown => recurse_transitive None source Forward
  | RUpUp => recurse_transitive None source Backward
  end.

Lemma maybe_parent_ref c p : maybe_parent db indexed None c p -> ref db None p c.
Proof. intros [(d & Hd & Hr)|[[_ Hi]|Hi]]; [by exists d|by apply up_to_date..]. Qed.

Lemma down_once_means X rows : table_for db X rows ->
  reads_rows (build_forward_one_hop None rows) (exact_keys db (fun k _ => recursed db RDown X k)).
Proof.
  intros HX. eapply reads_rows_weaken; [apply (down_once_exact keeps None db); by eapply table_current_rows|]. intros out.
  apply exact_keys_ext. intros k d _. cbn [recursed]. split.
  - intros [(s & Hs & Hr & Hk)|(s & w & d' & Hs & Hr & Hd' & Hr')]; exists (s_key s); (split; [by eapply table_row_key|]).
    + left. split; [|done]. apply (refers_ref db None X rows s k HX Hs). by apply refers_as_None.
    + right. exists w. split; [apply (refers_ref db None X rows s _ HX Hs); by apply refers_as_None|].
      exists d'. split; [done|]. by apply refers_as_None.
  - intros (j & Hj & Hk). destruct (table_rows db X rows j HX Hj) as (s & d0 & Hs & <- & _). destruct Hk as [[Hk Ht]|(w & Hw & d' & Hd' & Hk)].
    + left. exists s. split_and!; [done| |done]. apply refers_as_None. by apply (refers_ref db None X rows).
    + right. exists s, w, d'. split_and!; [done| |done|by apply refers_as_None].
      apply refers_as_None. by apply (refers_ref db None X rows).
Qed.

Lemma up_once_means X rows : table_for db X rows ->
  reads_rows (build_backward_one_hop None rows) (exact_keys db (fun k _ => recursed db RUp X k)).
Proof.
  intros HX. eapply reads_rows_weaken; [apply (up_once keeps db indexed); by eapply table_current_rows|]. intros out [H1 H2]. split.
  - intros r Hr. destruct (H1 r Hr) as (d & Hd & Hs & s & Hsin & Hl). exists d. split_and!; [done|done|]. exists (s_key s).
    split; [by eapply table_row_key|]. destruct Hl as [Hl|(w & Hl & Hm)]; [left; by apply maybe_parent_ref|right].
    exists w. split; by apply maybe_parent_ref.
  - intros k d Hd (j & Hj & Hk). destruct (table_rows db X rows j HX Hj) as (s & d0 & Hs & <- & _).
    apply (H2 s k d Hs); [by eapply table_row_type|done|]. destruct Hk as [Hk|(w & Hw & Hk)]; [by left|right; eauto].
Qed.

Lemma down_all_means X rows : table_for db X rows ->
  reads_rows (recurse_transitive None rows Forward) (exact_keys db (fun k _ => recursed db RDownDown X k)).
Proof.
  intros HX. eapply reads_rows_weaken; [apply (down_transitive keeps None db); by eapply table_current_rows|].
  intros out (found & -> & Hfound).
  assert (Hrel : exact_keys db (fun k _ => k ∈ X /\ k.1 = RELATION) (base.filter (fun r => (s_type r =s RELATION) = true) rows)).
  { apply (exact_keys_filter db (fun k _ => k ∈ X) (fun k _ => k.1 = RELATION)); [|done|by apply table_exact].
    intros d r _ _. by rewrite str_eqb_eq. }
  assert (Hf : exact_keys db (fun k _ => k ∉ X /\ exists n j, (n <= max_hops)%nat /\ j ∈ X /\ reach db (ref db None) n j k) found).
  { eapply exact_keys_ext; [|exact Hfound]. intros k d _. rewrite (table_keys db X rows HX k). apply and_iff_compat_l.
    split; intros (n & s & Hn & Hs & Hp).
    - destruct (table_current db X rows HX s Hs) as (d0 & Hd0 & Hsame). exists n, (s_key s).
      split_and!; [done|by eapply table_row_key|]. eapply (path_reach db refers); [|exact Hd0|].
      + intros j d' k' Hd' Hk'. exists d'. split; [done|]. by apply refers_as_None.
      + by eapply path_proper; [apply refers_proper|symmetry; exact Hsame|].
    - destruct (table_rows db X rows s HX Hs) as (r & d0 & Hr & <- & Hd0 & Hsame). exists n, r. split_and!; [done|done|].
      eapply path_proper; [apply refers_proper|exact Hsame|].
      apply (reach_path db refers (ref db None) (fun _ => True) n) with (j := s_key r); [|done|done|done|done].
      intros j d' k' _ Hd' (d'' & Hd'' & Hk'). apply refers_as_None. congruence. }
  apply (exact_keys_app db _ _ _ _ Hf Hrel).
Qed.

Lemma up_all_means X rows : table_for db X rows ->
  reads_rows (recurse_transitive None rows Backward) (exact_keys db (fun k _ => recursed db RUpUp X k)).
Proof.
  intros HX. eapply reads_rows_weaken; [apply (up_transitive keeps db indexed); by eapply table_current_rows|].
  intros out [H1 H2]. split.
  - intros r Hr. destruct (H1 r Hr) as (d & Hd & Hs & Hk & n & s & Hn & Hsin & Hp). exists d. split_and!; [done|done|].
    split; [by rewrite (table_keys db X rows HX)|]. exists n, (s_key s). split_and!; [done|by eapply table_row_key|].
    destruct (table_current db X rows HX s Hsin) as (d0 & Hd0 & Hsame).
    eapply (path_reach db (loose db indexed)); [|exact Hd0|].
    + intros j d' k' Hd' Hk'. apply maybe_parent_ref. unfold loose in Hk'.
      by rewrite (exact_find db Hdb _ _ Hd') in Hk'.
    + by eapply path_proper; [apply loose_proper|symmetry; exact Hsame|].
  - intros k d Hd (Hk & n & j & Hn & Hj & Hreach). destruct (table_rows db X rows j HX Hj) as (s & d0 & Hs & <- & Hd0 & Hsame).
    apply (H2 n s k d Hn Hs); [|by rewrite (table_keys db X rows HX) in Hk|done].
    eapply path_proper; [apply tight_proper|exact Hsame|].
    apply (reach_path db (tight db) (fun c p => ref db None p c) (fun k => k.1 ∈ element_types) n) with (j := s_key s).
    + intros j d' k' Ht Hd' Hr. split; [by rewrite (exact_find db Hdb _ _ Hd')|].
      pose proof (exact_find db Hdb _ _ Hd') as <-. done.
    + intros j k' Hr. apply (ref_type db Hdb) in Hr as [Hr _]. apply elem_of_element_types. tauto.
    + by eapply table_row_type.
    + done.
    + done.
Qed.

Lemma recursion_means kind X rows : table_for db X rows ->
  reads_rows (recursion_rows kind rows) (exact_keys db (fun k _ => recursed db kind X k)).
Proof.
  intros HX. destruct kind; cbn [recursion_rows]; [by apply down_once_means|by apply down_all_means|by apply up_once_means|by apply up_all_means].
Qed.
Lemma reach_last (step : key -> key -> Prop) n j k : reach db step n j k -> exists i, step i k.
Proof. induction 1; eauto. Qed.
Lemma recursed_types kind X k : (forall j, j ∈ X -> j.1 ∈ element_types) -> recursed db kind X k -> k.1 ∈ element_types.
Proof.
  intros HX Hk.
  assert (Hup : forall p c, ref db None p c -> p.1 ∈ element_types).
  { intros p c Hr. apply (ref_type db Hdb) in Hr as [Hr _]. apply elem_of_element_types. tauto. }
  assert (Hdown : forall p c, ref db None p c -> c.1 ∈ element_types) by (intros p c Hr; by apply (ref_type db Hdb) in Hr as [_ ?]).
  destruct kind; cbn [recursed] in Hk.
  - destruct Hk as (j & _ & [[Hk _]|(w & _ & Hk)]); eauto.
  - destruct Hk as [(_ & n & j & _ & _ & (i & Hk)%reach_last)|[Hk _]]; eauto.
  - destruct Hk as (j & _ & [Hk|(w & _ & Hk)]); eauto.
  - destruct Hk as (_ & n & j & _ & _ & (i & Hk)%reach_last); eauto.
Qed.
End Recursions.

(** * Queries *)
Section Queries.
Context `{UnicodeDB} {G : Type} `{DuckDB G} `{RowSources G} `{Compiles G} (db : database G) (keeps : list TagFilter -> set_row G -> bool).
Context (indexed : option pystr -> key -> key -> Prop).
Context `{!RowSourcesLaws G keeps None db} `{!ParentLaws G db indexed}.
Context (up_to_date : forall role p c, indexed role p c -> ref db role p c).
Abbreviation row := (set_row G).
Let Hdb : well_typed db := db_typed (snap := None).

(** ** Recurse filters *)
Lemma map_i_key_type t (l : list idrow) i : (t, i) ∈ map i_key l <-> i ∈ ids_of_type t l.
Proof. symmetry. apply elem_of_ids_of_type. Qed.

Lemma forward_filter_hop kind role X (rows : list row) :
  table_for db X rows -> kind = RK_w \/ kind = RK_r ->
  forall k, k ∈ hop_keys (match kind with
                          | RK_w => forward_new_ids_table rows (Some [WAY]) None None
                          | _ => forward_new_ids_table rows (Some [RELATION]) role None
                          end) <-> filter_hop db kind role X k.
Proof.
  intros HX Hkind k.
  assert (Hall : base.filter (fun c => allowed None c = true) [u "n"; u "w"; u "r"] = [u "n"; u "w"; u "r"]) by done.
  destruct Hkind as [-> | ->]; cbn [filter_hop]; rewrite forward_hop_keys, Hall.
  - change (allowed (Some [WAY]) WAY = true) with (true = true). change (allowed (Some [WAY]) RELATION = true) with (false = true). split.
    + intros (r & Hr & [[_ Hk]|[? _]]); [|done]. exists (s_key r). split_and!; [by eapply table_row_key| |].
      * by apply elem_of_way_refs in Hk as [? _].
      * apply (refers_ref db None X rows r k HX Hr). left. by apply elem_of_way_refs.
    + intros (j & Hj & Ht & Hk). destruct (table_rows db X rows j HX Hj) as (r & d & Hr & <- & _). exists r. split; [done|].
      left. split; [done|]. apply (refers_ref db None X rows r k HX Hr) in Hk as [Hk|(Hrel & _)]; [by apply elem_of_way_refs|].
      cbn [s_key fst] in Ht. distinct_types.
  - change (allowed (Some [RELATION]) WAY = true) with (false = true). change (allowed (Some [RELATION]) RELATION = true) with (true = true). split.
    + intros (r & Hr & [[? _]|[_ Hk]]); [done|]. apply elem_of_relation_members in Hk as (Ht & ms & x & Hms & Hx & _ & Hrole & Hmt & Href).
      exists (s_key r). split_and!; [by eapply table_row_key|done|]. apply (refers_ref db role X rows r k HX Hr). right. eauto 10.
    + intros (j & Hj & Ht & Hk). destruct (table_rows db X rows j HX Hj) as (r & d & Hr & <- & _). exists r. split; [done|].
      right. split; [done|]. apply (refers_ref db role X rows r k HX Hr) in Hk as [(Hw & _)|(_ & ms & x & Hms & Hx & Hrole & Hmt & Href)].
      { cbn [s_key fst] in Ht. distinct_types. }
      apply elem_of_relation_members. split; [done|]. exists ms, x. split_and!; try done.
      apply member_type_inv in Hmt as [[-> _]|[[-> _]|[-> _]]]; rewrite !elem_of_cons; auto.
Qed.

Lemma backward_filter_hop t kind role X (rows : list row) :
  table_for db X rows -> (t, kind) ∈ [(NODE, RK_bn); (WAY, RK_bw); (RELATION, RK_br)] ->
  reads_rows (backward_new_ids_table None (map of_row rows) (Some [t]) role) (fun o =>
    forall k, (k ∈ hop_keys o <-> filter_hop db kind role X k) /\ (k ∈ hop_keys o -> k.1 ∈ element_types)).
Proof.
  intros HX Hkind. eapply reads_rows_weaken.
  { apply (backward_law keeps db indexed). intros _. apply (current_known db). by eapply table_current_rows. }
  intros o [U1 U2] k.
  assert (Ht : forall a, allowed (Some [t]) a = true <-> a = t).
  { intros a. cbn [allowed]. by rewrite str_in_spec, list_elem_of_singleton. }
  assert (Hf : filter_hop db kind role X k <-> exists j, j ∈ X /\ j.1 = t /\ ref db role k j).
  { rewrite !elem_of_cons, elem_of_nil in Hkind. destruct Hkind as [[= -> ->]|[[= -> ->]|[[= -> ->]|[]]]]; done. }
  assert (Hel : t ∈ element_types).
  { rewrite !elem_of_cons, elem_of_nil in Hkind. apply elem_of_element_types. naive_solver. }
  split; [rewrite Hf; split|].
  - intros Hk. destruct (U2 k Hk) as (_ & s & (r & -> & Hr)%elem_of_map & Ha & Hm). exists (s_key r).
    split_and!; [by eapply table_row_key|by apply Ht|]. destruct Hm as [(d & Hd & Hk')|[[Hway Hi]|Hi]]; [by exists d| |by apply up_to_date].
    apply up_to_date in Hi as (d & Hd & [Hk'|(Hrel & _)]).
    + exists d. split; [done|]. by left.
    + exfalso. pose proof (exact_find db Hdb _ _ Hd) as E. rewrite <- E in Hway. cbn [s_key fst] in Hway. distinct_types.
  - intros (j & Hj & Htj & Hk). destruct (table_rows db X rows j HX Hj) as (r & d & Hr & <- & _).
    apply (U1 (of_row r) k); [by apply elem_of_map_2|by apply Ht| |done]. cbn [of_row l_type]. by eapply table_row_type.
  - intros Hk. destruct (U2 k Hk) as (Hw & _). apply elem_of_element_types. tauto.
Qed.

Lemma runs_read_set (s : state G) n rows : distinct s -> find_set n (sets s) = Some rows ->
  runs_quiet (require_set n) s (fun _ => True) /\ runs_quiet (read_set n) s (eq rows).
Proof.
  intros Hd Hf. split; unfold require_set, read_set; apply runs_then, runs_get.
  - apply (runs_quiet_lift _ ()); [|done]. unfold _require_set, table_exists. by rewrite Hf.
  - apply (runs_quiet_lift _ rows); [|done]. by apply find_set_from.
Qed.

Lemma filter_hop_types kind role X k : filter_hop db kind role X k -> k.1 ∈ element_types.
Proof.
  assert (Hup : forall r p c, ref db r p c -> p.1 ∈ element_types).
  { intros r p c Hr. apply (ref_type db Hdb) in Hr as [Hr _]. apply elem_of_element_types. tauto. }
  destruct kind; cbn [filter_hop]; intros (j & _ & _ & Hk); [by apply (ref_type db Hdb) in Hk as [_ ?]|by apply (ref_type db Hdb) in Hk as [_ ?]|eauto..].
Qed.

Lemma filter_ids_means s kind n role X rows : distinct s -> SNAPSHOT s = None -> find_set n (sets s) = Some rows ->
  table_for db X rows ->
  runs_quiet (_recurse_filter_ids_table kind n role) s (fun o =>
    forall k, k ∈ hop_keys o <-> filter_hop db kind role X k).
Proof.
  intros Hd Hsnap Hf HX. destruct (runs_read_set s n rows Hd Hf) as [Hreq Hread]. unfold _recurse_filter_ids_table.
  eapply runs_quiet_bind; [exact Hreq|]. intros _ s1 Hq1 _.
  destruct (runs_read_set s1 n rows) as [_ Hread1]; [by unfold distinct; destruct Hq1 as [-> _]|by destruct Hq1 as [-> _]|].
  eapply runs_quiet_bind; [exact Hread1|]. intros ? s2 Hq2 <-.
  apply runs_then, runs_get.
  assert (Hs2 : SNAPSHOT s2 = None) by (destruct Hq1 as (_ & E1 & _), Hq2 as (_ & E2 & _); congruence). rewrite Hs2.
  assert (Hback : forall t, (t, kind) ∈ [(NODE, RK_bn); (WAY, RK_bw); (RELATION, RK_br)] ->
    runs_quiet (read_rows (backward_new_ids_table None (map of_row rows) (Some [t]) role)) s2 (fun o =>
      forall k, k ∈ hop_keys o <-> filter_hop db kind role X k)).
  { intros t Ht. apply runs_quiet_read. eapply reads_rows_weaken; [by apply (backward_filter_hop t kind role X)|].
    intros o Ho k. apply Ho. }
  destruct kind.
  - apply runs_quiet_ret. apply (forward_filter_hop RK_w role X rows HX). by left.
  - apply runs_quiet_ret. apply (forward_filter_hop RK_r role X rows HX). by right.
  - apply Hback. left.
  - apply Hback. right; left.
  - apply Hback. right; right; left.
Qed.

(** Hydrating the hop of a filter. *)
Section FilterRows.
Context (fs : list TagFilter) (Hfs : compiles G fs = true) (hop : key -> Prop).
Lemma hydrate_ids_of t ids (m : reads (option (list row))) :
  (forall i, i ∈ ids <-> hop (t, i)) ->
  reads_rows m (fun o => match o with
    | Some rows => ids <> [] /\ exact db t (fun i d => i ∈ ids /\ keeps fs d = true) rows
    | None => ids = []
    end) ->
  reads_rows m (fun o => exact_keys db (fun k d => (k.1 = t /\ keeps fs d = true) /\ hop k) (default [] o)).
Proof.
  intros Hids Hm. eapply reads_rows_weaken; [exact Hm|]. intros [rows|] Ho.
  - destruct Ho as [_ Ho]. eapply exact_keys_ext; [|by apply (exact_to_keys db t)]. intros [t' i] d _. cbn [fst snd].
    rewrite Hids. naive_solver.
  - apply exact_keys_nil. intros [t' i] d [[E _] Hk]. cbn [fst] in E. subst t'. apply Hids in Hk. rewrite Ho in Hk. by inversion Hk.
Qed.
Context (l : list idrow) (Hl : forall k, k ∈ map i_key l <-> hop k).
Context (Hhop : forall k, hop k -> k.1 ∈ element_types).

Lemma hydrate_hop only : reads_rows (hydrate_ids_table None l fs (Some only)) (fun o =>
  exact_keys db (fun k d => (k.1 ∈ only /\ keeps fs d = true) /\ hop k) (default [] o)).
Proof.
  eapply reads_rows_weaken; [apply (hydrate_ids_table_exact keeps None db); [done|]|].
  - intros k Hk. by apply Hhop, Hl.
  - intros o [Ho _]. eapply exact_keys_ext; [|exact Ho]. intros k d _. unfold wanted_key.
    cbn [allowed]. rewrite str_in_spec, Hl. tauto.
Qed.

End FilterRows.

Lemma recurse_filter_means q s kind n role X rows : distinct s -> SNAPSHOT s = None -> find_set n (sets s) = Some rows ->
  table_for db X rows -> Forall (fun t => t ∈ element_types) (q_types q) -> compiles G (_tag_filters_for (q_filters q)) = true ->
  runs_quiet (recurse_filter_rows q kind n role) s
    (exact_keys db (fun k d => asked keeps q k d /\ filter_hop db kind role X k)).
Proof.
  intros Hd Hsnap Hf HX Htypes Hfs. unfold recurse_filter_rows.
  eapply runs_quiet_bind; [by apply (filter_ids_means s kind n role X rows)|]. intros o s1 Hq1 Ho.
  apply runs_then, runs_get. destruct Hq1 as (E1 & E2 & E34). rewrite E2, Hsnap.
  pose proof (filter_hop_types kind role X) as Hty. unfold asked.
  destruct o as [l|]; [|apply runs_quiet_ret, exact_keys_nil; intros k d [_ Hk]; apply Ho in Hk; by inversion Hk].
  unfold hop_keys in Ho. change (default [] (Some l)) with l in Ho.
  destruct (runs_read_set s1 n rows) as [_ Hread]; [by unfold distinct; rewrite E1|by rewrite E1|].
  eapply runs_quiet_bind; [exact Hread|]. intros ? s2 Hq2 <-. clear Hread.
  assert (Hboxes : forall t, t ∈ element_types -> Forall sane_box (boxes_of [t] rows)).
  { intros t Ht. apply (boxes_sane keeps None db); [by eapply table_current_rows|]. by intros t' ->%list_elem_of_singleton. }
  set (fs := _tag_filters_for (q_filters q)) in *.
  assert (Hgen : runs_quiet (do! rows := read_rows (hydrate_ids_table None l fs (Some (q_types q))) in ret (default [] rows)) s2
            (exact_keys db (fun k d => (k.1 ∈ q_types q /\ keeps fs d = true) /\ filter_hop db kind role X k))).
  { eapply runs_quiet_bind; [apply runs_quiet_read; by apply (hydrate_hop fs Hfs _ l Ho Hty)|].
    intros o s3 _ Hr. by apply runs_quiet_ret. }
  assert (Htype : forall t i, i ∈ ids_of_type t l <-> filter_hop db kind role X (t, i)).
  { intros t i. rewrite elem_of_ids_of_type. apply Ho. }
  destruct kind; try exact Hgen.
  - destruct (str_in NODE (q_types q)) eqn:En; [|exact Hgen]. apply str_in_spec in En.
    assert (Hnode : forall k, filter_hop db RK_w role X k -> k.1 = NODE).
    { intros k (j & _ & Hw & (d & Hdj & [(_ & ? & _)|(Hrel & _)])); [done|]. exfalso.
      pose proof (exact_find db Hdb _ _ Hdj) as E. rewrite <- E in Hw. cbn [s_key fst] in Hw. distinct_types. }
    eapply runs_quiet_bind.
    { apply runs_quiet_read. eapply (hydrate_ids_of fs (filter_hop db RK_w role X) NODE (map i_id l)); [|apply node_bbox_law; [apply Hboxes, elem_of_element_types; auto|exact Hfs]].
      intros i. rewrite <- Ho, !elem_of_map. split.
      - intros (x & -> & Hx). exists x. split; [|done]. unfold i_key. f_equal. symmetry.
        apply (Hnode (i_key x)). apply Ho. by apply elem_of_map_2.
      - intros (x & E & Hx). exists x. split; [|done]. by injection E. }
    intros o s3 _ Hr. apply runs_quiet_ret. eapply exact_keys_ext; [|exact Hr]. intros k d _. cbn beta.
    split; intros [[? ?] Hk]; pose proof (Hnode k Hk) as Ek; (split; [split|]); try done; by rewrite Ek.
  - destruct (str_in WAY (q_types q)) eqn:En; [|exact Hgen]. apply str_in_spec in En.
    eapply runs_quiet_bind.
    { apply runs_quiet_read. eapply (hydrate_ids_of fs (filter_hop db RK_r role X) WAY (remove_dups (ids_of_type WAY l))); [|apply way_bbox_law; [apply Hboxes, elem_of_element_types; auto|exact Hfs]].
      intros i. rewrite elem_of_remove_dups. apply Htype. }
    intros ways s3 _ Hways. cbn beta in Hways.
    set (others := base.filter (fun t => (t =s WAY) = false) (q_types q)).
    assert (Hothers : forall t, t ∈ others <-> t ∈ q_types q /\ t <> WAY).
    { intros t. unfold others. rewrite list_elem_of_filter, str_eqb_neq. tauto. }
    eapply runs_quiet_bind with (P := fun o => exact_keys db (fun k d => (k.1 ∈ others /\ keeps fs d = true) /\ filter_hop db RK_r role X k) (default [] o)).
    { clearbody others. destruct others as [|t others]; [|apply runs_quiet_read; by apply (hydrate_hop fs Hfs _ l Ho Hty)].
      apply runs_quiet_ret. apply exact_keys_nil. intros k d [[Hk _] _]. by inversion Hk. }
    intros rest s4 _ Hrest. apply runs_quiet_ret. eapply exact_keys_ext; [|by apply (exact_keys_app db _ _ _ _ Hways Hrest)].
    intros k d _. cbn beta. rewrite Hothers. split.
    + intros [[[-> ?] ?]|[[[? ?] ?] ?]]; done.
    + intros [[? ?] ?]. destruct (decide (k.1 = WAY)); [left|right]; done.
Qed.

(** ** Queries on sets *)
Lemma set_box_proper b (f : row -> bool) d r : set_box_where b = Ok f -> same_element d r -> f d = f r.
Proof.
  intros Hf Hs. unfold set_box_where in Hf. destruct b as [b|]; [|by injection Hf as <-].
  destruct (bbox_e7 b) as [e7|]; [|done]. injection Hf as <-. unfold same_element in Hs.
  assert (Hb : s_box d = s_box r) by (by injection Hs).
  by rewrite (s_type_proper _ _ Hs), (s_lat_proper _ _ Hs), (s_lon_proper _ _ Hs), Hb.
Qed.

Lemma elem_of_join others : forall (rows : list row) r,
  r ∈ join_sets rows others <-> r ∈ rows /\ forall o, o ∈ others -> s_key r ∈ keys o.
Proof.
  unfold join_sets. induction others as [|o others IH]; intros rows r; cbn [fold_left].
  - split; [|tauto]. intros Hr. split; [done|]. by intros o Ho%elem_of_nil.
  - rewrite IH.
    assert (Ho : r ∈ flat_map (fun r0 => map (fun _ => r0) (base.filter (fun x => s_key x = s_key r0) o)) rows <->
                 r ∈ rows /\ s_key r ∈ keys o).
    { rewrite list_elem_of_In, in_flat_map. split.
      - intros (r0 & Hr0 & Hr). apply list_elem_of_In in Hr, Hr0. apply elem_of_map in Hr as (x & -> & Hx).
        apply list_elem_of_filter in Hx as [E Hx]. split; [done|]. rewrite <- E. by apply elem_of_map_2.
      - intros [Hr Hk]. exists r. rewrite <- !list_elem_of_In. split; [done|]. apply elem_of_map in Hk as (x & E & Hx).
        apply elem_of_map. exists x. split; [done|]. by apply list_elem_of_filter. }
    rewrite Ho. split.
    + intros [[Hr Hk] Hrest]. split; [done|]. intros x [->|Hx]%elem_of_cons; auto.
    + intros [Hr Hall]. split; [split; [done|apply Hall; by left]|]. intros x Hx. apply Hall. by right.
Qed.

Context (set_tags : forall base fs r k d, compiles G fs = true -> find_row db k = Some d -> same_element d r -> set_tag_where base fs r = keeps fs d).
Context (set_bound : forall base fs, compiles G fs = true -> bound (TagSql.tag_filters_expr [] (base ++ u ".") fs) = Ok tt).

Lemma from_sets_means (A : store) q b (f : row -> bool) inputs : compiles G (_tag_filters_for (q_filters q)) = true -> set_box_where b = Ok f ->
  Forall2 (fun n nr => nr.1 = n /\ exists X, A !! n = Some X /\ table_for db X nr.2) (q_input_sets q) inputs ->
  q_input_sets q <> [] -> NoDup (map fold_name (q_input_sets q)) ->
  exists rows, build_from_set_select inputs (q_types q) (_tag_filters_for (q_filters q)) (_ids_for (q_filters q)) b = Ok rows /\
    exact_keys db (fun k d => asked keeps q k d /\ of_ids q k.2 /\ in_set_box b d /\
      forall n, n ∈ q_input_sets q -> exists X, A !! n = Some X /\ k ∈ X) rows.
Proof.
  intros Hfs Hf Hin Hne Hnd. destruct Hin as [|n [n' first] names others [En (X & HA & HX)] Hothers]; [done|]. cbn [fst snd] in *. subst n'.
  unfold build_from_set_select. rewrite Hf. cbn [res_bind].
  assert (En : map (fun x : pystr * list row => fold_name x.1) others = map fold_name names).
  { clear -Hothers. induction Hothers as [|m [m' ms] ? ? [E _] _ IH]; [done|]. cbn [map fst] in *. by rewrite IH, E. }
  rewrite bool_decide_true by (cbn [map fst]; by rewrite En).
  rewrite app_assoc, set_bound by done. cbn [res_bind]. eexists. split; [reflexivity|].
  apply (exact_keys_ext db (fun k d => (k ∈ X /\ forall o, o ∈ map snd others -> k ∈ keys o) /\
     (k.1 ∈ q_types q /\ ids_where (_ids_for (q_filters q)) k.2 = true /\ f d = true /\ keeps (_tag_filters_for (q_filters q)) d = true))).
  { intros k d Hd. unfold asked, of_ids, in_set_box.
    assert (Hsets : (forall m, m ∈ n :: names -> exists X, A !! m = Some X /\ k ∈ X) <->
                    k ∈ X /\ forall o, o ∈ map snd others -> k ∈ keys o).
    { clear -Hothers HA HX. split.
      - intros Hall. split; [destruct (Hall n) as (X' & E & HX'); [left|congruence]|].
        intros o ([m o'] & -> & [i Ho]%list_elem_of_lookup)%elem_of_map.
        destruct (Forall2_lookup_r _ _ _ _ _ Hothers Ho) as (m' & Hm & [Em (Y & HY & HT)]). cbn [fst snd] in *. subst m'.
        destruct (Hall m) as (Y' & E & Hk); [right; by eapply list_elem_of_lookup_2|].
        apply (table_keys db Y o' HT). congruence.
      - intros [Hk Hall] m [->|Hm]%elem_of_cons; [eauto|]. apply list_elem_of_lookup in Hm as (i & Hi).
        destruct (Forall2_lookup_l _ _ _ _ _ Hothers Hi) as ([m' o] & Ho & [Em (Y & HY & HT)]). cbn [fst snd] in *. subst m'.
        exists Y. split; [done|]. apply (table_keys db Y o HT). apply Hall.
        change o with (snd (m, o)). apply elem_of_map_2. by eapply list_elem_of_lookup_2. }
    rewrite Hsets. split; [intros ([? ?] & ? & ? & ? & ?)|intros ([? ?] & ? & (f' & Ef & ?) & ? & ?)]; split_and!; try done.
    - by exists f.
    - rewrite Hf in Ef. injection Ef as ->. done. }
  apply (exact_keys_filter db); [|done|].
  - intros d r Hs Hd. rewrite !andb_true_iff, str_in_spec. rewrite (set_tags _ _ r (s_key r) d Hfs Hd Hs), (set_box_proper b f d r Hf Hs).
    unfold s_key. cbn [fst snd]. tauto.
  - split.
    + intros r [Hr Hall]%elem_of_join. destruct (table_current db X first HX r Hr) as (d & Hd & Hs). exists d.
      split_and!; [done|done|by eapply table_row_key|done].
    + intros k d Hd [Hk Hall]. destruct (table_rows db X first k HX Hk) as (r & d' & Hr & <- & Hd' & Hs). exists r.
      split; [|congruence]. by apply elem_of_join.
Qed.

(** ** Scans *)
Context (inside : option BBox -> key -> row -> Prop) (inside_all : forall k d, inside None k d).
Context (scan_law : forall t bbox fs ids (f : row -> bool), t ∈ element_types -> compiles G fs = true -> (t = NODE -> untagged_covered keeps fs) -> set_box_where bbox = Ok f ->
  reads_rows (spatial_select None t bbox fs ids)
    (exact db t (fun i d => inside bbox (t, i) d /\ ids_where ids i = true /\ keeps fs d = true))).

Lemma scans_means q b (f : row -> bool) (s : state G) : compiles G (_tag_filters_for (q_filters q)) = true -> set_box_where b = Ok f -> SNAPSHOT s = None -> Forall (fun t => t ∈ element_types) (q_types q) ->
  (NODE ∈ q_types q -> untagged_covered keeps (_tag_filters_for (q_filters q))) ->
  runs_quiet (collect (fun t => match some_ids (_ids_for (q_filters q)), b with
                                | Some l, None => read_rows (build_byid_select None t l (_tag_filters_for (q_filters q)))
                                | _, _ => read_rows (spatial_select None t b (_tag_filters_for (q_filters q)) (_ids_for (q_filters q)))
                                end) (q_types q)) s
    (fun parts => exact_keys db (fun k d => asked keeps q k d /\ of_ids q k.2 /\ inside b k d) (concat parts)).
Proof.
  intros Hfs Hf Hsnap Htypes Hcov. set (fs := _tag_filters_for _) in *. set (ids := _ids_for _).
  eapply runs_quiet_weaken.
  { apply (runs_quiet_collect _ (fun t => exact db t (fun i d => inside b (t, i) d /\ ids_where ids i = true /\ keeps fs d = true))).
    intros t s' Ht _. assert (Hel : t ∈ element_types) by (by eapply Forall_forall in Htypes).
    assert (Hscan := scan_law t b fs ids f Hel Hfs ltac:(by intros ->; apply Hcov) Hf). destruct (some_ids ids) as [l|] eqn:Ei, b as [b|]; try by apply runs_quiet_read.
    apply runs_quiet_read. eapply reads_rows_weaken; [by apply (byid_law (snap := None) (db := db) (keeps := keeps))|].
    assert (Hids : forall i, ids_where ids i = true <-> i ∈ l).
    { intros i. destruct ids as [[|x ids]|]; [done| |done]. injection Ei as <-. cbn [ids_where]. apply mem_spec. }
    intros rows [X1 X2]. split.
    - intros r Hr. destruct (X1 r Hr) as (d & Hd & Hs & Hk & Hkeep). exists d. split_and!; [done|done|apply inside_all|by apply Hids|done].
    - intros i d Hd (_ & Hi & Hkeep). apply (X2 i d Hd). split; [by apply Hids|done]. }
  intros parts Hparts. cbn beta in Hparts. fold fs. unfold asked, of_ids. fold fs ids.
  assert (Hex : exact_keys db (fun k d => k.1 ∈ q_types q /\ inside b k d /\ ids_where ids k.2 = true /\ keeps fs d = true) (concat parts)).
  { clear Htypes Hcov. induction Hparts as [|t rows ts parts Ht _ IH]; cbn [concat].
    - apply exact_keys_nil. intros k d [Hk _]. by inversion Hk.
    - apply (exact_to_keys db t) in Ht; [|done]. eapply exact_keys_ext; [|by apply (exact_keys_app db _ _ _ _ Ht IH)].
      intros [t' i] d _. cbn [fst snd]. rewrite elem_of_cons. naive_solver. }
  eapply exact_keys_ext; [|exact Hex]. intros k d _. tauto.
Qed.

(** ** [execute_query] *)
Context (m : Catalog.Manifest) (global_bbox : option BBox) `{RowChoiceLaw G} `{AreaHooks G}.

Lemma effective_core q fs b (s : state G) : Forall (fun f => is_core f = true) fs -> effective_bbox q fs b s = (Ok b, s).
Proof. intros Hfs. revert b. induction Hfs as [|f fs Hf _ IH]; intros b; [done|]. cbn [effective_bbox]. unfold hooked. rewrite Hf. apply IH. Qed.

Definition known (A : store) (s : state G) (n : pystr) : Prop :=
  exists X rows, A !! n = Some X /\ find_set n (sets s) = Some rows /\ table_for db X rows.

Lemma known_quiet A s s' n : quiet s s' -> known A s n -> known A s' n.
Proof. intros (E & _) (X & rows & HA & Hf & HX). exists X, rows. by rewrite E. Qed.

Lemma query_rows_means A q (s : state G) :
  plain keeps global_bbox q -> is_empty_bbox (_bbox_for (q_filters q) global_bbox) = false ->
  distinct s -> SNAPSHOT s = None -> (forall n, n ∈ query_sources q -> known A s n) ->
  runs_quiet (query_rows q (_bbox_for (q_filters q) global_bbox)) s
    (exact_keys db (selected db keeps inside global_bbox A q)).
Proof.
  intros (Hfs & Hcov & Htypes & Hcore & Hnames & [f Hbox]) Hbox_ok Hd Hsnap Hsources. unfold query_rows.
  set (bbox := _bbox_for (q_filters q) global_bbox) in *. unfold selected. fold bbox.
  unfold query_sources in Hsources, Hcov. destruct (_recurse_filters_for (q_filters q)) as [|[[kind n] role] ?] eqn:Er.
  2: { destruct (Hsources n) as (X & rows & HA & Hf & HX); [left|].
       eapply runs_quiet_weaken; [by apply (recurse_filter_means q s kind n role X rows)|]. intros out.
       apply exact_keys_ext. intros k d _. rewrite HA. naive_solver. }
  destruct (q_input_sets q) as [|n0 names] eqn:En.
  - eapply runs_quiet_bind with (P := fun _ => True).
    { destruct bbox; [by apply runs_quiet_ret|]. destruct (some_ids _); [by apply runs_quiet_ret|]. by apply runs_modify. }
    intros [] s1 Hq1 _. apply runs_then, runs_get. destruct Hq1 as (E1 & E2 & E3). rewrite E2, Hsnap.
    eapply runs_quiet_bind; [apply (scans_means q bbox f); [done|done|by rewrite E2|done|by intros ?; apply Hcov]|]. intros parts s2 _ Hparts. apply runs_quiet_ret.
    eapply exact_keys_ext; [|exact Hparts]. intros k d _. unfold asked. tauto.
  - clear Hcov. rewrite <- En in *.
    eapply runs_quiet_bind with (P := fun _ => True).
    { clear En Hnames Hbox. revert s Hd Hsnap Hsources. induction (q_input_sets q) as [|n ns IH]; intros s Hd Hsnap Hsources; cbn [each]; [by apply runs_quiet_ret|].
      destruct (Hsources n) as (X & rows & HA & Hf & HX); [left|].
      eapply runs_quiet_bind; [by apply (runs_read_set s n rows)|]. intros [] s1 Hq1 _.
      apply IH; [by unfold distinct; destruct Hq1 as [-> _]|by destruct Hq1 as (_ & -> & _)|].
      intros x Hx. eapply known_quiet; [exact Hq1|]. apply Hsources. by right. }
    intros [] s1 Hq1 _.
    eapply runs_quiet_bind.
    { apply (runs_quiet_collect _ (fun n nr => nr.1 = n /\ exists X, A !! n = Some X /\ table_for db X nr.2)).
      intros n s2 Hn Hq2. assert (Hk : known A s2 n) by (eapply known_quiet; [exact Hq2|]; eapply known_quiet; [exact Hq1|]; auto).
      destruct Hk as (X & rows & HA & Hf & HX). unfold read_input.
      destruct (runs_read_set s2 n rows) as [_ Hread]; [|done|].
      { unfold distinct. destruct Hq1 as [E1 _], Hq2 as [E2 _]. by rewrite E2, E1. }
      eapply runs_quiet_bind; [exact Hread|]. intros ? s3 _ <-. apply runs_quiet_ret. eauto. }
    intros inputs s2 _ Hin. cbn beta in Hin.
    destruct (from_sets_means A q bbox f inputs Hfs Hbox Hin) as (rows & E & Hrows); [by rewrite En|done|].
    apply (runs_quiet_lift _ rows); [done|]. eapply exact_keys_ext; [|exact Hrows]. intros k d _. tauto.
Qed.
End Queries.
