(* ===== verification/PlannerRefines.v ===== *)
(** The planner does what a program means: [execute_statement] refines [means].

    The tables of the captured parts of a union, a difference or a [foreach]
    have names of their own, which no statement overwrites; a set of the program
    holds one current row for each of its elements. *)
From S2P Require Import Prelude PyStr PyFloat PyTime Json QlAst SqlExpr Schema Cells Catalog.
From S2P Require Import Sql Sources EvalSet SetTables EvalSetFacts RowSources Recurse TagSql TagSqlFacts RecurseFacts MetaFilters Planner PlannerFacts PlannerSem QueryMeans.

#[export] Instance duck_compiles `{DuckDB G} : Compiles G := filters_valid.

(** The elements whose tags match. *)
Definition keeps `{DuckDB G} (fs : list TagFilter) (r : set_row G) : bool := forallb (tag_matches (s_tags r)) fs.
Lemma set_tags `{UnicodeDB} `{DuckDB G} base fs (r d : set_row G) : filters_valid fs = true -> same_element d r -> set_tag_where base fs r = keeps fs d.
Proof.
  intros Hv Hs. unfold set_tag_where, where_true, keeps. rewrite (s_tags_proper _ _ Hs).
  destruct (tag_filters_meaning [] (base ++ u ".") (row_of base r) (s_tags r)) with (fs := fs) as (v & -> & <-); [|done|done].
  split; [|done]. unfold row_of. by rewrite str_eqb_refl.
Qed.

Lemma set_binds `{DuckDB G} base fs : compiles G fs = true -> bound (tag_filters_expr [] (base ++ u ".") fs) = Ok tt.
Proof. intros Hv. unfold bound. rewrite tag_filters_valid. unfold compiles, duck_compiles in Hv. by rewrite Hv. Qed.

(** What the planner asks of its row source, its renderer and the indexes. *)
Class CurrentData (G : Type) `{UnicodeDB} `{DuckDB G} `{RowSources G} (db : database G)
    (inside : option BBox -> key -> set_row G -> Prop)
    (indexed : option pystr -> key -> key -> Prop) : Prop := {
  #[global] current_reads :: RowSourcesLaws G keeps None db;
  #[global] current_parents :: ParentLaws G db indexed;
  (** the base indexes list no parent that is not one now *)
  up_to_date : forall role p c, indexed role p c -> ref db role p c;
  inside_all : forall k d, inside None k d;
  scan_law : forall t bbox fs ids (f : set_row G -> bool), t ∈ element_types -> compiles G fs = true -> (t = NODE -> untagged_covered keeps fs) ->
    set_box_where bbox = Ok f ->
    reads_rows (spatial_select None t bbox fs ids)
      (exact db t (fun i d => inside bbox (t, i) d /\ ids_where ids i = true /\ keeps fs d = true))
}.

(** * The order of [foreach] *)
#[export] Instance key_le_total : Total key_le.
Proof.
  intros [s i] [t j]. unfold key_le. cbn [fst snd]. destruct (str_eqb_eq s t) as [E1 E2]. destruct (s =s t) eqn:E.
  - rewrite (E1 eq_refl), str_eqb_refl. cbn. rewrite !Z.leb_le. lia.
  - assert (Et : (t =s s) = false) by (apply str_eqb_neq; intros ->; by rewrite str_eqb_refl in E). rewrite Et. cbn.
    rewrite !orb_false_r. apply (total str_le).
Qed.
#[export] Instance key_le_trans : Transitive key_le.
Proof.
  intros [s i] [t j] [r k]. unfold key_le. cbn [fst snd]. rewrite !orb_true_iff, !andb_true_iff, !negb_true_iff, !str_eqb_eq, !str_eqb_neq, !Z.leb_le.
  intros [[Hst Hs]|[-> Hi]] [[Htr Ht]|[-> Hj]]; [|by left|by left|right; split; [done|lia]].
  left. split; [|exact (str_le_trans s t r Hs Ht)]. intros ->. apply Hst. by apply (anti_symm str_le).
Qed.
#[export] Instance key_le_antisym : AntiSymm (=) key_le.
Proof.
  intros [s i] [t j]. unfold key_le. cbn [fst snd]. rewrite !orb_true_iff, !andb_true_iff, !negb_true_iff, !str_eqb_eq, !str_eqb_neq, !Z.leb_le.
  intros [[Hst Hs]|[-> Hi]] [[Hts Ht]|[E Hj]]; subst; try done; [|f_equal; lia]. destruct Hst. by apply (anti_symm str_le).
Qed.
#[export] Instance row_le_total {G} : Total (@row_le G).
Proof. intros a b. apply (total key_le (s_key a) (s_key b)). Qed.
#[export] Instance row_le_trans {G} : Transitive (@row_le G).
Proof. intros a b c. apply (transitivity (R := key_le) (x := s_key a) (y := s_key b) (z := s_key c)). Qed.

(** The rows of a table in the order of the loop. *)
Lemma ordered_keys {G} (rows ordered : list (set_row G)) ks : NoDup (map s_key rows) -> ordered ≡ₚ rows ->
  StronglySorted row_le ordered -> NoDup ks -> StronglySorted key_le ks -> (forall k, k ∈ ks <-> k ∈ map s_key rows) ->
  map s_key ordered = ks.
Proof.
  intros Hu Hp Hs Hn Hks Hk. apply (StronglySorted_unique key_le).
  - clear -Hs. induction Hs as [|r l _ IH Hr]; cbn [map]; constructor; [done|]. apply Forall_map. exact Hr.
  - done.
  - apply NoDup_Permutation; [by rewrite Hp|done|]. intros k. by rewrite Hp, Hk.
Qed.

Section Refines.
Context `{UnicodeDB} {G : Type} `{DuckDB G} `{RowSources G} `{RowChoiceLaw G} `{Renderer G} `{AreaHooks G}.
Context (db : database G) (inside : option BBox -> key -> set_row G -> Prop).
Context (indexed : option pystr -> key -> key -> Prop) `{!CurrentData G db inside indexed}.
Context (m : Catalog.Manifest) (global_bbox : option BBox) (areas_used diff_mode : bool).
(** Every set can be rendered. *)
Context (renders : forall rows o, exists out, build_elements None rows o areas_used = Ok out).
(** The names of the program: none is another's in a different case, none is of
    the planner's own tables. *)
Context (N : list pystr) (N_fold : forall a b, a ∈ N -> b ∈ N -> fold_name a = fold_name b -> a = b) (N_user : Forall user_name N).
Abbreviation row := (set_row G).
Abbreviation run := (execute_statement m global_bbox areas_used diff_mode).
Let Hdb : well_typed db := db_typed (snap := None).

(** * Stores and states *)
Record rep (A : store) (s : state G) : Prop := {
  rep_snap : SNAPSHOT s = None;
  rep_distinct : distinct s;
  rep_sets : forall n X, A !! n = Some X -> n ∈ N /\ exists rows, find_set n (sets s) = Some rows /\ table_for db X rows
}.

Lemma rep_quiet A s s' : quiet s s' -> rep A s -> rep A s'.
Proof.
  intros (E1 & E2 & _) [R1 R2 R3]. split; [congruence|by unfold distinct; rewrite E1|].
  intros n X HA. rewrite E1. auto.
Qed.
Lemma rep_known A s n X : rep A s -> A !! n = Some X -> exists rows, find_set n (sets s) = Some rows /\ table_for db X rows.
Proof. intros HR HA. by apply (rep_sets _ _ HR). Qed.

(** A set of the program is written... *)
Lemma rep_write A s n X rows : n ∈ N -> table_for db X rows -> rep A s ->
  rep (<[n:=X]> A) (with_sets (create_or_replace n rows (sets s)) s).
Proof.
  intros Hn HX [R1 R2 R3]. split; [done|by apply create_names|]. intros n' X' HA. cbn [sets with_sets].
  destruct (decide (n = n')) as [<-|Hne].
  - rewrite lookup_insert_eq in HA. injection HA as <-. split; [done|]. exists rows. split; [apply find_create|done].
  - rewrite lookup_insert_ne in HA by done. destruct (R3 n' X' HA) as (Hn' & rows' & Hf & HX'). split; [done|].
    exists rows'. split; [|done]. rewrite find_create_ne; [done|]. intros E. apply Hne. symmetry. by apply N_fold.
Qed.
(** ... or a table of the planner. *)
Lemma rep_capture A s p k rows : p ∈ captures -> rep A s -> rep A (with_sets (create_or_replace (fresh p k) rows (sets s)) s).
Proof.
  intros Hp [R1 R2 R3]. split; [done|by apply create_names|]. intros n X HA. destruct (R3 n X HA) as (Hn & rows' & Hf & HX).
  split; [done|]. exists rows'. split; [|done]. cbn [sets with_sets]. rewrite find_create_ne; [done|].
  rewrite (fold_fresh p k Hp). apply user_not_fresh; [|done]. by eapply Forall_forall in N_user.
Qed.

(** * What is shown *)
Definition shows (x : Out * gset key) (els : list json) : Prop :=
  exists rows vs, table_for db x.2 rows /\ build_elements None rows (effective_out diff_mode x.1) areas_used = Ok (els, vs).
Definition emits (tr : trace) (s s' : state G) : Prop :=
  exists parts, Forall2 shows tr parts /\ elements s' = elements s ++ concat parts.
Lemma emits_nil s s' : elements s' = elements s -> emits [] s s'.
Proof. intros E. exists []. split; [done|]. by rewrite app_nil_r. Qed.
Lemma emits_app tr tr' s s' s'' : emits tr s s' -> emits tr' s' s'' -> emits (tr ++ tr') s s''.
Proof.
  intros (ps & H1' & E1) (qs & H2' & E2). exists (ps ++ qs). split; [by apply Forall2_app|].
  by rewrite concat_app, app_assoc, <- E1.
Qed.
Lemma emits_start tr s0 s s' : elements s0 = elements s -> emits tr s s' -> emits tr s0 s'.
Proof. intros E (ps & Hp & Es). exists ps. by rewrite E. Qed.
Lemma emits_end tr s s' s1 : elements s1 = elements s' -> emits tr s s' -> emits tr s s1.
Proof. intros E (ps & Hp & Es). exists ps. by rewrite E. Qed.

(** * One statement *)
Definition does (A : store) (c : M G ()) (tr : trace) (A' : store) : Prop :=
  forall s, rep A s -> runs c s (fun _ s' => rep A' s' /\ emits tr s s').

Lemma does_materialize A n X P rows s : n ∈ N -> rep A s -> exact_keys db P rows ->
  (forall k, k ∈ X <-> exists d, find_row db k = Some d /\ P k d) -> (forall k, k ∈ X -> k.1 ∈ element_types) ->
  runs (materialize_set n rows) s (fun _ s' => rep (<[n:=X]> A) s' /\ emits [] s s').
Proof.
  intros Hn HR Hrows HX Ht. apply runs_modify. split; [|by apply emits_nil].
  apply rep_write; [done| |done]. by apply (table_dedup db Hdb P).
Qed.
(** After quiet steps. *)
Lemma does_after {A : Type} (c : M G A) (k : A -> M G ()) s St tr St' (P : A -> Prop) :
  rep St s -> runs_quiet c s P ->
  (forall a s', rep St s' -> P a -> runs (k a) s' (fun _ s'' => rep St' s'' /\ emits tr s' s'')) ->
  runs (bind c k) s (fun _ s' => rep St' s' /\ emits tr s s').
Proof.
  intros HR Hc Hk. apply runs_then. eapply runs_weaken; [exact Hc|]. intros a s' [Hq HP].
  eapply runs_weaken; [apply Hk; [by eapply rep_quiet|done]|]. intros [] s'' [HR' He]. split; [done|].
  eapply emits_start; [|exact He]. by destruct Hq as (_ & _ & -> & _).
Qed.
Lemma does_read A s n X : rep A s -> A !! n = Some X ->
  runs_quiet (require_set n) s (fun _ => True) /\ runs_quiet (read_set n) s (table_for db X).
Proof.
  intros HR HA. destruct (rep_known A s n X HR HA) as (rows & Hf & HX).
  destruct (runs_read_set s n rows) as [Hreq Hread]; [apply HR|done|]. split; [done|].
  eapply runs_quiet_weaken; [exact Hread|]. by intros ? <-.
Qed.

Lemma does_query A q X : q_output_set q ∈ N -> plain keeps global_bbox q ->
  (is_empty_bbox (_bbox_for (q_filters q) global_bbox) = false -> forall n, n ∈ query_sources q -> is_Some (A !! n)) ->
  (forall k, k ∈ X <-> exists d, find_row db k = Some d /\ selected db keeps inside global_bbox A q k d) ->
  does A (execute_query m global_bbox q) [] (<[q_output_set q := X]> A).
Proof.
  intros Hn Hplain Hsources HX s HR. pose proof Hplain as (_ & _ & Htypes & Hcore & _). unfold execute_query.
  assert (Harea : str_in (u "area") (q_types q) = false).
  { apply not_true_iff_false. rewrite str_in_spec. intros Hin. eapply Forall_forall in Htypes; [|exact Hin].
    apply elem_of_element_types in Htypes as [E|[E|E]]; by vm_compute in E. }
  rewrite Harea.
  assert (Hcheck : _check_unsupported_filters q = Ok ()).
  { unfold _check_unsupported_filters. replace (forallb _ _) with true; [done|]. symmetry. apply forallb_forall.
    intros f Hf%list_elem_of_In. eapply Forall_forall in Hcore; [|exact Hf]. by rewrite Hcore. }
  eapply does_after with (P := fun _ => True); [exact HR|by apply (runs_quiet_lift _ ())|]. clear s HR. intros [] s HR _.
  eapply does_after with (P := eq (_bbox_for (q_filters q) global_bbox)); [exact HR|exists (_bbox_for (q_filters q) global_bbox), s; by split; [apply effective_core|]|].
  clear s HR. intros ? s HR <-.
  assert (Hty : forall k, k ∈ X -> k.1 ∈ element_types).
  { intros k Hk. apply HX in Hk as (d & _ & _ & [Hk _] & _). by eapply Forall_forall in Htypes. }
  destruct (is_empty_bbox (_bbox_for (q_filters q) global_bbox)) eqn:Eb.
  { apply does_materialize with (P := selected db keeps inside global_bbox A q); [done|done| |done|done].
    apply exact_keys_nil. intros k d [E _]. by rewrite Eb in E. }
  assert (Hk : forall n, n ∈ query_sources q -> known db A s n).
  { intros n Hin. destruct (Hsources eq_refl n Hin) as [Y HY]. destruct (rep_known A s n Y HR HY) as (rows & ? & ?). by exists Y, rows. }
  eapply does_after; [exact HR| |].
  { exact (query_rows_means db keeps indexed up_to_date (fun base fs r k d Hv _ Hs => set_tags base fs r d Hv Hs) set_binds inside inside_all scan_law global_bbox A q s Hplain Eb
             (rep_distinct _ _ HR) (rep_snap _ _ HR) Hk). }
  clear s HR Hk. intros rows s HR Hrows.
  assert (Hhooks : base.filter (fun f => hooked f = true) (q_filters q) = []).
  { clear -Hcore. induction Hcore as [|f fs Hf _ IH]; [done|]. rewrite filter_cons, decide_False; [done|]. unfold hooked. by rewrite Hf. }
  rewrite Hhooks. apply runs_then, runs_done. by apply does_materialize with (P := selected db keeps inside global_bbox A q).
Qed.

Lemma does_recurse A kind i o X Y : o ∈ N -> A !! i = Some X -> (forall k, k ∈ Y <-> exists_ db k /\ recursed db kind X k) ->
  does A (execute_recurse kind i o) [] (<[o := Y]> A).
Proof.
  intros Ho HX HY s HR. unfold execute_recurse.
  eapply does_after; [exact HR|by eapply does_read|]. clear s HR. intros [] s HR _.
  eapply does_after; [exact HR|by eapply does_read|]. clear s HR. intros rows s HR Hrows.
  apply runs_then, runs_get. rewrite (rep_snap _ _ HR).
  eapply does_after; [exact HR| |].
  { apply runs_quiet_read. exact (recursion_means db keeps indexed up_to_date kind X rows Hrows). }
  clear s HR. intros out s HR Hout. apply (does_materialize A o Y (fun k _ => recursed db kind X k)); [done|done|done| |].
  - intros k. rewrite HY. unfold exists_, is_Some. naive_solver.
  - intros k Hk. apply HY in Hk as [_ Hk]. refine (recursed_types db keeps kind X k _ Hk). by eapply table_types.
Qed.

Lemma does_item A i o X : o ∈ N -> A !! i = Some X -> does A (execute_item i o) [] (<[o := X]> A).
Proof.
  intros Ho HX s HR. unfold execute_item.
  eapply does_after; [exact HR|by eapply does_read|]. clear s HR. intros [] s HR _.
  eapply does_after; [exact HR|by eapply does_read|]. clear s HR. intros rows s HR Hrows.
  apply (does_materialize A o X (fun k _ => k ∈ X)); [done|done|by apply table_exact| |].
  - intros k. split; [|naive_solver]. intros Hk. destruct (table_rows db X rows k Hrows Hk) as (r & d & _ & _ & Hd & _). eauto.
  - by eapply table_types.
Qed.

Lemma does_out A o X : A !! o_input_set o = Some X -> does A (execute_out areas_used diff_mode o) [(o, X)] A.
Proof.
  intros HX s HR. unfold execute_out.
  eapply does_after; [exact HR|by eapply does_read|]. clear s HR. intros [] s HR _.
  eapply does_after; [exact HR|by eapply does_read|]. clear s HR. intros rows s HR Hrows.
  apply runs_then, runs_get. rewrite (rep_snap _ _ HR).
  destruct (renders rows (effective_out diff_mode o)) as [[els vs] Hout].
  apply runs_then, (runs_lift _ (els, vs)); [done|]. apply runs_then, runs_modify.
  assert (He : emits [(o, X)] s (with_elements (elements s ++ els) s)).
  { exists [els]. split; [|by cbn; rewrite app_nil_r]. constructor; [|done]. by exists rows, vs. }
  assert (HR' : rep A (with_elements (elements s ++ els) s)) by (destruct HR; by split).
  destruct diff_mode; [|by apply runs_done]. apply runs_modify. split; [by destruct HR'; split|exact He].
Qed.

(** * Blocks *)
(** A table the planner made before the state [s]. *)
Definition holds (s : state G) (n : pystr) (X : gset key) : Prop :=
  captured (counter s) n /\ exists rows, from_set n (sets s) = Ok rows /\ table_for db X rows.
Lemma holds_later s s' n X : distinct s -> reserves (counter s) s s' -> holds s n X -> holds s' n X.
Proof.
  intros Hd Hs [Hn (rows & Hf & HX)]. destruct (Hs Hd ltac:(lia)) as (_ & Hc & Hk). split.
  - destruct Hn as (p & k & Hp & Hlt & ->). exists p, k. split_and!; [done|lia|done].
  - exists rows. by rewrite Hk.
Qed.

Abbreviation named st := (Forall (fun o => o ∈ N) (outputs st)).
Abbreviation all_named l := (Forall (fun o => o ∈ N) (all_outputs l)).
Lemma named_writable c l : Forall (fun o => o ∈ N) l -> Forall (writable c) l.
Proof. intros Hl. eapply Forall_impl; [exact Hl|]. intros n Hn. left. by eapply Forall_forall in N_user. Qed.
Lemma run_reserves c l : all_named l -> steps (reserves c) (collect (_execute_and_capture run) l).
Proof.
  intros Hl. apply steps_collect; [typeclasses eauto|].
  assert (Hw := named_writable c _ Hl). clear Hl. induction l as [|st l IH]; [done|]. cbn [all_outputs flat_map] in Hw.
  apply Forall_app in Hw as [Hst Hl]. constructor; [|auto]. apply (steps_capture _ (writable c)).
  by apply (steps_statement _ _ _ _ _ (writable c)).
Qed.

Lemma does_capture A st o tr A' X : does A (run st) tr A' -> output_set st = Some o -> A' !! o = Some X ->
  forall s, rep A s -> runs (_execute_and_capture run st) s (fun n s' => rep A' s' /\ emits tr s s' /\ holds s' n X).
Proof.
  intros Hst Ho HX s HR. unfold _execute_and_capture. apply runs_then. eapply runs_weaken; [by apply Hst|].
  intros [] s1 [HR1 He]. apply runs_then, (runs_lift _ o); [unfold _output_set_name; by rewrite Ho|].
  apply runs_then, runs_fresh. set (s2 := with_counter _ s1).
  assert (HR2 : rep A' s2) by (destruct HR1; by split).
  destruct (does_read A' s2 o X HR2 HX) as [_ Hread]. apply runs_then. eapply runs_weaken; [exact Hread|].
  intros rows s3 [Hq Hrows]. assert (HR3 : rep A' s3) by by eapply rep_quiet.
  apply runs_then, runs_modify, runs_done. split_and!.
  - apply rep_capture; [by left|done].
  - eapply emits_end; [|exact He]. cbn. by destruct Hq as (_ & _ & -> & _).
  - split.
    + exists (u "part"), (counter s1). split_and!; [by left| |done]. cbn. destruct Hq as (_ & _ & _ & ->). cbn. lia.
    + exists rows. split; [|done]. cbn [sets with_sets]. by rewrite from_create, str_eqb_refl.
Qed.

Lemma does_cons_part A st o tr A1 X l tr' A2 Xs : does A (run st) tr A1 -> output_set st = Some o -> A1 !! o = Some X ->
  all_named l ->
  (forall s, rep A1 s -> runs (collect (_execute_and_capture run) l) s (fun ns s' => rep A2 s' /\ emits tr' s s' /\ Forall2 (holds s') ns Xs)) ->
  forall s, rep A s -> runs (collect (_execute_and_capture run) (st :: l)) s
    (fun ns s' => rep A2 s' /\ emits (tr ++ tr') s s' /\ Forall2 (holds s') ns (X :: Xs)).
Proof.
  intros Hst Ho HX Hl Hrest s HR. cbn [collect]. apply runs_then. eapply runs_weaken; [by eapply does_capture|].
  intros n s1 (HR1 & He1 & Hh1). cbn beta. apply runs_then. pose proof (run_reserves (counter s1) l Hl s1) as Hres.
  destruct (Hrest s1 HR1) as (ns & s2 & E & HR2 & He2 & Hh2). exists ns, s2. split; [done|]. rewrite E in Hres.
  apply runs_done. split_and!; [done|by eapply emits_app|]. constructor; [|done].
  eapply holds_later; [|exact Hres|done]. apply HR1.
Qed.

Lemma parts_select s ns Xs : Forall2 (holds s) ns Xs ->
  exists rows, union_select ns (sets s) = Ok rows /\ exact_keys db (fun k _ => k ∈ ⋃ Xs) rows /\
    forall k, k ∈ ⋃ Xs -> k.1 ∈ element_types /\ exists_ db k.
Proof.
  unfold union_select. induction 1 as [|n X ns Xs [_ (rows & Hf & HX)] _ (rest & Hr & He & Ht)].
  - exists []. split; [done|]. split; [apply exact_keys_nil; intros k _; cbn; set_solver|]. cbn. set_solver.
  - exists (rows ++ rest). rewrite res_flat_map_cons, Hf. cbn [res_bind]. rewrite Hr. split; [done|]. split.
    + eapply exact_keys_ext; [|apply (exact_keys_app db _ _ _ _ (table_exact db X rows HX) He)].
      intros k d _. cbn. set_solver.
    + intros k. cbn. rewrite elem_of_union. intros [Hk|Hk]; [|by apply Ht]. split; [by eapply table_types|].
      destruct (table_rows db X rows k HX Hk) as (r & d & _ & _ & Hd & _). by exists d.
Qed.

Lemma difference_rows s a b X Y : holds s a X -> holds s b Y ->
  exists rows, difference_select a b (sets s) = Ok rows /\ exact_keys db (fun k _ => k ∈ X ∖ Y) rows.
Proof.
  intros [_ (xs & Hx & HX)] [_ (ys & Hy & HY)]. unfold difference_select. rewrite Hx, Hy. eexists. split; [reflexivity|].
  apply (exact_keys_ext db (fun k _ => k ∈ X /\ k ∉ Y)); [intros; set_solver|].
  assert (Hf := exact_keys_filter db (fun k _ => k ∈ X) (fun k _ => k ∉ Y) (fun r => negb (has_key (s_key r) ys)) xs).
  assert (E : base.filter (fun r => has_key (s_key r) ys = false) xs = base.filter (fun r => negb (has_key (s_key r) ys) = true) xs).
  { apply list_filter_iff. intros r. by rewrite negb_true_iff. }
  rewrite E. apply Hf; [|done|by apply table_exact].
  intros d r _ _. by rewrite negb_true_iff, has_key_false, (table_keys db Y ys HY).
Qed.

Lemma does_union A l o tr A' Xs : o ∈ N ->
  (forall s, rep A s -> runs (collect (_execute_and_capture run) l) s (fun ns s' => rep A' s' /\ emits tr s s' /\ Forall2 (holds s') ns Xs)) ->
  does A (execute_union run l o) tr (<[o := ⋃ Xs]> A').
Proof.
  intros Ho Hl s HR. unfold execute_union. apply runs_then. eapply runs_weaken; [by apply Hl|].
  intros ns s1 (HR1 & He & Hh). destruct (parts_select s1 ns Xs Hh) as (rows & Hsel & Hrows & Hty).
  assert (Hgo : forall rows', exact_keys db (fun k _ => k ∈ ⋃ Xs) rows' ->
            runs (materialize_set o rows') s1 (fun _ s' => rep (<[o := ⋃ Xs]> A') s' /\ emits tr s s')).
  { intros rows' Hrows'. eapply runs_weaken.
    - apply (does_materialize A' o (⋃ Xs) (fun k _ => k ∈ ⋃ Xs) rows' s1); [done|done|done| |].
      + intros k. split; [|naive_solver]. intros Hk. destruct (Hty k Hk) as [_ [d Hd]]. eauto.
      + intros k Hk. by apply Hty.
    - intros [] s2 [HR2 He2]. split; [done|]. rewrite <- (app_nil_r tr). by eapply emits_app. }
  destruct ns as [|n ns]; [|apply runs_then, runs_get, runs_then, (runs_lift _ rows); [done|]; by apply Hgo].
  apply Hgo. by injection Hsel as <-.
Qed.
Lemma does_difference A a b o tr A' X Y : o ∈ N ->
  (forall s, rep A s -> runs (collect (_execute_and_capture run) [a; b]) s (fun ns s' => rep A' s' /\ emits tr s s' /\ Forall2 (holds s') ns [X; Y])) ->
  does A (execute_difference run a b o) tr (<[o := X ∖ Y]> A').
Proof.
  intros Ho Hl s HR. destruct (Hl s HR) as (ns & s2 & E & HR2 & He & Hh). cbn [collect] in E. unfold execute_difference.
  unfold bind in E. destruct (_execute_and_capture run a s) as [[na|?] s1] eqn:Ea; [|done].
  destruct (_execute_and_capture run b s1) as [[nb|?] s2'] eqn:Eb; [|done]. unfold ret in E. injection E as <- ->.
  inversion Hh as [|? ? ? ? Ha Hh']; subst. inversion Hh' as [|? ? ? ? Hb _]; subst.
  destruct (difference_rows s2 na nb X Y Ha Hb) as (rows & Hsel & Hrows).
  apply runs_then. exists na, s1. split; [done|]. apply runs_then. exists nb, s2. split; [done|].
  apply runs_then, runs_get, runs_then, (runs_lift _ rows); [done|]. eapply runs_weaken.
  - apply (does_materialize A' o (X ∖ Y) (fun k _ => k ∈ X ∖ Y) rows s2); [done|done|done| |].
    + intros k. split; [|naive_solver]. intros Hk. destruct Ha as [_ (xs & _ & HX)].
      destruct (table_rows db X xs k HX) as (r & d & _ & _ & Hd & _); [set_solver|]. eauto.
    + intros k Hk. destruct Ha as [_ (xs & _ & HX)]. eapply table_types; [exact HX|]. set_solver.
  - intros [] s3 [HR3 He3]. split; [done|]. rewrite <- (app_nil_r tr). by eapply emits_app.
Qed.

(** * [foreach] *)
Lemma all_reserves c l : all_named l -> steps (reserves c) (each run l).
Proof. intros Hl. apply (steps_statements _ _ _ _ _ (writable c)). by apply named_writable. Qed.

Definition iteration (snapshot o : pystr) (body : M G ()) (r : row) : M G () :=
  do! kept := read_set snapshot in
  do! _ := materialize_set o (base.filter (fun x => s_key x = s_key r) kept) in
  body.

Lemma iteration_reserves c snapshot o l r : o ∈ N -> all_named l -> steps (reserves c) (iteration snapshot o (each run l) r).
Proof.
  intros Ho Hl. unfold iteration. apply steps_bind; [typeclasses eauto|by apply (steps_read_set _ (writable c))|]. intros kept.
  apply steps_bind; [typeclasses eauto| |intros _; by apply all_reserves].
  apply (steps_materialize _ (writable c)). left. by eapply Forall_forall in N_user.
Qed.

Lemma does_iteration A snapshot o l X k r tr A' s : o ∈ N -> all_named l -> rep A s -> holds s snapshot X -> k ∈ X -> s_key r = k ->
  does (<[o := {[k]}]> A) (each run l) tr A' ->
  runs (iteration snapshot o (each run l) r) s (fun _ s' => rep A' s' /\ emits tr s s' /\ holds s' snapshot X).
Proof.
  intros Ho Hl HR Hh Hk Er Hbody. pose proof (iteration_reserves (counter s) snapshot o l r Ho Hl s) as Hres.
  enough (Hruns : runs (iteration snapshot o (each run l) r) s (fun _ s' => rep A' s' /\ emits tr s s')).
  { destruct Hruns as ([] & s' & E & HR' & He). exists (), s'. rewrite E in Hres. split_and!; [done|done|done|].
    eapply holds_later; [apply HR|exact Hres|done]. }
  clear Hres. destruct Hh as [_ (rows & Hf & HX)]. unfold iteration.
  apply runs_then, runs_then, runs_get, (runs_lift _ rows); [done|]. apply runs_then.
  eapply runs_weaken; [eapply (does_materialize A o {[k]} (fun j _ => j ∈ X /\ j = k)); [done|done| | |]|].
  - assert (Hfil := exact_keys_filter db (fun j _ => j ∈ X) (fun j _ => j = k) (fun x => bool_decide (s_key x = k)) rows).
    assert (E : base.filter (fun x => s_key x = s_key r) rows = base.filter (fun x => bool_decide (s_key x = k) = true) rows).
    { apply list_filter_iff. intros x. by rewrite Er, bool_decide_eq_true. }
    rewrite E. apply Hfil; [|done|by apply table_exact]. intros d x _ _. by rewrite bool_decide_eq_true.
  - intros j. rewrite elem_of_singleton. split; [|naive_solver]. intros ->.
    destruct (table_rows db X rows k HX Hk) as (x & d & _ & _ & Hd & _). eauto.
  - intros j ->%elem_of_singleton. by eapply table_types.
  - intros [] s1 [HR1 He1]. eapply runs_weaken; [by apply Hbody|]. intros [] s2 [HR2 He2]. split; [done|].
    apply (emits_app [] tr s s1 s2 He1 He2).
Qed.

Definition loops (A : store) (o : pystr) (l : list statement) (ks : list key) (tr : trace) (A' : store) : Prop :=
  forall s snapshot X rs, rep A s -> holds s snapshot X -> map s_key rs = ks -> (forall k, k ∈ ks -> k ∈ X) ->
    runs (each (iteration snapshot o (each run l)) rs) s (fun _ s' => rep A' s' /\ emits tr s s').

Lemma does_foreach A i o l X ks tr A' : o ∈ N -> A !! i = Some X -> (forall k, k ∈ ks <-> k ∈ X) -> NoDup ks ->
  StronglySorted key_le ks -> loops A o l ks tr A' -> does A (_run_foreach (each run l) i o) tr A'.
Proof.
  intros Ho HA Hks Hn Hsort Hloop s HR. unfold _run_foreach.
  eapply does_after; [exact HR|by eapply does_read|]. clear s HR. intros [] s HR _.
  apply runs_then, runs_fresh. set (snapshot := fresh (u "foreach") (counter s)). set (s1 := with_counter _ s).
  assert (HR1 : rep A s1) by (destruct HR; by split).
  destruct (does_read A s1 i X HR1 HA) as [_ Hread]. apply runs_then. eapply runs_weaken; [exact Hread|].
  intros rows s2 [Hq Hrows]. assert (HR2 : rep A s2) by by eapply rep_quiet.
  set (ordered := merge_sort row_le rows).
  assert (Hperm : ordered ≡ₚ rows) by apply merge_sort_Permutation.
  assert (Hord : map s_key ordered = ks).
  { apply (ordered_keys rows); [apply Hrows|done|apply StronglySorted_merge_sort; typeclasses eauto|done|done|].
    intros k. by rewrite Hks, (table_keys db X rows Hrows). }
  clearbody ordered. apply runs_then, runs_modify. set (s3 := with_sets _ s2).
  assert (HR3 : rep A s3) by (apply rep_capture; [by right; left|done]).
  assert (Hh : holds s3 snapshot X).
  { destruct Hq as (_ & _ & _ & Ec). split.
    - exists (u "foreach"), (counter s). split_and!; [by right; left| |done]. cbn. rewrite Ec. cbn. lia.
    - exists ordered. unfold s3. cbn [sets with_sets]. rewrite from_create, str_eqb_refl. split; [done|].
      by eapply table_perm. }
  eapply runs_weaken; [apply (Hloop s3 snapshot X ordered); [done|done|done|intros k; apply Hks]|].
  intros [] s4 [HR4 He]. split; [done|]. eapply emits_start; [|exact He]. cbn. by destruct Hq as (_ & _ & -> & _).
Qed.

Lemma loops_nil A o l : loops A o l [] [] A.
Proof. intros s snapshot X [|r rs] HR _ Hks _; [|done]. apply runs_done. split; [done|by apply emits_nil]. Qed.
Lemma loops_cons A o l k ks tr A1 tr' A2 : o ∈ N -> all_named l -> does (<[o := {[k]}]> A) (each run l) tr A1 ->
  loops A1 o l ks tr' A2 -> loops A o l (k :: ks) (tr ++ tr') A2.
Proof.
  intros Ho Hl Hbody Hloop s snapshot X [|r rs] HR Hh Hks Hin; [done|]. cbn [map] in Hks. injection Hks as Er Hrs. cbn [each].
  apply runs_then. eapply runs_weaken; [eapply (does_iteration A snapshot o l X k r); eauto; apply Hin; left|].
  intros [] s1 (HR1 & He1 & Hh1). eapply runs_weaken; [apply (Hloop s1 snapshot X rs); [done|done|done|]|].
  - intros j Hj. apply Hin. by right.
  - intros [] s2 [HR2 He2]. split; [done|]. by eapply emits_app.
Qed.

(** * The refinement *)
Abbreviation Means := (means db keeps inside global_bbox).
Lemma refines_all :
  (forall A st tr A', Means A st tr A' -> named st -> does A (run st) tr A') /\
  (forall A l tr A' Xs, means_parts db keeps inside global_bbox A l tr A' Xs -> all_named l ->
     forall s, rep A s -> runs (collect (_execute_and_capture run) l) s (fun ns s' => rep A' s' /\ emits tr s s' /\ Forall2 (holds s') ns Xs)) /\
  (forall A l tr A', means_all db keeps inside global_bbox A l tr A' -> all_named l -> does A (each run l) tr A') /\
  (forall A o l ks tr A', means_each db keeps inside global_bbox A o l ks tr A' -> o ∈ N -> all_named l -> loops A o l ks tr A').
Proof.
  apply means_mutind; cbn [execute_statement outputs]; setoid_rewrite outputs_list || idtac.
  - intros A q X Hp Hs HX Hn. apply does_query; [by inversion Hn|done|done|done].
  - intros A l o tr A' Xs _ IH [Ho Hl]%Forall_cons. apply does_union; auto.
  - intros A a b o tr A' X Y _ IH [Ho Hl]%Forall_cons. apply does_difference; [done|]. apply IH.
    cbn [all_outputs flat_map]. by rewrite app_nil_r.
  - intros A kind i o X Y HA HY Hn. apply (does_recurse A kind i o X); [by inversion Hn|done|done].
  - intros A i o X HA Hn. apply does_item; [by inversion Hn|done].
  - intros A o X HA _. by apply does_out.
  - intros A i o l X ks tr A' HA Hks Hnd Hs _ IH [Ho Hl]%Forall_cons. apply (does_foreach A i o l X ks); auto.
  - intros A _ s HR. apply runs_done. split_and!; [done|by apply emits_nil|constructor].
  - intros A st o tr A' X l tr' A'' Xs _ IHst Ho HA _ IHl Hn. cbn [all_outputs flat_map] in Hn. apply Forall_app in Hn as [Hst Hl].
    eapply does_cons_part; eauto.
  - intros A _ s HR. apply runs_done. split; [done|by apply emits_nil].
  - intros A st tr A' l tr' A'' _ IHst _ IHl Hn s HR. cbn [all_outputs flat_map] in Hn. apply Forall_app in Hn as [Hst Hl].
    cbn [each]. apply runs_then. eapply runs_weaken; [by apply IHst|]. intros [] s1 [HR1 He1].
    eapply runs_weaken; [by apply IHl|]. intros [] s2 [HR2 He2]. split; [done|by eapply emits_app].
  - intros. apply loops_nil.
  - intros A o l k ks tr A' tr' A'' _ IHbody _ IHloop Ho Hl. eapply loops_cons; eauto.
Qed.

Lemma statements_refine A l tr A' : means_all db keeps inside global_bbox A l tr A' -> all_named l -> does A (each run l) tr A'.
Proof. apply refines_all. Qed.
End Refines.

(** * Programs *)
Section Program.
Context `{UnicodeDB} {G : Type} `{DuckDB G} `{RowSources G} `{RowChoiceLaw G} `{Renderer G} `{AreaHooks G}.
Context (db : database G) (inside : option BBox -> key -> set_row G -> Prop).
Context (indexed : option pystr -> key -> key -> Prop) `{!CurrentData G db inside indexed}.
Context (m : Catalog.Manifest).

Lemma program_refines p promoted tr A n :
  let l := statements p in let N := u "_" :: all_outputs l in let areas := _program_uses_areas l in
  promoted_of m = Ok promoted -> date (settings p) = None -> diff (settings p) = None -> adiff (settings p) = None ->
  (exists h, has_history m = Ok h) ->
  (forall a b, a ∈ N -> b ∈ N -> fold_name a = fold_name b -> a = b) -> Forall user_name N ->
  (forall rows o, exists out, build_elements None rows o areas = Ok out) ->
  means_all db keeps inside (set_bbox (settings p)) (<[u "_" := ∅]> ∅) l tr A ->
  exists s, run_program m p (empty_state None n) = (Ok (), s) /\ SNAPSHOT s = None /\
    (forall x X, A !! x = Some X -> exists rows, find_set x (sets s) = Some rows /\ table_for db X rows) /\
    exists parts, Forall2 (shows db areas false) tr parts /\ elements s = concat parts.
Proof.
  intros l N areas Hpro Hdate Hdiff Hadiff [h Hh] Hfold Huser Hren Hm.
  assert (Hrun : runs (run_program m p) (empty_state None n) (fun _ s' => rep db N A s' /\ emits db areas false tr (empty_state None n) s')).
  { unfold run_program. apply runs_then, (runs_lift _ ()); [unfold check_settings; by rewrite Hh, Hdate, Hdiff, Hadiff|].
    unfold run_program_body. apply runs_then, (runs_lift _ ()); [by rewrite Hpro|]. apply runs_then, runs_modify, runs_then, runs_get.
    rewrite Hdate. eapply runs_weaken; [apply (statements_refine db inside indexed m _ areas false Hren N Hfold Huser _ l tr A Hm)|].
    - apply Forall_forall. intros x Hx. by right.
    - split; [done|by apply NoDup_singleton|]. intros x X HX. apply lookup_insert_Some in HX as [[<- <-]|[_ HX]]; [|done].
      split; [by left|]. exists []. split; [done|]. split; [apply NoDup_nil_2|set_solver|by intros r Hr%elem_of_nil|set_solver].
    - intros [] s' [HR He]. done. }
  destruct Hrun as ([] & s & E & [R1 R2 R3] & parts & Hparts & Hels). exists s. split_and!; [done|done| |by exists parts].
  intros x X HX. by apply R3.
Qed.
End Program.
