(* ===== verification/PlannerProps.v ===== *)
(** A list of rows as a row source: the reference implementation of
    [RowSources], against which the theorems about programs are tried out.
    Everything is filtered out of the list; the base indexes are empty and the
    parents all come from the rows.

    The theorems about programs, and what they give on a small map. *)
From S2P Require Import Prelude PyStr QlAst Evaluator Json Osc Cells Catalog Sql PyTime SqlExpr Schema TagSql TagSqlFacts.
From S2P Require Import PyFloat EvalSqlFacts EvalSet SetTables EvalSetFacts RowSources MetaFilters Recurse Sources Planner RecurseFacts PlannerSem PlannerFacts QueryMeans.
From S2P Require Import PlannerRefines.
Import RowSources.

Section ListSources.
Context {G : Type} `{DuckDB G} (rows : list (set_row G)).
Abbreviation row := (set_row G).

Definition of_type (t : pystr) (wanted : row -> bool) : list row :=
  base.filter (fun r => ((s_type r =s t) && wanted r) = true) rows.
Definition rows_by_id (t : pystr) (ids : list Z) (fs : list TagFilter) : list row :=
  of_type t (fun r => mem (s_id r) ids && keeps fs r).
Definition some_rows (ids : list Z) (l : list row) : option (list row) := match ids with [] => None | _ => Some l end.
Definition has_ref (i : Z) (r : row) : bool := mem i (default [] (s_refs r)).
Definition has_member (c : pystr) (ids : list Z) (role : option pystr) (r : row) : bool :=
  existsb (fun x => (m_type x =s c) && mem (m_ref x) ids && has_role role (m_role x)) (default [] (s_members r)).

#[export] Instance list_sources : RowSources G := {|
  spatial_select _ t bbox fs ids :=
    reads_lift (res_map (fun f => of_type t (fun r => f r && ids_where ids (s_id r) && keeps fs r)) (set_box_where bbox));
  build_byid_select _ t ids fs := reads_ret (rows_by_id t ids fs);
  build_byid_select_from_ids_query _ t ids _ _ fs := reads_ret (rows_by_id t ids fs);
  build_node_hydrate_via_bbox_select _ ids _ fs := reads_ret (some_rows ids (rows_by_id NODE ids fs));
  build_way_hydrate_via_bbox_select _ ids _ fs := reads_ret (some_rows ids (rows_by_id WAY ids fs));
  build_spatial_hydrate_via_cell_select _ t ids fs := reads_ret (some_rows (map fst ids) (rows_by_id t (map fst ids) fs));
  build_way_bbox_semijoin_select _ ids _ := reads_ret (Some (of_type WAY (fun r => existsb (fun i => has_ref i r) ids)));
  node_way_rows _ _ := Ok None;
  member_rows := Ok None;
  delta_way_ids_by_ref ids := Ok (Some (map to_idrow (of_type WAY (fun r => existsb (fun i => has_ref i r) ids))));
  delta_relation_ids_by_member c ids role := Ok (Some (map to_idrow (of_type RELATION (has_member c ids role))));
  backward_relation_ids_snapshot _ _ _ _ := reads_ret None;
  changed_ids _ _ _ := Ok [];
  timeline_states _ _ := Ok []
|}.

(** The elements of the list. *)
Definition list_database : database G := fun t i => List.find (fun r => (s_type r =s t) && (s_id r =? i)) rows.
Definition list_inside (b : option BBox) (_ : key) (d : row) : Prop :=
  match b with None => True | Some _ => exists f : row -> bool, set_box_where b = Ok f /\ f d = true end.

Lemma list_find t i r : list_database t i = Some r -> r ∈ rows /\ s_type r = t /\ s_id r = i.
Proof.
  unfold list_database. intros [Hin [Ht Hi]%andb_true_iff]%find_some. apply list_elem_of_In in Hin.
  by rewrite str_eqb_eq in Ht; apply Z.eqb_eq in Hi.
Qed.
Context (Hunique : NoDup (map s_key rows)) (Hboxes : Forall (fun r => sane_box (s_box r)) rows).
Lemma find_list r : r ∈ rows -> list_database (s_type r) (s_id r) = Some r.
Proof using Hunique.
  clear H Hboxes. unfold list_database. induction rows as [|x l IH]; [by intros ?%elem_of_nil|]. cbn [map] in Hunique.
  apply NoDup_cons in Hunique as [Hx Hl]. intros [->|Hr]%elem_of_cons; cbn [List.find].
  - by rewrite str_eqb_refl, Z.eqb_refl.
  - destruct ((s_type x =s s_type r) && (s_id x =? s_id r)) eqn:E; [|by apply IH].
    apply andb_true_iff in E as [Et Ei]. apply str_eqb_eq in Et. apply Z.eqb_eq in Ei. exfalso. apply Hx.
    replace (s_key x) with (s_key r) by (unfold s_key; congruence). by apply elem_of_map_2.
Qed.

Lemma list_exact t (f : row -> bool) wanted : (forall r, r ∈ rows -> s_type r = t -> f r = true <-> wanted (s_id r) r) ->
  exact list_database t wanted (of_type t f).
Proof using Hunique.
  intros Hf. unfold of_type. split.
  - intros r [[Ht Hw]%andb_true_iff Hr]%list_elem_of_filter. apply str_eqb_eq in Ht. exists r.
    split_and!; [by rewrite <- Ht; apply find_list|done|by apply Hf].
  - intros i d (Hd & Ht & Hi)%list_find Hw. exists d. split; [|done]. apply list_elem_of_filter. split; [|done].
    rewrite Ht, str_eqb_refl. apply Hf; [done|done|by rewrite Hi].
Qed.
Lemma list_by_id t ids fs : exact list_database t (fun i d => i ∈ ids /\ keeps fs d = true) (rows_by_id t ids fs).
Proof using Hunique. apply list_exact. intros r _ _. by rewrite andb_true_iff, mem_spec. Qed.
Lemma list_some t ids fs : reads_rows (reads_ret (some_rows ids (rows_by_id t ids fs))) (fun o =>
  match o with
  | Some l => ids <> [] /\ exact list_database t (fun i d => i ∈ ids /\ keeps fs d = true) l
  | None => ids = []
  end).
Proof using Hunique.
  apply reads_rows_ret. destruct ids as [|i ids]; [done|]. cbn [some_rows]. split; [done|]. apply list_by_id.
Qed.

#[export] Instance list_reads snap : RowSourcesLaws G keeps snap list_database.
Proof using Hunique Hboxes.
  split.
  - intros t i r (_ & ? & ?)%list_find. done.
  - intros t i r (Hr & _)%list_find. by eapply Forall_forall in Hboxes.
  - done.
  - done.
  - intros t ids fs _ _. apply reads_rows_ret, list_by_id.
  - intros t i ids fs _ _. apply reads_rows_ret, list_by_id.
  - intros ids boxes fs _ _. apply list_some.
  - intros ids boxes fs _ _. apply list_some.
  - intros t ids fs _ _. pose proof (list_some t (map fst ids) fs) as Hs. cbn. eapply reads_rows_weaken; [exact Hs|].
    intros [l|] Ho; [|by destruct ids]. destruct Ho as [Ho ?]. split; [|done]. by intros ->.
Qed.

Lemma has_ref_spec i r : s_type r = WAY -> has_ref i r = true <-> refers r (NODE, i).
Proof using.
  clear. intros Ht. unfold has_ref, refers. rewrite mem_spec. cbn [fst snd]. split.
  - intros Hi. left. destruct (s_refs r) as [l|]; [|by inversion Hi]. eauto.
  - intros [(_ & _ & l & -> & Hi)|(Hr & _)]; [done|]. distinct_types.
Qed.
Lemma any_ref_spec ids r : s_type r = WAY ->
  existsb (fun i => has_ref i r) ids = true <-> exists i, i ∈ ids /\ refers r (NODE, i).
Proof using.
  clear. intros Ht. rewrite existsb_exists. setoid_rewrite <- list_elem_of_In. split; intros (i & Hi & Hr); exists i; (split; [done|]);
    by apply (has_ref_spec i r Ht).
Qed.
Lemma has_member_spec t c ids role r : (t, c) ∈ member_type_char -> s_type r = RELATION ->
  has_member c ids role r = true <-> exists j, j ∈ ids /\ refers_as role r (t, j).
Proof using.
  clear. intros Htc Ht. apply member_char_spec in Htc. unfold has_member. rewrite existsb_exists. split.
  - intros (x & Hx%list_elem_of_In & [[Hc Hm]%andb_true_iff Hr]%andb_true_iff). apply str_eqb_eq in Hc. apply mem_spec in Hm.
    exists (m_ref x). split; [done|]. right. split; [done|]. destruct (s_members r) as [ms|]; [|by inversion Hx].
    exists ms, x. split_and!; try done. by rewrite Hc.
  - intros (j & Hj & [(Hw & _)|(_ & ms & x & Hms & Hx & Hr & Hm & Hi)]); [distinct_types|]. cbn [snd] in Hi. subst j. exists x. rewrite Hms. split; [by apply list_elem_of_In|].
    apply andb_true_iff. split; [|done]. apply andb_true_iff. split; [|by apply mem_spec]. apply str_eqb_eq.
    apply member_type_inv in Hm, Htc. cbn [fst] in Hm.
    destruct Hm as [[-> ->]|[[-> ->]|[-> ->]]], Htc as [[-> E]|[[-> E]|[-> E]]]; try done; by vm_compute in E.
Qed.

Lemma idrow_keys t f k : k ∈ hop_keys (Some (map to_idrow (of_type t f))) <-> exists r, r ∈ rows /\ s_type r = t /\ f r = true /\ k = s_key r.
Proof using.
  clear. unfold hop_keys. change (default [] (Some (map to_idrow (of_type t f)))) with (map to_idrow (of_type t f)).
  rewrite map_map, elem_of_map. unfold of_type. setoid_rewrite list_elem_of_filter.
  setoid_rewrite andb_true_iff. setoid_rewrite str_eqb_eq. split.
  - intros (r & -> & [[? ?] ?]). by exists r.
  - intros (r & ? & ? & ? & ->). by exists r.
Qed.

#[export] Instance list_parents : ParentLaws G list_database (fun _ _ _ => False).
Proof using Hunique.
  split.
  - intros nodes bbox Hn _. apply reads_rows_ret. apply list_exact. intros r _ Ht. rewrite (any_ref_spec _ r Ht).
    setoid_rewrite elem_of_remove_dups. setoid_rewrite elem_of_map. split.
    + intros (i & (s & -> & Hs) & Hr). eauto.
    + intros (s & Hs & Hr). eauto.
  - intros i ids. eexists _, _. split; [reflexivity|]. split; [reflexivity|]. split_and!.
    + intros n w Hn. by inversion Hn.
    + intros k (r & Hr & Ht & Hf & ->)%idrow_keys. apply (any_ref_spec _ r Ht) in Hf as (j & Hj & Href).
      rewrite elem_of_remove_dups in Hj. exists r, j. split_and!; [by apply find_list|done|done|done].
    + intros w d j (Hd & Ht & Hw)%list_find Hj Href. right. apply idrow_keys. exists d. split_and!; [done|done| |].
      * apply (any_ref_spec _ d Ht). exists j. by rewrite elem_of_remove_dups.
      * unfold s_key. by rewrite Ht, Hw.
  - exists None. split; [done|]. split; [intros x t role Hx; by inversion Hx|]. intros t c ids role Htc.
    eexists. split; [reflexivity|]. split.
    + intros k (r & Hr & Ht & Hf & ->)%idrow_keys. apply (has_member_spec t c ids role r Htc Ht) in Hf as (j & Hj & Href).
      exists r, j. split_and!; [by apply find_list|done|done|done].
    + intros p d j (Hd & Ht & Hp)%list_find Hj Href. right. apply idrow_keys. exists d. split_and!; [done|done| |].
      * apply (has_member_spec t c ids role d Htc Ht). eauto.
      * unfold s_key. by rewrite Ht, Hp.
Qed.

Lemma list_current `{UnicodeDB} : CurrentData G list_database list_inside (fun _ _ _ => False).
Proof using Hunique Hboxes.
  split; try typeclasses eauto; try done.
  intros t bbox fs ids f Ht _ _ Hf. cbn. rewrite Hf. cbn. eexists _, _. split; [reflexivity|]. apply list_exact.
  intros r _ _. rewrite !andb_true_iff. unfold list_inside. destruct bbox as [b|].
  - split; [intros [[? ?] ?]; split_and!; eauto|]. intros ((f' & E & ?) & ? & ?). rewrite Hf in E. injection E as <-. done.
  - injection Hf as <-. tauto.
Qed.
End ListSources.

(** * A small map *)
Definition node_at (i lat lon : Z) : set_row unit := {|
  s_type := NODE; s_id := i; s_cell := None; s_lat_e7 := Some lat; s_lon_e7 := Some lon; s_refs := None; s_members := None;
  s_tags := None; s_version := Some 1; s_changeset := None; s_timestamp := None; s_uid := None; s_user := None;
  s_box := None; s_geometry := None; s_hilbert := None |}.
Definition way_of (i : Z) (refs : list Z) (tags : list (pystr * pystr)) : set_row unit := {|
  s_type := WAY; s_id := i; s_cell := None; s_lat_e7 := None; s_lon_e7 := None; s_refs := Some refs; s_members := None;
  s_tags := Some tags; s_version := Some 1; s_changeset := None; s_timestamp := None; s_uid := None; s_user := None;
  s_box := Some (0, 0, 10, 10); s_geometry := None; s_hilbert := None |}.
Definition relation_of (i : Z) (ms : list member) : set_row unit := {|
  s_type := RELATION; s_id := i; s_cell := None; s_lat_e7 := None; s_lon_e7 := None; s_refs := None; s_members := Some ms;
  s_tags := None; s_version := Some 1; s_changeset := None; s_timestamp := None; s_uid := None; s_user := None;
  s_box := None; s_geometry := None; s_hilbert := None |}.
(** Two ways share node 2; a relation holds the first way as [outer]. *)
Definition small_map : list (set_row unit) :=
  [node_at 1 0 0; node_at 2 5 5; node_at 3 9 9; way_of 10 [1; 2] [(u "highway", u "primary")]; way_of 11 [2; 3] [];
   relation_of 20 [{| m_type := u "w"; m_ref := 10; m_role := u "outer" |}]].
Lemma small_map_unique : NoDup (map s_key small_map).
Proof. apply (bool_decide_unpack _). vm_compute. done. Qed.

Lemma small_map_boxes : Forall (fun r => sane_box (s_box r)) small_map.
Proof. repeat constructor; try (cbn; lia). Qed.

(** Each row is rendered as its id. *)
Definition id_renderer : Renderer unit := fun _ rows _ _ => Ok (map (fun r => JInt (s_id r)) rows, []).
#[export] Instance head_choice : RowChoice unit := fun r _ => r.
#[export] Instance head_choice_law : RowChoiceLaw unit.
Proof. intros r rs. left. Qed.
Definition no_areas : AreaHooks unit := {|
  area_statement _ _ _ := Raise NotImplementedError;
  geo_bbox _ _ _ _ := Raise NotImplementedError;
  geo_predicate _ _ _ _ _ := Raise NotImplementedError
|}.

(** C3: a program of queries, unions, differences, recursions, items, [foreach]
    blocks and [out] does what its text means, over any row source that answers
    by id, by box and by parent for one database. Whenever [means_all] gives the
    program a meaning - which elements each set holds, which sets are shown -
    [run_program] returns without error, every set of the meaning is a table
    with exactly one current row for each of its elements, and the answer is the
    rendering of the shown sets, in order. *)
Theorem planner_refines `{UnicodeDB} {G : Type} `{DuckDB G} `{RowSources G} `{RowChoiceLaw G} `{Renderer G} `{AreaHooks G}
    (db : database G) inside indexed `{!CurrentData G db inside indexed} (m : Catalog.Manifest) p promoted tr A n :
  let l := statements p in let N := u "_" :: all_outputs l in let areas := _program_uses_areas l in
  promoted_of m = Ok promoted -> date (settings p) = None -> diff (settings p) = None -> adiff (settings p) = None ->
  (exists h, has_history m = Ok h) ->
  (forall a b, a ∈ N -> b ∈ N -> fold_name a = fold_name b -> a = b) -> Forall user_name N ->
  (forall rows o, exists out, build_elements None rows o areas = Ok out) ->
  means_all db keeps inside (set_bbox (settings p)) (<[u "_" := ∅]> ∅) l tr A ->
  exists s, run_program m p (empty_state None n) = (Ok (), s) /\ SNAPSHOT s = None /\
    (forall x X, A !! x = Some X -> exists rows, find_set x (sets s) = Some rows /\ table_for db X rows) /\
    exists parts, Forall2 (shows db areas false) tr parts /\ elements s = concat parts.
Proof. apply (program_refines db inside indexed). Qed.

(** [way[highway]; >; out;] *)
Definition sample_query : Query := mkQuery [WAY] [FTag (mkTagFilter (u "highway") OpExists None false false)] [] (u "_").
Definition sample_settings : Settings := default_settings.
Definition sample_program : Program := mkProgram sample_settings [SQuery sample_query; SRecurse RDown (u "_") (u "_"); SOut (new_out (u "_"))].
Definition empty_manifest : Catalog.Manifest := Build_Manifest (u "/d") (JObj []).

(** The elements of the map, one by one. *)
Lemma map_elements (X : gset key) (P : key -> set_row unit -> Prop) :
  Forall (fun r => s_key r ∈ X <-> P (s_key r) r) small_map -> (forall k, k ∈ X -> k ∈ map s_key small_map) ->
  forall k, k ∈ X <-> exists d, find_row (list_database small_map) k = Some d /\ P k d.
Proof.
  intros HP HX k. split.
  - intros Hk. pose proof (HX k Hk) as (r & -> & Hr)%elem_of_map. exists r. split; [by apply (find_list small_map small_map_unique)|].
    apply (proj1 (Forall_forall _ _) HP r Hr). done.
  - intros (d & Hd & Hk). destruct (list_find _ _ _ _ Hd) as (Hin & Ht & Hi). destruct k as [t i]. cbn [fst snd] in *. subst t i.
    by apply (proj1 (Forall_forall _ _) HP d Hin).
Qed.

#[local] Existing Instance latin1_db.
#[local] Existing Instance sample_duckdb.
#[local] Existing Instance id_renderer.
#[local] Existing Instance no_areas.
#[local] Instance small_sources : RowSources unit := list_sources small_map.
#[local] Instance small_current : CurrentData unit (list_database small_map) list_inside (fun _ _ _ => False) :=
  list_current small_map small_map_unique small_map_boxes.
Abbreviation small_db := (list_database small_map).
Abbreviation small_inside := (list_inside (G := unit)).

Lemma sample_ways k : k ∈ ({[(WAY, 10)]} : gset key) <->
  exists d, find_row small_db k = Some d /\ selected small_db keeps small_inside None (<[u "_" := ∅]> ∅) sample_query k d.
Proof.
  apply map_elements.
  - unfold small_map. rewrite !Forall_cons. setoid_rewrite elem_of_singleton. split_and!; [..|constructor];
      (split; [intros E; try (by vm_compute in E)|intros (_ & [Ht Hk] & _)]).
    all: try (apply list_elem_of_singleton in Ht; by vm_compute in Ht).
    split; [done|]. split; [split; [by apply list_elem_of_singleton|by vm_compute]|]. by split.
  - intros k' ->%elem_of_singleton. apply (bool_decide_unpack _). by vm_compute.
Qed.

Lemma sample_nodes k : k ∈ ({[(NODE, 1); (NODE, 2)]} : gset key) <-> exists_ small_db k /\ recursed small_db RDown {[(WAY, 10)]} k.
Proof.
  transitivity (exists d, find_row small_db k = Some d /\ (k = (NODE, 1) \/ k = (NODE, 2))).
  - apply (map_elements _ (fun k _ => k = (NODE, 1) \/ k = (NODE, 2))).
    + apply Forall_forall. intros r _. set_solver.
    + intros k' Hk. assert (k' = (NODE, 1) \/ k' = (NODE, 2)) as [-> | ->] by set_solver; apply (bool_decide_unpack _); by vm_compute.
  - split.
    + intros (d & Hd & Hk). split; [by exists d|]. exists (WAY, 10). split; [by apply elem_of_singleton|]. left.
      assert (Hway : find_row small_db (WAY, 10) = Some (way_of 10 [1; 2] [(u "highway", u "primary")])) by by vm_compute.
      split; [|by destruct Hk as [-> | ->]]. eexists. split; [exact Hway|]. left. split; [done|].
      destruct Hk as [-> | ->]; (split; [done|]); exists [1; 2]; (split; [done|]); rewrite !elem_of_cons; auto.
    + intros ([d Hd] & j & ->%elem_of_singleton & Hk). exists d. split; [done|].
      assert (Hrefs : forall c, ref small_db None (WAY, 10) c -> c = (NODE, 1) \/ c = (NODE, 2)).
      { intros [t i] (w & Hw & Hr). vm_compute in Hw. injection Hw as <-.
        destruct Hr as [(_ & Ht & refs & [= <-] & Hi)|(Hr & _)]; [|by vm_compute in Hr]. cbn [fst snd] in *. subst t.
        rewrite !elem_of_cons, elem_of_nil in Hi. destruct Hi as [->|[->|[]]]; auto. }
      destruct Hk as [[Hk _]|(w & Hw & _)]; [by apply Hrefs|]. apply Hrefs in Hw as [E|E]; by vm_compute in E.
Qed.

Lemma sample_means : means_all small_db keeps small_inside None (<[u "_" := ∅]> ∅) (statements sample_program)
  [(new_out (u "_"), {[(NODE, 1); (NODE, 2)]})] (<[u "_" := {[(NODE, 1); (NODE, 2)]}]> (<[u "_" := {[(WAY, 10)]}]> (<[u "_" := ∅]> ∅))).
Proof.
  apply (all_cons _ _ _ _ _ _ [] (<[u "_" := {[(WAY, 10)]}]> (<[u "_" := ∅]> ∅))).
  { apply (means_query small_db keeps small_inside None _ sample_query).
    - split_and!; [done|by intros E%list_elem_of_singleton; vm_compute in E|by repeat constructor; set_solver|by repeat constructor|by constructor|by eexists].
    - intros _ n Hn. by inversion Hn.
    - apply sample_ways. }
  eapply (all_cons _ _ _ _ _ _ []).
  { apply (means_recurse _ _ _ _ _ RDown (u "_") (u "_") {[(WAY, 10)]}); [by rewrite lookup_insert_eq|apply sample_nodes]. }
  eapply (all_cons _ _ _ _ _ _ [_] _ [] []); [|apply all_nil]. apply means_out. by rewrite lookup_insert_eq.
Qed.

Lemma planner_refines_witness : exists s,
  run_program empty_manifest sample_program (empty_state None 1) = (Ok (), s) /\
  exists rows, find_set (u "_") (sets s) = Some rows /\ table_for small_db {[(NODE, 1); (NODE, 2)]} rows.
Proof.
  assert (Hnames : forall a, a ∈ u "_" :: all_outputs (statements sample_program) -> a = u "_").
  { intros a. cbn. rewrite !elem_of_cons, elem_of_nil. by intros [->|[->|[->|[]]]]. }
  destruct (planner_refines small_db small_inside (fun _ _ _ => False) empty_manifest sample_program [] _ _ 1
    ltac:(vm_compute; reflexivity) ltac:(reflexivity) ltac:(reflexivity) ltac:(reflexivity)
    ltac:(exists false; vm_compute; reflexivity)
    ltac:(intros a b Ha%Hnames Hb%Hnames _; congruence)
    ltac:(repeat constructor)
    ltac:(intros rows o; eexists; reflexivity) sample_means) as (s & Hs & _ & Hsets & _).
  exists s. split; [exact Hs|]. apply Hsets. apply lookup_insert_eq.
Defined.

(** C6: what no program undoes, whether it returns or raises. The snapshot
    variable is what it was before (a [date] setting and every [retro] block put
    it back, on errors too); the answer and the warnings only grow; fresh names
    are never reused; and the tables keep names DuckDB tells apart. *)
Theorem program_frame `{UnicodeDB} {G : Type} `{DuckDB G} `{RowChoice G} `{RowSources G} `{Renderer G} `{AreaHooks G}
    (m : Catalog.Manifest) p s : distinct s ->
  let s' := (run_program m p s).2 in
  SNAPSHOT s' = SNAPSHOT s /\ elements s `prefix_of` elements s' /\ warnings s `prefix_of` warnings s' /\
  counter s <= counter s' /\ distinct s'.
Proof. intros Hd. destruct (steps_program m p s) as [F1 F2 F3 F4 F5]. split_and!; auto. Qed.

(** [[date:"2020-01-01T00:00:00Z"]; retro("2019-...") { out; (unsupported) }]
    raises inside the block. *)
Definition history_manifest : Catalog.Manifest := Build_Manifest (u "/d") (JObj [(u "history", JObj [(u "since", JStr (u "2012-09-12T06:55:00Z"))])]).
Definition date_settings : Settings :=
  mkSettings FmtJson None true (u ",") 180 1000 None (Some (u "2020-01-01T00:00:00Z")) None None.
Definition retro_program : Program := mkProgram date_settings
  [SRetro (u "'2019-01-01T00:00:00Z'") [SOut (new_out (u "_")); SUnsupported (u "convert") []]].
Lemma program_frame_witness :
  (run_program history_manifest retro_program (empty_state None 1)).1 = Raise (UnsupportedError (u "convert is not supported in M0")) /\
  SNAPSHOT (run_program history_manifest retro_program (empty_state None 1)).2 = None.
Proof.
  split; [vm_compute; reflexivity|].
  destruct (program_frame history_manifest retro_program (empty_state None 1)) as (E & _); [constructor|exact E].
Defined.

(** C7: the scope of [retro], as the code and docs/m4-report.md section 3 have it.
    The block runs with the snapshot of its time and the sets there were;
    afterwards, even when it raised, every set there was is what it was, under
    its own name, every set the block made is there and empty
    ([attic.restore_sets]), the snapshot is what it was and the answer is the
    block's. Other texts of the repository disagree: docs/m4-contracts.md section
    3.2 and docs/api.md say that sets assigned inside stay visible outside, and
    the docstring of [execute_retro] that the block's own sets are dropped. *)
Theorem retro_scope `{UnicodeDB} {G : Type} `{DuckDB G} `{RowChoice G} `{RowSources G} `{Renderer G} `{AreaHooks G}
    (m : Catalog.Manifest) global_bbox areas_used diff_mode time v t w body s :
  distinct s -> has_history m = Ok true -> quoted (py_strip time) = Some v -> parse_date v = Ok t -> history_remark m t = Ok w ->
  let run := execute_statement m global_bbox areas_used diff_mode in
  let after := each run body (with_snapshot (Some t) (warn_once w s).2) in
  let (r, s') := run (SRetro time body) s in
  r = after.1 /\ SNAPSHOT s' = SNAPSHOT s /\ elements s' = elements after.2 /\
  (forall n rows, find_set n (sets s) = Some rows -> find_set n (sets s') = Some rows) /\
  forall n, from_set n (sets s') =
    match from_set n (sets s), from_set n (sets after.2) with
    | Ok rows, _ => Ok rows
    | Raise _, Ok _ => Ok []
    | Raise _, Raise e => Raise e
    end.
Proof.
  intros Hd Hh Hq Hp Hr run after.
  assert (Hrun : run (SRetro time body) s = retro_body t (each run body) (warn_once w s).2).
  { cbn [execute_statement run]. unfold run, execute_retro, require_history, evaluate_retro_time, bind, lift, ret.
    rewrite Hh, Hq, Hp, Hr. cbn. by destruct w. }
  assert (Hw : sets (warn_once w s).2 = sets s /\ SNAPSHOT (warn_once w s).2 = SNAPSHOT s).
  { destruct w; [|done]. cbn. by case_match. }
  destruct Hw as [Hsets Hsnap]. rewrite Hrun. unfold retro_body, finally, bind, get, modify. fold after.
  destruct after as [r s1]. cbn [fst snd]. rewrite Hsets. split_and!; [done|by cbn|done| |].
  - intros n rows Hf. cbn [sets with_sets with_snapshot]. rewrite exists_restore; [done|done|]. unfold table_exists. by rewrite Hf.
  - intros n. by apply from_restore.
Qed.

Definition new_year : PyTime.datetime := {| PyTime.year := 2019; PyTime.month := 1; PyTime.day := 1; PyTime.hour_ := 0; PyTime.minute := 0; PyTime.second := 0 |}.
Lemma retro_scope_witness :
  let run := execute_statement history_manifest None false false in
  let s := empty_state (G := unit) None 1 in
  let out := run (SRetro (u "'2019-01-01T00:00:00Z'") [SQuery (mkQuery [WAY] [FId [10]] [] (u "w"))]) s in
  SNAPSHOT out.2 = None /\ from_set (u "w") (sets out.2) = Ok [] /\
  from_set (u "w") (sets (each run [SQuery (mkQuery [WAY] [FId [10]] [] (u "w"))] s).2) = Ok [way_of 10 [1; 2] [(u "highway", u "primary")]].
Proof.
  intros run s out.
  pose proof (retro_scope history_manifest None false false (u "'2019-01-01T00:00:00Z'") (u "2019-01-01T00:00:00Z") new_year None
    [SQuery (mkQuery [WAY] [FId [10]] [] (u "w"))] s ltac:(constructor) ltac:(vm_compute; reflexivity) ltac:(vm_compute; reflexivity)
    ltac:(vm_compute; reflexivity) ltac:(vm_compute; reflexivity)) as Hscope.
  cbn zeta in Hscope. subst out run. destruct (execute_statement _ _ _ _ (SRetro _ _) s) as [r s'].
  destruct Hscope as (_ & Hsnap & _ & _ & Hsets). split; [exact Hsnap|]. split; [|vm_compute; reflexivity].
  cbn [snd]. rewrite Hsets. vm_compute. reflexivity.
Defined.

(** C5: the recursion statements. On a set of current elements, [>], [<], [>>]
    and [<<] run without error and leave in the output set exactly one row for
    each element of the specification: for [>] the nodes and ways the set refers
    to and the nodes of those ways, for [<] the ways and relations that refer to
    the set and the relations of those ways, for [>>] and [<<] everything
    reached in at most 10001 hops that was not in the set (and for [>>] the
    relations of the set). The parent indexes are assumed up to date. *)
Theorem recursion_exact `{UnicodeDB} {G : Type} `{DuckDB G} `{RowSources G} `{RowChoiceLaw G} `{Renderer G} `{AreaHooks G}
    (db : database G) inside indexed `{!CurrentData G db inside indexed} m global_bbox areas_used diff_mode kind i o X rows s :
  SNAPSHOT s = None -> distinct s -> find_set i (sets s) = Some rows -> table_for db X rows ->
  exists s' rows', execute_statement m global_bbox areas_used diff_mode (SRecurse kind i o) s = (Ok (), s') /\
    find_set o (sets s') = Some rows' /\ NoDup (keys rows') /\
    (forall k, k ∈ keys rows' <-> exists_ db k /\ recursed db kind X k) /\
    forall r, r ∈ rows' -> exists d, find_row db (s_key r) = Some d /\ same_element d r.
Proof.
  intros Hsnap Hd Hf HX. pose proof (db_typed (snap := None) (db := db)) as Hdb.
  assert (Hrun : runs (execute_statement m global_bbox areas_used diff_mode (SRecurse kind i o)) s (fun _ s' => exists rows',
    exact_keys db (fun k _ => recursed db kind X k) rows' /\ find_set o (sets s') = Some (deduplicate rows'))).
  { cbn [execute_statement]. unfold execute_recurse. destruct (runs_read_set s i rows Hd Hf) as [Hreq Hread].
    apply runs_then. eapply runs_weaken; [exact Hreq|]. intros [] s1 [Hq1 _].
    destruct (runs_read_set s1 i rows) as [_ Hread1]; [by unfold distinct; destruct Hq1 as [-> _]|by destruct Hq1 as [-> _]|].
    apply runs_then. eapply runs_weaken; [exact Hread1|]. intros ? s2 [Hq2 <-].
    apply runs_then, runs_get. replace (SNAPSHOT s2) with (@None PyTime.datetime).
    2: { destruct Hq1 as (_ & E1 & _), Hq2 as (_ & E2 & _). congruence. }
    assert (Hrows : runs_quiet (read_rows (recursion_rows kind rows)) s2 (exact_keys db (fun k _ => recursed db kind X k))).
    { apply runs_quiet_read. exact (recursion_means db keeps indexed up_to_date kind X rows HX). }
    apply runs_then. eapply runs_weaken; [exact Hrows|].
    intros out s3 [_ Hout]. apply runs_modify. exists out. split; [done|]. apply find_create. }
  destruct Hrun as ([] & s' & E & out & Hout & Hfind). exists s', (deduplicate out). split_and!; [done|done|apply deduplicate_unique| |].
  - intros k. rewrite deduplicate_keys. destruct Hout as [O1 O2]. split.
    + intros (r & -> & Hr)%elem_of_map. destruct (O1 r Hr) as (d & Hdr & _ & Hk). split; [by exists d|done].
    + intros [[d Hdk] Hk]. destruct (O2 k d Hdk Hk) as (r & Hr & Hs). apply elem_of_map. exists r. split; [|done].
      by rewrite <- Hs, (exact_find db Hdb k d).
  - intros r Hr. destruct Hout as [O1 _]. destruct (O1 r (elem_of_deduplicate _ _ Hr)) as (d & Hdr & Hs & _). eauto.
Qed.

(** [<<] from node 1: its way and the way's relation. *)
Lemma recursion_exact_witness :
  let s := with_sets [(u "_", [node_at 1 0 0])] (empty_state None 1) in
  exists s' rows', execute_statement empty_manifest None false false (SRecurse RUpUp (u "_") (u "up")) s = (Ok (), s') /\
    find_set (u "up") (sets s') = Some rows' /\ keys rows' = [(WAY, 10); (RELATION, 20)] /\
    forall k, k ∈ keys rows' <-> exists_ small_db k /\ recursed small_db RUpUp {[(NODE, 1)]} k.
Proof.
  intros s.
  destruct (recursion_exact small_db small_inside (fun _ _ _ => False) empty_manifest None false false RUpUp (u "_") (u "up")
    {[(NODE, 1)]} [node_at 1 0 0] s) as (s' & rows' & E & Hf & _ & Hk & _).
  - reflexivity.
  - repeat constructor. set_solver.
  - reflexivity.
  - split.
    + apply NoDup_singleton.
    + intros k. rewrite elem_of_singleton. unfold keys. cbn [map]. by rewrite list_elem_of_singleton.
    + intros r ->%list_elem_of_singleton. eexists. split; [vm_compute; reflexivity|done].
    + intros k ->%elem_of_singleton. left.
  - exists s', rows'. split; [exact E|]. split; [exact Hf|]. split; [|exact Hk].
    assert (Ek : keys <$> find_set (u "up") (sets (execute_statement empty_manifest None false false (SRecurse RUpUp (u "_") (u "up")) s).2) =
                 Some [(WAY, 10); (RELATION, 20)]) by (vm_compute; reflexivity).
    rewrite E in Ek. cbn [snd] in Ek. rewrite Hf in Ek. injection Ek as Ek. exact Ek.
Defined.
