(* ===== verification/Result.v ===== *)
(** [engine/result.py]: the three texts of a reply, over the elements that
    [render.build_elements] made.  The elements are untyped dictionaries, as
    they are in the code; the functions of [xml.sax.saxutils] it calls are
    written out. *)
From S2P Require Import Prelude PyStr PyFloat Json QlAst.

(** * [str(v)] *)
Section Text.
Context `{UnicodeDB}.

Fixpoint json_repr (j : json) : pystr :=
  match j with
  | JNull => u "None"
  | JBool b => if b then u "True" else u "False"
  | JInt n => str_of_Z n
  | JFloat f => float_repr f
  | JStr s => py_repr s
  | JList l => u "[" ++ py_join (u ", ") (map json_repr l) ++ u "]"
  | JObj d => u "{" ++ py_join (u ", ") (map (fun kv => py_repr kv.1 ++ u ": " ++ json_repr kv.2) d) ++ u "}"
  end.
Definition py_str (j : json) : pystr := match j with JStr s => s | _ => json_repr j end.

(** [j == s] for a string [s]; [len(j)]. *)
Definition is_text (j : json) (s : pystr) : bool := if j is JStr x then x =s s else false.
Definition json_len (j : json) : res nat :=
  match j with
  | JList l => Ok (length l)
  | JObj d => Ok (length d)
  | JStr s => Ok (length s)
  | _ => Raise TypeError
  end.

(** * [xml.sax.saxutils] *)
Definition xml_escape (s : pystr) : pystr :=
  replace_char 60 (u "&lt;") (replace_char 62 (u "&gt;") (replace_char 38 (u "&amp;") s)).
Definition quoteattr (s : pystr) : pystr :=
  let s := replace_char 9 (u "&#9;") (replace_char 13 (u "&#13;") (replace_char 10 (u "&#10;") (xml_escape s))) in
  if py_contains [34] s
  then if py_contains [39] s then [34] ++ replace_char 34 (u "&quot;") s ++ [34] else [39] ++ s ++ [39]
  else [34] ++ s ++ [34].
(** An argument that is not a string has no [replace]. *)
Definition quoteattr_of (j : json) : res pystr := if j is JStr s then Ok (quoteattr s) else Raise AttributeError.

(** * CSV *)
Definition _csv_header_name (field : pystr) : pystr :=
  if startswith field (u "::") then u "@" ++ skipn 2 field else field.

Definition text_or_empty (j : json) : pystr := match j with JNull => [] | _ => py_str j end.
Definition _csv_lat_lon (el : json) (which : pystr) : res pystr :=
  let* t := get_or_none el (u "type") in
  let* v := (if is_text t (u "node") then get_or_none el which
             else let* c := get_or_empty el (u "center") in get_or_none c which) in
  Ok (text_or_empty v).

Definition _CSV_OTYPE (t : json) : res pystr :=
  if negb (hashable t) then Raise TypeError
  else Ok (if is_text t (u "node") then u "n" else if is_text t (u "way") then u "w"
           else if is_text t (u "relation") then u "r" else []).

Definition csv_meta_fields : list pystr :=
  [u "::version"; u "::timestamp"; u "::changeset"; u "::uid"; u "::user"].
(** A tag's value comes out as it is. *)
Definition _csv_field_value (el : json) (field : pystr) : res json :=
  let* t := get_or_none el (u "type") in
  if is_text t (u "count") then
    if field =s u "::count"
    then let* tags := get_or_empty el (u "tags") in
         let* total := get_default tags (u "total") (JStr []) in Ok (JStr (py_str total))
    else Ok (JStr [])
  else if field =s u "::id" then let* v := get_default el (u "id") (JStr []) in Ok (JStr (py_str v))
  else if field =s u "::type" then let* v := get_default el (u "type") (JStr []) in Ok (JStr (py_str v))
  else if field =s u "::otype" then res_map JStr (_CSV_OTYPE t)
  else if field =s u "::lat" then res_map JStr (_csv_lat_lon el (u "lat"))
  else if field =s u "::lon" then res_map JStr (_csv_lat_lon el (u "lon"))
  else if field =s u "::count" then Ok (JStr [])
  else if str_in field csv_meta_fields
  then let* v := get_or_none el (skipn 2 field) in Ok (JStr (text_or_empty v))
  else let* tags := get_or_empty el (u "tags") in get_default tags field (JStr []).

(** [sep.join(values)] *)
Definition join_texts (sep : pystr) (vs : list json) : res pystr :=
  res_map (py_join sep) (res_mapM (fun v => res_of_option TypeError (is_str v)) vs).
Definition csv_line (sep : pystr) (fields : list pystr) (el : json) : res pystr :=
  let* vs := res_mapM (_csv_field_value el) fields in join_texts sep vs.

(** * XML *)
(** [f' name="{value}"'] *)
Definition raw_attr (name value : pystr) : pystr := [32] ++ name ++ u "=" ++ [34] ++ value ++ [34].
Definition xml_cat (parts : list (res pystr)) : res pystr := res_map (@concat Z) (res_mapM id parts).

Definition _attr (name : pystr) (value : json) : pystr :=
  match value with JNull => [] | _ => [32] ++ name ++ u "=" ++ quoteattr (py_str value) end.
Definition attr_of (name : pystr) (el : json) : res pystr := res_map (_attr name) (get_or_none el name).
(** [f'{el[key]}'] inside an attribute *)
Definition raw_of (name : pystr) (el : json) (key : pystr) : res pystr :=
  res_map (fun v => raw_attr name (py_str v)) (getitem el key).

Definition _meta_attrs (el : json) : res pystr :=
  xml_cat [attr_of (u "version") el; attr_of (u "timestamp") el; attr_of (u "changeset") el; attr_of (u "uid") el;
    attr_of (u "user") el;
    let* there := contains el (u "visible") in
    if there then let* v := getitem el (u "visible") in
                  Ok (_attr (u "visible") (JStr (if Json.truthy v then u "true" else u "false")))
    else Ok []].

Definition tag_xml (kv : pystr * json) : res pystr :=
  let* v := quoteattr_of kv.2 in Ok (u "<tag k=" ++ quoteattr kv.1 ++ u " v=" ++ v ++ u "/>").
Definition tag_list_xml (tags : json) : res pystr := let* kvs := items tags in xml_cat (map tag_xml kvs).
Definition _tags_xml (el : json) : res pystr :=
  let* tags := get_or_none el (u "tags") in
  if Json.truthy tags then tag_list_xml tags else Ok [].

Definition _bounds_xml (el : json) : res pystr :=
  let* b := get_or_none el (u "bounds") in
  if Json.truthy b
  then xml_cat [Ok (u "<bounds"); raw_of (u "minlat") b (u "minlat"); raw_of (u "minlon") b (u "minlon");
         raw_of (u "maxlat") b (u "maxlat"); raw_of (u "maxlon") b (u "maxlon"); Ok (u "/>")]
  else Ok [].
Definition _center_xml (el : json) : res pystr :=
  let* c := get_or_none el (u "center") in
  if Json.truthy c
  then xml_cat [Ok (u "<center"); raw_of (u "lat") c (u "lat"); raw_of (u "lon") c (u "lon"); Ok (u "/>")]
  else Ok [].

(** [head + ">" + body + "</name>"], or [head + "/>"] without a body. *)
Definition close_tag (name head body : pystr) : pystr :=
  match body with [] => head ++ u "/>" | _ => head ++ u ">" ++ body ++ u "</" ++ name ++ u ">" end.

Definition _timeline_xml (el : json) : res pystr :=
  xml_cat [Ok (u "<timeline"); raw_of (u "id") el (u "id"); Ok (u ">"); _tags_xml el; Ok (u "</timeline>")].

Definition _node_xml (el : json) : res pystr :=
  let* head := xml_cat [Ok (u "<node"); raw_of (u "id") el (u "id"); attr_of (u "lat") el; attr_of (u "lon") el; _meta_attrs el] in
  let* tags := _tags_xml el in
  Ok (close_tag (u "node") head tags).

(** [<nd .../>] with a reference, a point, or both *)
Definition nd_xml (ref : option json) (pt : option json) : res pystr :=
  xml_cat [Ok (u "<nd"); Ok (match ref with Some r => raw_attr (u "ref") (py_str r) | None => [] end);
    match pt with Some p => raw_of (u "lat") p (u "lat") | None => Ok [] end;
    match pt with Some p => raw_of (u "lon") p (u "lon") | None => Ok [] end; Ok (u "/>")].
Definition not_none (j : json) : option json := match j with JNull => None | _ => Some j end.
Definition nds_xml (nodes geometry : json) : res pystr :=
  let* same := (match nodes, geometry with
                | JNull, _ | _, JNull => Ok false
                | _, _ => let* n := json_len nodes in let* k := json_len geometry in Ok (n =? k)%nat
                end) in
  match not_none nodes, not_none geometry with
  | Some nodes, g =>
      if same : bool
      then let* refs := iter nodes in let* pts := iter geometry in
           xml_cat (zip_with (fun ref pt => nd_xml (Some ref) (not_none pt)) refs pts)
      else let* refs := iter nodes in xml_cat (map (fun ref => nd_xml (Some ref) None) refs)
  | None, Some geometry => let* pts := iter geometry in xml_cat (map (fun pt => nd_xml None (Some pt)) pts)
  | None, None => Ok []
  end.
Definition _way_xml (el : json) : res pystr :=
  let* head := xml_cat [Ok (u "<way"); raw_of (u "id") el (u "id"); _meta_attrs el] in
  let* bounds := _bounds_xml el in
  let* center := _center_xml el in
  let* nodes := get_or_none el (u "nodes") in
  let* geometry := get_or_none el (u "geometry") in
  let* nds := nds_xml nodes geometry in
  let* tags := _tags_xml el in
  Ok (close_tag (u "way") head (bounds ++ center ++ nds ++ tags)).

Definition _area_xml (el : json) : res pystr :=
  let* head := xml_cat [Ok (u "<area"); raw_of (u "id") el (u "id"); _meta_attrs el] in
  let* tags := _tags_xml el in
  Ok (close_tag (u "area") head tags).

(** [v or default] *)
Definition or_else (v dflt : json) : json := if Json.truthy v then v else dflt.
Definition member_xml (m : json) : res pystr :=
  let* ty := getitem m (u "type") in
  let* head := xml_cat [Ok (u "<member"); raw_of (u "type") m (u "type"); raw_of (u "ref") m (u "ref"); Ok (u " role=");
    let* role := get_or_none m (u "role") in quoteattr_of (or_else role (JStr []))] in
  let* lat := (if is_text ty (u "node") then contains m (u "lat") else Ok false) in
  if lat : bool
  then xml_cat [Ok head; raw_of (u "lat") m (u "lat"); raw_of (u "lon") m (u "lon"); Ok (u "/>")]
  else
    let* geom := (if is_text ty (u "way") then contains m (u "geometry") else Ok false) in
    if geom : bool
    then let* g := getitem m (u "geometry") in
         let* pts := iter g in
         let* nds := xml_cat (map (fun p => nd_xml None (Some p)) pts) in
         Ok (head ++ u ">" ++ nds ++ u "</member>")
    else Ok (head ++ u "/>").
Definition _relation_xml (el : json) : res pystr :=
  let* head := xml_cat [Ok (u "<relation"); raw_of (u "id") el (u "id"); _meta_attrs el] in
  let* bounds := _bounds_xml el in
  let* center := _center_xml el in
  let* members := get_or_none el (u "members") in
  let* ms := iter (or_else members (JList [])) in
  let* members := xml_cat (map member_xml ms) in
  let* tags := _tags_xml el in
  Ok (close_tag (u "relation") head (bounds ++ center ++ members ++ tags)).

Definition _element_xml (el : json) : res pystr :=
  let* t := getitem el (u "type") in
  if is_text t (u "count")
  then let* tags := get_or_empty el (u "tags") in
       xml_cat [Ok (u "<count>"); tag_list_xml tags; Ok (u "</count>")]
  else if is_text t (u "node") then _node_xml el
  else if is_text t (u "way") then _way_xml el
  else if is_text t (u "relation") then _relation_xml el
  else if is_text t (u "area") then _area_xml el
  else if is_text t (u "timeline") then _timeline_xml el
  else Ok [].

Definition side_xml (name : pystr) (el : json) : res pystr :=
  xml_cat [Ok (u "<" ++ name ++ u ">" ++ [10] ++ u "  "); _element_xml el; Ok ([10] ++ u "</" ++ name ++ u ">")].
Definition action_body (action kind : json) : res pystr :=
  if is_text kind (u "create") then let* el := getitem action (u "new") in _element_xml el
  else if is_text kind (u "delete") then
    let* el := getitem action (u "old") in
    let* old := side_xml (u "old") el in
    let* new := get_or_none action (u "new") in
    match not_none new with
    | Some el => let* new := side_xml (u "new") el in Ok (old ++ [10] ++ new)
    | None => Ok old
    end
  else
    let* el := getitem action (u "old") in let* old := side_xml (u "old") el in
    let* el := getitem action (u "new") in let* new := side_xml (u "new") el in
    Ok (old ++ [10] ++ new).
Definition _action_xml (action : json) : res pystr :=
  let* kind := getitem action (u "action") in
  let* body := action_body action kind in
  Ok (u "<action" ++ raw_attr (u "type") (py_str kind) ++ u ">" ++ [10] ++ body ++ [10] ++ u "</action>" ++ [10]).

(** * [Result] *)
Record Result := {
  r_elements : list json;
  r_settings : option Settings;
  remark : option pystr;
  timestamp_osm_base : option pystr;
  r_stats : list (pystr * json);
  is_diff : bool
}.

Definition GENERATOR : pystr := u "osmpq 0.0.1".
Definition COPYRIGHT : pystr :=
  u "The data included in this document is from www.openstreetmap.org. The data is made available under ODbL.".

(** An optional text that is neither [None] nor empty. *)
Definition some_text (o : option pystr) : option pystr := match o with Some [] => None | _ => o end.
Definition opt_json (o : option pystr) : json := match o with Some s => JStr s | None => JNull end.

Definition envelope (r : Result) : json :=
  JObj ([(u "version", JFloat (float_of_decimal false 6 (-1))); (u "generator", JStr GENERATOR);
         (u "osm3s", JObj [(u "timestamp_osm_base", opt_json (timestamp_osm_base r)); (u "copyright", JStr COPYRIGHT)]);
         (u "elements", JList (r_elements r))] ++
        match some_text (remark r) with Some s => [(u "remark", JStr s)] | None => [] end).
Definition _render_json `{JsonModule} (r : Result) : res pystr := json_dumps (envelope r).

Definition _render_csv (r : Result) : res pystr :=
  let fields := match r_settings r with Some st => default [] (csv_fields st) | None => [] end in
  let sep := match r_settings r with Some st => csv_separator st | None => [9] end in
  let header := match r_settings r with Some st => csv_header st | None => true end in
  let* rows := res_mapM (csv_line sep fields) (r_elements r) in
  let lines := (if header then [py_join sep (map _csv_header_name fields)] else []) ++ rows in
  Ok (py_join [10] lines ++ match lines with [] => [] | _ => [10] end).

Definition _render_xml (r : Result) : res pystr :=
  xml_cat (
    [Ok (u "<?xml" ++ raw_attr (u "version") (u "1.0") ++ raw_attr (u "encoding") (u "UTF-8") ++ u "?>");
     Ok (u "<osm" ++ raw_attr (u "version") (u "0.6") ++ raw_attr (u "generator") (xml_escape GENERATOR) ++ u ">");
     Ok (u "<note>" ++ xml_escape COPYRIGHT ++ u "</note>");
     Ok (match some_text (timestamp_osm_base r) with
         | Some t => u "<meta" ++ raw_attr (u "osm_base") (xml_escape t) ++ u "/>"
         | None => []
         end)] ++
    map (if is_diff r then _action_xml else _element_xml) (r_elements r) ++
    [Ok (match some_text (remark r) with Some s => u "<remark>" ++ xml_escape s ++ u "</remark>" | None => [] end);
     Ok (u "</osm>")]).

Definition render `{JsonModule} (r : Result) : res (pystr * pystr) :=
  match r_settings r with
  | Some st =>
      match out_format st with
      | FmtXml => let* s := _render_xml r in Ok (s, u "application/osm3s+xml")
      | FmtCsv => let* s := _render_csv r in Ok (s, u "text/csv; charset=utf-8")
      | FmtJson => let* s := _render_json r in Ok (s, u "application/json")
      end
  | None => let* s := _render_json r in Ok (s, u "application/json")
  end.
End Text.
