(* ===== verification/Render.v ===== *)
(** [engine/render.py]: the rows of a set as the elements [out] shows, with the
    geometry of byid rows and of relation members looked up in the dataset; and
    [attic.history_way_geometry_by_id]. *)
From S2P Require Import Prelude PyStr PyFloat PyTime Json QlAst SqlExpr Osc Schema Sql Tiers DeltaRead Cells Catalog CellSelect SetTables.
From S2P Require Import RowSources History Sources Planner Result.

(** [ST_AsText] *)
Class AsText (G : Type) := st_as_text : G -> pystr.

(** * Numbers *)
(** Nearest integer of a fraction, ties to even. *)
Definition round_half_even (num den : Z) : Z :=
  let q := num / den in
  match Z.compare (2 * (num mod den)) den with
  | Lt => q
  | Gt => q + 1
  | Eq => if Z.even q then q else q + 1
  end.
(** [round(x, 7)]: the decimal with seven digits nearest to the value of [x],
    and its nearest double. *)
Definition round7 (x : pyfloat) : pyfloat :=
  match x with
  | S754_finite s m e =>
      let '(num, den) := fraction m e in float_of_decimal s (round_half_even (num * 10 ^ 7) den) (-7)
  | _ => x
  end.
Definition f1e7 : pyfloat := float_of_Z 10000000.
Definition e7_degrees (v : Z) : pyfloat := round7 (fdiv (float_of_Z v) f1e7).
Definition e7 (v : option Z) : json := match v with Some v => JFloat (e7_degrees v) | None => JNull end.

(** * WKT *)
Abbreviation point := (pyfloat * pyfloat)%type.
Section Wkt.
Context `{UnicodeDB}.
(** [str.upper] of the ASCII letters; only the first ten characters matter. *)
Definition ascii_upper (c : Z) : Z := if (97 <=? c) && (c <=? 122) then c - 32 else c.
(** [s.index(c)], [s.rindex(c)] *)
Definition index_char (c : Z) (s : pystr) : res nat := res_of_option ValueError (py_find [c] s 0).
Definition rindex_char (c : Z) (s : pystr) : res nat :=
  match rfind_succ c s with O => Raise ValueError | S n => Ok n end.
(** [s.split(c)] *)
Fixpoint split_char (c : Z) (s : pystr) : list pystr :=
  match s with
  | [] => [[]]
  | d :: s' => if d =? c then [] :: split_char c s'
               else match split_char c s' with w :: ws => (d :: w) :: ws | [] => [[d]] end
  end.
Fixpoint wkt_points (pairs : list pystr) : res (list point) :=
  match pairs with
  | [] => Ok []
  | text :: rest =>
      let text := py_strip text in
      if bool_decide (text = []) then wkt_points rest
      else match py_split text with
           | [lon_s; lat_s] =>
               let* lon := py_float lon_s in let* lat := py_float lat_s in
               res_map (cons (lon, lat)) (wkt_points rest)
           | _ => Raise ValueError
           end
  end.
Definition parse_linestring_wkt (wkt : option pystr) : res (option (list point)) :=
  match some_text wkt with
  | None => Ok None
  | Some wkt =>
      let inner := py_strip wkt in
      let* inner := (if startswith (map ascii_upper inner) (u "LINESTRING")
                     then let* i := index_char 40 inner in let* j := rindex_char 41 inner in Ok (slice inner (i + 1) j)
                     else Ok inner) in
      res_map Some (wkt_points (split_char 44 inner))
  end.
End Wkt.

(** * Bounds, centers and clipping *)
Definition latlon (lat lon : pyfloat) : json := JObj [(u "lat", JFloat lat); (u "lon", JFloat lon)].
Definition box_json (minlat minlon maxlat maxlon : json) : json :=
  JObj [(u "minlat", minlat); (u "minlon", minlon); (u "maxlat", maxlat); (u "maxlon", maxlon)].
Definition bounds_dict {G} (row : set_row G) : option json :=
  match s_box row with
  | Some (xmin, ymin, xmax, ymax) => Some (box_json (e7 (Some ymin)) (e7 (Some xmin)) (e7 (Some ymax)) (e7 (Some xmax)))
  | None => None
  end.
Definition middle (a b : Z) : pyfloat := round7 (fdiv (fdiv (float_of_Z (a + b)) (float_of_Z 2)) f1e7).
Definition center_dict {G} (row : set_row G) : option json :=
  match s_box row with
  | Some (xmin, ymin, xmax, ymax) => Some (latlon (middle ymin ymax) (middle xmin xmax))
  | None => None
  end.

Definition _point_in_bbox (p : point) (bbox : BBox) : bool :=
  let '(lon, lat) := p in let '(s, w, n, e) := bbox in
  fleb s lat && fleb lat n && (fleb w lon && fleb lon e).
(** [inside] of the vertex before, of this one, and of the one after. *)
Fixpoint clip_from (before : bool) (pts : list point) (bbox : BBox) : list (option point) :=
  match pts with
  | [] => []
  | p :: rest =>
      let here := _point_in_bbox p bbox in
      let after := match rest with q :: _ => _point_in_bbox q bbox | [] => false end in
      (if here || before || after then Some p else None) :: clip_from here rest bbox
  end.
Definition clip_way_geometry (pts : list point) (bbox : BBox) : list (option point) := clip_from false pts bbox.

(** [min(l)], [max(l)] of floats: the first of the least, by [<]. *)
Definition fmin (x : pyfloat) (l : list pyfloat) : pyfloat := fold_left (fun a b => if fltb b a then b else a) l x.
Definition fmax (x : pyfloat) (l : list pyfloat) : pyfloat := fold_left (fun a b => if fltb a b then b else a) l x.
Definition clipped_bounds (points : list (option point)) : option json :=
  match omap (fun p => p) points with
  | [] => None
  | p :: kept =>
      let lons := map fst kept in let lats := map snd kept in
      Some (box_json (JFloat (round7 (fmin p.2 lats))) (JFloat (round7 (fmin p.1 lons)))
                     (JFloat (round7 (fmax p.2 lats))) (JFloat (round7 (fmax p.1 lons))))
  end.
Definition point_json (p : point) : json := latlon (round7 p.2) (round7 p.1).
Definition _geometry_points_to_json (points : list (option point)) : list json :=
  map (fun p => match p with Some p => point_json p | None => JNull end) points.

(** * The rows of an [out] *)
Section Rows.
Context {G : Type}.
Abbreviation row := (set_row G).

Definition type_rank (t : pystr) : Z := if t =s NODE then 0 else if t =s WAY then 1 else 2.
(** [ORDER BY CASE type ... END, id]; [ORDER BY hilbert IS NULL, hilbert, id] *)
Definition asc_le (a b : row) : bool :=
  (type_rank (s_type a) <? type_rank (s_type b)) ||
  ((type_rank (s_type a) =? type_rank (s_type b)) && (s_id a <=? s_id b)).
Definition qt_le (a b : row) : bool :=
  match s_hilbert a, s_hilbert b with
  | Some x, Some y => (x <? y) || ((x =? y) && (s_id a <=? s_id b))
  | Some _, None => true
  | None, Some _ => false
  | None, None => s_id a <=? s_id b
  end.
Definition order_le (o : order_t) (a b : row) : Prop := (match o with OrdAsc => asc_le a b | OrdQt => qt_le a b end) = true.
#[export] Instance order_le_dec o a b : Decision (order_le o a b).
Proof. unfold order_le. apply _. Defined.

Definition sorted_rows (rows : list row) (o : order_t) : list row := merge_sort (order_le o) rows.
Definition limited {A} (limit : option Z) (l : list A) : res (list A) :=
  match limit with
  | None => Ok l
  | Some n => if n <? 0 then Raise DuckDBError else Ok (take (Z.to_nat n) l)
  end.

(** A row with its [geometry_wkt]. *)
Definition out_row : Type := row * option pystr.
Definition fetch_out_rows `{AsText G} (rows : list row) (o : order_t) (limit : option Z) : res (list out_row) :=
  res_map (map (fun r => (r, st_as_text <$> s_geometry r))) (limited limit (sorted_rows rows o)).

Definition count_type (t : pystr) (rows : list row) : Z :=
  Z.of_nat (length (base.filter (fun r => (s_type r =s t) = true) rows)).
Definition counted_types : list pystr := [NODE; WAY; RELATION; u "area"].
Record counts := { n_nodes : Z; n_ways : Z; n_relations : Z; n_areas : Z; n_total : Z }.
Definition fetch_counts (rows : list row) : counts :=
  let other := Z.of_nat (length (base.filter (fun r => str_in (s_type r) counted_types = false) rows)) in
  let nodes := count_type NODE rows in let ways := count_type WAY rows in
  let relations := count_type RELATION rows in let areas := count_type (u "area") rows in
  {| n_nodes := nodes; n_ways := ways; n_relations := relations; n_areas := areas;
     n_total := nodes + ways + relations + areas + other |}.
Definition count_element (c : counts) (include_areas_count : bool) : json :=
  let n (k : pystr) v := (k, JStr (str_of_Z v)) in
  let tags := [n (u "nodes") (n_nodes c); n (u "ways") (n_ways c); n (u "relations") (n_relations c)] in
  JObj [(u "type", JStr (u "count")); (u "id", JInt 0);
        (u "tags", JObj (tags ++ (if include_areas_count || negb (n_areas c =? 0) then [n (u "areas") (n_areas c)] else []) ++
                         [n (u "total") (n_total c)]))].
End Rows.

(** * Geometry from the dataset *)
Section Geometry.
Context `{UnicodeDB} {G : Type} `{DuckDB G} `{Spatial G} `{AsText G}.
Context (d : dataset G) (snap : option PyTime.datetime).
Abbreviation row := (set_row G).
Abbreviation out_row := (@out_row G).

(** [dict(pairs)]: the last pair of a key counts. *)
Definition dict_of {A} (l : list (Z * A)) : gmap Z A := fold_left (fun m kv => <[kv.1 := kv.2]> m) l ∅.
(** [ST_AsText(geometry)] where there is one that is not empty. *)
Definition wkt_of (g : option G) : option pystr := some_text (st_as_text <$> g).
Definition known_wkt (l : list (Z * option G)) : list (Z * pystr) :=
  omap (fun x => pair x.1 <$> wkt_of x.2) l.

(** [attic.history_way_geometry_by_id] *)
Definition history_way_geometry_by_id (ids : list Z) (t : PyTime.datetime) : res (gmap Z pystr) :=
  match ids with
  | [] => Ok ∅
  | _ =>
      let* cells := history_cells_for_bbox (man d) WAY None in
      let* base_files := history_spatial_files (man d) WAY cells in
      let* tier_files := history_tier_spatial_files (man d) WAY in
      let chosen with_valid_to files :=
        base.filter (fun r => mem (b_id (h_row r)) ids && validity_predicate t with_valid_to r = true)
          (flat_map (history_file d) files) in
      let states := base.filter (fun r => visible r = true) (state_at (chosen true base_files ++ chosen false tier_files)) in
      Ok (dict_of (known_wkt (map (fun r => (b_id (h_row r), f_geometry (b_data (h_row r)))) states)))
  end.

(** The join of the spatial way files of some cells with pairs (cell, id). *)
Definition way_files (cells : list pystr) : res (list pystr) :=
  let* tc := table_cells (man d) WAY in
  res_flat_map (fun c =>
    let* there := contains tc c in
    if there then let* e := getitem tc c in let* p := getitem e (u "path") in res_map (fun p => [path (man d) p]) (as_str p)
    else Ok []) (sorted_set cells).
Definition joined (files : list pystr) (pairs : list (pystr * Z)) : list (Z * option G) :=
  map (fun r => (b_id r, f_geometry (b_data r)))
    (base.filter (fun r => existsb (fun p => bool_decide (b_cell r = Some p.1) && (b_id r =? p.2)) pairs = true)
       (flat_map (spatial_file d) files)).

(** The newest spatial rows of the tiers, deleted ones left out. *)
Definition tier_geometries (ids : list Z) : list (Z * option G) :=
  map (fun r => (r_id r, f_geometry (data r)))
    (base.filter (fun r => deleted r = false)
      (qualify (flat_map (fun t => map (pair t.1) (base.filter (fun r => mem (r_id r) ids = true) (t_spatial (files t.2 TWay))))
                  (DeltaRead.delta_tiers (d_deltas d))))).

Definition has_text (o : option pystr) : bool := bool_decide (is_Some (some_text o)).
(** A way without geometry whose cell is known. *)
Definition missing (r : out_row) : bool := (s_type r.1 =s WAY) && negb (has_text r.2) && has_text (s_cell r.1).
Definition cell_pair (r : row) : option (pystr * Z) := (fun c => (c, s_id r)) <$> s_cell r.
Definition resolved_geometries (rows : list out_row) : res (gmap Z pystr) :=
  let todo := base.filter (fun r => missing r = true) rows in
  let ids := map (fun r => s_id r.1) todo in
  match snap with
  | Some t => history_way_geometry_by_id ids t
  | None =>
      let pairs := omap (fun r => cell_pair r.1) todo in
      let* files := way_files (map fst pairs) in
      Ok (dict_of (known_wkt (joined files pairs ++ tier_geometries ids)))
  end.
Definition hydrate_way_geometry (rows : list out_row) : res (list out_row) :=
  if existsb missing rows then
    let* found := resolved_geometries rows in
    Ok (map (fun r => if missing r then match found !! s_id r.1 with Some w => (r.1, Some w) | None => r end else r) rows)
  else Ok rows.

(** The union of the boxes of the relations, as the one row of the hint. *)
Definition union_box (boxes : list RowSources.box) : list (option RowSources.box) :=
  match boxes with
  | [] => []
  | (x0, y0, x1, y1) :: rest =>
      [Some (fold_left (fun a (b : RowSources.box) => let '(ax0, ay0, ax1, ay1) := a in let '(bx0, by0, bx1, by1) := b in
               (Z.min ax0 bx0, Z.min ay0 by0, Z.max ax1 bx1, Z.max ay1 by1)) rest (x0, y0, x1, y1))]
  end.
Definition sorted_ids (ids : list Z) : list Z := merge_sort Z.le (remove_dups ids).
Definition resolve_node_coords (ids : list Z) (bbox_hints : list RowSources.box) : res (gmap Z (option Z * option Z)) :=
  match sorted_ids ids with
  | [] => Ok ∅
  | ids =>
      let* rows := Sources.build_node_hydrate_via_bbox_select d snap ids (union_box bbox_hints) [] in
      Ok (dict_of (map (fun r : row => (s_id r, (s_lat_e7 r, s_lon_e7 r))) (default [] rows.1)))
  end.

(** The points of rows with a geometry, and the (cell, id) of the others. *)
Fixpoint way_points (rows : list (Z * option pystr * option pystr)) : res (list (Z * list point) * list (pystr * Z)) :=
  match rows with
  | [] => Ok ([], [])
  | (i, cell, wkt) :: rest =>
      let* pts := parse_linestring_wkt wkt in
      let* found := way_points rest in
      Ok (match pts, some_text cell with
          | Some pts, _ => ((i, pts) :: found.1, found.2)
          | None, Some c => (found.1, (c, i) :: found.2)
          | None, None => found
          end)
  end.
Definition resolve_way_geometries (ids : list Z) (bbox_hints : list RowSources.box) : res (gmap Z (list point)) :=
  match sorted_ids ids with
  | [] => Ok ∅
  | ids =>
      let* rows := Sources.build_way_hydrate_via_bbox_select d snap ids (union_box bbox_hints) [] in
      let* found := way_points (map (fun r : row => (s_id r, s_cell r, st_as_text <$> s_geometry r)) (default [] rows.1)) in
      let* files := way_files (map fst found.2) in
      let* more := way_points (map (fun x => (x.1, None, st_as_text <$> x.2)) (joined files found.2)) in
      Ok (dict_of (found.1 ++ more.1))
  end.

(** * [_row_to_element] *)
Definition MEMBER_TYPE_NAME (t : pystr) : pystr :=
  if t =s u "n" then NODE else if t =s u "w" then WAY else if t =s u "r" then RELATION else t.
Definition shows_all (v : verbosity_t) : bool := match v with VIds | VTags => false | _ => true end.
Definition shows_bounds (g : geometry_t) : bool := match g with GBb | GGeom => true | _ => false end.
Definition is_geom (g : geometry_t) : bool := if g is GGeom then true else false.
Definition is_center (g : geometry_t) : bool := if g is GCenter then true else false.
Definition opt_entry (k : pystr) (v : option json) : list (pystr * json) := match v with Some v => [(k, v)] | None => [] end.

Definition node_entries (r : row) (o : Out) : list (pystr * json) :=
  if shows_all (o_verbosity o) then [(u "lat", e7 (s_lat_e7 r)); (u "lon", e7 (s_lon_e7 r))] else [].
Definition way_entries (r : row) (wkt : option pystr) (o : Out) : res (list (pystr * json)) :=
  let* pts := (if is_geom (o_geometry o) then parse_linestring_wkt wkt else Ok None) in
  let clipped := match pts, o_geom_bbox o with Some pts, Some bbox => Some (clip_way_geometry pts bbox) | _, _ => None end in
  Ok ((if shows_bounds (o_geometry o)
       then opt_entry (u "bounds") (match clipped with Some c => clipped_bounds c | None => bounds_dict r end) else []) ++
      (if shows_all (o_verbosity o) && negb (o_noids o) then [(u "nodes", JList (map JInt (default [] (s_refs r))))] else []) ++
      opt_entry (u "geometry") ((fun pts => JList (_geometry_points_to_json (default (map Some pts) clipped))) <$> pts) ++
      (if is_center (o_geometry o) then opt_entry (u "center") (center_dict r) else [])).
Definition member_json (o : Out) (node_coords : gmap Z (option Z * option Z)) (way_geoms : gmap Z (list point)) (x : member) : json :=
  JObj ([(u "type", JStr (MEMBER_TYPE_NAME (m_type x))); (u "ref", JInt (m_ref x)); (u "role", JStr (m_role x))] ++
    if is_geom (o_geometry o) then
      if m_type x =s u "n" then
        match node_coords !! m_ref x with
        | Some (lat, lon) => [(u "lat", e7 lat); (u "lon", e7 lon)]
        | None => []
        end
      else if m_type x =s u "w" then
        match way_geoms !! m_ref x with
        | Some pts =>
            let pts := match o_geom_bbox o with Some bbox => omap (fun p => p) (clip_way_geometry pts bbox) | None => pts end in
            [(u "geometry", JList (map point_json pts))]
        | None => []
        end
      else []
    else []).
Definition relation_entries (r : row) (o : Out) node_coords way_geoms : list (pystr * json) :=
  (if shows_bounds (o_geometry o) then opt_entry (u "bounds") (bounds_dict r) else []) ++
  (if shows_all (o_verbosity o)
   then [(u "members", JList (map (member_json o node_coords way_geoms) (default [] (s_members r))))] else []) ++
  (if is_center (o_geometry o) then opt_entry (u "center") (center_dict r) else []).
Definition meta_entries (r : row) : list (pystr * json) :=
  opt_entry (u "timestamp") ((fun t => JStr (format_timestamp t)) <$> s_timestamp r) ++ opt_entry (u "version") (JInt <$> s_version r) ++
  opt_entry (u "changeset") (JInt <$> s_changeset r) ++ opt_entry (u "user") (JStr <$> s_user r) ++ opt_entry (u "uid") (JInt <$> s_uid r).
Definition tag_entries (r : row) (v : verbosity_t) : list (pystr * json) :=
  match v, s_tags r with
  | VBody, Some ((_ :: _) as tags) | VTags, Some ((_ :: _) as tags) | VMeta, Some ((_ :: _) as tags) =>
      [(u "tags", JObj (map (fun kv => (kv.1, JStr kv.2)) tags))]
  | _, _ => []
  end.
Definition _row_to_element (r : out_row) (o : Out) node_coords way_geoms : res json :=
  let t := s_type r.1 in
  let* body := (if t =s NODE then Ok (node_entries r.1 o)
                else if t =s WAY then way_entries r.1 r.2 o
                else if t =s RELATION then Ok (relation_entries r.1 o node_coords way_geoms)
                else Ok []) in
  Ok (JObj ([(u "type", JStr t); (u "id", JInt (s_id r.1))] ++ body ++
            (if o_verbosity o is VMeta then meta_entries r.1 else []) ++ tag_entries r.1 (o_verbosity o))).

(** * [build_elements] *)
Definition relation_members (rows : list out_row) : list member :=
  flat_map (fun r => if s_type r.1 =s RELATION then default [] (s_members r.1) else []) rows.
Definition refs_of (t : pystr) (ms : list member) : list Z := map m_ref (base.filter (fun x => (m_type x =s t) = true) ms).
Definition relation_boxes (rows : list out_row) : list RowSources.box :=
  omap (fun r => if (s_type r.1 =s RELATION) && bool_decide (default [] (s_members r.1) <> []) then s_box r.1 else None) rows.

Definition build_elements (rows : list row) (o : Out) (include_areas_count : bool) :
    res (list json * list ((pystr * Z) * option Z)) :=
  if o_count o then Ok ([count_element (fetch_counts rows) include_areas_count], []) else
  let* rows := fetch_out_rows rows (o_order o) (o_limit o) in
  let* looked_up :=
    (if is_geom (o_geometry o) then
       let* rows := hydrate_way_geometry rows in
       let ms := relation_members rows in
       let* coords := resolve_node_coords (refs_of (u "n") ms) (relation_boxes rows) in
       let* geoms := resolve_way_geometries (refs_of (u "w") ms) (relation_boxes rows) in
       Ok (rows, coords, geoms)
     else Ok (rows, ∅, ∅)) in
  let '(rows, coords, geoms) := looked_up in
  let* elements := res_mapM (fun r => _row_to_element r o coords geoms) rows in
  Ok (elements, map (fun r => (s_key r.1, s_version r.1)) rows).
End Geometry.

(** The dataset renders the sets of a run. *)
#[export] Instance dataset_renderer `{UnicodeDB} {G : Type} `{DuckDB G} `{Spatial G} `{AsText G} (d : dataset G) : Renderer G :=
  fun snap rows o areas => build_elements d snap rows o areas.
