(* ===== verification/ResultFacts.v ===== *)
(** The XML of a reply, read back: a reader of XML (elements, attributes in
    either quotes, character references, text; attribute values normalised as
    XML asks) gets from the text of a reply exactly the tree the elements
    describe, whatever their tags contain. *)
From S2P Require Import Prelude PyStr PyFloat PyFloatFacts Json QlAst Result.

(** * The reader *)
Inductive xml :=
  | XText (s : pystr)
  | XElem (name : pystr) (attrs : list (pystr * pystr)) (kids : list xml).

Definition name_char (c : Z) : bool := ascii_alpha c || (c =? 95).
Fixpoint strip_prefix (p s : pystr) : option pystr :=
  match p, s with
  | [], _ => Some s
  | a :: p', b :: s' => if a =? b then strip_prefix p' s' else None
  | _, _ => None
  end.
Fixpoint take_until (stop : Z) (s : pystr) : option (pystr * pystr) :=
  match s with
  | [] => None
  | c :: s' => if c =? stop then Some ([], s') else match take_until stop s' with Some (w, r) => Some (c :: w, r) | None => None end
  end.
Definition name_of (s : pystr) : pystr * pystr := let n := span_len name_char s in (firstn n s, skipn n s).

Definition entities : list (pystr * Z) :=
  [(u "amp;", 38); (u "lt;", 60); (u "gt;", 62); (u "quot;", 34); (u "#9;", 9); (u "#10;", 10); (u "#13;", 13)].
Definition entity (s : pystr) : option (Z * nat) :=
  (fun e => (e.2, length e.1)) <$> List.find (fun e => if strip_prefix e.1 s is Some _ then true else false) entities.
(** Character data; [white] is what a line break or tab in the text counts as. *)
Fixpoint unescape_from (white : Z -> Z) (s : pystr) (skip : nat) : option pystr :=
  match s with
  | [] => Some []
  | c :: s' =>
      match skip with
      | S k => unescape_from white s' k
      | O =>
          if c =? 38
          then match entity s' with Some (v, n) => cons v <$> unescape_from white s' n | None => None end
          else cons (white c) <$> unescape_from white s' 0
      end
  end.
Definition to_space (c : Z) : Z := if (c =? 9) || (c =? 10) || (c =? 13) then 32 else c.
Definition attr_value (s : pystr) : option pystr := unescape_from to_space s 0.
(** A carriage return counts as a line feed. *)
Definition text_value (s : pystr) : option pystr := unescape_from (fun c => if c =? 13 then 10 else c) s 0.

Definition read_attr (s : pystr) : option (pystr * pystr * pystr) :=
  let '(name, s) := name_of s in
  match name, strip_prefix (u "=") s with
  | _ :: _, Some (q :: s) =>
      if (q =? 34) || (q =? 39) then
        match take_until q s with
        | Some (w, s) => if bool_decide (60 ∈ w) then None else (fun v => (name, v, s)) <$> attr_value w
        | None => None
        end
      else None
  | _, _ => None
  end.
Fixpoint read_attrs (fuel : nat) (s : pystr) : option (list (pystr * pystr) * pystr) :=
  match fuel, strip_prefix (u " ") s with
  | _, None => Some ([], s)
  | O, _ => None
  | S f, Some s =>
      match read_attr s with
      | Some (n, v, s) => match read_attrs f s with Some (l, s) => Some ((n, v) :: l, s) | None => None end
      | None => None
      end
  end.

Fixpoint read_nodes (fuel : nat) (s : pystr) : option (list xml * pystr) :=
  match fuel with
  | O => None
  | S f =>
      let continue node s := match read_nodes f s with Some (l, s) => Some (node :: l, s) | None => None end in
      match strip_prefix (u "<") s with
      | None =>
          match s with
          | [] => Some ([], [])
          | _ =>
              let n := span_len (fun c => negb (c =? 60)) s in
              match text_value (firstn n s) with Some t => continue (XText t) (skipn n s) | None => None end
          end
      | Some s1 =>
          match strip_prefix (u "/") s1 with
          | Some _ => Some ([], s)
          | None =>
              let '(name, s2) := name_of s1 in
              match name, read_attrs f s2 with
              | _ :: _, Some (attrs, s3) =>
                  match strip_prefix (u "/>") s3 with
                  | Some s4 => continue (XElem name attrs []) s4
                  | None =>
                      match strip_prefix (u ">") s3 with
                      | Some s4 =>
                          match read_nodes f s4 with
                          | Some (kids, s5) =>
                              match strip_prefix (u "</" ++ name ++ u ">") s5 with
                              | Some s6 => continue (XElem name attrs kids) s6
                              | None => None
                              end
                          | None => None
                          end
                      | None => None
                      end
                  end
              | _, _ => None
              end
          end
      end
  end.
(** The characters of XML 1.0 ([Char]). *)
Definition xml_char (c : Z) : bool :=
  (c =? 9) || (c =? 10) || (c =? 13) || (32 <=? c) && (c <=? 55295) || (57344 <=? c) && (c <=? 65533) ||
  (65536 <=? c) && (c <=? 1114111).
(** The declaration, and one element, in legal characters only. *)
Definition read_document (s : pystr) : option xml :=
  if negb (forallb xml_char s) then None else
  match strip_prefix (u "<?xml" ++ raw_attr (u "version") (u "1.0") ++ raw_attr (u "encoding") (u "UTF-8") ++ u "?>") s with
  | Some s =>
      match read_nodes (S (length s)) s with Some ([XElem n a k], []) => Some (XElem n a k) | _ => None end
  | None => None
  end.

(** The values of a tree consist of legal characters. *)
Fixpoint xml_chars (x : xml) : bool :=
  match x with
  | XText s => forallb xml_char s
  | XElem _ attrs kids => forallb (fun kv => forallb xml_char kv.2) attrs && forallb xml_chars kids
  end.

(** * Texts that show a value *)
Definition esc_of (f : Z -> pystr) (s : pystr) : pystr := concat (map f s).
Lemma replace_esc c r f s : replace_char c r (esc_of f s) = esc_of (fun d => replace_char c r (f d)) s.
Proof.
  unfold replace_char, esc_of. induction s as [|d s IH]; [done|]. cbn [map concat].
  by rewrite map_app, concat_app, IH.
Qed.
Lemma esc_id s : esc_of (fun c => [c]) s = s.
Proof. unfold esc_of. induction s as [|c s IH]; [done|]. cbn. by rewrite IH. Qed.

(** [f] writes the character so that it is read back as it was. *)
Definition escapes (white : Z -> Z) (f : Z -> pystr) (c : Z) : Prop :=
  forall t, unescape_from white (f c ++ t) 0 = cons c <$> unescape_from white t 0.
Lemma unescape_esc white f s : Forall (escapes white f) s -> unescape_from white (esc_of f s) 0 = Some s.
Proof. unfold esc_of. induction 1 as [|c s Hc _ IH]; [done|]. cbn [map concat]. by rewrite Hc, IH. Qed.

Definition text_char (c : Z) : pystr :=
  if c =? 38 then u "&amp;" else if c =? 62 then u "&gt;" else if c =? 60 then u "&lt;" else [c].
Definition attr_char (quot : bool) (c : Z) : pystr :=
  if c =? 38 then u "&amp;" else if c =? 62 then u "&gt;" else if c =? 60 then u "&lt;"
  else if c =? 10 then u "&#10;" else if c =? 13 then u "&#13;" else if c =? 9 then u "&#9;"
  else if quot && (c =? 34) then u "&quot;" else [c].

Lemma xml_escape_chars s : xml_escape s = esc_of text_char s.
Proof.
  unfold xml_escape. rewrite <- (esc_id s) at 1. rewrite !replace_esc. unfold esc_of. f_equal. apply map_ext. intros c.
  unfold text_char, replace_char. cbn [map concat]. destruct (Z.eqb_spec c 38) as [->|]; [reflexivity|]. cbn [map concat app].
  destruct (Z.eqb_spec c 62) as [->|]; [reflexivity|]. cbn [map concat app]. by destruct (c =? 60).
Qed.

Lemma quoteattr_chars s :
  replace_char 9 (u "&#9;") (replace_char 13 (u "&#13;") (replace_char 10 (u "&#10;") (xml_escape s))) = esc_of (attr_char false) s.
Proof.
  rewrite xml_escape_chars, !replace_esc. unfold esc_of. f_equal. apply map_ext. intros c. unfold text_char, attr_char, replace_char.
  destruct (Z.eqb_spec c 38) as [->|]; [reflexivity|]. destruct (Z.eqb_spec c 62) as [->|]; [reflexivity|].
  destruct (Z.eqb_spec c 60) as [->|]; [reflexivity|]. cbn [map concat app].
  destruct (Z.eqb_spec c 10) as [->|]; [reflexivity|]. cbn [map concat app].
  destruct (Z.eqb_spec c 13) as [->|]; [reflexivity|]. cbn [map concat app]. by destruct (c =? 9).
Qed.
Lemma quoteattr_double s : replace_char 34 (u "&quot;") (esc_of (attr_char false) s) = esc_of (attr_char true) s.
Proof.
  rewrite replace_esc. unfold esc_of. f_equal. apply map_ext. intros c. unfold attr_char, replace_char. cbn [andb].
  destruct (Z.eqb_spec c 38) as [->|]; [reflexivity|]. destruct (Z.eqb_spec c 62) as [->|]; [reflexivity|].
  destruct (Z.eqb_spec c 60) as [->|]; [reflexivity|]. destruct (Z.eqb_spec c 10) as [->|]; [reflexivity|].
  destruct (Z.eqb_spec c 13) as [->|]; [reflexivity|]. destruct (Z.eqb_spec c 9) as [->|]; [reflexivity|].
  cbn [map concat app]. by destruct (Z.eqb_spec c 34) as [->|].
Qed.

Lemma unescape_plain white c t : c <> 38 -> unescape_from white (c :: t) 0 = cons (white c) <$> unescape_from white t 0.
Proof. intros Hc. cbn [unescape_from]. by destruct (Z.eqb_spec c 38). Qed.
Lemma text_char_escapes c : c <> 13 -> escapes (fun c => if c =? 13 then 10 else c) text_char c.
Proof.
  intros Hc t. unfold text_char. destruct (Z.eqb_spec c 38) as [->|]; [done|]. destruct (Z.eqb_spec c 62) as [->|]; [done|].
  destruct (Z.eqb_spec c 60) as [->|]; [done|]. cbn [app]. rewrite unescape_plain by done. by destruct (Z.eqb_spec c 13).
Qed.
Lemma attr_char_escapes quot c : escapes to_space (attr_char quot) c.
Proof.
  intros t. unfold attr_char. destruct (Z.eqb_spec c 38) as [->|]; [done|]. destruct (Z.eqb_spec c 62) as [->|]; [done|].
  destruct (Z.eqb_spec c 60) as [->|]; [done|]. destruct (Z.eqb_spec c 10) as [->|]; [done|].
  destruct (Z.eqb_spec c 13) as [->|]; [done|]. destruct (Z.eqb_spec c 9) as [->|]; [done|].
  destruct quot; cbn [andb]; [destruct (Z.eqb_spec c 34) as [->|]; [done|]|]; cbn [app]; rewrite unescape_plain by done; unfold to_space;
    destruct (Z.eqb_spec c 9), (Z.eqb_spec c 10), (Z.eqb_spec c 13); done.
Qed.
Lemma attr_value_esc quot s : attr_value (esc_of (attr_char quot) s) = Some s.
Proof. apply unescape_esc, Forall_forall. intros c _. apply attr_char_escapes. Qed.

(** ** Quoted values *)
Definition quoted (t s : pystr) : Prop :=
  exists q w, t = q :: w ++ [q] /\ (q = 34 \/ q = 39) /\ q ∉ w /\ 60 ∉ w /\ attr_value w = Some s.

Lemma not_in_esc c f s : (forall d, d ∈ s -> c ∉ f d) -> c ∉ esc_of f s.
Proof.
  intros Hf Hc. unfold esc_of in Hc. apply list_elem_of_In, in_concat in Hc as (w & Hw & Hc).
  apply in_map_iff in Hw as (d & <- & Hd). apply (Hf d); by apply list_elem_of_In.
Qed.
Ltac closed_not_in := solve [apply (bool_decide_unpack _); vm_compute; done].
Lemma attr_char_no_lt quot d : 60 ∉ attr_char quot d.
Proof.
  unfold attr_char. destruct (Z.eqb_spec d 60) as [->|]; [destruct quot; closed_not_in|].
  repeat case_match; try closed_not_in; rewrite list_elem_of_singleton; congruence.
Qed.
Lemma attr_char_no_quote d : 34 ∉ attr_char true d.
Proof.
  unfold attr_char. destruct (Z.eqb_spec d 34) as [->|]; [closed_not_in|].
  repeat case_match; try closed_not_in; rewrite list_elem_of_singleton; congruence.
Qed.
Lemma py_contains_char c s : py_contains [c] s = true <-> c ∈ s.
Proof.
  unfold py_contains, py_find. cbn [Nat.ltb Nat.leb skipn Nat.add length]. change (length s <? 0)%nat with false. cbn [skipn].
  replace (match (fun k => (0 + k)%nat) <$> find_from [c] s with Some _ => true | None => false end)
    with (match find_from [c] s with Some _ => true | None => false end) by (by destruct (find_from _ _)).
  induction s as [|d s IH]; cbn [find_from startswith].
  - rewrite elem_of_nil. done.
  - destruct (Z.eqb_spec c d) as [->|Hd]; cbn [andb].
    + replace (startswith s []) with true by (by destruct s). split; [intros _; by left|done].
    + rewrite elem_of_cons. destruct (find_from [c] s); cbn in *; intuition congruence.
Qed.
Lemma quoteattr_quoted s : quoted (quoteattr s) s.
Proof.
  unfold quoteattr. rewrite quoteattr_chars. destruct (py_contains [34] _) eqn:H34.
  - destruct (py_contains [39] _) eqn:H39.
    + exists 34, (esc_of (attr_char true) s). rewrite quoteattr_double. split_and!; [done|by left| | |apply attr_value_esc].
      * apply not_in_esc. intros d _. apply attr_char_no_quote.
      * apply not_in_esc. intros d _. apply attr_char_no_lt.
    + exists 39, (esc_of (attr_char false) s). split_and!; [done|by right| | |apply attr_value_esc].
      * rewrite <- py_contains_char. congruence.
      * apply not_in_esc. intros d _. apply attr_char_no_lt.
  - exists 34, (esc_of (attr_char false) s). split_and!; [done|by left| | |apply attr_value_esc].
    + rewrite <- py_contains_char. congruence.
    + apply not_in_esc. intros d _. apply attr_char_no_lt.
Qed.

Definition plain_char (c : Z) : Prop := c ∉ [9; 10; 13; 34; 38; 60].
Lemma plain_quoted s : Forall plain_char s -> quoted ([34] ++ s ++ [34]) s.
Proof.
  intros Hs. exists 34, s. split_and!; [done|by left| | |].
  - intros Hin. rewrite Forall_forall in Hs. apply Hs in Hin. apply Hin. by repeat constructor.
  - intros Hin. rewrite Forall_forall in Hs. apply Hs in Hin. apply Hin. by repeat constructor.
  - unfold attr_value. induction Hs as [|c s Hc _ IH]; [done|]. rewrite unescape_plain by (intros ->; apply Hc; by repeat constructor).
    rewrite IH. cbn. do 2 f_equal. unfold to_space.
    destruct (Z.eqb_spec c 9) as [->|]; [by destruct Hc; repeat constructor|].
    destruct (Z.eqb_spec c 10) as [->|]; [by destruct Hc; repeat constructor|].
    by destruct (Z.eqb_spec c 13) as [->|]; [destruct Hc; repeat constructor|].
Qed.
Lemma take_until_spec q w s : q ∉ w -> take_until q (w ++ q :: s) = Some (w, s).
Proof.
  induction w as [|c w IH]; cbn; [by rewrite Z.eqb_refl|]. rewrite not_elem_of_cons. intros [Hc Hw].
  destruct (Z.eqb_spec c q); [by subst|]. by rewrite IH.
Qed.

(** * Texts that show trees *)
Definition name_ok (n : pystr) : Prop := n <> [] /\ Forall (fun c => name_char c = true) n.
Definition not_name (s : pystr) : Prop := match s with c :: _ => name_char c = false | [] => True end.
Lemma name_of_spec n s : name_ok n -> not_name s -> name_of (n ++ s) = (n, s).
Proof.
  intros [_ Hn] Hs. unfold name_of.
  assert (span_len name_char (n ++ s) = length n) as ->.
  { induction Hn as [|c n Hc _ IH]; cbn; [|by rewrite Hc, IH]. destruct s; cbn; [done|]. cbn in Hs. by rewrite Hs. }
  by rewrite take_app_length, drop_app_length.
Qed.

Inductive shows_attrs : pystr -> list (pystr * pystr) -> Prop :=
  | shows_no_attrs : shows_attrs [] []
  | shows_attr name t v s l : name_ok name -> quoted t v -> shows_attrs s l ->
      shows_attrs ([32] ++ name ++ u "=" ++ t ++ s) ((name, v) :: l).

Definition stops (s : pystr) : Prop := match s with c :: _ => c <> 32 | [] => True end.
Lemma strip_prefix_app p s : strip_prefix p (p ++ s) = Some s.
Proof. induction p as [|c p IH]; [done|]. cbn. by rewrite Z.eqb_refl. Qed.
Lemma read_attrs_shows s l rest fuel : shows_attrs s l -> stops rest -> (length (s ++ rest) <= fuel)%nat ->
  read_attrs fuel (s ++ rest) = Some (l, rest).
Proof.
  intros Hs Hrest. revert fuel. induction Hs as [|name t v s l Hn (q & w & -> & Hq & Hqw & Hlt & Hv) _ IH]; intros fuel Hf.
  - assert (strip_prefix (u " ") rest = None) as Hno.
    { destruct rest as [|c rest]; [done|]. change (u " ") with [32]. cbn [strip_prefix]. cbn in Hrest.
      destruct (Z.eqb_spec 32 c); [congruence|done]. }
    cbn [app]. destruct fuel; cbn [read_attrs]; by rewrite Hno.
  - destruct fuel as [|f]; [by cbn in Hf; lia|]. cbn [read_attrs app]. change (u " ") with [32].
    cbn [strip_prefix]. rewrite Z.eqb_refl.
    unfold read_attr. rewrite <- !app_assoc. rewrite name_of_spec by done. destruct name as [|c0 name']; [by destruct Hn|].
    rewrite strip_prefix_app. cbn [app]. replace ((q =? 34) || (q =? 39)) with true by (destruct Hq; subst; done).
    rewrite <- !app_assoc. cbn [app]. rewrite take_until_spec by done. rewrite bool_decide_eq_false_2 by done. rewrite Hv. cbn.
    rewrite IH; [done|]. cbn in Hf. rewrite !length_app in *. cbn in Hf. rewrite !length_app in Hf. cbn in Hf. lia.
Qed.

Definition starts_tag (s : pystr) : Prop := match s with [] => True | c :: _ => c = 60 end.
Inductive shows : pystr -> list xml -> Prop :=
  | shows_nil : shows [] []
  | shows_empty name a attrs s l : name_ok name -> shows_attrs a attrs -> shows s l ->
      shows (u "<" ++ name ++ a ++ u "/>" ++ s) (XElem name attrs [] :: l)
  | shows_elem name a attrs b kids s l : name_ok name -> shows_attrs a attrs -> shows b kids -> shows s l ->
      shows (u "<" ++ name ++ a ++ u ">" ++ b ++ u "</" ++ name ++ u ">" ++ s) (XElem name attrs kids :: l)
  | shows_text t s l : t <> [] -> 13 ∉ t -> starts_tag s -> shows s l ->
      shows (esc_of text_char t ++ s) (XText t :: l).

Definition ends (s : pystr) : Prop := s = [] \/ exists r, s = u "</" ++ r.
Lemma shows_attrs_not_name a attrs s : shows_attrs a attrs -> not_name s -> not_name (a ++ s).
Proof. by destruct 1. Qed.
Lemma name_not_slash name s : name_ok name -> strip_prefix (u "/") (name ++ s) = None.
Proof.
  intros [Hne Hn]. destruct Hn as [|c n Hc _]; [done|]. change (u "/") with [47]. cbn [app strip_prefix].
  by destruct (Z.eqb_spec 47 c) as [<-|].
Qed.
Lemma text_span t s : starts_tag s -> span_len (fun c => negb (c =? 60)) (esc_of text_char t ++ s) = length (esc_of text_char t).
Proof.
  intros Hs. assert (60 ∉ esc_of text_char t) as Ht.
  { apply not_in_esc. intros d _. unfold text_char. repeat case_match; try closed_not_in. rewrite list_elem_of_singleton. intros <-. done. }
  induction (esc_of text_char t) as [|c w IH]; cbn.
  - destruct s as [|c s]; [done|]. by cbn in *; subst.
  - apply not_elem_of_cons in Ht as [Hc Hw]. destruct (Z.eqb_spec c 60); [by subst|]. cbn. by rewrite IH.
Qed.
Lemma text_not_tag t s : t <> [] -> exists c w, esc_of text_char t ++ s = c :: w /\ strip_prefix (u "<") (c :: w) = None.
Proof.
  destruct t as [|c t]; [done|]. intros _. unfold esc_of. cbn [map concat]. change (u "<") with [60]. unfold text_char at 1.
  destruct (Z.eqb_spec c 38); [by eexists _, _|]. destruct (Z.eqb_spec c 62); [by eexists _, _|].
  destruct (Z.eqb_spec c 60); [by eexists _, _|]. eexists _, _. split; [done|]. cbn [strip_prefix]. by destruct (Z.eqb_spec 60 c).
Qed.

Lemma length_lt : length (u "<") = 1%nat.
Proof. reflexivity. Qed.
Ltac measure := pose proof length_lt; repeat (rewrite length_app in * || (progress cbn [length app] in *)); lia.
(** What a text shows is what is read from it. *)
Lemma read_shows s l : shows s l -> forall rest fuel, ends rest -> (length (s ++ rest) < fuel)%nat ->
  read_nodes fuel (s ++ rest) = Some (l, rest).
Proof.
  induction 1 as [|name a attrs s l Hn Ha _ IH|name a attrs b kids s l Hn Ha _ IHb _ IH|t s l Hne Hcr Hs _ IH];
    intros rest fuel Hrest Hf.
  - destruct fuel as [|f]; [lia|]. destruct Hrest as [->|[r ->]]; [done|]. reflexivity.
  - destruct fuel as [|f]; [lia|]. cbn [read_nodes]. rewrite <- !app_assoc, strip_prefix_app. rewrite name_not_slash by done.
    rewrite name_of_spec by (try done; by eapply shows_attrs_not_name). destruct name as [|c0 name'] eqn:E; [by destruct Hn|]. rewrite <- E.
    rewrite (read_attrs_shows _ _ _ _ Ha) by (try done; measure). rewrite strip_prefix_app.
    rewrite IH by (try done; measure). done.
  - destruct fuel as [|f]; [lia|]. cbn [read_nodes]. rewrite <- !app_assoc, strip_prefix_app. rewrite name_not_slash by done.
    rewrite name_of_spec by (try done; by eapply shows_attrs_not_name). destruct name as [|c0 name'] eqn:E; [by destruct Hn|]. rewrite <- E in Hf |- *.
    rewrite (read_attrs_shows _ _ _ _ Ha) by (try done; measure).
    change (strip_prefix (u "/>") (u ">" ++ ?x)) with (@None pystr). rewrite strip_prefix_app.
    rewrite IHb; [|right; by eexists|measure].
    replace (u "</" ++ name ++ u ">" ++ s ++ rest) with ((u "</" ++ name ++ u ">") ++ s ++ rest) by (by rewrite <- !app_assoc).
    rewrite strip_prefix_app. rewrite IH by (try done; measure). done.
  - destruct fuel as [|f]; [lia|]. cbn [read_nodes]. rewrite <- app_assoc.
    destruct (text_not_tag t (s ++ rest) Hne) as (c & w & Hcw & Htag). rewrite Hcw, Htag, <- Hcw.
    rewrite text_span by (destruct s; [destruct Hrest as [->|[r ->]]|]; done).
    rewrite take_app_length, drop_app_length.
    unfold text_value. rewrite unescape_esc by (apply Forall_forall; intros d Hd; apply text_char_escapes; by intros ->).
    rewrite IH; [done|done|]. assert (length (esc_of text_char t) <> 0)%nat.
    { destruct t; [done|]. unfold esc_of, text_char. cbn [map concat]. repeat case_match; cbn; lia. }
    measure.
Qed.

(** ** Legal characters *)
Lemma entity_chars s v n : entity s = Some (v, n) -> xml_char v = true /\ forallb xml_char (firstn n s) = true.
Proof.
  unfold entity. destruct (List.find _ entities) as [[e v']|] eqn:E; [|done]. intros [= <- <-].
  apply find_some in E as [Hin Hp]. cbn [fst snd] in *.
  assert (He : xml_char v' = true /\ forallb xml_char e = true).
  { apply list_elem_of_In in Hin. unfold entities in Hin. rewrite !elem_of_cons, elem_of_nil in Hin.
    destruct Hin as [[= -> ->]|[[= -> ->]|[[= -> ->]|[[= -> ->]|[[= -> ->]|[[= -> ->]|[[= -> ->]|[]]]]]]]]; by vm_compute. }
  split; [apply He|]. destruct He as [_ He]. clear v' Hin. revert s Hp. induction e as [|c e IH]; intros s Hp; [done|].
  destruct s as [|d s]; [done|]. cbn [strip_prefix] in Hp. destruct (Z.eqb_spec c d) as [<-|]; [|done]. cbn [firstn length forallb] in *.
  apply andb_true_iff in He as [-> He]. by apply IH.
Qed.
Lemma unescape_chars white w v k : (forall c, xml_char (white c) = xml_char c) -> unescape_from white w k = Some v ->
  forallb xml_char (skipn k w) = forallb xml_char v.
Proof.
  intros Hw. revert v k. induction w as [|c w IH]; intros v k; cbn [unescape_from].
  - intros [= <-]. by rewrite skipn_nil.
  - destruct k as [|k]; [|apply IH]. cbn [skipn]. destruct (Z.eqb_spec c 38) as [->|].
    + destruct (entity w) as [[x n]|] eqn:E; [|done]. destruct (unescape_from white w n) as [v'|] eqn:Ev; [|done]. intros [= <-].
      apply entity_chars in E as [Hx Hn]. cbn [forallb]. rewrite Hx, <- (IH _ _ Ev), <- (firstn_skipn n w) at 1.
      by rewrite forallb_app, Hn.
    + destruct (unescape_from white w 0) as [v'|] eqn:Ev; [|done]. intros [= <-]. cbn [forallb]. by rewrite Hw, <- (IH _ _ Ev).
Qed.
Lemma to_space_char c : xml_char (to_space c) = xml_char c.
Proof.
  unfold to_space. destruct (Z.eqb_spec c 9) as [->|]; [done|]. destruct (Z.eqb_spec c 10) as [->|]; [done|].
  by destruct (Z.eqb_spec c 13) as [->|].
Qed.
Lemma quoted_chars t v : quoted t v -> forallb xml_char t = forallb xml_char v.
Proof.
  intros (q & w & -> & Hq & _ & _ & Hv). apply (unescape_chars _ _ _ _ to_space_char) in Hv. cbn [skipn] in Hv.
  cbn [forallb]. rewrite forallb_app. change (drop 0 w) with w in Hv. rewrite Hv. destruct Hq as [-> | ->]; cbn; by rewrite andb_true_r.
Qed.
Lemma name_chars n : name_ok n -> forallb xml_char n = true.
Proof.
  intros [_ Hn]. induction Hn as [|c n Hc _ IH]; [done|]. cbn [forallb]. rewrite IH, andb_true_r.
  unfold name_char, ascii_alpha in Hc. unfold xml_char. lia.
Qed.
Lemma attrs_chars s l : shows_attrs s l -> forallb xml_char s = forallb (fun kv => forallb xml_char kv.2) l.
Proof.
  induction 1 as [|name t v s l Hn Ht%quoted_chars _ IH]; [done|]. rewrite !forallb_app, IH, (name_chars name Hn), Ht. done.
Qed.
Lemma text_chars t : forallb xml_char (esc_of text_char t) = forallb xml_char t.
Proof.
  unfold esc_of. induction t as [|c t IH]; [done|]. cbn [map concat forallb]. rewrite forallb_app, IH. f_equal.
  unfold text_char. destruct (Z.eqb_spec c 38) as [->|]; [done|]. destruct (Z.eqb_spec c 62) as [->|]; [done|].
  destruct (Z.eqb_spec c 60) as [->|]; [done|]. cbn. by rewrite andb_true_r.
Qed.
(** A text is in legal characters when the values it shows are. *)
Lemma shows_chars s l : shows s l -> forallb xml_char s = forallb xml_chars l.
Proof.
  induction 1 as [|name a attrs s l Hn Ha _ IH|name a attrs b kids s l Hn Ha _ IHb _ IH|t s l _ _ _ _ IH]; [done|..];
    rewrite ?forallb_app, IH; cbn [forallb xml_chars]; rewrite ?(name_chars name Hn), ?(attrs_chars a attrs Ha), ?IHb, ?text_chars.
  - change (forallb xml_char (u "<")) with true. change (forallb xml_char (u "/>")) with true. by rewrite andb_true_r.
  - change (forallb xml_char (u "<")) with true. change (forallb xml_char (u ">")) with true. change (forallb xml_char (u "</")) with true.
    by rewrite !andb_true_l, !andb_assoc.
  - done.
Qed.

Lemma shows_app s l s' l' : shows s l -> starts_tag s' -> shows s' l' -> shows (s ++ s') (l ++ l').
Proof.
  intros H1 Ht H2. induction H1; cbn [app]; rewrite <- ?app_assoc; [done| | |]; rewrite <- ?app_assoc.
  - by apply shows_empty.
  - by apply shows_elem.
  - apply shows_text; try done. by destruct s.
Qed.

(** An element ends whatever follows it. *)
Lemma shows_before s n a k s' l' : shows s [XElem n a k] -> shows s' l' -> shows (s ++ s') (XElem n a k :: l').
Proof.
  intros H1 H2. inversion H1 as [|name b attrs s0 l Hn Hb Hs|name b attrs c kids s0 l Hn Hb Hc Hs|]; subst;
    (assert (s0 = []) as -> by (by inversion Hs)); rewrite <- !app_assoc.
  - by apply shows_empty.
  - by apply shows_elem.
Qed.

(** * The tree an element describes *)
Section Trees.
Context `{UnicodeDB}.

Definition plain_charb (c : Z) : bool := bool_decide (c ∉ [9; 10; 13; 34; 38; 60]).
(** What may stand in an attribute as it is: numbers do. *)
Definition plain_text (j : json) : option pystr := if forallb plain_charb (py_str j) then Some (py_str j) else None.
Definition field (d : list (pystr * json)) (k : pystr) : json := default JNull (dict_get k d).
Definition raw_field (d : list (pystr * json)) (k : pystr) : option (pystr * pystr) :=
  v ← dict_get k d; t ← plain_text v; Some (k, t).
Definition opt_field (d : list (pystr * json)) (k : pystr) : list (pystr * pystr) :=
  match field d k with JNull => [] | v => [(k, py_str v)] end.
Definition meta_fields (d : list (pystr * json)) : list (pystr * pystr) :=
  opt_field d (u "version") ++ opt_field d (u "timestamp") ++ opt_field d (u "changeset") ++ opt_field d (u "uid") ++
  opt_field d (u "user") ++
  match dict_get (u "visible") d with Some v => [(u "visible", if truthy v then u "true" else u "false")] | None => [] end.

Definition tag_tree (kv : pystr * json) : option xml :=
  v ← is_str kv.2; Some (XElem (u "tag") [(u "k", kv.1); (u "v", v)] []).
Definition tags_tree (tags : json) : option (list xml) :=
  if truthy tags then match tags with JObj kvs => mapM tag_tree kvs | _ => None end else Some [].
(** An element whose attributes are fields of a dictionary. *)
Definition box_tree (name : pystr) (keys : list pystr) (v : json) : option (list xml) :=
  if truthy v then match v with JObj d => attrs ← mapM (raw_field d) keys; Some [XElem name attrs []] | _ => None end
  else Some [].
Definition bounds_tree := box_tree (u "bounds") [u "minlat"; u "minlon"; u "maxlat"; u "maxlon"].
Definition center_tree := box_tree (u "center") [u "lat"; u "lon"].

Definition point_fields (p : json) : option (list (pystr * pystr)) :=
  match p with JObj d => mapM (raw_field d) [u "lat"; u "lon"] | _ => None end.
Definition nd_tree (ref pt : option json) : option xml :=
  r ← match ref with Some r => t ← plain_text r; Some [(u "ref", t)] | None => Some [] end;
  p ← match pt with Some p => point_fields p | None => Some [] end;
  Some (XElem (u "nd") (r ++ p) []).
Definition nds_tree (nodes geometry : json) : option (list xml) :=
  match nodes, geometry with
  | JNull, JNull => Some []
  | JNull, JList pts => mapM (fun p => nd_tree None (Some p)) pts
  | JList refs, JNull => mapM (fun r => nd_tree (Some r) None) refs
  | JList refs, JList pts =>
      if (length refs =? length pts)%nat
      then mapM (fun rp => nd_tree (Some rp.1) (not_none rp.2)) (zip refs pts)
      else mapM (fun r => nd_tree (Some r) None) refs
  | _, _ => None
  end.

Definition member_tree (m : json) : option xml :=
  match m with
  | JObj d =>
      ty ← raw_field d (u "type"); ref ← raw_field d (u "ref");
      role ← is_str (or_else (field d (u "role")) (JStr []));
      let head := [ty; ref; (u "role", role)] in
      if is_text (field d (u "type")) (u "node") && bool_decide (is_Some (dict_get (u "lat") d))
      then p ← point_fields m; Some (XElem (u "member") (head ++ p) [])
      else if is_text (field d (u "type")) (u "way") && bool_decide (is_Some (dict_get (u "geometry") d))
      then match field d (u "geometry") with
           | JList pts => nds ← mapM (fun p => nd_tree None (Some p)) pts; Some (XElem (u "member") head nds)
           | _ => None
           end
      else Some (XElem (u "member") head [])
  | _ => None
  end.
Definition members_tree (v : json) : option (list xml) :=
  match or_else v (JList []) with JList ms => mapM member_tree ms | _ => None end.

Definition element_tree (el : json) : option xml :=
  match el with
  | JObj d =>
      let t := field d (u "type") in
      tags ← tags_tree (field d (u "tags"));
      if is_text t (u "count") then Some (XElem (u "count") [] tags)
      else
        id ← raw_field d (u "id");
        if is_text t (u "timeline") then Some (XElem (u "timeline") [id] tags)
        else if is_text t (u "node")
        then Some (XElem (u "node") (id :: opt_field d (u "lat") ++ opt_field d (u "lon") ++ meta_fields d) tags)
        else if is_text t (u "area") then Some (XElem (u "area") (id :: meta_fields d) tags)
        else
          bounds ← bounds_tree (field d (u "bounds")); center ← center_tree (field d (u "center"));
          if is_text t (u "way")
          then nds ← nds_tree (field d (u "nodes")) (field d (u "geometry"));
               Some (XElem (u "way") (id :: meta_fields d) (bounds ++ center ++ nds ++ tags))
          else if is_text t (u "relation")
          then ms ← members_tree (field d (u "members"));
               Some (XElem (u "relation") (id :: meta_fields d) (bounds ++ center ++ ms ++ tags))
          else None
  | _ => None
  end.

Definition side_tree (name : pystr) (el : json) : option xml :=
  t ← element_tree el; Some (XElem name [] [XText ([10] ++ u "  "); t; XText [10]]).
Definition no_side (el : json) : bool := if el is JNull then true else false.
Definition body_tree (d : list (pystr * json)) (kind : json) : option (list xml) :=
  let old := side_tree (u "old") (field d (u "old")) in
  let new := side_tree (u "new") (field d (u "new")) in
  if is_text kind (u "create") then t ← element_tree (field d (u "new")); Some [t]
  else if is_text kind (u "delete") && no_side (field d (u "new")) then old ← old; Some [old]
  else if is_text kind (u "delete") || is_text kind (u "modify")
  then old ← old; new ← new; Some [old; XText [10]; new]
  else None.
Definition action_tree (action : json) : option xml :=
  match action with
  | JObj d =>
      let kind := field d (u "action") in
      k ← plain_text kind; body ← body_tree d kind;
      Some (XElem (u "action") [(u "type", k)] ([XText [10]] ++ body ++ [XText [10]]))
  | _ => None
  end.
Definition item_nodes (diff : bool) (el : json) : option (list xml) :=
  if diff then t ← action_tree el; Some [t; XText [10]] else t ← element_tree el; Some [t].

Definition is_elem (t : xml) : Prop := if t is XElem _ _ _ then True else False.

Definition some_xml (name : pystr) (t : option pystr) : list xml :=
  match some_text t with Some s => [XElem name [] [XText s]] | None => [] end.
Definition document_tree (r : Result) : option xml :=
  els ← mapM (item_nodes (is_diff r)) (r_elements r);
  Some (XElem (u "osm") [(u "version", u "0.6"); (u "generator", GENERATOR)]
    (XElem (u "note") [] [XText COPYRIGHT] ::
     match some_text (timestamp_osm_base r) with Some t => [XElem (u "meta") [(u "osm_base", t)] []] | None => [] end ++
     concat els ++ some_xml (u "remark") (remark r))).

(** * The code writes that tree *)
Definition emits_attrs (m : res pystr) (l : list (pystr * pystr)) : Prop := exists s, m = Ok s /\ shows_attrs s l.
Definition emits (m : res pystr) (l : list xml) : Prop := exists s, m = Ok s /\ shows s l /\ starts_tag s.

Lemma attrs_app s l s' l' : shows_attrs s l -> shows_attrs s' l' -> shows_attrs (s ++ s') (l ++ l').
Proof. induction 1; intros; [done|]. rewrite <- !app_assoc. apply shows_attr; auto. Qed.
Lemma xml_cat_nil : xml_cat [] = Ok [].
Proof. done. Qed.
Lemma xml_cat_cons m ms : xml_cat (m :: ms) = let* s := m in let* t := xml_cat ms in Ok (s ++ t).
Proof. unfold xml_cat. cbn. destruct m; cbn; [|done]. by destruct (res_mapM id ms). Qed.
Lemma emits_cat ms ls : Forall2 emits ms ls -> emits (xml_cat ms) (concat ls).
Proof.
  induction 1 as [|m l ms ls (s & -> & Hs & Ht) _ (s' & Hs' & Hs2 & Ht2)]; [by exists []; repeat constructor|].
  rewrite xml_cat_cons. cbn. rewrite Hs'. cbn. exists (s ++ s'). split_and!; [done|by apply shows_app|by destruct s].
Qed.
Lemma emits_attrs_cat ms ls : Forall2 emits_attrs ms ls -> emits_attrs (xml_cat ms) (concat ls).
Proof.
  induction 1 as [|m l ms ls (s & -> & Hs) _ (s' & Hs' & Hs2)]; [by exists []; repeat constructor|].
  rewrite xml_cat_cons. cbn. rewrite Hs'. cbn. exists (s ++ s'). split; [done|by apply attrs_app].
Qed.

Lemma raw_attr_shows name v : name_ok name -> Forall plain_char v -> shows_attrs (raw_attr name v) [(name, v)].
Proof.
  intros Hn Hv. unfold raw_attr. replace ([32] ++ name ++ u "=" ++ [34] ++ v ++ [34]) with ([32] ++ name ++ u "=" ++ ([34] ++ v ++ [34]) ++ [])
    by (by rewrite app_nil_r).
  apply shows_attr; [done|by apply plain_quoted|constructor].
Qed.
Lemma attr_shows name v : name_ok name -> shows_attrs (_attr name v) (match v with JNull => [] | _ => [(name, py_str v)] end).
Proof.
  intros Hn. unfold _attr. destruct v; [exact shows_no_attrs| | | | | | ];
    rewrite <- (app_nil_r (quoteattr _)); (apply shows_attr; [done|apply quoteattr_quoted|constructor]).
Qed.

Lemma concat_singles {A} (l : list A) : concat (map (fun x => [x]) l) = l.
Proof. induction l as [|x l IH]; [done|]. cbn. by rewrite IH. Qed.
Lemma get_field d k : get_or_none (JObj d) k = Ok (field d k).
Proof. done. Qed.
Lemma plain_text_Some v t : plain_text v = Some t -> t = py_str v /\ Forall plain_char t.
Proof.
  unfold plain_text. destruct (forallb _ _) eqn:E; [|done]. intros [= <-]. split; [done|].
  apply Forall_forall. intros c Hc. rewrite forallb_forall in E. apply list_elem_of_In in Hc.
  specialize (E c Hc). by apply bool_decide_eq_true in E.
Qed.
Lemma raw_emits d k kv : name_ok k -> raw_field d k = Some kv -> emits_attrs (raw_of k (JObj d) k) [kv].
Proof.
  intros Hk. unfold raw_field, raw_of, getitem. destruct (dict_get k d) as [v|]; cbn; [|done].
  destruct (plain_text v) as [t|] eqn:E; cbn; [|done]. intros [= <-]. apply plain_text_Some in E as [-> Hp].
  eexists. split; [done|]. by apply raw_attr_shows.
Qed.
Lemma attr_emits d k : name_ok k -> emits_attrs (attr_of k (JObj d)) (opt_field d k).
Proof. intros Hk. unfold attr_of. rewrite get_field. cbn. eexists. split; [done|]. unfold opt_field.
  pose proof (attr_shows k (field d k) Hk). by destruct (field d k). Qed.
Lemma raws_emit d ks l : Forall name_ok ks -> mapM (raw_field d) ks = Some l -> emits_attrs (xml_cat (map (fun k => raw_of k (JObj d) k) ks)) l.
Proof.
  intros Hks Hl. apply mapM_Some in Hl. rewrite <- (concat_singles l).
  apply emits_attrs_cat. induction Hl; inversion Hks; subst; cbn; constructor; auto using raw_emits.
Qed.

Lemma name_check n : bool_decide (n <> []) && forallb name_char n = true -> name_ok n.
Proof.
  intros [Hn Hf]%andb_true_iff. split; [by apply bool_decide_eq_true in Hn|].
  apply Forall_forall. intros c Hc. rewrite forallb_forall in Hf. apply Hf. by apply list_elem_of_In.
Qed.
Ltac names := apply name_check; reflexivity.
Ltac attrs := repeat (first [apply raw_emits; [names|eassumption] | apply attr_emits; names
  | apply Forall2_cons; split | apply Forall2_cons_2 | apply Forall2_nil_2]).

Lemma meta_emits d : emits_attrs (_meta_attrs (JObj d)) (meta_fields d).
Proof.
  unfold _meta_attrs, meta_fields. rewrite <- (app_nil_r (match dict_get (u "visible") d with Some _ => _ | None => _ end)).
  apply (emits_attrs_cat _ [_; _; _; _; _; _]). attrs.
  unfold contains, getitem. destruct (dict_get (u "visible") d) as [v|]; cbn.
  - eexists. split; [done|]. apply (attr_shows (u "visible") (JStr _)). names.
  - by exists []; repeat constructor.
Qed.

Lemma head_emits name ms ls : Forall2 emits_attrs ms ls ->
  exists a, xml_cat (Ok (u "<" ++ name) :: ms) = Ok (u "<" ++ name ++ a) /\ shows_attrs a (concat ls).
Proof. intros (a & Ha & Hs)%emits_attrs_cat. exists a. rewrite xml_cat_cons. cbn. rewrite Ha. cbn. done. Qed.
Lemma self_shows name a attrs : name_ok name -> shows_attrs a attrs -> shows (u "<" ++ name ++ a ++ u "/>") [XElem name attrs []].
Proof. intros Hn Ha. pose proof (shows_empty name a attrs [] [] Hn Ha shows_nil) as Hs. by rewrite app_nil_r in Hs. Qed.
Lemma pair_shows name a attrs b kids : name_ok name -> shows_attrs a attrs -> shows b kids ->
  shows (u "<" ++ name ++ a ++ u ">" ++ b ++ u "</" ++ name ++ u ">") [XElem name attrs kids].
Proof. intros Hn Ha Hb. pose proof (shows_elem name a attrs b kids [] [] Hn Ha Hb shows_nil) as Hs. by rewrite app_nil_r in Hs. Qed.
Lemma xml_cat_app ms ms' : xml_cat (ms ++ ms') = let* s := xml_cat ms in let* t := xml_cat ms' in Ok (s ++ t).
Proof.
  induction ms as [|m ms IH]; cbn [app]; [cbn; by destruct (xml_cat ms')|].
  rewrite !xml_cat_cons, IH. destruct m; cbn; [|done]. destruct (xml_cat ms); cbn; [|done]. destruct (xml_cat ms'); cbn; [|done]. by rewrite app_assoc.
Qed.
Lemma self_emits name ms ls : name_ok name -> Forall2 emits_attrs ms ls ->
  emits (xml_cat (Ok (u "<" ++ name) :: ms ++ [Ok (u "/>")])) [XElem name (concat ls) []].
Proof.
  intros Hn (a & Ha & Hs)%(head_emits name). exists (u "<" ++ name ++ a ++ u "/>"). split_and!; [|by apply self_shows|done].
  change (Ok (u "<" ++ name) :: ms ++ [Ok (u "/>")]) with ((Ok (u "<" ++ name) :: ms) ++ [Ok (u "/>")]).
  rewrite xml_cat_app, Ha. cbn. by rewrite <- !app_assoc.
Qed.
Lemma shows_nil_inv s l : shows s l -> s = [] -> l = [].
Proof.
  destruct 1 as [| | |t s l Hne _ _ _]; try done. destruct t as [|c t]; [done|]. unfold esc_of, text_char. cbn [map concat].
  by repeat case_match.
Qed.
Lemma close_shows name a attrs b kids : name_ok name -> shows_attrs a attrs -> shows b kids ->
  shows (close_tag name (u "<" ++ name ++ a) b) [XElem name attrs kids].
Proof.
  intros Hn Ha Hb. unfold close_tag. destruct b as [|c b'] eqn:E.
  - apply shows_nil_inv in Hb as ->; [|done]. rewrite <- !app_assoc. by apply self_shows.
  - rewrite <- !app_assoc. by apply pair_shows.
Qed.
Lemma close_starts name a b : starts_tag (close_tag name (u "<" ++ name ++ a) b).
Proof. by destruct b. Qed.

Lemma mapM_emits {A} (f : A -> res pystr) (t : A -> option xml) l ts :
  (forall a x, t a = Some x -> emits (f a) [x]) -> mapM t l = Some ts -> emits (xml_cat (map f l)) ts.
Proof.
  intros Hf Hts%mapM_Some. rewrite <- (concat_singles ts).
  apply emits_cat. induction Hts; cbn; constructor; auto.
Qed.

Lemma tag_emits kv t : tag_tree kv = Some t -> emits (tag_xml kv) [t].
Proof.
  unfold tag_tree, tag_xml. destruct kv as [k v]. destruct v as [| | | |v| |]; try done. intros [= <-].
  set (qk := quoteattr k). set (qv := quoteattr v).
  assert (u "<tag k=" ++ qk ++ u " v=" ++ qv ++ u "/>" =
          u "<" ++ u "tag" ++ ([32] ++ u "k" ++ u "=" ++ qk ++ [32] ++ u "v" ++ u "=" ++ qv ++ []) ++ u "/>") as E.
  { rewrite app_nil_r, <- !app_assoc. reflexivity. }
  exists (u "<tag k=" ++ qk ++ u " v=" ++ qv ++ u "/>"). split_and!; [done| |done]. rewrite E.
  apply self_shows; [names|]. apply shows_attr; [names|apply quoteattr_quoted|]. apply shows_attr; [names|apply quoteattr_quoted|constructor].
Qed.
Lemma tags_emits d l : tags_tree (field d (u "tags")) = Some l -> emits (_tags_xml (JObj d)) l.
Proof.
  unfold tags_tree, _tags_xml. rewrite get_field. cbn [res_bind]. destruct (truthy _); [|by intros [= <-]; exists []; repeat constructor].
  destruct (field d (u "tags")); try done. intros Hl. by apply (mapM_emits tag_xml tag_tree); [apply tag_emits|].
Qed.

Lemma raw_list_emits d ks l : Forall name_ok ks -> mapM (raw_field d) ks = Some l ->
  Forall2 emits_attrs (map (fun k => raw_of k (JObj d) k) ks) (map (fun kv => [kv]) l).
Proof. intros Hks Hl%mapM_Some. induction Hl; inversion Hks; subst; cbn; constructor; auto using raw_emits. Qed.
Ltac all_names := repeat (apply Forall_cons; split; [names|]); apply Forall_nil; done.

Lemma bounds_emits d l : bounds_tree (field d (u "bounds")) = Some l -> emits (_bounds_xml (JObj d)) l.
Proof.
  unfold bounds_tree, box_tree, _bounds_xml. rewrite get_field. cbn [res_bind]. destruct (truthy _); [|by intros [= <-]; exists []; repeat constructor].
  destruct (field d (u "bounds")) as [| | | | | |b]; try done. destruct (mapM _ _) as [kvs|] eqn:E; cbn [mbind option_bind]; [|done].
  intros [= <-]. rewrite <- (concat_singles kvs).
  apply (self_emits (u "bounds") (map (fun k => raw_of k (JObj b) k) [u "minlat"; u "minlon"; u "maxlat"; u "maxlon"])); [names|].
  apply raw_list_emits; [all_names|exact E].
Qed.
Lemma center_emits d l : center_tree (field d (u "center")) = Some l -> emits (_center_xml (JObj d)) l.
Proof.
  unfold center_tree, box_tree, _center_xml. rewrite get_field. cbn [res_bind]. destruct (truthy _); [|by intros [= <-]; exists []; repeat constructor].
  destruct (field d (u "center")) as [| | | | | |b]; try done. destruct (mapM _ _) as [kvs|] eqn:E; cbn [mbind option_bind]; [|done].
  intros [= <-]. rewrite <- (concat_singles kvs).
  apply (self_emits (u "center") (map (fun k => raw_of k (JObj b) k) [u "lat"; u "lon"])); [names|].
  apply raw_list_emits; [all_names|exact E].
Qed.

Lemma point_list p kvs : point_fields p = Some kvs ->
  exists lat lon, kvs = [lat; lon] /\ emits_attrs (raw_of (u "lat") p (u "lat")) [lat] /\ emits_attrs (raw_of (u "lon") p (u "lon")) [lon].
Proof.
  destruct p as [| | | | | |d]; try done. unfold point_fields. intros Hl%mapM_Some.
  inversion Hl as [|? lat ? ? H1 Hl']; subst. inversion Hl' as [|? lon ? ? H2 Hl'']; subst. inversion Hl''; subst.
  exists lat, lon. split_and!; [done| |]; apply raw_emits; try done; names.
Qed.
Lemma nd_emits ref pt t : nd_tree ref pt = Some t -> emits (nd_xml ref pt) [t].
Proof.
  unfold nd_tree, nd_xml. intros Ht.
  assert (exists r, emits_attrs (Ok (match ref with Some r => raw_attr (u "ref") (py_str r) | None => [] end)) r /\
    (p ← match pt with Some p => point_fields p | None => Some [] end; Some (XElem (u "nd") (r ++ p) [])) = Some t) as (r & Hr & Ht').
  { destruct ref as [r|]; cbn in Ht; [|exists []; split; [by exists []; repeat constructor|done]].
    destruct (plain_text r) as [v|] eqn:E; cbn in Ht; [|done]. apply plain_text_Some in E as [-> Hp].
    exists [(u "ref", py_str r)]. split; [|done]. eexists. split; [done|]. apply raw_attr_shows; [names|done]. }
  clear Ht. destruct pt as [p|]; cbn [mbind option_bind] in Ht'.
  - destruct (point_fields p) as [kvs|] eqn:E; cbn in Ht'; [|done]. injection Ht' as <-.
    apply point_list in E as (lat & lon & -> & H1 & H2).
    apply (self_emits (u "nd") [_; _; _] [r; [lat]; [lon]]); [names|]. by repeat constructor.
  - injection Ht' as <-.
    apply (self_emits (u "nd") [_; _; _] [r; []; []]); [names|]. repeat constructor; try done; by exists []; repeat constructor.
Qed.

Lemma zip_with_map {A B C} (f : A -> B -> C) l k : zip_with f l k = map (fun p => f p.1 p.2) (zip l k).
Proof. revert k. induction l as [|a l IH]; intros [|b k]; cbn; [done..|]. by rewrite IH. Qed.
Lemma nds_emits nodes geometry l : nds_tree nodes geometry = Some l -> emits (nds_xml nodes geometry) l.
Proof.
  destruct nodes as [| | | | |refs|], geometry as [| | | | |pts|]; try done; cbn [nds_tree nds_xml not_none json_len iter res_bind].
  - intros [= <-]. by exists []; repeat constructor.
  - intros Hl. eapply mapM_emits; [|exact Hl]. intros p x. apply nd_emits.
  - intros Hl. eapply mapM_emits; [|exact Hl]. intros p x. apply nd_emits.
  - destruct (length refs =? length pts)%nat; intros Hl.
    + rewrite zip_with_map. eapply mapM_emits; [|exact Hl]. intros p x. apply nd_emits.
    + eapply mapM_emits; [|exact Hl]. intros p x. apply nd_emits.
Qed.

(** [head + ">" + body + "</name>"] whatever the body. *)
Lemma pair_emits name a attrs b kids : name_ok name -> shows_attrs a attrs -> shows b kids ->
  emits (Ok (u "<" ++ name ++ a ++ u ">" ++ b ++ u "</" ++ name ++ u ">")) [XElem name attrs kids].
Proof. intros. eexists. split_and!; [done|by apply pair_shows|done]. Qed.
Lemma element_emits name ms ls bs ks m :
  name_ok name -> Forall2 emits_attrs ms ls -> emits bs ks ->
  m = (let* h := xml_cat (Ok (u "<" ++ name) :: ms) in let* b := bs in Ok (close_tag name h b)) ->
  emits m [XElem name (concat ls) ks].
Proof.
  intros Hn (a & Ha & Hs)%(head_emits name) (b & -> & Hb & _) ->. rewrite Ha. cbn [res_bind].
  eexists. split_and!; [done|by apply close_shows|apply close_starts].
Qed.

Lemma member_head d ty ref role : raw_field d (u "type") = Some ty -> raw_field d (u "ref") = Some ref ->
  is_str (or_else (field d (u "role")) (JStr [])) = Some role ->
  exists a, xml_cat [Ok (u "<member"); raw_of (u "type") (JObj d) (u "type"); raw_of (u "ref") (JObj d) (u "ref"); Ok (u " role=");
      let* r := get_or_none (JObj d) (u "role") in quoteattr_of (or_else r (JStr []))] = Ok (u "<" ++ u "member" ++ a) /\
    shows_attrs a [ty; ref; (u "role", role)].
Proof.
  intros Hty Href Hrole. destruct (raw_emits d (u "type") ty ltac:(names) Hty) as (s1 & E1 & H1).
  destruct (raw_emits d (u "ref") ref ltac:(names) Href) as (s2 & E2 & H2).
  rewrite get_field. cbn [res_bind]. destruct (or_else _ _) as [| | | |r| |]; try done. injection Hrole as ->.
  exists (s1 ++ s2 ++ [32] ++ u "role" ++ u "=" ++ quoteattr role ++ []). split.
  - rewrite !xml_cat_cons, E1, E2, xml_cat_nil. cbn [res_bind quoteattr_of]. f_equal.
  - apply (attrs_app s1 [ty]); [done|]. apply (attrs_app s2 [ref]); [done|].
    apply shows_attr; [names|apply quoteattr_quoted|constructor].
Qed.
Lemma contains_dict d k : contains (JObj d) k = Ok (bool_decide (is_Some (dict_get k d))).
Proof. cbn [contains]. destruct (dict_get k d) eqn:E; [by rewrite bool_decide_eq_true_2|]. rewrite bool_decide_eq_false_2; [done|]. intros [? ?]. congruence. Qed.
Lemma raw_field_get d k kv : raw_field d k = Some kv -> getitem (JObj d) k = Ok (field d k).
Proof. unfold raw_field, field, getitem. by destruct (dict_get k d). Qed.

Lemma member_emits m t : member_tree m = Some t -> emits (member_xml m) [t].
Proof.
  destruct m as [| | | | | |d]; try done. unfold member_tree, member_xml. cbn [mbind option_bind].
  destruct (raw_field d (u "type")) as [ty|] eqn:Hty; [|done]. destruct (raw_field d (u "ref")) as [ref|] eqn:Href; [|done].
  destruct (is_str _) as [role|] eqn:Hrole; [|done]. rewrite (raw_field_get _ _ _ Hty). cbn [res_bind].
  destruct (member_head d ty ref role Hty Href Hrole) as (a & -> & Ha). cbn [res_bind]. rewrite !contains_dict.
  assert (Hself : forall attrs b, shows_attrs b attrs -> emits (Ok ((u "<" ++ u "member" ++ a) ++ b ++ u "/>"))
      [XElem (u "member") ([ty; ref; (u "role", role)] ++ attrs) []]).
  { intros attrs b Hb. eexists. split_and!; [done| |done]. rewrite <- !app_assoc, (app_assoc a). apply self_shows; [names|by apply attrs_app]. }
  destruct (is_text (field d (u "type")) (u "node")) eqn:Hnode; cbn [andb].
  - assert (is_text (field d (u "type")) (u "way") = false) as ->.
    { destruct (field d (u "type")); try done. apply str_eqb_eq in Hnode as ->. done. }
    cbn [andb]. destruct (bool_decide (is_Some (dict_get (u "lat") d))); cbn [res_bind].
    + destruct (point_fields _) as [kvs|] eqn:E; cbn [mbind option_bind]; [|done]. intros [= <-].
      apply point_list in E as (lat & lon & -> & (s1 & E1 & H1) & (s2 & E2 & H2)).
      rewrite !xml_cat_cons, E1, E2, xml_cat_nil. cbn [res_bind].
      specialize (Hself [lat; lon] (s1 ++ s2) (attrs_app _ _ _ _ H1 H2)). rewrite app_nil_r. by rewrite <- (app_assoc s1) in Hself.
    + intros [= <-]. exact (Hself [] [] shows_no_attrs).
  - cbn [res_bind]. destruct (is_text _ (u "way")); cbn [andb]; [destruct (bool_decide (is_Some (dict_get (u "geometry") d))) eqn:Hg|]; cbn [res_bind];
      try (intros [= <-]; exact (Hself [] [] shows_no_attrs)).
    apply bool_decide_eq_true in Hg as [g Hg]. unfold getitem. unfold field. rewrite Hg. cbn [default res_of_option res_bind].
    destruct g as [| | | | |pts|]; try done. cbn [iter res_bind mbind option_bind id].
    destruct (mapM (fun p => nd_tree None (Some p)) pts) as [nds|] eqn:E; cbn [mbind option_bind]; [|done].
    intros [= <-]. pose proof (mapM_emits (fun p => nd_xml None (Some p)) _ _ _ (fun p x => nd_emits None (Some p) x) E) as (b & -> & Hb & _).
    cbn [res_bind]. rewrite <- !app_assoc. by apply (pair_emits (u "member")); [names| |].
Qed.
Lemma members_emits v l : members_tree v = Some l -> emits (let* ms := iter (or_else v (JList [])) in xml_cat (map member_xml ms)) l.
Proof.
  unfold members_tree. destruct (or_else _ _) as [| | | | |ms|]; try done. cbn [iter res_bind].
  apply mapM_emits. intros m t. apply member_emits.
Qed.

Lemma app_emits m1 l1 m2 l2 : emits m1 l1 -> emits m2 l2 -> emits (let* a := m1 in let* b := m2 in Ok (a ++ b)) (l1 ++ l2).
Proof.
  intros (s1 & -> & H1 & T1) (s2 & -> & H2 & T2). cbn. eexists. split_and!; [done|by apply shows_app|by destruct s1].
Qed.
Lemma emits_ok s l m : m = Ok s -> emits m l -> shows s l /\ starts_tag s.
Proof. by intros -> (s' & [= <-] & Hs). Qed.


(** ** Each kind of element *)
Section Kinds.
Context (d : list (pystr * json)) (tags : list xml) (Htags : tags_tree (field d (u "tags")) = Some tags).
Abbreviation el := (JObj d).

Lemma count_emits : emits (let* tags := get_or_empty el (u "tags") in xml_cat [Ok (u "<count>"); tag_list_xml tags; Ok (u "</count>")])
  [XElem (u "count") [] tags].
Proof.
  pose proof (tags_emits d tags Htags) as Et. unfold get_or_empty. unfold _tags_xml in Et. rewrite !get_field in *. cbn [res_map res_bind] in *.
  assert (emits (tag_list_xml (if truthy (field d (u "tags")) then field d (u "tags") else JObj [])) tags) as (b & Hb & Hs & Ht).
  { destruct (truthy _); [exact Et|]. destruct Et as (b & [= <-] & Hs & Ht). by exists []. }
  rewrite !xml_cat_cons, Hb, xml_cat_nil. cbn [res_bind]. rewrite app_nil_r.
  exact (pair_emits (u "count") [] [] b tags ltac:(names) shows_no_attrs Hs).
Qed.

Context (i : pystr * pystr) (Hid : raw_field d (u "id") = Some i).
Lemma id_emits : emits_attrs (raw_of (u "id") el (u "id")) [i].
Proof. apply raw_emits; [names|done]. Qed.
Lemma timeline_emits : emits (_timeline_xml el) [XElem (u "timeline") [i] tags].
Proof.
  destruct id_emits as (a & Ea & Ha), (tags_emits d tags Htags) as (b & Eb & Hb & _).
  unfold _timeline_xml. rewrite !xml_cat_cons, Ea, Eb, xml_cat_nil. cbn [res_bind]. rewrite app_nil_r.
  exact (pair_emits (u "timeline") a [i] b tags ltac:(names) Ha Hb).
Qed.
Lemma node_emits : emits (_node_xml el) [XElem (u "node") (i :: opt_field d (u "lat") ++ opt_field d (u "lon") ++ meta_fields d) tags].
Proof.
  replace (i :: opt_field d (u "lat") ++ opt_field d (u "lon") ++ meta_fields d)
    with (concat [[i]; opt_field d (u "lat"); opt_field d (u "lon"); meta_fields d]) by (cbn; by rewrite app_nil_r).
  eapply element_emits; [names| |exact (tags_emits d tags Htags)|reflexivity].
  repeat constructor; [exact id_emits|apply attr_emits; names|apply attr_emits; names|exact (meta_emits d)].
Qed.
Lemma id_meta : i :: meta_fields d = concat [[i]; meta_fields d].
Proof. cbn. by rewrite app_nil_r. Qed.
Lemma id_meta_emits : Forall2 emits_attrs [raw_of (u "id") el (u "id"); _meta_attrs el] [[i]; meta_fields d].
Proof. repeat constructor; [exact id_emits|exact (meta_emits d)]. Qed.
Lemma area_emits : emits (_area_xml el) [XElem (u "area") (i :: meta_fields d) tags].
Proof. rewrite id_meta. eapply element_emits; [names|exact id_meta_emits|exact (tags_emits d tags Htags)|reflexivity]. Qed.

Context (bs cs : list xml) (Hb : bounds_tree (field d (u "bounds")) = Some bs) (Hc : center_tree (field d (u "center")) = Some cs).
Lemma body_emits m ms : emits m ms ->
  emits (let* bounds := _bounds_xml el in let* center := _center_xml el in let* x := m in let* tags := _tags_xml el in
    Ok (bounds ++ center ++ x ++ tags)) (bs ++ cs ++ ms ++ tags).
Proof.
  intros Hm. destruct (bounds_emits d bs Hb) as (s1 & E1 & H1 & T1), (center_emits d cs Hc) as (s2 & E2 & H2 & T2),
    (tags_emits d tags Htags) as (s4 & E4 & H4 & T4), Hm as (s3 & -> & H3 & T3).
  rewrite E1, E2, E4. cbn [res_bind]. eexists. split_and!; [done| |by destruct s1, s2, s3].
  apply shows_app; [done|by destruct s2, s3|]. apply shows_app; [done|by destruct s3|]. by apply shows_app.
Qed.
Lemma way_emits ns : nds_tree (field d (u "nodes")) (field d (u "geometry")) = Some ns ->
  emits (_way_xml el) [XElem (u "way") (i :: meta_fields d) (bs ++ cs ++ ns ++ tags)].
Proof.
  intros Hn%nds_emits. rewrite id_meta. eapply element_emits; [names|exact id_meta_emits|exact (body_emits _ _ Hn)|].
  unfold _way_xml. rewrite !get_field. cbn [res_bind]. destruct (xml_cat _); cbn [res_bind]; [|done].
  destruct (_bounds_xml el); cbn [res_bind]; [|done]. destruct (_center_xml el); cbn [res_bind]; [|done].
  destruct (nds_xml (field d (u "nodes")) (field d (u "geometry"))); cbn [res_bind]; [|done]. by destruct (_tags_xml el).
Qed.
Lemma relation_emits ms : members_tree (field d (u "members")) = Some ms ->
  emits (_relation_xml el) [XElem (u "relation") (i :: meta_fields d) (bs ++ cs ++ ms ++ tags)].
Proof.
  intros Hm%members_emits. rewrite id_meta. eapply element_emits; [names|exact id_meta_emits|exact (body_emits _ _ Hm)|].
  unfold _relation_xml. rewrite !get_field. cbn [res_bind]. destruct (xml_cat _); cbn [res_bind]; [|done].
  destruct (_bounds_xml el); cbn [res_bind]; [|done]. destruct (_center_xml el); cbn [res_bind]; [|done].
  destruct (iter _); cbn [res_bind]; [|done]. destruct (xml_cat _); cbn [res_bind]; [|done]. by destruct (_tags_xml el).
Qed.
End Kinds.

Lemma is_text_eq t x : is_text t x = true -> t = JStr x.
Proof. destruct t; try done. cbn. by intros ->%str_eqb_eq. Qed.
Lemma element_xml_emits el t : element_tree el = Some t -> emits (_element_xml el) [t].
Proof.
  destruct el as [| | | | | |d]; try done. unfold element_tree, _element_xml. cbn zeta.
  destruct (tags_tree _) as [tags|] eqn:Htags; cbn [mbind option_bind]; [|done].
  intros Ht. assert (exists ty, dict_get (u "type") d = Some ty) as [ty Hty].
  { destruct (dict_get (u "type") d) as [ty|] eqn:Hty; [by exists ty|]. exfalso.
    assert (field d (u "type") = JNull) as Hnull by (unfold field; by rewrite Hty). rewrite Hnull in Ht. cbn [is_text] in Ht.
    destruct (raw_field d (u "id")); cbn [mbind option_bind] in Ht; [|done].
    destruct (bounds_tree _); cbn [mbind option_bind] in Ht; [|done]. by destruct (center_tree _). }
  unfold getitem. rewrite Hty. cbn [res_of_option res_bind]. replace (field d (u "type")) with ty in Ht by (unfold field; by rewrite Hty).
  destruct (is_text ty (u "count")); [injection Ht as <-; by apply count_emits|].
  destruct (raw_field d (u "id")) as [i|] eqn:Hid; cbn [mbind option_bind] in Ht; [|done].
  destruct (is_text ty (u "timeline")) eqn:E1.
  { injection Ht as <-. apply is_text_eq in E1 as ->. by apply timeline_emits. }
  destruct (is_text ty (u "node")); [injection Ht as <-; by apply node_emits|].
  destruct (is_text ty (u "area")) eqn:E2.
  { injection Ht as <-. apply is_text_eq in E2 as ->. by apply area_emits. }
  destruct (bounds_tree _) as [bs|] eqn:Hb; cbn [mbind option_bind] in Ht; [|done].
  destruct (center_tree _) as [cs|] eqn:Hc; cbn [mbind option_bind] in Ht; [|done].
  destruct (is_text ty (u "way")).
  { destruct (nds_tree _ _) as [ns|] eqn:Hn; cbn [mbind option_bind] in Ht; [|done]. injection Ht as <-. by apply way_emits. }
  destruct (is_text ty (u "relation")); [|done].
  destruct (members_tree _) as [ms|] eqn:Hm; cbn [mbind option_bind] in Ht; [|done]. injection Ht as <-. by apply relation_emits.
Qed.

(** ** The differences of two times *)
Lemma white_shows w s l : w ∈ [[10]; [10] ++ u "  "] -> starts_tag s -> shows s l -> shows (w ++ s) (XText w :: l).
Proof.
  intros Hw Ht Hs. assert (esc_of text_char w = w /\ w <> [] /\ 13 ∉ w) as (E & Hne & Hcr).
  { rewrite !elem_of_cons, elem_of_nil in Hw. destruct Hw as [-> |[-> |[]]]; (split_and!; [reflexivity|done|closed_not_in]). }
  rewrite <- E at 1. by apply shows_text.
Qed.
Lemma break_shows s l : starts_tag s -> shows s l -> shows ([10] ++ s) (XText [10] :: l).
Proof. intros. by apply white_shows; [left|..]. Qed.
Lemma end_break : shows [10] [XText [10]].
Proof. exact (break_shows [] [] I shows_nil). Qed.
Lemma bare_emits name b kids : name_ok name -> shows b kids ->
  emits (Ok (u "<" ++ name ++ u ">" ++ b ++ u "</" ++ name ++ u ">")) [XElem name [] kids].
Proof. intros Hn Hb. exact (pair_emits name [] [] b kids Hn shows_no_attrs Hb). Qed.

Lemma element_is_elem el t : element_tree el = Some t -> is_elem t.
Proof.
  destruct el as [| | | | | |d]; try done. unfold element_tree. cbn zeta. generalize (field d (u "type")) as ty. intros ty.
  destruct (tags_tree _); cbn [mbind option_bind]; [|done]. destruct (is_text ty (u "count")); [by intros [= <-]|].
  destruct (raw_field d (u "id")); cbn [mbind option_bind]; [|done]. destruct (is_text ty (u "timeline")); [by intros [= <-]|].
  destruct (is_text ty (u "node")); [by intros [= <-]|]. destruct (is_text ty (u "area")); [by intros [= <-]|].
  destruct (bounds_tree _); cbn [mbind option_bind]; [|done]. destruct (center_tree _); cbn [mbind option_bind]; [|done].
  destruct (is_text ty (u "way")); [destruct (nds_tree _ _); cbn [mbind option_bind]; [by intros [= <-]|done]|].
  destruct (is_text ty (u "relation")); [|done]. destruct (members_tree _); cbn [mbind option_bind]; [by intros [= <-]|done].
Qed.
Lemma shows_then s t s' l' : is_elem t -> shows s [t] -> shows s' l' -> shows (s ++ s') (t :: l').
Proof. destruct t; [done|]. intros _. apply shows_before. Qed.

Lemma elem_starts s t l s' : is_elem t -> shows s (t :: l) -> starts_tag (s ++ s').
Proof. destruct t; [done|]. intros _ Hs. by inversion Hs. Qed.
Lemma side_emits name el t : name_ok name -> side_tree name el = Some t -> emits (side_xml name el) [t].
Proof.
  intros Hn. unfold side_tree. destruct (element_tree el) as [e|] eqn:E; cbn [mbind option_bind]; [|done]. intros [= <-].
  destruct (element_xml_emits el e E) as (b & Eb & Hb & Tb). pose proof (element_is_elem el e E) as He.
  destruct (bare_emits name (([10] ++ u "  ") ++ b ++ [10]) [XText ([10] ++ u "  "); e; XText [10]] Hn) as (s & [= <-] & Hs & Ht).
  { apply white_shows; [by right; left|by eapply elem_starts|]. exact (shows_then _ _ _ _ He Hb end_break). }
  eexists. split_and!; [|exact Hs|done]. unfold side_xml. rewrite !xml_cat_cons, Eb, xml_cat_nil. cbn [res_bind].
  f_equal. rewrite app_nil_r, <- !app_assoc. reflexivity.
Qed.
Lemma field_get d k : field d k <> JNull -> getitem (JObj d) k = Ok (field d k).
Proof. unfold field, getitem. by destruct (dict_get k d). Qed.
Lemma side_field d k t : name_ok k -> side_tree k (field d k) = Some t ->
  exists s, getitem (JObj d) k = Ok (field d k) /\ side_xml k (field d k) = Ok s /\ shows s [t] /\ starts_tag s /\ is_elem t.
Proof.
  intros Hn Ht. destruct (side_emits k _ t Hn Ht) as (s & Hs). exists s. split_and!; try apply Hs.
  - apply field_get. intros E. unfold side_tree in Ht. by rewrite E in Ht.
  - unfold side_tree in Ht. destruct (element_tree _); cbn in Ht; [|done]. by injection Ht as <-.
Qed.
Lemma sides_shows s1 t1 s2 t2 : is_elem t1 -> shows s1 [t1] -> shows s2 [t2] -> starts_tag s2 -> shows (s1 ++ [10] ++ s2) [t1; XText [10]; t2].
Proof. intros He H1 H2 T2. apply shows_then; [done..|]. by apply break_shows. Qed.

Lemma one_side s t : is_elem t -> shows s [t] -> shows (s ++ [10]) [t; XText [10]] /\ starts_tag (s ++ [10]).
Proof. intros He Hs. split; [by apply shows_then; [| |apply end_break]|by eapply elem_starts]. Qed.
Lemma both_sides s1 t1 s2 t2 : is_elem t1 -> shows s1 [t1] -> is_elem t2 -> shows s2 [t2] ->
  shows ((s1 ++ [10] ++ s2) ++ [10]) [t1; XText [10]; t2; XText [10]] /\ starts_tag ((s1 ++ [10] ++ s2) ++ [10]).
Proof.
  intros He1 H1 He2 H2. rewrite <- !app_assoc. split; [|exact (elem_starts _ _ _ _ He1 H1)]. apply shows_then; [done..|].
  apply break_shows; [exact (elem_starts _ _ _ _ He2 H2)|]. by apply shows_then; [| |apply end_break].
Qed.
Lemma body_shows d kind body : body_tree d kind = Some body ->
  exists s, action_body (JObj d) kind = Ok s /\ shows (s ++ [10]) (body ++ [XText [10]]) /\ starts_tag (s ++ [10]).
Proof.
  unfold body_tree, action_body. rewrite get_field. cbn [res_bind]. destruct (is_text kind (u "create")).
  { destruct (element_tree (field d (u "new"))) as [t|] eqn:E; cbn [mbind option_bind]; [|done]. intros [= <-].
    rewrite field_get by (intros Hnull; by rewrite Hnull in E). cbn [res_bind].
    destruct (element_xml_emits _ _ E) as (s & Es & Hs & Ts). exists s. split; [done|]. apply one_side; [by eapply element_is_elem|done]. }
  destruct (side_tree (u "old") _) as [old|] eqn:Eo; cbn [mbind option_bind].
  2:{ destruct (is_text kind (u "delete") && no_side (field d (u "new"))); [done|].
      by destruct (is_text kind (u "delete") || is_text kind (u "modify")). }
  destruct (side_field d (u "old") old ltac:(names) Eo) as (s1 & G1 & E1 & H1 & T1 & I1). rewrite G1. cbn [res_bind]. rewrite E1. cbn [res_bind].
  destruct (is_text kind (u "delete") && no_side (field d (u "new"))) eqn:Hdel.
  { apply andb_true_iff in Hdel as [-> Hn]. destruct (field d (u "new")); try done. intros [= <-]. exists s1. split; [done|]. by apply one_side. }
  destruct (is_text kind (u "delete") || is_text kind (u "modify")) eqn:Hk; [|done].
  destruct (side_tree (u "new") _) as [new|] eqn:En; cbn [mbind option_bind]; [|done]. intros [= <-].
  destruct (side_field d (u "new") new ltac:(names) En) as (s2 & G2 & E2 & H2 & T2 & I2). rewrite G2. cbn [res_bind]. rewrite E2. cbn [res_bind].
  exists (s1 ++ [10] ++ s2). split; [|by apply both_sides].
  destruct (is_text kind (u "delete")); [|done]. destruct (field d (u "new")); try done; cbn [not_none]; by rewrite E2.
Qed.

Lemma action_text a s : (u "<" ++ u "action" ++ a ++ u ">" ++ ([10] ++ s ++ [10]) ++ u "</" ++ u "action" ++ u ">") ++ [10] =
  u "<action" ++ a ++ u ">" ++ [10] ++ s ++ [10] ++ u "</action>" ++ [10].
Proof. rewrite <- !app_assoc. reflexivity. Qed.
Lemma action_emits action t : action_tree action = Some t -> emits (_action_xml action) [t; XText [10]].
Proof.
  destruct action as [| | | | | |d]; try done. unfold action_tree, _action_xml. cbn zeta.
  destruct (plain_text _) as [k|] eqn:Ek; cbn [mbind option_bind]; [|done].
  destruct (body_tree d _) as [body|] eqn:Eb; cbn [mbind option_bind]; [|done]. intros [= <-].
  rewrite field_get by (intros E; by rewrite E in Eb). cbn [res_bind]. destruct (body_shows _ _ _ Eb) as (s & -> & Hs & Ts). cbn [res_bind].
  apply plain_text_Some in Ek as [-> Hk].
  pose proof (raw_attr_shows (u "type") _ ltac:(names) Hk) as Ha.
  pose proof (pair_shows (u "action") _ _ _ _ ltac:(names) Ha (break_shows _ _ Ts Hs)) as Hx.
  eexists. split_and!; [done|rewrite <- action_text; apply shows_then; [done|exact Hx|exact end_break]|done].
Qed.

(** ** The document *)
Lemma items_emit diff els nodes : mapM (item_nodes diff) els = Some nodes ->
  emits (xml_cat (map (if diff then _action_xml else _element_xml) els)) (concat nodes).
Proof.
  intros Hl%mapM_Some. apply emits_cat. induction Hl as [|el ns els nodes Hel _ IH]; cbn; constructor; auto.
  unfold item_nodes in Hel. destruct diff.
  - destruct (action_tree el) eqn:E; cbn in Hel; [|done]. injection Hel as <-. by apply action_emits.
  - destruct (element_tree el) eqn:E; cbn in Hel; [|done]. injection Hel as <-. by apply element_xml_emits.
Qed.
Lemma text_shows t : t <> [] -> 13 ∉ t -> shows (xml_escape t) [XText t].
Proof. intros Hne Hcr. rewrite xml_escape_chars. pose proof (shows_text t [] [] Hne Hcr I shows_nil) as Hs. by rewrite app_nil_r in Hs. Qed.
Lemma escaped_quoted t : Forall (fun c => c ∉ [9; 10; 13; 34]) t -> quoted ([34] ++ xml_escape t ++ [34]) t.
Proof.
  intros Ht. rewrite xml_escape_chars. exists 34, (esc_of text_char t). split_and!; [done|by left| | |].
  - apply not_in_esc. intros d Hd. rewrite Forall_forall in Ht. apply Ht in Hd. unfold text_char. repeat case_match; try closed_not_in.
    rewrite list_elem_of_singleton. intros <-. apply Hd. by repeat constructor.
  - apply not_in_esc. intros d _. unfold text_char. repeat case_match; try closed_not_in. rewrite list_elem_of_singleton. intros <-. done.
  - apply unescape_esc. eapply Forall_impl; [exact Ht|]. intros c Hc s. unfold text_char.
    destruct (Z.eqb_spec c 38) as [->|]; [done|]. destruct (Z.eqb_spec c 62) as [->|]; [done|]. destruct (Z.eqb_spec c 60) as [->|]; [done|].
    cbn [app]. rewrite unescape_plain by done. unfold to_space.
    destruct (Z.eqb_spec c 9) as [->|]; [by destruct Hc; repeat constructor|]. destruct (Z.eqb_spec c 10) as [->|]; [by destruct Hc; repeat constructor|].
    by destruct (Z.eqb_spec c 13) as [->|]; [destruct Hc; repeat constructor|].
Qed.

Definition clean (c : Z) : Prop := c ∉ [9; 10; 13; 34].
Definition meta_xml (t : option pystr) : pystr :=
  match some_text t with Some t => u "<meta" ++ raw_attr (u "osm_base") (xml_escape t) ++ u "/>" | None => [] end.
Lemma meta_shows t : Forall clean (default [] t) ->
  shows (meta_xml t) (match some_text t with Some t => [XElem (u "meta") [(u "osm_base", t)] []] | None => [] end) /\
  starts_tag (meta_xml t).
Proof.
  intros Ht. unfold meta_xml. destruct t as [[|c t]|]; cbn [some_text];
    [split; [exact shows_nil|done]| |split; [exact shows_nil|done]].
  split; [|done]. apply (self_shows (u "meta")); [names|]. unfold raw_attr.
  pose proof (shows_attr (u "osm_base") _ _ [] [] ltac:(names) (escaped_quoted _ Ht) shows_no_attrs) as Ha.
  rewrite app_nil_r in Ha. exact Ha.
Qed.
Definition remark_xml (t : option pystr) : pystr :=
  match some_text t with Some s => u "<remark>" ++ xml_escape s ++ u "</remark>" | None => [] end.
Lemma remark_shows t : 13 ∉ default [] t -> shows (remark_xml t) (some_xml (u "remark") t) /\ starts_tag (remark_xml t).
Proof.
  intros Ht. unfold remark_xml, some_xml. destruct t as [[|c t]|]; cbn [some_text];
    [split; [exact shows_nil|done]| |split; [exact shows_nil|done]].
  split; [|done]. apply (pair_shows (u "remark") [] []); [names|constructor|]. by apply text_shows.
Qed.
Lemma note_shows : shows (u "<note>" ++ xml_escape COPYRIGHT ++ u "</note>") [XElem (u "note") [] [XText COPYRIGHT]].
Proof. apply (pair_shows (u "note") [] []); [names|constructor|]. apply text_shows; [done|closed_not_in]. Qed.
Lemma osm_attrs : shows_attrs (raw_attr (u "version") (u "0.6") ++ raw_attr (u "generator") (xml_escape GENERATOR))
  [(u "version", u "0.6"); (u "generator", GENERATOR)].
Proof.
  apply (attrs_app _ [_] _ [_]); [|change (xml_escape GENERATOR) with GENERATOR]; apply raw_attr_shows; try names;
    (apply Forall_forall; intros c Hc; apply (bool_decide_unpack _); revert c Hc; apply Forall_forall; repeat constructor).
Qed.

Lemma starts_app a b : starts_tag a -> starts_tag b -> starts_tag (a ++ b).
Proof. by destruct a. Qed.
Lemma render_xml_shows r t : document_tree r = Some t -> Forall clean (default [] (timestamp_osm_base r)) -> 13 ∉ default [] (remark r) ->
  exists s, _render_xml r = Ok ((u "<?xml" ++ raw_attr (u "version") (u "1.0") ++ raw_attr (u "encoding") (u "UTF-8") ++ u "?>") ++ s) /\
    shows s [t] /\ is_elem t.
Proof.
  unfold document_tree. destruct (mapM _ _) as [nodes|] eqn:Hn; cbn [mbind option_bind]; [|done]. intros [= <-] Ht Hr.
  destruct (items_emit _ _ _ Hn) as (els & Eels & Hels & Tels). destruct (meta_shows _ Ht) as [Hm Tm]. destruct (remark_shows _ Hr) as [Hk Tk].
  pose proof (shows_app _ _ _ _ Hels Tk Hk) as H1. pose proof (starts_app _ _ Tels Tk) as T1.
  pose proof (shows_app _ _ _ _ Hm T1 H1) as H2. pose proof (starts_app _ _ Tm T1) as T2.
  pose proof (shows_app _ _ _ _ note_shows T2 H2) as H3.
  pose proof (pair_shows (u "osm") _ _ _ _ ltac:(names) osm_attrs H3) as Hdoc.
  eexists. split_and!; [|exact Hdoc|done]. unfold _render_xml. rewrite xml_cat_app. rewrite !xml_cat_cons, xml_cat_nil. cbn [res_bind].
  rewrite xml_cat_app, Eels. rewrite !xml_cat_cons, xml_cat_nil. cbn [res_bind]. f_equal.
  fold (meta_xml (timestamp_osm_base r)). fold (remark_xml (remark r)). rewrite !app_nil_r, <- !app_assoc. reflexivity.
Qed.
Lemma render_xml_read r t : document_tree r = Some t -> Forall clean (default [] (timestamp_osm_base r)) -> 13 ∉ default [] (remark r) ->
  exists s, _render_xml r = Ok s /\ read_document s = if xml_chars t then Some t else None.
Proof.
  intros Hd Ht Hr. destruct (render_xml_shows r t Hd Ht Hr) as (s & E & Hs & He). eexists. split; [exact E|].
  unfold read_document. rewrite forallb_app, (shows_chars s [t] Hs). cbn [forallb]. rewrite andb_true_r.
  match goal with |- context [forallb xml_char ?p] => change (forallb xml_char p) with true end. cbn [andb].
  destruct (xml_chars t); [|done]. cbn [negb].
  rewrite strip_prefix_app. pose proof (read_shows s [t] Hs [] (S (length s)) (or_introl eq_refl)) as Hread.
  rewrite app_nil_r in Hread. rewrite Hread by lia. by destruct t.
Qed.
End Trees.

(** C10: the XML of a reply. For elements (or, with [is_diff], actions) that
    describe a tree, a base timestamp without characters XML would have to
    escape and a remark without carriage returns (the code writes them raw, and
    XML reads them as line feeds), [_render_xml] returns a text. If every value
    consists of characters XML 1.0 allows, reading that text as XML gives the
    document with exactly their attributes, tags, members, vertices and the
    remark: no key, value, user name or role breaks out of its place. If some
    value has another character - a control character, a surrogate - the text is
    no XML document. *)
Theorem render_xml_roundtrip `{UnicodeDB} r t :
  document_tree r = Some t -> Forall clean (default [] (timestamp_osm_base r)) -> 13 ∉ default [] (remark r) ->
  exists s, _render_xml r = Ok s /\ read_document s = if xml_chars t then Some t else None.
Proof. apply render_xml_read. Qed.

#[local] Existing Instance latin1_db.
Definition sample_node : json :=
  JObj [(u "type", JStr (u "node")); (u "id", JInt 7); (u "lat", JFloat (float_of_decimal false 449 (-1))); (u "lon", JInt (-93));
        (u "user", JStr (u "a 'b' " ++ [34] ++ u "c" ++ [34])); (u "tags", JObj [(u "name", JStr (u "x" ++ [34] ++ u "/><way>"))])].
Definition sample_reply : Result :=
  {| r_elements := [sample_node]; r_settings := None; remark := Some (u "1 < 2"); timestamp_osm_base := Some (u "2024-01-01T00:00:00Z");
     r_stats := []; is_diff := false |}.
(** The remark of a query with a control character in a string literal. *)
Definition control_reply : Result :=
  {| r_elements := []; r_settings := None; remark := Some (u "runtime error: " ++ [1]); timestamp_osm_base := None; r_stats := []; is_diff := false |}.
Lemma render_xml_roundtrip_witness :
  (exists s t, _render_xml sample_reply = Ok s /\ read_document s = Some t /\ document_tree sample_reply = Some t) /\
  exists s, _render_xml control_reply = Ok s /\ read_document s = None.
Proof.
  split.
  - destruct (document_tree sample_reply) as [t|] eqn:E; [|exfalso; revert E; vm_compute; discriminate].
    destruct (render_xml_roundtrip sample_reply t E) as (s & Hs & Hr).
    + apply (bool_decide_unpack _). vm_compute. exact I.
    + apply (bool_decide_unpack _). vm_compute. exact I.
    + exists s, t. replace (xml_chars t) with true in Hr by (vm_compute in E; injection E as <-; vm_compute; reflexivity). by rewrite Hs, Hr.
  - destruct (document_tree control_reply) as [t|] eqn:E; [|exfalso; revert E; vm_compute; discriminate].
    destruct (render_xml_roundtrip control_reply t E) as (s & Hs & Hr).
    + constructor.
    + apply (bool_decide_unpack _). vm_compute. exact I.
    + exists s. replace (xml_chars t) with false in Hr by (vm_compute in E; injection E as <-; vm_compute; reflexivity). by rewrite Hs, Hr.
Defined.

Example node_text :
  _element_xml (JObj [(u "type", JStr (u "node")); (u "id", JInt 7); (u "lat", JFloat (float_of_decimal false 15 (-1)));
    (u "tags", JObj [(u "name", JStr (u "a<b & c")); (u "quote", JStr ([34] ++ u "x"))])]) =
  Ok (u "<node id=" ++ [34] ++ u "7" ++ [34] ++ u " lat=" ++ [34] ++ u "1.5" ++ [34] ++ u "><tag k=" ++ [34] ++ u "name" ++ [34] ++
      u " v=" ++ [34] ++ u "a&lt;b &amp; c" ++ [34] ++ u "/><tag k=" ++ [34] ++ u "quote" ++ [34] ++ u " v='" ++ [34] ++ u "x'/></node>").
Proof. vm_compute. reflexivity. Qed.
