(* ===== verification/RenderFacts.v ===== *)
(** What [out] shows: which elements and in which order, which vertices of a
    clipped way, and that every reply is a well-formed document. *)
From S2P Require Import Prelude PyStr PyFloat PyFloatFacts PyTime Json QlAst SqlExpr Osc Schema Sql Tiers DeltaRead Cells Catalog CellSelect SetTables.
From S2P Require Import RowSources History Sources Planner Result ResultFacts Render.
From S2P Require Import EvalSqlFacts.
From Stdlib Require Import SpecFloat.

(** * Order *)
Section Order.
Context {G : Type}.
Abbreviation row := (set_row G).
#[export] Instance order_le_total o : Total (@order_le G o).
Proof.
  intros a b. unfold order_le. destruct o; [unfold asc_le|unfold qt_le; destruct (s_hilbert a), (s_hilbert b); try by auto];
    rewrite ?orb_true_iff, ?andb_true_iff, ?Z.ltb_lt, ?Z.leb_le, ?Z.eqb_eq; lia.
Qed.
#[export] Instance order_le_trans o : Transitive (@order_le G o).
Proof.
  intros a b c. unfold order_le. destruct o; [unfold asc_le|unfold qt_le; destruct (s_hilbert a), (s_hilbert b), (s_hilbert c); try done];
    rewrite ?orb_true_iff, ?andb_true_iff, ?Z.ltb_lt, ?Z.leb_le, ?Z.eqb_eq; lia.
Qed.

(** The rows a limit chooses: the first ones in the order asked for. *)
Definition chosen (o : order_t) (limit : option Z) (rows chosen : list row) : Prop :=
  exists rest, chosen ++ rest ≡ₚ rows /\ StronglySorted (order_le o) chosen /\
    (forall a b, a ∈ chosen -> b ∈ rest -> order_le o a b) /\
    match limit with Some n => length chosen = Nat.min (Z.to_nat n) (length rows) | None => rest = [] end.

Lemma sorted_app_le (R : row -> row -> Prop) l k : StronglySorted R (l ++ k) -> forall a b, a ∈ l -> b ∈ k -> R a b.
Proof.
  induction l as [|x l IH]; cbn; [by intros _ a b ?%elem_of_nil|]. intros [Hs Hx]%StronglySorted_inv a b [->|Ha]%elem_of_cons Hb.
  - rewrite Forall_forall in Hx. apply Hx. rewrite elem_of_app. by right.
  - by apply IH.
Qed.
Lemma sorted_app_l (R : row -> row -> Prop) l k : StronglySorted R (l ++ k) -> StronglySorted R l.
Proof.
  induction l as [|x l IH]; cbn; [constructor|]. intros [Hs Hx]%StronglySorted_inv. constructor; [by apply IH|].
  by apply Forall_app in Hx as [Hx _].
Qed.
Lemma limited_chosen o limit rows l : limited limit (sorted_rows rows o) = Ok l -> chosen o limit rows l.
Proof.
  unfold limited, sorted_rows. pose proof (merge_sort_Permutation (order_le o) rows) as Hp.
  assert (StronglySorted (order_le o) (merge_sort (order_le o) rows)) as Hs by (apply (StronglySorted_merge_sort (order_le o))).
  destruct limit as [n|].
  - destruct (n <? 0) eqn:Hn; [done|]. intros [= <-]. exists (drop (Z.to_nat n) (merge_sort (order_le o) rows)).
    rewrite <- (take_drop (Z.to_nat n) (merge_sort _ rows)) in Hs. split_and!.
    + by rewrite take_drop.
    + by eapply sorted_app_l.
    + by apply sorted_app_le.
    + rewrite length_take. by rewrite (Permutation_length Hp).
  - intros [= <-]. exists []. rewrite app_nil_r. split_and!; try done. by intros a b _ ?%elem_of_nil.
Qed.
End Order.

(** * The elements are those of the chosen rows *)
Section Elements.
Context `{UnicodeDB} {G : Type} `{DuckDB G} `{Spatial G} `{AsText G} (d : dataset G) (snap : option PyTime.datetime).
Abbreviation row := (set_row G).

(** The element is about the row. *)
Definition about (el : json) (r : row) : Prop :=
  exists entries, el = JObj ((u "type", JStr (s_type r)) :: (u "id", JInt (s_id r)) :: entries).

Lemma hydrate_rows (rows rows' : list (@out_row G)) : hydrate_way_geometry d snap rows = Ok rows' -> map fst rows' = map fst rows.
Proof.
  unfold hydrate_way_geometry. destruct (existsb _ _); [|by intros [= ->]].
  destruct (resolved_geometries _ _ _) as [found|]; cbn [res_bind]; [|done]. intros [= <-]. rewrite map_map. apply map_ext.
  intros [r w]. cbn. destruct (missing _); [|done]. by destruct (found !! _).
Qed.
Lemma row_to_element_about r o nc wg el : _row_to_element r o nc wg = Ok el -> about el r.1.
Proof.
  unfold _row_to_element. destruct (if s_type r.1 =s NODE then _ else _) as [body|]; cbn [res_bind]; [|done]. intros [= <-]. by eexists.
Qed.
Lemma elements_about (rows : list (@out_row G)) o nc wg els : res_mapM (fun r => _row_to_element r o nc wg) rows = Ok els ->
  Forall2 about els (map fst rows).
Proof.
  intros He%res_mapM_Ok. apply Forall2_fmap_r, Forall2_flip. eapply Forall2_impl; [exact He|]. intros r el. apply row_to_element_about.
Qed.

(** The lookups of geometry keep the rows. *)
Lemma build_elements_split rows o areas els vs : o_count o = false -> build_elements d snap rows o areas = Ok (els, vs) ->
  exists l orows nc wg, limited (o_limit o) (sorted_rows rows (o_order o)) = Ok l /\ map fst orows = l /\
    res_mapM (fun r => _row_to_element r o nc wg) orows = Ok els /\ vs = map (fun r => (s_key r, s_version r)) l.
Proof.
  intros Hc. unfold build_elements. rewrite Hc. unfold fetch_out_rows.
  destruct (limited _ _) as [l|] eqn:Hl; cbn [res_map res_bind]; [|done].
  set (orows := map (fun r => (r, st_as_text <$> s_geometry r)) l).
  assert (Hfst : map fst orows = l) by (unfold orows; rewrite map_map; apply map_id). clearbody orows.
  destruct (if is_geom (o_geometry o) then _ else _) as [[[rows' nc] wg]|] eqn:Hlook; cbn [res_bind]; [|done].
  assert (Hrows : map fst rows' = l).
  { destruct (is_geom (o_geometry o)); [|injection Hlook as -> _ _; done].
    destruct (hydrate_way_geometry _ _ _) as [hr|] eqn:Hh; cbn [res_bind] in Hlook; [|done].
    destruct (resolve_node_coords _ _ _ _); cbn [res_bind] in Hlook; [|done].
    destruct (resolve_way_geometries _ _ _ _); cbn [res_bind] in Hlook; [|done]. injection Hlook as <- _ _. by rewrite (hydrate_rows _ _ Hh). }
  destruct (res_mapM _ _) as [els'|] eqn:He; cbn [res_bind]; [|done]. intros [= <- <-].
  exists l, rows', nc, wg. split_and!; try done. rewrite <- Hrows. by rewrite map_map.
Qed.
Lemma build_elements_rows rows o areas els vs : o_count o = false -> build_elements d snap rows o areas = Ok (els, vs) ->
  exists l, chosen (o_order o) (o_limit o) rows l /\ Forall2 about els l /\ vs = map (fun r => (s_key r, s_version r)) l.
Proof.
  intros Hc Hb. destruct (build_elements_split rows o areas els vs Hc Hb) as (l & orows & nc & wg & Hl & Ho & He & Hv).
  exists l. split_and!; [by apply limited_chosen|rewrite <- Ho; by eapply elements_about|done].
Qed.
End Elements.

(** * Clipping *)
Lemma clip_from_length before pts bbox : length (clip_from before pts bbox) = length pts.
Proof. revert before. induction pts as [|p pts IH]; intros before; [done|]. cbn. by rewrite IH. Qed.
Definition inside_at (pts : list point) (bbox : BBox) (i : nat) : bool :=
  match pts !! i with Some p => _point_in_bbox p bbox | None => false end.
Lemma clip_from_lookup before pts bbox i p : pts !! i = Some p ->
  clip_from before pts bbox !! i = Some (if inside_at pts bbox i || (match i with O => before | S k => inside_at pts bbox k end) ||
    inside_at pts bbox (S i) then Some p else None).
Proof.
  revert before i. induction pts as [|q pts IH]; intros before i; [done|]. destruct i as [|i]; cbn.
  - intros [= ->]. unfold inside_at. cbn. by destruct pts.
  - intros Hp. rewrite (IH _ _ Hp). unfold inside_at. cbn. by destruct i.
Qed.

(** * Numbers stand in attributes as they are *)
Lemma plain_closed s : forallb plain_charb s = true -> Forall plain_char s.
Proof. intros Hs. apply Forall_forall. intros c Hc. rewrite forallb_forall in Hs. apply list_elem_of_In, Hs in Hc. by apply bool_decide_eq_true in Hc. Qed.
Lemma plain_of_closed s : Forall plain_char s -> forallb plain_charb s = true.
Proof. intros Hs. apply forallb_forall. intros c Hc%list_elem_of_In. rewrite Forall_forall in Hs. apply bool_decide_eq_true. by apply Hs. Qed.
Lemma plain_digit c : digit_or_minus c -> plain_char c.
Proof. unfold digit_or_minus, plain_char. intros Hc Hin. rewrite !elem_of_cons, elem_of_nil in Hin. destruct Hc as [->|?%ascii_digit_spec]; lia. Qed.
Lemma plain_Z n : Forall plain_char (str_of_Z n).
Proof. eapply Forall_impl; [apply str_of_Z_chars|]. apply plain_digit. Qed.
Lemma plain_repeat n : Forall plain_char (repeat 48 n).
Proof. induction n; cbn; constructor; [|done]. by apply plain_digit; right. Qed.
Lemma plain_drop_zeros s : Forall plain_char s -> Forall plain_char (drop_zeros s).
Proof. induction 1 as [|c s Hc Hs IH]; cbn; [constructor|]. repeat case_match; auto. Qed.
Lemma plain_float x : Forall plain_char (float_repr x).
Proof.
  assert (Hz : forall n, Forall plain_char (replicate n 48)) by (intros n; apply Forall_replicate; by apply plain_digit; right).
  unfold float_repr, zero_pad. destruct x as [s|s| |s m e]; try (destruct s; by apply plain_closed); try by apply plain_closed.
  destruct (repr_digits s m e) as [ds ex] eqn:E. assert (Forall plain_char ds) as Hds.
  { unfold repr_digits in E. destruct (shortest _ _ _ _ _ _) as [dd p]. injection E as <- _. apply Forall_rev, plain_drop_zeros, Forall_rev, plain_Z. }
  apply Forall_app; split; [by destruct s; apply plain_closed|].
  repeat case_match; repeat (apply Forall_app; split); auto using plain_repeat, plain_Z, Forall_take, Forall_drop; by apply plain_closed.
Qed.

Section Trees.
Context `{UnicodeDB}.
Lemma plain_int n : plain_text (JInt n) = Some (str_of_Z n).
Proof. unfold plain_text. by rewrite plain_of_closed by apply plain_Z. Qed.
Lemma plain_double x : plain_text (JFloat x) = Some (float_repr x).
Proof. unfold plain_text. by rewrite plain_of_closed by apply plain_float. Qed.
Lemma dict_get_app {A} k (l1 l2 : list (pystr * A)) :
  dict_get k (l1 ++ l2) = match dict_get k l1 with Some v => Some v | None => dict_get k l2 end.
Proof. induction l1 as [|[k' v] l1 IH]; cbn; [done|]. by destruct (k' =s k). Qed.
Lemma mapM_total_in {A B} (f : A -> option B) l : (forall x, x ∈ l -> is_Some (f x)) -> is_Some (mapM f l).
Proof. intros Hf. apply mapM_is_Some, Forall_forall, Hf. Qed.

Lemma point_total lat lon : is_Some (point_fields (latlon lat lon)).
Proof.
  unfold point_fields, latlon. apply mapM_total_in. intros k Hk. rewrite !elem_of_cons, elem_of_nil in Hk. destruct Hk as [->|[->|[]]].
  - change (is_Some (t ← plain_text (JFloat lat); Some (u "lat", t))). rewrite plain_double. by eexists.
  - change (is_Some (t ← plain_text (JFloat lon); Some (u "lon", t))). rewrite plain_double. by eexists.
Qed.
Lemma nd_ref_total n : is_Some (nd_tree (Some (JInt n)) None).
Proof. unfold nd_tree. rewrite plain_int. by eexists. Qed.
Lemma nd_point_total lat lon : is_Some (nd_tree None (Some (latlon lat lon))).
Proof. unfold nd_tree. destruct (point_total lat lon) as [p Hp]. cbn [mbind option_bind]. rewrite Hp. by eexists. Qed.
Lemma nd_both_total n pt : is_Some (nd_tree (Some (JInt n)) (not_none (match pt with Some p => point_json p | None => JNull end))).
Proof.
  unfold nd_tree. rewrite plain_int. cbn [mbind option_bind]. destruct pt as [p|]; cbn [not_none]; [|by eexists].
  unfold point_json. destruct (point_total (round7 p.2) (round7 p.1)) as [q Hq]. cbn [mbind option_bind not_none latlon].
  change (JObj _) with (latlon (round7 p.2) (round7 p.1)). rewrite Hq. by eexists.
Qed.

Lemma opt_eta {A} (x : option A) : match x with Some v => Some v | None => None end = x.
Proof. by destruct x. Qed.
Lemma get_opt k k' v : dict_get k (opt_entry k' v) = if k' =s k then v else None.
Proof. destruct v; cbn; by destruct (k' =s k). Qed.
(** Looks a key up in the entries of an element. *)
Ltac keys := repeat match goal with |- context [?a =s ?b] =>
  lazymatch a with u _ => lazymatch b with u _ => let r := eval vm_compute in (a =s b) in change (a =s b) with r end end end.
Ltac lookup := repeat (rewrite dict_get_app || rewrite get_opt || rewrite opt_eta || (progress cbn [dict_get app]) || (progress keys) || cbn match).

Section Row.
Context {G : Type} (r : set_row G) (o : Out).

(** What stands in the entries of a row apart from its own. *)
Definition rest_entries : list (pystr * json) :=
  (if o_verbosity o is VMeta then meta_entries r else []) ++ tag_entries r (o_verbosity o).
Lemma rest_no_key k : k ∈ [u "bounds"; u "center"; u "nodes"; u "geometry"; u "members"] -> dict_get k rest_entries = None.
Proof.
  intros Hk. rewrite !elem_of_cons, elem_of_nil in Hk. unfold rest_entries, meta_entries, tag_entries.
  destruct Hk as [->|[->|[->|[->|[->|[]]]]]]; destruct (o_verbosity o), (s_tags r) as [[|]|]; lookup; reflexivity.
Qed.
Lemma rest_tags : is_Some (tags_tree (default JNull (dict_get (u "tags") rest_entries))).
Proof.
  assert (forall l : list (pystr * pystr), is_Some (tags_tree (JObj (map (fun kv => (kv.1, JStr kv.2)) l)))) as Ht.
  { intros l. unfold tags_tree. destruct (truthy _); [|by eexists]. apply mapM_total_in. intros [k v] Hk.
    apply elem_of_map in Hk as ([k' v'] & [= -> ->] & _). by eexists. }
  unfold rest_entries, meta_entries, tag_entries. destruct (o_verbosity o), (s_tags r) as [[|kv l]|]; lookup; try (by eexists); apply (Ht (kv :: l)).
Qed.

Lemma box_total lat lon lat2 lon2 : is_Some (bounds_tree (box_json (JFloat lat) (JFloat lon) (JFloat lat2) (JFloat lon2))).
Proof.
  unfold bounds_tree, box_tree, box_json. cbn [truthy].
  assert (forall l, is_Some (mapM (raw_field l) [u "minlat"; u "minlon"; u "maxlat"; u "maxlon"]) ->
    is_Some (attrs ← mapM (raw_field l) [u "minlat"; u "minlon"; u "maxlat"; u "maxlon"]; Some [XElem (u "bounds") attrs []])) as Hm.
  { intros l [x Hx]. rewrite Hx. by eexists. }
  apply Hm, mapM_total_in. intros k Hk. rewrite !elem_of_cons, elem_of_nil in Hk. destruct Hk as [->|[->|[->|[->|[]]]]].
  - change (is_Some (t ← plain_text (JFloat lat); Some (u "minlat", t))). rewrite plain_double. by eexists.
  - change (is_Some (t ← plain_text (JFloat lon); Some (u "minlon", t))). rewrite plain_double. by eexists.
  - change (is_Some (t ← plain_text (JFloat lat2); Some (u "maxlat", t))). rewrite plain_double. by eexists.
  - change (is_Some (t ← plain_text (JFloat lon2); Some (u "maxlon", t))). rewrite plain_double. by eexists.
Qed.
Lemma bounds_dict_total : is_Some (bounds_tree (default JNull (bounds_dict r))).
Proof. unfold bounds_dict. destruct (s_box r) as [[[[? ?] ?] ?]|]; [apply box_total|by eexists]. Qed.
Lemma clipped_total pts : is_Some (bounds_tree (default JNull (clipped_bounds pts))).
Proof. unfold clipped_bounds. destruct (omap _ _); [by eexists|apply box_total]. Qed.
Lemma center_total : is_Some (center_tree (default JNull (center_dict r))).
Proof.
  unfold center_dict. destruct (s_box r) as [[[[x0 y0] x1] y1]|]; [|by eexists]. unfold center_tree, box_tree. cbn [truthy default latlon].
  destruct (point_total (middle y0 y1) (middle x0 x1)) as [x Hx]. unfold point_fields, latlon in Hx.
  change (is_Some (attrs ← mapM (raw_field [(u "lat", JFloat (middle y0 y1)); (u "lon", JFloat (middle x0 x1))]) [u "lat"; u "lon"];
    Some [XElem (u "center") attrs []])). rewrite Hx. by eexists.
Qed.

Lemma nodes_total refs pts : o_geom_bbox o = None \/ refs <> JNull -> (refs = JNull \/ exists l, refs = JList (map JInt l)) ->
  forall clipped, clipped = (match o_geom_bbox o with Some b => Some (clip_way_geometry pts b) | None => None end) ->
  is_Some (nds_tree refs (JList (_geometry_points_to_json (default (map Some pts) clipped)))).
Proof.
  intros Hclip Hrefs clipped ->. destruct Hrefs as [->|[l ->]].
  - destruct Hclip as [E|]; [|done]. rewrite E. cbn [default nds_tree]. apply mapM_total_in. intros p Hp.
    unfold _geometry_points_to_json in Hp. rewrite map_map in Hp. apply elem_of_map in Hp as (q & -> & _). apply nd_point_total.
  - cbn [nds_tree]. set (js := _geometry_points_to_json _).
    assert (forall x, x ∈ js -> exists p, x = match p with Some p => point_json p | None => JNull end) as Hjs.
    { intros x Hx. unfold js, _geometry_points_to_json in Hx. apply elem_of_map in Hx as (p & -> & _). by exists p. }
    clearbody js. destruct (_ =? _)%nat; apply mapM_total_in.
    + intros [x y] Hxy. pose proof (elem_of_zip_l _ _ _ _ Hxy) as Hx. pose proof (elem_of_zip_r _ _ _ _ Hxy) as Hy.
      apply elem_of_map in Hx as (n & -> & _). destruct (Hjs _ Hy) as [p ->]. apply nd_both_total.
    + intros x Hx. apply elem_of_map in Hx as (n & -> & _). apply nd_ref_total.
Qed.
Lemma refs_total l : is_Some (nds_tree (JList (map JInt l)) JNull).
Proof. cbn [nds_tree]. apply mapM_total_in. intros x Hx. apply elem_of_map in Hx as (n & -> & _). apply nd_ref_total. Qed.

Lemma plain_e7 v : is_Some (plain_text (e7 v)).
Proof. destruct v; cbn [e7]; [rewrite plain_double|]; by eexists. Qed.
Definition member_letter (x : member) : Prop := m_type x ∈ [u "n"; u "w"; u "r"].
Lemma member_head_total rest x : member_letter x ->
  exists ty ref, raw_field ((u "type", JStr (MEMBER_TYPE_NAME (m_type x))) :: (u "ref", JInt (m_ref x)) :: (u "role", JStr (m_role x)) :: rest)
    (u "type") = Some ty /\
  raw_field ((u "type", JStr (MEMBER_TYPE_NAME (m_type x))) :: (u "ref", JInt (m_ref x)) :: (u "role", JStr (m_role x)) :: rest) (u "ref") = Some ref.
Proof.
  intros Hx. exists (u "type", MEMBER_TYPE_NAME (m_type x)), (u "ref", str_of_Z (m_ref x)). unfold raw_field. lookup.
  cbn [mbind option_bind]. rewrite plain_int. split; [|done]. unfold member_letter in Hx. rewrite !elem_of_cons, elem_of_nil in Hx.
  destruct Hx as [->|[->|[->|[]]]]; reflexivity.
Qed.
Lemma or_else_role (s : pystr) : or_else (JStr s) (JStr []) = JStr s.
Proof. by destruct s. Qed.
Ltac no_key := cbn [dict_get]; change (bool_decide (is_Some (@None json))) with false; rewrite andb_false_r; by eexists.
Lemma member_total nc wg x : member_letter x -> is_Some (member_tree (member_json o nc wg x)).
Proof.
  intros Hx. unfold member_json. set (rest := if is_geom (o_geometry o) then _ else []). cbn [app].
  destruct (member_head_total rest x Hx) as (ty & ref & Hty & Href).
  unfold member_tree. rewrite Hty, Href. cbn [mbind option_bind].
  assert (Hrole : field ((u "type", JStr (MEMBER_TYPE_NAME (m_type x))) :: (u "ref", JInt (m_ref x)) :: (u "role", JStr (m_role x)) :: rest) (u "role")
    = JStr (m_role x)) by (unfold field; lookup; done).
  rewrite Hrole, or_else_role. cbn [is_str mbind option_bind].
  assert (Htype : field ((u "type", JStr (MEMBER_TYPE_NAME (m_type x))) :: (u "ref", JInt (m_ref x)) :: (u "role", JStr (m_role x)) :: rest) (u "type")
    = JStr (MEMBER_TYPE_NAME (m_type x))) by (unfold field; lookup; done).
  rewrite Htype. unfold field. lookup.
  unfold member_letter in Hx. rewrite !elem_of_cons, elem_of_nil in Hx. unfold rest. destruct Hx as [->|[->|[->|[]]]]; keys.
  - change (is_text (JStr (MEMBER_TYPE_NAME (u "n"))) (u "way")) with false. cbn [andb].
    destruct (is_geom _); [|no_key]. destruct (nc !! _) as [[lat lon]|]; [|no_key].
    destruct (_ && _); [|by eexists].
    assert (is_Some (point_fields (JObj [(u "type", JStr (MEMBER_TYPE_NAME (u "n"))); (u "ref", JInt (m_ref x)); (u "role", JStr (m_role x));
      (u "lat", e7 lat); (u "lon", e7 lon)]))) as [p Hp].
    { apply mapM_total_in. intros k Hk. rewrite !elem_of_cons, elem_of_nil in Hk. destruct Hk as [->|[->|[]]].
      - change (is_Some (t ← plain_text (e7 lat); Some (u "lat", t))). destruct (plain_e7 lat) as [t Ht]. rewrite Ht. by eexists.
      - change (is_Some (t ← plain_text (e7 lon); Some (u "lon", t))). destruct (plain_e7 lon) as [t Ht]. rewrite Ht. by eexists. }
    rewrite Hp. by eexists.
  - change (is_text (JStr (MEMBER_TYPE_NAME (u "w"))) (u "node")) with false. cbn [andb].
    destruct (is_geom _); [|no_key]. destruct (wg !! _) as [pts|]; [|no_key].
    destruct (_ && _); [|by eexists]. lookup. cbn [default].
    set (l := match o_geom_bbox o with Some _ => _ | None => _ end).
    assert (is_Some (mapM (fun p => nd_tree None (Some p)) (map point_json l))) as [nds Hn].
    { apply mapM_total_in. intros p Hp. apply elem_of_map in Hp as (q & -> & _). apply nd_point_total. }
    change (Datatypes.id (JList (map point_json l))) with (JList (map point_json l)). cbn match. rewrite Hn. by eexists.
  - change (is_text (JStr (MEMBER_TYPE_NAME (u "r"))) (u "node")) with false. change (is_text (JStr (MEMBER_TYPE_NAME (u "r"))) (u "way")) with false.
    by eexists.
Qed.

Definition shown_type : Prop := s_type r ∈ [NODE; WAY; RELATION; u "area"; u "timeline"].
(** Dropped vertices have a node reference to stand for them. *)
Definition anchored : Prop := o_geom_bbox o = None \/ (shows_all (o_verbosity o) = true /\ o_noids o = false).

Definition full (body : list (pystr * json)) : list (pystr * json) :=
  [(u "type", JStr (s_type r)); (u "id", JInt (s_id r))] ++ body ++ rest_entries.
Lemma full_field body k : k ∈ [u "bounds"; u "center"; u "nodes"; u "geometry"; u "members"] -> field (full body) k = default JNull (dict_get k body).
Proof.
  intros Hk. unfold field, full. rewrite !dict_get_app, (rest_no_key k Hk).
  assert (dict_get k [(u "type", JStr (s_type r)); (u "id", JInt (s_id r))] = None) as ->.
  { rewrite !elem_of_cons, elem_of_nil in Hk. destruct Hk as [->|[->|[->|[->|[->|[]]]]]]; lookup; reflexivity. }
  by destruct (dict_get k body).
Qed.
Ltac in_list := repeat (first [left; reflexivity | right]).
Lemma full_type body : field (full body) (u "type") = JStr (s_type r).
Proof. unfold field, full. lookup. done. Qed.
Lemma full_id body : raw_field (full body) (u "id") = Some (u "id", str_of_Z (s_id r)).
Proof. unfold raw_field, full. lookup. cbn [mbind option_bind]. by rewrite plain_int. Qed.
Lemma full_tags body : dict_get (u "tags") body = None -> is_Some (tags_tree (field (full body) (u "tags"))).
Proof.
  intros Hb. unfold field, full. rewrite !dict_get_app, Hb. cbn [dict_get]. keys. apply rest_tags.
Qed.

Lemma is_text_str (a b : pystr) : is_text (JStr a) b = (a =s b).
Proof. done. Qed.
(** A dictionary whose parts describe trees describes one. *)
Lemma full_tree body : shown_type -> dict_get (u "tags") body = None ->
  is_Some (bounds_tree (field (full body) (u "bounds"))) -> is_Some (center_tree (field (full body) (u "center"))) ->
  (s_type r = WAY -> is_Some (nds_tree (field (full body) (u "nodes")) (field (full body) (u "geometry")))) ->
  (s_type r = RELATION -> is_Some (members_tree (field (full body) (u "members")))) ->
  is_Some (element_tree (JObj (full body))).
Proof.
  intros Ht Htags [b Hb] [c Hc] Hway Hrel. unfold element_tree. cbn zeta. destruct (full_tags body Htags) as [tags ->].
  cbn [mbind option_bind]. rewrite full_type, full_id, Hb, Hc. cbn [mbind option_bind]. rewrite !is_text_str.
  unfold shown_type in Ht. rewrite !elem_of_cons, elem_of_nil in Ht. destruct Ht as [E|[E|[E|[E|[E|[]]]]]]; rewrite E in *.
  - by eexists.
  - destruct (Hway eq_refl) as [n Hn]. rewrite Hn. by eexists.
  - destruct (Hrel eq_refl) as [n Hn]. rewrite Hn. by eexists.
  - by eexists.
  - by eexists.
Qed.
Ltac fields := rewrite ?full_field by in_list; lookup.

Lemma node_tree_total : s_type r = NODE -> is_Some (element_tree (JObj (full (node_entries r o)))).
Proof.
  intros E. unfold node_entries. apply full_tree; [unfold shown_type; rewrite E; in_list| | | |by rewrite E|by rewrite E];
    destruct (shows_all _); fields; try done; by eexists.
Qed.
Lemma bare_tree_total : s_type r = u "area" \/ s_type r = u "timeline" -> is_Some (element_tree (JObj (full []))).
Proof.
  intros E. apply full_tree; [unfold shown_type; destruct E as [-> | ->]; in_list|done| | |by destruct E as [-> | ->]|by destruct E as [-> | ->]];
    fields; by eexists.
Qed.
Lemma way_tree_total wkt body : s_type r = WAY -> anchored -> way_entries r wkt o = Ok body -> is_Some (element_tree (JObj (full body))).
Proof.
  intros E Ha Hbody. unfold way_entries in Hbody.
  destruct (if is_geom (o_geometry o) then _ else _) as [pts|]; cbn [res_bind] in Hbody; [|done]. injection Hbody as <-.
  set (clipped := match pts, o_geom_bbox o with Some pts, Some bbox => Some (clip_way_geometry pts bbox) | _, _ => None end).
  apply full_tree; [unfold shown_type; rewrite E; in_list| | | | |by rewrite E].
  - destruct (shows_bounds _), (shows_all _ && _), (is_center _); lookup; reflexivity.
  - fields. destruct (shows_bounds _), (shows_all _ && _), (is_center _); lookup;
      (destruct clipped; [apply clipped_total|apply bounds_dict_total]) || by eexists.
  - fields. destruct (shows_bounds _), (shows_all _ && _), (is_center _); lookup; (apply center_total || by eexists).
  - intros _. fields. set (refs := if shows_all (o_verbosity o) && negb (o_noids o) then _ else _).
    assert (Hrefs : default JNull (dict_get (u "nodes") refs) = JNull \/
      exists l, default JNull (dict_get (u "nodes") refs) = JList (map JInt l)).
    { unfold refs. destruct (_ && _); [right|left; done]. by eexists. }
    assert (Hanchor : o_geom_bbox o = None \/ default JNull (dict_get (u "nodes") refs) <> JNull).
    { destruct Ha as [Ha|[Hs Hno]]; [by left|]. right. unfold refs. by rewrite Hs, Hno. }
    assert (Hg : dict_get (u "geometry") refs = None) by (unfold refs; destruct (_ && _); lookup; done).
    clearbody refs. destruct (shows_bounds _), (is_center _); lookup; rewrite ?Hg; lookup.
    all: destruct pts as [pts|]; cbn [fmap option_fmap option_map default];
      [by apply (nodes_total _ _ Hanchor Hrefs)|destruct Hrefs as [->|[l ->]]; [by eexists|apply refs_total]].
Qed.
Lemma relation_tree_total nc wg : s_type r = RELATION -> Forall member_letter (default [] (s_members r)) ->
  is_Some (element_tree (JObj (full (relation_entries r o nc wg)))).
Proof.
  intros E Hm. unfold relation_entries. apply full_tree; [unfold shown_type; rewrite E; in_list| | | |by rewrite E|].
  - destruct (shows_bounds _), (shows_all _), (is_center _); lookup; reflexivity.
  - fields. destruct (shows_bounds _), (shows_all _), (is_center _); lookup; (apply bounds_dict_total || by eexists).
  - fields. destruct (shows_bounds _), (shows_all _), (is_center _); lookup; (apply center_total || by eexists).
  - intros _. fields. destruct (shows_bounds _), (shows_all _), (is_center _); lookup; try by eexists.
    all: set (ms := map _ _); assert (is_Some (mapM member_tree ms)) as [ts Hts] by
      (apply mapM_total_in; intros x Hx; apply elem_of_map in Hx as (y & -> & Hy); rewrite Forall_forall in Hm; by apply member_total, Hm).
    all: unfold members_tree; cbn [default]; change (Datatypes.id (JList ms)) with (JList ms); unfold or_else; destruct (truthy _); [by rewrite Hts|by eexists].
Qed.
Lemma row_tree_total wkt nc wg el : shown_type -> anchored -> Forall member_letter (default [] (s_members r)) ->
  _row_to_element (r, wkt) o nc wg = Ok el -> is_Some (element_tree el).
Proof.
  intros Ht Ha Hm. unfold _row_to_element. cbn [fst snd]. fold rest_entries.
  unfold shown_type in Ht. rewrite !elem_of_cons, elem_of_nil in Ht. destruct Ht as [E|[E|[E|[E|[E|[]]]]]]; rewrite E; keys; cbn [res_bind].
  - intros [= <-]. rewrite <- E. by apply node_tree_total.
  - destruct (way_entries _ _ _) as [body|] eqn:Hb; cbn [res_bind]; [|done]. intros [= <-]. rewrite <- E. by eapply way_tree_total.
  - intros [= <-]. rewrite <- E. by apply relation_tree_total.
  - intros [= <-]. rewrite <- E. apply bare_tree_total. by left.
  - intros [= <-]. rewrite <- E. apply bare_tree_total. by right.
Qed.
End Row.
Lemma count_tree_total c areas : is_Some (element_tree (count_element c areas)).
Proof. unfold count_element. destruct (_ || _); by eexists. Qed.
End Trees.

(** C9: what [out] shows. Unless it counts, its elements are, one for one, the
    first rows of the set in the order asked for (type and id, or Hilbert key and
    id), as many as the limit allows, each under its own type and id; the
    versions it hands on are those of the same rows. *)
Theorem out_rows_exact `{UnicodeDB} {G : Type} `{DuckDB G} `{Spatial G} `{AsText G} (d : dataset G) snap rows o areas els vs :
  o_count o = false -> build_elements d snap rows o areas = Ok (els, vs) ->
  exists l, chosen (o_order o) (o_limit o) rows l /\ Forall2 about els l /\ vs = map (fun r => (s_key r, s_version r)) l.
Proof. apply build_elements_rows. Qed.

Section Reply.
Context `{UnicodeDB} {G : Type} `{DuckDB G} `{Spatial G} `{AsText G} (d : dataset G).

(** A row of a set, as the statements make them. *)
Definition known_row (r : set_row G) : Prop := shown_type r /\ Forall member_letter (default [] (s_members r)).
Definition shown_by (snap : option PyTime.datetime) (el : json) : Prop :=
  exists rows o areas els vs, build_elements d snap rows o areas = Ok (els, vs) /\ el ∈ els /\ anchored o /\ Forall known_row rows.

Lemma build_elements_tree snap rows o areas els vs : Forall known_row rows -> anchored o ->
  build_elements d snap rows o areas = Ok (els, vs) -> forall el, el ∈ els -> is_Some (element_tree el).
Proof.
  intros Hr Ha Hb el Hel. destruct (o_count o) eqn:Hc.
  { unfold build_elements in Hb. rewrite Hc in Hb. injection Hb as <- <-. apply list_elem_of_singleton in Hel as ->. apply count_tree_total. }
  destruct (build_elements_split d snap rows o areas els vs Hc Hb) as (l & rows' & nc & wg & Hl & Hrows & He & _).
  assert (Hk : Forall known_row l).
  { apply limited_chosen in Hl as (rest & Hp & _). rewrite <- Hp in Hr. by apply Forall_app in Hr as [Hr _]. }
  apply res_mapM_Ok in He. apply list_elem_of_lookup in Hel as [i Hi]. destruct (Forall2_lookup_r _ _ _ _ _ He Hi) as ([r w] & Hr' & Hel).
  rewrite Forall_forall in Hk. destruct (Hk r) as [Hs Hm].
  { rewrite <- Hrows. apply elem_of_map. exists (r, w). split; [done|by eapply list_elem_of_lookup_2]. }
  by eapply row_tree_total.
Qed.
Lemma reply_document r snap : is_diff r = false -> Forall (shown_by snap) (r_elements r) -> is_Some (document_tree r).
Proof.
  intros Hd Hs. unfold document_tree. rewrite Hd.
  destruct (mapM_total_in (item_nodes false) (r_elements r)) as [nodes Hn]; [|rewrite Hn; by eexists].
  intros el Hel. rewrite Forall_forall in Hs. destruct (Hs el Hel) as (rows & o & areas & els & vs & He & Hin & Ha & Hk).
  destruct (build_elements_tree snap rows o areas els vs Hk Ha He el Hin) as [t Ht]. unfold item_nodes. rewrite Ht. by eexists.
Qed.
End Reply.

(** C8: a reply to a query (no [diff]) is a document. Take the elements its
    [out] statements made of any sets of rows with a known type and member types,
    no [out] clipping a way without showing its node references; a base timestamp
    without characters XML would have to escape, and a remark without carriage
    returns. Then [_render_xml] returns a text and the elements describe a tree;
    the text reads back as exactly that tree if its values consist of characters
    XML 1.0 allows, and is no XML document if some value has another. *)
Theorem reply_reads_back `{UnicodeDB} {G : Type} `{DuckDB G} `{Spatial G} `{AsText G} (d : dataset G) snap r :
  is_diff r = false -> Forall (shown_by d snap) (r_elements r) ->
  Forall clean (default [] (timestamp_osm_base r)) -> 13 ∉ default [] (remark r) ->
  exists s t, _render_xml r = Ok s /\ document_tree r = Some t /\ read_document s = if xml_chars t then Some t else None.
Proof.
  intros Hd Hs Ht Hr. destruct (reply_document d r snap Hd Hs) as [t Htree].
  destruct (render_xml_read r t Htree Ht Hr) as (s & E1 & E2). by exists s, t.
Qed.

(** * Coordinates *)
Lemma round_half_even_near num den v : 0 < den -> 2 * Z.abs (num - v * den) < den -> round_half_even num den = v.
Proof.
  intros Hd Hv. unfold round_half_even. pose proof (Z.div_mod num den ltac:(lia)) as E. pose proof (Z.mod_pos_bound num den ltac:(lia)) as B.
  set (q := num / den) in *. set (r := num mod den) in *. destruct (Z.compare_spec (2 * r) den) as [C|C|C].
  - assert (q = v \/ q + 1 = v) as [-> | <-] by nia; nia.
  - nia.
  - nia.
Qed.
(** [v / 1e7] rounded, for a positive [v] up to [2^31]. *)
Lemma degrees_pos s m k v : 0 < v <= 2 ^ 31 -> 0 <= k <= 52 -> Zpos m = v * 2 ^ k ->
  round7 (fdiv (S754_finite s m (- k)) f1e7) = float_of_decimal s v (-7).
Proof.
  intros Hv Hk Hm. destruct (degrees_near s m k v Hv Hk Hm) as (p & e & E & He & Hn). unfold f1e7. rewrite E. cbn [round7]. unfold fraction.
  destruct (Z.leb_spec 0 e); [lia|]. rewrite Z.shiftl_1_l. assert (0 < 2 ^ (- e)) by (apply Z.pow_pos_nonneg; lia).
  rewrite (round_half_even_near _ _ v); [done|lia|]. pose proof (Z.abs_nonneg (Zpos p * 10 ^ 7 - v * 2 ^ (- e))). lia.
Qed.

Lemma e7_degrees_exact v : - 2 ^ 31 <= v < 2 ^ 31 -> e7_degrees v = float_of_decimal (v <? 0) (Z.abs v) (-7).
Proof.
  intros Hv. unfold e7_degrees. destruct v as [|p|p].
  - vm_compute. reflexivity.
  - destruct (float_of_pos_exact p) as (m & k & -> & Hk & Hm); [lia|]. apply (degrees_pos false m k (Zpos p)); lia.
  - destruct (float_of_pos_exact p) as (m & k & E & Hk & Hm); [lia|].
    change (float_of_Z (Zneg p)) with (binary_round 53 1024 true p 0). rewrite round_sign.
    change (binary_round 53 1024 false p 0) with (float_of_Z (Zpos p)). rewrite E. cbn [fopp SFopp negb]. apply (degrees_pos true m k (Zpos p)); lia.
Qed.

(** C40: coordinates. Of every 32-bit integer [v] in e7 units, dividing by 1e7 and
    rounding to seven digits in binary floating point gives the double nearest to
    the decimal v/10^7 itself: no coordinate is shown off by a digit. *)
Theorem e7_exact v : - 2 ^ 31 <= v < 2 ^ 31 -> e7 (Some v) = JFloat (float_of_decimal (v <? 0) (Z.abs v) (-7)).
Proof. intros Hv. cbn [e7]. by rewrite e7_degrees_exact. Qed.
Lemma e7_exact_witness : e7 (Some (-932650001)) = JFloat (float_of_decimal true 932650001 (-7)) /\
  float_repr (e7_degrees (-932650001)) = u "-93.2650001".
Proof. split; [apply (e7_exact (-932650001)); lia|vm_compute; reflexivity]. Defined.

(** * On a small set *)
#[local] Existing Instance latin1_db.
#[local] Existing Instance sample_duckdb.
#[local] Instance flat_space : Spatial unit := fun _ _ => true.
(** Every geometry is a line of four points towards the north-east. *)
#[local] Instance diagonal : AsText unit := fun _ => u "LINESTRING (0 0, 1 1, 2 2, 3 3)".
Definition no_dataset : dataset unit :=
  {| d_manifest := Build_Manifest (u "/d") (JObj []); d_deltas := {| hour := None; day := None; week := None |};
     spatial_file _ := []; byid_file _ := []; history_file _ := []; node_way_file _ := []; member_file _ := []; rowgroup_file _ := None;
     promoted := []; tier_loads := 0 |}.
Definition small_row (t : pystr) (i : Z) (refs : list Z) (tags : list (pystr * pystr)) : set_row unit :=
  {| s_type := t; s_id := i; s_cell := None; s_lat_e7 := Some 449481000; s_lon_e7 := Some (-932777000); s_refs := Some refs; s_members := None;
     s_tags := Some tags; s_version := Some 3; s_changeset := None; s_timestamp := None; s_uid := None; s_user := None;
     s_box := Some (0, 0, 30000000, 30000000); s_geometry := Some (); s_hilbert := None |}.
Definition sample_rows : list (set_row unit) :=
  [small_row WAY 5 [1; 2; 3; 4] [(u "name", [34] ++ u "<")]; small_row NODE 9 [] []; small_row NODE 2 [] []].
Definition clip_out (noids : bool) : Out :=
  mkOut (u "_") VBody GGeom (Some (float_of_Z 0, float_of_Z 0, float_of_decimal false 5 (-1), float_of_Z 1)) OrdAsc (Some 3) noids false.

Definition sample_shown : list json * list ((pystr * Z) * option Z) :=
  Eval vm_compute in match build_elements no_dataset None sample_rows (clip_out false) false with Ok x => x | Raise _ => ([], []) end.
Lemma sample_shown_ok : build_elements no_dataset None sample_rows (clip_out false) false = Ok (sample_shown.1, sample_shown.2).
Proof. vm_compute. reflexivity. Qed.
Lemma out_rows_exact_witness : sample_shown.2 = [((NODE, 2), Some 3); ((NODE, 9), Some 3); ((WAY, 5), Some 3)] /\
  exists l, chosen OrdAsc (Some 3) sample_rows l /\ Forall2 about sample_shown.1 l.
Proof.
  destruct (out_rows_exact no_dataset None sample_rows (clip_out false) false _ _ eq_refl sample_shown_ok) as (l & Hl & Hels & Hvs).
  split; [reflexivity|by exists l].
Defined.

(** A way clipped to its first point: the vertices away from it have no place. *)
Example clipped_way : exists el, build_elements no_dataset None [small_row WAY 5 [1; 2; 3; 4] []] (clip_out false) false = Ok ([el], [((WAY, 5), Some 3)]) /\
  getitem el (u "geometry") = Ok (JList [latlon (float_of_Z 0) (float_of_Z 0); latlon (float_of_Z 1) (float_of_Z 1); JNull; JNull]).
Proof. eexists. vm_compute. split; reflexivity. Qed.

Definition sample_reply_rows : Result :=
  {| r_elements := sample_shown.1; r_settings := None; remark := Some (u "a & b"); timestamp_osm_base := None; r_stats := []; is_diff := false |}.
Lemma sample_rows_known : Forall known_row sample_rows.
Proof. repeat constructor; apply (bool_decide_unpack _); vm_compute; exact I. Qed.
Lemma reply_reads_back_witness : exists s t,
  _render_xml sample_reply_rows = Ok s /\ document_tree sample_reply_rows = Some t /\ read_document s = Some t.
Proof.
  destruct (reply_reads_back no_dataset None sample_reply_rows) as (s & t & Hs & Ht & Hr).
  - reflexivity.
  - apply Forall_forall. intros el Hel. exists sample_rows, (clip_out false), false, sample_shown.1, sample_shown.2.
    split; [exact sample_shown_ok|]. split; [exact Hel|]. split; [by right|exact sample_rows_known].
  - constructor.
  - apply (bool_decide_unpack _). vm_compute. exact I.
  - exists s, t. split; [exact Hs|]. split; [exact Ht|].
    replace (xml_chars t) with true in Hr by (vm_compute in Ht; injection Ht as <-; vm_compute; reflexivity). exact Hr.
Defined.

Definition noids_shown : list json :=
  Eval vm_compute in match build_elements no_dataset None [small_row WAY 5 [1; 2; 3; 4] []] (clip_out true) false with Ok x => x.1 | Raise _ => [] end.
(** [out noids geom(s,w,n,e)]. The vertices of a way outside the box are
    [None], with no reference to stand for them; the reply renders as JSON, and
    as XML it raises a [TypeError]. *)
Theorem noids_clip_raises :
  res_map fst (build_elements no_dataset None [small_row WAY 5 [1; 2; 3; 4] []] (clip_out true) false) = Ok noids_shown /\
  length noids_shown = 1%nat /\
  _render_xml {| r_elements := noids_shown; r_settings := None; remark := None; timestamp_osm_base := None; r_stats := []; is_diff := false |} =
    Raise TypeError.
Proof. split_and!; vm_compute; reflexivity. Qed.
