(* ===== verification/DatasetReads.v ===== *)
(** The reads of [engine/sources.py] over a well-formed dataset keep the laws the
    planner relies on: a program run against the files and the tiers of a dataset
    does what it means on the elements the dataset holds. *)
From S2P Require Import Prelude PyStr PyFloat PyFloatFacts PyTime Json QlAst SqlExpr Osc Schema TagSql TagSqlFacts Sql Tiers DeltaRead TiersFacts DeltaReadFacts.
From S2P Require Import Cells Catalog CellSelect CellSelectFacts SetTables RowSources Recurse History Sources MetaFilters Planner RecurseFacts PlannerSem PlannerFacts PlannerRefines.
From S2P Require Import EvalSqlFacts EvalSet PlannerProps.

(** * Lists of files *)
Lemma res_mapM_total {A B} (f : A -> res B) (g : A -> B) l : (forall x, x ∈ l -> f x = Ok (g x)) -> res_mapM f l = Ok (map g l).
Proof.
  intros Hf. induction l as [|x l IH]; [done|]. cbn [res_mapM map]. rewrite Hf by left. cbn [res_bind].
  rewrite IH; [done|]. intros y Hy. apply Hf. by right.
Qed.
Lemma res_flat_map_total {A B} (f : A -> res (list B)) (g : A -> list B) l :
  (forall x, x ∈ l -> f x = Ok (g x)) -> res_flat_map f l = Ok (flat_map g l).
Proof. intros Hf. unfold res_flat_map. rewrite (res_mapM_total f g) by done. cbn. by rewrite flat_map_concat_map. Qed.
Lemma filterM_total {A} (f : A -> res bool) (g : A -> bool) l :
  (forall x, x ∈ l -> f x = Ok (g x)) -> filterM f l = Ok (base.filter (fun x => g x = true) l).
Proof.
  intros Hf. induction l as [|x l IH]; [done|]. cbn [filterM]. rewrite Hf by left. cbn [res_bind]. rewrite IH by (intros; apply Hf; by right).
  cbn [res_bind]. rewrite filter_cons. destruct (g x); [by rewrite decide_True|by rewrite decide_False].
Qed.
Lemma elem_of_flat_map {A B} (f : A -> list B) l y : y ∈ flat_map f l <-> exists x, x ∈ l /\ y ∈ f x.
Proof. rewrite list_elem_of_In, in_flat_map. by setoid_rewrite list_elem_of_In. Qed.
Lemma flat_map_sublist {A B} (f : A -> list B) l k : sublist l k -> sublist (flat_map f l) (flat_map f k).
Proof.
  induction 1 as [|x l k _ IH|x l k _ IH]; cbn [flat_map]; [done|by apply sublist_app|].
  by apply sublist_inserts_l.
Qed.
Lemma unique_sublist {R} `{Keyed R} (l k : list R) : sublist l k -> unique k -> unique l.
Proof. intros Hs Hk. apply (sublist_NoDup (ids l) (ids k)); [exact Hk|by apply (fmap_sublist id_of)]. Qed.
Lemma unique_flat_map {A R} `{Keyed R} (f : A -> list R) l : NoDup l -> (forall x, x ∈ l -> unique (f x)) ->
  (forall x y a b, x ∈ l -> y ∈ l -> a ∈ f x -> b ∈ f y -> id_of a = id_of b -> x = y) -> unique (flat_map f l).
Proof.
  intros Hl Hf Hd. induction Hl as [|x l Hx Hl IH]; cbn [flat_map]; [by apply NoDup_nil_2|].
  unfold unique, ids. rewrite map_app. apply NoDup_app. split_and!.
  - apply Hf. left.
  - intros i (a & -> & Ha)%elem_of_map (b & E & (y & Hy & Hb)%elem_of_flat_map)%elem_of_map.
    apply Hx. by rewrite (Hd x y a b); [|left|right|..].
  - apply IH; [intros y Hy; apply Hf; by right|]. intros y z a b Hy Hz. apply Hd; by right.
Qed.
Lemma flat_map_app_perm {A B} (f g : A -> list B) l : flat_map f l ++ flat_map g l ≡ₚ flat_map (fun x => f x ++ g x) l.
Proof. induction l as [|x l IH]; cbn [flat_map]; [done|]. rewrite <- IH. solve_Permutation. Qed.

Lemma filter_all {A} (l : list A) : base.filter (fun _ => True) l = l.
Proof. induction l as [|x l IH]; [reflexivity|]. rewrite filter_cons, decide_True by done. by rewrite IH. Qed.
Lemma in_range_of i l j : j ∈ i :: l -> min_of i l <= j <= max_of i l.
Proof. intros Hj. split; [by apply min_of_le|by apply max_of_ge]. Qed.

Section Dataset.
Context `{UnicodeDB} {G : Type} `{DuckDB G} `{Spatial G} (d : dataset G).
Abbreviation row := (set_row G).
Abbreviation man := (d_manifest d).
Abbreviation ds := (d_deltas d).

Definition type_name (t : etype) : pystr := match t with TNode => NODE | TWay => WAY | TRelation => RELATION end.
Lemma table_of_name t : table_of (type_name t) = Some t.
Proof. by destruct t; vm_compute. Qed.
Lemma named_type n : n ∈ element_types -> exists t, n = type_name t.
Proof. rewrite elem_of_element_types. intros [->|[->| ->]]; [by exists TNode|by exists TWay|by exists TRelation]. Qed.

(** * Parts by id *)
Definition file_of (p : json) : pystr := default [] (ok_or_null (part_path man p)).
(** A part has a path and the range of its ids. *)
Definition readable_part {A} (rows : pystr -> list A) (key : A -> Z) (p : json) : Prop := exists f mn mx,
  part_path man p = Ok f /\ getitem p (u "min_id") = Ok (JInt mn) /\ getitem p (u "max_id") = Ok (JInt mx) /\
  forall r, r ∈ rows f -> mn <= key r <= mx.

Lemma getitem_field p k v : getitem p k = Ok v -> has_field p k = Ok true.
Proof. unfold getitem, has_field, contains. destruct p as [| | | | | |o]; try done. destruct (dict_get k o); done. Qed.

Lemma range_parts {A} (rows : pystr -> list A) key parts lo hi : Forall (readable_part rows key) parts ->
  exists ps, parts_for_range parts (Some lo) (Some hi) = Ok ps /\ parts_paths d ps = Ok (map file_of ps) /\ sublist ps parts /\
    forall p r, p ∈ parts -> r ∈ rows (file_of p) -> lo <= key r <= hi -> p ∈ ps.
Proof.
  intros Hp. assert (Hall : all_have_range parts = Ok true).
  { induction Hp as [|p ps (f & mn & mx & _ & Hmn & Hmx & _) _ IH]; [done|]. cbn [all_have_range].
    rewrite (getitem_field _ _ _ Hmn), (getitem_field _ _ _ Hmx). done. }
  set (hits p := match overlaps lo hi p with Ok b => b | Raise _ => false end).
  assert (Hh : forall p, p ∈ parts -> overlaps lo hi p = Ok (hits p)).
  { intros p Hin. pose proof (proj1 (Forall_forall _ _) Hp p Hin) as (f & mn & mx & _ & Hmn & Hmx & _).
    unfold hits, overlaps. rewrite Hmn, Hmx. cbn. by destruct (lo <=? mx). }
  exists (base.filter (fun p => hits p = true) parts). split_and!.
  - unfold parts_for_range. rewrite Hall. cbn [res_bind negb]. by apply filterM_total.
  - unfold parts_paths. apply res_mapM_total. intros p [_ Hin]%list_elem_of_filter.
    pose proof (proj1 (Forall_forall _ _) Hp p Hin) as (f & mn & mx & Hf & _). unfold file_of. change (Sources.man d) with man. by rewrite Hf.
  - apply sublist_filter.
  - intros p r Hin Hr Hk. apply list_elem_of_filter. split; [|done]. 
    pose proof (proj1 (Forall_forall _ _) Hp p Hin) as (f & mn & mx & Hf & Hmn & Hmx & Hrange).
    unfold file_of in Hr. rewrite Hf in Hr. cbn in Hr. apply Hrange in Hr. unfold hits, overlaps. rewrite Hmn, Hmx.
    cbn. destruct (Z.leb_spec lo mx); [|lia]. cbn. by apply Z.leb_le; lia.
Qed.

Definition byid_rows_of (t : etype) : list (file_row G) :=
  match byid_parts man (type_name t) with Ok ps => flat_map (byid_file d) (map file_of ps) | Raise _ => [] end.

(** * Cells *)
Definition node_part (partition c : pystr) : list pystr := default [] (ok_or_null (_node_files d [c] partition)).
Definition cell_paths (t : etype) (c : pystr) : list pystr :=
  match t with
  | TNode => node_part (u "tagged") c ++ node_part (u "untagged") c
  | _ => default [] (ok_or_null (flat_files d (type_name t) [c]))
  end.
Definition cell_rows (t : etype) (c : pystr) : list (file_row G) := flat_map (spatial_file d) (cell_paths t c).
Definition base_cells (t : etype) : list pystr :=
  match table_cells man (type_name t) with Ok (JObj tc) => map fst tc | _ => [] end.
Definition spatial_rows_of (t : etype) : list (file_row G) := flat_map (cell_rows t) (base_cells t).

(** The elements of the dataset: the newest tier that has a row decides. *)
Definition current_row (t : etype) (i : Z) : option (file_row G) := scurrent ds t (spatial_rows_of t) i.
Definition dataset_db : database G := fun n i => t ← table_of n; to_row n true <$> current_row t i.
Lemma dataset_db_type t i : dataset_db (type_name t) i = to_row (type_name t) true <$> current_row t i.
Proof. unfold dataset_db. by rewrite table_of_name. Qed.

(** * Well-formed datasets *)
(** A row of the spatial copy and one of the copy by id hold the same element. *)
Definition same_copy (t : etype) (s b : file_row G) : Prop :=
  same_element (to_row (type_name t) true s) (to_row (type_name t) false b).
Definition same_copies (t : etype) (s b : option (file_row G)) : Prop :=
  match s, b with Some s, Some b => same_copy t s b | None, None => True | _, _ => False end.
(** The promoted columns repeat the tags. *)
Definition columns_ok (r : file_row G) : Prop := reads_tags (promoted d) [] (file_env r) (f_tags (b_data r)).
Definition in_box (t : etype) (q : RowGroupBBox) (r : file_row G) : bool :=
  match t with TNode => point_in q (f_lat_e7 (b_data r)) (f_lon_e7 (b_data r)) | _ => box_in q (f_box (b_data r)) end.
Definition int32_columns (t : etype) (r : file_row G) : Prop :=
  match t with
  | TNode => exists lat lon, f_lat_e7 (b_data r) = Some lat /\ f_lon_e7 (b_data r) = Some lon /\ int32 lat /\ int32 lon
  | _ => sane_box (f_box (b_data r))
  end.

(** The parents the base indexes list. *)
Definition node_way_all : list (Z * Z) :=
  match index_parts man (u "node_way") with Ok ps => flat_map (node_way_file d) (map file_of ps) | Raise _ => [] end.
Definition member_all : list member_row :=
  match index_parts man (u "member") with Ok ps => flat_map (member_file d) (map file_of ps) | Raise _ => [] end.
Definition dataset_indexed (role : option pystr) (p c : key) : Prop :=
  (exists n w, p = (WAY, w) /\ c = (NODE, n) /\ (n, w) ∈ node_way_all) \/
  (exists x t, x ∈ member_all /\ member_type (x_type x) = Some t /\ has_role role (x_role x) = true /\
     p = (RELATION, x_parent x) /\ c = (t, x_id x)).

(** The elements a box selects: they meet it, and their cells are among those
    chosen for it.  For a relation one of its members decides, and
    the code looks at the members as the base files have them. *)
Definition node_hit (q : RowGroupBBox) (j : Z) : bool :=
  match find_id j (byid_rows_of TNode) with Some r => in_box TNode q r | None => false end.
Definition way_hit (b : BBox) (j : Z) : bool :=
  match find_id j (spatial_rows_of TWay) with Some r => intersects b (f_geometry (b_data r)) | None => false end.
Definition dataset_inside (bbox : option BBox) (k : key) (r : row) : Prop :=
  match bbox with
  | None => True
  | Some b => exists q cells, bbox_e7 b = Ok q /\ CellSelect.cells_for_bbox man k.1 (Some b) = Ok cells /\ cell_in cells (s_cell r) = true /\
      match table_of k.1 with
      | Some TNode => point_in q (s_lat_e7 r) (s_lon_e7 r) = true
      | Some TWay => box_in q (s_box r) = true /\ intersects b (s_geometry r) = true
      | Some TRelation => box_in q (s_box r) = true /\
          ((exists j, j ∈ members_of_type (u "n") r /\ node_hit q j = true) \/
           (exists j, j ∈ members_of_type (u "w") r /\ way_hit b j = true))
      | None => False
      end
  end.

Record dataset_ok : Prop := {
  (** The manifest can be read. *)
  ok_tables : forall t, exists tc, table_cells man (type_name t) = Ok (JObj tc) /\ NoDup (map fst tc);
  ok_cells : forall t bbox, exists cells, CellSelect.cells_for_bbox man (type_name t) bbox = Ok cells;
  ok_leaves : exists l, leaf_cells man = Ok l;
  ok_node_files : forall c part, exists fs, _node_files d [c] part = Ok fs;
  ok_flat_files : forall t c, t <> TNode -> exists fs, flat_files d (type_name t) [c] = Ok fs;
  ok_byid_parts : forall t, exists ps, byid_parts man (type_name t) = Ok ps /\ Forall (readable_part (byid_file d) b_id) ps;
  ok_node_way_parts : exists ps, index_parts man (u "node_way") = Ok ps /\ Forall (readable_part (node_way_file d) fst) ps;
  ok_member_parts : exists ps, index_parts man (u "member") = Ok ps /\ Forall (readable_part (member_file d) x_id) ps;
  (** The row group index covers the rows of the files it knows. *)
  ok_rowgroups : forall t, match _load_rowgroup_index (rowgroup_file d) man (type_name t) with
    | Ok None => True
    | Ok (Some idx) => forall c f r q, f ∈ cell_paths t c -> r ∈ spatial_file d f -> in_box t q r = true -> keep_file idx q f = true
    | Raise _ => False
    end;
  (** Every element is once in each copy, in the file of its cell. *)
  ok_spatial_unique : forall t, unique (spatial_rows_of t);
  ok_byid_unique : forall t, unique (byid_rows_of t);
  ok_placed : forall t c r, r ∈ cell_rows t c -> b_cell r = Some c;
  ok_untagged : forall c f r, f ∈ node_part (u "untagged") c -> r ∈ spatial_file d f -> default [] (f_tags (b_data r)) = [];
  ok_copies : forall t i, same_copies t (find_id i (spatial_rows_of t)) (find_id i (byid_rows_of t));
  (** The tiers, and no element has changed its cell from one tier to a newer. *)
  ok_deltas : deltas_ok ds;
  ok_prev : prev_ok byid_rows_of ds;
  ok_tier_copies : forall t m i, m = hour ds \/ m = day ds \/ m = week ds ->
    same_copies t (DeltaRead.project <$> sfound t m i) (DeltaRead.project <$> found m t i);
  ok_at_rest : forall t m r n i, m = hour ds \/ m = day ds \/ m = week ds ->
    sfound t m i = Some r -> snewest ds t i = Some n -> r_cell r = r_cell n;
  (** The columns of the current rows. *)
  ok_columns : forall t i r, current_row t i = Some r \/ current byid_rows_of ds t i = Some r -> columns_ok r;
  ok_int32 : forall t i r, current_row t i = Some r -> int32_columns t r;
  ok_way_boxes : forall w r j n lat lon, current_row TWay w = Some r -> j ∈ default [] (f_refs (b_data r)) ->
    current_row TNode j = Some n -> f_lat_e7 (b_data n) = Some lat -> f_lon_e7 (b_data n) = Some lon ->
    exists x0 y0 x1 y1, f_box (b_data r) = Some (x0, y0, x1, y1) /\ x0 <= lon <= x1 /\ y0 <= lat <= y1;
  ok_geometry : forall r b q, r ∈ spatial_rows_of TWay -> bbox_e7 b = Ok q ->
    intersects b (f_geometry (b_data r)) = true -> in_box TWay q r = true;
  (** Without a box every cell is read; a box of e7 coordinates brings in the
      cells of the elements that meet it. *)
  ok_all_cells : forall t i r cells, current_row t i = Some r -> CellSelect.cells_for_bbox man (type_name t) None = Ok cells ->
    cell_in cells (b_cell r) = true;
  ok_covers : forall t i r x0 y0 x1 y1 cells, int32 x0 -> int32 y0 -> int32 x1 -> int32 y1 -> current_row t i = Some r ->
    in_box t (x0, y0, x1, y1) r = true ->
    CellSelect.cells_for_bbox man (type_name t) (Some (e7_to_degrees y0, e7_to_degrees x0, e7_to_degrees y1, e7_to_degrees x1)) = Ok cells ->
    cell_in cells (b_cell r) = true;
  (** The base indexes list every parent in the base files, and none that is not one now. *)
  ok_node_way : forall r j, r ∈ byid_rows_of TWay -> j ∈ default [] (f_refs (b_data r)) -> (j, b_id r) ∈ node_way_all;
  ok_member : forall r m, r ∈ byid_rows_of TRelation -> m ∈ default [] (f_members (b_data r)) ->
    exists x, x ∈ member_all /\ x_type x = m_type m /\ x_id x = m_ref m /\ x_role x = m_role m /\ x_parent x = b_id r;
  ok_index_current : forall role p c, dataset_indexed role p c -> ref dataset_db role p c
}.

Section Laws.
Context (Hok : dataset_ok).

Lemma current_row_id t i r : current_row t i = Some r -> b_id r = i.
Proof.
  unfold current_row, scurrent, over, snewest, sfound, first_of. intros E.
  repeat case_match; simplify_eq; try (by apply find_id_Some in E as [_ ?]); cbn;
    match goal with Hf : find_id _ _ = Some _ |- _ => by apply find_id_Some in Hf as [_ ?] end.
Qed.
Lemma dataset_typed : well_typed dataset_db.
Proof.
  intros n i r. unfold dataset_db. destruct (table_of n) as [t|] eqn:En; [|done]. cbn. destruct (current_row t i) as [x|] eqn:E; [|done].
  intros [= <-]. split; [done|]. by apply current_row_id in E.
Qed.

(** ** The two copies *)
Lemma same_copies_None t s b : same_copies t s b -> s = None <-> b = None.
Proof. by destruct s, b. Qed.
Lemma same_copies_cell t s b : same_copies t s b -> s ≫= b_cell = b ≫= b_cell.
Proof. destruct s as [s|], b as [b|]; try done. intros E. by injection E. Qed.

Lemma copies_agree t i : same_copies t (current_row t i) (current byid_rows_of ds t i).
Proof.
  pose proof (ok_deltas Hok) as Hds. pose proof (fun m Hm => ok_tier_copies Hok t m i Hm) as Hc. pose proof (ok_copies Hok t i) as Hb.
  assert (Ha : forall m, m = hour ds \/ m = day ds \/ m = week ds -> agree (found m t i) (sfound t m i)) by (intros; by apply (sfound_agree ds)).
  unfold current_row, scurrent, current, snewest, newest_row.
  pose proof (Ha (hour ds) ltac:(tauto)) as A1. pose proof (Ha (day ds) ltac:(tauto)) as A2. pose proof (Ha (week ds) ltac:(tauto)) as A3.
  pose proof (Hc (hour ds) ltac:(tauto)) as C1. pose proof (Hc (day ds) ltac:(tauto)) as C2. pose proof (Hc (week ds) ltac:(tauto)) as C3.
  clear Ha Hc. destruct (found (hour ds) t i) as [b1|], (sfound t (hour ds) i) as [s1|]; try done; cbn [first_of over].
  { destruct A1 as (_ & -> & _). by destruct (deleted s1). }
  destruct (found (day ds) t i) as [b2|], (sfound t (day ds) i) as [s2|]; try done; cbn [first_of over].
  { destruct A2 as (_ & -> & _). by destruct (deleted s2). }
  destruct (found (week ds) t i) as [b3|], (sfound t (week ds) i) as [s3|]; try done; cbn [first_of over].
  destruct A3 as (_ & -> & _). by destruct (deleted s3).
Qed.
Lemma checked_valid {A} fs (m : reads A) : filters_valid fs = true -> checked d fs m = m.
Proof. intros Hv. unfold checked, bound. rewrite tag_filters_valid, Hv. by destruct m. Qed.
Lemma tag_where_keeps n spatial fs r : filters_valid fs = true -> columns_ok r -> tag_where d fs r = keeps fs (to_row n spatial r).
Proof.
  intros Hv Hc. unfold tag_where, where_true, keeps. cbn [to_row s_tags].
  destruct (tag_filters_meaning (promoted d) [] (file_env r) (f_tags (b_data r)) Hc fs Hv) as (v & -> & <-). done.
Qed.

(** Rows of the copy by id answer for the elements. *)
Lemma current_copy t i r : current byid_rows_of ds t i = Some r ->
  exists x, dataset_db (type_name t) i = Some x /\ same_element x (to_row (type_name t) false r) /\ b_id r = i.
Proof.
  intros Hr. pose proof (copies_agree t i) as Hc. rewrite Hr in Hc. destruct (current_row t i) as [s|] eqn:Es; [|done].
  exists (to_row (type_name t) true s). rewrite dataset_db_type, Es. split_and!; [done|exact Hc|].
  pose proof (current_row_id _ _ _ Es) as <-. by injection Hc.
Qed.
Lemma copy_current t i x : dataset_db (type_name t) i = Some x ->
  exists r, current byid_rows_of ds t i = Some r /\ same_element x (to_row (type_name t) false r) /\ b_id r = i.
Proof.
  rewrite dataset_db_type. destruct (current_row t i) as [s|] eqn:Es; [|done]. intros [= <-].
  pose proof (copies_agree t i) as Hc. rewrite Es in Hc. destruct (current byid_rows_of ds t i) as [b|] eqn:Eb; [|done].
  exists b. split_and!; [done|exact Hc|]. pose proof (current_row_id _ _ _ Es) as <-. by injection Hc.
Qed.

(** The parts of a range of ids, as base rows. *)
Lemma byid_range t lo hi : exists parts, byid_parts_for_range man (type_name t) (Some lo) (Some hi) = Ok parts /\
  parts_paths d parts = Ok (map file_of parts) /\ unique (flat_map (byid_file d) (map file_of parts)) /\
  forall r, lo <= b_id r <= hi -> r ∈ flat_map (byid_file d) (map file_of parts) <-> find_id (b_id r) (byid_rows_of t) = Some r.
Proof.
  destruct (ok_byid_parts Hok t) as (ps & Eps & Hps). destruct (range_parts (byid_file d) b_id ps lo hi Hps) as (parts & Er & Ep & Hsub & Hin).
  pose proof (ok_byid_unique Hok t) as Hu. unfold byid_rows_of in *. rewrite Eps in *.
  exists parts. unfold byid_parts_for_range. rewrite Eps. split_and!; [done|done| |].
  - eapply unique_sublist; [|exact Hu]. apply flat_map_sublist. by apply (fmap_sublist file_of).
  - intros r Hr. rewrite <- (unique_elem _ r (b_id r)) by done. rewrite !elem_of_flat_map. split.
    + intros (f & (p & -> & Hp)%elem_of_map & Hf). split; [|done]. exists (file_of p). split; [|done].
      apply elem_of_map_2. by apply (elem_of_sublist _ _ _ Hp Hsub).
    + intros [(f & (p & -> & Hp)%elem_of_map & Hf) _]. exists (file_of p). split; [|done].
      by apply elem_of_map_2, (Hin p r).
Qed.

Lemma byid_rows_exact t lo hi files ids fs : filters_valid fs = true -> (forall i, i ∈ ids -> lo <= i <= hi) -> unique (flat_map (byid_file d) files) ->
  (forall r, lo <= b_id r <= hi -> r ∈ flat_map (byid_file d) files <-> find_id (b_id r) (byid_rows_of t) = Some r) ->
  reads_rows (byid_rows d None (type_name t) files ids fs)
    (exact dataset_db (type_name t) (fun i x => i ∈ ids /\ keeps fs x = true)).
Proof.
  intros Hv Hids Hu Hfiles. unfold byid_rows, Sources.byid_current_rows. rewrite checked_valid, table_of_name by done.
  destruct (byid_exact ds t byid_rows_of (flat_map (byid_file d) files) (fun i => mem i ids) (tag_where d fs) no_stats (ok_deltas Hok) Hu) as [_ Hx].
  { intros r Hr%mem_spec. by apply Hfiles, Hids. }
  eexists _, _. split; [reflexivity|]. set (out := (DeltaRead.byid_current_rows _ _ _ _ _ _).1) in *. clearbody out. split.
  - intros x (r & -> & Hr)%elem_of_map. apply Hx in Hr as (Hm%mem_spec & Ht & Hc). destruct (current_copy _ _ _ Hc) as (y & Hy & Hs & Hi).
    exists y. change (s_id (to_row (type_name t) false r)) with (b_id r). split_and!; [done|done|done|].
    rewrite (tag_where_keeps (type_name t) false) in Ht by (done || apply (ok_columns Hok t (b_id r)); by right).
    unfold keeps in *. by rewrite (s_tags_proper _ _ Hs).
  - intros i x Hx' [Hi Hk]. destruct (copy_current _ _ _ Hx') as (r & Hr & Hs & Hid). exists (to_row (type_name t) false r).
    split; [|done]. apply elem_of_map_2, Hx. rewrite Hid. split_and!; [by apply mem_spec| |done].
    rewrite (tag_where_keeps (type_name t) false) by (done || apply (ok_columns Hok t i); by right). unfold keeps in *. by rewrite <- (s_tags_proper _ _ Hs).
Qed.

Lemma byid_select_exact t lo hi ids fs : filters_valid fs = true -> (forall i, i ∈ ids -> lo <= i <= hi) ->
  reads_rows (build_byid_select_from_ids_query d None (type_name t) ids (Some lo) (Some hi) fs)
    (exact dataset_db (type_name t) (fun i x => i ∈ ids /\ keeps fs x = true)).
Proof.
  intros Hv Hids. unfold build_byid_select_from_ids_query. destruct (byid_range t lo hi) as (parts & E1 & E2 & Hu & Hr).
  change (Sources.man d) with man. rewrite E1. cbn [res_bind]. rewrite E2. cbn [res_bind]. unfold nothing_to_read.
  destruct (map file_of parts) as [|f files] eqn:Ef; [|by apply (byid_rows_exact t lo hi)].
  destruct (has_tiers d) eqn:Et; cbn [negb]; [by apply (byid_rows_exact t lo hi)|].
  apply reads_rows_ret. split; [by intros r ?%elem_of_nil|]. intros i x Hx [Hi _]. exfalso.
  destruct (copy_current _ _ _ Hx) as (r & Hcur & _ & <-). unfold has_tiers in Et.
  assert (Hn : newest_row ds t (b_id r) = None).
  { unfold newest_row, found, layer. unfold DeltaRead.delta_tiers in Et. by destruct (hour ds), (day ds), (week ds). }
  unfold current in Hcur. rewrite Hn in Hcur. cbn [over] in Hcur. apply Hr in Hcur; [by inversion Hcur|]. by apply Hids.
Qed.
(** ** The files of cells *)
Lemma flat_map_cells (F : pystr -> res (list pystr)) cells : (forall c, exists fs, res_flat_map F [c] = Ok fs) ->
  res_flat_map F cells = Ok (flat_map (fun c => default [] (ok_or_null (res_flat_map F [c]))) cells).
Proof.
  intros HF. apply res_flat_map_total. intros c _. destruct (HF c) as [fs E]. rewrite E. revert E. rewrite res_flat_map_cons.
  destruct (F c) as [l|]; [|done]. cbn. rewrite app_nil_r. congruence.
Qed.
Lemma node_files_cells part cells : _node_files d cells part = Ok (flat_map (node_part part) cells).
Proof.
  pose proof (fun c => ok_node_files Hok c part) as Hf. unfold node_part, _node_files in *. change (Sources.man d) with man in *.
  destruct (table_cells man NODE) as [tc|]; [|by destruct (Hf []) as [? [=]]]. exact (flat_map_cells _ cells Hf).
Qed.
Lemma flat_files_cells t cells : t <> TNode -> flat_files d (type_name t) cells = Ok (flat_map (cell_paths t) cells).
Proof.
  intros Ht. pose proof (fun c => ok_flat_files Hok t c Ht) as Hf. transitivity (Ok (flat_map (fun c => default [] (ok_or_null (flat_files d (type_name t) [c]))) cells)).
  - unfold flat_files in *. change (Sources.man d) with man in *.
    destruct (table_cells man (type_name t)) as [tc|]; [|by destruct (Hf []) as [? [=]]]. exact (flat_map_cells _ cells Hf).
  - by destruct t.
Qed.

Lemma other_cell t c : c ∉ base_cells t -> cell_paths t c = [].
Proof.
  intros Hc. destruct (ok_tables Hok t) as (tc & Etc & _). unfold base_cells in Hc. rewrite Etc in Hc.
  assert (Hnone : dict_get c tc = None).
  { destruct (dict_get c tc) as [v|] eqn:E; [|done]. destruct Hc. clear Etc. induction tc as [|[k x] tc IH]; [done|].
    cbn [dict_get] in E. cbn [map fst]. destruct (k =s c) eqn:Ek; [apply str_eqb_eq in Ek as ->; left|right; by apply IH]. }
  assert (Hnode : t = TNode -> forall part, node_part part c = []).
  { intros -> part. unfold node_part, _node_files. change (Sources.man d) with man. change NODE with (type_name TNode). rewrite Etc. cbn [res_bind].
    rewrite res_flat_map_cons. unfold get_or_none, get_default, Json.get. cbn. rewrite Hnone. cbn. reflexivity. }
  assert (Hflat : flat_files d (type_name t) [c] = Ok []).
  { unfold flat_files. change (Sources.man d) with man. rewrite Etc. cbn [res_bind].
    rewrite res_flat_map_cons. unfold contains. by rewrite Hnone. }
  unfold cell_paths. destruct t; [by rewrite !Hnode|by rewrite Hflat..].
Qed.

Lemma cell_rows_base t c r : r ∈ cell_rows t c -> r ∈ spatial_rows_of t.
Proof.
  intros Hr. apply elem_of_flat_map. exists c. split; [|done]. destruct (decide (c ∈ base_cells t)) as [?|Hn]; [done|].
  unfold cell_rows in Hr. rewrite other_cell in Hr by done. by inversion Hr.
Qed.
Lemma cell_rows_find t c r : r ∈ cell_rows t c -> find_id (b_id r) (spatial_rows_of t) = Some r.
Proof. intros Hr%cell_rows_base. apply (find_id_unique _ r (ok_spatial_unique Hok t) Hr). Qed.
Lemma find_cell_rows t i r : find_id i (spatial_rows_of t) = Some r -> exists c, b_cell r = Some c /\ r ∈ cell_rows t c.
Proof. intros [(c & _ & Hr)%elem_of_flat_map _]%find_id_Some. exists c. split; [by apply (ok_placed Hok t)|done]. Qed.

Lemma unique_cells t cells : NoDup cells -> unique (flat_map (cell_rows t) cells).
Proof.
  intros Hc. apply unique_flat_map; [done| |].
  - intros c _. destruct (decide (c ∈ base_cells t)) as [Hb|Hn].
    + eapply unique_sublist; [|apply (ok_spatial_unique Hok t)]. apply list_elem_of_split in Hb as (l1 & l2 & E).
      unfold spatial_rows_of. rewrite E, flat_map_app. apply sublist_inserts_l. cbn [flat_map]. by apply sublist_inserts_r.
    + unfold cell_rows. rewrite other_cell by done. by apply NoDup_nil_2.
  - intros x y a b _ _ Ha Hb E. pose proof (cell_rows_find _ _ _ Ha) as Fa. pose proof (cell_rows_find _ _ _ Hb) as Fb.
    change (b_id a = b_id b) in E. rewrite E, Fb in Fa. injection Fa as ->.
    pose proof (ok_placed Hok t x _ Ha) as E1. pose proof (ok_placed Hok t y _ Hb) as E2. congruence.
Qed.

(** The files a scan reads; [untagged]: with those of the untagged nodes. *)
Definition read_files (t : etype) (untagged : bool) (cells : list pystr) : res (list pystr) :=
  match t with TNode => node_files d untagged cells | _ => flat_files d (type_name t) cells end.

Lemma read_files_spec t untagged cells : NoDup cells -> exists fs, read_files t untagged cells = Ok fs /\
  (forall f, f ∈ fs -> exists c, c ∈ cells /\ f ∈ cell_paths t c) /\
  (forall c f, c ∈ cells -> f ∈ cell_paths t c -> f ∈ fs \/ untagged = false /\ t = TNode /\ f ∈ node_part (u "untagged") c) /\
  unique (flat_map (spatial_file d) fs).
Proof.
  intros Hc.
  assert (Hu : forall fs rest, flat_map (cell_paths t) cells ≡ₚ fs ++ rest -> unique (flat_map (spatial_file d) fs)).
  { intros fs rest Hp. pose proof (unique_cells t cells Hc) as Hu.
    assert (E : flat_map (cell_rows t) cells ≡ₚ flat_map (spatial_file d) fs ++ flat_map (spatial_file d) rest).
    { rewrite <- flat_map_app, <- Hp. clear. induction cells as [|c cs IH]; [done|]. cbn [flat_map]. by rewrite flat_map_app, IH. }
    unfold unique, ids in *. rewrite E, map_app in Hu. by apply NoDup_app in Hu as [? _]. }
  destruct t; cbn [read_files].
  2,3: rewrite flat_files_cells by done; eexists; split; [reflexivity|]; split_and!;
    [intros f Hf%elem_of_flat_map; naive_solver|intros c f Hc' Hf; left; apply elem_of_flat_map; by exists c|by apply (Hu _ []); rewrite app_nil_r].
  unfold node_files. rewrite !node_files_cells. destruct untagged; cbn [res_bind res_map].
  - eexists; split; [reflexivity|]. split_and!.
    + intros f. rewrite elem_of_app, !elem_of_flat_map. cbn [cell_paths]. setoid_rewrite elem_of_app. naive_solver.
    + intros c f Hc'. cbn [cell_paths]. rewrite !elem_of_app, !elem_of_flat_map. naive_solver.
    + apply (Hu _ []). rewrite app_nil_r. cbn [cell_paths]. by rewrite flat_map_app_perm.
  - eexists; split; [reflexivity|]. split_and!.
    + intros f. rewrite !elem_of_flat_map. cbn [cell_paths]. setoid_rewrite elem_of_app. naive_solver.
    + intros c f Hc'. cbn [cell_paths]. rewrite !elem_of_app, !elem_of_flat_map. naive_solver.
    + apply (Hu _ (flat_map (node_part (u "untagged")) cells)). cbn [cell_paths]. by rewrite flat_map_app_perm.
Qed.

Lemma prune_spec t files q : (forall f, f ∈ files -> exists c, f ∈ cell_paths t c) ->
  exists out, prune d (type_name t) files q = Ok out /\ sublist out files /\
    forall f r, f ∈ files -> r ∈ spatial_file d f -> in_box t q r = true -> f ∈ out.
Proof.
  intros Hf. pose proof (ok_rowgroups Hok t) as Hg. unfold prune, prune_files_by_bbox. change (Sources.man d) with man.
  destruct files as [|f0 fs]; [by exists []|]. unfold _rowgroup_index_for. cbn [dict_get].
  destruct (_load_rowgroup_index (rowgroup_file d) man (type_name t)) as [[idx|]|]; [| |done]; eexists; (split; [reflexivity|]).
  - split; [apply sublist_filter|]. intros f r Hin Hr Hb. apply list_elem_of_filter. split; [|done].
    destruct (Hf f Hin) as [c Hc]. by apply (Hg c f r q).
  - split; [done|]. by intros.
Qed.
(** ** Scans of cells *)
Lemma current_read t cells files where_ : (forall f, f ∈ files -> exists c, c ∈ cells /\ f ∈ cell_paths t c) ->
  unique (flat_map (spatial_file d) files) ->
  exists rows n, Sources.current_rows d None (type_name t) cells files where_ = Ok (rows, n) /\
    (forall r, r ∈ rows -> where_ r = true /\ cell_in cells (b_cell r) = true /\ current_row t (b_id r) = Some r) /\
    (forall i r, current_row t i = Some r -> where_ r = true -> cell_in cells (b_cell r) = true ->
       (snewest ds t i = None -> r ∈ flat_map (spatial_file d) files) -> r ∈ rows).
Proof.
  intros Hf Hu. unfold Sources.current_rows. rewrite table_of_name. set (scanned := flat_map (spatial_file d) files) in *.
  assert (Hsettled : forall i, settled ds t cells i).
  { intros i m r n Hm Hr Hc Hn. unfold in_cells in *. by rewrite <- (ok_at_rest Hok t m r n i Hm Hr Hn). }
  destruct (DeltaReadFacts.scan_exact ds t byid_rows_of (spatial_rows_of t) cells (ok_deltas Hok) (ok_prev Hok)
    (fun i => same_copies_cell _ _ _ (ok_copies Hok t i)) where_ no_stats scanned Hu) as (_ & H2 & _ & H4).
  { intros r (f & Hin & Hr)%elem_of_flat_map. destruct (Hf f Hin) as (c & Hc & Hfc).
    assert (Hrow : r ∈ cell_rows t c) by (apply elem_of_flat_map; by exists f).
    split; [|by apply (cell_rows_find t c)]. rewrite (ok_placed Hok t c r Hrow). by apply str_in_spec. }
  eexists _, _. split; [reflexivity|]. set (out := (DeltaRead.current_rows _ _ _ _ _ _).1) in *. clearbody out. split.
  - intros r Hr. destruct (H2 r Hr) as [Hw Hc]. split_and!; [done|done|]. by apply (H4 r Hw Hc (Hsettled _)).
  - intros i r Hr Hw Hc Hin. pose proof (current_row_id _ _ _ Hr) as Hi. rewrite <- Hi in Hr, Hin. by apply (H4 r Hw Hc (Hsettled _)).
Qed.

Lemma cells_nodup n bbox cells : CellSelect.cells_for_bbox man n bbox = Ok cells -> NoDup cells.
Proof.
  destruct bbox as [b|]; [by intros (? & ? & ? & ? & ? & _ & _ & ? & _)%cells_for_bbox_spec|].
  unfold CellSelect.cells_for_bbox. intros (? & _ & E)%res_bind_Ok. apply res_bind_Ok in E as (? & _ & E).
  apply res_bind_Ok in E as (? & _ & E). injection E as <-. apply sorted_set_nodup.
Qed.

Lemma no_tiers_newest t i : has_tiers d = false -> snewest ds t i = None.
Proof.
  unfold has_tiers, snewest, sfound, layer, DeltaRead.delta_tiers. by destruct (hour ds), (day ds), (week ds).
Qed.

(** The elements a scan with a condition [geo] on its box returns. *)
Definition in_scan (t : etype) (bbox : option BBox) (geo : BBox -> RowGroupBBox -> file_row G -> bool) (r : file_row G) : Prop :=
  match bbox with
  | None => True
  | Some b => exists q cells, bbox_e7 b = Ok q /\ CellSelect.cells_for_bbox man (type_name t) (Some b) = Ok cells /\
                cell_in cells (b_cell r) = true /\ geo b q r = true
  end.

(** The base row of an element that no tier knows is in the files read. *)
Lemma base_row_read t untagged cells files q fs i r : NoDup cells -> read_files t untagged cells = Ok files ->
  cell_in cells (b_cell r) = true -> current_row t i = Some r -> snewest ds t i = None ->
  (t = TNode -> untagged_covered keeps fs \/ untagged = true) -> (untagged = false -> is_negative_only fs = false) ->
  keeps fs (to_row (type_name t) true r) = true ->
  forall out, prune d (type_name t) files q = Ok out \/ out = files -> (out = files \/ in_box t q r = true) ->
  r ∈ flat_map (spatial_file d) out.
Proof.
  intros Hc Hread Hin Hr Hn Hcov Hneg Hk out Hout Hbox. unfold current_row, scurrent in Hr. rewrite Hn in Hr. cbn [over] in Hr.
  destruct (find_cell_rows t i r Hr) as (c & Ec & Hrow). rewrite Ec in Hin. apply str_in_spec in Hin.
  apply elem_of_flat_map in Hrow as (f & Hf & Hrf).
  destruct (read_files_spec t untagged cells Hc) as (fs' & E & Hfs & Hall & _). rewrite Hread in E. injection E as <-.
  destruct (Hall c f Hin Hf) as [Hff|(-> & -> & Hu)].
  - apply elem_of_flat_map. exists f. split; [|done]. destruct (prune_spec t files q) as (out' & Ep & _ & Hkeep).
    { intros g Hg. destruct (Hfs g Hg) as (c' & _ & ?). by exists c'. }
    destruct Hout as [Ho| ->]; [|done]. rewrite Ep in Ho. injection Ho as <-. destruct Hbox as [-> |Hbox]; [done|]. by apply (Hkeep f r).
  - exfalso. pose proof (ok_untagged Hok c f r Hu Hrf) as Htags. destruct (Hcov eq_refl) as [[Hn'|Hx]|[=]]; [by rewrite Hneg in Hn'|].
    rewrite Hx in Hk; [done|exact Htags].
Qed.

Lemma scan_set t untagged bbox fs ids geo : filters_valid fs = true -> (forall b q r, geo b q r = true -> in_box t q r = true) ->
  match bbox with Some b => exists q, bbox_e7 b = Ok q | None => True end ->
  (t = TNode -> untagged_covered keeps fs \/ untagged = true) -> (untagged = false -> is_negative_only fs = false) ->
  reads_rows (spatial_scan d None (type_name t) bbox fs ids (read_files t untagged) geo)
    (exact dataset_db (type_name t) (fun i x => exists r, current_row t i = Some r /\ in_scan t bbox geo r /\
       ids_where ids i = true /\ keeps fs x = true)).
Proof.
  intros Hv Hgeo Hq Hcov Hneg. unfold spatial_scan, scan_files. change (Sources.man d) with man.
  destruct (ok_cells Hok t bbox) as [cells Ecells]. rewrite Ecells. cbn [res_bind]. pose proof (cells_nodup _ _ _ Ecells) as Hnd.
  destruct (read_files_spec t untagged cells Hnd) as (files & Efiles & Hfs & Hall & Hu). rewrite Efiles. cbn [res_bind].
  set (q := match bbox with Some b => match bbox_e7 b with Ok q => q | Raise _ => (0, 0, 0, 0) end | None => (0, 0, 0, 0) end).
  destruct (prune_spec t files q) as (out & Ep & Hsub & _).
  { intros f Hf. destruct (Hfs f Hf) as (c & _ & ?). by exists c. }
  set (read := match bbox with Some _ => out | None => files end).
  assert (Eread : (match bbox with Some b => let* q := bbox_e7 b in prune d (type_name t) files q | None => Ok files end) = Ok read).
  { unfold read, q in *. destruct bbox as [b|]; [|done]. destruct Hq as [q' Eq]. rewrite Eq in *. exact Ep. }
  rewrite Eread. cbn [res_bind fst snd].
  set (g := match bbox with Some b => geo b q | None => fun _ => true end).
  assert (Egeo : (match bbox with Some b => let* q := bbox_e7 b in Ok (geo b q) | None => Ok (fun _ => true) end) = Ok g).
  { unfold g, q. destruct bbox as [b|]; [|done]. destruct Hq as [q' Eq]. by rewrite Eq. }
  assert (Hscan : forall i r, current_row t i = Some r -> in_scan t bbox geo r <-> g r = true /\ cell_in cells (b_cell r) = true).
  { intros i r Hr. unfold in_scan, g, q. destruct bbox as [b|]; [destruct Hq as [q' Eq]; rewrite Eq|].
    - split; [intros (q'' & cells' & [= <-] & E2 & ? & ?); rewrite Ecells in E2; by injection E2 as <-|]. intros [? ?]. by exists q', cells.
    - split; [|done]. intros _. split; [done|]. by apply (ok_all_cells Hok t i). }
  assert (Hbase : forall i r, current_row t i = Some r -> g r = true -> cell_in cells (b_cell r) = true ->
            keeps fs (to_row (type_name t) true r) = true -> snewest ds t i = None -> r ∈ flat_map (spatial_file d) read).
  { intros i r Hr Hg Hc Hk Hn. apply (base_row_read t untagged cells files q fs i r Hnd Efiles Hc Hr Hn Hcov Hneg Hk).
    - unfold read. destruct bbox; auto.
    - unfold read, g in *. destruct bbox as [b|]; [right; by apply (Hgeo b)|by left]. }
  assert (Hreadf : forall f, f ∈ read -> exists c, c ∈ cells /\ f ∈ cell_paths t c).
  { intros f Hf. apply Hfs. unfold read in Hf. destruct bbox; [|done]. by apply (elem_of_sublist _ _ _ Hf Hsub). }
  assert (Hureadf : unique (flat_map (spatial_file d) read)).
  { unfold read. destruct bbox; [|done]. eapply unique_sublist; [|exact Hu]. by apply flat_map_sublist. }
  destruct (nothing_to_read d None read) eqn:En.
  { apply reads_rows_ret. split; [by intros r ?%elem_of_nil|]. intros i x Hx (r & Hr & Hin & _ & Hk). exfalso.
    unfold nothing_to_read in En. destruct read as [|? ?] eqn:Er; [|done]. apply negb_true_iff in En.
    rewrite dataset_db_type, Hr in Hx. injection Hx as <-. apply (Hscan i r Hr) in Hin as [Hg Hc].
    pose proof (Hbase i r Hr Hg Hc Hk (no_tiers_newest t i En)) as Hb. by inversion Hb. }
  rewrite Egeo. cbn [res_bind]. rewrite checked_valid by done.
  destruct (current_read t cells read (fun r => g r && ids_where ids (b_id r) && tag_where d fs r) Hreadf Hureadf) as (rows & n & E & R1 & R2).
  rewrite E. eexists _, _. split; [reflexivity|]. split.
  - intros x (r & -> & Hr)%elem_of_map. destruct (R1 r Hr) as ([[Hg Hi]%andb_true_iff Ht]%andb_true_iff & Hc & Hcur).
    exists (to_row (type_name t) true r). change (s_id (to_row (type_name t) true r)) with (b_id r). rewrite dataset_db_type, Hcur.
    split_and!; [done|done|]. exists r. split_and!; [done|by apply (Hscan (b_id r))|done|].
    by rewrite <- (tag_where_keeps (type_name t) true) by (done || apply (ok_columns Hok t (b_id r)); by left).
  - intros i x Hx (r & Hr & Hin & Hi & Hk). rewrite dataset_db_type, Hr in Hx. injection Hx as <-.
    exists (to_row (type_name t) true r). split; [|done]. apply elem_of_map_2. apply (Hscan i r Hr) in Hin as [Hg Hc].
    apply (R2 i r Hr); [|done|by apply (Hbase i)]. rewrite (current_row_id _ _ _ Hr), Hg, Hi.
    by rewrite (tag_where_keeps (type_name t) true) by (done || apply (ok_columns Hok t i); by left).
Qed.
Lemma exact_ext n (P Q : Z -> row -> Prop) rows : (forall i x, dataset_db n i = Some x -> P i x <-> Q i x) ->
  exact dataset_db n P rows -> exact dataset_db n Q rows.
Proof.
  intros HPQ [X1 X2]. split.
  - intros r Hr. destruct (X1 r Hr) as (x & Hx & Hs & HP). exists x. split_and!; [done|done|]. by apply HPQ.
  - intros i x Hx HQ. apply (X2 i x Hx). by apply HPQ.
Qed.

(** ** The members of a relation *)
Lemma byid_files_spec t ids : exists files, byid_files d (type_name t) ids = Ok files /\
  forall r, b_id r ∈ ids -> r ∈ flat_map (byid_file d) files <-> find_id (b_id r) (byid_rows_of t) = Some r.
Proof.
  destruct ids as [|i l]; [exists []; split; [done|by intros r ?%elem_of_nil]|].
  destruct (byid_range t (min_of i l) (max_of i l)) as (parts & E1 & E2 & _ & Hr). exists (map file_of parts).
  unfold byid_files. change (Sources.man d) with man. rewrite E1. split; [exact E2|]. intros r Hin. apply Hr.
  by apply in_range_of.
Qed.

#[local] Instance members_of_type_proper c : Proper (same_element ==> eq) (@members_of_type G c).
Proof. intros a b Hab. unfold members_of_type. by rewrite (s_members_proper _ _ Hab). Qed.

Definition member_hit (b : BBox) (q : RowGroupBBox) (r : row) : Prop :=
  (exists j, j ∈ members_of_type (u "n") r /\ node_hit q j = true) \/
  (exists j, j ∈ members_of_type (u "w") r /\ way_hit b j = true).

Lemma exact_filter cand b q P : bbox_e7 b = Ok q -> exact dataset_db RELATION P cand ->
  reads_rows (_relation_bbox_exact_filter d None cand b) (exact dataset_db RELATION (fun i x => P i x /\ member_hit b q x)).
Proof.
  intros Eq [C1 C2]. unfold _relation_bbox_exact_filter. rewrite Eq. cbn [res_bind].
  set (node_ids := remove_dups _). set (way_ids := remove_dups _).
  destruct (byid_files_spec TNode node_ids) as (nf & Enf & Hnf). change (type_name TNode) with NODE in Enf. rewrite Enf. cbn [res_bind].
  destruct (byid_files_spec TWay way_ids) as (wf & Ewf & Hwf). change (type_name TWay) with WAY in Ewf. rewrite Ewf. cbn [res_bind].
  set (placed := base.filter _ (flat_map (byid_file d) wf)). set (cells := remove_dups (omap b_cell placed)).
  change WAY with (type_name TWay). rewrite flat_files_cells by done. cbn [res_bind].
  destruct (prune_spec TWay (flat_map (cell_paths TWay) cells) q) as (sf & -> & Hsub & Hkeep).
  { intros f (c & _ & ?)%elem_of_flat_map. by exists c. }
  cbn [res_bind]. eexists _, _. split; [reflexivity|]. set (nodes := map b_id _). set (ways := map b_id _).
  assert (Hnodes : forall j, j ∈ nodes <-> j ∈ node_ids /\ node_hit q j = true).
  { intros j. unfold nodes. rewrite elem_of_map. setoid_rewrite list_elem_of_filter. unfold node_hit. split.
    - intros (r & -> & [Hm Hh]%andb_true_iff & Hr). apply mem_spec in Hm. split; [done|]. apply Hnf in Hr; [|done]. by rewrite Hr.
    - intros [Hj Hh]. destruct (find_id j (byid_rows_of TNode)) as [r|] eqn:E; [|done]. pose proof E as [_ Hid]%find_id_Some.
      change (b_id r = j) in Hid. subst j. exists r. split; [done|]. split; [|by apply Hnf]. apply andb_true_iff. by rewrite mem_spec. }
  assert (Hplaced : forall p, p ∈ placed <-> b_id p ∈ way_ids /\ is_Some (b_cell p) /\ find_id (b_id p) (byid_rows_of TWay) = Some p).
  { intros p. unfold placed. rewrite list_elem_of_filter, mem_spec. split; [intros ([? ?] & ?)|intros (? & ? & ?)]; split_and!; try done; by apply Hwf. }
  assert (Hways : forall j, j ∈ ways <-> j ∈ way_ids /\ way_hit b j = true).
  { intros j. unfold ways. rewrite elem_of_map. setoid_rewrite list_elem_of_filter. unfold way_hit. split.
    - intros (r & -> & [He Hh]%andb_true_iff & (f & Hf & Hr)%elem_of_flat_map). apply existsb_exists in He as (p & Hp%list_elem_of_In & [Hid _]%andb_true_iff).
      apply Z.eqb_eq in Hid. apply Hplaced in Hp as (Hp & _). rewrite Hid in Hp. split; [done|].
      pose proof (elem_of_sublist _ _ _ Hf Hsub) as (c & _ & Hc)%elem_of_flat_map.
      by rewrite (cell_rows_find TWay c r) by (apply elem_of_flat_map; by exists f).
    - intros [Hj Hh]. destruct (find_id j (spatial_rows_of TWay)) as [r|] eqn:E; [|done]. pose proof E as [Hin Hid]%find_id_Some.
      change (b_id r = j) in Hid. subst j. pose proof (ok_copies Hok TWay (b_id r)) as Hc. rewrite E in Hc.
      destruct (find_id (b_id r) (byid_rows_of TWay)) as [p|] eqn:Ep; [|done]. pose proof Ep as [_ Hpid]%find_id_Some. change (b_id p = b_id r) in Hpid.
      assert (Ecell : b_cell p = b_cell r) by (by injection Hc). destruct (find_cell_rows TWay _ r E) as (c & Ec & Hrow).
      assert (Hp : p ∈ placed) by (apply Hplaced; rewrite Hpid, Ecell, Ec; by split_and!).
      apply elem_of_flat_map in Hrow as (f & Hf & Hrf). exists r. split; [done|]. split.
      + rewrite Hh, andb_true_r. apply existsb_exists. exists p. split; [by apply list_elem_of_In|]. apply andb_true_iff. rewrite Hpid, Ecell.
        split; [by apply Z.eqb_refl|by apply bool_decide_eq_true].
      + apply elem_of_flat_map. exists f. split; [|done]. apply (Hkeep f r); [|done|by apply (ok_geometry Hok r b q)].
        apply elem_of_flat_map. exists c. split; [|done]. apply elem_of_remove_dups, list_elem_of_omap. exists p. by rewrite Ecell. }
  set (ok (r : row) := existsb (fun i => mem i nodes) (members_of_type (u "n") r) || existsb (fun i => mem i ways) (members_of_type (u "w") r)).
  assert (Hokr : forall r, r ∈ cand -> ok r = true <-> member_hit b q r).
  { intros r Hr. unfold ok, member_hit. rewrite orb_true_iff, !existsb_exists. setoid_rewrite <- list_elem_of_In. setoid_rewrite mem_spec.
    setoid_rewrite Hnodes. setoid_rewrite Hways.
    assert (Hin : forall c j, j ∈ members_of_type c r -> j ∈ remove_dups (flat_map (members_of_type c) cand)).
    { intros c j Hj. apply elem_of_remove_dups, elem_of_flat_map. by exists r. }
    pose proof (Hin (u "n")) as In. pose proof (Hin (u "w")) as Iw. clear Hin. fold node_ids in In. fold way_ids in Iw.
    split; (intros [(j & ? & ?)|(j & ? & ?)]; [left|right]; exists j); naive_solver. }
  assert (Hpass : forall r, r ∈ passing cand nodes ways <-> r ∈ cand /\ member_hit b q r).
  { intros r. unfold passing. fold ok. rewrite list_elem_of_filter, mem_spec, elem_of_map. setoid_rewrite list_elem_of_filter. split.
    - intros ((r' & Hid & Hok' & Hr') & Hr). split; [done|]. apply Hokr in Hok'; [|done].
      destruct (C1 r Hr) as (x & Hx & Hs & _), (C1 r' Hr') as (x' & Hx' & Hs' & _). rewrite Hid, Hx' in Hx. injection Hx as ->.
      unfold member_hit in *. rewrite <- (members_of_type_proper _ _ _ Hs), <- (members_of_type_proper (u "w") _ _ Hs).
      by rewrite (members_of_type_proper _ _ _ Hs'), (members_of_type_proper (u "w") _ _ Hs').
    - intros [Hr Hh]. split; [|done]. exists r. split_and!; [done|by apply Hokr|done]. }
  assert (Hprop : forall x r, same_element x r -> member_hit b q x <-> member_hit b q r).
  { intros x r Hs. unfold member_hit. by rewrite (members_of_type_proper (u "n") _ _ Hs), (members_of_type_proper (u "w") _ _ Hs). }
  split.
  - intros r [Hr Hh]%Hpass. destruct (C1 r Hr) as (x & Hx & Hs & HP). exists x. split_and!; [done..|]. by apply (Hprop x r).
  - intros i x Hx [HP Hh]. destruct (C2 i x Hx HP) as (r & Hr & Hs). exists r. split; [|done]. apply Hpass. split; [done|]. by apply (Hprop x r).
Qed.
(** ** Queries by box *)
Lemma dataset_scan t bbox fs ids (f : row -> bool) : t ∈ element_types -> filters_valid fs = true -> (t = NODE -> untagged_covered keeps fs) ->
  set_box_where bbox = Ok f ->
  reads_rows (SPATIAL_BUILDERS d None t bbox fs ids)
    (exact dataset_db t (fun i x => dataset_inside bbox (t, i) x /\ ids_where ids i = true /\ keeps fs x = true)).
Proof.
  intros Ht Hv Hcov Hf. assert (Hq : match bbox with Some b => exists q, bbox_e7 b = Ok q | None => True end).
  { destruct bbox as [b|]; [|done]. unfold set_box_where in Hf. destruct (bbox_e7 b) as [q|]; [by exists q|done]. }
  assert (Hinside : forall t' geo (P : row -> Prop), t = type_name t' ->
    (forall b q i r, bbox = Some b -> bbox_e7 b = Ok q -> current_row t' i = Some r ->
       let x := to_row t true r in geo b q r = true /\ P x <->
       match t' with
       | TNode => point_in q (s_lat_e7 x) (s_lon_e7 x) = true
       | TWay => box_in q (s_box x) = true /\ intersects b (s_geometry x) = true
       | TRelation => box_in q (s_box x) = true /\ member_hit b q x
       end) -> (bbox = None -> forall x, P x) ->
    forall i x, dataset_db t i = Some x ->
      ((exists r, current_row t' i = Some r /\ in_scan t' bbox geo r /\ ids_where ids i = true /\ keeps fs x = true) /\ P x) <->
      (dataset_inside bbox (t, i) x /\ ids_where ids i = true /\ keeps fs x = true)).
  { intros t' geo P -> Hgeo Hnone i x Hx. rewrite dataset_db_type in Hx. destruct (current_row t' i) as [r|] eqn:Er; [|done]. injection Hx as <-.
    unfold in_scan, dataset_inside. destruct bbox as [b|].
    - specialize (fun q => Hgeo b q i r eq_refl). cbn [fst] in *. rewrite table_of_name. split.
      + intros ((r' & [= <-] & (q & cells & Eq & Ec & Hc & Hg) & ? & ?) & HP). split_and!; [|done|done]. exists q, cells. split_and!; [done..|].
        destruct (Hgeo q Eq Er) as [Hgo _]. destruct t'; by apply Hgo.
      + intros ((q & cells & Eq & Ec & Hc & Hg) & ? & ?). destruct (Hgeo q Eq Er) as [_ Hgo].
        destruct Hgo as [? HP]; [by destruct t'|]. split; [|done]. exists r. split_and!; [done| |done|done]. by exists q, cells.
    - split; [intros ((r' & _ & _ & ? & ?) & _); by split_and!|]. intros (_ & ? & ?). split; [|by apply Hnone]. by exists r. }
  apply elem_of_element_types in Ht as [->|[->| ->]].
  - change (SPATIAL_BUILDERS d None NODE bbox fs ids) with (build_node_spatial_select d None bbox fs ids).
    eapply reads_rows_weaken; [apply (scan_set TNode (is_negative_only fs) bbox fs ids (fun _ q r => point_in q (f_lat_e7 (b_data r)) (f_lon_e7 (b_data r))))|].
    + done.
    + done.
    + done.
    + intros _. left. by apply Hcov.
    + done.
    + intros rows Hr. eapply exact_ext; [|exact Hr]. intros i x Hx.
      rewrite <- (Hinside TNode (fun _ q r => point_in q (f_lat_e7 (b_data r)) (f_lon_e7 (b_data r))) (fun _ => True) eq_refl); [tauto|cbn; tauto|done|done].
  - change (SPATIAL_BUILDERS d None WAY bbox fs ids) with (build_way_spatial_select d None bbox fs ids).
    eapply reads_rows_weaken; [apply (scan_set TWay true bbox fs ids (fun b q r => box_in q (f_box (b_data r)) && intersects b (f_geometry (b_data r))))|].
    + done.
    + by intros b q r [? _]%andb_true_iff.
    + done.
    + by right.
    + done.
    + intros rows Hr. eapply exact_ext; [|exact Hr]. intros i x Hx.
      rewrite <- (Hinside TWay (fun b q r => box_in q (f_box (b_data r)) && intersects b (f_geometry (b_data r))) (fun _ => True) eq_refl); [tauto| |done|done].
      intros b q j r _ _ _. cbn -[point_in box_in]. rewrite andb_true_iff. tauto.
  - change (SPATIAL_BUILDERS d None RELATION bbox fs ids) with (build_relation_spatial_select d None bbox fs ids).
    unfold build_relation_spatial_select.
    eapply reads_rows_bind; [apply (scan_set TRelation true bbox fs ids (fun _ q r => box_in q (f_box (b_data r))))|].
    + done.
    + done.
    + done.
    + by right.
    + done.
    + intros cand Hc. change (type_name TRelation) with RELATION in Hc. destruct bbox as [b|].
      * destruct Hq as [q Eq]. eapply reads_rows_weaken; [by apply (exact_filter cand b q _ Eq Hc)|].
        intros rows Hr. eapply exact_ext; [|exact Hr]. intros i x Hx. cbn beta.
        rewrite <- (Hinside TRelation (fun _ q r => box_in q (f_box (b_data r))) (member_hit b q) eq_refl); [done| |done|done].
        intros b' q' j r [= <-] Eq' _. rewrite Eq in Eq'. injection Eq' as <-. done.
      * apply reads_rows_ret. eapply exact_ext; [|exact Hc]. intros i x Hx.
        rewrite <- (Hinside TRelation (fun _ q r => box_in q (f_box (b_data r))) (fun _ => True) eq_refl); [tauto|done|done|done].
Qed.
(** ** Hydration *)
Lemma to_e7_degrees v : int32 v -> to_e7 (e7_to_degrees v) = Ok v.
Proof. exact (e7_back v). Qed.
Lemma bbox_e7_degrees y0 x0 y1 x1 : int32 y0 -> int32 x0 -> int32 y1 -> int32 x1 ->
  bbox_e7 (e7_to_degrees y0, e7_to_degrees x0, e7_to_degrees y1, e7_to_degrees x1) = Ok (x0, y0, x1, y1).
Proof. intros. unfold bbox_e7. by rewrite !to_e7_degrees. Qed.
Lemma int32_min_max (f : box -> Z) b bs : (forall x, x ∈ b :: bs -> int32 (f x)) ->
  int32 (min_of (f b) (map f bs)) /\ int32 (max_of (f b) (map f bs)).
Proof.
  intros Hf. pose proof (min_of_in (f b) (map f bs)) as Hmin. pose proof (max_of_in (f b) (map f bs)) as Hmax.
  change (f b :: map f bs) with (map f (b :: bs)) in *. apply elem_of_map in Hmin as (x & -> & Hx), Hmax as (y & -> & Hy). auto.
Qed.
Lemma union_box boxes b : Forall sane_box boxes -> _union_bbox_e7 boxes = Some b -> exists q, bbox_e7 b = Ok q.
Proof.
  intros Hs. unfold _union_bbox_e7. assert (Hb : forall x, x ∈ omap (fun b => b) boxes -> sane_box (Some x)).
  { intros x (o & Ho & ->)%list_elem_of_omap. by apply (proj1 (Forall_forall _ _) Hs). }
  destruct (omap _ boxes) as [|b0 bs]; [done|]. intros [= <-].
  destruct (int32_min_max (fun x => x.1.1.2) b0 bs) as [? _]; [by intros [[[? ?] ?] ?] (? & ? & ? & ?)%Hb|].
  destruct (int32_min_max (fun x => x.1.1.1) b0 bs) as [? _]; [by intros [[[? ?] ?] ?] (? & ? & ? & ?)%Hb|].
  destruct (int32_min_max (fun x => x.2) b0 bs) as [_ ?]; [by intros [[[? ?] ?] ?] (? & ? & ? & ?)%Hb|].
  destruct (int32_min_max (fun x => x.1.2) b0 bs) as [_ ?]; [by intros [[[? ?] ?] ?] (? & ? & ? & ?)%Hb|].
  eexists. by apply bbox_e7_degrees.
Qed.
Lemma few_cells_total cells : exists b, few_cells d cells = Ok b.
Proof. unfold few_cells. destruct (ok_leaves Hok) as [l E]. change (Sources.man d) with man. rewrite E. by eexists. Qed.

Definition wanted (ids : list Z) (fs : list TagFilter) (i : Z) (x : row) : Prop := i ∈ ids /\ keeps fs x = true.
(** Rows that are right, though some may be missing. *)
Definition sound (t : etype) (P : Z -> row -> Prop) (rows : list row) : Prop :=
  forall r, r ∈ rows -> exists x, dataset_db (type_name t) (s_id r) = Some x /\ same_element x r /\ P (s_id r) x.

Lemma found_rest t ids rest fs found : filters_valid fs = true -> sound t (wanted ids fs) (default [] found) ->
  (forall i, i ∈ rest -> i ∈ ids) -> (forall i, i ∈ ids -> i ∈ rest \/ i ∈ map s_id (default [] found)) -> (ids <> [] -> found = None -> rest <> []) ->
  reads_rows (let! more := (match rest with
                | [] => reads_ret None
                | i :: l => let! rows := build_byid_select_from_ids_query d None (type_name t) (i :: l) (Some (min_of i l)) (Some (max_of i l)) fs in
                            reads_ret (Some rows)
                end) in
     reads_ret (match found, more with None, None => None | _, _ => Some (default [] found ++ default [] more) end))
    (fun o => match o with Some rows => ids <> [] \/ is_Some found | None => ids = [] end /\
              exact dataset_db (type_name t) (wanted ids fs) (default [] o)).
Proof.
  intros Hv Hfound Hrest Hall Hnone.
  eapply reads_rows_bind with (P := fun more => (more = None -> rest = []) /\ (is_Some more -> rest <> []) /\ exact dataset_db (type_name t) (wanted rest fs) (default [] more)).
  { destruct rest as [|i l].
    - apply reads_rows_ret. split_and!; [done|by intros [? [=]]|]. split; [by intros r ?%elem_of_nil|]. intros i x _ [Hi _]. by inversion Hi.
    - eapply reads_rows_bind; [apply (byid_select_exact t (min_of i l) (max_of i l)); [done|intros j; apply in_range_of]|].
      intros rows Hr. apply reads_rows_ret. done. }
  intros more (Hm0 & Hm1 & [M1 M2]). apply reads_rows_ret.
  assert (Hex : exact dataset_db (type_name t) (wanted ids fs) (default [] found ++ default [] more)).
  { split.
    - intros r [Hr|Hr]%elem_of_app; [by apply Hfound|]. destruct (M1 r Hr) as (x & Hx & Hs & Hi & Hk). exists x. split_and!; [done|done|]. split; [by apply Hrest|done].
    - intros i x Hx [Hi Hk]. destruct (Hall i Hi) as [Hin|(r & -> & Hr)%elem_of_map].
      + destruct (M2 i x Hx) as (r & Hr & Hs); [done|]. exists r. split; [|done]. apply elem_of_app. by right.
      + destruct (Hfound r Hr) as (x' & Hx' & Hs & _). rewrite Hx in Hx'. injection Hx' as <-. exists r. split; [|done]. apply elem_of_app. by left. }
  destruct found as [found|], more as [more|]; cbn [default] in *; (split; [|done]).
  - right. by eexists.
  - right. by eexists.
  - left. intros ->. destruct rest as [|i l]; [by destruct (Hm1 ltac:(by eexists))|]. specialize (Hrest i ltac:(left)). by inversion Hrest.
  - destruct ids as [|i l]; [done|]. by destruct (Hnone ltac:(done) eq_refl); apply Hm0.
Qed.

Lemma hydrate_bbox t untagged ids boxes fs geo : t = TNode \/ t = TWay -> Forall sane_box boxes -> filters_valid fs = true ->
  reads_rows (hydrate_via_bbox d None (type_name t) ids boxes fs (read_files t untagged) geo) (fun o =>
    match o with
    | Some rows => ids <> [] /\ exact dataset_db (type_name t) (fun i x => i ∈ ids /\ keeps fs x = true) rows
    | None => ids = []
    end).
Proof.
  intros Ht Hboxes Hv. unfold hydrate_via_bbox. destruct ids as [|i0 ids0]; [by apply reads_rows_ret|]. set (ids := i0 :: ids0) in *.
  assert (Hne : ids <> []) by done. clearbody ids. change (Sources.man d) with man.
  eapply reads_rows_bind with (P := fun found => sound t (wanted ids fs) (default [] found)).
  { destruct (_union_bbox_e7 boxes) as [b|] eqn:Eb; [|by apply reads_rows_ret; intros r ?%elem_of_nil].
    destruct (union_box boxes b Hboxes Eb) as [q Eq]. destruct (ok_cells Hok t (Some b)) as [cells Ec]. rewrite Ec. cbn [res_bind].
    destruct (few_cells_total cells) as [few Ef]. rewrite Ef. cbn [res_bind]. destruct few; cbn [negb]; [|by apply reads_rows_ret; intros r ?%elem_of_nil].
    destruct (read_files_spec t untagged cells (cells_nodup _ _ _ Ec)) as (files & Efiles & Hfs & _ & Hu). rewrite Efiles, Eq. cbn [res_bind].
    destruct (prune_spec t files q) as (out & Ep & Hsub & _).
    { intros f Hf. destruct (Hfs f Hf) as (c & _ & ?). by exists c. }
    rewrite Ep. cbn [res_bind]. destruct (negb _); [by apply reads_rows_ret; intros r ?%elem_of_nil|]. rewrite checked_valid by done.
    destruct (current_read t cells out (fun r => geo q r && mem (b_id r) ids && tag_where d fs r)) as (rows & n & E & R1 & _).
    { intros f Hf. apply Hfs. by apply (elem_of_sublist _ _ _ Hf Hsub). }
    { eapply unique_sublist; [|exact Hu]. by apply flat_map_sublist. }
    rewrite E. eexists _, _. split; [reflexivity|]. cbn [default]. intros x (r & -> & Hr)%elem_of_map.
    destruct (R1 r Hr) as ([[_ Hi]%andb_true_iff Hw]%andb_true_iff & _ & Hcur). apply mem_spec in Hi.
    exists (to_row (type_name t) true r). change (s_id (to_row (type_name t) true r)) with (b_id r). rewrite dataset_db_type, Hcur.
    split_and!; [done|done|]. split; [done|]. by rewrite <- (tag_where_keeps (type_name t) true) by (done || apply (ok_columns Hok t (b_id r)); by left). }
  intros found Hfound. unfold with_remainder. eapply reads_rows_weaken; [apply (found_rest t ids _ fs found Hv Hfound)|].
  - intros i. destruct found; [rewrite list_elem_of_filter, elem_of_remove_dups; tauto|by rewrite elem_of_remove_dups].
  - intros i Hi. destruct found as [rows|]; cbn [default]; [|by left; apply elem_of_remove_dups].
    destruct (decide (i ∈ map s_id rows)) as [?|Hn]; [by right|left]. apply list_elem_of_filter. split; [by apply mem_false|by apply elem_of_remove_dups].
  - intros _ ->. destruct ids as [|i l]; [done|]. intros E. assert (Hi : i ∈ remove_dups (i :: l)) by (apply elem_of_remove_dups; left).
    rewrite E in Hi. by inversion Hi.
  - intros [rows|] [? ?]; [by split|done].
Qed.
Lemma hydrate_cell t id_cells fs : t = TWay \/ t = TRelation -> filters_valid fs = true ->
  reads_rows (build_spatial_hydrate_via_cell_select d None (type_name t) id_cells fs) (fun o =>
    match o with
    | Some rows => id_cells <> [] /\ exact dataset_db (type_name t) (fun i x => i ∈ map fst id_cells /\ keeps fs x = true) rows
    | None => id_cells = []
    end).
Proof.
  intros Ht Hv. unfold build_spatial_hydrate_via_cell_select. destruct id_cells as [|ic0 ics]; [by apply reads_rows_ret|].
  set (id_cells := ic0 :: ics) in *. assert (Hne : id_cells <> []) by done. clearbody id_cells. change (Sources.man d) with man.
  destruct (ok_tables Hok t) as (tc & Etc & _). rewrite Etc. cbn [res_bind].
  rewrite (filterM_total _ (fun c => if dict_get c tc is Some _ then true else false)) by done. cbn [res_bind].
  set (needed := base.filter _ (remove_dups (omap snd id_cells))). assert (Hnd : NoDup needed) by apply NoDup_filter, NoDup_remove_dups.
  clearbody needed. set (placed := map fst (base.filter _ id_cells)).
  assert (Hplaced : forall i, i ∈ placed -> i ∈ map fst id_cells).
  { intros i (ic & -> & [_ Hic]%list_elem_of_filter)%elem_of_map. by apply (elem_of_map_2 fst). }
  clearbody placed.
  eapply reads_rows_bind with (P := fun found => sound t (wanted (map fst id_cells) fs) (default [] found)).
  { destruct needed as [|c0 cs]; [by apply reads_rows_ret; intros r ?%elem_of_nil|]. set (cells := c0 :: cs) in *. clearbody cells.
    destruct (read_files_spec t true cells Hnd) as (files & Efiles & Hfs & _ & Hu).
    replace (flat_files d (type_name t) cells) with (read_files t true cells) by (destruct Ht as [-> | ->]; done).
    rewrite Efiles. cbn [res_bind]. destruct (negb _); [by apply reads_rows_ret; intros r ?%elem_of_nil|]. rewrite checked_valid by done.
    destruct (current_read t cells files (fun r => mem (b_id r) placed && tag_where d fs r) Hfs Hu) as (rows & n & E & R1 & _).
    rewrite E. eexists _, _. split; [reflexivity|]. cbn [default]. intros x (r & -> & Hr)%elem_of_map.
    destruct (R1 r Hr) as ([Hi Hw]%andb_true_iff & _ & Hcur). apply mem_spec in Hi.
    exists (to_row (type_name t) true r). change (s_id (to_row (type_name t) true r)) with (b_id r). rewrite dataset_db_type, Hcur.
    split_and!; [done|done|]. split; [by apply Hplaced|]. by rewrite <- (tag_where_keeps (type_name t) true) by (done || apply (ok_columns Hok t (b_id r)); by left). }
  intros found Hfound. set (rest := match found with Some _ => _ | None => _ end).
  assert (Hrest : forall i, i ∈ rest -> i ∈ map fst id_cells).
  { intros i. unfold rest. destruct found as [rows|]; [|done]. intros (ic & -> & [_ Hic]%list_elem_of_filter)%elem_of_map. by apply (elem_of_map_2 fst). }
  eapply reads_rows_weaken; [apply (found_rest t (map fst id_cells) (remove_dups rest) fs found Hv Hfound)|].
  - intros i. rewrite elem_of_remove_dups. apply Hrest.
  - intros i Hi. rewrite elem_of_remove_dups. unfold rest. destruct found as [rows|]; cbn [default]; [|by left].
    destruct (decide (i ∈ map s_id rows)) as [?|Hn]; [by right|left]. apply elem_of_map in Hi as (ic & -> & Hic).
    apply (elem_of_map_2 fst), list_elem_of_filter. split; [|done]. right. by apply mem_false.
  - intros _ ->. unfold rest. destruct id_cells as [|ic l]; [done|]. intros E.
    assert (Hi : ic.1 ∈ remove_dups (map fst (ic :: l))) by (apply elem_of_remove_dups; left). rewrite E in Hi. by inversion Hi.
  - intros [rows|] [? ?]; [by split|]. by destruct id_cells.
Qed.

#[local] Instance dataset_reads : RowSources G := dataset_sources d.
Lemma dataset_laws : RowSourcesLaws G keeps None dataset_db.
Proof.
  split.
  - apply dataset_typed.
  - intros n i x. unfold dataset_db. destruct (table_of n) as [t|] eqn:En; [|done]. cbn. destruct (current_row t i) as [r|] eqn:E; [|done].
    intros [= <-]. pose proof (ok_int32 Hok t i r E) as Hc. cbn [to_row s_box]. destruct (n =s NODE) eqn:Enode; [done|].
    apply str_eqb_neq in Enode. destruct t; [|exact Hc..]. exfalso. apply Enode. unfold table_of in En. destruct (n =s NODE) eqn:E1; [by apply str_eqb_eq|].
    destruct (n =s WAY); [done|]. by destruct (n =s RELATION).
  - done.
  - done.
  - intros n ids fs [t ->]%named_type Hv. change (reads_rows (build_byid_select d None (type_name t) ids fs) (exact dataset_db (type_name t) (wanted ids fs))).
    destruct ids as [|i l]; [|apply byid_select_exact; [done|intros j; apply in_range_of]].
    apply reads_rows_ret. split; [by intros r ?%elem_of_nil|]. intros i x _ [Hi _]. by inversion Hi.
  - intros n i ids fs [t ->]%named_type Hv. apply byid_select_exact; [done|]. intros j. apply in_range_of.
  - intros ids boxes fs Hb Hv. by apply (hydrate_bbox TNode true); [left|..].
  - intros ids boxes fs Hb Hv. by apply (hydrate_bbox TWay true); [right|..].
  - intros n ids fs [-> | ->]; [apply (hydrate_cell TWay)|apply (hydrate_cell TRelation)]; auto.
Qed.
(** ** Parents *)
Lemma alive_tier_spec t r : r ∈ alive_tier_rows d t <-> exists n, newest_row ds t (b_id r) = Some n /\ over (Some n) None = Some r.
Proof.
  unfold alive_tier_rows. set (cand := qualify _). assert (Hu : unique cand) by apply unique_qualify.
  rewrite (elem_of_alive cand r Hu). assert (Hfind : find_id (b_id r) cand = newest_row ds t (b_id r)).
  { unfold cand. replace (flat_map _ _) with (flat (read_tiers t_byid (fun _ => True) ds t)).
    - pose proof (ok_read_byid ds t (ok_deltas Hok)) as Hr. rewrite find_id_qualify by by apply (read_tiers_ok t_byid).
      rewrite (newest_read t_byid eq_refl) by done. by rewrite !(selected_all t_byid).
    - rewrite <- flat_read_tiers. apply flat_map_ext. intros [k x]. cbn [fst snd]. f_equal. apply filter_all. }
  by rewrite Hfind.
Qed.
Lemma alive_is_current t r : r ∈ alive_tier_rows d t -> current byid_rows_of ds t (b_id r) = Some r.
Proof. intros (n & Hn & Ho)%alive_tier_spec. unfold current. by rewrite Hn. Qed.
(** The row by id of an element is in the base files or a row of the tiers. *)
Lemma current_base_or_tier t i r : current byid_rows_of ds t i = Some r -> r ∈ byid_rows_of t \/ r ∈ alive_tier_rows d t /\ has_tiers d = true.
Proof.
  intros Hr. destruct (newest_row ds t i) as [n|] eqn:En.
  - right. destruct (copy_current t i (to_row (type_name t) true (default r (current_row t i)))) as (r' & Hr' & _ & Hid).
    { rewrite dataset_db_type. pose proof (copies_agree t i) as Hc. rewrite Hr in Hc. by destruct (current_row t i). }
    rewrite Hr in Hr'. injection Hr' as <-. split.
    + apply alive_tier_spec. exists n. rewrite Hid. split; [done|]. unfold current in Hr. by rewrite En in Hr.
    + destruct (has_tiers d) eqn:Et; [done|]. pose proof (no_tiers_newest t i Et) as Hs. unfold has_tiers in Et.
      unfold newest_row, found, layer in En. unfold DeltaRead.delta_tiers in Et. by destruct (hour ds), (day ds), (week ds).
  - left. unfold current in Hr. rewrite En in Hr. by apply find_id_Some in Hr as [? _].
Qed.

Lemma way_refers (r : file_row G) x j : same_element x (to_row WAY false r) -> refers x (NODE, j) <-> j ∈ default [] (f_refs (b_data r)).
Proof.
  intros Hs. rewrite Hs. unfold refers. cbn [to_row s_type s_refs s_members fst snd]. rewrite str_eqb_refl. split.
  - intros [(_ & _ & l & -> & Hj)|(E & _)]; [done|distinct_types].
  - intros Hj. left. split_and!; [done..|]. destruct (f_refs (b_data r)) as [l|]; [by exists l|by inversion Hj].
Qed.
Lemma relation_refers (r : file_row G) x role t j : same_element x (to_row RELATION false r) ->
  refers_as role x (t, j) <-> exists m, m ∈ default [] (f_members (b_data r)) /\ has_role role (m_role m) = true /\
    member_type (m_type m) = Some t /\ m_ref m = j.
Proof.
  intros Hs. pose proof (s_type_proper _ _ Hs) as Ht. pose proof (s_members_proper _ _ Hs) as Hm. unfold refers_as. rewrite Ht, Hm. cbn [fst snd to_row s_type s_members].
  change ((RELATION =s NODE) || (RELATION =s WAY)) with false. cbn iota. split.
  - intros [(E & _)|(_ & ms & m & -> & ? & ? & ? & ?)]; [by vm_compute in E|]. by exists m.
  - intros (m & Hin & ? & ? & ?). right. split; [done|]. destruct (f_members (b_data r)) as [ms|]; [|by inversion Hin]. by exists ms, m.
Qed.

Lemma node_way_parents i ids : exists o o',
  Sources.node_way_rows d (Some (min_of i ids)) (Some (max_of i ids)) = Ok o /\
  Ok (Sources.delta_way_ids_by_ref d (remove_dups (i :: ids))) = Ok o' /\
  (forall n w, (n, w) ∈ default [] o -> dataset_indexed None (WAY, w) (NODE, n)) /\
  (forall k, k ∈ hop_keys o' -> exists x j, find_row dataset_db k = Some x /\ j ∈ i :: ids /\ k.1 = WAY /\ refers x (NODE, j)) /\
  (forall w x j, dataset_db WAY w = Some x -> j ∈ i :: ids -> refers x (NODE, j) -> (j, w) ∈ default [] o \/ (WAY, w) ∈ hop_keys o').
Proof.
  destruct (ok_node_way_parts Hok) as (ps & Eps & Hps).
  destruct (range_parts (node_way_file d) fst ps (min_of i ids) (max_of i ids) Hps) as (parts & Er & Ep & Hsub & Hin).
  exists (match map file_of parts with [] => None | fs => Some (flat_map (node_way_file d) fs) end), (Sources.delta_way_ids_by_ref d (remove_dups (i :: ids))).
  set (o := match map file_of parts with [] => None | _ => _ end).
  assert (Ho : forall y, y ∈ default [] o <-> y ∈ flat_map (node_way_file d) (map file_of parts)) by (unfold o; by destruct (map file_of parts)).
  assert (Hdelta : forall k, k ∈ hop_keys (Sources.delta_way_ids_by_ref d (remove_dups (i :: ids))) <->
    has_tiers d = true /\ exists r j, k = (WAY, b_id r) /\ r ∈ alive_tier_rows d TWay /\ j ∈ i :: ids /\ j ∈ default [] (f_refs (b_data r))).
  { intros k. unfold hop_keys, Sources.delta_way_ids_by_ref. generalize (alive_tier_rows d TWay). intros alive. destruct (has_tiers d); cbn [default]; [|split; [by intros ?%elem_of_nil|by intros [[=] _]]].
    rewrite elem_of_map. setoid_rewrite elem_of_remove_dups. setoid_rewrite elem_of_map. setoid_rewrite list_elem_of_filter.
    setoid_rewrite existsb_exists. setoid_rewrite mem_spec. setoid_rewrite <- list_elem_of_In. split.
    - intros (y & -> & r & -> & (j & Hj & Hm) & Hr). split; [done|]. exists r, j. apply (elem_of_remove_dups (i :: ids)) in Hm. by split_and!.
    - intros (_ & r & j & -> & Hr & Hj & Hjr). eexists. split; [|exists r; split; [reflexivity|]; split; [exists j; split; [done|by apply elem_of_remove_dups]|done]]. done. }
  split_and!.
  - unfold Sources.node_way_rows, index_parts_for_range. change (Sources.man d) with man. rewrite Eps. cbn [res_bind]. rewrite Er. cbn [res_bind]. rewrite Ep. cbn [res_bind]. unfold o. by destruct (map file_of parts).
  - done.
  - intros n w Hnw%Ho. left. exists n, w. split_and!; [done..|]. unfold node_way_all. rewrite Eps. apply elem_of_flat_map in Hnw as (f & (p & -> & Hp)%elem_of_map & Hf).
    apply elem_of_flat_map. exists (file_of p). split; [|done]. apply elem_of_map_2. by apply (elem_of_sublist _ _ _ Hp Hsub).
  - intros k (_ & r & j & -> & Hr & Hj & Hjr)%Hdelta. apply alive_is_current in Hr. destruct (current_copy _ _ _ Hr) as (x & Hx & Hs & _).
    exists x, j. split_and!; [exact Hx|done|done|]. by apply (way_refers r).
  - intros w x j Hx Hj Href. destruct (copy_current TWay w x Hx) as (r & Hr & Hs & Hid). apply (way_refers r x j Hs) in Href.
    destruct (current_base_or_tier _ _ _ Hr) as [Hb|[Ha Ht]].
    + left. apply Ho. pose proof (ok_node_way Hok r j Hb Href) as Hin'. rewrite Hid in Hin'. unfold node_way_all in Hin'. rewrite Eps in Hin'.
      apply elem_of_flat_map in Hin' as (f & (p & -> & Hp)%elem_of_map & Hf). apply elem_of_flat_map. exists (file_of p). split; [|done].
      apply elem_of_map_2, (Hin p (j, w)); [done|done|]. by apply in_range_of.
    + right. apply Hdelta. split; [done|]. exists r, j. rewrite Hid. by split_and!.
Qed.
Lemma member_parents : exists o, Sources.member_rows d = Ok o /\
  (forall x t role, x ∈ default [] o -> member_type (x_type x) = Some t -> has_role role (x_role x) = true ->
     dataset_indexed role (RELATION, x_parent x) (t, x_id x)) /\
  (forall t c ids role, (t, c) ∈ member_type_char -> exists o',
     Ok (Sources.delta_relation_ids_by_member d c ids role) = Ok o' /\
     (forall k, k ∈ hop_keys o' -> exists x j, find_row dataset_db k = Some x /\ j ∈ ids /\ k.1 = RELATION /\ refers_as role x (t, j)) /\
     (forall p x j, dataset_db RELATION p = Some x -> j ∈ ids -> refers_as role x (t, j) ->
        (exists y, y ∈ default [] o /\ x_type y = c /\ x_id y = j /\ x_parent y = p /\ has_role role (x_role y) = true) \/
        (RELATION, p) ∈ hop_keys o')).
Proof.
  destruct (ok_member_parts Hok) as (ps & Eps & Hps). exists (match map file_of ps with [] => None | fs => Some (flat_map (member_file d) fs) end).
  set (o := match map file_of ps with [] => None | _ => _ end).
  assert (Ho : default [] o = member_all) by (unfold o, member_all; rewrite Eps; by destruct (map file_of ps)). split_and!.
  - unfold Sources.member_rows. change (Sources.man d) with man. rewrite Eps. cbn [res_bind].
    unfold parts_paths. rewrite (res_mapM_total _ file_of); [unfold o; by destruct (map file_of ps)|]. intros p Hp.
    pose proof (proj1 (Forall_forall _ _) Hps p Hp) as (f & _ & _ & Hf & _). unfold file_of. change (Sources.man d) with man. by rewrite Hf.
  - intros x t role Hx Ht Hr. rewrite Ho in Hx. right. by exists x, t.
  - intros t c ids role Htc%member_char_spec. exists (Sources.delta_relation_ids_by_member d c ids role). split; [done|].
    assert (Hc : forall s, member_type s = Some t -> s = c).
    { intros s Hs. apply member_type_inv in Hs, Htc. pose proof NODE_WAY. pose proof NODE_RELATION. pose proof WAY_RELATION.
      destruct Hs as [[-> ->]|[[-> ->]|[-> ->]]], Htc as [[-> ?]|[[-> ?]|[-> ?]]]; done. }
    assert (Hdelta : forall k, k ∈ hop_keys (Sources.delta_relation_ids_by_member d c ids role) <->
      has_tiers d = true /\ exists r m, k = (RELATION, b_id r) /\ r ∈ alive_tier_rows d TRelation /\ m ∈ default [] (f_members (b_data r)) /\
        has_role role (m_role m) = true /\ member_type (m_type m) = Some t /\ m_ref m ∈ ids).
    { intros k. unfold hop_keys, Sources.delta_relation_ids_by_member. generalize (alive_tier_rows d TRelation). intros alive.
      destruct (has_tiers d); cbn [default]; [|split; [by intros ?%elem_of_nil|by intros [[=] _]]].
      rewrite elem_of_map. setoid_rewrite elem_of_remove_dups. setoid_rewrite elem_of_map. setoid_rewrite list_elem_of_filter.
      setoid_rewrite existsb_exists. setoid_rewrite andb_true_iff. setoid_rewrite andb_true_iff. setoid_rewrite mem_spec. setoid_rewrite str_eqb_eq. setoid_rewrite <- list_elem_of_In. split.
      - intros (y & -> & r & -> & (m & Hm & [Ht Hi] & Hr) & Hrin). split; [done|]. exists r, m. rewrite Ht. by split_and!.
      - intros (_ & r & m & -> & Hr & Hm & Hrole & Ht & Hi). eexists. split; [|exists r; split; [reflexivity|]; split; [exists m; split_and!; [done|by apply Hc|done|done]|done]]. done. }
    split.
    + intros k (_ & r & m & -> & Hr & Hm & Hrole & Ht & Hi)%Hdelta. apply alive_is_current in Hr. destruct (current_copy _ _ _ Hr) as (x & Hx & Hs & _).
      exists x, (m_ref m). split_and!; [exact Hx|done|done|]. apply (relation_refers r); [done|]. by exists m.
    + intros p x j Hx Hj Href. destruct (copy_current TRelation p x Hx) as (r & Hr & Hs & Hid). destruct (proj1 (relation_refers r x role t j Hs) Href) as (m & Hm & Hrole & Ht & Hmj).
      destruct (current_base_or_tier _ _ _ Hr) as [Hb|[Ha Htiers]].
      * left. destruct (ok_member Hok r m Hb Hm) as (y & Hy & Hyt & Hyi & Hyr & Hyp). exists y. rewrite Ho. split_and!; [done| |congruence|congruence|congruence].
        rewrite Hyt. by apply Hc.
      * right. apply Hdelta. split; [done|]. exists r, m. rewrite Hid, Hmj. by split_and!.
Qed.

Lemma node_position i x : dataset_db NODE i = Some x -> exists r lat lon, current_row TNode i = Some r /\ f_lat_e7 (b_data r) = Some lat /\
  f_lon_e7 (b_data r) = Some lon /\ s_lat_e7 x = Some lat /\ s_lon_e7 x = Some lon /\ int32 lat /\ int32 lon.
Proof.
  change NODE with (type_name TNode). rewrite dataset_db_type. destruct (current_row TNode i) as [r|] eqn:E; [|done]. intros [= <-].
  destruct (ok_int32 Hok TNode i r E) as (lat & lon & Elat & Elon & ? & ?). exists r, lat, lon. split_and!; done.
Qed.

Lemma omap_some {A B} (f : A -> option B) (g : A -> B) l : (forall x, x ∈ l -> f x = Some (g x)) -> omap f l = map g l.
Proof.
  induction l as [|x l IH]; intros Hf; [done|]. cbn [omap list_omap map]. rewrite Hf by left. f_equal. apply IH. intros y Hy. apply Hf. by right.
Qed.

Lemma node_box nodes b : (forall s, s ∈ nodes -> l_type s = NODE /\ node_known dataset_db s) -> bbox_from_points_e7 nodes = Some b ->
  exists x0 y0 x1 y1, b = (e7_to_degrees y0, e7_to_degrees x0, e7_to_degrees y1, e7_to_degrees x1) /\ int32 x0 /\ int32 y0 /\ int32 x1 /\ int32 y1 /\
    forall s, s ∈ nodes -> exists n lat lon, current_row TNode (l_id s) = Some n /\ f_lat_e7 (b_data n) = Some lat /\ f_lon_e7 (b_data n) = Some lon /\
      x0 <= lon <= x1 /\ y0 <= lat <= y1.
Proof.
  intros Hn. assert (Hpos : forall s, s ∈ nodes -> exists n lat lon, current_row TNode (l_id s) = Some n /\ f_lat_e7 (b_data n) = Some lat /\
    f_lon_e7 (b_data n) = Some lon /\ l_lat s = Some lat /\ l_lon s = Some lon /\ int32 lat /\ int32 lon).
  { intros s Hs. destruct (Hn s Hs) as [Ht Hk]. destruct (Hk Ht) as (x & Hx & E1 & E2).
    destruct (node_position _ _ Hx) as (n & lat & lon & ? & ? & ? & E3 & E4 & ? & ?). exists n, lat, lon. split_and!; congruence. }
  set (lat s := default 0 (l_lat s)). set (lon s := default 0 (l_lon s)).
  unfold bbox_from_points_e7. rewrite (omap_some _ lat), (omap_some _ lon).
  2,3: intros s Hs; destruct (Hpos s Hs) as (n & la & lo & _ & _ & _ & E1 & E2 & _); unfold lat, lon; by rewrite ?E1, ?E2.
  destruct nodes as [|s0 ss]; [done|]. cbn [map]. intros [= <-].
  exists (min_of (lon s0) (map lon ss)), (min_of (lat s0) (map lat ss)), (max_of (lon s0) (map lon ss)), (max_of (lat s0) (map lat ss)).
  assert (Hint : forall f : located -> Z, (forall s, s ∈ s0 :: ss -> int32 (f s)) -> int32 (min_of (f s0) (map f ss)) /\ int32 (max_of (f s0) (map f ss))).
  { intros f Hf. pose proof (min_of_in (f s0) (map f ss)) as Hmin. pose proof (max_of_in (f s0) (map f ss)) as Hmax.
    change (f s0 :: map f ss) with (map f (s0 :: ss)) in *. apply elem_of_map in Hmin as (x & -> & Hx), Hmax as (y & -> & Hy). auto. }
  destruct (Hint lon) as [? ?]; [intros s Hs; destruct (Hpos s Hs) as (n & la & lo & _ & _ & _ & _ & E & _ & ?); unfold lon; by rewrite E|].
  destruct (Hint lat) as [? ?]; [intros s Hs; destruct (Hpos s Hs) as (n & la & lo & _ & _ & _ & E & _ & ? & _); unfold lat; by rewrite E|].
  split_and!; [done..|]. intros s Hs. destruct (Hpos s Hs) as (n & la & lo & Hcur & E1 & E2 & E3 & E4 & _). exists n, la, lo. do 3 (split; [done|]). split.
  - assert (Hin : lo ∈ lon s0 :: map lon ss). { replace lo with (lon s) by (unfold lon; by rewrite E4). change (lon s0 :: map lon ss) with (map lon (s0 :: ss)). by apply elem_of_map_2. }
    by apply in_range_of.
  - assert (Hin : la ∈ lat s0 :: map lat ss). { replace la with (lat s) by (unfold lat; by rewrite E3). change (lat s0 :: map lat ss) with (map lat (s0 :: ss)). by apply elem_of_map_2. }
    by apply in_range_of.
Qed.
Lemma semijoin nodes b : (forall s, s ∈ nodes -> l_type s = NODE /\ node_known dataset_db s) -> bbox_from_points_e7 nodes = Some b ->
  reads_rows (Sources.build_way_bbox_semijoin_select d None (remove_dups (map l_id nodes)) b) (fun o =>
    match o with
    | Some rows => exact dataset_db WAY (fun _ x => exists s, s ∈ nodes /\ refers x (NODE, l_id s)) rows
    | None => True
    end).
Proof.
  intros Hn Hb. destruct (node_box nodes b Hn Hb) as (x0 & y0 & x1 & y1 & -> & ? & ? & ? & ? & Hpos). set (b := (_, _, _, _) : BBox) in *.
  unfold Sources.build_way_bbox_semijoin_select. cbv beta iota. change WAY with (type_name TWay). change (Sources.man d) with man.
  destruct (ok_cells Hok TWay (Some b)) as [cells Ec]. rewrite Ec. cbn [res_bind].
  destruct (few_cells_total cells) as [few Ef]. rewrite Ef. cbn [res_bind]. destruct few; cbn [negb]; [|by apply reads_rows_ret].
  assert (Eq : bbox_e7 b = Ok (x0, y0, x1, y1)) by by apply bbox_e7_degrees. rewrite Eq. cbn [res_bind].
  pose proof (cells_nodup _ _ _ Ec) as Hnd. destruct (read_files_spec TWay true cells Hnd) as (files & Efiles & Hfs & _ & Hu).
  change (read_files TWay true cells) with (flat_files d (type_name TWay) cells) in Efiles. rewrite Efiles. cbn [res_bind].
  destruct (prune_spec TWay files (x0, y0, x1, y1)) as (out & Ep & Hsub & _).
  { intros f Hf. destruct (Hfs f Hf) as (c & _ & ?). by exists c. }
  rewrite Ep. cbn [res_bind].
  assert (Hoff : forall w x s r, dataset_db WAY w = Some x -> s ∈ nodes -> refers x (NODE, l_id s) -> current_row TWay w = Some r ->
    in_box TWay (x0, y0, x1, y1) r = true /\ cell_in cells (b_cell r) = true /\ (snewest ds TWay w = None -> r ∈ flat_map (spatial_file d) out)).
  { intros w x s r Hx Hs Href Hr. change WAY with (type_name TWay) in Hx. rewrite dataset_db_type, Hr in Hx. injection Hx as <-.
    assert (Hj : l_id s ∈ default [] (f_refs (b_data r))) by (by apply (way_refers r (to_row WAY true r) (l_id s))).
    destruct (Hpos s Hs) as (n & lat & lon & Hcur & Elat & Elon & Hlon & Hlat).
    destruct (ok_way_boxes Hok w r _ n lat lon Hr Hj Hcur Elat Elon) as (bx0 & by0 & bx1 & by1 & Ebox & Hbx & Hby).
    assert (Hin : in_box TWay (x0, y0, x1, y1) r = true) by (cbn; rewrite Ebox, !andb_true_iff, !Z.leb_le; lia).
    assert (Hc : cell_in cells (b_cell r) = true) by (by apply (ok_covers Hok TWay w r x0 y0 x1 y1 cells)).
    split_and!; [done|done|]. intros Hnone. apply (base_row_read TWay true cells files (x0, y0, x1, y1) [] w r Hnd Efiles Hc Hr Hnone); [done|done|done|by left|by right]. }
  destruct (nothing_to_read d None out) eqn:En.
  { apply reads_rows_ret. split; [by intros r ?%elem_of_nil|]. intros w x Hx (s & Hs & Href). exfalso.
    unfold nothing_to_read in En. destruct out as [|? ?]; [|done]. apply negb_true_iff in En.
    pose proof Hx as Hx'. rewrite dataset_db_type in Hx'. destruct (current_row TWay w) as [r|] eqn:Er; [|done].
    destruct (Hoff w x s r Hx Hs Href Er) as (_ & _ & Hin). specialize (Hin (no_tiers_newest TWay w En)). by inversion Hin. }
  destruct (current_read TWay cells out (fun r => box_in (x0, y0, x1, y1) (f_box (b_data r)) && tag_where d [] r)) as (rows & n & E & R1 & R2).
  { intros f Hf. apply Hfs. by apply (elem_of_sublist _ _ _ Hf Hsub). }
  { eapply unique_sublist; [|exact Hu]. by apply flat_map_sublist. }
  rewrite E. eexists _, _. split; [reflexivity|]. cbn beta. set (cand := map (to_row WAY true) rows).
  assert (Hcand : forall x, x ∈ cand -> dataset_db (type_name TWay) (s_id x) = Some x).
  { intros x (r & -> & Hr)%elem_of_map. destruct (R1 r Hr) as (_ & _ & Hcur). change (s_id (to_row WAY true r)) with (b_id r). by rewrite dataset_db_type, Hcur. }
  assert (Hhit : forall x, x ∈ cand -> existsb (fun i => mem i (remove_dups (map l_id nodes))) (default [] (s_refs x)) = true <-> exists s, s ∈ nodes /\ refers x (NODE, l_id s)).
  { intros x (r & -> & Hr)%elem_of_map. rewrite existsb_exists. setoid_rewrite <- list_elem_of_In. setoid_rewrite mem_spec. setoid_rewrite elem_of_remove_dups.
    assert (Href : forall j, refers (to_row WAY true r) (NODE, j) <-> j ∈ default [] (f_refs (b_data r))) by (intros; by apply way_refers).
    setoid_rewrite Href. change (s_refs (to_row WAY true r)) with (f_refs (b_data r)). split.
    - intros (j & Hj & (s & -> & Hs)%elem_of_map). by exists s.
    - intros (s & Hs & Hj). exists (l_id s). split; [done|]. by apply elem_of_map_2. }
  split.
  - intros x [Hm Hx]%list_elem_of_filter. apply mem_spec, elem_of_map in Hm as (y & Hid & [Hy Hyc]%list_elem_of_filter).
    exists x. split_and!; [by apply Hcand|done|]. apply Hhit; [done|]. pose proof (Hcand x Hx) as E1. pose proof (Hcand y Hyc) as E2. rewrite <- Hid, E1 in E2. by injection E2 as ->.
  - intros w x Hx (s & Hs & Href). pose proof Hx as Hx'. rewrite dataset_db_type in Hx'. destruct (current_row TWay w) as [r|] eqn:Er; [|done]. injection Hx' as <-.
    destruct (Hoff w _ s r Hx Hs Href Er) as (Hbox & Hc & Hin). assert (Hr : r ∈ rows).
    { apply (R2 w r Er); [|done|done]. apply andb_true_iff. split; [done|]. by rewrite (tag_where_keeps WAY true) by (done || apply (ok_columns Hok TWay w); by left). }
    exists (to_row WAY true r). split; [|done]. assert (Hxc : to_row WAY true r ∈ cand) by by apply elem_of_map_2.
    apply list_elem_of_filter. split; [|done]. apply mem_spec, elem_of_map_2, list_elem_of_filter. split; [|done]. apply Hhit; [done|]. by exists s.
Qed.

Lemma dataset_parents : ParentLaws G dataset_db dataset_indexed.
Proof. split; [exact semijoin|exact node_way_parents|exact member_parents]. Qed.

(** The dataset is a row source the planner can run on. *)
Lemma dataset_current : CurrentData G dataset_db dataset_inside dataset_indexed.
Proof.
  split; [exact dataset_laws|exact dataset_parents|exact (ok_index_current Hok)|done|exact dataset_scan].
Qed.
End Laws.
End Dataset.

(** * A small dataset *)
#[local] Existing Instance latin1_db.
#[local] Existing Instance sample_duckdb.
#[local] Existing Instance id_renderer.
#[local] Existing Instance no_areas.
(** The only geometry is a line whose box is that of the way. *)
#[local] Instance line_space : Spatial unit :=
  fun _ b => match bbox_e7 b with Ok q => box_in q (Some (0, 0, 5, 5)) | Raise _ => false end.

Definition ROOT_CELL : pystr := u "root".
Definition json_part (p : pystr) (lo hi : Z) : json := JObj [(u "path", JStr p); (u "min_id", JInt lo); (u "max_id", JInt hi)].
Definition node_cells : list (pystr * json) := [(ROOT_CELL, JObj [(u "tagged", JObj []); (u "untagged", JObj [(u "path", JStr (u "n"))])])].
Definition way_cells : list (pystr * json) := [(ROOT_CELL, JObj [(u "path", JStr (u "w"))])].
Definition small_manifest : Catalog.Manifest := Catalog.Build_Manifest (u "/d") (JObj [
  (u "manifest_version", JInt 3); (u "ancestor_depths", JList []); (u "leaf_cells", JList [JStr ROOT_CELL]);
  (u "tables", JObj [(u "node", JObj [(u "cells", JObj node_cells)]); (u "way", JObj [(u "cells", JObj way_cells)])]);
  (u "byid", JObj [(u "node", JList [json_part (u "bn") 1 2]); (u "way", JList [json_part (u "bw") 10 10])]);
  (u "index", JObj [(u "node_way", JList [json_part (u "nw") 1 2])]);
  (u "deltas", JObj [(u "hour", JObj [(u "cells", JObj [(u "node", JList [JStr ROOT_CELL])])])])]).

Definition columns (lat lon : option Z) (refs : option (list Z)) (tags : option (list (pystr * pystr))) (b : option box) : file_columns unit := {|
  f_lat_e7 := lat; f_lon_e7 := lon; f_refs := refs; f_members := None; f_tags := tags; f_promoted := [];
  f_version := Some 1; f_changeset := None; f_timestamp := None; f_uid := None; f_user := None;
  f_box := b; f_geometry := match b with Some _ => Some () | None => None end; f_hilbert := None |}.
Definition in_root (i : Z) (c : file_columns unit) : file_row unit := {| b_id := i; b_cell := Some ROOT_CELL; b_data := c |}.
Definition node1 : file_row unit := in_root 1 (columns (Some 0) (Some 0) None None None).
Definition node2_old : file_row unit := in_root 2 (columns (Some 9) (Some 9) None None None).
Definition node2_new : file_columns unit := columns (Some 5) (Some 5) None None None.
Definition way10 : file_row unit := in_root 10 (columns None None (Some [1; 2]) (Some [(u "highway", u "primary")]) (Some (0, 0, 5, 5))).

(** Node 2 has moved within its cell; the hour tier has its new row. *)
Definition node2_delta : delta_row (file_columns unit) :=
  {| r_id := 2; r_cell := Some ROOT_CELL; data := node2_new; deleted := false; prev_cell := Some ROOT_CELL; r_seq := 7 |}.
Definition hour_tier : Tiers.tier (file_columns unit) (file_columns unit) := {|
  version := 1; seq_from := Some 7; seq_to := Some 7; timestamp := None;
  rows t := match t with TNode => 1 | _ => 0 end; cells t := match t with TNode => [ROOT_CELL] | _ => [] end;
  files t := match t with TNode => {| t_byid := [node2_delta]; t_spatial := [node2_delta] |} | _ => no_tables end;
  tombstones := [] |}.
Definition at_path {A} (name : pystr) (l : list A) (f : pystr) : list A := if f =s Catalog.path small_manifest name then l else [].
Definition small_dataset : dataset unit := {|
  d_manifest := small_manifest; d_deltas := {| hour := Some hour_tier; day := None; week := None |};
  spatial_file f := at_path (u "n") [node1; node2_old] f ++ at_path (u "w") [way10] f;
  byid_file f := at_path (u "bn") [node1; node2_old] f ++ at_path (u "bw") [way10] f;
  history_file _ := []; node_way_file := at_path (u "nw") [(1, 10); (2, 10)]; member_file _ := [];
  rowgroup_file _ := None; promoted := []; tier_loads := 1 |}.

Example small_refs : RowSources.build_byid_select (RowSources := dataset_sources small_dataset) None NODE [1; 2; 3] [] =
  Ok ([to_row NODE false node1; to_row NODE false (in_root 2 node2_new)], 1).
Proof. vm_compute. reflexivity. Qed.

(** ** It is well formed *)
Lemma small_tables t : table_cells small_manifest (type_name t) = Ok (JObj match t with TNode => node_cells | TWay => way_cells | TRelation => [] end).
Proof. destruct t; by vm_compute. Qed.
Lemma get_or_none_obj o k : get_or_none (JObj o) k = Ok (default JNull (dict_get k o)).
Proof. done. Qed.
Lemma small_node_files part c : exists fs, _node_files small_dataset [c] part = Ok fs.
Proof.
  unfold _node_files. change (Sources.man small_dataset) with small_manifest. change NODE with (type_name TNode). rewrite small_tables. cbn [res_bind].
  rewrite res_flat_map_cons. unfold get_default, Json.get, items, node_cells. cbn [res_map dict_get].
  destruct (ROOT_CELL =s c); cbn [default Datatypes.id res_bind]; [|by exists []].
  rewrite get_or_none_obj. cbn [dict_get]. destruct (u "tagged" =s part); [by exists []|].
  destruct (u "untagged" =s part); [|by exists []]. exists [Catalog.path small_manifest (u "n")]. by vm_compute.
Qed.
Lemma small_flat_files t c : t <> TNode -> exists fs, flat_files small_dataset (type_name t) [c] = Ok fs.
Proof.
  intros Ht. unfold flat_files. change (Sources.man small_dataset) with small_manifest. rewrite small_tables. cbn [res_bind]. rewrite res_flat_map_cons.
  unfold contains, way_cells. destruct t; [done| |]; cbn [dict_get res_bind]; [|by exists []].
  destruct (ROOT_CELL =s c) eqn:E; cbn [res_bind]; [|by exists []]. unfold getitem. cbn [dict_get]. rewrite E.
  exists [Catalog.path small_manifest (u "w")]. by vm_compute.
Qed.
Definition small_paths (t : etype) : list pystr :=
  match t with TNode => [Catalog.path small_manifest (u "n")] | TWay => [Catalog.path small_manifest (u "w")] | TRelation => [] end.
Lemma small_cell_paths t c : cell_paths small_dataset t c = if ROOT_CELL =s c then small_paths t else [].
Proof.
  destruct (ROOT_CELL =s c) eqn:E.
  - apply str_eqb_eq in E as <-. destruct t; by vm_compute.
  - destruct t; cbn [cell_paths].
    + unfold node_part, _node_files. change (Sources.man small_dataset) with small_manifest. change NODE with (type_name TNode). rewrite small_tables.
      cbn [res_bind]. rewrite !res_flat_map_cons. unfold get_default, Json.get, items, node_cells. cbn [res_map dict_get]. by rewrite E.
    + unfold flat_files. change (Sources.man small_dataset) with small_manifest. rewrite (small_tables TWay). cbn [res_bind]. rewrite res_flat_map_cons.
      unfold contains, way_cells. cbn [dict_get]. by rewrite E.
    + unfold flat_files. change (Sources.man small_dataset) with small_manifest. rewrite (small_tables TRelation). cbn [res_bind]. by rewrite res_flat_map_cons.
Qed.
Definition small_spatial (t : etype) : list (file_row unit) := match t with TNode => [node1; node2_old] | TWay => [way10] | TRelation => [] end.
Lemma small_cell_rows t c : cell_rows small_dataset t c = if ROOT_CELL =s c then small_spatial t else [].
Proof. unfold cell_rows. rewrite small_cell_paths. destruct (ROOT_CELL =s c); [|done]. destruct t; by vm_compute. Qed.
Lemma small_rows t : spatial_rows_of small_dataset t = small_spatial t /\ byid_rows_of small_dataset t = small_spatial t.
Proof. destruct t; split; by vm_compute. Qed.
Definition small_now (t : etype) : list (file_row unit) :=
  match t with TNode => [node1; in_root 2 node2_new] | TWay => [way10] | TRelation => [] end.
Lemma small_find i : find_id i [node2_delta] = if 2 =? i then Some node2_delta else None.
Proof. done. Qed.
Lemma small_found t m i : m = hour (d_deltas small_dataset) \/ m = day (d_deltas small_dataset) \/ m = week (d_deltas small_dataset) ->
  (found m t i = None /\ sfound t m i = None) \/
  (t = TNode /\ i = 2 /\ found m t i = Some node2_delta /\ sfound t m i = Some node2_delta).
Proof.
  intros [->|[->| ->]]; [|by left|by left]. destruct t; [|by left|by left].
  unfold found, sfound. cbn [layer hour small_dataset d_deltas hour_tier files t_byid t_spatial]. rewrite small_find.
  destruct (Z.eqb_spec 2 i) as [<-|]; [by right|by left].
Qed.
Lemma small_newest t i :
  let r := if bool_decide (t = TNode) && (2 =? i) then Some node2_delta else None in
  snewest (d_deltas small_dataset) t i = r /\ newest_row (d_deltas small_dataset) t i = r /\ oldest_row (d_deltas small_dataset) t i = r.
Proof.
  intros r. unfold snewest, newest_row, oldest_row, found, sfound. destruct t; [|by repeat split|by repeat split].
  cbn [layer hour day week small_dataset d_deltas hour_tier files t_byid t_spatial]. rewrite small_find.
  subst r. change (bool_decide (TNode = TNode)) with true. cbn [andb]. by destruct (2 =? i).
Qed.
Lemma small_current_rows t i : current_row small_dataset t i = find_id i (small_now t) /\ current (byid_rows_of small_dataset) (d_deltas small_dataset) t i = find_id i (small_now t).
Proof.
  unfold current_row, scurrent, current. pose proof (small_newest t i) as (-> & -> & _). pose proof (small_rows t) as [-> ->].
  destruct t; [|by split|by split]. cbn [small_spatial small_now find_id id_of].
  change (bool_decide (TNode = TNode)) with true. cbn [andb]. destruct (Z.eqb_spec 2 i) as [<-|E]; [done|].
  change (id_of node1) with 1. change (id_of node2_old) with 2. change (id_of (in_root 2 node2_new)) with 2.
  destruct (2 =? i) eqn:E2; [lia|]. by destruct (1 =? i).
Qed.
Lemma small_elements t i r : current_row small_dataset t i = Some r \/ current (byid_rows_of small_dataset) (d_deltas small_dataset) t i = Some r ->
  t = TNode /\ (r = node1 \/ r = in_root 2 node2_new) \/ t = TWay /\ r = way10.
Proof.
  pose proof (small_current_rows t i) as [-> ->]. intros X. assert (E : find_id i (small_now t) = Some r) by tauto.
  apply find_id_Some in E as [E _]. destruct t; cbn [small_now] in E; rewrite ?elem_of_cons, ?elem_of_nil in E; naive_solver.
Qed.

Lemma small_bbox_cells t b : CellSelect.cells_for_bbox small_manifest (type_name t) (Some b) =
  Ok (if bbox_intersects b WORLD_BBOX then match t with TRelation => [] | _ => [ROOT_CELL] end else []).
Proof.
  assert (E : leaves_intersecting small_manifest b = Ok (if bbox_intersects b WORLD_BBOX then [ROOT_CELL] else [])).
  { unfold leaves_intersecting. replace (leaf_cells small_manifest) with (Ok [ROOT_CELL]) by by vm_compute. done. }
  unfold CellSelect.cells_for_bbox, _cells_for_present. rewrite E. by destruct (bbox_intersects b WORLD_BBOX), t; vm_compute.
Qed.
Lemma degrees_sign v : int32 v -> v <> 0 -> exists p e, e7_to_degrees v = S754_finite (v <? 0) p e.
Proof.
  intros Hv Hn. unfold int32 in Hv. destruct v as [|p|p]; [done|..]; destruct (float_of_pos_exact p) as (m & k & E & Hk & Hm); try lia.
  - unfold e7_to_degrees. rewrite E. destruct (degrees_near false m k (Zpos p)) as (q & e & -> & _); [lia..|]. by exists q, e.
  - change (float_of_Z (Zneg p)) with (binary_round 53 1024 true p 0). unfold e7_to_degrees.
    change (float_of_Z (Zneg p)) with (binary_round 53 1024 true p 0). rewrite round_sign.
    change (binary_round 53 1024 false p 0) with (float_of_Z (Zpos p)). rewrite E. cbn [fopp SFopp negb].
    destruct (degrees_near true m k (Zpos p)) as (q & e & -> & _); [lia..|]. by exists q, e.
Qed.
Lemma degrees_le v : int32 v -> v <= 5 -> fleb (e7_to_degrees v) (float_of_Z 90) = true /\ fleb (e7_to_degrees v) (float_of_Z 180) = true.
Proof.
  intros Hv H5. destruct (decide (v < 0)) as [E|E].
  - destruct (degrees_sign v Hv) as (p & e & ->); [lia|]. by replace (v <? 0) with true by lia.
  - assert (O : v = 0 \/ v = 1 \/ v = 2 \/ v = 3 \/ v = 4 \/ v = 5) by lia. by destruct O as [->|[->|[->|[->|[->| ->]]]]]; vm_compute.
Qed.
Lemma degrees_ge v : int32 v -> 0 <= v -> fleb (float_of_Z (-90)) (e7_to_degrees v) = true /\ fleb (float_of_Z (-180)) (e7_to_degrees v) = true.
Proof.
  intros Hv H0. destruct (decide (v = 0)) as [->|E]; [by vm_compute|].
  destruct (degrees_sign v Hv E) as (p & e & ->). by replace (v <? 0) with false by lia.
Qed.
Lemma small_in_world x0 y0 x1 y1 : int32 x0 -> int32 y0 -> int32 x1 -> int32 y1 -> x0 <= 5 -> y0 <= 5 -> 0 <= x1 -> 0 <= y1 ->
  bbox_intersects (e7_to_degrees y0, e7_to_degrees x0, e7_to_degrees y1, e7_to_degrees x1) WORLD_BBOX = true.
Proof.
  intros X0 Y0 X1 Y1 Lx Ly Gx Gy. unfold bbox_intersects, WORLD_BBOX. rewrite (proj1 (degrees_le y0 Y0 Ly)), (proj2 (degrees_le x0 X0 Lx)), (proj1 (degrees_ge y1 Y1 Gy)), (proj2 (degrees_ge x1 X1 Gx)).
  done.
Qed.

Lemma all_between {A} (key : A -> Z) lo hi l : forallb (fun r => (lo <=? key r) && (key r <=? hi)) l = true -> forall r, r ∈ l -> lo <= key r <= hi.
Proof. intros Hl r Hr. rewrite forallb_forall in Hl. apply list_elem_of_In in Hr. specialize (Hl r Hr). lia. Qed.
Lemma readable_json {A} (rows : pystr -> list A) key p lo hi :
  forallb (fun r => (lo <=? key r) && (key r <=? hi)) (rows (Catalog.path small_manifest p)) = true ->
  readable_part small_dataset rows key (json_part p lo hi).
Proof. intros Hl. exists (Catalog.path small_manifest p), lo, hi. repeat split; by apply (all_between _ _ _ _ Hl). Qed.
Lemma small_spatial_in t r : r ∈ small_spatial t -> t = TNode /\ (r = node1 \/ r = node2_old) \/ t = TWay /\ r = way10.
Proof. destruct t; cbn [small_spatial]; rewrite ?elem_of_cons, ?elem_of_nil; naive_solver. Qed.
Lemma small_tier t : tables_ok (files hour_tier t).
Proof.
  destruct t; [|split; done || by apply (bool_decide_unpack _)..]. split; try by apply (bool_decide_unpack _).
  - intros i. cbn [files hour_tier t_byid t_spatial]. rewrite small_find. by destruct (2 =? i).
  - intros i r. cbn [files hour_tier t_byid]. rewrite small_find. destruct (2 =? i); [|done]. intros [= <-]. by eexists.
Qed.
Lemma small_ok : dataset_ok small_dataset.
Proof.
  split; change (d_manifest small_dataset) with small_manifest.
  - intros t. eexists. split; [apply small_tables|]. destruct t; by apply (bool_decide_unpack _).
  - intros t [b|]; [by eexists; apply small_bbox_cells|]. destruct t; by eexists; vm_compute.
  - by eexists; vm_compute.
  - intros c part. apply small_node_files.
  - apply small_flat_files.
  - intros []; eexists; (split; [by vm_compute|]); repeat constructor; by apply readable_json.
  - eexists; (split; [by vm_compute|]); repeat constructor; by apply readable_json.
  - eexists; (split; [by vm_compute|]); constructor.
  - intros []; by vm_compute.
  - intros t. rewrite (proj1 (small_rows t)). destruct t; by apply (bool_decide_unpack _).
  - intros t. rewrite (proj2 (small_rows t)). destruct t; by apply (bool_decide_unpack _).
  - intros t c r. rewrite small_cell_rows. destruct (ROOT_CELL =s c) eqn:E; [apply str_eqb_eq in E as <-|by intros X; inversion X].
    by intros [(-> & [->| ->])|(-> & ->)]%small_spatial_in.
  - intros c f r Hf Hr. assert (Hin : r ∈ cell_rows small_dataset TNode c).
    { apply list_elem_of_In, in_flat_map. exists f. rewrite <- !list_elem_of_In. split; [apply elem_of_app; by right|done]. }
    rewrite small_cell_rows in Hin. destruct (ROOT_CELL =s c); [|by inversion Hin].
    by apply small_spatial_in in Hin as [(_ & [->| ->])|([=] & _)].
  - intros t i. pose proof (small_rows t) as [-> ->]. destruct (find_id i (small_spatial t)) as [r|] eqn:E; [|done].
    apply find_id_Some in E as [[(-> & [->| ->])|(-> & ->)]%small_spatial_in _]; done.
  - split; [|done]. intros m [= <-]. split; [apply small_tier|..|done]. intros typ i p. split; [by intros (x & X & _); inversion X|].
    intros (r & Hr & _ & Hl). destruct typ; [|by inversion Hr..]. cbn in Hr. by apply list_elem_of_singleton in Hr as ->.
  - intros t i r. pose proof (small_newest t i) as (_ & _ & ->). rewrite (proj2 (small_rows t)).
    destruct (bool_decide (t = TNode) && (2 =? i)) eqn:E; [|done]. intros [= <-].
    apply andb_true_iff in E as [->%bool_decide_eq_true <-%Z.eqb_eq]. done.
  - intros t m i Hm. destruct (small_found t m i Hm) as [[-> ->]|(-> & -> & -> & ->)]; done.
  - intros t m r n i Hm Hr Hn. destruct (small_found t m i Hm) as [[_ E]|(-> & -> & _ & E)]; rewrite E in Hr; [done|].
    pose proof (small_newest TNode 2) as (E2 & _). rewrite E2 in Hn. change (Some node2_delta = Some n) in Hn. by injection Hr as <-; injection Hn as <-.
  - intros t i r Hr%small_elements. split; [|done]. by destruct Hr as [(-> & [->| ->])|(-> & ->)].
  - intros t i r Hr. destruct (small_elements t i r) as [(-> & [->| ->])|(-> & ->)]; [by left|..]; cbn; unfold int32; [exists 0, 0|exists 5, 5|]; repeat split; done || lia.
  - intros w r j n lat lon Hr Hj Hn Hlat Hlon.
    destruct (small_elements TWay w r) as [([=] & _)|(_ & ->)]; [by left|]. exists 0, 0, 5, 5. split; [done|].
    destruct (small_elements TNode j n) as [(_ & [->| ->])|([=] & _)]; [by left|..]; injection Hlat as <-; injection Hlon as <-; lia.
  - intros r b q. rewrite (proj1 (small_rows TWay)). intros [([=] & _)|(_ & ->)]%small_spatial_in Hq Hi.
    change (match bbox_e7 b with Ok q => box_in q (Some (0, 0, 5, 5)) | Raise _ => false end = true) in Hi. by rewrite Hq in Hi.
  - intros t i r cells Hr Hc. destruct (small_elements t i r) as [Hr'|Hr']; [by left|..].
    all: replace cells with [ROOT_CELL] by (destruct Hr' as [-> _]; vm_compute in Hc; injection Hc as <-; by vm_compute).
    + by destruct Hr' as (-> & [->| ->]).
    + by destruct Hr' as (-> & ->).
  - intros t i r x0 y0 x1 y1 cells X0 Y0 X1 Y1 Hr Hin. rewrite small_bbox_cells.
    destruct (small_elements t i r) as [(-> & [->| ->])|(-> & ->)]; [by left|..]; cbn in Hin; rewrite small_in_world by (done || lia); by intros [= <-].
  - intros r j. rewrite (proj2 (small_rows TWay)). intros [([=] & _)|(_ & ->)]%small_spatial_in Hj.
    replace (node_way_all small_dataset) with [(1, 10); (2, 10)] by by vm_compute. change (j ∈ [1; 2]) in Hj. change (b_id way10) with 10. rewrite !elem_of_cons in Hj. rewrite !elem_of_cons.
    destruct Hj as [->|[->|X]]; [by left|by right; left|by inversion X].
  - intros r m. rewrite (proj2 (small_rows TRelation)). intros X. inversion X.
  - intros role p c [(n & w & -> & -> & Hin)|(x & t & Hx & _)].
    + replace (node_way_all small_dataset) with [(1, 10); (2, 10)] in Hin by by vm_compute. rewrite !elem_of_cons in Hin.
      exists (to_row WAY true way10). destruct Hin as [[= -> ->]|[[= -> ->]|X]]; [..|by inversion X].
      all: split; [by vm_compute|]; left; (repeat split); by exists [1; 2]; (split; [|apply (bool_decide_unpack _); by vm_compute]).
    + replace (member_all small_dataset) with (@nil member_row) in Hx by by vm_compute. inversion Hx.
Qed.

(** ** A program over it: [way[highway]; >; out;] *)
Abbreviation small_db := (dataset_db small_dataset).
Lemma table_of_typed n t : table_of n = Some t -> n = type_name t.
Proof.
  unfold table_of. destruct (n =s NODE) eqn:E1; [|destruct (n =s WAY) eqn:E2; [|destruct (n =s RELATION) eqn:E3; [|done]]];
    intros [= <-]; by apply str_eqb_eq.
Qed.
Lemma small_db_rows k d : find_row small_db k = Some d <->
  k = (NODE, 1) /\ d = to_row NODE true node1 \/ k = (NODE, 2) /\ d = to_row NODE true (in_root 2 node2_new) \/
  k = (WAY, 10) /\ d = to_row WAY true way10.
Proof.
  split; [|by intros [[-> ->]|[[-> ->]|[-> ->]]]; vm_compute; reflexivity]. destruct k as [n i]. change (find_row small_db (n, i)) with (t ← table_of n; to_row n true <$> current_row small_dataset t i).
  destruct (table_of n) as [t|] eqn:Ht; [|done]. apply table_of_typed in Ht as ->. cbn [mbind option_bind]. destruct (current_row small_dataset t i) as [r|] eqn:E; [|done].
  assert (Hi : b_id r = i) by (rewrite (proj1 (small_current_rows t i)) in E; exact (proj2 (find_id_Some _ _ _ E))). subst i.
  intros [= <-]. destruct (small_elements t (b_id r) r) as [(-> & [->| ->])|(-> & ->)]; [by left|..]; auto.
Qed.
Lemma small_ways k : k ∈ ({[(WAY, 10)]} : gset key) <->
  exists d, find_row small_db k = Some d /\ selected small_db keeps (dataset_inside small_dataset) None (<[u "_" := ∅]> ∅) sample_query k d.
Proof.
  setoid_rewrite small_db_rows. rewrite elem_of_singleton. split.
  - intros ->. eexists. split; [by right; right|]. split; [done|]. split; [|done]. split; [by apply list_elem_of_singleton|by vm_compute].
  - intros (d & [[-> ->]|[[-> ->]|[-> ->]]] & _ & (Ht & _) & _); [..|done]; apply list_elem_of_singleton in Ht; by vm_compute in Ht.
Qed.

Lemma small_way_row : find_row small_db (WAY, 10) = Some (to_row WAY true way10).
Proof. by apply small_db_rows; right; right. Qed.
Lemma small_way_refs c : ref small_db None (WAY, 10) c <-> c = (NODE, 1) \/ c = (NODE, 2).
Proof.
  split.
  - destruct c as [t i]. intros (w & Hw & Hr). rewrite small_way_row in Hw. injection Hw as <-.
    destruct Hr as [(_ & Ht & refs & [= <-] & Hi)|(Hr & _)]; [|by vm_compute in Hr]. cbn [fst snd] in *. subst t.
    rewrite !elem_of_cons, elem_of_nil in Hi. destruct Hi as [->|[->|[]]]; auto.
  - intros Hc. eexists. split; [exact small_way_row|]. left. split; [done|].
    destruct Hc as [-> | ->]; (split; [done|]); exists [1; 2]; (split; [done|]); rewrite !elem_of_cons; auto.
Qed.
Lemma small_nodes k : k ∈ ({[(NODE, 1); (NODE, 2)]} : gset key) <-> exists_ small_db k /\ recursed small_db RDown {[(WAY, 10)]} k.
Proof.
  rewrite elem_of_union, !elem_of_singleton. split.
  - intros Hk. split; [destruct Hk as [-> | ->]; eexists; apply small_db_rows; [by left|by right; left]|].
    exists (WAY, 10). split; [by apply elem_of_singleton|]. left. split; [by apply small_way_refs|]. by destruct Hk as [-> | ->].
  - intros (_ & j & ->%elem_of_singleton & [[Hk _]|(w & Hw & _)]); [by apply small_way_refs|].
    apply small_way_refs in Hw as [E|E]; by vm_compute in E.
Qed.
Lemma small_means : means_all small_db keeps (dataset_inside small_dataset) None (<[u "_" := ∅]> ∅) (statements sample_program)
  [(new_out (u "_"), {[(NODE, 1); (NODE, 2)]})] (<[u "_" := {[(NODE, 1); (NODE, 2)]}]> (<[u "_" := {[(WAY, 10)]}]> (<[u "_" := ∅]> ∅))).
Proof.
  apply (all_cons _ _ _ _ _ _ [] (<[u "_" := {[(WAY, 10)]}]> (<[u "_" := ∅]> ∅))).
  { apply (means_query small_db keeps (dataset_inside small_dataset) None _ sample_query).
    - split_and!; [done|by intros E%list_elem_of_singleton; vm_compute in E|by repeat constructor; set_solver|by repeat constructor|by constructor|by eexists].
    - intros _ n Hn. by inversion Hn.
    - apply small_ways. }
  eapply (all_cons _ _ _ _ _ _ []).
  { apply (means_recurse _ _ _ _ _ RDown (u "_") (u "_") {[(WAY, 10)]}); [by rewrite lookup_insert_eq|apply small_nodes]. }
  eapply (all_cons _ _ _ _ _ _ [_] _ [] []); [|apply all_nil]. apply means_out. by rewrite lookup_insert_eq.
Qed.

#[local] Instance small_reads : RowSources unit := dataset_sources small_dataset.
